(* ===== verification/_CoqProject ===== *)
-Q . S2P
Prelude.v
Str.v
Regex.v
BoardControl.v
Serial.v
Utils.v
Grisu.v
Decimal.v
Json.v
Numbers.v
Stream.v
JsonText.v
JsonSpec.v
JsonWf.v
JsonOps.v
JsonPointer.v
JsonPatch.v
JsonFlatten.v
JsonBinary.v
JsonCbor.v
JsonMsgpack.v
JsonBson.v
Config.v
Startup.v
Calendar.v
QrSegment.v
QrCode.v
QrSvg.v
QrField.v
QrDraw.v
QrPlace.v
QrBlocks.v
QrRead.v
QrText.v
OtpUri.v
Sha1.v
Otp.v
Show.v
Hash.v
Ssl.v
Db.v
Control.v
Sql.v
DbSpec.v
OtpManager.v
Console.v
QrImage.v
QrDemo.v
Handlers.v
Camera.v
Bbox.v
TcpServer.v
DbStore.v
HandlersSpec.v
ServerSpec.v
Threads.v
Writers.v
Client.v
ControlSpec.v
ControlText.v
