(* ===== verification/Prelude.v ===== *)
(** * Verification of the raspi-server repository

    The repository is the software of a crossing guard on a Raspberry Pi: a TLS server that keeps
    lines, detections and accounts in SQLite and talks JSON to its clients; a monitor that reads the
    camera's metadata stream, follows vehicles and switches dot-matrix boards on when a person crosses
    a line; and the libraries both are built on.  This development translates the C++ sources into
    executable definitions and proves what makes them correct, and, where they are not, what goes
    wrong.

    ** The parts and their files

    Foundations.  [Prelude]: machine integers with their wrap-around, bytes, the error type [res] with
    the exceptions of the program, the state monad [M], shared lemmas, tactics and hints.  [Str],
    [Regex], [Numbers], [Stream], [Calendar], [Decimal]: the parts of the C++ library the sources use
    (strings, expressions, stoi/stof and the arithmetic of float, std::cin, dates, decimal to binary).

    JSON (src/src/json.hpp).  [Json]: values, conversions, access.  [Grisu]: the algorithm doubles are
    printed with.  [JsonText]: dump with and without indentation, lexer, parser with its stack.
    [JsonSpec]: what is written reads back as the same value.  [JsonWf]: every value the parser returns
    is well-formed, and the parser returns on every text.  [JsonOps]: access with bounds, capacity,
    modifiers, equality.  [JsonPointer], [JsonPatch], [JsonFlatten]: pointers, patches and merge
    patches, flatten and unflatten.  [JsonBinary]: bytes of numbers, the events of a reader, the handler
    that builds a value of them and the primitives of the readers; [JsonCbor], [JsonMsgpack],
    [JsonBson]: the writers and readers of three binary formats.

    Settings and start.  [Config] (config_manager.cpp): the environment file, the JSON file, the
    address of the video stream.  [Startup] (server.cpp, tcp_run, rtsp_server.cpp, the TLS context):
    the start of the server, with the answers of the system as arguments.

    Boards.  [BoardControl] (metadata/board_control.cpp, metadata/send_time.cpp): checksum, framing,
    time payload, the receive state machine, attempts and acknowledgements, the time sender.  [Serial]:
    the set-up of the ports in both files.

    QR codes (otp/QR-Code-generator, otp/qr_code.cpp).  [QrSegment], [QrCode], [QrSvg]: the generator
    and the image.  [QrField], [QrDraw], [QrPlace], [QrBlocks]: the field of 256 elements, drawing,
    placement and blocks.  [QrRead], [QrText], [QrImage]: a reader as the standard prescribes it, for
    symbols, texts and images.  [QrDemo] (QrCodeGeneratorDemo.cpp): the demonstration program.

    Accounts.  [OtpUri] (otp/otp_uri.cpp), [Otp] (otp/cotp.cpp), [OtpManager] (otp/otp_manager.cpp,
    otp/otp_factory.cpp), [Hash] (hash.cpp), [Utils] (utils.cpp); [Sha1] instantiates the digest.
    [Show]: the time in the log, the printing of these objects, and the functions on the present moment.

    Server.  [Ssl] (ssl.cpp): whole buffers over partial reads and writes, with the counts as OpenSSL
    gets them.  [Db] (db_management.cpp): every database function over the interface [Sqlite]; [Sql]: what
    the texts of CREATE TABLE declare; [DbSpec]: the laws of the interface, with transactions and with
    failures at any call, the tables, and the instance [Memory], whose calls can be made to fail;
    [DbStore]: the functions as a store of finite maps.  [Handlers] (request_handlers.cpp): every handler.  [Camera] (curl_camera.cpp):
    the requests to the camera over the interface [Curl].  [Bbox] (metadata_parser.cpp): bounding
    boxes.  [TcpServer] (tcp_server.cpp): messages, dispatch, threads and the loop of a connection.
    [HandlersSpec], [ServerSpec]: what handlers and connections do.  [Threads]: the handlers cut at their
    locks, and the connections in any order of these stretches.  [Writers]: two threads that write to
    one connection.

    Monitor (metadata/main_control.cpp).  [Control]: the whole program.  [ControlSpec]: alerts,
    tracking, captures, boards.  [ControlText]: the same from the texts the camera sends.

    Clients (test_client).  [Console] (otp_console): the console program.  [Client] (test_client.cpp):
    the test client, and client and server together.

    A C++ function is a definition of the same name.  A function that may throw returns [res]; one that
    changes state is a computation in [M] over a record of that state ([world] for the server,
    [globals] and [monitor] for the monitor, [conn] for the variables of a connection); [Throw
    undefined_behavior] marks where the standard gives no meaning.  Code outside of the repository is
    an argument or an interface with the laws its documentation states: SQLite ([Sqlite],
    [SqliteLaws]), libsodium ([Pwhash], [PwhashLaws]), libcurl ([Curl]), OpenSSL's HMAC, random
    numbers, clocks, serial ports, sockets, and what ffmpeg writes.  Each such law has an instance, on
    which the witnesses are evaluated.  Of SQLite the laws cover the statements of the program where
    every value goes into its column unchanged (by the affinity of the declared type) and leave the rest
    open; texts with a NUL inside are taken like any other.  [healthy] is a database without I/O errors, with the program's
    tables and without an open transaction.

    ** What is proved

    Round trips.  JSON values ([json_roundtrip]), doubles ([grisu2_roundtrip]), frames for the boards
    ([encode_frame_roundtrip]), QR texts, segments and images ([qr_text_roundtrip],
    [qr_segments_roundtrip], [qr_image_roundtrip]), what the demo prints ([demo_prints_readable]),
    JSON pointers, with the texts that are none ([pointer_text_roundtrip]), differences and their patches ([patch_diff]), flattened
    values ([unflatten_flatten]), CBOR, MessagePack and BSON ([cbor_roundtrip], [msgpack_roundtrip],
    [bson_roundtrip], with the sizes inside of a document, [bson_document_size]),
    messages ([message_roundtrip]), otpauth URIs, both configuration files ([env_file_loaded],
    [config_file_roundtrip]) and the requests to the camera ([put_line_roundtrip]).

    Types and termination.  [parse_well_formed]: no text makes the parser return a value that cannot
    be written; [parse_terminates]: the parser returns a value or one of its two exceptions on every
    text; [handle_client_ends], [console_ends]: the loops end;
    [cbor_reader_safe], [msgpack_reader_safe], [bson_reader_safe]: no input makes a reader of a binary
    format run on, or call its handler out of order.

    References.  The checksum is CRC-16/ARC ([crc16_correct]); one-time passwords are those of RFC 4226
    and RFC 6238 ([generate_rfc4226], [verify_int_exact]); the codewords of a symbol are Reed-Solomon
    codewords ([new_QrCode_symbol]); both time senders agree ([send_time_agrees]); merge patches are
    those of RFC 7396 ([merge_patch_correct]).

    Refinement and composition.  [connection_refines_session]: the loop of a connection implements a
    server that is handed its requests one by one, however the bytes are cut.  [login_end_to_end]: the
    test client and the server agree on a login.  [database_refines_store]: the database functions, on
    the tables their own texts create, implement a store of maps with the declared keys.
    [crossing_raises_alerts]: from the text of an event to the alerts.  [alert_switches_display]: from an alert to the frames on the right port.

    Functional correctness.  Logins and registration ([login_step1_correct],
    [login_step2_recovery_once], [signup_new_account]); alerts ([alerts_exact]: exactly the boards
    opposite to the displays near approaching vehicles); histories ([vehicle_update_exact]); captures
    in Korean time ([capture_korean_time]); delivery of bounding boxes ([bbox_delivery]).

    Invariants and safety.  Atomic storage of recovery codes whatever call of the database fails
    ([store_recovery_codes_atomic]), bounds of the monitor's state over all reachable
    states ([tracking_invariant]), threads of a connection ([bbox_threads_safe]), one winner among the
    connections that present one recovery code ([recovery_code_one_winner]), the order in which
    the two threads of the server load the settings ([start_order_irrelevant]).

    Flaws.  A malformed message or a long id ends the server ([bad_message_terminates],
    [long_id_terminates]); the log of a request can be quadratic ([nested_request_log]); a number above
    INT_MAX ends the monitor ([monitor_stops]); a line of length zero is parallel to everything
    ([degenerate_line_alerts]); a registration for a taken id replaces its one-time password in memory
    ([signup_taken_replaces_otp]); a client that leaves blocks its handler ([cleanup_waits_for_parser]);
    one client's stop silences the others ([stop_silences_others]); console recovery codes that start
    with a digit are useless ([console_recovery_code]); the address of the stream is wrong for a
    password with two at signs ([rtsp_url_host]); a request for all lines loses one that is added
    meanwhile ([select_all_loses_line]); logins write a shared table without a lock ([logins_race]); an
    answer and a push on one connection mix ([unlocked_writes]); frames with a byte 10 are changed by
    the terminal ([newline_frames_altered]); the header's reader of boxes does not read what is sent
    ([boxes_sent_not_read]); a frame of 2^31 bytes or more, whose length is a negative count for OpenSSL,
    closes the connection (part of [connection_refines_session]).  In json.hpp: [diff_sign_blind], [patch_below_primitive],
    [unflatten_zero_key], [cbor_negative_wraps], [bson_cut_string].

    ** Bounds

    Loops that are not structural take fuel.  It is the number of bytes or characters left where each
    turn reads one ([scan_string], [fgets_all], [matches], [packet_loop], [client_loop]), twice that
    and two for the parser's loop ([sax_parse_internal]), the input and two for the dialogues
    ([console_main], [client_main]), the input and one or two for the readers of the binary formats, the
    number of polls within a timeout for [wait_ack], and a
    constant where 32 or 64 bits bound the turns (digits, normalization, the rounds of Grisu, Base64).
    The theorems named under termination, and the totality inside the round trips, show that these are
    enough.  Theorems about messages that arrive or are sent whole are for less than 2^31 bytes, the
    largest count [SSL_read] and [SSL_write] take.

    ** Not modelled

    What the compiler and the machine add: stack depth, memory exhaustion, and the contraction of
    floating-point expressions (each operation is rounded on its own).  Sizes are those of a 64-bit
    machine; the signedness of char is an argument where it matters.  Threads: the connections
    interleave between their locks, and the detached threads of an alert are returned as values; a data
    race has no outcome in the model, and overlapping loads of the configuration and overlapping calls
    of OpenSSL on one connection are left out; a thread that was told to stop is taken to return from
    the read it is in.  The reader of QR symbols is written from the standard but shares the tables of
    error correction, the mask formulas and the order of placement with the generator.  The mask of a
    board id is that of 1 to 32 (the program's ids are 1 to 4).  Pure I/O: sockets and GStreamer beyond whether their set-up succeeds, and the output on the
    console except the log's time, the objects of the one-time passwords and what can throw.  Of
    json.hpp the parts the program does not use and that are not named above: UBJSON and BJData,
    iterators, conversions of user types, parsing with a callback, the ASCII-only writer.  The build
    files hold no logic of the program. *)

From stdpp Require Export base tactics numbers list gmap strings.
From Stdlib Require Export ZArith Lia.
From Stdlib Require Import Ascii.

Declare Scope raspi_scope.
Delimit Scope raspi_scope with raspi.
Global Open Scope Z_scope.

(** ** Machine integers *)

(** Conversion of an integer to [uint8_t], [uint16_t], [uint32_t], [uint64_t]/[size_t]
    and to a 32-bit and 64-bit two's complement integer. *)
Definition u8 (z : Z) : Z := z mod 2 ^ 8.
Definition u16 (z : Z) : Z := z mod 2 ^ 16.
Definition u32 (z : Z) : Z := z mod 2 ^ 32.
Definition u64 (z : Z) : Z := z mod 2 ^ 64.
Definition s32 (z : Z) : Z := (z + 2 ^ 31) mod 2 ^ 32 - 2 ^ 31.
Definition s64 (z : Z) : Z := (z + 2 ^ 63) mod 2 ^ 64 - 2 ^ 63.

Definition INT_MAX : Z := 2 ^ 31 - 1.

Lemma s32_small z : - 2 ^ 31 <= z < 2 ^ 31 -> s32 z = z.
Proof. intros H. unfold s32. rewrite Z.mod_small; lia. Qed.

(** A byte value and a list of byte values. *)
Definition is_byte (b : Z) : Prop := 0 <= b < 256.
Abbreviation bytes_ok := (Forall is_byte).

#[export] Instance is_byte_dec b : Decision (is_byte b).
Proof. unfold is_byte. apply _. Defined.

(** [n] iterations of a loop body on its state. *)
Fixpoint loop {A} (n : nat) (f : A -> A) (x : A) : A :=
  match n with O => x | S n' => f (loop n' f x) end.

(** ** Exceptions *)

(** The exception classes the program throws or catches, with the name of the C++ class.
    [json_type_error], [json_out_of_range], [json_invalid_iterator], [json_other_error] and
    [json_parse_error] are the classes of the JSON library; they derive from [std::exception] only.
    [undefined_behavior] is not an exception: it marks a run about which the language says nothing, and
    no [catch] clause selects it. *)
Inductive exn :=
| logic_error (what : string)
| domain_error (what : string)
| invalid_argument (what : string)
| length_error (what : string)
| out_of_range (what : string)
| runtime_error (what : string)
| sqlite_error (what : string)
| json_type_error (code : Z)
| json_out_of_range (code : Z)
| json_invalid_iterator (code : Z)
| json_other_error (code : Z)
| json_parse_error
| undefined_behavior.

(** Which handlers a [catch] clause selects: [std::runtime_error] and its subclasses
    ([SQLite::Exception] is one), [std::logic_error] and its subclasses. *)
Definition is_runtime_error (e : exn) : bool :=
  match e with runtime_error _ | sqlite_error _ => true | _ => false end.

Definition is_logic_error (e : exn) : bool :=
  match e with
  | logic_error _ | domain_error _ | invalid_argument _ | length_error _ | out_of_range _ => true
  | _ => false
  end.

(** [catch (const std::exception&)]. *)
Definition is_std_exception (e : exn) : bool :=
  match e with undefined_behavior => false | _ => true end.

Definition is_json_parse_error (e : exn) : bool :=
  match e with json_parse_error => true | _ => false end.

(** The outcome of a computation that may throw. *)
Inductive res (A : Type) :=
| Ok (a : A)
| Throw (e : exn).
Arguments Ok {A} a.
Arguments Throw {A} e.

#[export] Instance res_ret : MRet res := @Ok.
#[export] Instance res_bind : MBind res := fun A B f m =>
  match m with Ok a => f a | Throw e => Throw e end.
#[export] Instance res_fmap : FMap res := fun A B f m =>
  match m with Ok a => Ok (f a) | Throw e => Throw e end.

(** A computation over a state [S] that may throw: what was written before the exception
    stays written. *)
Definition M (S A : Type) : Type := S -> res A * S.

#[export] Instance M_ret {S} : MRet (M S) := fun A a s => (Ok a, s).
#[export] Instance M_bind {S} : MBind (M S) := fun A B f m s =>
  match m s with
  | (Ok a, s') => f a s'
  | (Throw e, s') => (Throw e, s')
  end.

#[export] Instance M_fmap {S} : FMap (M S) := fun A B f m s =>
  match m s with
  | (Ok a, s') => (Ok (f a), s')
  | (Throw e, s') => (Throw e, s')
  end.

Definition getS {S} : M S S := fun s => (Ok s, s).
Definition putS {S} (s : S) : M S unit := fun _ => (Ok tt, s).
Definition modS {S} (f : S -> S) : M S unit := fun s => (Ok tt, f s).
Definition throwM {S A} (e : exn) : M S A := fun s => (Throw e, s).
Definition liftR {S A} (r : res A) : M S A := fun s => (r, s).

(** [try m catch (p e) h]: the handler runs on the state left by [m] when the exception is
    one the clause selects, and the exception goes on otherwise. *)
Definition try_catch {S A} (m : M S A) (p : exn -> bool) (h : exn -> M S A) : M S A := fun s =>
  match m s with
  | (Throw e, s') => if p e then h e s' else (Throw e, s')
  | r => r
  end.

(** ** Characters and strings *)

(** The code of a character as an unsigned byte. *)
Definition code (c : ascii) : Z := Z.of_N (N_of_ascii c).

(** The character of a byte. *)
Definition chr (b : Z) : ascii := ascii_of_N (Z.to_N (u8 b)).

(** The bytes of a string and the string of a list of bytes. *)
Fixpoint bytes_of (s : string) : list Z :=
  match s with EmptyString => [] | String c s' => code c :: bytes_of s' end.

Fixpoint string_of (bs : list Z) : string :=
  match bs with [] => EmptyString | b :: bs' => String (chr b) (string_of bs') end.

Fixpoint all_chars (p : ascii -> bool) (s : string) : bool :=
  match s with EmptyString => true | String c s' => p c && all_chars p s' end.

Definition str_empty (s : string) : bool :=
  match s with EmptyString => true | _ => false end.

Definition is_digit (c : ascii) : bool := (48 <=? code c) && (code c <=? 57).

(** ** Proof automation *)

Create HintDb raspi.

Lemma u8_range z : 0 <= u8 z < 256.
Proof. unfold u8. apply Z.mod_pos_bound. lia. Qed.

Lemma u16_range z : 0 <= u16 z < 2 ^ 16.
Proof. unfold u16. apply Z.mod_pos_bound. lia. Qed.

Lemma u32_range z : 0 <= u32 z < 2 ^ 32.
Proof. unfold u32. apply Z.mod_pos_bound. lia. Qed.

Lemma u64_range z : 0 <= u64 z < 2 ^ 64.
Proof. unfold u64. apply Z.mod_pos_bound. lia. Qed.

Lemma u8_is_byte z : is_byte (u8 z).
Proof. apply u8_range. Qed.

Lemma u8_id z : is_byte z -> u8 z = z.
Proof. unfold is_byte, u8. intros. apply Z.mod_small. lia. Qed.

Lemma u16_id z : 0 <= z < 2 ^ 16 -> u16 z = z.
Proof. apply Z.mod_small. Qed.

Lemma u64_id z : 0 <= z < 2 ^ 64 -> u64 z = z.
Proof. apply Z.mod_small. Qed.

#[export] Hint Resolve u8_range u16_range u32_range u64_range u8_is_byte u8_id u16_id : raspi.

(** Bits of a truncated integer. *)
Lemma testbit_mod_pow2 z n i :
  0 <= n -> 0 <= i -> Z.testbit (z mod 2 ^ n) i = (i <? n) && Z.testbit z i.
Proof.
  intros Hn Hi. destruct (Z.ltb_spec i n).
  - rewrite Z.mod_pow2_bits_low by lia. done.
  - rewrite Z.mod_pow2_bits_high by lia. done.
Qed.

Lemma testbit_out n z i : 0 <= z < 2 ^ n -> 0 <= n -> n <= i -> Z.testbit z i = false.
Proof.
  intros Hz Hn Hi. rewrite <- (Z.mod_small z (2 ^ n)) by done.
  by apply Z.mod_pow2_bits_high.
Qed.

Lemma lxor_pow2_range a b n : 0 <= n -> 0 <= a < 2 ^ n -> 0 <= b < 2 ^ n -> 0 <= Z.lxor a b < 2 ^ n.
Proof.
  intros Hn Ha Hb. split; [apply Z.lxor_nonneg; lia|].
  rewrite <- (Z.mod_small a (2 ^ n)), <- (Z.mod_small b (2 ^ n)) by lia.
  assert (Z.lxor (a mod 2 ^ n) (b mod 2 ^ n) = Z.lxor (a mod 2 ^ n) (b mod 2 ^ n) mod 2 ^ n) as ->.
  { apply Z.bits_inj'. intros i Hi. rewrite Z.lxor_spec, !testbit_mod_pow2, Z.lxor_spec,
      !testbit_mod_pow2 by lia. by destruct (i <? n), (Z.testbit a i), (Z.testbit b i). }
  apply Z.mod_pos_bound. lia.
Qed.

Lemma lor_shiftl_add x y n : 0 <= n -> 0 <= y < 2 ^ n -> Z.lor (Z.shiftl x n) y = x * 2 ^ n + y.
Proof.
  intros Hn Hy. rewrite <- Z.shiftl_mul_pow2 by lia.
  assert (Z.land (Z.shiftl x n) y = 0) as H0.
  { apply Z.bits_inj'. intros i Hi. rewrite Z.land_spec, Z.testbit_0_l, Z.shiftl_spec by lia.
    destruct (Z.ltb_spec i n).
    - by rewrite Z.testbit_neg_r by lia.
    - by rewrite (testbit_out n y), andb_false_r by lia. }
  pose proof (Z.add_lor_land (Z.shiftl x n) y). lia.
Qed.

(** Equality of two integers below [2^n] from their bits. *)
Lemma bits_inj_bounded n a b :
  0 <= n -> 0 <= a < 2 ^ n -> 0 <= b < 2 ^ n ->
  (forall i, 0 <= i < n -> Z.testbit a i = Z.testbit b i) -> a = b.
Proof.
  intros Hn Ha Hb H. apply Z.bits_inj'. intros i Hi.
  destruct (Z.ltb_spec i n); [by apply H|]. by rewrite !(testbit_out n) by lia.
Qed.

(** Rewrites a bit of a compound integer expression into bits of its parts. *)
#[export] Hint Rewrite Z.lxor_spec Z.land_spec Z.lor_spec Z.testbit_0_l : bits.

Ltac bits_step :=
  autorewrite with bits;
  repeat match goal with
  | |- context [Z.testbit (Z.shiftl _ _) _] => rewrite Z.shiftl_spec by lia
  | |- context [Z.testbit (Z.shiftr _ _) _] => rewrite Z.shiftr_spec by lia
  | |- context [Z.testbit (_ mod 2 ^ _) _] => rewrite testbit_mod_pow2 by lia
  end.

(** Case analysis on the innermost [match] or [if] of the goal or of a hypothesis. *)
Ltac dmatch :=
  match goal with
  | |- context [match ?x with _ => _ end] =>
      lazymatch x with context [match _ with _ => _ end] => fail | _ => destruct x eqn:? end
  | H : context [match ?x with _ => _ end] |- _ =>
      lazymatch x with context [match _ with _ => _ end] => fail | _ => destruct x eqn:? end
  end.

(** Boolean comparisons to propositions. *)
Ltac breflect :=
  repeat match goal with
  | H : (_ && _) = true |- _ => apply andb_true_iff in H as [? ?]
  | H : (_ || _) = false |- _ => apply orb_false_iff in H as [? ?]
  | H : (_ <? _) = true |- _ => apply Z.ltb_lt in H
  | H : (_ <? _) = false |- _ => apply Z.ltb_ge in H
  | H : (_ <=? _) = true |- _ => apply Z.leb_le in H
  | H : (_ <=? _) = false |- _ => apply Z.leb_gt in H
  | H : (_ =? _) = true |- _ => apply Z.eqb_eq in H
  | H : (_ =? _) = false |- _ => apply Z.eqb_neq in H
  end.

(** A property of every integer of [0, n) from a check over the list of them. *)
Lemma forall_below (n : nat) (P : Z -> bool) :
  forallb P (map Z.of_nat (List.seq 0 n)) = true ->
  forall z, 0 <= z < Z.of_nat n -> P z = true.
Proof.
  intros H z Hz. rewrite forallb_forall in H. apply H.
  apply in_map_iff. exists (Z.to_nat z). split; [lia|]. apply in_seq. lia.
Qed.

Lemma forall_below2 (n m : nat) (P : Z -> Z -> bool) :
  forallb (fun a => forallb (P a) (map Z.of_nat (List.seq 0 m))) (map Z.of_nat (List.seq 0 n)) = true ->
  forall a b, 0 <= a < Z.of_nat n -> 0 <= b < Z.of_nat m -> P a b = true.
Proof. intros H a b Ha Hb. apply (forall_below m); [|done]. apply (forall_below n _ H a Ha). Qed.

Lemma forall_below3 (n m k : nat) (P : Z -> Z -> Z -> bool) :
  forallb (fun a => forallb (fun b => forallb (P a b) (map Z.of_nat (List.seq 0 k)))
    (map Z.of_nat (List.seq 0 m))) (map Z.of_nat (List.seq 0 n)) = true ->
  forall a b c, 0 <= a < Z.of_nat n -> 0 <= b < Z.of_nat m -> 0 <= c < Z.of_nat k -> P a b c = true.
Proof. intros H a b c Ha Hb Hc. apply (forall_below k); [|done]. by apply (forall_below2 n m _ H). Qed.

(** An equation between integers that depends on two or three small numbers, by evaluation. *)
Ltac check_below2 n a b :=
  apply Z.eqb_eq;
  match goal with |- ?e = true =>
    match eval pattern a, b in e with
    | ?P _ _ => apply (forall_below2 n n P); [by vm_compute|done|done]
    end
  end.
Ltac check_below3 n a b c :=
  apply Z.eqb_eq;
  match goal with |- ?e = true =>
    match eval pattern a, b, c in e with
    | ?P _ _ _ => apply (forall_below3 n n n P); [by vm_compute|done|done|done]
    end
  end.

Lemma code_chr b : is_byte b -> code (chr b) = b.
Proof.
  intros H. unfold code, chr. rewrite u8_id by done. unfold is_byte in H.
  rewrite N_ascii_embedding by lia. lia.
Qed.

Lemma bytes_of_string_of bs : bytes_ok bs -> bytes_of (string_of bs) = bs.
Proof. induction 1 as [|b bs Hb _ IH]; cbn; [done|]. by rewrite code_chr, IH. Qed.

Lemma chr_code c : chr (code c) = c.
Proof. unfold chr, code. rewrite u8_id by (pose proof (N_ascii_bounded c); unfold is_byte; lia). by rewrite N2Z.id, ascii_N_embedding. Qed.

Lemma string_of_bytes_of t : string_of (bytes_of t) = t.
Proof. induction t as [|c t IH]; cbn; [done|]. by rewrite chr_code, IH. Qed.

Lemma code_byte c : is_byte (code c).
Proof. unfold code, is_byte. pose proof (N_ascii_bounded c). lia. Qed.

Lemma bytes_of_length s : length (bytes_of s) = String.length s.
Proof. induction s as [|c s IH]; cbn; [done|]. by rewrite IH. Qed.

Lemma bytes_of_ok s : bytes_ok (bytes_of s).
Proof. induction s; constructor; [apply code_byte|done]. Qed.
