(* ===== verification/Str.v ===== *)
(** * std::string

    The operations of the C++ standard library on strings the program uses: [find], [substr],
    decimal conversions both ways, and the lemmas on them the parsers share. *)

From S2P Require Import Prelude.
From Stdlib Require Import Ascii.
From Stdlib Require String.

#[global] Arguments String.append _ _ : simpl nomatch.

(** [s.substr(p)] and [s.substr(0, n)] for a position inside the string. *)
Fixpoint str_drop (p : nat) (s : string) : string :=
  match p, s with
  | O, _ => s
  | S p, String _ s => str_drop p s
  | S _, EmptyString => EmptyString
  end.

Fixpoint str_take (n : nat) (s : string) : string :=
  match n, s with
  | S n, String c s => String c (str_take n s)
  | _, _ => EmptyString
  end.

(** [s.find(c)] and [s.find(c, p)]; [None] is [npos]. *)
Fixpoint find_char (c : ascii) (s : string) : option nat :=
  match s with
  | EmptyString => None
  | String d s => if Ascii.eqb d c then Some O else S <$> find_char c s
  end.

Definition find_char_from (c : ascii) (s : string) (p : nat) : option nat :=
  (fun i => p + i)%nat <$> find_char c (str_drop p s).

Definition has_char (c : ascii) (s : string) : bool :=
  match find_char c s with Some _ => true | None => false end.

(** The bytes up to the first zero: a [std::string] read as a C string. *)
Fixpoint c_str (s : string) : string :=
  match s with
  | String c s => if code c =? 0 then EmptyString else String c (c_str s)
  | EmptyString => EmptyString
  end.

(** A double quote. *)
Definition quote : string := String (Ascii.ascii_of_nat 34) EmptyString.

(** Whether [s] starts with [l], and the first position of [l] in [s] ([s.find(l)]). *)
Fixpoint prefixb (l s : string) : bool :=
  match l, s with
  | EmptyString, _ => true
  | String c l, String d s => Ascii.eqb d c && prefixb l s
  | String _ _, EmptyString => false
  end.

Fixpoint find_sub (l s : string) : option nat :=
  if prefixb l s then Some O
  else match s with String _ s' => S <$> find_sub l s' | EmptyString => None end.

(** ** Decimal numbers *)

Definition digit_char (d : Z) : ascii := chr (48 + d).

Fixpoint dec_digits (fuel : nat) (n : Z) (acc : string) : string :=
  match fuel with
  | O => acc
  | S fuel =>
      let acc := String (digit_char (n mod 10)) acc in
      if n / 10 =? 0 then acc else dec_digits fuel (n / 10) acc
  end.

(** [std::to_string] of an unsigned integer. *)
Definition to_string (n : Z) : string := dec_digits (S (Z.to_nat (Z.log2 n))) n EmptyString.

(** [std::to_string(int)]. *)
Definition int_string (z : Z) : string := if z <? 0 then String "-" (to_string (- z)) else to_string z.

(** The value of a string of digits read after [acc]. *)
Fixpoint dec_value (acc : Z) (s : string) : Z :=
  match s with
  | EmptyString => acc
  | String c s => dec_value (10 * acc + (code c - 48)) s
  end.

Definition is_space (c : ascii) : bool := ((9 <=? code c) && (code c <=? 13)) || (code c =? 32).

Fixpoint skip_spaces (s : string) : string :=
  match s with
  | String c s' => if is_space c then skip_spaces s' else s
  | EmptyString => EmptyString
  end.

Fixpoint take_digits (s : string) : string :=
  match s with
  | String c s' => if is_digit c then String c (take_digits s') else EmptyString
  | EmptyString => EmptyString
  end.

(** [std::stoul] and [std::stoull] in base 10, both 64 bits wide here: leading white space and a
    sign are skipped, and a minus sign negates modulo [2 ^ 64]. *)
Definition stoul (s : string) : res Z :=
  let s := skip_spaces s in
  let '(neg, s) :=
    match s with
    | String "-" s' => (true, s')
    | String "+" s' => (false, s')
    | _ => (false, s)
    end in
  let ds := take_digits s in
  if str_empty ds then Throw (invalid_argument "stoul")
  else let v := dec_value 0 ds in
       if v <? 2 ^ 64 then Ok (if neg then u64 (- v) else v) else Throw (out_of_range "stoul").

(** ** Lemmas *)

Lemma append_assoc s t u : (s +:+ t) +:+ u = s +:+ (t +:+ u).
Proof. induction s as [|c s IH]; cbn; [done|]. by rewrite IH. Qed.

Lemma append_nil s : s +:+ EmptyString = s.
Proof. induction s as [|c s IH]; cbn; [done|]. by rewrite IH. Qed.

Lemma append_length s t : String.length (s +:+ t) = (String.length s + String.length t)%nat.
Proof. induction s as [|c s IH]; cbn; [done|]. by rewrite IH. Qed.

Lemma append_cons c s t : String c s +:+ t = String c (s +:+ t).
Proof. done. Qed.

Lemma str_drop_app s t : str_drop (String.length s) (s +:+ t) = t.
Proof. induction s as [|c s IH]; cbn; done. Qed.

Lemma str_take_app s t : str_take (String.length s) (s +:+ t) = s.
Proof. induction s as [|c s IH]; cbn; [by destruct t|]. by rewrite IH. Qed.

Lemma find_char_app c s t : has_char c s = false ->
  find_char c (s +:+ t) = (fun i => String.length s + i)%nat <$> find_char c t.
Proof.
  unfold has_char. induction s as [|d s IH]; cbn; [by destruct (find_char c t)|].
  destruct (Ascii.eqb d c); [done|]. intros H. rewrite IH by (by destruct (find_char c s)).
  by destruct (find_char c t).
Qed.

Lemma has_char_none c s : has_char c s = false -> find_char c s = None.
Proof. unfold has_char. by destruct (find_char c s). Qed.

Lemma has_char_app c s t : has_char c (s +:+ t) = has_char c s || has_char c t.
Proof.
  unfold has_char. induction s as [|d s IH]; cbn; [done|].
  destruct (Ascii.eqb d c); [done|]. revert IH.
  by destruct (find_char c (s +:+ t)), (find_char c s), (find_char c t).
Qed.

Lemma has_char_cons c d s : has_char c (String d s) = Ascii.eqb d c || has_char c s.
Proof. unfold has_char. cbn. destruct (Ascii.eqb d c); [done|]. by destruct (find_char c s). Qed.

Lemma find_char_from_short c s p : (String.length s <= p)%nat -> find_char_from c s p = None.
Proof.
  unfold find_char_from. revert p. induction s as [|d s IH]; intros [|p] H; cbn in *; try done.
  - lia.
  - specialize (IH p ltac:(lia)). destruct (find_char c (str_drop p s)); done.
Qed.

(** Looking from a later position finds at most what looking from the start finds. *)
Lemma find_char_from_none c s p : has_char c (str_drop p s) = false -> find_char_from c s p = None.
Proof. intros H. unfold find_char_from. by rewrite has_char_none. Qed.

Lemma all_chars_app p s t : all_chars p (s +:+ t) = all_chars p s && all_chars p t.
Proof. induction s as [|c s IH]; cbn; [done|]. rewrite IH. by destruct (p c). Qed.

Lemma code_digit_char d : 0 <= d < 10 -> code (digit_char d) = 48 + d.
Proof.
  intros H. pose proof (forall_below 10 (fun d => code (digit_char d) =? 48 + d)) as F.
  cbv beta in F. apply Z.eqb_eq. by apply F.
Qed.

Lemma is_digit_digit_char d : 0 <= d < 10 -> is_digit (digit_char d) = true.
Proof. intros H. unfold is_digit. rewrite code_digit_char by done. lia. Qed.

Lemma dec_digits_spec fuel n acc : 0 <= n < 10 ^ Z.of_nat fuel -> (0 < fuel)%nat ->
  dec_value 0 (dec_digits fuel n acc) = dec_value n acc
  /\ all_chars is_digit (dec_digits fuel n acc) = all_chars is_digit acc
  /\ (String.length acc < String.length (dec_digits fuel n acc))%nat.
Proof.
  revert n acc. induction fuel as [|fuel IH]; intros n acc Hn Hf; [lia|].
  assert (Hm : 0 <= n mod 10 < 10) by (apply Z.mod_pos_bound; lia).
  cbn [dec_digits]. destruct (Z.eqb_spec (n / 10) 0) as [E|E].
  - cbn [dec_value all_chars String.length]. rewrite is_digit_digit_char, code_digit_char by done.
    repeat split; [|lia]. f_equal. Z.to_euclidean_division_equations; lia.
  - rewrite Nat2Z.inj_succ, Z.pow_succ_r in Hn by lia.
    destruct fuel as [|fuel']; [cbn in Hn; Z.to_euclidean_division_equations; lia|].
    destruct (IH (n / 10) (String (digit_char (n mod 10)) acc)) as (I1 & I2 & I3).
    { split; [apply Z.div_pos; lia|]. apply Z.div_lt_upper_bound; lia. }
    { lia. }
    rewrite I1, I2. cbn [dec_value all_chars String.length] in *.
    rewrite is_digit_digit_char, code_digit_char by done. repeat split; [|lia].
    f_equal. Z.to_euclidean_division_equations; lia.
Qed.

Lemma dec_fuel n : 0 <= n -> n < 10 ^ Z.of_nat (S (Z.to_nat (Z.log2 n))).
Proof.
  intros Hn. pose proof (Z.log2_nonneg n).
  rewrite Nat2Z.inj_succ, Z2Nat.id by done. destruct (Z.eq_dec n 0) as [->|]; [done|].
  pose proof (Z.log2_spec n ltac:(lia)).
  apply Z.lt_le_trans with (2 ^ Z.succ (Z.log2 n)); [lia|]. apply Z.pow_le_mono_l. lia.
Qed.

Lemma to_string_spec n : 0 <= n ->
  dec_value 0 (to_string n) = n /\ all_chars is_digit (to_string n) = true
  /\ to_string n <> EmptyString.
Proof.
  intros Hn. pose proof (dec_fuel n Hn).
  destruct (dec_digits_spec (S (Z.to_nat (Z.log2 n))) n EmptyString) as (H1 & H2 & H3); [lia..|].
  unfold to_string. repeat split; [done..|]. intros E. rewrite E in H3. cbn in H3. lia.
Qed.

Lemma dec_digits_length fuel n acc (d : nat) : 0 <= n < 10 ^ Z.of_nat d -> (0 < d)%nat ->
  (String.length (dec_digits fuel n acc) <= d + String.length acc)%nat.
Proof.
  revert n acc d. induction fuel as [|fuel IH]; intros n acc d Hn Hd; cbn [dec_digits]; [lia|].
  destruct (Z.eqb_spec (n / 10) 0) as [E|E]; [cbn; lia|].
  destruct d as [|[|d]]; [lia|cbn in Hn; Z.to_euclidean_division_equations; lia|].
  pose proof (IH (n / 10) (String (digit_char (n mod 10)) acc) (S d)) as H.
  rewrite Nat2Z.inj_succ, Z.pow_succ_r in Hn by lia. cbn [String.length] in H.
  assert (0 <= n / 10 < 10 ^ Z.of_nat (S d)); [|specialize (H ltac:(done) ltac:(lia)); lia].
  split; [apply Z.div_pos; lia|apply Z.div_lt_upper_bound; lia].
Qed.

(** A number below [10 ^ d] is written with at most [d] digits. *)
Lemma to_string_length n d : 0 <= n < 10 ^ Z.of_nat d -> (0 < d)%nat ->
  (String.length (to_string n) <= d)%nat.
Proof.
  intros Hn Hd. unfold to_string. rewrite <- (Nat.add_0_r d). by apply dec_digits_length.
Qed.

Lemma take_digits_all s : all_chars is_digit s = true -> take_digits s = s.
Proof.
  induction s as [|c s IH]; cbn; [done|]. intros H. apply andb_prop in H as [H1 H2].
  by rewrite H1, IH.
Qed.

Lemma digit_not_space c : is_digit c = true -> is_space c = false.
Proof. unfold is_digit, is_space. lia. Qed.

Lemma digit_not_char c d : is_digit c = true -> is_digit d = false -> c <> d.
Proof. by intros H1 H2 ->; rewrite H1 in H2. Qed.

(** Reading back the decimal notation of a 64-bit number. *)
Lemma stoul_digits s : all_chars is_digit s = true -> s <> EmptyString ->
  dec_value 0 s < 2 ^ 64 -> stoul s = Ok (dec_value 0 s).
Proof.
  intros Hd Hne Hv. unfold stoul. destruct s as [|c s]; [done|].
  cbn [all_chars] in Hd. apply andb_prop in Hd as [Hc Hs].
  cbn [skip_spaces]. rewrite digit_not_space by done.
  assert (Hsel : match String c s with
    | String "-" s' => (true, s') | String "+" s' => (false, s') | _ => (false, String c s) end
    = (false, String c s)).
  { revert Hc. clear. destruct c as [[] [] [] [] [] [] [] []]; by vm_compute. }
  rewrite Hsel. rewrite take_digits_all by (cbn; by rewrite Hc). cbn [str_empty].
  by apply Z.ltb_lt in Hv as ->.
Qed.

Lemma stoul_to_string n : 0 <= n < 2 ^ 64 -> stoul (to_string n) = Ok n.
Proof.
  intros Hn. destruct (to_string_spec n) as (H1 & H2 & H3); [lia|].
  rewrite stoul_digits; [by rewrite H1|done..|lia].
Qed.

(** A string of characters of a class has no character outside of it. *)
Lemma all_chars_has_no p c s : p c = false -> all_chars p s = true -> has_char c s = false.
Proof.
  intros Hc. induction s as [|d s IH]; cbn [all_chars]; [done|]. intros H.
  apply andb_prop in H as [H1 H2]. rewrite has_char_cons, IH by done.
  destruct (Ascii.eqb_spec d c); [by subst; rewrite H1 in Hc|done].
Qed.

Lemma str_drop_add a b s : str_drop (a + b) s = str_drop b (str_drop a s).
Proof. revert s. induction a as [|a IH]; intros [|c s]; cbn; try done. by destruct b. Qed.

Lemma str_drop_length p s : String.length (str_drop p s) = (String.length s - p)%nat.
Proof. revert p. induction s as [|c s IH]; intros [|p]; cbn; done || apply IH. Qed.

Lemma has_char_drop c p s : has_char c s = false -> has_char c (str_drop p s) = false.
Proof.
  revert p. induction s as [|d s IH]; intros [|p]; cbn [str_drop]; try done.
  rewrite has_char_cons. intros H. apply orb_false_elim in H as [_ H]. by apply IH.
Qed.

(** A property of characters is checked on all 256 of them. *)
Lemma forall_ascii (P : ascii -> bool) :
  forallb P (map ascii_of_nat (List.seq 0 256)) = true -> forall c, P c = true.
Proof.
  intros H c. rewrite forallb_forall in H. apply H. rewrite <- (ascii_nat_embedding c).
  apply in_map. apply in_seq. pose proof (nat_ascii_bounded c). lia.
Qed.

(** The next separator, when what is left starts with a text that has none. *)
Lemma find_char_from_app c s p t rest :
  has_char c t = false -> str_drop p s = t +:+ String c rest ->
  find_char_from c s p = Some (p + String.length t)%nat.
Proof.
  intros Hn Hd. unfold find_char_from. rewrite Hd, find_char_app by done. cbn [find_char].
  rewrite Ascii.eqb_refl. cbn. by rewrite Nat.add_0_r.
Qed.

Lemma all_chars_impl (p q : ascii -> bool) s :
  (forall c, implb (p c) (q c) = true) -> all_chars p s = true -> all_chars q s = true.
Proof.
  intros H. induction s as [|c s IH]; cbn [all_chars]; [done|]. intros E.
  apply andb_prop in E as [E1 E2]. specialize (H c). rewrite E1 in H. cbn in H. rewrite H. by apply IH.
Qed.

Lemma c_str_id s : all_chars (fun c => negb (code c =? 0)) s = true -> c_str s = s.
Proof. induction s as [|c s IH]; cbn; [done|]. intros. breflect. apply negb_true_iff in H. by rewrite H, IH. Qed.
