(* ===== verification/Regex.v ===== *)
(** * std::regex

    The part of ECMAScript regular expressions the two readers of the metadata use: character classes,
    greedy
    and lazy stars of a class, an optional class, groups and sequences, matched by backtracking in
    the order of the standard; search, and the iterator over all matches. *)

From S2P Require Import Prelude Str.
From Stdlib Require Import Ascii.
From Stdlib Require String.

Local Open Scope string_scope.
Local Open Scope Z_scope.

Inductive re :=
| REps
| RChar (p : ascii -> bool)
| RStar (lazy : bool) (p : ascii -> bool)
| ROpt (p : ascii -> bool)
| RSeq (a b : re)
| RGroup (n : nat) (a : re).

(** The captured groups, the latest first. *)
Definition caps : Type := list (nat * string).

Fixpoint group (cs : caps) (n : nat) : string :=
  match cs with
  | [] => ""
  | (m, s) :: cs => if (m =? n)%nat then s else group cs n
  end.

(** ** Matching *)

Section matching.
Context {R : Type}.

Fixpoint star_greedy (p : ascii -> bool) (s : string) (k : string -> option R) : option R :=
  match s with
  | String c s' =>
      if p c then match star_greedy p s' k with Some r => Some r | None => k s end else k s
  | EmptyString => k s
  end.

Fixpoint star_lazy (p : ascii -> bool) (s : string) (k : string -> option R) : option R :=
  match k s with
  | Some r => Some r
  | None => match s with String c s' => if p c then star_lazy p s' k else None | EmptyString => None end
  end.

(** [k] is the rest of the match; [None] sends the matcher back to its last choice. *)
Fixpoint rmatch (r : re) (s : string) (cs : caps) (k : string -> caps -> option R) : option R :=
  match r with
  | REps => k s cs
  | RChar p => match s with String c s' => if p c then k s' cs else None | EmptyString => None end
  | RStar false p => star_greedy p s (fun s' => k s' cs)
  | RStar true p => star_lazy p s (fun s' => k s' cs)
  | ROpt p =>
      match s with
      | String c s' => if p c then match k s' cs with Some r => Some r | None => k s cs end else k s cs
      | EmptyString => k s cs
      end
  | RSeq a b => rmatch a s cs (fun s' cs' => rmatch b s' cs' k)
  | RGroup n a =>
      rmatch a s cs (fun s' cs' => k s' ((n, str_take (String.length s - String.length s') s) :: cs'))
  end.
End matching.

(** A match at the start: the groups, and the text behind it. *)
Definition match_here (r : re) (s : string) : option (caps * string) :=
  rmatch r s [] (fun s' cs => Some (cs, s')).

(** [regex_search]: the leftmost match. *)
Fixpoint regex_search (r : re) (s : string) : option (caps * string) :=
  match match_here r s with
  | Some x => Some x
  | None => match s with String _ s' => regex_search r s' | EmptyString => None end
  end.

(** [sregex_iterator]: each search begins behind the match before; our expressions never match the
    empty string, so [length s] matches are enough. *)
Fixpoint matches (fuel : nat) (r : re) (s : string) : list caps :=
  match fuel with
  | O => []
  | S fuel =>
      match regex_search r s with
      | Some (cs, s') => cs :: matches fuel r s'
      | None => []
      end
  end.

Definition regex_iterator (r : re) (s : string) : list caps := matches (S (String.length s)) r s.

(** ** Building expressions *)

Fixpoint lit (s : string) : re :=
  match s with
  | EmptyString => REps
  | String c s => RSeq (RChar (fun d => Ascii.eqb d c)) (lit s)
  end.

Definition rplus (p : ascii -> bool) : re := RSeq (RChar p) (RStar false p).

Fixpoint rseq (rs : list re) : re :=
  match rs with
  | [] => REps
  | r :: rs => RSeq r (rseq rs)
  end.

(** The class of [.]: not a line terminator; of [\w]; of [\d] and [\s] see the string file. *)
Definition not_eol (c : ascii) : bool := negb ((code c =? 10) || (code c =? 13)).
Definition is_upper (c : ascii) : bool := (65 <=? code c) && (code c <=? 90).
Definition is_lower (c : ascii) : bool := (97 <=? code c) && (code c <=? 122).
Definition is_word (c : ascii) : bool := is_digit c || is_upper c || is_lower c || (code c =? 95).

(** ** Lemmas *)

Section lemmas.
Context {R : Type}.
Implicit Types k : string -> caps -> option R.

Lemma rmatch_lit l s cs k : rmatch (lit l) (l +:+ s) cs k = k s cs.
Proof. induction l as [|c l IH]; [done|]. rewrite append_cons. cbn. by rewrite Ascii.eqb_refl. Qed.

Lemma rmatch_lit_none l s cs k : prefixb l s = false -> rmatch (lit l) s cs k = None.
Proof.
  revert s. induction l as [|c l IH]; intros s; cbn; [done|]. destruct s as [|d s]; [done|].
  destruct (Ascii.eqb d c); cbn; [apply IH|done].
Qed.

(** The text that is not in a class. *)
Definition stops (p : ascii -> bool) (s : string) : bool :=
  match s with String c _ => negb (p c) | EmptyString => true end.

Lemma star_greedy_all p d s (k : string -> option R) r : all_chars p d = true -> stops p s = true -> k s = Some r ->
  star_greedy p (d +:+ s) k = Some r.
Proof.
  intros Hd Hs Hk. induction d as [|c d IH]; cbn [all_chars] in Hd.
  - cbn [String.append]. destruct s as [|c s]; cbn in *; [done|]. by destruct (p c).
  - breflect. rewrite append_cons. cbn. rewrite H. by rewrite IH.
Qed.

(** The text [l] does not start inside of [g], followed by [s]. *)
Fixpoint absent (l g s : string) : bool :=
  match g with
  | EmptyString => true
  | String _ g' => negb (prefixb l (g +:+ s)) && absent l g' s
  end.

Lemma star_lazy_gap p l g s (k : string -> option R) r : all_chars p g = true -> absent l g s = true ->
  (forall s', prefixb l s' = false -> k s' = None) -> k s = Some r -> star_lazy p (g +:+ s) k = Some r.
Proof.
  intros Hg Ha Hk Hs. induction g as [|c g IH].
  - cbn [String.append]. destruct s; cbn; by rewrite Hs.
  - cbn [all_chars absent] in *. breflect. apply negb_true_iff in H. rewrite append_cons in *. cbn [star_lazy].
    rewrite (Hk _ H), H1. by apply IH.
Qed.

Lemma star_lazy_none p l g s (k : string -> option R) : absent l g s = true ->
  (forall s', prefixb l s' = false -> k s' = None) -> star_lazy p s k = None -> star_lazy p (g +:+ s) k = None.
Proof.
  intros Ha Hk Hs. induction g as [|c g IH]; [done|]. cbn [absent] in *. breflect. apply negb_true_iff in H.
  rewrite append_cons in *. cbn [star_lazy]. rewrite (Hk _ H). destruct (p c); [by apply IH|done].
Qed.
End lemmas.

(** A search passes over a text in which the first literal does not start. *)
Lemma regex_search_skip l r g s : (forall s', prefixb l s' = false -> match_here r s' = None) -> absent l g s = true ->
  regex_search r (g +:+ s) = regex_search r s.
Proof.
  intros Hr Ha. induction g as [|c g IH]; [done|]. cbn [absent] in Ha. breflect. apply negb_true_iff in H.
  rewrite append_cons in *. cbn [regex_search]. rewrite Hr by done. by apply IH.
Qed.

Lemma regex_search_gap l r g s : absent l g s = true ->
  regex_search (RSeq (lit l) r) (g +:+ s) = regex_search (RSeq (lit l) r) s.
Proof. apply regex_search_skip. intros s' Hs. unfold match_here. cbn [rmatch]. by apply rmatch_lit_none. Qed.

Lemma regex_search_here r s x : match_here r s = Some x -> regex_search r s = Some x.
Proof. intros E. destruct s; cbn [regex_search]; by rewrite E. Qed.

(** What a group captures. *)
Lemma str_take_front d s : str_take (String.length (d +:+ s) - String.length s) (d +:+ s) = d.
Proof.
  rewrite append_length. replace (String.length d + String.length s - String.length s)%nat with (String.length d) by lia.
  apply str_take_app.
Qed.

Section groups.
Context {R : Type}.
Implicit Types k : string -> caps -> option R.

Lemma rmatch_group_plus n p d s cs k r : all_chars p d = true -> d <> "" -> stops p s = true ->
  k s ((n, d) :: cs) = Some r -> rmatch (RGroup n (rplus p)) (d +:+ s) cs k = Some r.
Proof.
  intros Hd Hne Hs Hk. destruct d as [|c d]; [done|]. cbn [all_chars] in Hd. breflect.
  cbn [rmatch rplus]. rewrite append_cons at 1. rewrite H. apply star_greedy_all; [done|done|].
  by rewrite str_take_front.
Qed.

Lemma rmatch_group_lazy n p l g s cs k r : all_chars p g = true -> absent l g s = true ->
  (forall s' cs', prefixb l s' = false -> k s' cs' = None) -> k s ((n, g) :: cs) = Some r ->
  rmatch (RGroup n (RStar true p)) (g +:+ s) cs k = Some r.
Proof.
  intros Hg Ha Hk Hs. cbn [rmatch]. apply (star_lazy_gap p l); [done|done| |by rewrite str_take_front].
  intros s' Hs'. by apply Hk.
Qed.

(** [p+q?p*] on an integer or decimal text. *)
Lemma rmatch_group_decimal n p q i f s cs k r :
  all_chars p i = true -> i <> "" -> (f = "" \/ exists c f', f = String c f' /\ q c = true /\ p c = false /\ all_chars p f' = true) ->
  stops p s = true -> stops q s = true -> k s ((n, i +:+ f) :: cs) = Some r ->
  rmatch (RGroup n (rseq [rplus p; ROpt q; RStar false p])) (i +:+ f +:+ s) cs k = Some r.
Proof.
  intros Hi Hne Hf Hp Hq Hk. rewrite <- append_assoc. set (t := i +:+ f) in *. cbn [rmatch rseq].
  unfold t at 1. rewrite append_assoc. destruct i as [|c i]; [done|]. cbn [all_chars] in Hi. breflect.
  rewrite append_cons. cbn [rplus rmatch]. rewrite H.
  assert (E : (fun s' => k s' ((n, str_take (String.length (t +:+ s) - String.length s') (t +:+ s)) :: cs)) s = Some r).
  { cbn beta. by rewrite str_take_front. }
  destruct Hf as [->|(c' & f' & -> & Hq' & Hp' & Hf')].
  - cbn [String.append]. apply star_greedy_all; [done|done|].
    destruct s as [|d s]; [by apply (star_greedy_all p "" "")|]. cbn [stops] in Hq. apply negb_true_iff in Hq. rewrite Hq.
    by apply (star_greedy_all p "").
  - rewrite append_cons. apply star_greedy_all; [done|cbn; by rewrite Hp'|]. rewrite Hq'.
    by rewrite (star_greedy_all p f' s _ r).
Qed.

(** A greedy star whose continuation starts with a literal stops at the last place the literal
    starts at. *)
Lemma star_greedy_none p l z s (k' : string -> option R) : (forall s', prefixb l s' = false -> k' s' = None) ->
  absent l z s = true -> stops p s = true -> prefixb l s = false -> star_greedy p (z +:+ s) k' = None.
Proof.
  intros Hk Ha Hs Hp. induction z as [|c z IH]; cbn [absent] in Ha.
  - cbn [String.append]. destruct s as [|c s]; cbn [star_greedy stops] in *; [by apply Hk|]. apply negb_true_iff in Hs. rewrite Hs. by apply Hk.
  - breflect. apply negb_true_iff in H. rewrite append_cons in *. cbn [star_greedy]. rewrite IH, Hk by done. by destruct (p c).
Qed.

Lemma star_greedy_last p l c g z s (k' : string -> option R) r : (forall s', prefixb l s' = false -> k' s' = None) ->
  all_chars p g = true -> absent l z s = true -> stops p s = true -> prefixb l s = false ->
  k' (String c z +:+ s) = Some r -> star_greedy p (g +:+ String c z +:+ s) k' = Some r.
Proof.
  intros Hk Hg Ha Hs Hp Hr. induction g as [|d g IH].
  - cbn [String.append star_greedy]. rewrite append_cons in Hr.
    destruct (p c); [|done]. rewrite (star_greedy_none p l) by done. done.
  - cbn [all_chars] in Hg. breflect. rewrite append_cons. cbn [star_greedy]. rewrite H. by rewrite IH.
Qed.

Lemma rmatch_seq (a b : re) s cs k : rmatch (RSeq a b) s cs k = rmatch a s cs (fun s' cs' => rmatch b s' cs' k).
Proof. done. Qed.

(** [p*] up to a character outside of the class. *)
Lemma rmatch_star p d s cs k r : all_chars p d = true -> stops p s = true -> k s cs = Some r ->
  rmatch (RStar false p) (d +:+ s) cs k = Some r.
Proof. intros Hd Hs Hk. cbn [rmatch]. by apply star_greedy_all. Qed.

Lemma rmatch_star_last p l c g z s cs k r : (forall s' cs', prefixb l s' = false -> k s' cs' = None) ->
  all_chars p g = true -> absent l z s = true -> stops p s = true -> prefixb l s = false ->
  k (String c z +:+ s) cs = Some r -> rmatch (RStar false p) (g +:+ String c z +:+ s) cs k = Some r.
Proof. intros Hk Hg Ha Hs Hp Hr. cbn [rmatch]. apply (star_greedy_last p l); try done. intros s' Hs'. by apply Hk. Qed.

(** [p*] in a group, up to a character outside of the class. *)
Lemma rmatch_group_star n p d s cs k r : all_chars p d = true -> stops p s = true -> k s ((n, d) :: cs) = Some r ->
  rmatch (RGroup n (RStar false p)) (d +:+ s) cs k = Some r.
Proof. intros Hd Hs Hk. cbn [rmatch]. apply star_greedy_all; [done|done|]. by rewrite str_take_front. Qed.
End groups.

(** ** Texts without an early literal *)

Lemma prefixb_long l t s : (String.length l <= String.length t)%nat -> prefixb l (t +:+ s) = prefixb l t.
Proof.
  revert t. induction l as [|c l IH]; intros [|d t] Hl; cbn in Hl; try (done || lia). rewrite append_cons. cbn.
  by rewrite IH by lia.
Qed.

Lemma prefixb_app l s t : prefixb l s = true -> prefixb l (s +:+ t) = true.
Proof.
  revert s. induction l as [|c l IH]; intros [|d s]; cbn; try done. intros. breflect. rewrite ?append_cons. cbn.
  by rewrite H, IH.
Qed.

Lemma prefixb_length l s : prefixb l s = true -> (String.length l <= String.length s)%nat.
Proof.
  revert s. induction l as [|c l IH]; intros [|d s]; cbn; try (done || lia). intros. breflect. apply IH in H0. lia.
Qed.

Lemma find_sub_bound l s e : find_sub l s = Some e -> (e + String.length l <= String.length s)%nat.
Proof.
  revert e. induction s as [|c s IH]; intros e; cbn [find_sub].
  - destruct (prefixb l "") eqn:E; [|done]. intros [= <-]. by apply prefixb_length in E.
  - destruct (prefixb l (String c s)) eqn:E; [intros [= <-]; by apply prefixb_length in E|].
    destruct (find_sub l s) as [e'|]; [|done]. intros [= <-]. specialize (IH e' eq_refl). cbn. lia.
Qed.

Lemma find_sub_app l s t e : find_sub l s = Some e -> find_sub l (s +:+ t) = Some e.
Proof.
  revert e. induction s as [|c s IH]; intros e; cbn [find_sub].
  - destruct (prefixb l "") eqn:E; [|done]. intros [= <-]. apply (prefixb_app _ _ t) in E. cbn [String.append] in *.
    destruct t; cbn [find_sub]; by rewrite E.
  - destruct (prefixb l (String c s)) eqn:E.
    + intros [= <-]. apply (prefixb_app _ _ t) in E. rewrite append_cons in *. cbn [find_sub]. by rewrite E.
    + destruct (find_sub l s) as [e'|] eqn:E'; [|done]. intros [= <-]. rewrite append_cons. cbn [find_sub].
      pose proof (find_sub_bound _ _ _ E'). rewrite <- append_cons, prefixb_long, E by (cbn; lia). by rewrite (IH e').
Qed.

(** [l] starts in [g], followed by [l], only behind [g]. *)
Definition clean (l g : string) : bool := absent l g l.

Lemma clean_absent l g s : clean l g = true -> absent l g (l +:+ s) = true.
Proof.
  unfold clean. induction g as [|c g IH]; cbn [absent]; [done|]. intros. breflect. rewrite IH by done.
  rewrite <- append_assoc, prefixb_long; [by rewrite H|]. rewrite append_length. cbn. lia.
Qed.
