(* ===== verification/BoardControl.v ===== *)
(** * Board control: the serial protocol of the dot-matrix boards

    Models [src/src/metadata/board_control.cpp] (class [BoardController], the CRC functions)
    and the frame encoder of [src/src/metadata/send_time.cpp], which repeats them.  Bytes are
    integers in [0, 256).  The serial line is an argument of the receive loop: what each 10 ms
    step of the loop reads, [None] when [select] times out or [read] returns nothing. *)

From S2P Require Import Prelude.

(** ** Protocol constants (board_control.h) *)

Definition DLE : Z := 0x10.
Definition STX : Z := 0x02.
Definition ETX : Z := 0x03.
Definition ACK : Z := 0xAA.
Definition NACK : Z := 0x55.
Definition CMD_LCD_ON : Z := 0x01.
Definition CMD_LCD_OFF : Z := 0x02.
Definition CMD_SYNC_TIME : Z := 0x03.

(** ** CRC *)

Definition reverse (val bits : Z) : Z :=
  foldl (fun res i => u8 (Z.lor (Z.shiftl res 1) (Z.land (Z.shiftr val i) 1))) 0 (seqZ 0 bits).

Definition reverse16 (val bits : Z) : Z :=
  foldl (fun res i => u16 (Z.lor (Z.shiftl res 1) (Z.land (Z.shiftr val i) 1))) 0 (seqZ 0 bits).

(** One iteration of the inner loop of [crc16]. *)
Definition crc16_bit (crc : Z) : Z :=
  u16 (if Z.land crc 0x8000 =? 0 then Z.shiftl crc 1 else Z.lxor (Z.shiftl crc 1) 0x8005).

(** One iteration of the outer loop of [crc16]. *)
Definition crc16_byte (crc b : Z) : Z :=
  loop 8 crc16_bit (u16 (Z.lxor crc (Z.shiftl (reverse b 8) 8))).

Definition crc16 (data : list Z) : Z :=
  Z.land (reverse16 (foldl crc16_byte 0 data) 16) 0xFFFF.

(** ** Frame encoding *)

(** The body of the loop that copies the payload into the frame. *)
Definition stuff_byte (b : Z) : list Z := if b =? DLE then [DLE; DLE] else [b].

(** The board ids of the program are 1 to 4; outside of 1 to 32 the shift has no meaning in C++. *)
Definition encode_frame (id command : Z) (extra_data : list Z) : list Z :=
  let dst_mask := u8 (Z.shiftl 1 (id - 1)) in
  let payload := [dst_mask; command] ++ extra_data in
  let crc := crc16 payload in
  let payload := payload ++ [Z.land (Z.shiftr crc 8) 0xFF] ++ [Z.land crc 0xFF] in
  [DLE; STX] ++ concat (map stuff_byte payload) ++ [DLE] ++ [ETX].

(** [BoardController::send_frame], [send_lcd_on], [send_lcd_off]: the bytes written to the port. *)
Definition send_frame (id command : Z) : list Z := encode_frame id command [].
Definition send_lcd_on (id : Z) : list Z := send_frame id CMD_LCD_ON.
Definition send_lcd_off (id : Z) : list Z := send_frame id CMD_LCD_OFF.

(** ** Time synchronisation *)

(** The fields of [struct tm] the program reads. *)
Record tm := Tm {
  tm_year : Z; (* years since 1900 *)
  tm_mon : Z;  (* 0..11 *)
  tm_mday : Z;
  tm_hour : Z; (* 0..23 *)
  tm_min : Z;
  tm_sec : Z }.

(** The conversion of a 24-hour clock hour to the 12-hour clock: (hour, is_pm). *)
Definition hour12 (tm_hour : Z) : Z * bool :=
  let hour := u8 tm_hour in
  let is_pm := 12 <=? hour in
  let hour := if 12 <? hour then u8 (hour - 12) else hour in
  let hour := if hour =? 0 then 12 else hour in
  (hour, is_pm).

Definition time_payload (t : tm) : list Z :=
  let '(hour, is_pm) := hour12 (tm_hour t) in
  [ u8 (Z.rem (tm_year t) 100); u8 (tm_mon t + 1); u8 (tm_mday t); u8 hour;
    u8 (tm_min t); u8 (tm_sec t); u8 (if is_pm then 1 else 0) ].

(** [BoardController::send_time_sync_from_system] at the local time [t]: the bytes written and
    the returned flag. *)
Definition send_time_sync_from_system (id : Z) (t : tm) : list Z * bool :=
  (encode_frame id CMD_SYNC_TIME (time_payload t), true).

(** ** Waiting for the acknowledgement *)

Inductive rx_state := WAIT_DLE | WAIT_STX | IN_FRAME | WAIT_ETX.

#[export] Instance rx_state_eq_dec : EqDecision rx_state.
Proof. solve_decision. Defined.

(** What the [switch] does with one received byte: it goes on in a state with a payload, or
    [send_frame_with_ack] returns [true]. *)
Inductive rx_result :=
| rx_continue (state : rx_state) (payload : list Z)
| rx_acked.

Definition rx_switch (state : rx_state) (payload : list Z) (rx : Z) : rx_result :=
  match state with
  | WAIT_DLE => rx_continue (if rx =? DLE then WAIT_STX else WAIT_DLE) payload
  | WAIT_STX =>
      if rx =? STX then rx_continue IN_FRAME []
      else if negb (rx =? DLE) then rx_continue WAIT_DLE payload
      else rx_continue WAIT_STX payload
  | IN_FRAME =>
      if rx =? DLE then rx_continue WAIT_ETX payload
      else rx_continue IN_FRAME (payload ++ [rx])
  | WAIT_ETX =>
      match (rx =? ETX), payload with
      | true, [resp_cmd; p1; p2] =>
          let recv_crc := u16 (Z.lor (Z.shiftl p1 8) p2) in
          let calc_crc := crc16 [resp_cmd] in
          if recv_crc =? calc_crc then
            if resp_cmd =? ACK then rx_acked
            else if resp_cmd =? NACK then rx_continue WAIT_ETX payload
            else rx_continue WAIT_DLE []
          else rx_continue WAIT_DLE []
      | _, _ => rx_continue WAIT_DLE []
      end
  end.

(** The [while (waited < timeout_ms)] loop of one attempt.  [ticks] is what the successive
    steps read; a step past its end reads nothing. *)
Fixpoint wait_ack (fuel : nat) (waited timeout_ms : Z) (state : rx_state) (payload : list Z)
    (ticks : list (option Z)) : bool :=
  match fuel with
  | O => false
  | S fuel =>
      if waited <? timeout_ms then
        match ticks with
        | Some rx :: ticks' =>
            match rx_switch state payload rx with
            | rx_acked => true
            | rx_continue state' payload' =>
                wait_ack fuel (waited + 10) timeout_ms state' payload' ticks'
            end
        | None :: ticks' => wait_ack fuel (waited + 10) timeout_ms state payload ticks'
        | [] => wait_ack fuel (waited + 10) timeout_ms state payload []
        end
      else false
  end.

(** The loop runs [ceil (timeout_ms / 10)] times at most. *)
Definition wait_ack_steps (timeout_ms : Z) : nat := Z.to_nat ((timeout_ms + 9) / 10).

(** What an attempt does to the port. *)
Inductive port_event :=
| ev_flush                    (* tcflush(fd, TCIFLUSH) *)
| ev_write (frame : list Z)   (* write(fd, ...) *)
| ev_sleep.                   (* usleep(100000) *)

(** The retry loop; [line] lists, attempt by attempt, what the steps of the attempt read. *)
Fixpoint send_attempts (frame : list Z) (attempts : nat) (timeout_ms : Z)
    (line : list (list (option Z))) : bool * list port_event :=
  match attempts with
  | O => (false, [])
  | S attempts =>
      let ticks := default [] (head line) in
      if wait_ack (wait_ack_steps timeout_ms) 0 timeout_ms WAIT_DLE [] ticks
      then (true, [ev_flush; ev_write frame])
      else
        let '(ok, evs) := send_attempts frame attempts timeout_ms (tail line) in
        (ok, [ev_flush; ev_write frame; ev_sleep] ++ evs)
  end.

Definition send_frame_with_ack (id command retries timeout_ms : Z)
    (line : list (list (option Z))) : bool * list port_event :=
  send_attempts (encode_frame id command []) (Z.to_nat retries) timeout_ms line.

Definition send_lcd_on_with_ack (id retries timeout_ms : Z) line :=
  send_frame_with_ack id CMD_LCD_ON retries timeout_ms line.

Definition send_lcd_off_with_ack (id retries timeout_ms : Z) line :=
  send_frame_with_ack id CMD_LCD_OFF retries timeout_ms line.

(** ** The copy of the encoder in send_time.cpp *)

Definition SERIAL_PORTS : list string :=
  ["/dev/ttyAMA0"; "/dev/ttyAMA2"; "/dev/ttyAMA1"; "/dev/ttyAMA3"]%string.

Module SendTime.
Definition encode_frame (cmd board_id : Z) (extra_data : list Z) : list Z :=
  let dst_mask := u8 (Z.shiftl 1 (board_id - 1)) in
  let payload := [dst_mask; cmd] ++ extra_data in
  let crc := crc16 payload in
  let payload := payload ++ [Z.land (Z.shiftr crc 8) 0xFF] ++ [Z.land crc 0xFF] in
  [DLE; STX] ++ concat (map (fun b => if b =? DLE then [DLE] ++ [DLE] else [b]) payload) ++ [DLE] ++ [ETX].

(** Here the hour is an [int], not a [uint8_t]. *)
Definition time_payload (t : tm) : list Z :=
  let hour := tm_hour t in
  let is_pm := 12 <=? hour in
  let hour := if 12 <=? hour then if 12 <? hour then hour - 12 else hour else hour in
  let hour := if hour =? 0 then 12 else hour in
  [ u8 (Z.rem (tm_year t) 100); u8 (tm_mon t + 1); u8 (tm_mday t); u8 hour;
    u8 (tm_min t); u8 (tm_sec t); u8 (if is_pm then 1 else 0) ].

(** One pass of the sending loop of [main]: the frame written to each port, in order. *)
Definition send_round (t : tm) : list (string * list Z) :=
  zip_with (fun port board_id => (port, encode_frame CMD_SYNC_TIME board_id (time_payload t)))
    SERIAL_PORTS [1; 2; 3; 4].

(** The ports are opened in order; the first that cannot be opened is [exit(1)]. *)
Definition open_ports (can_open : string -> bool) : option string := List.find (fun device => negb (can_open device)) SERIAL_PORTS.

(** What the endless loop has written after the passes at the given times, or the port it exits on. *)
Definition main (can_open : string -> bool) (times : list tm) : string + list (string * list Z) :=
  match open_ports can_open with
  | Some device => inl device
  | None => inr (concat (map send_round times))
  end.
End SendTime.

(** ** Bit reversal *)

(** Both [reverse] and [reverse16] are instances of this loop at their width. *)
Definition rev_loop (w val : Z) (idxs : list Z) : Z :=
  foldl (fun res i => Z.lor (Z.shiftl res 1) (Z.land (Z.shiftr val i) 1) mod 2 ^ w) 0 idxs.

Lemma testbit_land_1 x i : 0 <= i -> Z.testbit (Z.land x 1) i = (i =? 0) && Z.testbit x 0.
Proof.
  intros Hi. rewrite Z.land_spec. destruct (Z.eqb_spec i 0) as [->|]; [by rewrite andb_comm|].
  change 1 with (Z.ones 1). rewrite Z.ones_spec_high by lia. by rewrite andb_false_r.
Qed.

Lemma rev_loop_testbit w val (n : nat) i :
  Z.of_nat n <= w -> 0 <= i ->
  Z.testbit (rev_loop w val (seqZ 0 (Z.of_nat n))) i
  = (i <? Z.of_nat n) && Z.testbit val (Z.of_nat n - 1 - i).
Proof.
  intros Hw. revert i. induction n as [|n IH]; intros i Hi.
  - change (rev_loop w val (seqZ 0 (Z.of_nat 0))) with 0. rewrite Z.testbit_0_l.
    destruct (Z.ltb_spec i (Z.of_nat 0)); [lia|done].
  - rewrite Nat2Z.inj_succ, <- Z.add_1_r, seqZ_app by lia. unfold rev_loop.
    rewrite foldl_app. cbn [seqZ foldl]. change (seqZ (0 + Z.of_nat n) 1) with [0 + Z.of_nat n].
    cbn [foldl]. fold (rev_loop w val (seqZ 0 (Z.of_nat n))).
    rewrite testbit_mod_pow2, Z.lor_spec, testbit_land_1, Z.shiftr_spec by lia.
    destruct (Z.ltb_spec i w); cbn [andb].
    + destruct (Z.eqb_spec i 0) as [->|Hne]; cbn [andb].
      * rewrite Z.shiftl_spec, Z.testbit_neg_r by lia. cbn [orb].
        destruct (Z.ltb_spec 0 (Z.of_nat n + 1)); [|lia]. cbn [andb]. f_equal. lia.
      * rewrite Z.shiftl_spec, IH, orb_false_r by lia.
        destruct (Z.ltb_spec (i - 1) (Z.of_nat n)), (Z.ltb_spec i (Z.of_nat n + 1));
          try lia; cbn [andb]; f_equal; lia.
    + destruct (Z.ltb_spec i (Z.of_nat n + 1)); [lia|done].
Qed.

Lemma reverse16_rev_loop v n : reverse16 v n = rev_loop 16 v (seqZ 0 n).
Proof. reflexivity. Qed.

Lemma reverse_rev_loop v n : reverse v n = rev_loop 8 v (seqZ 0 n).
Proof. reflexivity. Qed.

Lemma rev_loop_testbit_Z w val n i :
  0 <= n <= w -> 0 <= i ->
  Z.testbit (rev_loop w val (seqZ 0 n)) i = (i <? n) && Z.testbit val (n - 1 - i).
Proof.
  intros Hn Hi. pose proof (rev_loop_testbit w val (Z.to_nat n) i) as H.
  rewrite Z2Nat.id in H by lia. apply H; lia.
Qed.

Lemma reverse16_testbit v i : 0 <= i < 16 -> Z.testbit (reverse16 v 16) i = Z.testbit v (15 - i).
Proof.
  intros Hi. rewrite reverse16_rev_loop, rev_loop_testbit_Z by lia.
  destruct (Z.ltb_spec i 16); [done|lia].
Qed.

Lemma reverse_testbit v i :
  0 <= i -> Z.testbit (reverse v 8) i = (i <? 8) && Z.testbit v (7 - i).
Proof. intros Hi. by rewrite reverse_rev_loop, rev_loop_testbit_Z by lia. Qed.

Lemma foldl_snoc_range {A} (f : Z -> A -> Z) (P : Z -> Prop) l a :
  P a -> (forall x y, P (f x y)) -> P (foldl f a l).
Proof. revert a. induction l; cbn; auto. Qed.

Lemma reverse16_range v n : 0 <= reverse16 v n < 2 ^ 16.
Proof. apply (foldl_snoc_range _ (fun z => 0 <= z < 2 ^ 16)); [lia|]. intros. apply u16_range. Qed.

Lemma reverse_range v n : is_byte (reverse v n).
Proof. apply (foldl_snoc_range _ is_byte); [unfold is_byte; lia|]. intros. apply u8_range. Qed.

(** ** The reflected CRC-16/ARC, the reference definition

    The register is kept bit-reversed, bytes enter at the low end, the polynomial is 0xA001. *)
Definition arc_bit (c : Z) : Z :=
  if Z.odd c then Z.lxor (Z.shiftr c 1) 0xA001 else Z.shiftr c 1.
Definition arc_byte (c b : Z) : Z := loop 8 arc_bit (Z.lxor c b).
Definition crc16_arc (data : list Z) : Z := foldl arc_byte 0 data.

Lemma arc_bit_range c : 0 <= c < 2 ^ 16 -> 0 <= arc_bit c < 2 ^ 16.
Proof.
  intros Hc. assert (0 <= Z.shiftr c 1 < 2 ^ 16).
  { rewrite Z.shiftr_div_pow2 by lia. change (2 ^ 1) with 2. split; [apply Z.div_pos; lia|].
    apply Z.div_lt_upper_bound; lia. }
  unfold arc_bit. destruct (Z.odd c); [|done]. by apply lxor_pow2_range; [lia| |lia].
Qed.

Lemma iter_range (f : Z -> Z) (P : Z -> Prop) n x :
  (forall y, P y -> P (f y)) -> P x -> P (loop n f x).
Proof. intros Hf Hx. induction n; cbn; auto. Qed.

Lemma byte_16 b : is_byte b -> 0 <= b < 2 ^ 16.
Proof. unfold is_byte. lia. Qed.

Lemma arc_byte_range c b : 0 <= c < 2 ^ 16 -> 0 <= b < 2 ^ 16 -> 0 <= arc_byte c b < 2 ^ 16.
Proof.
  intros Hc Hb. unfold arc_byte. apply (iter_range _ (fun z => 0 <= z < 2 ^ 16)).
  - apply arc_bit_range.
  - by apply lxor_pow2_range.
Qed.

Lemma crc16_bit_range c : 0 <= crc16_bit c < 2 ^ 16.
Proof. apply u16_range. Qed.

#[export] Hint Resolve arc_bit_range arc_byte_range crc16_bit_range byte_16 reverse_range : raspi.

(** Reversing the register turns a step of the program's CRC into a step of the reference. *)
Lemma reverse16_crc16_bit c :
  0 <= c < 2 ^ 16 -> reverse16 (crc16_bit c) 16 = arc_bit (reverse16 c 16).
Proof.
  intros Hc. apply (bits_inj_bounded 16); [lia|apply reverse16_range| |].
  { apply arc_bit_range, reverse16_range. }
  intros i Hi. rewrite reverse16_testbit by lia.
  unfold crc16_bit, arc_bit, u16. rewrite testbit_mod_pow2 by lia.
  rewrite <- Z.bit0_odd, reverse16_testbit by lia. change (15 - 0) with 15.
  assert (Z.land c 0x8000 =? 0 = negb (Z.testbit c 15)) as ->.
  { change 0x8000 with (2 ^ 15). destruct (Z.testbit c 15) eqn:Hb.
    - apply Z.eqb_neq. intros H0. apply (f_equal (fun z => Z.testbit z 15)) in H0.
      rewrite Z.land_spec, Hb, Z.pow2_bits_true in H0 by lia. done.
    - apply Z.eqb_eq. apply Z.bits_inj'. intros j Hj. rewrite Z.land_spec, Z.testbit_0_l.
      destruct (Z.eqb_spec j 15) as [->|]; [by rewrite Hb|].
      rewrite Z.pow2_bits_false by lia. by rewrite andb_false_r. }
  destruct (Z.ltb_spec (15 - i) 16); [|lia]. cbn [andb].
  assert (Z.testbit (Z.shiftl c 1) (15 - i) = (i <? 15) && Z.testbit c (14 - i)) as Hl.
  { rewrite Z.shiftl_spec by lia. destruct (Z.ltb_spec i 15); cbn [andb].
    - f_equal. lia.
    - rewrite Z.testbit_neg_r by lia. done. }
  assert (Z.testbit (Z.shiftr (reverse16 c 16) 1) i = (i <? 15) && Z.testbit c (14 - i)) as Hr.
  { rewrite Z.shiftr_spec by lia. destruct (Z.ltb_spec i 15); cbn [andb].
    - rewrite reverse16_testbit by lia. f_equal. lia.
    - apply (testbit_out 16); [apply reverse16_range|lia|lia]. }
  assert (Z.testbit 0x8005 (15 - i) = Z.testbit 0xA001 i) as Hp.
  { apply eqb_prop.
    by apply (forall_below 16 (fun i => eqb (Z.testbit 0x8005 (15 - i)) (Z.testbit 0xA001 i))). }
  destruct (Z.testbit c 15); cbn [negb]; rewrite ?Z.lxor_spec, ?Hl, ?Hr, ?Hp; done.
Qed.

Lemma reverse16_iter n c :
  0 <= c < 2 ^ 16 -> reverse16 (loop n crc16_bit c) 16 = loop n arc_bit (reverse16 c 16).
Proof.
  intros Hc. induction n as [|n IH]; cbn [loop]; [reflexivity|].
  rewrite reverse16_crc16_bit, IH; [reflexivity|].
  apply (iter_range _ (fun z => 0 <= z < 2 ^ 16)); auto with raspi.
Qed.

(** The byte enters the register at its other end. *)
Lemma reverse16_enter c b :
  0 <= c < 2 ^ 16 -> is_byte b ->
  reverse16 (u16 (Z.lxor c (Z.shiftl (reverse b 8) 8))) 16 = Z.lxor (reverse16 c 16) b.
Proof.
  intros Hc Hb. apply (bits_inj_bounded 16); [lia|apply reverse16_range| |].
  { apply lxor_pow2_range; [lia|apply reverse16_range|auto with raspi]. }
  intros i Hi. rewrite reverse16_testbit, Z.lxor_spec, reverse16_testbit by lia.
  unfold u16. rewrite testbit_mod_pow2, Z.lxor_spec, Z.shiftl_spec by lia.
  destruct (Z.ltb_spec (15 - i) 16); [|lia]. cbn [andb]. f_equal.
  destruct (Z.ltb_spec i 8).
  - rewrite reverse_testbit by lia. destruct (Z.ltb_spec (15 - i - 8) 8); [|lia].
    cbn [andb]. f_equal. lia.
  - rewrite Z.testbit_neg_r by lia. symmetry. apply (testbit_out 8); [apply Hb|lia|lia].
Qed.

Lemma reverse16_crc16_byte c b :
  0 <= c < 2 ^ 16 -> is_byte b -> reverse16 (crc16_byte c b) 16 = arc_byte (reverse16 c 16) b.
Proof.
  intros. unfold crc16_byte, arc_byte. rewrite reverse16_iter by auto with raspi.
  rewrite reverse16_enter by done. reflexivity.
Qed.

Lemma crc16_byte_range c b : 0 <= crc16_byte c b < 2 ^ 16.
Proof. apply (iter_range _ (fun z => 0 <= z < 2 ^ 16)); auto with raspi. Qed.

Lemma reverse16_fold data c :
  0 <= c < 2 ^ 16 -> bytes_ok data ->
  reverse16 (foldl crc16_byte c data) 16 = foldl arc_byte (reverse16 c 16) data.
Proof.
  intros Hc Hd. revert c Hc. induction Hd as [|b data Hb Hd IH]; intros c Hc; cbn [foldl]; [reflexivity|].
  rewrite IH, reverse16_crc16_byte by auto using crc16_byte_range. reflexivity.
Qed.

Lemma land_ffff z : 0 <= z < 2 ^ 16 -> Z.land z 0xFFFF = z.
Proof. intros. change 0xFFFF with (Z.ones 16). rewrite Z.land_ones by lia. by apply Z.mod_small. Qed.

Lemma crc16_is_arc data : bytes_ok data -> crc16 data = crc16_arc data.
Proof.
  intros Hd. unfold crc16. rewrite land_ffff by apply reverse16_range.
  rewrite reverse16_fold by (done || lia). reflexivity.
Qed.

Lemma crc16_range data : 0 <= crc16 data < 2 ^ 16.
Proof. unfold crc16. rewrite land_ffff; apply reverse16_range. Qed.

(** ** Error detection *)

(** A step of the reference register loses nothing: its top bit is the bit shifted out. *)
Lemma arc_bit_inj c c' :
  0 <= c < 2 ^ 16 -> 0 <= c' < 2 ^ 16 -> arc_bit c = arc_bit c' -> c = c'.
Proof.
  assert (forall c, 0 <= c < 2 ^ 16 -> Z.testbit (arc_bit c) 15 = Z.odd c) as Htop.
  { intros d Hd. assert (Z.testbit (Z.shiftr d 1) 15 = false) as Hs.
    { rewrite Z.shiftr_spec by lia. by apply (testbit_out 16). }
    unfold arc_bit. destruct (Z.odd d); [|done]. rewrite Z.lxor_spec, Hs. done. }
  intros Hc Hc' Heq. assert (Z.odd c = Z.odd c') as Hodd by (by rewrite <- !Htop, Heq).
  assert (Z.shiftr c 1 = Z.shiftr c' 1) as Hsh.
  { unfold arc_bit in Heq. rewrite <- Hodd in Heq. destruct (Z.odd c); [|done].
    apply (f_equal (fun z => Z.lxor z 0xA001)) in Heq.
    by rewrite !Z.lxor_assoc, Z.lxor_nilpotent, !Z.lxor_0_r in Heq. }
  rewrite (Z.div2_odd c), (Z.div2_odd c'). rewrite <- !Z.div2_spec in Hsh. by rewrite Hsh, Hodd.
Qed.

Lemma arc_iter_inj n c c' :
  0 <= c < 2 ^ 16 -> 0 <= c' < 2 ^ 16 -> loop n arc_bit c = loop n arc_bit c' -> c = c'.
Proof.
  intros Hc Hc'. induction n as [|n IH]; cbn; [done|]. intros Heq. apply IH.
  apply arc_bit_inj; [| |done]; apply (iter_range _ (fun z => 0 <= z < 2 ^ 16)); auto with raspi.
Qed.

Lemma lxor_cancel_r a b c : Z.lxor a c = Z.lxor b c -> a = b.
Proof.
  intros H. apply (f_equal (fun z => Z.lxor z c)) in H.
  by rewrite !Z.lxor_assoc, Z.lxor_nilpotent, !Z.lxor_0_r in H.
Qed.

Lemma lxor_swap_eq a b c d : Z.lxor a b = Z.lxor c d -> Z.lxor a c = Z.lxor b d.
Proof.
  intros H. apply Z.bits_inj'. intros i _. apply (f_equal (fun z => Z.testbit z i)) in H.
  rewrite !Z.lxor_spec in *.
  destruct (Z.testbit a i), (Z.testbit b i), (Z.testbit c i), (Z.testbit d i); done.
Qed.

Lemma arc_byte_loop c b : arc_byte c b = loop 8 arc_bit (Z.lxor c b).
Proof. reflexivity. Qed.

(** The conversion test must not unfold the eight steps. *)
Opaque arc_byte crc16_byte reverse16.

Lemma arc_byte_inj_l c c' b :
  0 <= c < 2 ^ 16 -> 0 <= c' < 2 ^ 16 -> is_byte b -> arc_byte c b = arc_byte c' b -> c = c'.
Proof.
  intros Hc Hc' Hb H. rewrite !arc_byte_loop in H. apply arc_iter_inj in H; [by eapply lxor_cancel_r| |];
    apply lxor_pow2_range; auto with raspi lia.
Qed.

Lemma arc_fold_inj data c c' :
  0 <= c < 2 ^ 16 -> 0 <= c' < 2 ^ 16 -> bytes_ok data ->
  foldl arc_byte c data = foldl arc_byte c' data -> c = c'.
Proof.
  intros Hc Hc' Hd. revert c c' Hc Hc'. induction Hd as [|b data Hb Hd IH]; [done|].
  intros c c' Hc Hc' H. cbn in H. apply IH in H; [|by apply arc_byte_range; auto with raspi..].
  by eapply arc_byte_inj_l.
Qed.

Lemma arc_fold_range data c : 0 <= c < 2 ^ 16 -> bytes_ok data -> 0 <= foldl arc_byte c data < 2 ^ 16.
Proof.
  intros Hc Hd. revert c Hc. induction Hd as [|b data Hb Hd IH]; intros c Hc; cbn [foldl]; [done|].
  apply IH, arc_byte_range; auto with raspi.
Qed.

(** Eight register steps are linear over exclusive or. *)
Lemma arc_bit_xor a b : arc_bit (Z.lxor a b) = Z.lxor (arc_bit a) (arc_bit b).
Proof.
  unfold arc_bit. rewrite <- !Z.bit0_odd, Z.lxor_spec, Z.shiftr_lxor, !Z.bit0_odd.
  destruct (Z.odd a), (Z.odd b); cbn [xorb]; apply Z.bits_inj'; intros i _;
    rewrite ?Z.lxor_spec; by destruct (Z.testbit _ i), (Z.testbit _ i), (Z.testbit 0xA001 i).
Qed.

Lemma arc_iter_xor n a b :
  loop n arc_bit (Z.lxor a b) = Z.lxor (loop n arc_bit a) (loop n arc_bit b).
Proof. induction n as [|n IH]; [done|]. cbn. by rewrite IH, arc_bit_xor. Qed.

(** A non-zero byte entering the register reaches its high half after eight steps. *)
Lemma arc_byte_spread d : 0 <= d < 256 -> loop 8 arc_bit d < 256 -> d = 0.
Proof.
  intros Hd Hlt. pose proof (forall_below 256
    (fun d => (d =? 0) || (256 <=? loop 8 arc_bit d)) ltac:(by vm_compute) d Hd) as H.
  apply orb_true_iff in H as [H|H]; breflect; lia.
Qed.

Lemma arc_loop_0 : loop 8 arc_bit 0 = 0.
Proof. by vm_compute. Qed.

Lemma arc_burst c a b a' b' :
  0 <= c < 2 ^ 16 -> bytes_ok [a; b; a'; b'] ->
  arc_byte (arc_byte c a) b = arc_byte (arc_byte c a') b' -> a = a' /\ b = b'.
Proof.
  intros Hc Hok. rewrite !Forall_cons in Hok. destruct Hok as (Ha & Hb & Ha' & Hb' & _). intros H.
  rewrite (arc_byte_loop _ b), (arc_byte_loop _ b') in H.
  apply arc_iter_inj in H; [|apply lxor_pow2_range; auto with raspi lia..].
  apply lxor_swap_eq in H. rewrite !arc_byte_loop, <- arc_iter_xor in H.
  replace (Z.lxor (Z.lxor c a) (Z.lxor c a')) with (Z.lxor a a') in H.
  2:{ apply Z.bits_inj'. intros i _. rewrite !Z.lxor_spec.
      by destruct (Z.testbit a i), (Z.testbit a' i), (Z.testbit c i). }
  assert (Z.lxor a a' = 0) as Haa.
  { apply arc_byte_spread; [apply (lxor_pow2_range _ _ 8); done || lia|]. rewrite H.
    apply (lxor_pow2_range _ _ 8); done || lia. }
  apply Z.lxor_eq in Haa as <-. split; [done|]. rewrite Z.lxor_nilpotent, arc_loop_0 in H.
  by apply Z.lxor_eq.
Qed.

(** C30: the checksum the program computes (bit-reversed input and output, polynomial 0x8005) is
    the CRC-16/ARC checksum of the reference definition, for every sequence of bytes. *)
Theorem crc16_correct (data : list Z) : bytes_ok data -> crc16 data = crc16_arc data.
Proof. apply crc16_is_arc. Qed.

Lemma crc16_correct_witness : bytes_ok (bytes_of "123456789") /\
  crc16 (bytes_of "123456789") = crc16_arc (bytes_of "123456789").
Proof.
  assert (bytes_ok (bytes_of "123456789")) as H by (vm_compute; repeat constructor; done).
  split; [exact H|]. apply (crc16_correct _ H).
Defined.

(** Two messages that differ only inside two adjacent bytes have different checksums: every
    error burst of up to nine bits, and every one inside a pair of bytes, is detected. *)
Theorem crc16_detects_burst (pre post : list Z) (a b a' b' : Z) :
  bytes_ok (pre ++ [a; b; a'; b'] ++ post) -> (a, b) <> (a', b') ->
  crc16 (pre ++ [a; b] ++ post) <> crc16 (pre ++ [a'; b'] ++ post).
Proof.
  rewrite !Forall_app. intros (Hpre & Hab & Hpost) Hne.
  pose proof Hab as Hab'. rewrite !Forall_cons in Hab'. destruct Hab' as (Ha & Hb & Ha' & Hb' & _).
  rewrite !crc16_is_arc by (rewrite !Forall_app, !Forall_cons; auto).
  unfold crc16_arc. rewrite !foldl_app. intros H.
  assert (0 <= foldl arc_byte 0 pre < 2 ^ 16) as Hc by (apply arc_fold_range; done || lia).
  apply arc_fold_inj in H; [|cbn [foldl]; auto 6 with raspi..|done].
  cbn [foldl] in H. destruct (arc_burst _ _ _ _ _ Hc Hab H) as [-> ->]. done.
Qed.

Lemma crc16_detects_burst_witness :
  crc16 ([1; 1] ++ [0x10; 7] ++ [9]) <> crc16 ([1; 1] ++ [0x11; 6] ++ [9]).
Proof.
  apply (crc16_detects_burst [1; 1] [9] 0x10 7 0x11 6); [|done].
  repeat constructor; done.
Defined.

(** ** Framing *)

(** The inverse of byte stuffing, as a receiver of the protocol reads a frame body: a doubled
    [DLE] is a data byte, [DLE ETX] ends the frame; the result is the payload and what follows. *)
Fixpoint unstuff (l : list Z) : option (list Z * list Z) :=
  match l with
  | [] => None
  | b :: l' =>
      if b =? DLE then
        match l' with
        | d :: l'' =>
            if d =? DLE then prod_map (cons DLE) id <$> unstuff l''
            else if d =? ETX then Some ([], l'')
            else None
        | [] => None
        end
      else prod_map (cons b) id <$> unstuff l'
  end.

(** A payload whose last two bytes are the checksum of the others, high byte first. *)
Definition check_crc (payload : list Z) : option (list Z) :=
  let n := (length payload - 2)%nat in
  match drop n payload with
  | [hi; lo] =>
      if Z.lor (Z.shiftl hi 8) lo =? crc16 (take n payload) then Some (take n payload) else None
  | _ => None
  end.

(** The receiver's side of [encode_frame]: destination mask, command, data and the rest of the
    stream. *)
Definition decode_frame (l : list Z) : option (Z * Z * list Z * list Z) :=
  match l with
  | d :: s :: body =>
      if (d =? DLE) && (s =? STX) then
        '(payload, rest) ← unstuff body;
        data ← check_crc payload;
        match data with mask :: cmd :: extra => Some (mask, cmd, extra, rest) | _ => None end
      else None
  | _ => None
  end.

Lemma unstuff_stuff p rest :
  unstuff (concat (map stuff_byte p) ++ DLE :: ETX :: rest) = Some (p, rest).
Proof.
  induction p as [|b p IH]; [done|]. cbn [map concat]. rewrite <- app_assoc.
  unfold stuff_byte at 1. destruct (Z.eqb_spec b DLE) as [->|Hne].
  - change ([DLE; DLE] ++ ?l) with (DLE :: DLE :: l).
    change (unstuff (DLE :: DLE :: ?l)) with (prod_map (cons DLE) (@id (list Z)) <$> unstuff l).
    by rewrite IH.
  - cbn [app unstuff]. destruct (Z.eqb_spec b DLE); [done|]. by rewrite IH.
Qed.

Lemma split_u16 c : 0 <= c < 2 ^ 16 ->
  Z.lor (Z.shiftl (Z.land (Z.shiftr c 8) 0xFF) 8) (Z.land c 0xFF) = c.
Proof.
  intros Hc. change 0xFF with (Z.ones 8). rewrite !Z.land_ones, Z.shiftr_div_pow2 by lia.
  rewrite lor_shiftl_add by (lia || apply Z.mod_pos_bound; lia).
  rewrite (Z.mod_small (c / 2 ^ 8)).
  - pose proof (Z.div_mod c (2 ^ 8)). lia.
  - split; [apply Z.div_pos; lia|]. apply Z.div_lt_upper_bound; lia.
Qed.

Lemma check_crc_append data :
  check_crc (data ++ [Z.land (Z.shiftr (crc16 data) 8) 0xFF] ++ [Z.land (crc16 data) 0xFF])
  = Some data.
Proof.
  unfold check_crc. rewrite length_app. cbn [app length].
  replace (length data + 2 - 2)%nat with (length data) by lia.
  rewrite drop_app_length, take_app_length, split_u16 by apply crc16_range.
  by rewrite Z.eqb_refl.
Qed.

Lemma encode_frame_decodes id command extra_data rest :
  decode_frame (encode_frame id command extra_data ++ rest)
  = Some (u8 (Z.shiftl 1 (id - 1)), command, extra_data, rest).
Proof.
  unfold encode_frame. cbv zeta. rewrite <- !app_assoc. cbn [app]. unfold decode_frame.
  change ((DLE =? DLE) && (STX =? STX)) with true. cbn match.
  rewrite unstuff_stuff. cbn [mbind option_bind].
  pose proof (check_crc_append (u8 (Z.shiftl 1 (id - 1)) :: command :: extra_data)) as Hc.
  cbn [app] in Hc. by rewrite Hc.
Qed.

(** C18: whatever the board, the command and the data, a receiver that undoes the byte stuffing and
    checks the checksum gets back the destination mask, the command and the data of the encoded
    frame, and stops exactly at its end. *)
Theorem encode_frame_roundtrip (id command : Z) (extra_data rest : list Z) :
  decode_frame (encode_frame id command extra_data ++ rest)
  = Some (u8 (Z.shiftl 1 (id - 1)), command, extra_data, rest).
Proof. apply encode_frame_decodes. Qed.

(** ** The receive loop as a function of the bytes heard *)

(** The [switch] run over a sequence of bytes: whether it reaches [return true]. *)
Fixpoint rx_run (state : rx_state) (payload : list Z) (heard : list Z) : bool :=
  match heard with
  | [] => false
  | rx :: heard' =>
      match rx_switch state payload rx with
      | rx_acked => true
      | rx_continue state' payload' => rx_run state' payload' heard'
      end
  end.

(** The bytes a sequence of loop steps delivers. *)
Definition heard (ticks : list (option Z)) : list Z := omap id ticks.

Lemma steps_done d : d <= 0 -> Z.to_nat ((d + 9) / 10) = 0%nat.
Proof.
  intros. assert ((d + 9) / 10 < 1) by (apply Z.div_lt_upper_bound; lia). lia.
Qed.

Lemma wait_ack_rx_run fuel waited timeout st pl ticks :
  timeout - waited <= 10 * Z.of_nat fuel ->
  wait_ack fuel waited timeout st pl ticks
  = rx_run st pl (heard (take (Z.to_nat ((timeout - waited + 9) / 10)) ticks)).
Proof.
  revert waited st pl ticks. induction fuel as [|fuel IH]; intros waited st pl ticks Hf.
  { cbn [wait_ack]. replace (Z.to_nat ((timeout - waited + 9) / 10)) with 0%nat; [done|].
    by rewrite steps_done by lia. }
  cbn [wait_ack]. destruct (Z.ltb_spec waited timeout).
  - assert (Z.to_nat ((timeout - waited + 9) / 10)
      = S (Z.to_nat ((timeout - (waited + 10) + 9) / 10))) as ->.
    { rewrite <- Z2Nat.inj_succ; [f_equal|].
      - replace (timeout - waited + 9) with ((timeout - (waited + 10) + 9) + 1 * 10) by lia.
        rewrite Z.div_add by lia. lia.
      - apply Z.div_pos; lia. }
    destruct ticks as [|[rx|] ticks]; cbn [take heard omap list_omap id rx_run].
    + rewrite IH by lia. by rewrite take_nil.
    + destruct (rx_switch st pl rx); [|done]. rewrite IH by lia. done.
    + rewrite IH by lia. done.
  - replace (Z.to_nat ((timeout - waited + 9) / 10)) with 0%nat; [done|].
    by rewrite steps_done by lia.
Qed.

(** A reply of a board, as the receive loop expects it. *)
Definition reply_frame (r : Z) : list Z :=
  [DLE; STX; r; Z.shiftr (crc16 [r]) 8; Z.land (crc16 [r]) 0xFF; DLE; ETX].

(** What the state and the payload of the loop say of the bytes heard so far. *)
Definition rx_inv (state : rx_state) (payload hist : list Z) : Prop :=
  match state with
  | WAIT_DLE => True
  | WAIT_STX => exists pre, hist = pre ++ [DLE]
  | IN_FRAME => exists pre, hist = pre ++ [DLE; STX] ++ payload
  | WAIT_ETX => (exists pre, hist = pre ++ [DLE; STX] ++ payload ++ [DLE])
                \/ (exists p1 p2, payload = [NACK; p1; p2])
  end.

Lemma crc_bytes r p1 p2 :
  is_byte p1 -> is_byte p2 -> u16 (Z.lor (Z.shiftl p1 8) p2) = crc16 [r] ->
  p1 = Z.shiftr (crc16 [r]) 8 /\ p2 = Z.land (crc16 [r]) 0xFF.
Proof.
  intros H1 H2 <-. rewrite lor_shiftl_add by (done || lia). unfold is_byte in *.
  rewrite u16_id by lia. change 0xFF with (Z.ones 8). rewrite Z.land_ones, Z.shiftr_div_pow2 by lia.
  split.
  - rewrite Z.div_add_l, Z.div_small by lia. lia.
  - rewrite Z.add_comm, Z.mod_add, Z.mod_small by lia. done.
Qed.

Lemma rx_switch_inv st pl hist rx :
  bytes_ok pl -> rx_inv st pl hist ->
  match rx_switch st pl rx with
  | rx_acked => exists pre, hist ++ [rx] = pre ++ reply_frame ACK
  | rx_continue st' pl' => rx_inv st' pl' (hist ++ [rx])
  end.
Proof.
  intros Hpl Hinv. destruct st; cbn [rx_switch rx_inv] in *.
  - destruct (Z.eqb_spec rx DLE) as [->|]; cbn; eauto.
  - destruct Hinv as [pre ->]. destruct (Z.eqb_spec rx STX) as [->|].
    { cbn. exists pre. by rewrite <- app_assoc. }
    destruct (Z.eqb_spec rx DLE) as [->|]; cbn; eauto.
  - destruct Hinv as [pre ->]. destruct (Z.eqb_spec rx DLE) as [->|]; cbn.
    + left. exists pre. by rewrite <- !app_assoc.
    + exists pre. by rewrite <- !app_assoc.
  - destruct (Z.eqb_spec rx ETX) as [->|]; [|done].
    destruct pl as [|r [|p1 [|p2 [|]]]]; try done.
    destruct (Z.eqb_spec (u16 (Z.lor (Z.shiftl p1 8) p2)) (crc16 [r])) as [Hcrc|]; [|done].
    rewrite !Forall_cons in Hpl. destruct Hpl as (_ & Hp1 & Hp2 & _).
    destruct (crc_bytes r p1 p2 Hp1 Hp2 Hcrc) as [-> ->].
    destruct (Z.eqb_spec r ACK) as [->|].
    + destruct Hinv as [[pre ->]|(? & ? & ?)]; [|done]. exists pre. by rewrite <- !app_assoc.
    + destruct (Z.eqb_spec r NACK) as [->|]; cbn; eauto.
Qed.

Lemma rx_switch_payload st pl rx st' pl' :
  bytes_ok pl -> is_byte rx -> rx_switch st pl rx = rx_continue st' pl' -> bytes_ok pl'.
Proof.
  intros Hpl Hrx. destruct st; cbn [rx_switch]; repeat case_match; intros; simplify_eq; auto.
  apply Forall_app. auto.
Qed.

Lemma rx_run_sound bs st pl hist :
  bytes_ok pl -> bytes_ok bs -> rx_inv st pl hist -> rx_run st pl bs = true ->
  exists pre post, hist ++ bs = pre ++ reply_frame ACK ++ post.
Proof.
  intros Hpl Hbs. revert st pl hist Hpl. induction Hbs as [|rx bs Hrx Hbs IH]; [done|].
  intros st pl hist Hpl Hinv. cbn [rx_run]. pose proof (rx_switch_inv st pl hist rx Hpl Hinv) as Hs.
  destruct (rx_switch st pl rx) as [st' pl'|] eqn:Hsw; intros Hrun.
  - destruct (IH st' pl' (hist ++ [rx])) as (pre & post & Heq); eauto using rx_switch_payload.
    exists pre, post. by rewrite <- app_assoc in Heq.
  - destruct Hs as [pre Heq]. exists pre, bs. rewrite app_assoc, <- Heq. by rewrite <- app_assoc.
Qed.

Lemma rx_run_skip garbage pl bs :
  DLE ∉ garbage -> rx_run WAIT_DLE pl (garbage ++ bs) = rx_run WAIT_DLE pl bs.
Proof.
  induction garbage as [|g garbage IH]; [done|]. intros Hin. apply not_elem_of_cons in Hin as [Hg Hin].
  cbn [app rx_run rx_switch]. destruct (Z.eqb_spec g DLE); [congruence|]. by apply IH.
Qed.

Lemma rx_run_reply pl post : rx_run WAIT_DLE pl (reply_frame ACK ++ post) = true.
Proof. by vm_compute. Qed.

(** ** The retry loop *)

(** Whether attempt [k] hears an acknowledgement before its timeout. *)
Definition attempt_acked (timeout_ms : Z) (line : list (list (option Z))) (k : nat) : bool :=
  rx_run WAIT_DLE [] (heard (take (wait_ack_steps timeout_ms) (default [] (line !! k)))).

Definition failed_attempts (frame : list Z) (k : nat) : list port_event :=
  concat (replicate k [ev_flush; ev_write frame; ev_sleep]).

Lemma attempt_acked_tail timeout line k :
  attempt_acked timeout (tail line) k = attempt_acked timeout line (S k).
Proof. unfold attempt_acked. by destruct line. Qed.

Lemma wait_ack_attempt timeout line :
  wait_ack (wait_ack_steps timeout) 0 timeout WAIT_DLE [] (default [] (head line))
  = attempt_acked timeout line 0.
Proof.
  rewrite wait_ack_rx_run.
  - rewrite Z.sub_0_r. unfold attempt_acked, wait_ack_steps. by destruct line.
  - unfold wait_ack_steps. pose proof (Z.div_mod (timeout + 9) 10).
    pose proof (Z.mod_pos_bound (timeout + 9) 10). lia.
Qed.

Lemma send_attempts_spec frame n timeout line :
  (exists k, (k < n)%nat /\ attempt_acked timeout line k = true
     /\ (forall j, (j < k)%nat -> attempt_acked timeout line j = false)
     /\ send_attempts frame n timeout line
        = (true, failed_attempts frame k ++ [ev_flush; ev_write frame]))
  \/ ((forall k, (k < n)%nat -> attempt_acked timeout line k = false)
     /\ send_attempts frame n timeout line = (false, failed_attempts frame n)).
Proof.
  revert line. induction n as [|n IH]; intros line; cbn [send_attempts].
  { right. split; [lia|done]. }
  rewrite wait_ack_attempt. destruct (attempt_acked timeout line 0) eqn:H0.
  { left. exists 0%nat. repeat split; [lia|done|lia]. }
  destruct (IH (tail line)) as [(k & Hk & Hack & Hbefore & ->)|[Hno ->]]; [left|right].
  - exists (S k). split; [lia|]. rewrite <- attempt_acked_tail. split; [done|]. split; [|done].
    intros [|j] Hj; [done|]. rewrite <- attempt_acked_tail. apply Hbefore. lia.
  - split; [|done]. intros [|k] Hk; [done|]. rewrite <- attempt_acked_tail. apply Hno. lia.
Qed.

(** Sending a command writes its frame once per attempt and stops at the first attempt that
    hears an acknowledgement within its timeout; it returns [true] exactly when there is one among
    the [retries] attempts, and every attempt that fails is followed by a pause. *)
Theorem send_frame_with_ack_attempts (id command retries timeout_ms : Z)
    (line : list (list (option Z))) :
  let frame := encode_frame id command [] in
  (exists k, (k < Z.to_nat retries)%nat /\ attempt_acked timeout_ms line k = true
     /\ (forall j, (j < k)%nat -> attempt_acked timeout_ms line j = false)
     /\ send_frame_with_ack id command retries timeout_ms line
        = (true, failed_attempts frame k ++ [ev_flush; ev_write frame]))
  \/ ((forall k, (k < Z.to_nat retries)%nat -> attempt_acked timeout_ms line k = false)
     /\ send_frame_with_ack id command retries timeout_ms line
        = (false, failed_attempts frame (Z.to_nat retries))).
Proof. apply send_attempts_spec. Qed.

(** The bytes attempt [k] hears before its timeout. *)
Definition attempt_heard (timeout_ms : Z) (line : list (list (option Z))) (k : nat) : list Z :=
  heard (take (wait_ack_steps timeout_ms) (default [] (line !! k))).

Lemma send_frame_with_ack_true id command retries timeout_ms line :
  fst (send_frame_with_ack id command retries timeout_ms line) = true <->
  exists k, (k < Z.to_nat retries)%nat /\ attempt_acked timeout_ms line k = true.
Proof.
  unfold send_frame_with_ack.
  destruct (send_attempts_spec (encode_frame id command []) (Z.to_nat retries) timeout_ms line)
    as [(k & Hk & Hack & _ & ->)|[Hno ->]].
  - split; eauto.
  - split; [done|]. intros (k & Hk & Hack). by rewrite Hno in Hack.
Qed.

(** C19: a success is never claimed without a reason: when the call returns [true], the bytes heard
    during one of its attempts contain a whole well-formed ACK frame with a valid checksum. *)
Theorem send_frame_with_ack_sound (id command retries timeout_ms : Z)
    (line : list (list (option Z))) :
  Forall (fun ticks => bytes_ok (heard ticks)) line ->
  fst (send_frame_with_ack id command retries timeout_ms line) = true ->
  exists k pre post, (k < Z.to_nat retries)%nat
    /\ attempt_heard timeout_ms line k = pre ++ reply_frame ACK ++ post.
Proof.
  intros Hok (k & Hk & Hack)%send_frame_with_ack_true. exists k.
  assert (bytes_ok (attempt_heard timeout_ms line k)) as Hb.
  { unfold attempt_heard. destruct (line !! k) as [ticks|] eqn:Hl; cbn [default]; [|by rewrite take_nil].
    apply (Forall_lookup_1 _ _ _ _ Hok) in Hl. cbn in Hl. unfold heard in *.
    rewrite <- (take_drop (wait_ack_steps timeout_ms) ticks), omap_app, Forall_app in Hl. apply Hl. }
  destruct (rx_run_sound _ WAIT_DLE [] [] (List.Forall_nil _) Hb I Hack) as (pre & post & Heq). eauto.
Qed.

(** C20: an acknowledgement that arrives is recognised: if during one of the attempts the board's
    ACK frame is heard in full before the timeout, after any bytes that hold no DLE, the call
    returns [true]. *)
Theorem send_frame_with_ack_complete (id command retries timeout_ms : Z)
    (line : list (list (option Z))) (k : nat) (garbage post : list Z) :
  (k < Z.to_nat retries)%nat -> DLE ∉ garbage ->
  attempt_heard timeout_ms line k = garbage ++ reply_frame ACK ++ post ->
  fst (send_frame_with_ack id command retries timeout_ms line) = true.
Proof.
  intros Hk Hg Heq. apply send_frame_with_ack_true. exists k. split; [done|].
  unfold attempt_acked. fold (attempt_heard timeout_ms line k). rewrite Heq.
  by rewrite rx_run_skip, rx_run_reply.
Qed.

(** A line on which the second attempt hears some noise and then the ACK. *)
Definition noisy_line : list (list (option Z)) :=
  [[None; Some 7]; None :: map Some ([0x55; 3] ++ reply_frame ACK)].

Lemma send_frame_with_ack_sound_witness :
  fst (send_frame_with_ack 1 CMD_LCD_ON 3 500 noisy_line) = true /\
  exists k pre post, (k < Z.to_nat 3)%nat
    /\ attempt_heard 500 noisy_line k = pre ++ reply_frame ACK ++ post.
Proof.
  assert (fst (send_frame_with_ack 1 CMD_LCD_ON 3 500 noisy_line) = true) as H by (by vm_compute).
  split; [exact H|]. apply (send_frame_with_ack_sound 1 CMD_LCD_ON 3 500 noisy_line); [|exact H].
  vm_compute. repeat constructor; done.
Defined.

Lemma send_frame_with_ack_complete_witness :
  fst (send_frame_with_ack 1 CMD_LCD_ON 3 500 noisy_line) = true.
Proof.
  apply (send_frame_with_ack_complete 1 CMD_LCD_ON 3 500 noisy_line 1 [0x55; 3] []).
  - vm_compute. lia.
  - by apply (bool_decide_unpack _); vm_compute.
  - by vm_compute.
Defined.

Lemma rx_run_nothing garbage pl : DLE ∉ garbage -> rx_run WAIT_DLE pl garbage = false.
Proof. intros H. pose proof (rx_run_skip garbage pl [] H) as Hs. by rewrite app_nil_r in Hs. Qed.

(** The [switch] run over a prefix of what is heard. *)
Fixpoint rx_feed (state : rx_state) (payload : list Z) (bs : list Z) : rx_result :=
  match bs with
  | [] => rx_continue state payload
  | rx :: bs' =>
      match rx_switch state payload rx with
      | rx_acked => rx_acked
      | rx_continue state' payload' => rx_feed state' payload' bs'
      end
  end.

Lemma rx_run_app st pl bs bs' :
  rx_run st pl (bs ++ bs')
  = match rx_feed st pl bs with rx_acked => true | rx_continue st' pl' => rx_run st' pl' bs' end.
Proof.
  revert st pl. induction bs as [|rx bs IH]; intros st pl; [done|]. cbn [app rx_run rx_feed].
  by destruct (rx_switch st pl rx).
Qed.

Lemma rx_run_nack_ack post :
  rx_run WAIT_DLE [] (reply_frame NACK ++ reply_frame ACK ++ post) = rx_run WAIT_DLE [] post.
Proof.
  rewrite app_assoc, rx_run_app.
  assert (rx_feed WAIT_DLE [] (reply_frame NACK ++ reply_frame ACK) = rx_continue WAIT_DLE []) as ->
    by (by vm_compute). reflexivity.
Qed.

(** A NACK does not end the attempt: the loop goes on reading in the state that waits for ETX,
    so an ACK frame sent right behind the NACK frame is not recognised. *)
Theorem nack_hides_next_ack (timeout_ms : Z) (line : list (list (option Z))) (k : nat)
    (garbage post : list Z) :
  DLE ∉ garbage -> DLE ∉ post ->
  attempt_heard timeout_ms line k = garbage ++ reply_frame NACK ++ reply_frame ACK ++ post ->
  attempt_acked timeout_ms line k = false.
Proof.
  intros Hg Hp Heq. unfold attempt_acked. fold (attempt_heard timeout_ms line k). rewrite Heq.
  by rewrite rx_run_skip, rx_run_nack_ack, rx_run_nothing.
Qed.

Lemma nack_hides_next_ack_witness :
  attempt_acked 500 [map Some (reply_frame NACK ++ reply_frame ACK)] 0 = false.
Proof.
  apply (nack_hides_next_ack 500 _ 0 [] []); [by apply not_elem_of_nil..|by vm_compute].
Defined.

(** ** Time synchronisation *)

(** The ranges [localtime] guarantees. *)
Definition tm_ok (t : tm) : Prop :=
  0 <= tm_year t /\ 0 <= tm_mon t < 12 /\ 1 <= tm_mday t <= 31 /\ 0 <= tm_hour t < 24
  /\ 0 <= tm_min t < 60 /\ 0 <= tm_sec t <= 60.

Lemma hour12_spec h :
  0 <= h < 24 ->
  let '(h12, pm) := hour12 h in
  1 <= h12 <= 12 /\ h12 mod 12 + (if pm then 12 else 0) = h.
Proof.
  intros Hh. pose proof (forall_below 24 (fun h => let '(h12, pm) := hour12 h in
    (1 <=? h12) && (h12 <=? 12) && (h12 mod 12 + (if pm then 12 else 0) =? h)) eq_refl h Hh) as H.
  cbv beta in H. destruct (hour12 h). breflect. lia.
Qed.

Lemma send_time_sync_payload t :
  tm_ok t ->
  exists h12 pm, hour12 (tm_hour t) = (h12, pm) /\
    time_payload t = [(1900 + tm_year t) mod 100; tm_mon t + 1; tm_mday t; h12; tm_min t; tm_sec t;
                      if pm then 1 else 0].
Proof.
  intros (Hy & Hmo & Hd & Hh & Hmi & Hs). pose proof (hour12_spec _ Hh) as H12. unfold time_payload.
  destruct (hour12 (tm_hour t)) as [h12 pm]. exists h12, pm. split; [done|].
  rewrite Z.rem_mod_nonneg by lia. pose proof (Z.mod_pos_bound (tm_year t) 100).
  rewrite !u8_id by (unfold is_byte; repeat case_match; lia).
  replace (1900 + tm_year t) with (tm_year t + 19 * 100) by lia. by rewrite Z.mod_add by lia.
Qed.

(** The time frame a board receives carries the local time: two-digit year, month 1 to 12, day,
    hour on a 12-hour clock with its AM/PM flag, minute and second; the 24-hour time can be read
    back from it. *)
Theorem send_time_sync_correct (id : Z) (t : tm) :
  tm_ok t ->
  exists h12 pm,
    decode_frame (fst (send_time_sync_from_system id t))
    = Some (u8 (Z.shiftl 1 (id - 1)), CMD_SYNC_TIME,
            [(1900 + tm_year t) mod 100; tm_mon t + 1; tm_mday t; h12; tm_min t; tm_sec t; pm], [])
    /\ 1 <= h12 <= 12 /\ h12 mod 12 + 12 * pm = tm_hour t.
Proof.
  intros Ht. destruct (send_time_sync_payload t Ht) as (h12 & pm & H12 & Hp).
  pose proof (hour12_spec (tm_hour t)) as Hs. rewrite H12 in Hs.
  exists h12, (if pm then 1 else 0). cbn [send_time_sync_from_system fst].
  rewrite <- (app_nil_r (encode_frame _ _ _)), Hp.
  rewrite encode_frame_decodes. split; [done|].
  specialize (Hs ltac:(unfold tm_ok in Ht; lia)). destruct pm; lia.
Qed.

Lemma send_time_sync_correct_witness :
  let t := Tm 125 10 14 13 5 9 in
  exists h12 pm,
    decode_frame (fst (send_time_sync_from_system 2 t))
    = Some (u8 (Z.shiftl 1 (2 - 1)), CMD_SYNC_TIME, [(1900 + 125) mod 100; 11; 14; h12; 5; 9; pm], [])
    /\ 1 <= h12 <= 12 /\ h12 mod 12 + 12 * pm = 13.
Proof. apply (send_time_sync_correct 2 (Tm 125 10 14 13 5 9)). unfold tm_ok. cbn. lia. Defined.

(** The time sender of send_time.cpp writes to each of the four ports exactly the frame that
    [send_time_sync_from_system] of that board would write. *)
Theorem send_time_agrees (t : tm) :
  tm_ok t ->
  SendTime.send_round t
  = zip_with (fun port id => (port, fst (send_time_sync_from_system id t))) SERIAL_PORTS [1; 2; 3; 4].
Proof.
  intros (_ & _ & _ & Hh & _). unfold SendTime.send_round. cbn [zip_with SERIAL_PORTS].
  assert (SendTime.time_payload t = time_payload t) as ->.
  { unfold SendTime.time_payload, time_payload, hour12. rewrite (u8_id (tm_hour t)) by (unfold is_byte; lia).
    destruct (Z.leb_spec 12 (tm_hour t)), (Z.ltb_spec 12 (tm_hour t)); try lia; try done.
    rewrite (u8_id (tm_hour t - 12)) by (unfold is_byte; lia). done. }
  done.
Qed.

Lemma send_time_agrees_witness :
  SendTime.send_round (Tm 125 10 14 13 5 9)
  = zip_with (fun port id => (port, fst (send_time_sync_from_system id (Tm 125 10 14 13 5 9))))
      SERIAL_PORTS [1; 2; 3; 4].
Proof. apply send_time_agrees. unfold tm_ok. cbn. lia. Defined.
