(* ===== verification/Serial.v ===== *)
(** * board_control.cpp and send_time.cpp: the serial ports

    How the two programs set up a port, and what that means for the frames written to it.  Opening the
    port, reading its attributes and what the driver sends for the bytes written are arguments; of the
    driver only the documented treatment of a newline is used. *)

From S2P Require Import Prelude BoardControl.

Local Open Scope string_scope.
Local Open Scope Z_scope.
Local Open Scope list_scope.

(** ** Attributes of a port *)

(** [termios]; of the control characters the two that are assigned. *)
Record termios := mk_termios {
  c_iflag : Z;
  c_oflag : Z;
  c_cflag : Z;
  c_lflag : Z;
  c_ispeed : Z;
  c_ospeed : Z;
  cc_VMIN : Z;
  cc_VTIME : Z }.

(** [termios tty{}]. *)
Definition zero_termios : termios := mk_termios 0 0 0 0 0 0 0 0.

Definition CSIZE : Z := 0x30.
Definition CS8 : Z := 0x30.
Definition CSTOPB : Z := 0x40.
Definition CREAD : Z := 0x80.
Definition PARENB : Z := 0x100.
Definition CLOCAL : Z := 0x800.
Definition CRTSCTS : Z := 0x80000000.
Definition B115200 : Z := 0x1002.

Definition cfsetospeed (speed : Z) (tty : termios) : termios :=
  mk_termios (c_iflag tty) (c_oflag tty) (c_cflag tty) (c_lflag tty) (c_ispeed tty) speed (cc_VMIN tty) (cc_VTIME tty).
Definition cfsetispeed (speed : Z) (tty : termios) : termios :=
  mk_termios (c_iflag tty) (c_oflag tty) (c_cflag tty) (c_lflag tty) speed (c_ospeed tty) (cc_VMIN tty) (cc_VTIME tty).

(** The assignments to [c_cflag]. *)
Definition control_flags (c : Z) : Z :=
  let c := Z.lor c (Z.lor CLOCAL CREAD) in
  let c := Z.ldiff c CSIZE in
  let c := Z.lor c CS8 in
  let c := Z.ldiff c PARENB in
  let c := Z.ldiff c CSTOPB in
  Z.ldiff c CRTSCTS.

Definition with_cflag (c : Z) (tty : termios) : termios :=
  mk_termios (c_iflag tty) (c_oflag tty) c (c_lflag tty) (c_ispeed tty) (c_ospeed tty) (cc_VMIN tty) (cc_VTIME tty).
Definition with_cc (vmin vtime : Z) (tty : termios) : termios :=
  mk_termios (c_iflag tty) (c_oflag tty) (c_cflag tty) (c_lflag tty) (c_ispeed tty) (c_ospeed tty) vmin vtime.

(** [BoardController::open_port]: the descriptor and the attributes set, or [None] for [exit(1)].  The
    result of [tcgetattr] is not looked at: when it fails ([None]) the attributes are the zeros. *)
Definition open_port (fd : Z) (attributes : option termios) : option (Z * termios) :=
  if fd <? 0 then None
  else
    let tty := default zero_termios attributes in
    let tty := cfsetispeed B115200 (cfsetospeed B115200 tty) in
    Some (fd, with_cflag (control_flags (c_cflag tty)) tty).

(** [open_serial] of send_time.cpp. *)
Definition open_serial (fd : Z) (attributes : option termios) : option (Z * termios) :=
  if fd <? 0 then None
  else
    let tty := default zero_termios attributes in
    let tty := cfsetispeed B115200 (cfsetospeed B115200 tty) in
    let tty := with_cflag (control_flags (c_cflag tty)) tty in
    Some (fd, with_cc 0 10 tty).

(** ** What the set-up does *)

(** Output processing, and newlines sent as carriage return and newline. *)
Definition OPOST : Z := 0x1.
Definition ONLCR : Z := 0x4.

Lemma control_flags_testbit c i : 0 <= i ->
  Z.testbit (control_flags c) i
  = if bool_decide (i ∈ [4; 5; 7; 11]) then true else if bool_decide (i ∈ [6; 8; 31]) then false else Z.testbit c i.
Proof.
  intros Hi. unfold control_flags. rewrite ?Z.ldiff_spec, ?Z.lor_spec, ?Z.ldiff_spec, ?Z.lor_spec.
  assert (forall k, 0 <= k -> Z.testbit (2 ^ k) i = (k =? i)) as P by (intros k Hk; by rewrite Z.pow2_bits_eqb).
  change CLOCAL with (2 ^ 11). change CREAD with (2 ^ 7). change CSIZE with (Z.lor (2 ^ 4) (2 ^ 5)). change CS8 with (Z.lor (2 ^ 4) (2 ^ 5)).
  change PARENB with (2 ^ 8). change CSTOPB with (2 ^ 6). change CRTSCTS with (2 ^ 31). rewrite ?Z.lor_spec, !P by lia.
  destruct (Z.eqb_spec 11 i) as [<-|]; [by destruct (Z.testbit c 11)|].
  destruct (Z.eqb_spec 7 i) as [<-|]; [by destruct (Z.testbit c 7)|].
  destruct (Z.eqb_spec 4 i) as [<-|]; [by destruct (Z.testbit c 4)|].
  destruct (Z.eqb_spec 5 i) as [<-|]; [by destruct (Z.testbit c 5)|].
  destruct (Z.eqb_spec 8 i) as [<-|]; [by destruct (Z.testbit c 8)|].
  destruct (Z.eqb_spec 6 i) as [<-|]; [by destruct (Z.testbit c 6)|].
  destruct (Z.eqb_spec 31 i) as [<-|]; [by destruct (Z.testbit c 31)|].
  rewrite !bool_decide_eq_false_2 by (rewrite ?elem_of_cons, elem_of_nil; lia). by destruct (Z.testbit c i).
Qed.

(** Both programs leave a port with eight data bits, no parity, one stop bit and no flow control, and
    with every input, output and local mode as they found it. *)
Lemma open_port_modes fd attributes fd' tty : open_port fd attributes = Some (fd', tty) ->
  let before := default zero_termios attributes in
  fd' = fd /\ c_iflag tty = c_iflag before /\ c_oflag tty = c_oflag before /\ c_lflag tty = c_lflag before
  /\ c_cflag tty = control_flags (c_cflag before) /\ open_serial fd attributes = Some (fd, with_cc 0 10 tty).
Proof. unfold open_port, open_serial. destruct (fd <? 0); [done|]. by intros [= <- <-]. Qed.

(** ** Frames with a newline *)

Definition crlf (bs : list Z) : list Z := concat (map (fun b => if b =? 10 then [13; 10] else [b]) bs).

Section driver.
(** What the driver sends for the bytes written to a port with the given attributes. *)
Context (transmit : termios -> list Z -> list Z).

(** The documented treatment of newlines: with [OPOST] and [ONLCR] alone, a newline is sent as carriage
    return and newline; without [OPOST] the bytes are sent as they are. *)
Definition newline_law : Prop :=
  (forall tty bs, c_oflag tty = Z.lor OPOST ONLCR -> transmit tty bs = crlf bs)
  /\ (forall tty bs, Z.testbit (c_oflag tty) 0 = false -> transmit tty bs = bs).

Lemma crlf_changes bs : In 10 bs -> (length bs < length (crlf bs))%nat.
Proof.
  assert (forall l, (length l <= length (crlf l))%nat) as G.
  { intros l. induction l as [|b l IH]; [done|]. unfold crlf in *. cbn [map concat]. rewrite length_app. destruct (b =? 10); cbn [length]; lia. }
  intros H. induction bs as [|b bs IH]; [done|]. unfold crlf in *. cbn [map concat]. rewrite length_app. destruct (Z.eqb_spec b 10) as [->|Hb]; cbn [length].
  - pose proof (G bs). lia.
  - destruct H as [->|H]; [done|]. specialize (IH H). lia.
Qed.

Lemma frame_keeps_byte id command extra b : b <> DLE -> In b extra -> In b (encode_frame id command extra).
Proof.
  intros Hb H. unfold encode_frame. apply in_or_app; right. apply in_or_app; left. apply in_concat. exists [b]. split; [|by left].
  apply in_map_iff. exists b. split; [unfold stuff_byte; by destruct (Z.eqb_spec b DLE)|]. apply in_or_app; left. apply in_or_app. by right.
Qed.
End driver.

(** The set-up leaves the output processing of the terminal as it was: on a port with the modes a
    terminal starts with, every frame that holds the byte 10 is sent with an inserted carriage return,
    so the time sent in the tenth minute of every hour, and in the tenth second of every minute, is not
    the frame that was encoded; on a port without output processing every frame is sent as encoded. *)
Theorem newline_frames_altered (transmit : termios -> list Z -> list Z) (fd : Z) (attributes : termios) (tty : termios) (fd' id : Z) (t : tm) :
  newline_law transmit -> open_port fd (Some attributes) = Some (fd', tty) ->
  (c_oflag attributes = Z.lor OPOST ONLCR -> tm_min t = 10 \/ tm_sec t = 10 ->
   transmit tty (fst (send_time_sync_from_system id t)) <> fst (send_time_sync_from_system id t))
  /\ (Z.testbit (c_oflag attributes) 0 = false -> forall frame, transmit tty frame = frame).
Proof.
  intros [Hnl Hraw] Ho. apply open_port_modes in Ho as (_ & _ & Ho & _). cbn in Ho. split.
  - intros Hf Ht E. apply (f_equal length) in E. rewrite Hnl in E by (by rewrite Ho).
    enough (In 10 (fst (send_time_sync_from_system id t))) as H by (apply crlf_changes in H; lia).
    apply frame_keeps_byte; [done|]. unfold time_payload. destruct (hour12 _). cbn [In]. destruct Ht as [-> | ->]; tauto.
  - intros Hf frame. apply Hraw. by rewrite Ho.
Qed.

(** The modes of a new terminal, and a driver that does what is documented. *)
Definition cooked : termios := mk_termios 0x500 0x5 0xBF 0x8A3B 0xF 0xF 1 0.
Definition tty_driver (tty : termios) (bs : list Z) : list Z :=
  if Z.testbit (c_oflag tty) 0 && Z.testbit (c_oflag tty) 2 then crlf bs else bs.

Lemma newline_frames_altered_witness :
  tty_driver cooked (fst (send_time_sync_from_system 1 (Tm 125 10 14 13 10 9))) <> fst (send_time_sync_from_system 1 (Tm 125 10 14 13 10 9)).
Proof.
  refine (proj1 (newline_frames_altered tty_driver 3 cooked (with_cflag (control_flags 0xBF) (cfsetispeed B115200 (cfsetospeed B115200 cooked))) 3 1
    (Tm 125 10 14 13 10 9) _ eq_refl) eq_refl (or_introl eq_refl)).
  split; intros tty bs H; unfold tty_driver; rewrite H; done.
Defined.
