(* ===== verification/Utils.v ===== *)
(** * utils.cpp: Base64 and wiping of passwords

    [base64_encode] with its 32-bit accumulator, against the three-byte groups of RFC 4648 and a
    decoder; [secure_clear_password] on the buffer of a string. *)

From S2P Require Import Prelude.
From Stdlib Require Import Ascii.
From Stdlib Require String.

(** ** Base64 *)

Definition b64_chars : string :=
  "ABCDEFGHIJKLMNOPQRSTUVWXYZabcdefghijklmnopqrstuvwxyz0123456789+/".

(** [b64_chars[i]]; every index the program uses is masked to six bits. *)
Definition b64_char (i : Z) : ascii := default zero (String.get (Z.to_nat i) b64_chars).

(** The [while (valb >= 0)] loop: the characters pushed and the final [valb]. *)
Fixpoint b64_emit (fuel : nat) (val valb : Z) (out : list ascii) : Z * list ascii :=
  match fuel with
  | O => (valb, out)
  | S fuel =>
      if 0 <=? valb
      then b64_emit fuel val (valb - 6) (out ++ [b64_char (Z.land (Z.shiftr val valb) 0x3F)])
      else (valb, out)
  end.

(** Enough iterations of the loop for [valb]. *)
Definition b64_fuel (valb : Z) : nat := Z.to_nat (valb / 6 + 2).

(** The body of the [for] loop on (val, valb, out). *)
Definition b64_step (st : Z * Z * list ascii) (c : Z) : Z * Z * list ascii :=
  let '(val, valb, out) := st in
  let val := s32 (s32 (Z.shiftl val 8) + c) in
  let valb := valb + 8 in
  let '(valb, out) := b64_emit (b64_fuel valb) val valb out in
  (val, valb, out).

(** [while (out.size() % 4) out.push_back('=')]: at most three rounds. *)
Fixpoint b64_pad (fuel : nat) (out : list ascii) : list ascii :=
  match fuel with
  | O => out
  | S fuel =>
      if Z.of_nat (length out) mod 4 =? 0 then out else b64_pad fuel (out ++ ["="%char])
  end.

(** What follows the [for] loop. *)
Definition b64_finish (st : Z * Z * list ascii) : list ascii :=
  let '(val, valb, out) := st in
  let out :=
    if -6 <? valb
    then out ++ [b64_char (Z.land (Z.shiftr (s32 (Z.shiftl val 8)) (valb + 8)) 0x3F)]
    else out in
  b64_pad 3 out.

Definition base64_encode (input : list Z) : string :=
  String.string_of_list_ascii (b64_finish (foldl b64_step (0, -6, []) input)).

(** ** Wiping a password *)

(** A string as the bytes of its buffer and its length. *)
Record cpp_string := CppString { buffer : list Z; size : nat }.

(** [memset(&passwd[0], 0, passwd.length()); passwd.clear()]: [clear] sets the length and the
    terminator in front, and leaves the buffer where it is. *)
Definition secure_clear_password (passwd : cpp_string) : cpp_string :=
  if (size passwd =? 0)%nat then passwd
  else CppString (replicate (size passwd) 0 ++ drop (size passwd) (buffer passwd)) 0.

(** ** The reference: RFC 4648 *)

(** The four sextets of a 24-bit group. *)
Definition sextet (n k : Z) : ascii := b64_char (n / 2 ^ (6 * k) mod 64).

Fixpoint rfc4648 (input : list Z) : list ascii :=
  match input with
  | [] => []
  | [a] => let n := a * 2 ^ 16 in [sextet n 3; sextet n 2; "="%char; "="%char]
  | [a; b] => let n := a * 2 ^ 16 + b * 2 ^ 8 in [sextet n 3; sextet n 2; sextet n 1; "="%char]
  | a :: b :: c :: rest =>
      let n := a * 2 ^ 16 + b * 2 ^ 8 + c in
      [sextet n 3; sextet n 2; sextet n 1; sextet n 0] ++ rfc4648 rest
  end.

(** The value of a Base64 character. *)
Definition b64_value (c : ascii) : option Z :=
  Z.of_nat <$> (fst <$> list_find (fun d => d = c) (String.list_ascii_of_string b64_chars)).

(** A strict decoder: groups of four characters, padding in the last group only, and its unused
    bits zero. *)
Fixpoint b64_decode (s : list ascii) : option (list Z) :=
  match s with
  | [] => Some []
  | c3 :: c2 :: c1 :: c0 :: rest =>
      v3 ← b64_value c3; v2 ← b64_value c2;
      match b64_value c1, b64_value c0 with
      | Some v1, Some v0 =>
          let n := v3 * 2 ^ 18 + v2 * 2 ^ 12 + v1 * 2 ^ 6 + v0 in
          tl ← b64_decode rest;
          Some ([n / 2 ^ 16; n / 2 ^ 8 mod 256; n mod 256] ++ tl)
      | Some v1, None =>
          let n := v3 * 2 ^ 18 + v2 * 2 ^ 12 + v1 * 2 ^ 6 in
          if bool_decide (c0 = "="%char) && (n mod 256 =? 0) && bool_decide (rest = [])
          then Some [n / 2 ^ 16; n / 2 ^ 8 mod 256] else None
      | None, _ =>
          let n := v3 * 2 ^ 18 + v2 * 2 ^ 12 in
          if bool_decide (c1 = "="%char) && bool_decide (c0 = "="%char)
             && (n mod 2 ^ 16 =? 0) && bool_decide (rest = [])
          then Some [n / 2 ^ 16] else None
      end
  | _ => None
  end.

(** ** The accumulator *)

(** Wrapping to 32 bits takes away a multiple of [2 ^ 32]. *)
Lemma s32_eq z : exists q, s32 z = z - 2 ^ 32 * q.
Proof. exists ((z + 2 ^ 31) / 2 ^ 32). unfold s32. rewrite Z.mod_eq by lia. lia. Qed.

Lemma land_shiftr_mod v k : 0 <= k -> Z.land (Z.shiftr v k) 0x3F = v / 2 ^ k mod 64.
Proof.
  intros Hk. change 0x3F with (Z.ones 6). rewrite Z.land_ones by lia.
  by rewrite Z.shiftr_div_pow2.
Qed.

(** The accumulator holds the bytes read so far in its low bits, whatever is above them. *)
Lemma acc_eq val c : exists q, s32 (s32 (Z.shiftl val 8) + c) = val * 2 ^ 8 + c - 2 ^ 32 * q.
Proof.
  rewrite Z.shiftl_mul_pow2 by lia.
  destruct (s32_eq (val * 2 ^ 8)) as [q ->]. destruct (s32_eq (val * 2 ^ 8 - 2 ^ 32 * q + c)) as [q' ->].
  exists (q + q'). lia.
Qed.

(** The three phases of the loop, by the number of bits waiting. *)
Lemma b64_step_0 val out c : exists q, let v := val * 2 ^ 8 + c - 2 ^ 32 * q in
  b64_step (val, -6, out) c = (v, -4, out ++ [b64_char (v / 2 ^ 2 mod 64)]).
Proof.
  destruct (acc_eq val c) as [q Hq]. exists q. unfold b64_step.
  rewrite Hq. change (b64_fuel (-6 + 8)) with 2%nat. cbn -[Z.land Z.shiftr Z.div Z.modulo Z.pow].
  by rewrite land_shiftr_mod by lia.
Qed.

Lemma b64_step_1 val out c : exists q, let v := val * 2 ^ 8 + c - 2 ^ 32 * q in
  b64_step (val, -4, out) c = (v, -2, out ++ [b64_char (v / 2 ^ 4 mod 64)]).
Proof.
  destruct (acc_eq val c) as [q Hq]. exists q. unfold b64_step.
  rewrite Hq. change (b64_fuel (-4 + 8)) with 2%nat. cbn -[Z.land Z.shiftr Z.div Z.modulo Z.pow].
  by rewrite land_shiftr_mod by lia.
Qed.

Lemma b64_step_2 val out c : exists q, let v := val * 2 ^ 8 + c - 2 ^ 32 * q in
  b64_step (val, -2, out) c
  = (v, -6, (out ++ [b64_char (v / 2 ^ 6 mod 64)]) ++ [b64_char (v / 2 ^ 0 mod 64)]).
Proof.
  destruct (acc_eq val c) as [q Hq]. exists q. unfold b64_step.
  rewrite Hq. change (b64_fuel (-2 + 8)) with 3%nat. cbn -[Z.land Z.shiftr Z.div Z.modulo Z.pow].
  by rewrite !land_shiftr_mod by lia.
Qed.

(** Three bytes read with no bits waiting push the four characters of their group. *)
Lemma b64_step_group val out a b c : is_byte a -> is_byte b -> is_byte c ->
  exists v, let n := a * 2 ^ 16 + b * 2 ^ 8 + c in
  foldl b64_step (val, -6, out) [a; b; c]
  = (v, -6, out ++ [sextet n 3; sextet n 2; sextet n 1; sextet n 0]).
Proof.
  unfold is_byte. intros Ha Hb Hc. cbn [foldl].
  destruct (b64_step_0 val out a) as [q ->].
  match goal with |- context [b64_step (?v, -4, ?o) b] => destruct (b64_step_1 v o b) as [q' ->] end.
  match goal with |- context [b64_step (?v, -2, ?o) c] => destruct (b64_step_2 v o c) as [q'' ->] end.
  eexists. rewrite <- !app_assoc. unfold sextet. cbn [app]. f_equal. f_equal.
  apply (f_equal2 cons); [|apply (f_equal2 cons); [|apply (f_equal2 cons); [|apply (f_equal2 cons);
    [|done]]]]; apply f_equal; Z.to_euclidean_division_equations; lia.
Qed.

Lemma list_ind3 {A} (P : list A -> Prop) :
  P [] -> (forall a, P [a]) -> (forall a b, P [a; b]) ->
  (forall a b c l, P l -> P (a :: b :: c :: l)) -> forall l, P l.
Proof.
  intros H0 H1 H2 H3. fix IH 1. intros [|a [|b [|c l]]].
  - exact H0.
  - exact (H1 a).
  - exact (H2 a b).
  - exact (H3 a b c l (IH l)).
Qed.

Lemma rfc4648_length input : (length (rfc4648 input) mod 4 = 0)%nat.
Proof.
  induction input as [|a|a b|a b c l IH] using list_ind3; [done..|].
  cbn [rfc4648]. rewrite length_app. cbn [length].
  rewrite <- Nat.Div0.add_mod_idemp_r, IH. done.
Qed.

(** The padding of an output whose length is [r] beyond a multiple of four. *)
Lemma b64_pad_app out l (r : nat) :
  (length out mod 4 = 0)%nat -> length l = r -> (r <= 4)%nat ->
  b64_pad 3 (out ++ l) = out ++ b64_pad 3 l.
Proof.
  intros H0 Hl Hr.
  assert (H : forall l', (length (out ++ l') mod 4 = length l' mod 4)%nat).
  { intros l'. rewrite length_app, <- Nat.Div0.add_mod_idemp_l, H0. done. }
  assert (Hz : forall l', Z.of_nat (length (out ++ l')) mod 4 = Z.of_nat (length l') mod 4).
  { intros l'. pose proof (H l') as E. apply (f_equal Z.of_nat) in E.
    by rewrite !Nat2Z.inj_mod in E. }
  cbn [b64_pad]. rewrite <- !app_assoc, !Hz. by repeat case_match.
Qed.

(** The characters of a last group of one and of two bytes. *)
Lemma b64_finish_1 val out a : is_byte a -> (length out mod 4 = 0)%nat ->
  b64_finish (foldl b64_step (val, -6, out) [a]) = out ++ rfc4648 [a].
Proof.
  unfold is_byte. intros Ha Ho. cbn [foldl].
  destruct (b64_step_0 val out a) as [q ->]. unfold b64_finish. change (-6 <? -4) with true. cbv iota.
  rewrite land_shiftr_mod, Z.shiftl_mul_pow2 by lia.
  match goal with |- context [s32 ?e] => destruct (s32_eq e) as [q' ->] end.
  rewrite <- app_assoc, (b64_pad_app _ _ 2) by (done || lia). f_equal.
  change (-4 + 8) with 4. cbn -[Z.div Z.modulo Z.pow Z.mul b64_char]. unfold sextet.
  apply (f_equal2 cons); [|apply (f_equal2 cons); [|done]];
    apply f_equal; Z.to_euclidean_division_equations; lia.
Qed.

Lemma b64_finish_2 val out a b : is_byte a -> is_byte b -> (length out mod 4 = 0)%nat ->
  b64_finish (foldl b64_step (val, -6, out) [a; b]) = out ++ rfc4648 [a; b].
Proof.
  unfold is_byte. intros Ha Hb Ho. cbn [foldl].
  destruct (b64_step_0 val out a) as [q ->].
  match goal with |- context [b64_step (?v, -4, ?o) b] => destruct (b64_step_1 v o b) as [q' ->] end.
  unfold b64_finish. change (-6 <? -2) with true. cbv iota.
  rewrite land_shiftr_mod, Z.shiftl_mul_pow2 by lia.
  match goal with |- context [s32 ?e] => destruct (s32_eq e) as [q'' ->] end.
  rewrite <- !app_assoc, (b64_pad_app _ _ 3) by (done || lia). f_equal.
  change (-2 + 8) with 6. cbn -[Z.div Z.modulo Z.pow Z.mul b64_char]. unfold sextet.
  apply (f_equal2 cons); [|apply (f_equal2 cons); [|apply (f_equal2 cons); [|done]]];
    apply f_equal; Z.to_euclidean_division_equations; lia.
Qed.

Lemma b64_finish_rfc input : bytes_ok input -> forall val out, (length out mod 4 = 0)%nat ->
  b64_finish (foldl b64_step (val, -6, out) input) = out ++ rfc4648 input.
Proof.
  induction input as [|a|a b|a b c l IH] using list_ind3; intros Hb val out Ho.
  - cbn [foldl rfc4648 b64_finish Z.ltb]. change (-6 <? -6) with false. cbv iota.
    rewrite <- (app_nil_r out) at 1. by rewrite (b64_pad_app _ _ 0) by (done || lia).
  - inversion Hb; subst. by apply b64_finish_1.
  - inversion Hb as [|??? Hb']; subst. inversion Hb'; subst. by apply b64_finish_2.
  - rewrite !Forall_cons in Hb. destruct Hb as (Ha & Hb & Hc & Hl).
    change (a :: b :: c :: l) with ([a; b; c] ++ l). rewrite foldl_app.
    destruct (b64_step_group val out a b c Ha Hb Hc) as [v ->].
    rewrite IH; [by rewrite <- app_assoc|done|].
    rewrite length_app, <- Nat.Div0.add_mod_idemp_l, Ho. done.
Qed.

(** ** Decoding *)

Lemma b64_value_char v : 0 <= v < 64 -> b64_value (b64_char v) = Some v.
Proof.
  intros Hv. pose proof (forall_below 64 (fun v => bool_decide (b64_value (b64_char v) = Some v))) as H.
  cbv beta in H. specialize (H eq_refl v Hv). by apply bool_decide_eq_true in H.
Qed.

Lemma b64_value_sextet n k : b64_value (sextet n k) = Some (n / 2 ^ (6 * k) mod 64).
Proof. apply b64_value_char. apply Z.mod_pos_bound. lia. Qed.

Lemma b64_decode_rfc input : bytes_ok input -> b64_decode (rfc4648 input) = Some input.
Proof.
  induction input as [|a|a b|a b c l IH] using list_ind3; intros Hb; [done| | |];
    repeat rewrite Forall_cons in Hb; unfold is_byte in Hb; destruct_and?;
    cbn [rfc4648 app b64_decode]; rewrite !b64_value_sextet; cbn [mbind option_bind].
  - change (b64_value "=") with (@None Z). cbv iota.
    match goal with |- context [?n mod 2 ^ 16 =? 0] => replace (n mod 2 ^ 16 =? 0) with true
      by (symmetry; apply Z.eqb_eq; Z.to_euclidean_division_equations; lia) end.
    cbn [andb bool_decide]. repeat f_equal. Z.to_euclidean_division_equations. lia.
  - change (b64_value "=") with (@None Z). cbv iota.
    match goal with |- context [?n mod 256 =? 0] => replace (n mod 256 =? 0) with true
      by (symmetry; apply Z.eqb_eq; Z.to_euclidean_division_equations; lia) end.
    rewrite !bool_decide_eq_true_2 by done. cbn [andb]. f_equal.
    apply (f_equal2 cons); [|apply (f_equal2 cons); [|done]];
      Z.to_euclidean_division_equations; lia.
  - rewrite IH by done. cbn [mbind option_bind app]. f_equal.
    apply (f_equal2 cons); [|apply (f_equal2 cons); [|apply (f_equal2 cons); [|done]]];
      Z.to_euclidean_division_equations; lia.
Qed.

(** For every byte sequence, of any length, [base64_encode] gives the RFC 4648 text with its
    padding, although its accumulator is a 32-bit [int] that wraps around; a strict decoder reads
    the bytes back from it. *)
Theorem base64_encode_correct (input : list Z) :
  bytes_ok input ->
  base64_encode input = String.string_of_list_ascii (rfc4648 input)
  /\ b64_decode (String.list_ascii_of_string (base64_encode input)) = Some input.
Proof.
  intros H. assert (E : base64_encode input = String.string_of_list_ascii (rfc4648 input)).
  { unfold base64_encode. by rewrite b64_finish_rfc. }
  split; [done|]. rewrite E, String.list_ascii_of_string_of_list_ascii. by apply b64_decode_rfc.
Qed.

Lemma base64_encode_correct_witness :
  base64_encode [102; 111; 111; 98; 97; 255; 254] = "Zm9vYmH//g=="%string
  /\ b64_decode (String.list_ascii_of_string (base64_encode [102; 111; 111; 98; 97; 255; 254]))
     = Some [102; 111; 111; 98; 97; 255; 254].
Proof.
  split; [by vm_compute|].
  apply (base64_encode_correct [102; 111; 111; 98; 97; 255; 254]).
  repeat constructor; vm_compute; intuition discriminate.
Defined.

(** The wiped string is empty, and no byte of the password is left in its buffer. *)
Lemma secure_clear_password_wipes p : (size p <= length (buffer p))%nat ->
  size (secure_clear_password p) = 0%nat
  /\ length (buffer (secure_clear_password p)) = length (buffer p)
  /\ forall i, (i < size p)%nat -> buffer (secure_clear_password p) !! i = Some 0.
Proof.
  intros Hs. unfold secure_clear_password. destruct (Nat.eqb_spec (size p) 0) as [E|E].
  - split; [done|]. split; [done|]. intros i Hi. lia.
  - cbn [size buffer]. split; [done|]. split.
    + rewrite length_app, length_replicate, length_drop. lia.
    + intros i Hi. rewrite lookup_app_l by (rewrite length_replicate; lia).
      by apply lookup_replicate_2.
Qed.
