(* ===== verification/Grisu.v ===== *)
(** * json.hpp, dtoa_impl: printing a double

    The Grisu2 algorithm the JSON writer prints floating-point numbers with, on the 64-bit integers it
    computes with, and its soundness: the decimal printed for a double lies strictly between the two
    neighbouring midpoints, so a correctly rounding reader gets the same double back. *)

From S2P Require Import Prelude.
From Stdlib Require Import Ascii SpecFloat.
From Stdlib Require String.

(** ** diyfp: f * 2^e with a 64-bit f *)

Record diyfp := mk_diyfp { df : Z; de : Z }.

Definition sub (x y : diyfp) : diyfp := mk_diyfp (u64 (df x - df y)) (de x).

Definition mul (x y : diyfp) : diyfp :=
  let u_lo := Z.land (df x) 0xFFFFFFFF in
  let u_hi := Z.shiftr (df x) 32 in
  let v_lo := Z.land (df y) 0xFFFFFFFF in
  let v_hi := Z.shiftr (df y) 32 in
  let p0 := u64 (u_lo * v_lo) in
  let p1 := u64 (u_lo * v_hi) in
  let p2 := u64 (u_hi * v_lo) in
  let p3 := u64 (u_hi * v_hi) in
  let p0_hi := Z.shiftr p0 32 in
  let p1_lo := Z.land p1 0xFFFFFFFF in
  let p1_hi := Z.shiftr p1 32 in
  let p2_lo := Z.land p2 0xFFFFFFFF in
  let p2_hi := Z.shiftr p2 32 in
  let Q := u64 (p0_hi + p1_lo + p2_lo) in
  let Q := u64 (Q + Z.shiftl 1 31) in
  mk_diyfp (u64 (p3 + p2_hi + p1_hi + Z.shiftr Q 32)) (de x + de y + 64).

(** The loop ends when the top bit is set; 64 rounds are enough for a number that is not zero. *)
Fixpoint normalize_loop (fuel : nat) (x : diyfp) : diyfp :=
  match fuel with
  | O => x
  | S fuel =>
      if Z.shiftr (df x) 63 =? 0 then normalize_loop fuel (mk_diyfp (u64 (Z.shiftl (df x) 1)) (de x - 1)) else x
  end.

Definition normalize (x : diyfp) : diyfp := normalize_loop 64 x.

Definition normalize_to (x : diyfp) (target_exponent : Z) : diyfp :=
  mk_diyfp (u64 (Z.shiftl (df x) (de x - target_exponent))) target_exponent.

(** ** Boundaries *)

Record boundaries := mk_boundaries { b_w : diyfp; b_minus : diyfp; b_plus : diyfp }.

(** The significand and exponent of a positive double, the hidden bit included: [F] and [E] are the
    fields of its representation. *)
Definition compute_boundaries (m e : Z) : boundaries :=
  let kBias := 1023 + 52 in
  let E := if m <? 2 ^ 52 then 0 else e + kBias in
  let F := m mod 2 ^ 52 in
  let is_denormal := E =? 0 in
  let v := if is_denormal then mk_diyfp F (1 - kBias) else mk_diyfp (F + 2 ^ 52) (E - kBias) in
  let lower_boundary_is_closer := (F =? 0) && (1 <? E) in
  let m_plus := mk_diyfp (u64 (2 * df v + 1)) (de v - 1) in
  let m_minus :=
    if lower_boundary_is_closer then mk_diyfp (u64 (4 * df v - 1)) (de v - 2)
    else mk_diyfp (u64 (2 * df v - 1)) (de v - 1) in
  let w_plus := normalize m_plus in
  let w_minus := normalize_to m_minus (de w_plus) in
  mk_boundaries (normalize v) w_minus w_plus.

(** ** Powers of ten *)

Definition kAlpha : Z := -60.
Definition kGamma : Z := -32.

(** Rows (f, e, k) with f * 2^e near 10^k. *)
Definition kCachedPowers : list (Z * Z * Z) :=
  [
(0xAB70FE17C79AC6CA, -1060, -300); (0xFF77B1FCBEBCDC4F, -1034, -292); (0xBE5691EF416BD60C, -1007, -284);
   (0x8DD01FAD907FFC3C, -980, -276); (0xD3515C2831559A83, -954, -268); (0x9D71AC8FADA6C9B5, -927, -260);
   (0xEA9C227723EE8BCB, -901, -252); (0xAECC49914078536D, -874, -244); (0x823C12795DB6CE57, -847, -236);
   (0xC21094364DFB5637, -821, -228); (0x9096EA6F3848984F, -794, -220); (0xD77485CB25823AC7, -768, -212);
   (0xA086CFCD97BF97F4, -741, -204); (0xEF340A98172AACE5, -715, -196); (0xB23867FB2A35B28E, -688, -188);
   (0x84C8D4DFD2C63F3B, -661, -180); (0xC5DD44271AD3CDBA, -635, -172); (0x936B9FCEBB25C996, -608, -164);
   (0xDBAC6C247D62A584, -582, -156); (0xA3AB66580D5FDAF6, -555, -148); (0xF3E2F893DEC3F126, -529, -140);
   (0xB5B5ADA8AAFF80B8, -502, -132); (0x87625F056C7C4A8B, -475, -124); (0xC9BCFF6034C13053, -449, -116);
   (0x964E858C91BA2655, -422, -108); (0xDFF9772470297EBD, -396, -100); (0xA6DFBD9FB8E5B88F, -369, -92);
   (0xF8A95FCF88747D94, -343, -84); (0xB94470938FA89BCF, -316, -76); (0x8A08F0F8BF0F156B, -289, -68);
   (0xCDB02555653131B6, -263, -60); (0x993FE2C6D07B7FAC, -236, -52); (0xE45C10C42A2B3B06, -210, -44);
   (0xAA242499697392D3, -183, -36); (0xFD87B5F28300CA0E, -157, -28); (0xBCE5086492111AEB, -130, -20);
   (0x8CBCCC096F5088CC, -103, -12); (0xD1B71758E219652C, -77, -4); (0x9C40000000000000, -50, 4);
   (0xE8D4A51000000000, -24, 12); (0xAD78EBC5AC620000, 3, 20); (0x813F3978F8940984, 30, 28);
   (0xC097CE7BC90715B3, 56, 36); (0x8F7E32CE7BEA5C70, 83, 44); (0xD5D238A4ABE98068, 109, 52);
   (0x9F4F2726179A2245, 136, 60); (0xED63A231D4C4FB27, 162, 68); (0xB0DE65388CC8ADA8, 189, 76);
   (0x83C7088E1AAB65DB, 216, 84); (0xC45D1DF942711D9A, 242, 92); (0x924D692CA61BE758, 269, 100);
   (0xDA01EE641A708DEA, 295, 108); (0xA26DA3999AEF774A, 322, 116); (0xF209787BB47D6B85, 348, 124);
   (0xB454E4A179DD1877, 375, 132); (0x865B86925B9BC5C2, 402, 140); (0xC83553C5C8965D3D, 428, 148);
   (0x952AB45CFA97A0B3, 455, 156); (0xDE469FBD99A05FE3, 481, 164); (0xA59BC234DB398C25, 508, 172);
   (0xF6C69A72A3989F5C, 534, 180); (0xB7DCBF5354E9BECE, 561, 188); (0x88FCF317F22241E2, 588, 196);
   (0xCC20CE9BD35C78A5, 614, 204); (0x98165AF37B2153DF, 641, 212); (0xE2A0B5DC971F303A, 667, 220);
   (0xA8D9D1535CE3B396, 694, 228); (0xFB9B7CD9A4A7443C, 720, 236); (0xBB764C4CA7A44410, 747, 244);
   (0x8BAB8EEFB6409C1A, 774, 252); (0xD01FEF10A657842C, 800, 260); (0x9B10A4E5E9913129, 827, 268);
   (0xE7109BFBA19C0C9D, 853, 276); (0xAC2820D9623BF429, 880, 284); (0x80444B5E7AA7CF85, 907, 292);
   (0xBF21E44003ACDD2D, 933, 300); (0x8E679C2F5E44FF8F, 960, 308); (0xD433179D9C8CB841, 986, 316);
   (0x9E19DB92B4E31BA9, 1013, 324)].

Definition cached_index (e : Z) : Z :=
  let f := kAlpha - e - 1 in
  let k := Z.quot (f * 78913) (2 ^ 18) + (if 0 <? f then 1 else 0) in
  Z.quot (300 + k + (8 - 1)) 8.

Definition get_cached_power_for_binary_exponent (e : Z) : Z * Z * Z :=
  default (0, 0, 0) (kCachedPowers !! Z.to_nat (cached_index e)).

(** The number of digits and the largest power of ten not above n. *)
Definition find_largest_pow10 (n : Z) : Z * Z :=
  if 1000000000 <=? n then (10, 1000000000)
  else if 100000000 <=? n then (9, 100000000)
  else if 10000000 <=? n then (8, 10000000)
  else if 1000000 <=? n then (7, 1000000)
  else if 100000 <=? n then (6, 100000)
  else if 10000 <=? n then (5, 10000)
  else if 1000 <=? n then (4, 1000)
  else if 100 <=? n then (3, 100)
  else if 10 <=? n then (2, 10)
  else (1, 1).

(** ** Digits *)

(** The buffer holds the digits, the last one first; [decr_last] is [buf[len - 1]--]. *)
Definition decr_last (buf : list Z) : list Z :=
  match buf with d :: ds => (d - 1) :: ds | [] => [] end.

(** [rest] grows by [ten_k] in each round and stays below [delta]: the last digit bounds the rounds. *)
Fixpoint grisu2_round (fuel : nat) (buf : list Z) (dist delta rest ten_k : Z) : list Z :=
  match fuel with
  | O => buf
  | S fuel =>
      if (rest <? dist) && (ten_k <=? u64 (delta - rest))
         && ((u64 (rest + ten_k) <? dist) || (u64 (u64 (rest + ten_k) - dist) <? u64 (dist - rest)))
      then grisu2_round fuel (decr_last buf) dist delta (u64 (rest + ten_k)) ten_k
      else buf
  end.

(** The digits of the integral part: [inl] when the number is done, with its digits and the
    decimal exponent; [inr] the digits so far. *)
Fixpoint integral_loop (n : nat) (sh p1 p2 pow10 delta dist : Z) (buf : list Z) : (list Z * Z) + list Z :=
  match n with
  | O => inr buf
  | S n =>
      let d := Z.quot p1 pow10 in
      let r := Z.rem p1 pow10 in
      let buf := d :: buf in
      let rest := u64 (u64 (Z.shiftl r sh) + p2) in
      if rest <=? delta then
        inl (grisu2_round 10 buf dist delta rest (u64 (Z.shiftl pow10 sh)), Z.of_nat n)
      else integral_loop n sh r p2 (Z.quot pow10 10) delta dist buf
  end.

(** The digits of the fractional part; [delta] grows tenfold, so that 20 rounds are enough. *)
Fixpoint fractional_loop (fuel : nat) (sh one p2 delta dist m : Z) (buf : list Z) : list Z * Z :=
  match fuel with
  | O => (buf, - m)
  | S fuel =>
      let p2 := u64 (p2 * 10) in
      let d := Z.shiftr p2 sh in
      let r := Z.land p2 (one - 1) in
      let buf := d :: buf in
      let delta := u64 (delta * 10) in
      let dist := u64 (dist * 10) in
      if r <=? delta then (grisu2_round 10 buf dist delta r one, - (m + 1))
      else fractional_loop fuel sh one r delta dist (m + 1) buf
  end.

(** The digits and the change of the decimal exponent. *)
Definition grisu2_digit_gen (M_minus w M_plus : diyfp) : list Z * Z :=
  let delta := df (sub M_plus M_minus) in
  let dist := df (sub M_plus w) in
  let sh := - de M_plus in
  let one := u64 (Z.shiftl 1 sh) in
  let p1 := u32 (Z.shiftr (df M_plus) sh) in
  let p2 := Z.land (df M_plus) (one - 1) in
  let '(k, pow10) := find_largest_pow10 p1 in
  match integral_loop (Z.to_nat k) sh p1 p2 pow10 delta dist [] with
  | inl r => r
  | inr buf => fractional_loop 20 sh one p2 delta dist 0 buf
  end.

Definition grisu2 (m_minus v m_plus : diyfp) : list Z * Z :=
  let '(cf, ce, ck) := get_cached_power_for_binary_exponent (de m_plus) in
  let c_minus_k := mk_diyfp cf ce in
  let w := mul v c_minus_k in
  let w_minus := mul m_minus c_minus_k in
  let w_plus := mul m_plus c_minus_k in
  let M_minus := mk_diyfp (u64 (df w_minus + 1)) (de w_minus) in
  let M_plus := mk_diyfp (u64 (df w_plus - 1)) (de w_plus) in
  let '(buf, n) := grisu2_digit_gen M_minus w M_plus in
  (rev buf, - ck + n).

(** The digits of a positive double, first to last, and the decimal exponent. *)
Definition grisu2_double (m e : Z) : list Z * Z :=
  let b := compute_boundaries m e in grisu2 (b_minus b) (b_w b) (b_plus b).

(** ** 64-bit arithmetic *)

Lemma land_mask x n : 0 <= n -> Z.land x (2 ^ n - 1) = x mod 2 ^ n.
Proof. intros Hn. replace (2 ^ n - 1) with (Z.ones n) by (rewrite Z.ones_equiv; lia). by apply Z.land_ones. Qed.

Lemma land_lo32 x : Z.land x 0xFFFFFFFF = x mod 2 ^ 32.
Proof. apply (land_mask x 32). lia. Qed.

Lemma shiftr_div x n : 0 <= n -> Z.shiftr x n = x / 2 ^ n.
Proof. apply Z.shiftr_div_pow2. Qed.

Lemma prod_range a b n m : 0 <= a < n -> 0 <= b < m -> 0 <= a * b <= (n - 1) * (m - 1).
Proof. nia. Qed.

(** The high word of a product, rounded. *)
Lemma mul_spec x y : 0 <= df x < 2 ^ 64 -> 0 <= df y < 2 ^ 64 ->
  df (mul x y) = (df x * df y + 2 ^ 63) / 2 ^ 64.
Proof.
  intros Hx Hy. unfold mul. cbn [df]. rewrite !land_lo32, !shiftr_div by lia. change (Z.shiftl 1 31) with (2 ^ 31).
  pose proof (Z.div_mod (df x) (2 ^ 32) ltac:(lia)) as Ex. pose proof (Z.div_mod (df y) (2 ^ 32) ltac:(lia)) as Ey.
  pose proof (Z.mod_pos_bound (df x) (2 ^ 32) ltac:(lia)) as Ra. pose proof (Z.mod_pos_bound (df y) (2 ^ 32) ltac:(lia)) as Rc.
  assert (Rb : 0 <= df x / 2 ^ 32 < 2 ^ 32) by (split; [apply Z.div_pos; lia|apply Z.div_lt_upper_bound; lia]).
  assert (Rd : 0 <= df y / 2 ^ 32 < 2 ^ 32) by (split; [apply Z.div_pos; lia|apply Z.div_lt_upper_bound; lia]).
  set (a := df x mod 2 ^ 32) in *. set (b := df x / 2 ^ 32) in *. set (c := df y mod 2 ^ 32) in *. set (d := df y / 2 ^ 32) in *.
  pose proof (prod_range a c _ _ Ra Rc) as P0. pose proof (prod_range a d _ _ Ra Rd) as P1.
  pose proof (prod_range b c _ _ Rb Rc) as P2. pose proof (prod_range b d _ _ Rb Rd) as P3.
  pose proof (prod_range (df x) (df y) _ _ Hx Hy) as Htot. rewrite Ex, Ey in Htot. rewrite Ex, Ey. clearbody a b c d. clear Ex Ey Hx Hy.
  rewrite (u64_id (a * c)), (u64_id (a * d)), (u64_id (b * c)), (u64_id (b * d)) by lia.
  replace ((2 ^ 32 * b + a) * (2 ^ 32 * d + c)) with (a * c + 2 ^ 32 * (a * d) + 2 ^ 32 * (b * c) + 2 ^ 64 * (b * d)) in * by ring.
  revert P0 P1 P2 P3 Htot. generalize (a * c) (a * d) (b * c) (b * d). clear. intros p0 p1 p2 p3 P0 P1 P2 P3 Htot.
  pose proof (Z.div_mod p0 (2 ^ 32) ltac:(lia)). pose proof (Z.div_mod p1 (2 ^ 32) ltac:(lia)). pose proof (Z.div_mod p2 (2 ^ 32) ltac:(lia)).
  pose proof (Z.mod_pos_bound p0 (2 ^ 32) ltac:(lia)). pose proof (Z.mod_pos_bound p1 (2 ^ 32) ltac:(lia)). pose proof (Z.mod_pos_bound p2 (2 ^ 32) ltac:(lia)).
  set (h0 := p0 / 2 ^ 32) in *. set (l0 := p0 mod 2 ^ 32) in *. set (h1 := p1 / 2 ^ 32) in *. set (l1 := p1 mod 2 ^ 32) in *.
  set (h2 := p2 / 2 ^ 32) in *. set (l2 := p2 mod 2 ^ 32) in *. clearbody h0 l0 h1 l1 h2 l2. subst p0 p1 p2.
  rewrite (u64_id (h0 + l1 + l2)) by lia. rewrite (u64_id (h0 + l1 + l2 + 2 ^ 31)) by lia.
  set (Q := h0 + l1 + l2 + 2 ^ 31) in *.
  assert (HQ : Q / 2 ^ 32 <= 3) by (apply Z.lt_succ_r, Z.div_lt_upper_bound; lia).
  assert (0 <= Q / 2 ^ 32) by (apply Z.div_pos; lia).
  replace (2 ^ 32 * h0 + l0 + 2 ^ 32 * (2 ^ 32 * h1 + l1) + 2 ^ 32 * (2 ^ 32 * h2 + l2) + 2 ^ 64 * p3 + 2 ^ 63)
    with ((p3 + h2 + h1) * 2 ^ 64 + (Q * 2 ^ 32 + l0)) by (unfold Q; ring).
  pose proof (Z.div_mod Q (2 ^ 32) ltac:(lia)). pose proof (Z.mod_pos_bound Q (2 ^ 32) ltac:(lia)).
  rewrite u64_id by (unfold Q in *; lia).
  rewrite Z.div_add_l by lia. f_equal. change (2 ^ 64) with (2 ^ 32 * 2 ^ 32). rewrite <- Z.div_div by lia.
  f_equal. rewrite Z.div_add_l by lia. rewrite Z.div_small by lia. lia.
Qed.

Lemma normalize_loop_spec fuel : forall x, 0 < df x < 2 ^ 64 -> 2 ^ 63 <= df x * 2 ^ Z.of_nat fuel -> exists s,
  0 <= s /\ normalize_loop fuel x = mk_diyfp (df x * 2 ^ s) (de x - s) /\ 2 ^ 63 <= df x * 2 ^ s < 2 ^ 64.
Proof.
  induction fuel as [|fuel IH]; intros x Hx Hf; cbn [normalize_loop].
  { exists 0. destruct x as [f e]. cbn in *. rewrite Z.mul_1_r, Z.sub_0_r. split_and!; (done || lia). }
  rewrite shiftr_div by lia. destruct (Z.eqb_spec (df x / 2 ^ 63) 0) as [E|E].
  - assert (df x < 2 ^ 63) by (apply Z.div_small_iff in E; lia).
    rewrite Z.shiftl_mul_pow2, u64_id by lia. change (2 ^ 1) with 2.
    destruct (IH (mk_diyfp (df x * 2) (de x - 1))) as (s & Hs & -> & Hr); cbn [df de] in *; [lia| |].
    + rewrite Nat2Z.inj_succ, Z.pow_succ_r in Hf by lia. lia.
    + exists (s + 1). rewrite Z.pow_add_r by lia. change (2 ^ 1) with 2. split; [lia|]. split; [f_equal; lia|lia].
  - exists 0. rewrite Z.mul_1_r, Z.sub_0_r. split; [lia|]. split; [by destruct x|]. split; [|lia].
    destruct (Z.lt_ge_cases (df x) (2 ^ 63)); [|done]. by rewrite Z.div_small in E by lia.
Qed.

Lemma norm_unique f a b : 0 < f -> 0 <= a -> 0 <= b ->
  2 ^ 63 <= f * 2 ^ a < 2 ^ 64 -> 2 ^ 63 <= f * 2 ^ b < 2 ^ 64 -> a = b.
Proof.
  intros Hf Ha Hb H1 H2.
  assert (L : forall c, 0 <= c -> 2 ^ 63 <= f * 2 ^ c < 2 ^ 64 -> Z.log2 f + c = 63).
  { intros c Hc H. rewrite Z.add_comm, <- Z.log2_mul_pow2 by lia. by apply Z.log2_unique. }
  pose proof (L a Ha H1). pose proof (L b Hb H2). lia.
Qed.

Lemma normalize_spec f e s : 0 < f -> 0 <= s -> 2 ^ 63 <= f * 2 ^ s < 2 ^ 64 ->
  normalize (mk_diyfp f e) = mk_diyfp (f * 2 ^ s) (e - s).
Proof.
  intros Hf Hs Hr.
  assert (Hf64 : f < 2 ^ 64) by (pose proof (Z.pow_pos_nonneg 2 s); nia).
  destruct (normalize_loop_spec 64 (mk_diyfp f e)) as (s' & Hs' & E & Hr'); cbn [df de] in *; [lia|lia|].
  unfold normalize. rewrite E. by rewrite (norm_unique f s' s).
Qed.

(** A positive double: a significand of 53 bits, fewer only at the least exponent. *)
Definition canonical (m e : Z) : Prop := 0 < m < 2 ^ 53 /\ (2 ^ 52 <= m \/ e = -1074) /\ -1074 <= e <= 971.

Definition closer (m e : Z) : bool := (m =? 2 ^ 52) && (-1074 <? e).

(** The shift that normalizes a significand. *)
Definition norm_shift (m : Z) : Z := 63 - Z.log2 m.

Lemma norm_shift_spec m : 0 < m < 2 ^ 53 -> 11 <= norm_shift m <= 63 /\ 2 ^ 63 <= m * 2 ^ norm_shift m
  /\ m * 2 ^ norm_shift m + 2 ^ norm_shift m <= 2 ^ 64.
Proof.
  intros Hm. unfold norm_shift. pose proof (Z.log2_spec m ltac:(lia)) as [L1 L2]. pose proof (Z.log2_nonneg m).
  assert (Z.log2 m < 53) by (apply Z.log2_lt_pow2; lia). set (l := Z.log2 m) in *. split; [lia|].
  rewrite Z.pow_succ_r in L2 by lia.
  assert (E : 2 ^ 63 = 2 ^ l * 2 ^ (63 - l)) by (rewrite <- Z.pow_add_r by lia; f_equal; lia).
  change (2 ^ 64) with (2 * 2 ^ 63). rewrite E. pose proof (Z.pow_pos_nonneg 2 (63 - l)). nia.
Qed.

Lemma boundaries_spec m e : canonical m e -> let s := norm_shift m in
  compute_boundaries m e = mk_boundaries (mk_diyfp (m * 2 ^ s) (e - s))
    (mk_diyfp (if closer m e then (4 * m - 1) * 2 ^ (s - 2) else (2 * m - 1) * 2 ^ (s - 1)) (e - s))
    (mk_diyfp ((2 * m + 1) * 2 ^ (s - 1)) (e - s)).
Proof.
  intros (Hm & Hn & He) s. destruct (norm_shift_spec m Hm) as (Hs & H1 & H2). fold s in Hs, H1, H2.
  unfold compute_boundaries. change (1023 + 52) with 1075.
  assert (Hv : forall E F, (if m <? 2 ^ 52 then 0 else e + 1075) = E -> m mod 2 ^ 52 = F ->
    (if E =? 0 then mk_diyfp F (1 - 1075) else mk_diyfp (F + 2 ^ 52) (E - 1075)) = mk_diyfp m e
    /\ (F =? 0) && (1 <? E) = closer m e).
  { intros E F <- <-. unfold closer. destruct (Z.ltb_spec m (2 ^ 52)).
    - rewrite Z.mod_small by lia. cbn. assert (e = -1074) as -> by lia. split; [done|].
      rewrite andb_false_r. destruct (Z.eqb_spec m (2 ^ 52)); [lia|done].
    - assert (m mod 2 ^ 52 = m - 2 ^ 52) as ->.
      { rewrite <- (Z.mod_add m (-1)) by lia. apply Z.mod_small. lia. }
      destruct (Z.eqb_spec (e + 1075) 0); [lia|]. split; [f_equal; lia|].
      f_equal; [destruct (Z.eqb_spec (m - 2 ^ 52) 0), (Z.eqb_spec m (2 ^ 52))
               |destruct (Z.ltb_spec 1 (e + 1075)), (Z.ltb_spec (-1074) e)]; (done || lia). }
  cbv zeta. destruct (Hv _ _ eq_refl eq_refl) as [-> ->]. cbn [df de].
  rewrite (u64_id (2 * m + 1)), (u64_id (4 * m - 1)), (u64_id (2 * m - 1)) by lia.
  assert (Hp : 2 ^ s = 2 * 2 ^ (s - 1)) by (rewrite <- Z.pow_succ_r by lia; f_equal; lia).
  assert (Hp2 : 2 ^ (s - 1) = 2 * 2 ^ (s - 2)) by (rewrite <- Z.pow_succ_r by lia; f_equal; lia).
  pose proof (Z.pow_pos_nonneg 2 (s - 2) ltac:(lia) ltac:(lia)).
  rewrite (normalize_spec m e s) by lia. rewrite (normalize_spec (2 * m + 1) (e - 1) (s - 1)) by lia. cbn [de].
  replace (e - 1 - (s - 1)) with (e - s) by lia. unfold normalize_to.
  f_equal. destruct (closer m e); cbn [df de]; f_equal.
  - replace (e - 2 - (e - s)) with (s - 2) by lia. rewrite Z.shiftl_mul_pow2, u64_id by lia. done.
  - replace (e - 1 - (e - s)) with (s - 1) by lia. rewrite Z.shiftl_mul_pow2, u64_id by lia. done.
Qed.

(** ** The table *)

Definition num10 (k e : Z) : Z := 10 ^ Z.max k 0 * 2 ^ Z.max (- e) 0.
Definition den10 (k e : Z) : Z := 10 ^ Z.max (- k) 0 * 2 ^ Z.max e 0.

(** [f * 2^e] is normalized and within half a unit of [10^k], which is [num10 / den10 * 2^e]. *)
Definition row_ok (row : Z * Z * Z) : bool :=
  let '(f, e, k) := row in
  (2 ^ 63 <=? f) && (f <? 2 ^ 64) && (Z.abs (2 * (f * den10 k e) - 2 * num10 k e) <=? den10 k e).

Definition exponent_ok (e : Z) : bool :=
  let '(_, ce, _) := get_cached_power_for_binary_exponent e in
  (0 <=? cached_index e) && (cached_index e <? 79) && (kAlpha <=? ce + e + 64) && (ce + e + 64 <=? kGamma).

Lemma table_ok : forallb row_ok kCachedPowers = true.
Proof. by vm_compute. Qed.

Lemma cached_power_spec e : -1137 <= e <= 960 -> exists f ce k,
  get_cached_power_for_binary_exponent e = (f, ce, k) /\ 2 ^ 63 <= f < 2 ^ 64 /\ -60 <= ce + e + 64 <= -32
  /\ - den10 k ce <= 2 * (f * den10 k ce) - 2 * num10 k ce <= den10 k ce.
Proof.
  intros He. assert (H : exponent_ok e = true).
  { replace e with (e + 1137 - 1137) by lia. apply (forall_below 2098 (fun z => exponent_ok (z - 1137))); [by vm_compute|lia]. }
  unfold exponent_ok in H. destruct (get_cached_power_for_binary_exponent e) as [[f ce] k] eqn:E. breflect.
  exists f, ce, k. split; [done|]. unfold kAlpha, kGamma in *.
  unfold get_cached_power_for_binary_exponent in E. destruct (kCachedPowers !! Z.to_nat (cached_index e)) as [row|] eqn:L.
  2: { apply lookup_ge_None in L. change (length kCachedPowers) with 79%nat in L. lia. }
  cbn in E. subst row. pose proof table_ok as T. rewrite forallb_forall in T.
  specialize (T _ (proj1 (list_elem_of_In _ _) (list_elem_of_lookup_2 _ _ _ L))). unfold row_ok in T. breflect. lia.
Qed.

(** A product with a row of the table, against the exact product with the power of ten. *)
Lemma scaled_bounds x f num den : 0 < x < 2 ^ 64 -> 2 ^ 63 <= f < 2 ^ 64 -> 0 < den ->
  - den <= 2 * (f * den) - 2 * num <= den ->
  let W := (x * f + 2 ^ 63) / 2 ^ 64 in
  (W - 1) * (2 ^ 64 * den) < x * num < (W + 1) * (2 ^ 64 * den) /\ 0 <= W < 2 ^ 64.
Proof.
  intros Hx Hf Hd Ht W. pose proof (Z.div_mod (x * f + 2 ^ 63) (2 ^ 64) ltac:(lia)) as E.
  pose proof (Z.mod_pos_bound (x * f + 2 ^ 63) (2 ^ 64) ltac:(lia)). fold W in E.
  set (r := (x * f + 2 ^ 63) mod 2 ^ 64) in *. clearbody r W.
  assert (E' : x * f = W * 2 ^ 64 + r - 2 ^ 63) by lia.
  assert (Hn : 2 * (x * (f * den)) - x * den <= 2 * (x * num) <= 2 * (x * (f * den)) + x * den) by nia.
  replace (x * (f * den)) with ((x * f) * den) in Hn by ring. rewrite E' in Hn.
  assert (x * den < 2 ^ 64 * den) by nia. assert (0 <= r * den < 2 ^ 64 * den) by nia.
  split; [split; lia|]. assert (x * f <= (2 ^ 64 - 1) * (2 ^ 64 - 1)) by nia. assert (0 < x * f) by nia. split; lia.
Qed.

(** ** Digits *)

(** The number of a buffer. *)
Fixpoint digits_value (buf : list Z) : Z :=
  match buf with [] => 0 | d :: ds => d + 10 * digits_value ds end.

Definition digits_ok (buf : list Z) : Prop := Forall (fun d => 0 <= d <= 9) buf /\ exists d, last buf = Some d /\ 0 < d.

Lemma digits_ok_cons d buf : digits_ok buf -> 0 <= d <= 9 -> digits_ok (d :: buf).
Proof.
  intros [Hf (l & Hl & Hp)] Hd. split; [by constructor|]. exists l. split; [|done]. by rewrite last_cons, Hl.
Qed.

Lemma digits_ok_head d d' buf : digits_ok (d :: buf) -> 0 < d' <= 9 -> digits_ok (d' :: buf).
Proof.
  intros [Hf (l & Hl & Hp)] Hd. apply Forall_cons in Hf as [_ Hf]. split; [constructor; [lia|done]|].
  rewrite last_cons in *. destruct (last buf) as [l'|]; [by exists l|]. exists d'. split; [done|lia].
Qed.

(** The last digit goes down by less than itself, while the distance stays within [delta]. *)
Lemma round_spec fuel : forall d buf dist delta rest ten,
  0 <= rest <= delta -> 0 <= dist <= delta -> delta < 2 ^ 64 -> 0 < ten -> delta < rest + d * ten ->
  exists j, 0 <= j < d /\ grisu2_round fuel (d :: buf) dist delta rest ten = (d - j) :: buf /\ rest + j * ten <= delta.
Proof.
  induction fuel as [|fuel IH]; intros d buf dist delta rest ten Hr Hd H64 Ht Hgt; cbn [grisu2_round].
  { exists 0. rewrite Z.sub_0_r. split; [nia|]. split; [done|lia]. }
  destruct (_ && _) eqn:C.
  - breflect. rewrite (u64_id (delta - rest)) in * by lia. cbn [decr_last].
    rewrite (u64_id (rest + ten)) by lia.
    destruct (IH (d - 1) buf dist delta (rest + ten) ten) as (j & Hj & -> & Hle); [lia|lia|lia|lia|lia|].
    exists (j + 1). split; [lia|]. split; [f_equal; lia|lia].
  - exists 0. rewrite Z.sub_0_r. split; [nia|]. split; [done|lia].
Qed.

(** What a finished buffer means for M+ = f and M- = f - delta in units of 2^-sh. *)
Definition within (f delta sh : Z) (buf : list Z) (n : Z) : Prop :=
  (f - delta) * 10 ^ Z.max (- n) 0 <= digits_value buf * 10 ^ Z.max n 0 * 2 ^ sh <= f * 10 ^ Z.max (- n) 0.

Lemma integral_spec f delta sh dist p2 n : forall p1 pow10 buf, 32 <= sh <= 60 -> 0 < f < 2 ^ 64 -> 0 <= dist <= delta -> delta < f ->
  0 <= p2 < 2 ^ sh -> 0 <= p1 < 10 ^ Z.of_nat n -> ((0 < n)%nat -> pow10 = 10 ^ (Z.of_nat n - 1)) ->
  f = digits_value buf * 10 ^ Z.of_nat n * 2 ^ sh + p1 * 2 ^ sh + p2 ->
  delta < p1 * 2 ^ sh + p2 ->
  (digits_ok buf \/ (buf = [] /\ 10 ^ (Z.of_nat n - 1) <= p1 /\ (0 < n)%nat)) ->
  match integral_loop n sh p1 p2 pow10 delta dist buf with
  | inl (buf', k) => digits_ok buf' /\ within f delta sh buf' k
  | inr buf' => digits_ok buf' /\ f = digits_value buf' * 2 ^ sh + p2 /\ delta < p2
  end.
Proof.
  induction n as [|n IH]; intros p1 pow10 buf Hsh Hf Hdist Hdf Hp2 Hp1 Hpow Hval Hgt Hbuf; cbn [integral_loop].
  { change (10 ^ Z.of_nat 0) with 1 in *. assert (p1 = 0) as -> by lia. destruct Hbuf as [Hb|(_ & _ & ?)]; [|lia].
    split; [done|]. split; lia. }
  rewrite Hpow by lia. replace (Z.of_nat (S n) - 1) with (Z.of_nat n) in * by lia.
  rewrite Nat2Z.inj_succ, Z.pow_succ_r in Hp1, Hval by lia.
  assert (HT : 0 < 10 ^ Z.of_nat n) by (apply Z.pow_pos_nonneg; lia). set (T := 10 ^ Z.of_nat n) in *.
  rewrite Z.quot_div_nonneg, Z.rem_mod_nonneg by lia.
  pose proof (Z.div_mod p1 T ltac:(lia)) as Ediv. pose proof (Z.mod_pos_bound p1 T HT) as Hr.
  assert (Hd : 0 <= p1 / T <= 9) by (split; [apply Z.div_pos; lia|apply Z.lt_succ_r, Z.div_lt_upper_bound; lia]).
  set (d := p1 / T) in *. set (r := p1 mod T) in *. pose proof (Z.pow_pos_nonneg 2 sh ltac:(lia) ltac:(lia)) as Hone.
  set (one := 2 ^ sh) in *.
  assert (Hval' : f = (d + 10 * digits_value buf) * T * one + r * one + p2) by (rewrite Hval, Ediv; ring).
  assert (Hvn : 0 <= digits_value buf).
  { destruct Hbuf as [[Hb _]|(-> & _)]; [|done]. clear -Hb. induction Hb; cbn; lia. }
  assert (Hpos : 0 <= (d + 10 * digits_value buf) * T * one) by (apply Z.mul_nonneg_nonneg; [apply Z.mul_nonneg_nonneg|]; lia).
  assert (Hok : digits_ok (d :: buf)).
  { destruct Hbuf as [Hb|(-> & Hge & _)]; [by apply digits_ok_cons|]. split; [by constructor|]. exists d. split; [done|].
    unfold d. apply Z.div_str_pos. lia. }
  assert (Hsmall : 0 <= r * one + p2 < 2 ^ 64) by (split; [|lia]; apply Z.add_nonneg_nonneg; [apply Z.mul_nonneg_nonneg|]; lia).
  rewrite (Z.shiftl_mul_pow2 r) by lia. fold one. rewrite (u64_id (r * one)), u64_id by lia.
  destruct (Z.leb_spec (r * one + p2) delta) as [Hle|Hlt].
  - assert (HTone : 0 < T * one) by (apply Z.mul_pos_pos; lia).
    assert (HT64 : T * one < 2 ^ 64).
    { destruct (Z.lt_ge_cases 0 (d + 10 * digits_value buf)) as [Hp|Hp]; [nia|]. assert (d = 0) as Hd0 by lia.
      rewrite Hd0, Z.mul_0_r, Z.add_0_l in Ediv. rewrite Ediv in Hgt. lia. }
    rewrite (Z.shiftl_mul_pow2 T), u64_id by lia. fold one.
    destruct (round_spec 10 d buf dist delta (r * one + p2) (T * one)) as (j & Hj & -> & Hjle); [lia|lia|lia|lia| |].
    { replace (r * one + p2 + d * (T * one)) with (p1 * one + p2) by (rewrite Ediv; ring). lia. }
    split; [apply (digits_ok_head d); [done|lia]|]. unfold within. cbn [digits_value].
    rewrite Z.max_r, Z.max_l, Z.mul_1_r by lia. fold T one.
    assert (E : (d - j + 10 * digits_value buf) * T * one = f - (r * one + p2) - j * (T * one)) by (rewrite Hval'; ring).
    rewrite E. split; [lia|]. assert (0 <= j * (T * one)) by (apply Z.mul_nonneg_nonneg; lia). lia.
  - apply IH; try done; [|by left].
    intros Hn. unfold T. destruct n as [|n]; [lia|]. rewrite Nat2Z.inj_succ, Z.pow_succ_r by lia.
    rewrite Z.mul_comm, Z.quot_mul by lia. f_equal. lia.
Qed.

Lemma fractional_spec f delta0 dist0 sh fuel : forall p2 delta dist m buf, 32 <= sh <= 60 -> 0 < delta0 -> 0 <= dist0 <= delta0 ->
  0 <= m -> 20 <= Z.of_nat fuel + m ->
  0 <= p2 < 2 ^ sh -> delta = delta0 * 10 ^ m -> dist = dist0 * 10 ^ m -> delta < p2 ->
  f * 10 ^ m = digits_value buf * 2 ^ sh + p2 -> digits_ok buf ->
  let '(buf', n) := fractional_loop fuel sh (2 ^ sh) p2 delta dist m buf in digits_ok buf' /\ within f delta0 sh buf' n.
Proof.
  induction fuel as [|fuel IH]; intros p2 delta dist m buf Hsh Hd0 Hdist0 Hm Hfuel Hp2 Edelta Edist Hlt Hval Hok; cbn [fractional_loop].
  { exfalso. assert (10 ^ 20 <= 10 ^ m) by (apply Z.pow_le_mono_r; lia).
    assert (2 ^ sh <= 2 ^ 60) by (apply Z.pow_le_mono_r; lia). nia. }
  assert (H60 : 2 ^ sh <= 2 ^ 60) by (apply Z.pow_le_mono_r; lia).
  pose proof (Z.pow_pos_nonneg 2 sh ltac:(lia) ltac:(lia)) as Hone. pose proof (Z.pow_pos_nonneg 10 m ltac:(lia) ltac:(lia)) as H10.
  assert (Hdd : 0 <= dist <= delta) by (subst; split; [apply Z.mul_nonneg_nonneg; lia|apply Z.mul_le_mono_nonneg_r; lia]).
  rewrite (u64_id (p2 * 10)), (u64_id (delta * 10)), (u64_id (dist * 10)) by lia.
  rewrite land_mask, shiftr_div by lia.
  pose proof (Z.div_mod (p2 * 10) (2 ^ sh) ltac:(lia)) as Ediv. pose proof (Z.mod_pos_bound (p2 * 10) (2 ^ sh) Hone) as Hr.
  assert (Hd : 0 <= p2 * 10 / 2 ^ sh <= 9) by (split; [apply Z.div_pos; lia|apply Z.lt_succ_r, Z.div_lt_upper_bound; lia]).
  set (one := 2 ^ sh) in *. set (d := p2 * 10 / one) in *. set (r := (p2 * 10) mod one) in *.
  assert (E10 : 10 ^ (m + 1) = 10 * 10 ^ m) by (rewrite Z.pow_add_r by lia; lia).
  assert (Hval' : f * 10 ^ (m + 1) = (d + 10 * digits_value buf) * one + r) by (rewrite E10; lia).
  destruct (Z.leb_spec r (delta * 10)) as [Hle|Hgt].
  - destruct (round_spec 10 d buf (dist * 10) (delta * 10) r one) as (j & Hj & -> & Hjle); [lia|lia|lia|lia|lia|].
    split; [apply (digits_ok_head d); [by apply digits_ok_cons|lia]|]. unfold within. cbn [digits_value].
    rewrite Z.max_l, Z.max_r by lia. rewrite Z.opp_involutive, Z.mul_1_r. fold one. rewrite Z.mul_sub_distr_r, Hval'.
    assert (E : (d - j + 10 * digits_value buf) * one = (d + 10 * digits_value buf) * one - j * one) by ring. rewrite E.
    assert (0 <= j * one) by (apply Z.mul_nonneg_nonneg; lia). rewrite E10.
    replace (delta0 * (10 * 10 ^ m)) with (delta * 10) by (subst; ring). lia.
  - apply IH; try done; [lia|lia|subst; rewrite E10; ring|subst; rewrite E10; ring|by apply digits_ok_cons].
Qed.

Lemma find_largest_pow10_spec n : 0 < n < 2 ^ 32 -> let '(k, p) := find_largest_pow10 n in
  0 < k <= 10 /\ p = 10 ^ (k - 1) /\ 10 ^ (k - 1) <= n < 10 ^ k.
Proof.
  intros Hn. unfold find_largest_pow10.
  repeat match goal with |- context [if ?c then _ else _] => destruct c eqn:? end; breflect; cbn; lia.
Qed.

Lemma digit_gen_spec M_minus w M_plus : - 60 <= de M_plus <= -32 -> 2 ^ 62 <= df M_plus < 2 ^ 64 ->
  0 < df M_minus < df M_plus -> df M_minus <= df w <= df M_plus ->
  let '(buf, n) := grisu2_digit_gen M_minus w M_plus in
  digits_ok buf /\ within (df M_plus) (df M_plus - df M_minus) (- de M_plus) buf n.
Proof.
  intros He Hp Hm Hw. unfold grisu2_digit_gen, sub. cbn [df]. set (f := df M_plus) in *. set (sh := - de M_plus) in *.
  rewrite (u64_id (f - df M_minus)), (u64_id (f - df w)) by lia.
  assert (H60 : 2 ^ sh <= 2 ^ 60) by (apply Z.pow_le_mono_r; lia). assert (H32 : 2 ^ 32 <= 2 ^ sh) by (apply Z.pow_le_mono_r; lia).
  rewrite (Z.shiftl_mul_pow2 1), Z.mul_1_l by lia. rewrite (u64_id (2 ^ sh)) by lia. rewrite land_mask, shiftr_div by lia.
  pose proof (Z.div_mod f (2 ^ sh) ltac:(lia)) as Ediv. pose proof (Z.mod_pos_bound f (2 ^ sh) ltac:(lia)) as Hr.
  assert (Hq : 0 < f / 2 ^ sh < 2 ^ 32) by (split; [apply Z.div_str_pos; lia|apply Z.div_lt_upper_bound; nia]).
  assert (u32 (f / 2 ^ sh) = f / 2 ^ sh) as -> by (apply Z.mod_small; lia).
  pose proof (find_largest_pow10_spec (f / 2 ^ sh) Hq) as Hk. destruct (find_largest_pow10 (f / 2 ^ sh)) as [k pow10].
  destruct Hk as (Hk & Epow & Hrange).
  pose proof (integral_spec f (f - df M_minus) sh (f - df w) (f mod 2 ^ sh) (Z.to_nat k) (f / 2 ^ sh) pow10 []) as HI.
  rewrite !Z2Nat.id in HI by lia.
  specialize (HI ltac:(lia) ltac:(lia) ltac:(lia) ltac:(lia) ltac:(lia) ltac:(lia) ltac:(by intros)).
  specialize (HI ltac:(cbn; lia) ltac:(lia) ltac:(right; split; [done|lia])).
  destruct (integral_loop _ _ _ _ _ _ _ _) as [[buf n]|buf]; [done|]. destruct HI as (Hok & Hval & Hlt).
  apply (fractional_spec _ _ (f - df w)); try done; lia.
Qed.

(** ** Soundness *)

(** The number of digits written first to last. *)
Definition decimal_value (ds : list Z) : Z := foldl (fun n d => 10 * n + d) 0 ds.

Lemma decimal_value_rev buf : decimal_value (rev buf) = digits_value buf.
Proof.
  unfold decimal_value. induction buf as [|d buf IH]; [done|]. cbn [rev digits_value]. rewrite foldl_app, IH. cbn. lia.
Qed.

(** [lo * 2^q < n * 10^x < hi * 2^q] *)
Definition strictly_between (lo hi q n x : Z) : Prop :=
  lo * 2 ^ Z.max q 0 * 10 ^ Z.max (- x) 0 < n * 10 ^ Z.max x 0 * 2 ^ Z.max (- q) 0
  < hi * 2 ^ Z.max q 0 * 10 ^ Z.max (- x) 0.

Lemma transfer D P t1 t2 b d X X' u u' : 0 < t2 -> 0 < d -> 0 < X' -> 0 < u -> t1 * X' = t2 * X -> b * u = d * u' ->
  (D * t1 * b < P * t2 * d -> D * X * u' < P * u * X') /\ (P * t2 * d < D * t1 * b -> P * u * X' < D * X * u').
Proof.
  intros H2 Hd HX Hu E1 E2. assert (Hp : 0 < X' * u) by lia. assert (Hq : 0 < t2 * d) by lia.
  assert (EL : D * t1 * b * (X' * u) = D * X * u' * (t2 * d)).
  { transitivity (D * (t1 * X') * (b * u)); [ring|]. rewrite E1, E2. ring. }
  assert (ER : P * t2 * d * (X' * u) = P * u * X' * (t2 * d)) by ring.
  split; intros Hlt; apply (Z.mul_lt_mono_pos_r (X' * u)) in Hlt; try done; rewrite EL, ER in Hlt;
    by apply (Z.mul_lt_mono_pos_r (t2 * d)) in Hlt.
Qed.

Lemma pow_max_pos b z : 0 < b -> 0 < b ^ Z.max z 0.
Proof. intros Hb. apply Z.pow_pos_nonneg; lia. Qed.

Lemma balance10 k n : 10 ^ Z.max n 0 * 10 ^ Z.max (- k) 0 * 10 ^ Z.max (- (- k + n)) 0
  = 10 ^ Z.max (- n) 0 * 10 ^ Z.max k 0 * 10 ^ Z.max (- k + n) 0.
Proof. rewrite <- !Z.pow_add_r by lia. f_equal. lia. Qed.

Lemma balance2 sh ce s e : 0 <= sh -> sh = - (ce + (e - s) + 64) -> 2 <= s ->
  2 ^ sh * (2 ^ 64 * 2 ^ Z.max ce 0) * 2 ^ Z.max (e - 2) 0 = 2 ^ (s - 2) * 2 ^ Z.max (- ce) 0 * 2 ^ Z.max (- (e - 2)) 0.
Proof. intros. rewrite <- !Z.pow_add_r by lia. f_equal. lia. Qed.

(** The chain of bounds in powers of two and ten, put together. *)
Lemma combine_bounds D p f sh ce ew k n s e : 32 <= sh <= 60 -> sh = - (ce + ew + 64) -> ew = e - s -> 2 <= s -> 0 < f ->
  (D * 10 ^ Z.max n 0 * 2 ^ sh <= f * 10 ^ Z.max (- n) 0 -> f * (2 ^ 64 * den10 k ce) < p * 2 ^ (s - 2) * num10 k ce ->
     D * 10 ^ Z.max (- k + n) 0 * 2 ^ Z.max (- (e - 2)) 0 < p * 2 ^ Z.max (e - 2) 0 * 10 ^ Z.max (- (- k + n)) 0)
  /\ (f * 10 ^ Z.max (- n) 0 <= D * 10 ^ Z.max n 0 * 2 ^ sh -> p * 2 ^ (s - 2) * num10 k ce < f * (2 ^ 64 * den10 k ce) ->
     p * 2 ^ Z.max (e - 2) 0 * 10 ^ Z.max (- (- k + n)) 0 < D * 10 ^ Z.max (- k + n) 0 * 2 ^ Z.max (- (e - 2)) 0).
Proof.
  intros Hsh Esh -> Hs Hf. assert (Hsh0 : 0 <= sh) by lia. unfold num10, den10.
  set (t1 := 10 ^ Z.max n 0 * 10 ^ Z.max (- k) 0). set (t2 := 10 ^ Z.max (- n) 0 * 10 ^ Z.max k 0).
  set (b := 2 ^ sh * (2 ^ 64 * 2 ^ Z.max ce 0)). set (d := 2 ^ (s - 2) * 2 ^ Z.max (- ce) 0).
  assert (E1 := balance10 k n : t1 * _ = t2 * _).
  assert (E2 := balance2 sh ce s e Hsh0 Esh Hs : b * _ = d * _).
  pose proof (pow_max_pos 10 (- n) eq_refl) as Hn. pose proof (pow_max_pos 10 (- k) eq_refl) as Hk'.
  pose proof (pow_max_pos 2 ce eq_refl) as Hc.
  assert (H2 : 0 < t2) by (apply Z.mul_pos_pos; by apply pow_max_pos).
  assert (Hd : 0 < d) by (apply Z.mul_pos_pos; [apply Z.pow_pos_nonneg; lia|by apply pow_max_pos]).
  destruct (transfer D p t1 t2 b d _ _ _ _ H2 Hd (pow_max_pos 10 _ eq_refl) (pow_max_pos 2 _ eq_refl) E1 E2) as [T1 T2].
  set (g := 2 ^ 64 * (10 ^ Z.max (- k) 0 * 2 ^ Z.max ce 0)). assert (Hg : 0 < g) by (unfold g; repeat apply Z.mul_pos_pos; done).
  assert (EB : D * t1 * b = D * 10 ^ Z.max n 0 * 2 ^ sh * g) by (unfold t1, b, g; ring).
  assert (EP : p * t2 * d = p * 2 ^ (s - 2) * (10 ^ Z.max k 0 * 2 ^ Z.max (- ce) 0) * 10 ^ Z.max (- n) 0) by (unfold t2, d; ring).
  rewrite EB, EP in T1, T2. clear -T1 T2 Hn Hg. split; intros Ha Hb.
  - apply T1. eapply Z.le_lt_trans; [apply Z.mul_le_mono_nonneg_r; [lia|exact Ha]|].
    rewrite Z.mul_shuffle0. by apply Z.mul_lt_mono_pos_r.
  - apply T2. eapply Z.lt_le_trans; [apply Z.mul_lt_mono_pos_r; [exact Hn|exact Hb]|].
    rewrite Z.mul_shuffle0. apply Z.mul_le_mono_nonneg_r; [lia|exact Ha].
Qed.

(** Products with a row keep a gap of 512 units apart. *)
Lemma scaled_gap a b f : 0 <= a -> a + 2 ^ 9 <= b -> 2 ^ 63 <= f ->
  (a * f + 2 ^ 63) / 2 ^ 64 + 2 <= (b * f + 2 ^ 63) / 2 ^ 64.
Proof.
  intros Ha Hab Hf. rewrite <- Z.div_add by lia. apply Z.div_le_mono; [lia|]. nia.
Qed.

Lemma scaled_low a f : 2 ^ 63 + 2 ^ 9 <= a -> 2 ^ 63 <= f -> 2 ^ 62 + 2 <= (a * f + 2 ^ 63) / 2 ^ 64.
Proof. intros Ha Hf. apply Z.div_le_lower_bound; [lia|]. nia. Qed.

(** The three significands of a double, at its shift. *)
Lemma significand_bounds m e : canonical m e -> let s := norm_shift m in
  let lo := if closer m e then 4 * m - 1 else 4 * m - 2 in
  (if closer m e then (4 * m - 1) * 2 ^ (s - 2) else (2 * m - 1) * 2 ^ (s - 1)) = lo * 2 ^ (s - 2)
  /\ (2 * m + 1) * 2 ^ (s - 1) = (4 * m + 2) * 2 ^ (s - 2) /\ m * 2 ^ s = 4 * m * 2 ^ (s - 2)
  /\ 0 < lo * 2 ^ (s - 2) /\ lo * 2 ^ (s - 2) + 2 ^ 9 <= 4 * m * 2 ^ (s - 2)
  /\ 4 * m * 2 ^ (s - 2) + 2 ^ 9 <= (4 * m + 2) * 2 ^ (s - 2)
  /\ 2 ^ 63 + 2 ^ 9 <= (4 * m + 2) * 2 ^ (s - 2) < 2 ^ 64.
Proof.
  intros (Hm & _ & _) s lo. destruct (norm_shift_spec m Hm) as (Hs & H1 & H2). fold s in Hs, H1, H2.
  assert (E2 : 2 ^ s = 4 * 2 ^ (s - 2)) by (change 4 with (2 ^ 2); rewrite <- Z.pow_add_r by lia; f_equal; lia).
  assert (E1 : 2 ^ (s - 1) = 2 * 2 ^ (s - 2)) by (rewrite <- Z.pow_succ_r by lia; f_equal; lia).
  assert (H9 : 2 ^ 9 <= 2 ^ (s - 2)) by (apply Z.pow_le_mono_r; lia).
  rewrite E1, E2 in *. set (t := 2 ^ (s - 2)) in *. clearbody t. unfold lo. destruct (closer m e); split_and!; lia.
Qed.

Lemma exponent_range m e : canonical m e -> -1137 <= e - norm_shift m <= 960.
Proof.
  intros (Hm & Hn & He). destruct (norm_shift_spec m Hm) as (Hs & _). destruct Hn as [Hn| ->]; [|lia].
  assert (norm_shift m = 11); [|lia]. unfold norm_shift. rewrite (Z.log2_unique m 52); lia.
Qed.

Lemma grisu2_sound m e : canonical m e -> let '(ds, x) := grisu2_double m e in
  Forall (fun d => 0 <= d <= 9) ds /\ (exists d, head ds = Some d /\ 0 < d)
  /\ strictly_between (if closer m e then 4 * m - 1 else 4 * m - 2) (4 * m + 2) (e - 2) (decimal_value ds) x.
Proof.
  intros Hc. unfold grisu2_double. rewrite boundaries_spec by done. cbn [b_minus b_w b_plus].
  destruct (significand_bounds m e Hc) as (-> & -> & -> & Hlo & Hg1 & Hg2 & Hp). pose proof (exponent_range m e Hc) as Her.
  destruct (norm_shift_spec m (proj1 Hc)) as (Hs & _).
  set (s := norm_shift m) in *. set (lo := if closer m e then _ else _) in *.
  unfold grisu2. cbn [de]. destruct (cached_power_spec (e - s) Her) as (f & ce & k & -> & Hf & Hexp & Hrow).
  assert (Hden : 0 < den10 k ce) by (unfold den10; apply Z.mul_pos_pos; by apply pow_max_pos).
  rewrite !mul_spec by (cbn [df]; lia). cbn [mul de df].
  destruct (scaled_bounds (lo * 2 ^ (s - 2)) f (num10 k ce) (den10 k ce)) as ((_ & Bm) & Rm); [lia|done|done|done|].
  destruct (scaled_bounds (4 * m * 2 ^ (s - 2)) f (num10 k ce) (den10 k ce)) as (_ & Rw); [lia|done|done|done|].
  destruct (scaled_bounds ((4 * m + 2) * 2 ^ (s - 2)) f (num10 k ce) (den10 k ce)) as ((Bp & _) & Rp); [lia|done|done|done|].
  pose proof (scaled_gap _ _ f (Z.lt_le_incl _ _ Hlo) Hg1 (proj1 Hf)) as G1.
  pose proof (scaled_gap (4 * m * 2 ^ (s - 2)) _ f ltac:(lia) Hg2 (proj1 Hf)) as G2.
  pose proof (scaled_low _ f (proj1 Hp) (proj1 Hf)) as Lp.
  set (Wm := (lo * 2 ^ (s - 2) * f + 2 ^ 63) / 2 ^ 64) in *. set (W := (4 * m * 2 ^ (s - 2) * f + 2 ^ 63) / 2 ^ 64) in *.
  set (Wp := ((4 * m + 2) * 2 ^ (s - 2) * f + 2 ^ 63) / 2 ^ 64) in *.
  rewrite (u64_id (Wm + 1)), (u64_id (Wp - 1)) by lia. replace (e - s + ce + 64) with (ce + (e - s) + 64) by lia.
  match goal with |- context [grisu2_digit_gen ?a ?b ?c] => pose proof (digit_gen_spec a b c) as HD end.
  cbn [df de] in HD. rewrite mul_spec in HD by (cbn [df]; lia). cbn [df] in HD. fold W in HD. clearbody Wm W Wp.
  specialize (HD ltac:(lia) ltac:(lia) ltac:(lia) ltac:(lia)).
  destruct (grisu2_digit_gen _ _ _) as [buf n]. destruct HD as [[Hall (d & Hd & Hd0)] Hw].
  split; [by apply Forall_rev|]. split; [exists d; split; [|done]; rewrite rev_alt; fold (reverse buf); by rewrite head_reverse|].
  rewrite decimal_value_rev. unfold within in Hw. replace (Wp - 1 - (Wp - 1 - (Wm + 1))) with (Wm + 1) in Hw by lia.
  destruct (combine_bounds (digits_value buf) lo (Wm + 1) (- (ce + (e - s) + 64)) ce (e - s) k n s e) as [_ C1]; [lia..|].
  destruct (combine_bounds (digits_value buf) (4 * m + 2) (Wp - 1) (- (ce + (e - s) + 64)) ce (e - s) k n s e) as [C2 _]; [lia..|].
  split; [apply C1; [apply Hw|exact Bm]|apply C2; [apply Hw|exact Bp]].
Qed.
