(* ===== verification/Decimal.v ===== *)
(** * Decimal numbers to floating point, rounded to nearest

    What [strtod] and [strtof] compute from the digits and the exponent of a text: the nearest
    floating-point number, ties to even.  The theorem: a number strictly between the two midpoints
    around a double is read as that double. *)

From S2P Require Import Prelude Grisu.
From Stdlib Require Import SpecFloat.

(** The quotient n / d rounded to the nearest integer, ties to even. *)
Definition round_half_even (n d : Z) : Z :=
  let q := n / d in
  let r := n mod d in
  if 2 * r <? d then q else if d <? 2 * r then q + 1 else if Z.even q then q else q + 1.

(** [2^l <= n / d] *)
Definition pow2_le (l n d : Z) : bool := d * 2 ^ Z.max l 0 <=? n * 2 ^ Z.max (- l) 0.

(** The binary exponent of n / d. *)
Definition ratio_log2 (n d : Z) : Z :=
  let l := Z.log2 n - Z.log2 d in if pow2_le l n d then l else l - 1.

(** n / d with [prec] bits, fewer at the least exponent [emin]. *)
Definition round_ratio (prec emin emax n d : Z) : spec_float :=
  let e := Z.max emin (ratio_log2 n d - (prec - 1)) in
  let q := round_half_even (n * 2 ^ Z.max (- e) 0) (d * 2 ^ Z.max e 0) in
  let '(q, e) := if q =? 2 ^ prec then (2 ^ (prec - 1), e + 1) else (q, e) in
  if q =? 0 then S754_zero false
  else if emax - prec <? e then S754_infinity false
  else S754_finite false (Z.to_pos q) e.

(** n * 10^x as a double and as a float. *)
Definition decimal_ratio (round : Z -> Z -> spec_float) (n x : Z) : spec_float :=
  if n =? 0 then S754_zero false else round (n * 10 ^ Z.max x 0) (10 ^ Z.max (- x) 0).

Definition double_of_decimal : Z -> Z -> spec_float := decimal_ratio (round_ratio 53 (-1074) 1024).
Definition float_of_decimal : Z -> Z -> spec_float := decimal_ratio (round_ratio 24 (-149) 128).

(** ** Lemmas *)

Lemma round_half_even_near a b m : 0 < b -> (2 * m - 1) * b < 2 * a < (2 * m + 1) * b -> round_half_even a b = m.
Proof.
  intros Hb H. unfold round_half_even. pose proof (Z.div_mod a b ltac:(lia)). pose proof (Z.mod_pos_bound a b Hb).
  set (q := a / b) in *. set (r := a mod b) in *. clearbody q r. subst a.
  assert (C : q = m \/ q + 1 <= m \/ m + 1 <= q) by lia.
  assert (Hq : q = m /\ 2 * r < b \/ q = m - 1 /\ b < 2 * r).
  { destruct C as [->|[C|C]]; [left; lia| |].
    - right. destruct (Z.eq_dec q (m - 1)) as [->|Hne]; [lia|]. exfalso.
      assert (b * (q + 2) <= b * m) by (apply Z.mul_le_mono_nonneg_l; lia). lia.
    - exfalso. assert (b * (m + 1) <= b * q) by (apply Z.mul_le_mono_nonneg_l; lia). lia. }
  destruct Hq as [[-> Hr]|[-> Hr]].
  - by destruct (Z.ltb_spec (2 * r) b); [|lia].
  - destruct (Z.ltb_spec (2 * r) b); [lia|]. destruct (Z.ltb_spec b (2 * r)); lia.
Qed.

(** The comparison at any common scale. *)
Lemma pow2_le_scale l n d K : 0 <= K -> 0 <= l + K -> 0 < d -> pow2_le l n d = (d * 2 ^ (l + K) <=? n * 2 ^ K).
Proof.
  intros HK HlK Hd. unfold pow2_le.
  assert (E : 2 ^ (l + K) = 2 ^ Z.max l 0 * 2 ^ Z.min K (K + l)) by (rewrite <- Z.pow_add_r by lia; f_equal; lia).
  assert (E' : 2 ^ K = 2 ^ Z.max (- l) 0 * 2 ^ Z.min K (K + l)) by (rewrite <- Z.pow_add_r by lia; f_equal; lia).
  rewrite E, E', !Z.mul_assoc. pose proof (Z.pow_pos_nonneg 2 (Z.min K (K + l)) ltac:(lia) ltac:(lia)) as Hp.
  set (t := 2 ^ Z.min K (K + l)) in *. clearbody t. clear E E'.
  set (A := d * 2 ^ Z.max l 0). set (B := n * 2 ^ Z.max (- l) 0). clearbody A B.
  destruct (Z.leb_spec A B), (Z.leb_spec (A * t) (B * t)); (done || nia).
Qed.

Lemma pow2_le_mono l l' n d : 0 < d -> l <= l' -> pow2_le l' n d = true -> pow2_le l n d = true.
Proof.
  intros Hd Hl. rewrite (pow2_le_scale l' n d (Z.abs l + Z.abs l')), (pow2_le_scale l n d (Z.abs l + Z.abs l')) by lia.
  rewrite !Z.leb_le. intros H. etransitivity; [|exact H]. apply Z.mul_le_mono_nonneg_l; [lia|]. apply Z.pow_le_mono_r; lia.
Qed.

Lemma ratio_log2_spec n d : 0 < n -> 0 < d ->
  pow2_le (ratio_log2 n d) n d = true /\ pow2_le (ratio_log2 n d + 1) n d = false.
Proof.
  intros Hn Hd. unfold ratio_log2. pose proof (Z.log2_spec n Hn) as [N1 N2]. pose proof (Z.log2_spec d Hd) as [D1 D2].
  pose proof (Z.log2_nonneg n). pose proof (Z.log2_nonneg d). set (a := Z.log2 n) in *. set (b := Z.log2 d) in *.
  rewrite Z.pow_succ_r in N2, D2 by lia.
  assert (Lo : pow2_le (a - b - 1) n d = true).
  { rewrite (pow2_le_scale _ _ _ (b + 1)) by lia. replace (a - b - 1 + (b + 1)) with a by lia. apply Z.leb_le.
    rewrite Z.pow_add_r by lia. change (2 ^ 1) with 2. nia. }
  assert (Hi : pow2_le (a - b + 1) n d = false).
  { rewrite (pow2_le_scale _ _ _ b) by lia. replace (a - b + 1 + b) with (a + 1) by lia. apply Z.leb_gt.
    rewrite Z.pow_add_r by lia. change (2 ^ 1) with 2. nia. }
  destruct (pow2_le (a - b) n d) eqn:E; [done|]. by replace (a - b - 1 + 1) with (a - b) by lia.
Qed.

Lemma ratio_log2_unique n d l : 0 < n -> 0 < d -> pow2_le l n d = true -> pow2_le (l + 1) n d = false -> ratio_log2 n d = l.
Proof.
  intros Hn Hd H1 H2. destruct (ratio_log2_spec n d Hn Hd) as [R1 R2]. set (r := ratio_log2 n d) in *. clearbody r.
  destruct (Z.lt_trichotomy r l) as [H|[H|H]]; [|done|].
  - by rewrite (pow2_le_mono (r + 1) l) in R2 by (done || lia).
  - by rewrite (pow2_le_mono (l + 1) r) in H2 by (done || lia).
Qed.

Lemma ratio_log2_lt n d l : 0 < n -> 0 < d -> pow2_le l n d = false -> ratio_log2 n d < l.
Proof.
  intros Hn Hd H. destruct (ratio_log2_spec n d Hn Hd) as [R1 _]. destruct (Z.lt_ge_cases (ratio_log2 n d) l); [done|].
  by rewrite (pow2_le_mono l (ratio_log2 n d)) in H by (done || lia).
Qed.

(** n / d in units of 2^e is [scaled_num / scaled_den]. *)
Definition scaled_num (n e : Z) : Z := n * 2 ^ Z.max (- e) 0.
Definition scaled_den (d e : Z) : Z := d * 2 ^ Z.max e 0.

Lemma scaled_pos x e : 0 < x -> 0 < scaled_num x e /\ 0 < scaled_den x e.
Proof. intros Hx. split; apply Z.mul_pos_pos; try done; by apply pow_max_pos. Qed.

Lemma pow2_le_scaled e t n d : 0 <= t -> 0 < d -> pow2_le (e + t) n d = (scaled_den d e * 2 ^ t <=? scaled_num n e).
Proof.
  intros Ht Hd. rewrite (pow2_le_scale _ _ _ (Z.max (- e) 0)) by lia. unfold scaled_num, scaled_den.
  rewrite <- Z.mul_assoc, <- Z.pow_add_r by lia. do 3 f_equal. lia.
Qed.

(** One step of the exponent doubles the ratio. *)
Lemma scaled_step n d e : scaled_num n (e - 1) * scaled_den d e = 2 * scaled_num n e * scaled_den d (e - 1).
Proof.
  unfold scaled_num, scaled_den.
  assert (E : 2 ^ Z.max (- (e - 1)) 0 * 2 ^ Z.max e 0 = 2 * (2 ^ Z.max (- e) 0 * 2 ^ Z.max (e - 1) 0)).
  { rewrite <- !Z.pow_add_r, <- Z.pow_succ_r by lia. f_equal. lia. }
  transitivity (n * d * (2 ^ Z.max (- (e - 1)) 0 * 2 ^ Z.max e 0)); [ring|]. rewrite E. ring.
Qed.

(** The interval of [strictly_between] in units of 2^e. *)
Lemma between_scaled lo hi e n d : 0 < d ->
  lo * 2 ^ Z.max (e - 2) 0 * d < n * 2 ^ Z.max (- (e - 2)) 0 < hi * 2 ^ Z.max (e - 2) 0 * d ->
  lo * scaled_den d e < 4 * scaled_num n e < hi * scaled_den d e.
Proof.
  intros Hd H. unfold scaled_num, scaled_den.
  assert (E : 2 ^ Z.max (- (e - 2)) 0 * 2 ^ Z.max e 0 = 4 * 2 ^ Z.max (- e) 0 * 2 ^ Z.max (e - 2) 0).
  { change 4 with (2 ^ 2). rewrite <- !Z.pow_add_r by lia. f_equal. lia. }
  pose proof (pow_max_pos 2 (e - 2) eq_refl). pose proof (pow_max_pos 2 e eq_refl).
  set (p := 2 ^ Z.max (e - 2) 0) in *. set (q := 2 ^ Z.max (- (e - 2)) 0) in *. set (u := 2 ^ Z.max e 0) in *.
  set (v := 2 ^ Z.max (- e) 0) in *. clearbody p q u v.
  assert (EN : 4 * (n * v) * p = n * q * u) by (transitivity (n * (q * u)); [rewrite E; ring|ring]).
  assert (EL : forall x, x * (d * u) * p = x * p * d * u) by (intros; ring).
  split; apply (Z.mul_lt_mono_pos_r p); try done; rewrite EN, EL; apply Z.mul_lt_mono_pos_r; lia.
Qed.

(** The double whose interval holds n / d. *)
Lemma round_between m e n d : canonical m e -> 0 < n -> 0 < d ->
  (if closer m e then 4 * m - 1 else 4 * m - 2) * 2 ^ Z.max (e - 2) 0 * d < n * 2 ^ Z.max (- (e - 2)) 0
    < (4 * m + 2) * 2 ^ Z.max (e - 2) 0 * d ->
  round_ratio 53 (-1074) 1024 n d = S754_finite false (Z.to_pos m) e.
Proof.
  intros (Hm & Hn & He) Hpn Hpd H%between_scaled; [|done]. unfold round_ratio. change (53 - 1) with 52. change (1024 - 53) with 971.
  destruct (scaled_pos n e Hpn) as [Ha _]. destruct (scaled_pos d e Hpd) as [_ Hb].
  assert (H53 : pow2_le (e + 53) n d = false).
  { rewrite pow2_le_scaled by lia. apply Z.leb_gt. nia. }
  destruct (Z.leb_spec (scaled_den d e * 2 ^ 52) (scaled_num n e)) as [Hge|Hlt].
  1: assert (E52 : e = -1074 \/ ratio_log2 n d = e + 52).
  1: { right. apply ratio_log2_unique; [done|done| |by replace (e + 52 + 1) with (e + 53) by lia].
       rewrite pow2_le_scaled by lia. by apply Z.leb_le. }
  2: destruct (Z.eq_dec e (-1074)) as [E52|Ene].
  1,2: assert (Z.max (-1074) (ratio_log2 n d - 52) = e) as -> by
    (apply ratio_log2_lt in H53; [|done..]; lia).
  1,2: fold (scaled_num n e) (scaled_den d e); rewrite (round_half_even_near _ _ m) by (done || (destruct (closer m e); lia)).
  1,2: destruct (Z.eqb_spec m (2 ^ 53)); [lia|]; destruct (Z.eqb_spec m 0); [lia|]; by destruct (Z.ltb_spec 971 e); [lia|].
  assert (m = 2 ^ 52) as -> by (destruct (closer m e); nia).
  assert (closer (2 ^ 52) e = true) as Hc by (unfold closer; rewrite Z.eqb_refl; apply Z.ltb_lt; lia). rewrite Hc in H.
  assert (ratio_log2 n d = e + 51) as ->.
  { apply ratio_log2_unique; [done|done|rewrite pow2_le_scaled by lia; apply Z.leb_le; lia|].
    replace (e + 51 + 1) with (e + 52) by lia. rewrite pow2_le_scaled by lia. by apply Z.leb_gt. }
  replace (Z.max (-1074) (e + 51 - 52)) with (e - 1) by lia. fold (scaled_num n (e - 1)) (scaled_den d (e - 1)).
  destruct (scaled_pos d (e - 1) Hpd) as [_ Hb'].
  rewrite (round_half_even_near _ _ (2 ^ 53)); [|done|].
  - cbn [Z.eqb]. rewrite Z.eqb_refl. replace (e - 1 + 1) with e by lia. by destruct (Z.ltb_spec 971 e); [lia|].
  - pose proof (scaled_step n d e) as Es. set (a := scaled_num n e) in *. set (b := scaled_den d e) in *.
    set (a' := scaled_num n (e - 1)) in *. set (b' := scaled_den d (e - 1)) in *. clearbody a b a' b'.
    split; apply (Z.mul_lt_mono_pos_r b); try done.
    + replace (2 * a' * b) with (4 * a * b') by lia. replace ((2 * 2 ^ 53 - 1) * b' * b) with ((2 * 2 ^ 53 - 1) * b * b') by ring.
      apply Z.mul_lt_mono_pos_r; lia.
    + replace (2 * a' * b) with (4 * a * b') by lia. replace ((2 * 2 ^ 53 + 1) * b' * b) with ((2 * 2 ^ 53 + 1) * b * b') by ring.
      apply Z.mul_lt_mono_pos_r; lia.
Qed.

Lemma decimal_value_pos ds : Forall (fun d => 0 <= d <= 9) ds -> (exists d, head ds = Some d /\ 0 < d) -> 0 < decimal_value ds.
Proof.
  intros Hf (d & Hd & Hp). destruct ds as [|d0 ds]; [done|]. injection Hd as ->. apply Forall_cons in Hf as [_ Hf].
  unfold decimal_value. cbn [foldl]. assert (H : forall acc, 0 < acc -> 0 < foldl (fun n d => 10 * n + d) acc ds).
  { clear -Hf. induction Hf as [|d ds Hd _ IH]; intros acc Ha; cbn; [done|]. apply IH. lia. }
  apply H. lia.
Qed.

(** A decimal strictly between the midpoints is read as the double. *)
Lemma double_of_decimal_between m e n x : canonical m e -> 0 < n ->
  strictly_between (if closer m e then 4 * m - 1 else 4 * m - 2) (4 * m + 2) (e - 2) n x ->
  double_of_decimal n x = S754_finite false (Z.to_pos m) e.
Proof.
  intros Hc Hn H. unfold double_of_decimal, decimal_ratio. destruct (Z.eqb_spec n 0); [lia|].
  apply round_between; [done|apply Z.mul_pos_pos; [done|by apply pow_max_pos]|by apply pow_max_pos|done].
Qed.

(** C23: the digits the JSON writer prints for a positive double are read back as the same double by
    a correctly rounding reader, for every normal and subnormal double; they start with a digit that
    is not zero. *)
Theorem grisu2_roundtrip (m e : Z) : canonical m e ->
  let '(ds, x) := grisu2_double m e in
  double_of_decimal (decimal_value ds) x = S754_finite false (Z.to_pos m) e
  /\ Forall (fun d => 0 <= d <= 9) ds /\ (exists d, head ds = Some d /\ 0 < d).
Proof.
  intros Hc. pose proof (grisu2_sound m e Hc) as H. destruct (grisu2_double m e) as [ds x]. destruct H as (Hf & Hd & Hb).
  split; [|by split]. apply double_of_decimal_between; [done|by apply decimal_value_pos|done].
Qed.

(** 0.1 is printed as one digit. *)
Lemma grisu2_roundtrip_witness :
  grisu2_double 7205759403792794 (-56) = ([1], -1)
  /\ double_of_decimal 1 (-1) = S754_finite false 7205759403792794 (-56).
Proof.
  split; [by vm_compute|].
  pose proof (grisu2_roundtrip 7205759403792794 (-56)) as H.
  assert (E : grisu2_double 7205759403792794 (-56) = ([1], -1)) by (by vm_compute). rewrite E in H.
  apply H. unfold canonical. lia.
Defined.
