(* ===== verification/Json.v ===== *)
(** * json.hpp: the part of the JSON library the server uses

    JSON values, the conversions [get<T>()], [value(key, default)] and the two forms of
    [operator[]], for the objects the request handlers read and build.  The texts are in [JsonText]. *)

From S2P Require Import Prelude.
From Stdlib Require Import Ascii SpecFloat.
From Stdlib Require String.

(** A double: the IEEE value of the standard library's specification. *)
Definition double : Type := spec_float.

(** Signed and unsigned integers are both [JInt]; an object is the sorted [std::map] of its fields; a
    binary value has bytes and perhaps a subtype.  Discarded values, which only the parser makes, are
    left out. *)
Inductive json :=
| JNull
| JObject (fields : list (string * json))
| JArray (items : list json)
| JString (s : string)
| JBool (b : bool)
| JInt (z : Z)
| JFloat (d : double)
| JBinary (bytes : list Z) (subtype : option Z).

Fixpoint obj_find (fields : list (string * json)) (key : string) : option json :=
  match fields with
  | [] => None
  | (k, v) :: fields => if String.eqb k key then Some v else obj_find fields key
  end.

(** [root[key] = v] on an object that is being built. *)
Fixpoint obj_set (fields : list (string * json)) (key : string) (v : json) : list (string * json) :=
  match fields with
  | [] => [(key, v)]
  | (k, w) :: fields =>
      match String.compare key k with
      | Eq => (k, v) :: fields
      | Lt => (key, v) :: (k, w) :: fields
      | Gt => (k, w) :: obj_set fields key v
      end
  end.

(** An object made by successive assignments. *)
Definition make_obj (kvs : list (string * json)) : json :=
  JObject (foldl (fun o '(k, v) => obj_set o k v) [] kvs).

(** ** Conversions *)

(** [static_cast<int>] of a double: towards zero; outside of the range of [int] it is undefined. *)
Definition int_of_double (d : double) : res Z :=
  match d with
  | S754_zero _ => Ok 0
  | S754_finite s m e =>
      let a := if 0 <=? e then Z.pos m * 2 ^ e else Z.pos m / 2 ^ (- e) in
      let z := if s then - a else a in
      if (- 2 ^ 31 <=? z) && (z <=? INT_MAX) then Ok z else Throw undefined_behavior
  | _ => Throw undefined_behavior
  end.

(** [static_cast<double>] of an integer, rounded to nearest. *)
Definition double_of_int (z : Z) : double := binary_normalize 53 1024 z 0 false.

(** [get<int>()], which takes booleans too, [get<double>()], [get<bool>()] and
    [get<std::string>()]. *)
Definition get_int (j : json) : res Z :=
  match j with
  | JInt z => Ok (s32 z)
  | JFloat d => int_of_double d
  | JBool b => Ok (if b then 1 else 0)
  | _ => Throw (json_type_error 302)
  end.

Definition get_double (j : json) : res double :=
  match j with
  | JInt z => Ok (double_of_int z)
  | JFloat d => Ok d
  | _ => Throw (json_type_error 302)
  end.

Definition get_bool (j : json) : res bool :=
  match j with JBool b => Ok b | _ => Throw (json_type_error 302) end.

Definition get_string (j : json) : res string :=
  match j with JString s => Ok s | _ => Throw (json_type_error 302) end.

(** ** Access *)

(** [value(key, default_value)]. *)
Definition json_value {A} (get : json -> res A) (j : json) (key : string) (default_value : A) : res A :=
  match j with
  | JObject fields =>
      match obj_find fields key with
      | Some v => get v
      | None => Ok default_value
      end
  | _ => Throw (json_type_error 306)
  end.

(** The [const] forms of [operator[]]: the assertion that the key exists is compiled out, so a
    missing key, like an index out of range, is undefined. *)
Definition json_at (j : json) (key : string) : res json :=
  match j with
  | JObject fields =>
      match obj_find fields key with Some v => Ok v | None => Throw undefined_behavior end
  | _ => Throw (json_type_error 305)
  end.

Definition json_nth (j : json) (idx : nat) : res json :=
  match j with
  | JArray items =>
      match items !! idx with Some v => Ok v | None => Throw undefined_behavior end
  | _ => Throw (json_type_error 305)
  end.

(** The other forms create what is missing: the value read is then null. *)
Definition json_at_mut (j : json) (key : string) : res json :=
  match j with
  | JNull => Ok JNull
  | JObject fields => Ok (default JNull (obj_find fields key))
  | _ => Throw (json_type_error 305)
  end.

Definition json_nth_mut (j : json) (idx : nat) : res json :=
  match j with
  | JNull => Ok JNull
  | JArray items => Ok (default JNull (items !! idx))
  | _ => Throw (json_type_error 305)
  end.

(** The elements a range-based [for] visits: the items of an array, the values of an object, nothing
    for null, and the value itself for the other types. *)
Definition json_items (j : json) : list json :=
  match j with
  | JNull => []
  | JObject fields => map snd fields
  | JArray items => items
  | _ => [j]
  end.

(** ** Lemmas *)

Lemma string_compare_eq s t : String.compare s t = Eq <-> s = t.
Proof.
  split; [apply String.compare_eq_iff|]. intros <-. induction s as [|c s IH]; cbn; [done|].
  unfold Ascii.compare. by rewrite N.compare_refl.
Qed.

Lemma obj_find_set fields key v k :
  obj_find (obj_set fields key v) k = if String.eqb key k then Some v else obj_find fields k.
Proof.
  induction fields as [|[k' w] fields IH]; cbn; [done|].
  destruct (String.compare key k') eqn:E; cbn.
  - apply string_compare_eq in E as <-. by destruct (String.eqb_spec key k).
  - done.
  - destruct (String.eqb_spec k' k) as [->|]; [|apply IH].
    destruct (String.eqb_spec key k) as [->|]; [|done].
    by rewrite (proj2 (string_compare_eq k k)) in E.
Qed.

(** A field of a built object is the last one assigned to its key. *)
Lemma obj_find_make kvs k :
  obj_find (foldl (fun o '(k, v) => obj_set o k v) [] kvs) k
  = snd <$> last (filter (fun kv => kv.1 = k) kvs).
Proof.
  induction kvs as [|[k' v] kvs IH] using rev_ind; [done|].
  rewrite foldl_app. cbn [foldl]. rewrite obj_find_set, IH, filter_app.
  destruct (String.eqb_spec k' k) as [->|Hne].
  - rewrite filter_cons_True, filter_nil by done. by rewrite last_snoc.
  - rewrite filter_cons_False, filter_nil by done. by rewrite app_nil_r.
Qed.
