(* ===== verification/Numbers.v ===== *)
(** * Numbers the metadata streams hold

    [std::stoi], [std::stof] and the arithmetic of [float], as both readers of the metadata use them. *)

From S2P Require Import Prelude Str Json Decimal.
From Stdlib Require Import Ascii SpecFloat.
From Stdlib Require String.

Local Open Scope string_scope.
Local Open Scope Z_scope.

(** ** Texts *)

(** [std::stoi] and [std::stof] on the texts the expressions capture: digits, and digits and dots. *)
Definition stoi (s : string) : res Z :=
  let ds := take_digits s in
  if str_empty ds then Throw (invalid_argument "stoi")
  else if dec_value 0 ds <=? INT_MAX then Ok (dec_value 0 ds) else Throw (out_of_range "stoi").

(** [strtof] reports a result too large, and one below the normal range that is not exact. *)
Definition float_range_error (n : Z) (k : nat) (f : spec_float) : bool :=
  match f with
  | S754_infinity _ => true
  | S754_zero _ => negb (n =? 0)
  | S754_finite _ m e => (Z.pos m <? 2 ^ 23) && negb (Z.pos m * 10 ^ Z.of_nat k =? n * 2 ^ (- e))
  | S754_nan => false
  end.

Definition stof (s : string) : res spec_float :=
  let i := take_digits s in
  let rest := str_drop (String.length i) s in
  let f := match rest with String "." rest => take_digits rest | _ => "" end in
  if str_empty i && str_empty f then Throw (invalid_argument "stof")
  else
    let n := dec_value 0 (i +:+ f) in
    let v := float_of_decimal n (- Z.of_nat (String.length f)) in
    if float_range_error n (String.length f) v then Throw (out_of_range "stof") else Ok v.

(** ** Floats *)

(** A float as the double of the same value. *)
Definition double_of_float (f : spec_float) : double :=
  match f with
  | S754_finite s m e => binary_normalize 53 1024 (if s then Z.neg m else Z.pos m) e s
  | _ => f
  end.

(** The double rounded to a float. *)
Definition float_of_double (d : double) : spec_float :=
  match d with
  | S754_finite s m e => binary_normalize 24 128 (if s then Z.neg m else Z.pos m) e s
  | _ => d
  end.

Definition float_of_int (z : Z) : spec_float := binary_normalize 24 128 z 0 false.

(** The operators of [float], rounded to nearest; an expression is evaluated operation by
    operation, without contraction. *)
Definition fadd (a b : spec_float) : spec_float := SFadd 24 128 a b.
Definition fsub (a b : spec_float) : spec_float := SFsub 24 128 a b.
Definition fmul (a b : spec_float) : spec_float := SFmul 24 128 a b.
Definition fdiv (a b : spec_float) : spec_float := SFdiv 24 128 a b.
Definition fsqrt (a : spec_float) : spec_float := SFsqrt 24 128 a.

(** [std::pow(float, 2)], a double: the square of a float is exact there. *)
Definition square (a : spec_float) : double := let d := double_of_float a in SFmul 53 1024 d d.

(** [std::hypot] of two floats: the square root of the exact squares' sum in double precision,
    rounded; infinite when one argument is, whatever the other. *)
Definition is_infinity (a : spec_float) : bool := match a with S754_infinity _ => true | _ => false end.
Definition hypotf (a b : spec_float) : spec_float :=
  if is_infinity a || is_infinity b then S754_infinity false
  else float_of_double (SFsqrt 53 1024 (SFadd 53 1024 (square a) (square b))).
