(* ===== verification/Stream.v ===== *)
(** * std::cin

    The extractions of the interactive programs: words and ints, with the fail bit, which nothing in
    these programs clears. *)

From S2P Require Import Prelude Str.
From Stdlib Require Import Ascii.
From Stdlib Require String.

Local Open Scope string_scope.
Local Open Scope Z_scope.

(** What is still to be read, and the fail bit. *)
Record cin := mk_cin { unread : string; failed : bool }.

(** The sentry of an extraction: it skips white space, and fails at the end of the input. *)
Definition sentry (s : cin) : option string :=
  if failed s then None
  else match skip_spaces (unread s) with EmptyString => None | t => Some t end.

Fixpoint take_word (s : string) : string :=
  match s with
  | String c s' => if is_space c then "" else String c (take_word s')
  | EmptyString => ""
  end.

(** [cin >> word]: behind a sentry that failed the variable keeps its value. *)
Definition read_word (word : string) (s : cin) : string * cin :=
  match sentry s with
  | None => (word, mk_cin "" true)
  | Some t => let w := take_word t in (w, mk_cin (str_drop (String.length w) t) false)
  end.

(** [cin >> n]: a sign and digits.  Without digits the variable becomes 0, and a number that does not
    fit becomes the nearest [int], both with the fail bit; [None] when it keeps its value. *)
Definition read_int (s : cin) : option Z * cin :=
  match sentry s with
  | None => (None, mk_cin "" true)
  | Some t =>
      let '(neg, t) := match t with
                       | String c t' => if Ascii.eqb c "-" then (true, t') else if Ascii.eqb c "+" then (false, t') else (false, t)
                       | EmptyString => (false, t)
                       end in
      let ds := take_digits t in
      let rest := str_drop (String.length ds) t in
      let z := if (neg : bool) then - dec_value 0 ds else dec_value 0 ds in
      if str_empty ds then (Some 0, mk_cin rest true)
      else if INT_MAX <? z then (Some INT_MAX, mk_cin rest true)
      else if z <? - INT_MAX - 1 then (Some (- INT_MAX - 1), mk_cin rest true)
      else (Some z, mk_cin rest false)
  end.

(** ** Lemmas *)

Lemma skip_spaces_length s : (String.length (skip_spaces s) <= String.length s)%nat.
Proof. induction s as [|c s IH]; cbn; [lia|]. destruct (is_space c); cbn; lia. Qed.

(** An extraction that succeeds reads something. *)
Lemma read_int_shrinks s z s' : read_int s = (Some z, s') -> failed s' = false -> (String.length (unread s') < String.length (unread s))%nat.
Proof.
  unfold read_int, sentry. destruct (failed s); [done|]. pose proof (skip_spaces_length (unread s)) as Hl.
  destruct (skip_spaces (unread s)) as [|c t]; [done|]. cbn [String.length] in Hl.
  set (p := if Ascii.eqb c "-" then _ else _). assert (Hp : (String.length p.2 <= S (String.length t))%nat) by (unfold p; repeat case_match; cbn; lia).
  destruct p as [neg u]. cbn [snd] in Hp. destruct (take_digits u) as [|d ds] eqn:Ed; cbn [str_empty]; [by intros [= _ <-]|].
  assert (Hu : (String.length (str_drop (String.length (String d ds)) u) < S (String.length t))%nat).
  { destruct u as [|x u]; [done|]. cbn [String.length] in Hp. cbn [String.length str_drop].
    rewrite str_drop_length. lia. }
  repeat case_match; intros [= _ <-]; cbn [failed unread]; try done;
    intros _; (eapply Nat.lt_le_trans; [exact Hu|lia]).
Qed.

Lemma read_word_length w s : (String.length (unread (snd (read_word w s))) <= String.length (unread s))%nat.
Proof.
  unfold read_word, sentry. destruct (failed s); [cbn; lia|]. pose proof (skip_spaces_length (unread s)) as Hl.
  destruct (skip_spaces (unread s)) as [|c t]; [cbn; lia|]. cbn [snd unread]. rewrite str_drop_length. lia.
Qed.

(** Where a word ends. *)
Definition ended (rest : string) : bool := match rest with EmptyString => true | String c _ => is_space c end.

(** A word read back: it has no white space, and white space or the end follows. *)
Lemma read_word_spec w old rest : w <> "" -> all_chars (fun c => negb (is_space c)) w = true ->
  ended rest = true ->
  read_word old (mk_cin (w +:+ rest) false) = (w, mk_cin rest false).
Proof.
  intros Hne Hw Hr. unfold read_word, sentry. cbn [failed unread].
  assert (Et : take_word (w +:+ rest) = w).
  { clear Hne. induction w as [|c w IH]; cbn [String.append].
    - destruct rest as [|c rest]; cbn [take_word ended] in *; [done|]. by rewrite Hr.
    - cbn [all_chars] in Hw. breflect. cbn [take_word]. destruct (is_space c); [done|]. by rewrite IH. }
  destruct w as [|c w]; [done|]. cbn [all_chars] in Hw. breflect. rewrite append_cons. cbn [skip_spaces]. destruct (is_space c); [done|].
  rewrite <- append_cons, Et. by rewrite str_drop_app.
Qed.

(** ** Turns *)

(** The turns that are left at most to a loop that reads an int in each: a failed stream lets one more
    turn begin. *)
Definition turns_left (i : cin) : nat := if failed i then 1 else 2 + String.length (unread i).

Lemma read_word_left w s : (turns_left (snd (read_word w s)) <= turns_left s)%nat.
Proof.
  pose proof (read_word_length w s) as Hl. unfold read_word in *. unfold turns_left.
  destruct (sentry s) as [t|] eqn:E; cbn in *; [|destruct (failed s); lia]. unfold sentry in E. destruct (failed s); [done|]. lia.
Qed.

Lemma read_int_left s z s' : read_int s = (Some z, s') -> (turns_left s' < turns_left s)%nat.
Proof.
  intros E. pose proof (read_int_shrinks s z s' E) as Hs. assert (Hf : failed s = false).
  { unfold read_int, sentry in E. by destruct (failed s). }
  unfold turns_left. rewrite Hf. destruct (failed s'); [lia|]. specialize (Hs eq_refl). lia.
Qed.

Lemma read_int_left_le s : (turns_left (snd (read_int s)) <= turns_left s)%nat.
Proof.
  destruct (read_int s) as [[z|] s'] eqn:E; [apply read_int_left in E; cbn; lia|]. cbn [snd].
  unfold read_int in E. destruct (sentry s); [|injection E as <-; unfold turns_left; cbn; destruct (failed s); lia].
  repeat case_match; discriminate E.
Qed.
