(* ===== verification/JsonText.v ===== *)
(** * json.hpp: the JSON writer and reader

    [dump()] as the program calls it (no indentation, no ASCII escapes, strict about UTF-8), and
    [json::parse]: lexer, the loop of the parser with its stack, and the values it builds.  Texts are
    lists of bytes. *)

From S2P Require Import Prelude Str Grisu Decimal Json.
From Stdlib Require Import Ascii SpecFloat.
From Stdlib Require String.

(** The bytes of a literal. *)
Definition lit (s : string) : list Z := bytes_of s.

(** ** UTF-8 *)

Definition utf8d : list Z :=
  [
0; 0; 0; 0; 0; 0; 0; 0; 0; 0; 0; 0; 0; 0; 0; 0; 0; 0; 0; 0; 0; 0; 0; 0; 0; 0; 0; 0; 0; 0; 0; 0;
   0; 0; 0; 0; 0; 0; 0; 0; 0; 0; 0; 0; 0; 0; 0; 0; 0; 0; 0; 0; 0; 0; 0; 0; 0; 0; 0; 0; 0; 0; 0; 0;
   0; 0; 0; 0; 0; 0; 0; 0; 0; 0; 0; 0; 0; 0; 0; 0; 0; 0; 0; 0; 0; 0; 0; 0; 0; 0; 0; 0; 0; 0; 0; 0;
   0; 0; 0; 0; 0; 0; 0; 0; 0; 0; 0; 0; 0; 0; 0; 0; 0; 0; 0; 0; 0; 0; 0; 0; 0; 0; 0; 0; 0; 0; 0; 0;
   1; 1; 1; 1; 1; 1; 1; 1; 1; 1; 1; 1; 1; 1; 1; 1; 9; 9; 9; 9; 9; 9; 9; 9; 9; 9; 9; 9; 9; 9; 9; 9;
   7; 7; 7; 7; 7; 7; 7; 7; 7; 7; 7; 7; 7; 7; 7; 7; 7; 7; 7; 7; 7; 7; 7; 7; 7; 7; 7; 7; 7; 7; 7; 7;
   8; 8; 2; 2; 2; 2; 2; 2; 2; 2; 2; 2; 2; 2; 2; 2; 2; 2; 2; 2; 2; 2; 2; 2; 2; 2; 2; 2; 2; 2; 2; 2;
   10; 3; 3; 3; 3; 3; 3; 3; 3; 3; 3; 3; 3; 4; 3; 3; 11; 6; 6; 6; 5; 8; 8; 8; 8; 8; 8; 8; 8; 8; 8; 8;
   0; 1; 2; 3; 5; 8; 7; 1; 1; 1; 4; 6; 1; 1; 1; 1; 1; 1; 1; 1; 1; 1; 1; 1; 1; 1; 1; 1; 1; 1; 1; 1;
   1; 0; 1; 1; 1; 1; 1; 0; 1; 0; 1; 1; 1; 1; 1; 1; 1; 2; 1; 1; 1; 1; 1; 2; 1; 2; 1; 1; 1; 1; 1; 1;
   1; 1; 1; 1; 1; 1; 1; 2; 1; 1; 1; 1; 1; 1; 1; 1; 1; 2; 1; 1; 1; 1; 1; 1; 1; 2; 1; 1; 1; 1; 1; 1;
   1; 1; 1; 1; 1; 1; 1; 3; 1; 3; 1; 1; 1; 1; 1; 1; 1; 3; 1; 1; 1; 1; 1; 3; 1; 3; 1; 1; 1; 1; 1; 1;
   1; 3; 1; 1; 1; 1; 1; 1; 1; 1; 1; 1; 1; 1; 1; 1].

Definition UTF8_ACCEPT : Z := 0.
Definition UTF8_REJECT : Z := 1.

(** The new state and code point. *)
Definition decode (state codep byte : Z) : Z * Z :=
  let type := utf8d !!! Z.to_nat byte in
  let codep :=
    if negb (state =? UTF8_ACCEPT) then Z.lor (Z.land byte 0x3f) (u32 (Z.shiftl codep 6))
    else Z.land (Z.shiftr 0xff type) byte in
  (utf8d !!! Z.to_nat (256 + state * 16 + type), codep).

(** ** The writer *)

Definition hex_digit (n : Z) : Z := if n <? 10 then 48 + n else 87 + n.

(** [snprintf] of [\\u%04x]. *)
Definition u_escape (codepoint : Z) : list Z :=
  [92; 117] ++ map (fun k => hex_digit (u16 codepoint / 16 ^ k mod 16)) [3; 2; 1; 0].

(** What is written for a code point, whose last byte is [byte]. *)
Definition escape_char (codepoint byte : Z) : list Z :=
  if codepoint =? 0x08 then [92; 98]
  else if codepoint =? 0x09 then [92; 116]
  else if codepoint =? 0x0A then [92; 110]
  else if codepoint =? 0x0C then [92; 102]
  else if codepoint =? 0x0D then [92; 114]
  else if codepoint =? 0x22 then [92; 34]
  else if codepoint =? 0x5C then [92; 92]
  else if codepoint <=? 0x1F then u_escape codepoint
  else [byte].

Fixpoint escape_loop (s : list Z) (state codep : Z) : res (list Z) :=
  match s with
  | [] => if state =? UTF8_ACCEPT then Ok [] else Throw (json_type_error 316)
  | byte :: s =>
      let '(state, codep) := decode state codep byte in
      if state =? UTF8_REJECT then Throw (json_type_error 316)
      else
        let out := if state =? UTF8_ACCEPT then escape_char codep byte else [byte] in
        rest ← escape_loop s state codep; Ok (out ++ rest)
  end.

Definition dump_escaped (s : string) : res (list Z) := escape_loop (bytes_of s) UTF8_ACCEPT 0.

(** The loop divides by 10000; a 64-bit number needs at most 5 rounds. *)
Fixpoint count_digits_loop (fuel : nat) (x n_digits : Z) : Z :=
  match fuel with
  | O => n_digits
  | S fuel =>
      if x <? 10 then n_digits
      else if x <? 100 then n_digits + 1
      else if x <? 1000 then n_digits + 2
      else if x <? 10000 then n_digits + 3
      else count_digits_loop fuel (x / 10000) (n_digits + 4)
  end.

Definition count_digits (x : Z) : Z := count_digits_loop 5 x 1.

(** The two digits of [digits_to_99[i]]. *)
Definition digits_to_99 (i : Z) : list Z := [48 + i / 10; 48 + i mod 10].

(** The digits written backwards, two at a time. *)
Fixpoint dump_digits (fuel : nat) (abs_value : Z) (acc : list Z) : list Z :=
  match fuel with
  | O => acc
  | S fuel =>
      if 100 <=? abs_value then dump_digits fuel (abs_value / 100) (digits_to_99 (abs_value mod 100) ++ acc)
      else if 10 <=? abs_value then digits_to_99 abs_value ++ acc
      else (48 + abs_value) :: acc
  end.

(** [number_buffer] gets the sign at its front and the digits up to [n_chars]; the first [n_chars]
    characters are written. *)
Definition dump_integer (x : Z) : list Z :=
  if x =? 0 then [48]
  else
    let '(sign, abs_value) := if x <? 0 then ([45], u64 (- (x + 1)) + 1) else ([], x) in
    let n_chars := (length sign + Z.to_nat (count_digits abs_value))%nat in
    let digits := dump_digits 20 abs_value [] in
    take (n_chars - length digits) (sign ++ replicate 64 0) ++ digits.

(** *** Floating-point numbers *)

Definition append_exponent (e : Z) : list Z :=
  let '(sign, k) := if e <? 0 then (45, - e) else (43, e) in
  sign :: (if k <? 10 then [48; 48 + k]
           else if k <? 100 then [48 + k / 10; 48 + k mod 10]
           else [48 + k / 100; 48 + k mod 100 / 10; 48 + k mod 100 mod 10]).

Definition digit_bytes (ds : list Z) : list Z := map (fun d => 48 + d) ds.

Definition format_buffer (ds : list Z) (decimal_exponent min_exp max_exp : Z) : list Z :=
  let k := Z.of_nat (length ds) in
  let n := k + decimal_exponent in
  let buf := digit_bytes ds in
  if (k <=? n) && (n <=? max_exp) then buf ++ replicate (Z.to_nat (n - k)) 48 ++ [46; 48]
  else if (0 <? n) && (n <=? max_exp) then take (Z.to_nat n) buf ++ [46] ++ drop (Z.to_nat n) buf
  else if (min_exp <? n) && (n <=? 0) then [48; 46] ++ replicate (Z.to_nat (- n)) 48 ++ buf
  else
    (if k =? 1 then buf else take 1 buf ++ [46] ++ drop 1 buf) ++ [101] ++ append_exponent (n - 1).

Definition to_chars (x : spec_float) : list Z :=
  match x with
  | S754_zero s => (if s then [45] else []) ++ [48; 46; 48]
  | S754_finite s m e =>
      let '(ds, decimal_exponent) := grisu2_double (Z.pos m) e in
      (if s then [45] else []) ++ format_buffer ds decimal_exponent (-4) 15
  | _ => []
  end.

Definition dump_float (x : spec_float) : list Z :=
  match x with
  | S754_zero _ | S754_finite _ _ _ => to_chars x
  | _ => lit "null"
  end.

(** *** Values *)

(** The numbers of a binary value, separated. *)
Fixpoint dump_bytes (separator : list Z) (bytes : list Z) : list Z :=
  match bytes with
  | [] => []
  | [b] => dump_integer b
  | b :: bytes => dump_integer b ++ separator ++ dump_bytes separator bytes
  end.

Definition dump_subtype (subtype : option Z) : list Z := match subtype with Some t => dump_integer t | None => lit "null" end.

Definition dump_binary (bytes : list Z) (subtype : option Z) : list Z :=
  [123; 34] ++ lit "bytes" ++ [34; 58; 91] ++ dump_bytes [44] bytes ++ [93; 44; 34] ++ lit "subtype" ++ [34; 58] ++ dump_subtype subtype ++ [125].

Fixpoint dump (val : json) : res (list Z) :=
  match val with
  | JObject fields =>
      let fix elements fields :=
        match fields with
        | [] => Ok []
        | [(key, v)] =>
            k ← dump_escaped key; t ← dump v; Ok ([34] ++ k ++ [34; 58] ++ t)
        | (key, v) :: fields =>
            k ← dump_escaped key; t ← dump v; ts ← elements fields; Ok ([34] ++ k ++ [34; 58] ++ t ++ [44] ++ ts)
        end in
      match fields with
      | [] => Ok (lit "{}")
      | _ => ts ← elements fields; Ok ([123] ++ ts ++ [125])
      end
  | JArray items =>
      let fix elements items :=
        match items with
        | [] => Ok []
        | [v] => dump v
        | v :: items => t ← dump v; ts ← elements items; Ok (t ++ [44] ++ ts)
        end in
      match items with
      | [] => Ok (lit "[]")
      | _ => ts ← elements items; Ok ([91] ++ ts ++ [93])
      end
  | JString s => t ← dump_escaped s; Ok ([34] ++ t ++ [34])
  | JBool b => Ok (if b then lit "true" else lit "false")
  | JInt x => Ok (dump_integer x)
  | JFloat x => Ok (dump_float x)
  | JNull => Ok (lit "null")
  | JBinary bytes subtype => Ok (dump_binary bytes subtype)
  end.

(** [dump(indent)] with an indentation: what is written for the log.  The string of blanks is made
    longer whenever it is too short. *)
Definition blanks_of (n : Z) : list Z := replicate (Z.to_nat n) 32.

Fixpoint dump_pretty (indent_step : Z) (val : json) (current_indent : Z) : res (list Z) :=
  let new_indent := u32 (current_indent + indent_step) in
  match val with
  | JObject fields =>
      let fix elements fields :=
        match fields with
        | [] => Ok []
        | [(key, v)] =>
            k ← dump_escaped key; t ← dump_pretty indent_step v new_indent;
            Ok (blanks_of new_indent ++ [34] ++ k ++ [34; 58; 32] ++ t)
        | (key, v) :: fields =>
            k ← dump_escaped key; t ← dump_pretty indent_step v new_indent; ts ← elements fields;
            Ok (blanks_of new_indent ++ [34] ++ k ++ [34; 58; 32] ++ t ++ [44; 10] ++ ts)
        end in
      match fields with
      | [] => Ok (lit "{}")
      | _ => ts ← elements fields; Ok ([123; 10] ++ ts ++ [10] ++ blanks_of current_indent ++ [125])
      end
  | JArray items =>
      let fix elements items :=
        match items with
        | [] => Ok []
        | [v] => t ← dump_pretty indent_step v new_indent; Ok (blanks_of new_indent ++ t)
        | v :: items =>
            t ← dump_pretty indent_step v new_indent; ts ← elements items;
            Ok (blanks_of new_indent ++ t ++ [44; 10] ++ ts)
        end in
      match items with
      | [] => Ok (lit "[]")
      | _ => ts ← elements items; Ok ([91; 10] ++ ts ++ [10] ++ blanks_of current_indent ++ [93])
      end
  | JBinary bytes subtype =>
      Ok ([123; 10] ++ blanks_of new_indent ++ [34] ++ lit "bytes" ++ [34; 58; 32; 91] ++ dump_bytes [44; 32] bytes ++ [93; 44; 10]
          ++ blanks_of new_indent ++ [34] ++ lit "subtype" ++ [34; 58; 32] ++ dump_subtype subtype ++ [10] ++ blanks_of current_indent ++ [125])
  | _ => dump val
  end.

(** ** The lexer *)

Inductive token :=
| T_begin_array | T_end_array | T_begin_object | T_end_object | T_name_separator | T_value_separator
| T_true | T_false | T_null
| T_string (s : list Z) | T_unsigned (z : Z) | T_integer (z : Z) | T_float (x : spec_float)
| T_end_of_input | T_parse_error.

Definition in_range (lo hi b : Z) : bool := (lo <=? b) && (b <=? hi).

Definition hex_value (b : Z) : option Z :=
  if in_range 48 57 b then Some (b - 0x30)
  else if in_range 65 70 b then Some (b - 0x37)
  else if in_range 97 102 b then Some (b - 0x57)
  else None.

(** The code point of the four digits behind [\u]. *)
Definition get_codepoint (l : list Z) : option (Z * list Z) :=
  match l with
  | a :: b :: c :: d :: l =>
      a ← hex_value a; b ← hex_value b; c ← hex_value c; d ← hex_value d;
      Some (Z.shiftl a 12 + Z.shiftl b 8 + Z.shiftl c 4 + d, l)
  | _ => None
  end.

(** The bytes of a code point. *)
Definition utf8_bytes (codepoint : Z) : list Z :=
  if codepoint <? 0x80 then [codepoint]
  else if codepoint <=? 0x7FF then [Z.lor 0xC0 (Z.shiftr codepoint 6); Z.lor 0x80 (Z.land codepoint 0x3F)]
  else if codepoint <=? 0xFFFF then
    [Z.lor 0xE0 (Z.shiftr codepoint 12); Z.lor 0x80 (Z.land (Z.shiftr codepoint 6) 0x3F); Z.lor 0x80 (Z.land codepoint 0x3F)]
  else
    [Z.lor 0xF0 (Z.shiftr codepoint 18); Z.lor 0x80 (Z.land (Z.shiftr codepoint 12) 0x3F);
     Z.lor 0x80 (Z.land (Z.shiftr codepoint 6) 0x3F); Z.lor 0x80 (Z.land codepoint 0x3F)].

(** The escapes of one letter. *)
Definition short_escape (b : Z) : option Z :=
  if b =? 34 then Some 34
  else if b =? 92 then Some 92
  else if b =? 47 then Some 47
  else if b =? 98 then Some 8
  else if b =? 102 then Some 12
  else if b =? 110 then Some 10
  else if b =? 114 then Some 13
  else if b =? 116 then Some 9
  else None.

(** What follows [\u]: the bytes added, and the rest. *)
Definition scan_u_escape (l : list Z) : option (list Z * list Z) :=
  '(codepoint1, l) ← get_codepoint l;
  if in_range 0xD800 0xDBFF codepoint1 then
    match l with
    | x :: y :: l =>
        if (x =? 92) && (y =? 117) then
          '(codepoint2, l) ← get_codepoint l;
          if in_range 0xDC00 0xDFFF codepoint2 then
            Some (utf8_bytes (u32 (u32 (Z.shiftl codepoint1 10) + codepoint2 - 0x35FDC00)), l)
          else None
        else None
    | _ => None
    end
  else if in_range 0xDC00 0xDFFF codepoint1 then None
  else Some (utf8_bytes codepoint1, l).

(** [next_byte_in_range]: the bytes read, or [None]. *)
Fixpoint next_byte_in_range (ranges : list (Z * Z)) (l : list Z) : option (list Z * list Z) :=
  match ranges with
  | [] => Some ([], l)
  | (lo, hi) :: ranges =>
      match l with
      | b :: l =>
          if in_range lo hi b then '(bs, l) ← next_byte_in_range ranges l; Some (b :: bs, l) else None
      | [] => None
      end
  end.

(** The ranges of the bytes that may follow a first byte; [None] for bytes that are ill-formed. *)
Definition follow_ranges (b : Z) : option (list (Z * Z)) :=
  if in_range 0x20 0x7F b then Some []
  else if in_range 0xC2 0xDF b then Some [(0x80, 0xBF)]
  else if b =? 0xE0 then Some [(0xA0, 0xBF); (0x80, 0xBF)]
  else if in_range 0xE1 0xEC b || in_range 0xEE 0xEF b then Some [(0x80, 0xBF); (0x80, 0xBF)]
  else if b =? 0xED then Some [(0x80, 0x9F); (0x80, 0xBF)]
  else if b =? 0xF0 then Some [(0x90, 0xBF); (0x80, 0xBF); (0x80, 0xBF)]
  else if in_range 0xF1 0xF3 b then Some [(0x80, 0xBF); (0x80, 0xBF); (0x80, 0xBF)]
  else if b =? 0xF4 then Some [(0x80, 0x8F); (0x80, 0xBF); (0x80, 0xBF)]
  else None.

(** [scan_string] behind the opening quote, with the bytes added so far; each round reads a byte. *)
Fixpoint scan_string (fuel : nat) (l acc : list Z) : token * list Z :=
  match fuel, l with
  | S fuel, b :: l =>
      if b =? 34 then (T_string acc, l)
      else if b =? 92 then
        match l with
        | c :: l =>
            match short_escape c with
            | Some x => scan_string fuel l (acc ++ [x])
            | None =>
                if c =? 117 then
                  match scan_u_escape l with
                  | Some (bs, l) => scan_string fuel l (acc ++ bs)
                  | None => (T_parse_error, l)
                  end
                else (T_parse_error, l)
            end
        | [] => (T_parse_error, [])
        end
      else
        match follow_ranges b with
        | None => (T_parse_error, l)
        | Some ranges =>
            match next_byte_in_range ranges l with
            | Some (bs, l) => scan_string fuel l (acc ++ b :: bs)
            | None => (T_parse_error, l)
            end
        end
  | _, _ => (T_parse_error, l)
  end.

(** *** Numbers *)

Definition is_digit_byte (b : Z) : bool := in_range 48 57 b.
Definition is_e (b : Z) : bool := (b =? 101) || (b =? 69).

Inductive number_state := N_minus | N_zero | N_any1 | N_decimal1 | N_decimal2 | N_exponent | N_sign | N_any2.

(** The next state on a byte: [None] is [scan_number_done] (or the error in a state that needs
    more). *)
Definition number_next (st : number_state) (b : Z) : option number_state :=
  match st with
  | N_minus => if b =? 48 then Some N_zero else if in_range 49 57 b then Some N_any1 else None
  | N_zero => if b =? 46 then Some N_decimal1 else if is_e b then Some N_exponent else None
  | N_any1 =>
      if is_digit_byte b then Some N_any1 else if b =? 46 then Some N_decimal1 else if is_e b then Some N_exponent else None
  | N_decimal1 => if is_digit_byte b then Some N_decimal2 else None
  | N_decimal2 => if is_digit_byte b then Some N_decimal2 else if is_e b then Some N_exponent else None
  | N_exponent => if (b =? 43) || (b =? 45) then Some N_sign else if is_digit_byte b then Some N_any2 else None
  | N_sign => if is_digit_byte b then Some N_any2 else None
  | N_any2 => if is_digit_byte b then Some N_any2 else None
  end.

Definition number_final (st : number_state) : bool :=
  match st with N_zero | N_any1 | N_decimal2 | N_any2 => true | _ => false end.

(** The state reached, [token_buffer], and the rest. *)
Fixpoint number_loop (st : number_state) (l acc : list Z) : number_state * list Z * list Z :=
  match l with
  | b :: l' =>
      match number_next st b with
      | Some st => number_loop st l' (acc ++ [b])
      | None => (st, acc, l)
      end
  | [] => (st, acc, [])
  end.

Fixpoint digits_val (n : Z) (l : list Z) : Z :=
  match l with
  | b :: l => if is_digit_byte b then digits_val (10 * n + (b - 48)) l else n
  | [] => n
  end.

Fixpoint skip_digits (l : list Z) : list Z :=
  match l with
  | b :: l' => if is_digit_byte b then skip_digits l' else l
  | [] => []
  end.

Definition span_digits (l : list Z) : list Z := take (length l - length (skip_digits l)) l.

(** [strtod] on a text of the grammar above. *)
Definition strtod (text : list Z) : spec_float :=
  let '(neg, l) := match text with b :: l => if b =? 45 then (true, l) else (false, text) | [] => (false, []) end in
  let whole := span_digits l in
  let l := skip_digits l in
  let '(frac, l) := match l with b :: l' => if b =? 46 then (span_digits l', skip_digits l') else ([], l) | [] => ([], []) end in
  let exp :=
    match l with
    | b :: l' =>
        if is_e b then
          match l' with
          | c :: l'' => if c =? 45 then - digits_val 0 l'' else if c =? 43 then digits_val 0 l'' else digits_val 0 l'
          | [] => 0
          end
        else 0
    | [] => 0
    end in
  let x := double_of_decimal (digits_val 0 (whole ++ frac)) (exp - Z.of_nat (length frac)) in
  if (neg : bool) then SFopp x else x.

(** The end of [scan_number]: integers are tried first. *)
Definition convert_number (text : list Z) : token :=
  let is_float := existsb (fun b => (b =? 46) || is_e b) text in
  if is_float then T_float (strtod text)
  else
    match text with
    | b :: ds =>
        if b =? 45 then
          let x := - digits_val 0 ds in
          if - 2 ^ 63 <=? x then T_integer x else T_float (strtod text)
        else
          let x := digits_val 0 text in
          if x <? 2 ^ 64 then T_unsigned x else T_float (strtod text)
    | [] => T_parse_error
    end.

Definition scan_number (b : Z) (l : list Z) : token * list Z :=
  let st := if b =? 45 then N_minus else if b =? 48 then N_zero else N_any1 in
  let '(st, text, l) := number_loop st l [b] in
  (if number_final st then convert_number text else T_parse_error, l).

(** [scan_literal] behind the first letter. *)
Fixpoint scan_literal (rest : list Z) (t : token) (l : list Z) : token * list Z :=
  match rest with
  | [] => (t, l)
  | c :: rest =>
      match l with
      | b :: l => if b =? c then scan_literal rest t l else (T_parse_error, l)
      | [] => (T_parse_error, [])
      end
  end.

Definition is_ws (b : Z) : bool := (b =? 32) || (b =? 9) || (b =? 10) || (b =? 13).

Fixpoint skip_whitespace (l : list Z) : list Z :=
  match l with
  | b :: l' => if is_ws b then skip_whitespace l' else l
  | [] => []
  end.

(** One token behind the byte order mark. *)
Definition scan (l : list Z) : token * list Z :=
  match skip_whitespace l with
  | [] => (T_end_of_input, [])
  | b :: l =>
      if b =? 91 then (T_begin_array, l)
      else if b =? 93 then (T_end_array, l)
      else if b =? 123 then (T_begin_object, l)
      else if b =? 125 then (T_end_object, l)
      else if b =? 58 then (T_name_separator, l)
      else if b =? 44 then (T_value_separator, l)
      else if b =? 116 then scan_literal (lit "rue") T_true l
      else if b =? 102 then scan_literal (lit "alse") T_false l
      else if b =? 110 then scan_literal (lit "ull") T_null l
      else if b =? 34 then scan_string (S (length l)) l []
      else if (b =? 45) || is_digit_byte b then scan_number b l
      else if b =? 0 then (T_end_of_input, l)
      else (T_parse_error, l)
  end.

(** The first call of [scan] skips a byte order mark. *)
Definition first_scan (l : list Z) : token * list Z :=
  match l with
  | b :: l' =>
      if b =? 0xEF then
        match l' with
        | c :: d :: l'' => if (c =? 0xBB) && (d =? 0xBF) then scan l'' else (T_parse_error, l'')
        | _ => (T_parse_error, [])
        end
      else scan l
  | [] => scan []
  end.

(** ** The parser *)

(** An open array with the items so far, the last first, or an open object with its fields and the
    key whose value is read: [states] and [ref_stack] in one. *)
Inductive frame := frame_array (items : list json) | frame_object (fields : list (string * json)) (key : string).

Definition is_finite_float (x : spec_float) : bool :=
  match x with S754_zero _ | S754_finite _ _ _ => true | _ => false end.

(** A token that is a whole value. *)
Definition token_value (t : token) : option (res json) :=
  match t with
  | T_float x => Some (if is_finite_float x then Ok (JFloat x) else Throw (json_out_of_range 406))
  | T_false => Some (Ok (JBool false))
  | T_null => Some (Ok JNull)
  | T_true => Some (Ok (JBool true))
  | T_integer z | T_unsigned z => Some (Ok (JInt z))
  | T_string s => Some (Ok (JString (string_of s)))
  | _ => None
  end.

(** Where the loop is: before a value, with the token read, or behind the value [j]. *)
Inductive point := at_value (t : token) | behind (j : json).

(** A key and its colon, once its first token is read; then the first token of the value. *)
Definition scan_member (t : token) (l : list Z) : res (string * token * list Z) :=
  match t with
  | T_string k =>
      let '(t, l) := scan l in
      match t with
      | T_name_separator => let '(t, l) := scan l in Ok (string_of k, t, l)
      | _ => Throw json_parse_error
      end
  | _ => Throw json_parse_error
  end.

(** One turn of the loop of [sax_parse_internal]: the next point, the rest and the stack, or the
    finished value. *)
Definition sax_step (p : point) (l : list Z) (states : list frame)
    : res (point * list Z * list frame + json * list Z) :=
  match p with
  | at_value T_begin_object =>
      let '(t, l) := scan l in
      match t with
      | T_end_object => Ok (inl (behind (JObject []), l, states))
      | _ =>
          '(key, t, l) ← scan_member t l;
          Ok (inl (at_value t, l, frame_object [] key :: states))
      end
  | at_value T_begin_array =>
      let '(t, l) := scan l in
      match t with
      | T_end_array => Ok (inl (behind (JArray []), l, states))
      | _ => Ok (inl (at_value t, l, frame_array [] :: states))
      end
  | at_value t =>
      match token_value t with
      | Some r => j ← r; Ok (inl (behind j, l, states))
      | None => Throw json_parse_error
      end
  | behind j =>
      match states with
      | [] => Ok (inr (j, l))
      | frame_array items :: states =>
          let '(t, l) := scan l in
          match t with
          | T_value_separator => let '(t, l) := scan l in Ok (inl (at_value t, l, frame_array (j :: items) :: states))
          | T_end_array => Ok (inl (behind (JArray (rev (j :: items))), l, states))
          | _ => Throw json_parse_error
          end
      | frame_object fields key :: states =>
          let '(t, l) := scan l in
          match t with
          | T_value_separator =>
              let '(t, l) := scan l in
              '(key', t, l) ← scan_member t l;
              Ok (inl (at_value t, l, frame_object (obj_set fields key j) key' :: states))
          | T_end_object => Ok (inl (behind (JObject (obj_set fields key j)), l, states))
          | _ => Throw json_parse_error
          end
      end
  end.

(** Two turns read at least one byte, or end: twice the length of the text bounds the loop.  A loop
    that has not ended when the fuel is used up has neither a value nor an exception of the parser. *)
Fixpoint sax_parse_internal (fuel : nat) (p : point) (l : list Z) (states : list frame) : res (json * list Z) :=
  match fuel with
  | O => Throw undefined_behavior
  | S fuel =>
      r ← sax_step p l states;
      match r with
      | inl (p, l, states) => sax_parse_internal fuel p l states
      | inr r => Ok r
      end
  end.

(** [json::parse]. *)
Definition parse (text : list Z) : res json :=
  let '(t, l) := first_scan text in
  '(j, l) ← sax_parse_internal (2 * length text + 2) (at_value t) l [];
  match fst (scan l) with
  | T_end_of_input => Ok j
  | _ => Throw json_parse_error
  end.

Definition dump_string (j : json) : res string := string_of <$> dump j.
Definition parse_string (s : string) : res json := parse (bytes_of s).
