(* ===== verification/JsonSpec.v ===== *)
(** * What the JSON writer writes, the JSON reader reads

    The theorem: every well-formed value (valid UTF-8 strings, 64-bit integers, finite doubles,
    objects in key order) is written without an exception and read back as the same value. *)

From S2P Require Import Prelude Str Grisu Decimal Json JsonText.
From Stdlib Require Import Ascii SpecFloat.
From Stdlib Require String.

(** ** Well-formed values *)

(** The bytes that may follow a first byte in UTF-8, control characters included. *)
Definition seq_ranges (b : Z) : option (list (Z * Z)) := if b <? 0x20 then Some [] else follow_ranges b.

Fixpoint utf8_loop (fuel : nat) (bs : list Z) : bool :=
  match bs, fuel with
  | [], _ => true
  | b :: bs, S fuel =>
      match seq_ranges b with
      | Some rs =>
          match next_byte_in_range rs bs with
          | Some (_, bs) => utf8_loop fuel bs
          | None => false
          end
      | None => false
      end
  | _, O => false
  end.

Definition valid_utf8 (s : string) : bool := utf8_loop (String.length s) (bytes_of s).

Definition canonical_double (x : spec_float) : bool :=
  match x with
  | S754_zero _ => true
  | S754_finite _ m e =>
      (Z.pos m <? 2 ^ 53) && ((2 ^ 52 <=? Z.pos m) || (e =? -1074)) && (-1074 <=? e) && (e <=? 971)
  | _ => false
  end.

(** The keys increase. *)
Fixpoint sorted_keys (fields : list (string * json)) : bool :=
  match fields with
  | (k, _) :: (((k', _) :: _) as fields) =>
      match String.compare k k' with Lt => sorted_keys fields | _ => false end
  | _ => true
  end.

(** Values that read back from their text; binary values are written as objects. *)
Fixpoint wf_json (j : json) : bool :=
  match j with
  | JObject fields =>
      sorted_keys fields
      && (fix all fields := match fields with [] => true | (k, v) :: fields => valid_utf8 k && wf_json v && all fields end) fields
  | JArray items => forallb wf_json items
  | JString s => valid_utf8 s
  | JInt z => (- 2 ^ 63 <=? z) && (z <? 2 ^ 64)
  | JFloat x => canonical_double x
  | JBinary _ _ => false
  | _ => true
  end.

(** ** Strings *)

(** The bytes a state of the decoder waits for. *)
Definition state_ranges (s : Z) : list (Z * Z) :=
  if s =? 2 then [(0x80, 0xBF)]
  else if s =? 3 then [(0x80, 0xBF); (0x80, 0xBF)]
  else if s =? 4 then [(0xA0, 0xBF); (0x80, 0xBF)]
  else if s =? 5 then [(0x80, 0x9F); (0x80, 0xBF)]
  else if s =? 6 then [(0x90, 0xBF); (0x80, 0xBF); (0x80, 0xBF)]
  else if s =? 7 then [(0x80, 0xBF); (0x80, 0xBF); (0x80, 0xBF)]
  else if s =? 8 then [(0x80, 0x8F); (0x80, 0xBF); (0x80, 0xBF)]
  else [].

(** Bounds of the code point read so far: low enough to stay in 32 bits, high enough that a sequence
    of several bytes ends above ASCII. *)
Definition code_lo (s : Z) : Z := if s =? 2 then 2 else if (s =? 4) || (s =? 6) then 0 else 1.
Definition code_hi (s : Z) : Z := if s =? 2 then 2 ^ 15 else if s <=? 5 then 2 ^ 9 else 2 ^ 3.

Definition code_ok (s cp : Z) : bool := (2 <=? s) && (s <=? 8) && (code_lo s <=? cp) && (cp <? code_hi s).

Definition ranges_eqb (a b : list (Z * Z)) : bool := bool_decide (a = b).

(** The first byte of a sequence. *)
Definition lead_check (b : Z) : bool :=
  let '(s, cp) := decode 0 0 b in
  match seq_ranges b with
  | None => true
  | Some [] => (s =? 0) && (cp =? b)
  | Some rs => ranges_eqb (state_ranges s) rs && code_ok s cp
  end.

Lemma lead_ok b : is_byte b -> lead_check b = true.
Proof. intros Hb. apply (forall_below 256 lead_check); [by vm_compute|unfold is_byte in Hb; lia]. Qed.

(** The state behind a byte that continues a sequence. *)
Definition next_check (s b : Z) : bool :=
  match state_ranges s with
  | (lo, hi) :: rs =>
      let s' := fst (decode s 0 b) in
      implb (in_range lo hi b)
        (match rs with
         | [] => s' =? 0
         | _ => ranges_eqb (state_ranges s') rs && (2 <=? s') && (s' <=? 8) && negb (s' =? 0)
                && (code_lo s' <=? code_lo s * 64 + b mod 64) && ((code_hi s - 1) * 64 + b mod 64 <? code_hi s')
         end)
  | [] => true
  end.

Lemma next_ok s b : 0 <= s < 9 -> is_byte b -> next_check s b = true.
Proof. intros Hs Hb. apply (forall_below2 9 256 next_check); [by vm_compute|lia|unfold is_byte in Hb; lia]. Qed.

Lemma decode_state s cp b : fst (decode s cp b) = fst (decode s 0 b).
Proof. done. Qed.

Lemma decode_code s cp b : is_byte b -> s <> 0 -> 0 <= cp < 2 ^ 26 -> snd (decode s cp b) = cp * 64 + b mod 64.
Proof.
  intros Hb Hs Hcp. unfold decode, UTF8_ACCEPT. cbn [snd]. destruct (Z.eqb_spec s 0); [done|]. cbn [negb].
  rewrite Z.shiftl_mul_pow2 by lia. unfold u32. rewrite Z.mod_small by lia. rewrite Z.lor_comm.
  rewrite <- Z.shiftl_mul_pow2 by lia. change 0x3f with (Z.ones 6). rewrite Z.land_ones by lia.
  rewrite lor_shiftl_add; [done|lia|apply Z.mod_pos_bound; lia].
Qed.

Lemma escape_loop_start bs cp : escape_loop bs 0 cp = escape_loop bs 0 0.
Proof. by destruct bs. Qed.

#[local] Arguments decode : simpl never.

Lemma next_byte_app rs : forall l q rest, next_byte_in_range rs l = Some (q, rest) -> l = q ++ rest.
Proof.
  induction rs as [|[lo hi] rs IH]; intros l q rest; cbn; [by intros [= <- <-]|].
  destruct l as [|b l]; [done|]. destruct (in_range lo hi b); [|done].
  destruct (next_byte_in_range rs l) as [[q' r']|] eqn:E; [|done]. cbn. intros [= <- <-]. cbn. by rewrite (IH l q' r').
Qed.

Lemma escape_high cp b : 0x80 <= cp -> escape_char cp b = [b].
Proof.
  intros Hc. unfold escape_char. repeat match goal with |- context [cp =? ?x] => destruct (Z.eqb_spec cp x); [lia|] end.
  by destruct (Z.leb_spec cp 0x1F); [lia|].
Qed.

(** The rest of a sequence is copied. *)
Lemma escape_rest rs : forall s cp l q rest, state_ranges s = rs -> rs <> [] -> code_ok s cp = true -> bytes_ok l ->
  next_byte_in_range rs l = Some (q, rest) ->
  escape_loop l s cp = (out ← escape_loop rest 0 0; Ok (q ++ out)).
Proof.
  induction rs as [|[lo hi] rs IH]; intros s cp l q rest Hs Hne Hok Hb Hn; [done|]. cbn [next_byte_in_range] in Hn.
  destruct l as [|b l]; [done|]. apply Forall_cons in Hb as [Hb Hbl]. destruct (in_range lo hi b) eqn:Hr; [|done].
  destruct (next_byte_in_range rs l) as [[q' r']|] eqn:E; [|done]. cbn in Hn. injection Hn as <- <-.
  unfold code_ok in Hok. breflect. pose proof (next_ok s b ltac:(lia) Hb) as Hnx. unfold next_check in Hnx. rewrite Hs, Hr in Hnx.
  assert (Hhi : code_hi s <= 2 ^ 15) by (unfold code_hi; destruct (s =? 2), (s <=? 5); lia).
  assert (Hlo : 0 <= code_lo s) by (unfold code_lo; destruct (s =? 2), ((s =? 4) || (s =? 6)); lia).
  cbn [escape_loop]. rewrite (surjective_pairing (decode s cp b)), decode_state, decode_code by lia || done.
  destruct rs as [|r2 rs].
  - cbn in Hnx. breflect. rewrite Hnx. cbn [Z.eqb UTF8_REJECT UTF8_ACCEPT].
    assert (s = 2) as ->.
    { clear -Hs. unfold state_ranges in Hs. repeat (match type of Hs with context [if ?c then _ else _] => destruct c eqn:? end; [breflect; done|]). done. }
    cbn in E. injection E as <- <-. change (code_lo 2) with 2 in *. pose proof (Z.mod_pos_bound b 64).
    rewrite escape_high by lia. rewrite escape_loop_start. by destruct (escape_loop l 0 0).
  - cbn [implb] in Hnx. breflect. apply bool_decide_eq_true in H3. set (s' := fst (decode s 0 b)) in *.
    assert (s' =? UTF8_REJECT = false) as -> by (unfold UTF8_REJECT; lia).
    assert (s' =? UTF8_ACCEPT = false) as -> by (unfold UTF8_ACCEPT; lia).
    rewrite (IH s' _ l q' r' H3); [|done| |done|done].
    + by destruct (escape_loop r' 0 0).
    + unfold code_ok. repeat (apply andb_true_intro; split); try (by apply Z.leb_le); [apply Z.leb_le|apply Z.ltb_lt]; lia.
Qed.

(** A byte below 32 by enumeration. *)
Lemma below32 (P : Z -> Prop) : Forall P (map Z.of_nat (List.seq 0 32)) -> forall b, 0 <= b < 32 -> P b.
Proof.
  intros H b Hb. rewrite Forall_forall in H. apply H, list_elem_of_In, in_map_iff. exists (Z.to_nat b).
  split; [lia|]. apply in_seq. lia.
Qed.

Lemma scan_control b fuel l acc : 0 <= b < 32 -> scan_string (S fuel) (escape_char b b ++ l) acc = scan_string fuel l (acc ++ [b]).
Proof.
  revert b. apply below32. cbn [List.seq map]. repeat (apply Forall_cons_2; [reflexivity|]). constructor.
Qed.

Lemma scan_ascii b fuel l acc : 0 <= b < 128 -> scan_string (S fuel) (escape_char b b ++ l) acc = scan_string fuel l (acc ++ [b]).
Proof.
  intros Hb. destruct (Z.lt_ge_cases b 32) as [Hc|Hc]; [apply scan_control; lia|].
  destruct (Z.eqb_spec b 34) as [->|H1]; [reflexivity|]. destruct (Z.eqb_spec b 92) as [->|H2]; [reflexivity|].
  assert (escape_char b b = [b]) as ->.
  { unfold escape_char. repeat match goal with |- context [b =? ?x] => destruct (Z.eqb_spec b x); [lia|] end.
    by destruct (Z.leb_spec b 0x1F); [lia|]. }
  cbn [app scan_string]. destruct (Z.eqb_spec b 34); [done|]. destruct (Z.eqb_spec b 92); [done|].
  unfold follow_ranges. assert (in_range 0x20 0x7F b = true) as -> by (unfold in_range; lia). done.
Qed.

Lemma follow_ranges_cases b rs : seq_ranges b = Some rs -> rs <> [] -> b <> 34 /\ b <> 92 /\ follow_ranges b = Some rs.
Proof.
  unfold seq_ranges. destruct (b <? 0x20); [by intros [= <-]|]. intros H Hne. split_and!; [| |done].
  - intros ->. vm_compute in H. by injection H as <-.
  - intros ->. vm_compute in H. by injection H as <-.
Qed.

(** The rest of the sequence is read back as written. *)
Lemma next_byte_rest rs : forall l q rest l', next_byte_in_range rs l = Some (q, rest) ->
  next_byte_in_range rs (q ++ l') = Some (q, l').
Proof.
  induction rs as [|[lo hi] rs IH]; intros l q rest l'; cbn; [by intros [= <- <-]|].
  destruct l as [|b l]; [done|]. destruct (in_range lo hi b) eqn:Hr; [|done].
  destruct (next_byte_in_range rs l) as [[q' r']|] eqn:E; [|done]. cbn. intros [= <- <-]. cbn. rewrite Hr.
  by rewrite (IH l q' r' l').
Qed.

Lemma scan_escaped n : forall bs, utf8_loop n bs = true -> bytes_ok bs -> exists out, escape_loop bs 0 0 = Ok out
  /\ forall fuel rest acc, (length out < fuel)%nat -> scan_string fuel (out ++ 34 :: rest) acc = (T_string (acc ++ bs), rest).
Proof.
  induction n as [|n IH]; intros [|b bs] Hu Hb; cbn [utf8_loop] in Hu; try done.
  1,2: exists []; split; [done|]; intros [|fuel] rest acc Hf; [cbn in Hf; lia|]; by rewrite app_nil_r.
  destruct (seq_ranges b) as [rs|] eqn:Hs; [|done]. destruct (next_byte_in_range rs bs) as [[q rest]|] eqn:Hn; [|done].
  pose proof (next_byte_app _ _ _ _ Hn) as Eb. apply Forall_cons in Hb as [Hb Hbl].
  pose proof Hbl as Hbr. rewrite Eb in Hbr. apply Forall_app in Hbr as [_ Hbr].
  destruct (IH rest Hu Hbr) as (out & Eo & Ho). pose proof (lead_ok b Hb) as Hl. unfold lead_check in Hl.
  cbn [escape_loop]. destruct (decode 0 0 b) as [s cp]. rewrite Hs in Hl. destruct rs as [|r rs].
  - breflect. subst s cp. cbn in Hn. injection Hn as <- <-. cbn [Z.eqb UTF8_REJECT UTF8_ACCEPT].
    rewrite escape_loop_start, Eo. eexists. split; [done|]. intros [|fuel] rest' acc Hf; [lia|]. rewrite <- app_assoc, scan_ascii.
    + rewrite Ho; [by rewrite <- app_assoc|]. rewrite length_app in Hf.
      assert (0 < length (escape_char b b))%nat; [|lia]. unfold escape_char. repeat case_match; cbn; lia.
    + unfold is_byte in Hb. split; [lia|]. unfold seq_ranges in Hs. destruct (Z.ltb_spec b 0x20); [lia|].
      unfold follow_ranges, in_range in Hs. destruct (Z.leb_spec 0x20 b), (Z.leb_spec b 0x7F); cbn in Hs; try lia.
      by repeat (match type of Hs with context [if ?c then _ else _] => destruct c end; [by injection Hs|]).
  - breflect. apply bool_decide_eq_true in H.
    assert (2 <= s) by (unfold code_ok in *; breflect; done).
    assert (s =? UTF8_REJECT = false) as -> by (unfold UTF8_REJECT; lia).
    assert (s =? UTF8_ACCEPT = false) as -> by (unfold UTF8_ACCEPT; lia).
    rewrite (escape_rest (r :: rs) s cp bs q rest), Eo by done. eexists. split; [done|]. intros [|fuel] rest' acc Hf; [cbn in Hf; lia|].
    destruct (follow_ranges_cases b _ Hs ltac:(done)) as (H34 & H92 & Hfr). cbn [app scan_string].
    destruct (Z.eqb_spec b 34); [done|]. destruct (Z.eqb_spec b 92); [done|]. rewrite Hfr, <- app_assoc.
    rewrite (next_byte_rest _ _ _ _ _ Hn). rewrite Ho.
    + by rewrite <- app_assoc, Eb.
    + cbn in Hf. rewrite length_app in Hf. lia.
Qed.

(** ** Integers *)

Definition digit_list (ds : list Z) : Prop := Forall (fun b => is_digit_byte b = true) ds.

Lemma digits_val_app ds : forall n l, digit_list ds -> digits_val n (ds ++ l) = digits_val (digits_val n ds) l.
Proof. induction ds as [|b ds IH]; intros n l Hd; [done|]. apply Forall_cons in Hd as [Hb Hd]. cbn. rewrite Hb. by apply IH. Qed.

Lemma digit_byte d : 0 <= d <= 9 -> is_digit_byte (48 + d) = true.
Proof. intros. unfold is_digit_byte, in_range. lia. Qed.

(** A number, its digits without leading zeros and their count. *)
Definition decimal_of (n : Z) (ds : list Z) : Prop :=
  digit_list ds /\ digits_val 0 ds = n /\ 10 ^ (Z.of_nat (length ds) - 1) <= n < 10 ^ Z.of_nat (length ds)
  /\ exists b rest, ds = b :: rest /\ 49 <= b <= 57.

Lemma digits_to_99_val i n : 0 <= i < 100 -> digits_val n (digits_to_99 i) = 100 * n + i /\ digit_list (digits_to_99 i).
Proof.
  intros Hi. pose proof (Z.div_mod i 10 ltac:(lia)). pose proof (Z.mod_pos_bound i 10 ltac:(lia)).
  assert (0 <= i / 10 <= 9) by (split; [apply Z.div_pos; lia|apply Z.lt_succ_r, Z.div_lt_upper_bound; lia]).
  unfold digits_to_99. cbn [digits_val]. rewrite !digit_byte by lia. split; [lia|].
  repeat constructor; apply digit_byte; lia.
Qed.

Lemma dump_digits_spec fuel : forall n acc, 0 < n < 100 ^ Z.of_nat fuel -> exists ds,
  dump_digits fuel n acc = ds ++ acc /\ decimal_of n ds.
Proof.
  induction fuel as [|fuel IH]; intros n acc Hn; [cbn in Hn; lia|]. cbn [dump_digits].
  destruct (Z.leb_spec 100 n) as [H100|H100].
  - rewrite Nat2Z.inj_succ, Z.pow_succ_r in Hn by lia.
    pose proof (Z.div_mod n 100 ltac:(lia)) as Ed. pose proof (Z.mod_pos_bound n 100 ltac:(lia)) as Hm.
    destruct (IH (n / 100) (digits_to_99 (n mod 100) ++ acc)) as (ds & -> & (Hd & Hv & Hl & b & rest & -> & Hb)).
    { split; [apply Z.div_str_pos; lia|apply Z.div_lt_upper_bound; lia]. }
    exists ((b :: rest) ++ digits_to_99 (n mod 100)). split; [by rewrite <- app_assoc|].
    destruct (digits_to_99_val (n mod 100) (n / 100) Hm) as [V D].
    split; [by apply Forall_app|]. split; [rewrite digits_val_app, Hv by done; lia|].
    split; [|by exists b, (rest ++ digits_to_99 (n mod 100))]. rewrite length_app. set (k := length (b :: rest)) in *.
    change (length (digits_to_99 (n mod 100))) with 2%nat.
    assert (Hk : (1 <= k)%nat) by (unfold k; cbn; lia). clearbody k.
    replace (Z.of_nat (k + 2) - 1) with (2 + (Z.of_nat k - 1)) by lia. replace (Z.of_nat (k + 2)) with (2 + Z.of_nat k) by lia.
    rewrite !Z.pow_add_r by lia. change (10 ^ 2) with 100. lia.
  - destruct (Z.leb_spec 10 n) as [H10|H10].
    + exists (digits_to_99 n). split; [done|]. destruct (digits_to_99_val n 0 ltac:(lia)) as [V D]. split; [done|]. split; [lia|].
      split; [cbn; lia|]. eexists _, _. split; [done|]. pose proof (Z.div_mod n 10 ltac:(lia)). pose proof (Z.mod_pos_bound n 10 ltac:(lia)). lia.
    + exists [48 + n]. split; [done|]. split; [by repeat constructor; apply digit_byte; lia|].
      split; [cbn [digits_val]; rewrite digit_byte by lia; lia|]. split; [cbn; lia|]. exists (48 + n), []. split; [done|lia].
Qed.

Lemma count_digits_loop_spec fuel : forall n k, 0 < n < 10000 ^ Z.of_nat fuel -> exists c,
  count_digits_loop fuel n (k + 1) = k + c /\ 0 < c /\ 10 ^ (c - 1) <= n < 10 ^ c.
Proof.
  induction fuel as [|fuel IH]; intros n k Hn; [cbn in Hn; lia|]. cbn [count_digits_loop].
  destruct (Z.ltb_spec n 10); [exists 1; cbn; lia|]. destruct (Z.ltb_spec n 100); [exists 2; cbn; lia|].
  destruct (Z.ltb_spec n 1000); [exists 3; cbn; lia|]. destruct (Z.ltb_spec n 10000); [exists 4; cbn; lia|].
  rewrite Nat2Z.inj_succ, Z.pow_succ_r in Hn by lia.
  pose proof (Z.div_mod n 10000 ltac:(lia)). pose proof (Z.mod_pos_bound n 10000 ltac:(lia)).
  destruct (IH (n / 10000) (k + 4)) as (c & E & Hc & Hr).
  { split; [apply Z.div_str_pos; lia|apply Z.div_lt_upper_bound; lia]. }
  replace (k + 1 + 4) with (k + 4 + 1) by lia. exists (c + 4). split; [lia|]. split; [lia|].
  replace (c + 4 - 1) with (4 + (c - 1)) by lia. replace (c + 4) with (4 + c) by lia. rewrite !Z.pow_add_r by lia.
  change (10 ^ 4) with 10000. lia.
Qed.

(** The digits fill the space counted for them exactly. *)
Lemma digit_count n ds : 0 < n < 2 ^ 64 -> decimal_of n ds -> Z.to_nat (count_digits n) = length ds.
Proof.
  intros Hn (_ & _ & Hl & b & rest & E & _). unfold count_digits.
  destruct (count_digits_loop_spec 5 n 0) as (c & Ec & Hc & Hr); [lia|]. change (0 + 1) with 1 in Ec. rewrite Ec. assert (0 < Z.of_nat (length ds)) by (rewrite E; cbn; lia).
  set (k := Z.of_nat (length ds)) in *. assert (c = k); [|lia]. clearbody k.
  destruct (Z.lt_trichotomy c k) as [Hlt|[Heq|Hgt]]; [|done|].
  - assert (10 ^ c <= 10 ^ (k - 1)) by (apply Z.pow_le_mono_r; lia). lia.
  - assert (10 ^ k <= 10 ^ (c - 1)) by (apply Z.pow_le_mono_r; lia). lia.
Qed.

Lemma dump_integer_spec x : - 2 ^ 63 <= x < 2 ^ 64 -> x <> 0 -> exists ds,
  dump_integer x = (if x <? 0 then [45] else []) ++ ds /\ decimal_of (Z.abs x) ds.
Proof.
  intros Hx Hne. unfold dump_integer. destruct (Z.eqb_spec x 0) as [|_]; [done|].
  assert (Hfill : forall sign n, 0 < n < 2 ^ 64 -> exists ds,
    take (length sign + Z.to_nat (count_digits n) - length (dump_digits 20 n [])) (sign ++ replicate 64 0) ++ dump_digits 20 n []
    = sign ++ ds /\ decimal_of n ds).
  { intros sign n Hn. destruct (dump_digits_spec 20 n []) as (ds & -> & Hd); [lia|]. rewrite app_nil_r.
    rewrite (digit_count n ds) by done. replace (length sign + length ds - length ds)%nat with (length sign) by lia.
    rewrite take_app_length. by exists ds. }
  destruct (Z.ltb_spec x 0) as [H|H].
  - rewrite u64_id by lia. replace (- (x + 1) + 1) with (Z.abs x) by lia. apply (Hfill [45]). lia.
  - replace (Z.abs x) with x by lia. apply (Hfill []). lia.
Qed.

(** ** Numbers *)

(** The end of the text, or a byte that ends a number. *)
Definition delimited (rest : list Z) : Prop :=
  match rest with [] => True | b :: _ => b = 44 \/ b = 93 \/ b = 125 end.

Lemma number_loop_app st l : forall st' acc rest, number_loop st l acc = (st', acc ++ l, []) ->
  number_loop st (l ++ rest) acc = number_loop st' rest (acc ++ l).
Proof.
  revert st. induction l as [|b l IH]; intros st st' acc rest; cbn.
  { intros [= <- ]. by rewrite app_nil_r. }
  destruct (number_next st b) as [s|]; [|by intros [= ]].
  replace (acc ++ b :: l) with ((acc ++ [b]) ++ l) by (by rewrite <- app_assoc). apply IH.
Qed.

Lemma number_loop_delimited st rest acc : number_final st = true -> delimited rest -> number_loop st rest acc = (st, acc, rest).
Proof. intros Hf Hr. destruct rest as [|b rest]; [done|]. destruct Hr as [->|[->| ->]]; by destruct st. Qed.

Lemma number_loop_digits st ds : forall acc rest, digit_list ds -> number_next st 48 = Some st -> st <> N_minus ->
  number_loop st (ds ++ rest) acc = number_loop st rest (acc ++ ds).
Proof.
  induction ds as [|b ds IH]; intros acc rest Hd Hs Hne; cbn; [by rewrite app_nil_r|].
  apply Forall_cons in Hd as [Hb Hd].
  assert (number_next st b = Some st) as ->.
  { destruct st; try done; unfold number_next; by rewrite Hb. }
  rewrite IH by done. by rewrite <- app_assoc.
Qed.

Lemma digit_not_float ds : digit_list ds -> existsb (fun b => (b =? 46) || is_e b) ds = false.
Proof.
  induction 1 as [|b ds Hb _ IH]; [done|]. cbn. rewrite IH. unfold is_e. unfold is_digit_byte, in_range in Hb. lia.
Qed.

Lemma scan_integer x rest : - 2 ^ 63 <= x < 2 ^ 64 -> delimited rest -> exists b l,
  dump_integer x = b :: l /\ (b = 45 \/ is_digit_byte b = true)
  /\ scan_number b (l ++ rest) = (if x <? 0 then T_integer x else T_unsigned x, rest).
Proof.
  intros Hx Hr. destruct (Z.eq_dec x 0) as [->|Hne].
  { exists 48, []. split; [done|]. split; [by right|]. unfold scan_number. cbn [app].
    change (number_loop _ rest [48]) with (number_loop N_zero rest [48]). by rewrite number_loop_delimited. }
  destruct (dump_integer_spec x Hx Hne) as (ds & -> & Hd & Hv & _ & b & ds' & -> & Hb).
  pose proof Hd as Hd'. apply Forall_cons in Hd' as [Hdb Hd'].
  destruct (Z.ltb_spec x 0).
  - exists 45, (b :: ds'). split; [done|]. split; [by left|]. unfold scan_number. change (45 =? 45) with true. cbn [app number_loop number_next].
    destruct (Z.eqb_spec b 48); [lia|]. assert (in_range 49 57 b = true) as -> by (unfold in_range; lia).
    rewrite number_loop_digits, number_loop_delimited by done. cbn [number_final]. f_equal. unfold convert_number.
    assert (existsb (fun b => (b =? 46) || is_e b) ([45; b] ++ ds') = false) as -> by exact (digit_not_float (b :: ds') Hd).
    change ([45; b] ++ ds') with (45 :: b :: ds').
    change (45 =? 45) with true. cbn iota. rewrite Hv. replace (- Z.abs x) with x by lia. destruct (Z.leb_spec (- 2 ^ 63) x); [done|lia].
  - exists b, ds'. split; [done|]. split; [by right|]. unfold scan_number.
    destruct (Z.eqb_spec b 45); [lia|]. destruct (Z.eqb_spec b 48); [lia|].
    rewrite number_loop_digits, number_loop_delimited by done. cbn [number_final]. f_equal. unfold convert_number.
    change ([b] ++ ds') with (b :: ds'). rewrite digit_not_float by done. destruct (Z.eqb_spec b 45); [lia|]. rewrite Hv.
    replace (Z.abs x) with x by lia. destruct (Z.ltb_spec x (2 ^ 64)); [done|lia].
Qed.

(** The parts of a floating-point text: the whole part, the fraction and the exponent. *)
Definition whole_ok (w : list Z) : Prop := w = [48] \/ exists b ds, w = b :: ds /\ 49 <= b <= 57 /\ digit_list ds.

Definition frac_text (frac : list Z) : list Z := match frac with [] => [] | _ => 46 :: frac end.

Definition exp_text (ex : option (bool * list Z)) : list Z :=
  match ex with Some (neg, ds) => 101 :: (if (neg : bool) then 45 else 43) :: ds | None => [] end.

Definition exp_value (ex : option (bool * list Z)) : Z :=
  match ex with Some (neg, ds) => if (neg : bool) then - digits_val 0 ds else digits_val 0 ds | None => 0 end.

Definition exp_ok (ex : option (bool * list Z)) : Prop :=
  match ex with Some (_, ds) => digit_list ds /\ ds <> [] | None => True end.

Definition sign_text (neg : bool) : list Z := if neg then [45] else [].

Lemma number_start neg w tl : whole_ok w -> exists b l st, sign_text neg ++ w = b :: l /\ (b = 45 \/ is_digit_byte b = true)
  /\ (st = N_zero \/ st = N_any1)
  /\ number_loop (if b =? 45 then N_minus else if b =? 48 then N_zero else N_any1) (l ++ tl) [b] = number_loop st tl (sign_text neg ++ w).
Proof.
  intros [->|(b & ds & -> & Hb & Hd)].
  - destruct neg; eexists _, _, N_zero; (split; [done|]); (split; [auto|]); by (split; [auto|]).
  - assert (Hdb : is_digit_byte b = true) by (unfold is_digit_byte, in_range; lia).
    destruct neg; eexists _, _, N_any1; (split; [done|]); (split; [auto|]); (split; [auto|]).
    + change (45 =? 45) with true. cbn [app number_loop number_next sign_text].
      destruct (Z.eqb_spec b 48); [lia|]. assert (in_range 49 57 b = true) as -> by (unfold in_range; lia).
      by rewrite number_loop_digits.
    + destruct (Z.eqb_spec b 45); [lia|]. destruct (Z.eqb_spec b 48); [lia|]. by rewrite number_loop_digits.
Qed.

Lemma number_frac st frac tl acc : st = N_zero \/ st = N_any1 -> digit_list frac -> exists st',
  number_loop st (frac_text frac ++ tl) acc = number_loop st' tl (acc ++ frac_text frac)
  /\ (st' = N_zero \/ st' = N_any1 \/ st' = N_decimal2).
Proof.
  intros Hst Hd. destruct frac as [|d frac]; [exists st; cbn; rewrite app_nil_r; tauto|].
  apply Forall_cons in Hd as [Hb Hd]. exists N_decimal2. split; [|auto]. cbn [frac_text app].
  assert (number_loop st (46 :: d :: frac ++ tl) acc = number_loop N_decimal2 (frac ++ tl) (acc ++ [46; d])) as ->.
  { destruct Hst as [-> | ->]; cbn; rewrite Hb, <- app_assoc; done. }
  rewrite number_loop_digits by done. by rewrite <- app_assoc.
Qed.

Lemma number_exp st ex tl acc : st = N_zero \/ st = N_any1 \/ st = N_decimal2 -> exp_ok ex -> exists st',
  number_loop st (exp_text ex ++ tl) acc = number_loop st' tl (acc ++ exp_text ex) /\ number_final st' = true.
Proof.
  intros Hst Hx. destruct ex as [[neg ds]|]; [|exists st; cbn; rewrite app_nil_r; split; [done|]; by destruct Hst as [->|[->| ->]]].
  destruct Hx as [Hd Hne]. destruct ds as [|d ds]; [done|]. apply Forall_cons in Hd as [Hb Hd]. exists N_any2. split; [|done].
  cbn [exp_text app]. set (s := if neg then 45 else 43).
  assert (number_loop st (101 :: s :: d :: ds ++ tl) acc = number_loop N_any2 (ds ++ tl) (acc ++ [101; s; d])) as ->.
  { destruct neg, Hst as [->|[->| ->]]; cbn; rewrite Hb, <- !app_assoc; done. }
  rewrite number_loop_digits by done. by rewrite <- app_assoc.
Qed.

Definition ends_digits (l : list Z) : Prop := match l with [] => True | b :: _ => is_digit_byte b = false end.

Lemma skip_digits_app ds l : digit_list ds -> ends_digits l -> skip_digits (ds ++ l) = l.
Proof. induction 1 as [|b ds Hb _ IH]; intros Hl; cbn; [|by rewrite Hb, IH]. destruct l; [done|]. cbn in *. by rewrite Hl. Qed.

Lemma span_digits_app ds l : digit_list ds -> ends_digits l -> span_digits (ds ++ l) = ds.
Proof.
  intros Hd Hl. unfold span_digits. rewrite skip_digits_app by done. rewrite length_app.
  replace (length ds + length l - length l)%nat with (length ds) by lia. apply take_app_length.
Qed.

Lemma ends_exp ex : ends_digits (exp_text ex).
Proof. by destruct ex as [[]|]. Qed.

Lemma whole_digits w : whole_ok w -> digit_list w /\ exists b l, w = b :: l /\ b <> 45.
Proof.
  intros [->|(b & ds & -> & Hb & Hd)]; [split; [by repeat constructor|by exists 48, []]|].
  split; [constructor; [unfold is_digit_byte, in_range; lia|done]|]. exists b, ds. split; [done|lia].
Qed.

Definition signed_double (neg : bool) (x : spec_float) : spec_float := if neg then SFopp x else x.

Lemma strtod_text neg w frac ex : whole_ok w -> digit_list frac -> exp_ok ex ->
  strtod (sign_text neg ++ w ++ frac_text frac ++ exp_text ex)
  = signed_double neg (double_of_decimal (digits_val 0 (w ++ frac)) (exp_value ex - Z.of_nat (length frac))).
Proof.
  intros Hw Hf Hx. destruct (whole_digits w Hw) as [Hd (b & l & Ew & Hb)]. unfold strtod.
  set (body := w ++ frac_text frac ++ exp_text ex).
  assert (E : match sign_text neg ++ body with b :: l => if b =? 45 then (true, l) else (false, sign_text neg ++ body) | [] => (false, []) end
              = (neg, body)).
  { destruct neg; [done|]. unfold body. rewrite Ew. cbn. by destruct (Z.eqb_spec b 45). }
  rewrite E. unfold body. clear E body.
  assert (He : ends_digits (frac_text frac ++ exp_text ex)) by (destruct frac; [apply ends_exp|done]).
  rewrite span_digits_app, skip_digits_app by done.
  assert (E : match frac_text frac ++ exp_text ex with
              | b :: l' => if b =? 46 then (span_digits l', skip_digits l') else ([], frac_text frac ++ exp_text ex)
              | [] => ([], []) end = (frac, exp_text ex)).
  { destruct frac as [|d frac]; [by destruct ex as [[[] ?]|]|]. cbn [frac_text app]. change (46 =? 46) with true. cbn iota.
    rewrite app_comm_cons, span_digits_app, skip_digits_app by (done || apply ends_exp). done. }
  rewrite E. by destruct ex as [[[] ds]|].
Qed.

Lemma scan_float neg w frac ex rest : whole_ok w -> digit_list frac -> exp_ok ex -> frac <> [] \/ ex <> None -> delimited rest ->
  exists b l, sign_text neg ++ w ++ frac_text frac ++ exp_text ex = b :: l /\ (b = 45 \/ is_digit_byte b = true)
  /\ scan_number b (l ++ rest)
     = (T_float (signed_double neg (double_of_decimal (digits_val 0 (w ++ frac)) (exp_value ex - Z.of_nat (length frac)))), rest).
Proof.
  intros Hw Hf Hx Hfl Hr. set (tl := frac_text frac ++ exp_text ex).
  destruct (number_start neg w (tl ++ rest) Hw) as (b & l & st & E & Hb & Hst & Hloop).
  exists b, (l ++ tl). split; [by rewrite app_assoc, E|]. split; [done|]. unfold scan_number.
  rewrite <- app_assoc, Hloop. unfold tl. rewrite <- app_assoc.
  destruct (number_frac st frac (exp_text ex ++ rest) (sign_text neg ++ w) Hst Hf) as (st' & -> & Hst').
  destruct (number_exp st' ex rest ((sign_text neg ++ w) ++ frac_text frac) Hst' Hx) as (st'' & -> & Hfin).
  rewrite number_loop_delimited, Hfin by done. f_equal. rewrite <- !app_assoc. unfold convert_number.
  rewrite (proj2 (existsb_exists _ _)); [by rewrite strtod_text|].
  assert (In 46 (frac_text frac) \/ In 101 (exp_text ex)) as [Hi|Hi].
  { destruct Hfl as [Hne|Hne]; [left; destruct frac; [done|by left]|right; destruct ex as [[]|]; [by left|done]]. }
  - exists 46. split; [|done]. rewrite !in_app_iff. tauto.
  - exists 101. split; [|done]. rewrite !in_app_iff. tauto.
Qed.

(** ** Floating-point numbers *)

Lemma digit_bytes_ok ds : Forall (fun d => 0 <= d <= 9) ds -> digit_list (digit_bytes ds).
Proof. induction 1; constructor; [by apply digit_byte|done]. Qed.

Lemma digits_val_bytes ds : forall n, Forall (fun d => 0 <= d <= 9) ds -> digits_val n (digit_bytes ds) = foldl (fun n d => 10 * n + d) n ds.
Proof.
  induction ds as [|d ds IH]; intros n Hd; [done|]. apply Forall_cons in Hd as [Hb Hd]. cbn. rewrite digit_byte by done.
  rewrite IH by done. f_equal. lia.
Qed.

Lemma zeros_ok n : digit_list (replicate n 48).
Proof. induction n; by constructor. Qed.

Lemma digits_val_zeros n : forall x, digits_val x (replicate n 48) = x * 10 ^ Z.of_nat n.
Proof.
  induction n as [|n IH]; intros x; [cbn; lia|]. cbn [replicate digits_val]. change (is_digit_byte 48) with true. cbn iota.
  rewrite IH, Nat2Z.inj_succ, Z.pow_succ_r by lia. ring.
Qed.

Definition exponent_bytes (k : Z) : list Z :=
  if k <? 10 then [48; 48 + k]
  else if k <? 100 then [48 + k / 10; 48 + k mod 10]
  else [48 + k / 100; 48 + k mod 100 / 10; 48 + k mod 100 mod 10].

Definition exponent_check (k : Z) : bool :=
  forallb is_digit_byte (exponent_bytes k) && (digits_val 0 (exponent_bytes k) =? k).

Lemma exponent_digits k : 0 <= k < 1000 ->
  digit_list (exponent_bytes k) /\ exponent_bytes k <> [] /\ digits_val 0 (exponent_bytes k) = k.
Proof.
  intros Hk. assert (H : exponent_check k = true) by (apply (forall_below 1000 exponent_check); [by vm_compute|lia]).
  apply andb_true_iff in H as [Hd Hv]. split; [by apply List.Forall_forall, List.forallb_forall|].
  split; [unfold exponent_bytes; by repeat case_match|lia].
Qed.

(** The digits behind the sign of the exponent. *)
Lemma append_exponent_text e : - 1000 < e < 1000 -> exists ds,
  101 :: append_exponent e = exp_text (Some (e <? 0, ds)) /\ exp_ok (Some (e <? 0, ds)) /\ exp_value (Some (e <? 0, ds)) = e.
Proof.
  intros He. set (k := Z.abs e).
  assert (H : exists ds, append_exponent e = (if e <? 0 then 45 else 43) :: ds /\ digit_list ds /\ ds <> [] /\ digits_val 0 ds = k).
  { unfold append_exponent. destruct (Z.ltb_spec e 0); [replace (- e) with k by lia|replace e with k by lia];
      (eexists; split; [done|]; apply (exponent_digits k); lia). }
  destruct H as (ds & E & Hd & Hne & Hv). exists ds. rewrite E. split; [done|]. split; [done|]. cbn.
  destruct (Z.ltb_spec e 0); lia.
Qed.

(** What the writer puts for the digits [ds] at the exponent [x]: a floating-point text whose value is
    the same number, written with the same digits or with [10 ^ (x + 1)] multiplied in. *)
Lemma format_buffer_text ds x : Forall (fun d => 0 <= d <= 9) ds -> (exists d, head ds = Some d /\ 0 < d) ->
  - 1000 < Z.of_nat (length ds) + x - 1 < 1000 -> exists w frac ex,
  format_buffer ds x (-4) 15 = w ++ frac_text frac ++ exp_text ex /\ whole_ok w /\ digit_list frac /\ exp_ok ex
  /\ (frac <> [] \/ ex <> None)
  /\ (digits_val 0 (w ++ frac) = decimal_value ds /\ exp_value ex - Z.of_nat (length frac) = x
      \/ 0 <= x /\ digits_val 0 (w ++ frac) = decimal_value ds * 10 ^ x * 10 /\ exp_value ex - Z.of_nat (length frac) = -1).
Proof.
  intros Hd (d & Hh & Hp) Hn. destruct ds as [|d' ds]; [done|]. injection Hh as ->.
  pose proof (digit_bytes_ok _ Hd) as Hb. pose proof (digits_val_bytes (d :: ds) 0 Hd) as Hv. fold (decimal_value (d :: ds)) in Hv.
  assert (Hd9 : 0 < d <= 9) by (apply Forall_cons in Hd as [? _]; lia).
  assert (Hw : forall l, digit_list l -> whole_ok (48 + d :: l)) by (intros l ?; right; exists (48 + d), l; split; [done|split; [lia|done]]).
  set (n := Z.of_nat (length (d :: ds)) + x) in *. set (k := Z.of_nat (length (d :: ds))) in *.
  assert (Hk : length (digit_bytes (d :: ds)) = Z.to_nat k) by (unfold digit_bytes; rewrite length_map; lia).
  change (digit_bytes (d :: ds)) with (48 + d :: digit_bytes ds) in *. unfold format_buffer. fold k. fold n.
  change (digit_bytes (d :: ds)) with (48 + d :: digit_bytes ds).
  pose proof Hb as Hb'. apply Forall_cons in Hb' as [Hb0 Hb'].
  destruct ((k <=? n) && (n <=? 15)) eqn:C1; breflect.
  { exists (48 + d :: digit_bytes ds ++ replicate (Z.to_nat (n - k)) 48), [48], None.
    split; [by cbn; rewrite <- app_assoc|]. split; [apply Hw, Forall_app; split; [done|apply zeros_ok]|].
    split; [by repeat constructor|]. split; [done|]. split; [by left|]. right. split; [lia|]. split; [|done].
    rewrite app_comm_cons, <- app_assoc, digits_val_app, Hv, digits_val_app, digits_val_zeros by (done || apply zeros_ok).
    replace (Z.of_nat (Z.to_nat (n - k))) with x by lia. cbn. lia. }
  destruct ((0 <? n) && (n <=? 15)) eqn:C2; breflect.
  { exists (take (Z.to_nat n) (48 + d :: digit_bytes ds)), (drop (Z.to_nat n) (48 + d :: digit_bytes ds)), None.
    assert (Hlen : length (drop (Z.to_nat n) (48 + d :: digit_bytes ds)) = Z.to_nat (- x)) by (rewrite length_drop, Hk; lia).
    assert (Hne : drop (Z.to_nat n) (48 + d :: digit_bytes ds) <> []) by (intros E; rewrite E in Hlen; cbn in Hlen; lia).
    split; [by destruct (drop _ _); [|cbn; rewrite app_nil_r]|].
    split; [destruct (Z.to_nat n) eqn:E; [lia|]; apply Hw; by apply Forall_take|]. split; [by apply Forall_drop|].
    split; [done|]. split; [by left|]. left. rewrite take_drop, Hlen. cbn [exp_value]. split; [done|lia]. }
  destruct ((-4 <? n) && (n <=? 0)) eqn:C3; breflect.
  { exists [48], (replicate (Z.to_nat (- n)) 48 ++ 48 + d :: digit_bytes ds), None.
    split; [destruct (Z.to_nat (- n)); cbn; by rewrite app_nil_r|]. split; [by left|]. split; [apply Forall_app; split; [apply zeros_ok|done]|].
    split; [done|]. split; [left; by destruct (Z.to_nat (- n))|]. left. split.
    - cbn [app digits_val]. change (is_digit_byte 48) with true. cbn iota. rewrite digits_val_app, digits_val_zeros by apply zeros_ok. exact Hv.
    - rewrite length_app, length_replicate, Hk. cbn [exp_value]. lia. }
  change ([101] ++ append_exponent (n - 1)) with (101 :: append_exponent (n - 1)).
  destruct (append_exponent_text (n - 1) Hn) as (es & -> & He & Hev). clear C1 C2 C3.
  exists [48 + d], (digit_bytes ds), (Some (n - 1 <? 0, es)). split.
  { destruct ds as [|d2 ds]; [done|]. replace (k =? 1) with false by (symmetry; apply Z.eqb_neq; unfold k; cbn; lia). done. }
  split; [apply Hw; constructor|]. split; [done|]. split; [done|]. split; [by right|]. left. split; [exact Hv|]. cbn in Hk. lia.
Qed.

Lemma decimal_value_range ds : Forall (fun d => 0 <= d <= 9) ds -> (exists d, head ds = Some d /\ 0 < d) ->
  10 ^ (Z.of_nat (length ds) - 1) <= decimal_value ds < 10 ^ Z.of_nat (length ds).
Proof.
  intros Hd (d & Hh & Hp). destruct ds as [|d' ds]; [done|]. injection Hh as ->. apply Forall_cons in Hd as [H9 Hd].
  assert (G : forall n, 0 <= n -> n * 10 ^ Z.of_nat (length ds) <= foldl (fun n d => 10 * n + d) n ds < (n + 1) * 10 ^ Z.of_nat (length ds)).
  { clear -Hd. induction Hd as [|d ds Hb _ IH]; intros n Hn; [cbn; lia|]. cbn [foldl length].
    rewrite Nat2Z.inj_succ, Z.pow_succ_r by lia. specialize (IH (10 * n + d) ltac:(lia)).
    pose proof (Z.pow_pos_nonneg 10 (Z.of_nat (length ds)) ltac:(lia) ltac:(lia)). nia. }
  unfold decimal_value. cbn [foldl length]. specialize (G (10 * 0 + d) ltac:(lia)). rewrite Nat2Z.inj_succ.
  replace (Z.succ (Z.of_nat (length ds)) - 1) with (Z.of_nat (length ds)) by lia. rewrite Z.pow_succ_r by lia.
  pose proof (Z.pow_pos_nonneg 10 (Z.of_nat (length ds)) ltac:(lia) ltac:(lia)). nia.
Qed.

Lemma pow_le_by b i j : 1 < b -> i <= j -> 0 <= j -> b ^ i <= b ^ j.
Proof. intros. apply Z.pow_le_mono_r; lia. Qed.

(** A double has a decimal exponent of at most three digits. *)
Lemma exponent_small lo hi q D k x : 0 < lo -> 0 < hi < 2 ^ 56 -> -1076 <= q <= 969 -> 1 <= k ->
  10 ^ (k - 1) <= D < 10 ^ k -> strictly_between lo hi q D x -> - 1000 < k + x - 1 < 1000.
Proof.
  intros Hlo Hhi Hq Hk HD [H1 H2]. pose proof (pow_max_pos 10 (- x) eq_refl) as Px. pose proof (pow_max_pos 10 x eq_refl) as Px'.
  pose proof (pow_max_pos 2 q eq_refl) as Pq. pose proof (pow_max_pos 2 (- q) eq_refl) as Pq'.
  assert (B1 : 2 ^ Z.max q 0 <= 2 ^ 969) by (apply pow_le_by; lia).
  assert (B2 : 2 ^ Z.max (- q) 0 <= 2 ^ 1076) by (apply pow_le_by; lia).
  assert (C : 2 ^ 56 * 2 ^ 969 < 10 ^ 400) by (by vm_compute). assert (C' : 2 ^ 1076 < 10 ^ 400) by (by vm_compute).
  assert (Pk : 0 < 10 ^ (k - 1)) by (apply Z.pow_pos_nonneg; lia).
  split; apply Z.nle_gt; intros Hc.
  - assert (E : 10 ^ k * 10 ^ Z.max x 0 * 10 ^ 400 <= 10 ^ Z.max (- x) 0).
    { rewrite <- !Z.pow_add_r by lia. apply pow_le_by; lia. }
    apply (Z.lt_irrefl (lo * 2 ^ Z.max q 0 * 10 ^ Z.max (- x) 0)). eapply Z.lt_le_trans; [exact H1|].
    transitivity (1 * 10 ^ Z.max (- x) 0); [rewrite Z.mul_1_l|apply Z.mul_le_mono_nonneg_r; nia].
    etransitivity; [|exact E]. apply Z.mul_le_mono_nonneg; [nia|apply Z.mul_le_mono_nonneg_r; lia|lia|].
    etransitivity; [exact B2|by apply Z.lt_le_incl].
  - assert (E : 10 ^ 400 * 10 ^ Z.max (- x) 0 <= 10 ^ (k - 1) * 10 ^ Z.max x 0).
    { rewrite <- !Z.pow_add_r by lia. apply pow_le_by; lia. }
    apply (Z.lt_irrefl (D * 10 ^ Z.max x 0 * 2 ^ Z.max (- q) 0)). eapply Z.lt_le_trans; [exact H2|].
    transitivity (10 ^ 400 * 10 ^ Z.max (- x) 0).
    { apply Z.mul_le_mono_nonneg_r; [lia|]. etransitivity; [|apply Z.lt_le_incl; exact C]. apply Z.mul_le_mono_nonneg; lia. }
    etransitivity; [exact E|]. transitivity (D * 10 ^ Z.max x 0 * 1); [rewrite Z.mul_1_r; apply Z.mul_le_mono_nonneg_r; lia|].
    apply Z.mul_le_mono_nonneg_l; nia.
Qed.

Lemma closer_bounds m e : canonical m e -> 0 < (if closer m e then 4 * m - 1 else 4 * m - 2) /\ 0 < 4 * m + 2 < 2 ^ 56 /\ -1076 <= e - 2 <= 969.
Proof. intros (Hm & _ & He). destruct (closer m e); lia. Qed.

(** Ten times the digits at the exponent before. *)
Lemma between_ten lo hi q D x : 0 <= x -> strictly_between lo hi q D x -> strictly_between lo hi q (D * 10 ^ x * 10) (-1).
Proof.
  intros Hx. unfold strictly_between. rewrite (Z.max_l x 0), (Z.max_r (- x) 0) by lia.
  change (10 ^ 0) with 1. change (10 ^ Z.max (-1) 0) with 1. change (10 ^ Z.max (- -1) 0) with 10. lia.
Qed.

Lemma scan_dump_float x rest : canonical_double x = true -> delimited rest -> exists b l,
  dump_float x = b :: l /\ (b = 45 \/ is_digit_byte b = true) /\ scan_number b (l ++ rest) = (T_float x, rest).
Proof.
  intros Hx Hr. destruct x as [s| | |s m e]; try done.
  { destruct (scan_float s [48] [48] None rest) as (b & l & E & Hb & Es); [by left|by repeat constructor|done|by left|done|].
    exists b, l. split; [by rewrite <- E; destruct s|]. split; [done|]. rewrite Es. by destruct s. }
  assert (Hc : canonical (Z.pos m) e) by (unfold canonical_double in Hx; unfold canonical; breflect; lia).
  pose proof (grisu2_sound (Z.pos m) e Hc) as Hs. cbn [dump_float to_chars].
  destruct (grisu2_double (Z.pos m) e) as [ds x]. destruct Hs as (Hd & Hh & Hb).
  destruct (closer_bounds (Z.pos m) e Hc) as (B1 & B2 & B3). pose proof (decimal_value_range ds Hd Hh) as HD.
  destruct (format_buffer_text ds x Hd Hh) as (w & frac & ex & -> & Hw & Hf & He & Hfe & Hval).
  { refine (exponent_small _ _ _ _ _ _ B1 B2 B3 _ HD Hb). destruct ds; [by destruct Hh as (? & ? & _)|cbn; lia]. }
  destruct (scan_float s w frac ex rest Hw Hf He Hfe Hr) as (b & l & E & Hb' & Es).
  exists b, l. split; [exact E|]. split; [done|]. rewrite Es. do 2 f_equal.
  assert (P : 0 < decimal_value ds) by (eapply Z.lt_le_trans; [|exact (proj1 HD)]; apply Z.pow_pos_nonneg; [lia|];
    destruct ds; [by destruct Hh as (? & ? & _)|cbn; lia]).
  assert (R : double_of_decimal (digits_val 0 (w ++ frac)) (exp_value ex - Z.of_nat (length frac)) = S754_finite false m e).
  { destruct Hval as [[-> ->]|(Hx0 & -> & ->)]; [by apply (double_of_decimal_between (Z.pos m))|].
    apply (double_of_decimal_between (Z.pos m)); [done| |by apply between_ten]. apply Z.mul_pos_pos; [|done]. apply Z.mul_pos_pos; [done|].
    by apply Z.pow_pos_nonneg. }
  rewrite R. by destruct s.
Qed.

(** ** Values *)

Section json_induction.
  Variable P : json -> Prop.
  Hypothesis P_null : P JNull.
  Hypothesis P_object : forall fields, Forall (fun kv => P (snd kv)) fields -> P (JObject fields).
  Hypothesis P_array : forall items, Forall P items -> P (JArray items).
  Hypothesis P_string : forall s, P (JString s).
  Hypothesis P_bool : forall b, P (JBool b).
  Hypothesis P_int : forall z, P (JInt z).
  Hypothesis P_float : forall x, P (JFloat x).
  Hypothesis P_binary : forall bytes subtype, P (JBinary bytes subtype).

Fixpoint json_nested_ind (j : json) : P j :=
  match j with
  | JNull => P_null
  | JObject fields =>
      P_object fields
        ((fix go (fields : list (string * json)) : Forall (fun kv => P (snd kv)) fields :=
            match fields with [] => Forall_nil_2 _ | (k, v) :: fields => Forall_cons_2 _ (k, v) _ (json_nested_ind v) (go fields) end) fields)
  | JArray items =>
      P_array items
        ((fix go items : Forall P items :=
            match items with [] => Forall_nil_2 _ | v :: items => Forall_cons_2 _ v _ (json_nested_ind v) (go items) end) items)
  | JString s => P_string s
  | JBool b => P_bool b
  | JInt z => P_int z
  | JFloat x => P_float x
  | JBinary bytes subtype => P_binary bytes subtype
  end.
End json_induction.

(** The inner loops of [dump]. *)
Fixpoint dump_items (items : list json) : res (list Z) :=
  match items with
  | [] => Ok []
  | [v] => dump v
  | v :: items => t ← dump v; ts ← dump_items items; Ok (t ++ [44] ++ ts)
  end.

Fixpoint dump_fields (fields : list (string * json)) : res (list Z) :=
  match fields with
  | [] => Ok []
  | [(key, v)] => k ← dump_escaped key; t ← dump v; Ok ([34] ++ k ++ [34; 58] ++ t)
  | (key, v) :: fields =>
      k ← dump_escaped key; t ← dump v; ts ← dump_fields fields; Ok ([34] ++ k ++ [34; 58] ++ t ++ [44] ++ ts)
  end.

Lemma dump_array v items : dump (JArray (v :: items)) = ts ← dump_items (v :: items); Ok ([91] ++ ts ++ [93]).
Proof. reflexivity. Qed.

Lemma dump_object kv fields : dump (JObject (kv :: fields)) = ts ← dump_fields (kv :: fields); Ok ([123] ++ ts ++ [125]).
Proof. reflexivity. Qed.

(** The text is read as the value, in at most two turns a byte. *)
Definition reads (text : list Z) (j : json) : Prop := forall rest, delimited rest -> exists t l n,
  scan (text ++ rest) = (t, l) /\ t <> T_end_array /\ t <> T_end_object /\ (n <= 2 * length text)%nat
  /\ forall states fuel, sax_parse_internal (n + fuel) (at_value t) l states = sax_parse_internal fuel (behind j) rest states.

(** A value of one token. *)
Lemma reads_token text j : (1 <= length text)%nat ->
  (forall rest, delimited rest -> exists t, scan (text ++ rest) = (t, rest) /\ token_value t = Some (Ok j)) -> reads text j.
Proof.
  intros Hl H rest Hr. destruct (H rest Hr) as (t & Es & Ev). exists t, rest, 1%nat. split; [done|].
  split; [by intros ->|]. split; [by intros ->|]. split; [lia|]. intros states fuel. cbn.
  destruct t; try done; cbn in *; by simplify_eq/=; try rewrite Ev.
Qed.

Lemma scan_number_first b l : b = 45 \/ is_digit_byte b = true -> scan (b :: l) = scan_number b l.
Proof.
  intros Hb. assert (H : b = 45 \/ 48 <= b <= 57) by (unfold is_digit_byte, in_range in Hb; lia). clear Hb.
  assert (is_ws b = false) as Hw by (unfold is_ws; lia). unfold scan. cbn [skip_whitespace]. rewrite Hw.
  repeat match goal with |- (if b =? ?c then _ else _) = _ => destruct (Z.eqb_spec b c); [lia|] end.
  destruct (Z.eqb_spec b 45); [done|]. unfold is_digit_byte, in_range. by replace ((48 <=? b) && (b <=? 57)) with true by lia.
Qed.

Lemma scan_dump_string s rest : valid_utf8 s = true -> exists out, dump_escaped s = Ok out
  /\ scan (34 :: out ++ 34 :: rest) = (T_string (bytes_of s), rest).
Proof.
  intros Hu. destruct (scan_escaped _ _ Hu (bytes_of_ok s)) as (out & E & H). exists out. split; [exact E|].
  change (scan (34 :: out ++ 34 :: rest)) with (scan_string (S (length (out ++ 34 :: rest))) (out ++ 34 :: rest) []).
  rewrite H; [done|]. rewrite length_app. lia.
Qed.

Definition written (j : json) : Prop := exists text, dump j = Ok text /\ reads text j.

Lemma written_string s : valid_utf8 s = true -> written (JString s).
Proof.
  intros Hu. destruct (scan_dump_string s [] Hu) as (out & E & _). exists ([34] ++ out ++ [34]). split; [cbn; by rewrite E|].
  apply reads_token; [cbn; lia|]. intros rest _. destruct (scan_dump_string s rest Hu) as (out' & E' & Hs). rewrite E in E'. injection E' as <-.
  exists (T_string (bytes_of s)). split; [cbn [app]; rewrite <- app_assoc; exact Hs|]. cbn. by rewrite string_of_bytes_of.
Qed.

Lemma written_int z : - 2 ^ 63 <= z < 2 ^ 64 -> written (JInt z).
Proof.
  intros Hz. eexists. split; [done|]. apply reads_token.
  { destruct (scan_integer z [] Hz I) as (b & l & -> & _). cbn. lia. }
  intros rest Hr. destruct (scan_integer z rest Hz Hr) as (b & l & -> & Hb & Es). eexists.
  cbn [app]. rewrite scan_number_first, Es by done. split; [done|]. by destruct (z <? 0).
Qed.

Lemma written_float x : canonical_double x = true -> written (JFloat x).
Proof.
  intros Hx. eexists. split; [done|]. apply reads_token.
  { destruct (scan_dump_float x [] Hx I) as (b & l & -> & _). cbn. lia. }
  intros rest Hr. destruct (scan_dump_float x rest Hx Hr) as (b & l & -> & Hb & Es). eexists.
  cbn [app]. rewrite scan_number_first, Es by done. split; [done|]. by destruct x.
Qed.

(** One turn of the loop. *)
Lemma sax_turn fuel p l states p' l' states' : sax_step p l states = Ok (inl (p', l', states')) ->
  sax_parse_internal (S fuel) p l states = sax_parse_internal fuel p' l' states'.
Proof. intros E. cbn [sax_parse_internal]. by rewrite E. Qed.

Lemma open_array l t l' states : scan l = (t, l') -> t <> T_end_array ->
  sax_step (at_value T_begin_array) l states = Ok (inl (at_value t, l', frame_array [] :: states)).
Proof. intros E Hne. cbn. rewrite E. by destruct t. Qed.

Lemma open_object l k l1 l2 t l3 states : scan l = (T_string k, l1) -> scan l1 = (T_name_separator, l2) -> scan l2 = (t, l3) ->
  sax_step (at_value T_begin_object) l states = Ok (inl (at_value t, l3, frame_object [] (string_of k) :: states)).
Proof. intros E1 E2 E3. cbn. rewrite E1. cbn. by rewrite E2, E3. Qed.

Lemma next_member fields key j l k l1 l2 t l3 states : scan l = (T_string k, l1) -> scan l1 = (T_name_separator, l2) -> scan l2 = (t, l3) ->
  sax_step (behind j) (44 :: l) (frame_object fields key :: states)
  = Ok (inl (at_value t, l3, frame_object (obj_set fields key j) (string_of k) :: states)).
Proof. intros E1 E2 E3. cbn [sax_step]. change (scan (44 :: l)) with (T_value_separator, l). cbn iota. rewrite E1. cbn. by rewrite E2, E3. Qed.

(** The items of an array up to its bracket. *)
Lemma items_read items : items <> [] -> Forall written items -> exists ts, dump_items items = Ok ts
  /\ forall rest, exists t l n, scan (ts ++ 93 :: rest) = (t, l) /\ t <> T_end_array /\ (n <= 2 * length ts + 1)%nat
  /\ forall done_items states fuel, sax_parse_internal (n + fuel) (at_value t) l (frame_array done_items :: states)
     = sax_parse_internal fuel (behind (JArray (rev done_items ++ items))) rest states.
Proof.
  induction items as [|v items IH]; [done|]. intros _ [(text & E & Hv) Hw]%Forall_cons.
  destruct items as [|v' items].
  - exists text. split; [exact E|]. intros rest. destruct (Hv (93 :: rest)) as (t & l & n & Es & Hne & _ & Hn & H); [by right; left|].
    exists t, l, (n + 1)%nat. split; [done|]. split; [done|]. split; [lia|]. intros acc states fuel.
    rewrite <- Nat.add_assoc, H. by apply sax_turn.
  - destruct (IH ltac:(done) Hw) as (ts & Ets & Hts). exists (text ++ [44] ++ ts).
    split; [change (dump_items (v :: v' :: items)) with (t ← dump v; ts ← dump_items (v' :: items); Ok (t ++ [44] ++ ts));
            by rewrite E; cbn [mbind res_bind]; rewrite Ets|].
    intros rest. destruct (Hts rest) as (t' & l' & n' & Es' & Hne' & Hn' & H').
    destruct (Hv (44 :: ts ++ 93 :: rest)) as (t & l & n & Es & Hne & _ & Hn & H); [by left|].
    exists t, l, (n + (1 + n'))%nat. rewrite <- !app_assoc. split; [exact Es|]. split; [done|].
    split; [rewrite !length_app; cbn; lia|]. intros acc states fuel. rewrite <- !Nat.add_assoc, H.
    erewrite sax_turn; [|cbn [sax_step]; change (scan (44 :: ts ++ 93 :: rest)) with (T_value_separator, ts ++ 93 :: rest);
      cbn iota; rewrite Es'; done].
    rewrite H'. cbn. by rewrite <- app_assoc.
Qed.

Lemma written_array items : Forall written items -> written (JArray items).
Proof.
  intros Hw. destruct items as [|v items].
  { exists (lit "[]"). split; [done|]. intros rest _. exists T_begin_array, (93 :: rest), 1%nat. by repeat (split; [done || cbn; lia|]). }
  destruct (items_read (v :: items) ltac:(done) Hw) as (ts & E & H). exists ([91] ++ ts ++ [93]).
  split; [by rewrite dump_array, E|]. intros rest _. destruct (H rest) as (t & l & n & Es & Hne & Hn & Hp).
  exists T_begin_array, (ts ++ 93 :: rest), (S n). split; [by rewrite <- !app_assoc|]. split; [done|]. split; [done|].
  split; [rewrite !length_app; cbn; lia|]. intros states fuel. cbn [Nat.add].
  by rewrite (sax_turn _ _ _ _ _ _ _ (open_array _ _ _ states Es Hne)), Hp.
Qed.

(** The members of an object up to its brace; the key of the first one is read by the caller. *)
Definition member_ok (kv : string * json) : Prop := valid_utf8 kv.1 = true /\ written kv.2.

Definition set_fields (fields : list (string * json)) (kvs : list (string * json)) : list (string * json) :=
  foldl (fun o '(k, v) => obj_set o k v) fields kvs.

Lemma member_read key v rest : member_ok (key, v) -> delimited rest -> exists k text, dump_escaped key = Ok k /\ dump v = Ok text
  /\ exists t l n, scan (34 :: k ++ 34 :: 58 :: text ++ rest) = (T_string (bytes_of key), 58 :: text ++ rest)
     /\ scan (text ++ rest) = (t, l) /\ (n <= 2 * length text)%nat
     /\ forall states fuel, sax_parse_internal (n + fuel) (at_value t) l states = sax_parse_internal fuel (behind v) rest states.
Proof.
  intros [Hu (text & E & Hv)] Hr. cbn [fst snd] in *. destruct (scan_dump_string key (58 :: text ++ rest) Hu) as (k & Ek & Hk).
  exists k, text. split; [done|]. split; [done|]. destruct (Hv rest Hr) as (t & l & n & Es & _ & _ & Hn & Hp). by exists t, l, n.
Qed.

Lemma fields_read fields : fields <> [] -> Forall member_ok fields -> exists ts, dump_fields fields = Ok ts
  /\ forall rest, exists k l1 l2 t l n, scan (ts ++ 125 :: rest) = (T_string k, l1) /\ scan l1 = (T_name_separator, l2)
  /\ scan l2 = (t, l) /\ (n <= 2 * length ts + 1)%nat
  /\ forall o states fuel, sax_parse_internal (n + fuel) (at_value t) l (frame_object o (string_of k) :: states)
     = sax_parse_internal fuel (behind (JObject (set_fields o fields))) rest states.
Proof.
  induction fields as [|[key v] fields IH]; [done|]. intros _ [Hm Hw]%Forall_cons.
  destruct (member_read key v [] Hm I) as (k & text & Ek & E & _). destruct fields as [|kv fields].
  - exists ([34] ++ k ++ [34; 58] ++ text). split; [cbn [dump_fields]; by rewrite Ek; cbn [mbind res_bind]; rewrite E|]. intros rest.
    destruct (member_read key v (125 :: rest) Hm) as (k' & text' & Ek' & E' & t & l & n & Es & Et & Hn & Hp); [by right; right|].
    rewrite Ek in Ek'. rewrite E in E'. injection Ek' as <-. injection E' as <-.
    exists (bytes_of key), (58 :: text ++ 125 :: rest), (text ++ 125 :: rest), t, l, (n + 1)%nat.
    rewrite <- !app_assoc. split; [exact Es|]. split; [done|]. split; [done|]. split; [rewrite !length_app; cbn; lia|].
    intros o states fuel. rewrite <- Nat.add_assoc, Hp, string_of_bytes_of. by apply sax_turn.
  - destruct (IH ltac:(done) Hw) as (ts & Ets & Hts). exists ([34] ++ k ++ [34; 58] ++ text ++ [44] ++ ts).
    split; [change (dump_fields ((key, v) :: kv :: fields)) with
      (k ← dump_escaped key; t ← dump v; ts ← dump_fields (kv :: fields); Ok ([34] ++ k ++ [34; 58] ++ t ++ [44] ++ ts));
      by rewrite Ek; cbn [mbind res_bind]; rewrite E; cbn [mbind res_bind]; rewrite Ets|].
    intros rest. destruct (Hts rest) as (k2 & m1 & m2 & t2 & m3 & n2 & S1 & S2 & S3 & Hn2 & Hp2).
    destruct (member_read key v (44 :: ts ++ 125 :: rest) Hm) as (k' & text' & Ek' & E' & t & l & n & Es & Et & Hn & Hp); [by left|].
    rewrite Ek in Ek'. rewrite E in E'. injection Ek' as <-. injection E' as <-.
    exists (bytes_of key), (58 :: text ++ 44 :: ts ++ 125 :: rest), (text ++ 44 :: ts ++ 125 :: rest), t, l, (n + (1 + n2))%nat.
    rewrite <- !app_assoc. split; [exact Es|]. split; [done|]. split; [done|]. split; [rewrite !length_app; cbn; lia|].
    intros o states fuel. rewrite <- !Nat.add_assoc, Hp, string_of_bytes_of.
    by rewrite (sax_turn _ _ _ _ _ _ _ (next_member _ _ _ _ _ _ _ _ _ states S1 S2 S3)), Hp2.
Qed.

(** Keys in order are set one behind the other. *)
Lemma ascii_compare_trans a b c o : Ascii.compare a b = o -> Ascii.compare b c = o -> o <> Gt -> Ascii.compare a c = o.
Proof.
  unfold Ascii.compare. intros H1 H2 Ho. destruct o; [|rewrite N.compare_lt_iff in *; lia|done].
  rewrite N.compare_eq_iff in *. congruence.
Qed.

Lemma string_lt_trans s : forall t u, String.compare s t = Lt -> String.compare t u = Lt -> String.compare s u = Lt.
Proof.
  induction s as [|a s IH]; intros [|b t] [|c u]; cbn; try done.
  destruct (Ascii.compare a b) eqn:E1; [|intros _|done]; destruct (Ascii.compare b c) eqn:E2; try done.
  - rewrite (ascii_compare_trans a b c Eq) by done. apply IH.
  - apply Ascii.compare_eq_iff in E1 as ->. by rewrite E2.
  - apply Ascii.compare_eq_iff in E2 as ->. by rewrite E1.
  - by rewrite (ascii_compare_trans a b c Lt).
Qed.

Lemma sorted_head k v fields : sorted_keys ((k, v) :: fields) = true -> Forall (fun kv => String.compare k kv.1 = Lt) fields /\ sorted_keys fields = true.
Proof.
  revert k v. induction fields as [|[k' v'] fields IH]; intros k v; [done|]. cbn [sorted_keys].
  destruct (String.compare k k') eqn:E; try done. intros H. split; [|done]. constructor; [done|].
  destruct (IH k' v' H) as [Hf _]. eapply Forall_impl; [exact Hf|]. intros [k2 ?] ?. by eapply string_lt_trans.
Qed.

Lemma obj_set_last fields k v : Forall (fun kv => String.compare kv.1 k = Lt) fields -> obj_set fields k v = fields ++ [(k, v)].
Proof.
  induction 1 as [|[k' w] fields Hk _ IH]; [done|]. cbn in *. rewrite String.compare_antisym, Hk. cbn. by rewrite IH.
Qed.

Lemma set_fields_sorted fields : forall o, sorted_keys fields = true ->
  Forall (fun kv => Forall (fun kv' => String.compare kv.1 kv'.1 = Lt) fields) o -> set_fields o fields = o ++ fields.
Proof.
  induction fields as [|[k v] fields IH]; intros o Hs Ho; [by rewrite app_nil_r|]. apply sorted_head in Hs as [Hk Hs].
  cbn [set_fields foldl]. fold (set_fields (obj_set o k v) fields). rewrite obj_set_last.
  2:{ eapply Forall_impl; [exact Ho|]. by intros kv [? _]%Forall_cons. }
  rewrite IH; [by rewrite <- app_assoc|done|]. apply Forall_app. split; [|by repeat constructor].
  eapply Forall_impl; [exact Ho|]. by intros kv [_ ?]%Forall_cons.
Qed.

Lemma written_object fields : sorted_keys fields = true -> Forall member_ok fields -> written (JObject fields).
Proof.
  intros Hs Hw. destruct fields as [|kv fields].
  { exists (lit "{}"). split; [done|]. intros rest _. exists T_begin_object, (125 :: rest), 1%nat. by repeat (split; [done || cbn; lia|]). }
  destruct (fields_read (kv :: fields) ltac:(done) Hw) as (ts & E & H). exists ([123] ++ ts ++ [125]).
  split; [by rewrite dump_object, E|]. intros rest _. destruct (H rest) as (k & l1 & l2 & t & l & n & S1 & S2 & S3 & Hn & Hp).
  exists T_begin_object, (ts ++ 125 :: rest), (S n). split; [by rewrite <- !app_assoc|]. split; [done|]. split; [done|].
  split; [rewrite !length_app; cbn; lia|]. intros states fuel. cbn [Nat.add].
  rewrite (sax_turn _ _ _ _ _ _ _ (open_object _ _ _ _ _ _ states S1 S2 S3)), Hp. by rewrite (set_fields_sorted _ []).
Qed.

Lemma wf_fields fields : (fix all fields := match fields with [] => true | (k, v) :: fields => valid_utf8 k && wf_json v && all fields end) fields = true ->
  Forall (fun kv => valid_utf8 kv.1 = true /\ wf_json kv.2 = true) fields.
Proof. induction fields as [|[k v] fields IH]; [constructor|]. intros [[Hk Hv]%andb_true_iff Hf]%andb_true_iff. constructor; auto. Qed.

Lemma wf_written j : wf_json j = true -> written j.
Proof.
  induction j as [|fields IH|items IH|s|b|z|x|bs st] using json_nested_ind; intros Hw.
  - exists (lit "null"). split; [done|]. apply reads_token; [cbn; lia|]. by exists T_null.
  - cbn [wf_json] in Hw. apply andb_true_iff in Hw as [Hs Hf%wf_fields]. apply written_object; [done|].
    apply Forall_forall. intros kv Hin. rewrite Forall_forall in IH, Hf. destruct (Hf kv Hin). split; [done|]. by apply IH.
  - apply written_array. apply Forall_forall. intros v Hin. rewrite Forall_forall in IH. apply IH; [done|].
    cbn [wf_json] in Hw. rewrite forallb_forall in Hw. by apply Hw, list_elem_of_In.
  - by apply written_string.
  - exists (if b then lit "true" else lit "false"). split; [done|]. apply reads_token; [by destruct b; cbn; lia|]. destruct b; [by exists T_true|by exists T_false].
  - cbn [wf_json] in Hw. apply written_int. lia.
  - by apply written_float.
  - done.
Qed.

Lemma parse_text text j : reads text j -> parse text = Ok j.
Proof.
  intros Hr. destruct (Hr [] I) as (t & l & n & Es & _ & _ & Hn & Hp). rewrite app_nil_r in Es.
  assert (Hfin : forall k, sax_parse_internal (n + S k) (at_value t) l [] = Ok (j, [])) by (intros k; by rewrite Hp).
  assert (first_scan text = (t, l)) as Ef.
  { destruct text as [|b text]; [exact Es|]. cbn [first_scan]. destruct (Z.eqb_spec b 0xEF) as [->|]; [|exact Es].
    exfalso. cbn in Es. injection Es as <- <-. specialize (Hfin 0%nat). destruct n; discriminate Hfin. }
  unfold parse. rewrite Ef. replace (2 * length text + 2)%nat with (n + S (2 * length text + 1 - n))%nat by lia. by rewrite Hfin.
Qed.

(** *** The text is made of bytes *)

Ltac solve_bytes := repeat (apply Forall_cons_2; [done|]); apply Forall_nil_2.

Lemma lit_ok s : bytes_ok (lit s).
Proof. apply bytes_of_ok. Qed.

Lemma escape_char_ok cp b : is_byte b -> bytes_ok (escape_char cp b).
Proof.
  intros Hb. assert (Hu : bytes_ok (u_escape cp)).
  { unfold u_escape. apply Forall_app. split; [solve_bytes|]. apply Forall_map, Forall_forall. intros k _.
    pose proof (Z.mod_pos_bound (u16 cp / 16 ^ k) 16 ltac:(lia)). unfold compose, is_byte, hex_digit. case_match; lia. }
  unfold escape_char. repeat case_match; try done; solve_bytes.
Qed.

Lemma escape_loop_ok s : forall st cp out, bytes_ok s -> escape_loop s st cp = Ok out -> bytes_ok out.
Proof.
  induction s as [|b s IH]; intros st cp out Hb; cbn [escape_loop].
  { destruct (st =? UTF8_ACCEPT); [|done]. intros [= <-]. constructor. }
  apply Forall_cons in Hb as [Hb Hs]. destruct (decode st cp b) as [st' cp']. destruct (st' =? UTF8_REJECT); [done|].
  destruct (escape_loop s st' cp') as [rest|] eqn:E; [|done]. intros [= <-]. apply Forall_app. split; [|by eapply IH].
  destruct (st' =? UTF8_ACCEPT); [by apply escape_char_ok|solve_bytes].
Qed.

Lemma dump_escaped_ok s out : dump_escaped s = Ok out -> bytes_ok out.
Proof. apply escape_loop_ok, bytes_of_ok. Qed.

(** Every byte of a number is one the automaton takes. *)
Lemma number_loop_bytes l : forall st acc st' acc', number_loop st l acc = (st', acc', []) -> bytes_ok l.
Proof.
  induction l as [|b l IH]; intros st acc st' acc'; [constructor|]. cbn. destruct (number_next st b) as [s|] eqn:E; [|by intros [= ]].
  intros H. constructor; [|by eapply IH]. revert E. unfold number_next, is_digit_byte, is_e, in_range, is_byte.
  destruct st; repeat case_match; try done; lia.
Qed.

Lemma scan_number_bytes b l t : b = 45 \/ is_digit_byte b = true -> scan_number b (l ++ []) = (t, []) -> bytes_ok (b :: l).
Proof.
  intros Hb. unfold scan_number. rewrite app_nil_r. destruct (number_loop _ l [b]) as [[st text] r] eqn:E. intros [= _ ->].
  constructor; [|by eapply number_loop_bytes]. unfold is_digit_byte, in_range, is_byte in *. lia.
Qed.

Lemma items_ok items : forall ts, Forall (fun v => forall t, dump v = Ok t -> bytes_ok t) items -> dump_items items = Ok ts -> bytes_ok ts.
Proof.
  induction items as [|v items IH]; intros ts Hf; [intros [= <-]; constructor|]. apply Forall_cons in Hf as [Hv Hf].
  destruct items as [|v' items]; [apply Hv|].
  change (dump_items (v :: v' :: items)) with (t ← dump v; ts ← dump_items (v' :: items); Ok (t ++ [44] ++ ts)).
  destruct (dump v) as [t|]; [|done]. cbn [mbind res_bind]. destruct (dump_items (v' :: items)) as [ts'|]; [|done]. intros [= <-].
  apply Forall_app. split; [by apply Hv|]. constructor; [done|]. by apply IH.
Qed.

Lemma fields_ok fields : forall ts, Forall (fun kv => forall t, dump kv.2 = Ok t -> bytes_ok t) fields -> dump_fields fields = Ok ts -> bytes_ok ts.
Proof.
  induction fields as [|[k v] fields IH]; intros ts Hf; [intros [= <-]; constructor|]. apply Forall_cons in Hf as [Hv Hf].
  assert (Hkv : forall out t l, dump_escaped k = Ok out -> dump v = Ok t -> bytes_ok l -> bytes_ok ([34] ++ out ++ [34; 58] ++ t ++ l)).
  { intros out t l Ho Ht Hl. repeat (apply Forall_app; split); [solve_bytes|by eapply dump_escaped_ok|solve_bytes|by apply Hv|done]. }
  destruct fields as [|kv fields]; [cbn [dump_fields]|
    change (dump_fields ((k, v) :: kv :: fields)) with
      (k ← dump_escaped k; t ← dump v; ts ← dump_fields (kv :: fields); Ok ([34] ++ k ++ [34; 58] ++ t ++ [44] ++ ts))];
    (destruct (dump_escaped k) as [out|]; [|done]); cbn [mbind res_bind]; (destruct (dump v) as [t|]; [|done]); cbn [mbind res_bind].
  - intros [= <-]. specialize (Hkv out t [] eq_refl eq_refl ltac:(constructor)). by rewrite app_nil_r in Hkv.
  - destruct (dump_fields (kv :: fields)) as [ts'|]; [|done]. intros [= <-]. apply Hkv; [done|done|]. constructor; [done|]. by apply IH.
Qed.

Lemma dump_ok j : wf_json j = true -> forall text, dump j = Ok text -> bytes_ok text.
Proof.
  induction j as [|fields IH|items IH|s|b|z|x|bs st] using json_nested_ind; intros Hw text.
  - intros [= <-]. apply (lit_ok "null").
  - cbn [wf_json] in Hw. apply andb_true_iff in Hw as [_ Hf%wf_fields].
    destruct fields as [|kv fields]; [intros [= <-]; apply (lit_ok "{}")|]. rewrite dump_object.
    destruct (dump_fields (kv :: fields)) as [ts|] eqn:E; [|done]. intros [= <-]. constructor; [done|]. apply Forall_app.
    split; [|solve_bytes]. revert E. apply fields_ok.
    apply Forall_forall. intros kv' Hin. rewrite Forall_forall in IH, Hf. apply IH; [done|]. by apply Hf.
  - destruct items as [|v items]; [intros [= <-]; apply (lit_ok "[]")|]. rewrite dump_array.
    destruct (dump_items (v :: items)) as [ts|] eqn:E; [|done]. intros [= <-]. constructor; [done|]. apply Forall_app.
    split; [|solve_bytes]. revert E. apply items_ok. cbn [wf_json] in Hw. rewrite forallb_forall in Hw.
    apply Forall_forall. intros v' Hin. rewrite Forall_forall in IH. apply IH; [done|]. by apply Hw, list_elem_of_In.
  - cbn [dump]. destruct (dump_escaped s) as [out|] eqn:E; [|done]. intros [= <-]. constructor; [done|]. apply Forall_app.
    split; [by eapply dump_escaped_ok|solve_bytes].
  - intros [= <-]. destruct b; [apply (lit_ok "true")|apply (lit_ok "false")].
  - intros [= <-]. cbn [wf_json] in Hw. destruct (scan_integer z [] ltac:(lia) I) as (b & l & -> & Hb & Es). by eapply scan_number_bytes.
  - intros [= <-]. destruct (scan_dump_float x [] Hw I) as (b & l & -> & Hb & Es). by eapply scan_number_bytes.
  - done.
Qed.

Lemma dump_parse j : wf_json j = true -> exists s, dump_string j = Ok s /\ parse_string s = Ok j.
Proof.
  intros Hw. destruct (wf_written j Hw) as (text & E & Hr). exists (string_of text). unfold dump_string, parse_string.
  rewrite E, (bytes_of_string_of text) by (by eapply dump_ok). split; [done|]. by apply parse_text.
Qed.

(** C4: a well-formed value (valid UTF-8 strings, integers of 64 bits, finite doubles, objects in key
    order) is written by [dump] without an exception and read back by [parse] as the same value. *)
Theorem json_roundtrip j : wf_json j = true -> exists s, dump_string j = Ok s /\ parse_string s = Ok j.
Proof. apply dump_parse. Qed.

(** An object with a float, a negative number, an escaped string and an array. *)
Lemma json_roundtrip_witness :
  let j := JObject [("a", JArray [JInt (-7); JFloat (S754_finite false 7205759403792794 (-56)); JNull]); ("b", JString "x/y\z")] in
  exists s, dump_string j = Ok s /\ parse_string s = Ok j.
Proof. intros j. apply (json_roundtrip j). vm_compute. reflexivity. Defined.
