(* ===== verification/JsonWf.v ===== *)
(** * What the JSON reader returns

    Every value [json::parse] returns is well-formed, whatever the text: its strings are valid UTF-8,
    its integers have 64 bits, its doubles are finite, and the keys of its objects increase.  So it
    can be written again, and reads back as itself. *)

From S2P Require Import Prelude Str Grisu Decimal Json JsonText JsonSpec.
From Stdlib Require Import Ascii SpecFloat.
From Stdlib Require String.

(** ** Numbers *)

Lemma round_half_even_le n d hi : 0 < d -> n < hi * d -> round_half_even n d <= hi.
Proof.
  intros Hd Hn. unfold round_half_even. assert (n / d < hi) by (apply Z.div_lt_upper_bound; lia).
  repeat case_match; lia.
Qed.

Lemma round_half_even_ge n d lo : 0 < d -> lo * d <= n -> lo <= round_half_even n d.
Proof.
  intros Hd Hn. unfold round_half_even. assert (lo <= n / d) by (apply Z.div_le_lower_bound; lia).
  repeat case_match; lia.
Qed.

(** The doubles a value may hold. *)
Definition float_ok (x : spec_float) : Prop := is_finite_float x = true -> canonical_double x = true.

Lemma round_ratio_ok n d : 0 < n -> 0 < d -> float_ok (round_ratio 53 (-1074) 1024 n d).
Proof.
  intros Hn Hd. destruct (ratio_log2_spec n d Hn Hd) as [R1 R2]. unfold round_ratio.
  set (r := ratio_log2 n d) in *. set (e := Z.max (-1074) (r - (53 - 1))). change (n * _) with (scaled_num n e). change (d * _) with (scaled_den d e).
  destruct (scaled_pos n e Hn) as [HN _]. destruct (scaled_pos d e Hd) as [_ HD].
  assert (Hhi : round_half_even (scaled_num n e) (scaled_den d e) <= 2 ^ 53).
  { apply round_half_even_le; [done|]. destruct (pow2_le (e + 53) n d) eqn:E.
    - rewrite (pow2_le_mono (r + 1) (e + 53)) in R2 by (done || lia). done.
    - rewrite pow2_le_scaled in E by lia. apply Z.leb_gt in E. lia. }
  assert (Hlo : e <> -1074 -> 2 ^ 52 <= round_half_even (scaled_num n e) (scaled_den d e)).
  { intros He. apply round_half_even_ge; [done|]. replace r with (e + 52) in R1 by lia.
    rewrite pow2_le_scaled in R1 by lia. apply Z.leb_le in R1. lia. }
  assert (H0 : 0 <= round_half_even (scaled_num n e) (scaled_den d e)) by (apply round_half_even_ge; lia).
  assert (He : -1074 <= e) by lia. clearbody e. set (q := round_half_even _ _) in *. clearbody q. clear R1 R2 HN HD. unfold float_ok.
  destruct (Z.eqb_spec q (2 ^ 53)) as [Eq|Nq].
  - change (2 ^ (53 - 1)) with (2 ^ 52). destruct (Z.eqb_spec (2 ^ 52) 0); [done|]. destruct (Z.ltb_spec (1024 - 53) (e + 1)); [done|]. intros _.
    unfold canonical_double. rewrite !andb_true_iff, orb_true_iff, Z.ltb_lt, !Z.leb_le, Z2Pos.id by done. split_and!; [done|by left|lia|lia].
  - destruct (Z.eqb_spec q 0); [done|]. destruct (Z.ltb_spec (1024 - 53) e); [done|]. intros _. cbn [canonical_double].
    rewrite !andb_true_iff, orb_true_iff, Z.ltb_lt, !Z.leb_le, Z.eqb_eq, Z2Pos.id by lia. destruct (Z.eq_dec e (-1074)); [|specialize (Hlo n1)]; lia.
Qed.

Lemma double_of_decimal_ok n x : 0 <= n -> float_ok (double_of_decimal n x).
Proof.
  intros Hn. unfold double_of_decimal, decimal_ratio. destruct (Z.eqb_spec n 0); [done|].
  apply round_ratio_ok; [apply Z.mul_pos_pos; [lia|]|]; by apply pow_max_pos.
Qed.

Lemma digits_val_nonneg l : forall n, 0 <= n -> 0 <= digits_val n l.
Proof.
  induction l as [|b l IH]; intros n Hn; cbn [digits_val]; [done|]. destruct (is_digit_byte b) eqn:E; [|done].
  apply IH. unfold is_digit_byte, in_range in E. breflect. lia.
Qed.

Lemma strtod_ok text : float_ok (strtod text).
Proof.
  assert (H : forall (neg : bool) l x, float_ok (let y := double_of_decimal (digits_val 0 l) x in if neg then SFopp y else y)).
  { intros neg l x. pose proof (double_of_decimal_ok (digits_val 0 l) x ltac:(apply digits_val_nonneg; lia)) as Hd.
    cbv zeta. unfold float_ok in *. by destruct neg, (double_of_decimal _ _). }
  unfold strtod. destruct (match text with [] => _ | _ => _ end) as [neg l].
  destruct (match skip_digits l with [] => _ | _ => _ end) as [frac l']. apply H.
Qed.

(** ** Strings *)

(** Valid UTF-8, as a list of bytes. *)
Definition text_ok (bs : list Z) : Prop := utf8_loop (length bs) bs = true /\ bytes_ok bs.

Lemma next_byte_more rs : forall l q rest t, next_byte_in_range rs l = Some (q, rest) -> next_byte_in_range rs (l ++ t) = Some (q, rest ++ t).
Proof.
  induction rs as [|[lo hi] rs IH]; intros l q rest t; cbn [next_byte_in_range]; [by intros [= <- <-]|].
  destruct l as [|b l]; [done|]. cbn [app]. destruct (in_range lo hi b); [|done].
  destruct (next_byte_in_range rs l) as [[q' r']|] eqn:E; [|done]. cbn. intros [= <- <-]. by rewrite (IH _ _ _ t E).
Qed.

Lemma utf8_loop_mono n : forall m l, utf8_loop n l = true -> (n <= m)%nat -> utf8_loop m l = true.
Proof.
  induction n as [|n IH]; intros [|m] [|b l] H Hm; cbn [utf8_loop] in *; try (done || lia).
  destruct (seq_ranges b); [|done]. destruct (next_byte_in_range _ _) as [[q r]|]; [|done]. apply IH; [done|lia].
Qed.

Lemma utf8_loop_app n : forall a b m, utf8_loop n a = true -> utf8_loop (length b) b = true -> (n + length b <= m)%nat -> utf8_loop m (a ++ b) = true.
Proof.
  induction n as [|n IH]; intros [|x a] b m Ha Hb Hm; cbn [utf8_loop app] in *; try done; try (apply (utf8_loop_mono (length b)); [done|lia]).
  destruct m as [|m]; [lia|]. cbn [utf8_loop]. destruct (seq_ranges x) as [rs|]; [|done].
  destruct (next_byte_in_range rs a) as [[q r]|] eqn:E; [|done]. rewrite (next_byte_more _ _ _ _ b E). apply IH; [done|done|lia].
Qed.

Lemma text_ok_app a b : text_ok a -> text_ok b -> text_ok (a ++ b).
Proof.
  intros [Ha Hab] [Hb Hbb]. split; [|by apply Forall_app]. rewrite length_app. by apply (utf8_loop_app (length a)).
Qed.

Lemma next_byte_self rs : forall l q rest, next_byte_in_range rs l = Some (q, rest) -> next_byte_in_range rs q = Some (q, []).
Proof.
  induction rs as [|[lo hi] rs IH]; intros l q rest; cbn [next_byte_in_range]; [by intros [= <- <-]|].
  destruct l as [|b l]; [done|]. destruct (in_range lo hi b) eqn:Eb; [|done].
  destruct (next_byte_in_range rs l) as [[q' r']|] eqn:E; [|done]. cbn. intros [= <- <-]. by rewrite Eb, (IH _ _ _ E).
Qed.

Definition byte_range (r : Z * Z) : Prop := 0 <= r.1 /\ r.2 <= 255.

Lemma next_byte_ok rs : Forall byte_range rs -> forall l q rest, next_byte_in_range rs l = Some (q, rest) -> bytes_ok q.
Proof.
  induction 1 as [|[lo hi] rs [Hlo Hhi] _ IH]; intros l q rest; cbn [next_byte_in_range]; [intros [= <- _]; constructor|].
  destruct l as [|b l]; [done|]. destruct (in_range lo hi b) eqn:Eb; [|done].
  destruct (next_byte_in_range rs l) as [[q' r']|] eqn:E; [|done]. cbn. intros [= <- _]. constructor; [|by apply (IH _ _ _ E)].
  cbn in *. unfold in_range, is_byte in *. breflect. lia.
Qed.

Lemma follow_ranges_ok b rs : follow_ranges b = Some rs -> is_byte b /\ Forall byte_range rs /\ seq_ranges b = Some rs.
Proof.
  intros E. assert (Hb : 0x20 <= b <= 0xF4).
  { revert E. unfold follow_ranges, in_range. repeat case_match; try done; intros _; breflect; lia. }
  split; [unfold is_byte; lia|]. unfold seq_ranges. destruct (Z.ltb_spec b 0x20); [lia|]. split; [|done].
  revert E. unfold follow_ranges. repeat case_match; intros [= <-]; repeat constructor; cbn; lia.
Qed.

(** A byte the reader copies, with those that follow it. *)
Lemma sequence_ok b rs l q rest : follow_ranges b = Some rs -> next_byte_in_range rs l = Some (q, rest) -> text_ok (b :: q).
Proof.
  intros (Hb & Hr & Es)%follow_ranges_ok E. split; [|constructor; [done|by eapply next_byte_ok]]. cbn [length utf8_loop].
  rewrite Es, (next_byte_self _ _ _ _ E). by destruct (length q).
Qed.

(** The bytes of an escaped code point: the first two, and what may follow. *)
Definition lead_pair (n : nat) (lead x : Z) : bool :=
  match follow_ranges (Z.lor lead (Z.shiftr x 6)) with
  | Some ((lo, hi) :: rs) => in_range lo hi (Z.lor 0x80 (Z.land x 0x3F)) && ranges_eqb rs (replicate n (0x80, 0xBF))
  | _ => false
  end.

Lemma lead_two x : 0x80 <= x < 0x800 -> lead_pair 0 0xC0 x = true.
Proof.
  intros H. pose proof (forall_below 2048 (fun x => implb (0x80 <=? x) (lead_pair 0 0xC0 x)) ltac:(by vm_compute) x ltac:(lia)) as E.
  cbv beta in E. destruct (Z.leb_spec 0x80 x); [|lia]. apply E.
Qed.

Lemma lead_three x : 0x20 <= x < 0x400 -> ~ (0x360 <= x < 0x380) -> lead_pair 1 0xE0 x = true.
Proof.
  intros H Hs. pose proof (forall_below 1024 (fun x => implb ((0x20 <=? x) && negb (in_range 0x360 0x37F x)) (lead_pair 1 0xE0 x))
    ltac:(by vm_compute) x ltac:(lia)) as E. cbv beta in E. unfold in_range in E.
  destruct (Z.leb_spec 0x20 x); [|lia]. destruct (Z.leb_spec 0x360 x), (Z.leb_spec x 0x37F); try lia; apply E.
Qed.

Lemma lead_four x : 0x10 <= x < 0x110 -> lead_pair 2 0xF0 x = true.
Proof.
  intros H. pose proof (forall_below 272 (fun x => implb (0x10 <=? x) (lead_pair 2 0xF0 x)) ltac:(by vm_compute) x ltac:(lia)) as E.
  cbv beta in E. destruct (Z.leb_spec 0x10 x); [|lia]. apply E.
Qed.

Lemma tail_byte x : in_range 0x80 0xBF (Z.lor 0x80 (Z.land x 0x3F)) = true.
Proof.
  change 0x3F with (Z.ones 6). rewrite Z.land_ones by lia.
  apply (forall_below 64 (fun x => in_range 0x80 0xBF (Z.lor 0x80 x))); [by vm_compute|]. apply Z.mod_pos_bound. lia.
Qed.

Lemma next_byte_tail bs : Forall (fun b => in_range 0x80 0xBF b = true) bs -> next_byte_in_range (replicate (length bs) (0x80, 0xBF)) bs = Some (bs, []).
Proof. induction 1 as [|b bs Hb _ IH]; [done|]. cbn [length replicate next_byte_in_range]. by rewrite Hb, IH. Qed.

Lemma lead_ok_text n lead x tails : lead_pair n lead x = true -> length tails = n -> Forall (fun b => in_range 0x80 0xBF b = true) tails ->
  text_ok (Z.lor lead (Z.shiftr x 6) :: Z.lor 0x80 (Z.land x 0x3F) :: tails).
Proof.
  unfold lead_pair. intros H Hl Ht. destruct (follow_ranges _) as [[|[lo hi] rs]|] eqn:E; [done| |done]. breflect.
  apply bool_decide_eq_true in H0. subst. apply (sequence_ok _ _ (Z.lor 0x80 (Z.land x 0x3F) :: tails) _ [] E). cbn [next_byte_in_range]. by rewrite H, next_byte_tail.
Qed.

Lemma one_byte b : 0 <= b < 0x80 -> text_ok [b].
Proof.
  intros Hb. split; [|repeat constructor; unfold is_byte; lia]. apply (forall_below 128 (fun b => utf8_loop 1 [b])); [by vm_compute|lia].
Qed.

Lemma utf8_bytes_ok cp : 0 <= cp < 0x110000 -> ~ (0xD800 <= cp < 0xE000) -> text_ok (utf8_bytes cp).
Proof.
  intros Hc Hs. unfold utf8_bytes. destruct (Z.ltb_spec cp 0x80); [apply one_byte; lia|].
  destruct (Z.leb_spec cp 0x7FF); [|destruct (Z.leb_spec cp 0xFFFF)].
  - apply (lead_ok_text 0); [apply lead_two; lia|done|constructor].
  - replace (Z.shiftr cp 12) with (Z.shiftr (Z.shiftr cp 6) 6) by (by rewrite Z.shiftr_shiftr by lia).
    apply (lead_ok_text 1); [|done|by repeat constructor; apply tail_byte].
    rewrite Z.shiftr_div_pow2 by lia. apply lead_three; Z.to_euclidean_division_equations; lia.
  - replace (Z.shiftr cp 18) with (Z.shiftr (Z.shiftr cp 12) 6) by (by rewrite Z.shiftr_shiftr by lia).
    apply (lead_ok_text 2); [|done|by repeat constructor; apply tail_byte].
    rewrite Z.shiftr_div_pow2 by lia. apply lead_four; Z.to_euclidean_division_equations; lia.
Qed.

Lemma hex_value_range b x : hex_value b = Some x -> 0 <= x < 16.
Proof. unfold hex_value, in_range. repeat case_match; intros [= <-]; breflect; lia. Qed.

Lemma get_codepoint_range l cp rest : get_codepoint l = Some (cp, rest) -> 0 <= cp < 0x10000.
Proof.
  unfold get_codepoint. destruct l as [|a [|b [|c [|d l]]]]; try done.
  destruct (hex_value a) as [va|] eqn:Ea; [|done]. destruct (hex_value b) as [vb|] eqn:Eb; [|done].
  destruct (hex_value c) as [vc|] eqn:Ec; [|done]. destruct (hex_value d) as [vd|] eqn:Ed; [|done].
  apply hex_value_range in Ea, Eb, Ec, Ed. cbn. intros [= <- _]. rewrite !Z.shiftl_mul_pow2 by lia. lia.
Qed.

Lemma scan_u_escape_ok l bs rest : scan_u_escape l = Some (bs, rest) -> text_ok bs.
Proof.
  unfold scan_u_escape. destruct (get_codepoint l) as [[cp l1]|] eqn:E; [|done]. cbn. apply get_codepoint_range in E.
  destruct (in_range 0xD800 0xDBFF cp) eqn:E1.
  - destruct l1 as [|x [|y l1]]; try done. destruct ((x =? 92) && (y =? 117)); [|done].
    destruct (get_codepoint l1) as [[cp2 l2]|] eqn:E2; [|done]. cbn. destruct (in_range 0xDC00 0xDFFF cp2) eqn:E3; [|done].
    intros [= <- _]. unfold in_range in *. breflect. apply utf8_bytes_ok; rewrite Z.shiftl_mul_pow2 by lia; unfold u32;
      rewrite (Z.mod_small (cp * 2 ^ 10)) by lia; rewrite Z.mod_small by lia; lia.
  - destruct (in_range 0xDC00 0xDFFF cp) eqn:E2; [done|]. intros [= <- _]. apply utf8_bytes_ok; [lia|]. unfold in_range in *.
    destruct (Z.leb_spec 0xD800 cp), (Z.leb_spec cp 0xDBFF), (Z.leb_spec 0xDC00 cp), (Z.leb_spec cp 0xDFFF); try done; lia.
Qed.

(** ** Tokens *)

Definition token_ok (t : token) : Prop :=
  match t with
  | T_string s => text_ok s
  | T_unsigned z | T_integer z => - 2 ^ 63 <= z < 2 ^ 64
  | T_float x => float_ok x
  | _ => True
  end.

Lemma short_escape_ok b x : short_escape b = Some x -> text_ok [x].
Proof. unfold short_escape. repeat case_match; intros [= <-]; apply one_byte; lia. Qed.

Lemma scan_string_ok fuel : forall l acc, text_ok acc -> token_ok (fst (scan_string fuel l acc)).
Proof.
  induction fuel as [|fuel IH]; intros l acc Ha; [by destruct l|]. destruct l as [|b l]; [done|]. cbn [scan_string].
  destruct (b =? 34); [done|]. destruct (b =? 92).
  - destruct l as [|c l]; [done|]. destruct (short_escape c) as [x|] eqn:E; [apply IH, text_ok_app; [done|by eapply short_escape_ok]|].
    destruct (c =? 117); [|done]. destruct (scan_u_escape l) as [[bs r]|] eqn:E'; [|done]. apply IH, text_ok_app; [done|by eapply scan_u_escape_ok].
  - destruct (follow_ranges b) as [rs|] eqn:E; [|done]. destruct (next_byte_in_range rs l) as [[q r]|] eqn:E'; [|done].
    apply IH, text_ok_app; [done|by eapply sequence_ok].
Qed.

Lemma convert_number_ok text : token_ok (convert_number text).
Proof.
  unfold convert_number. destruct (existsb _ text); [apply strtod_ok|]. destruct text as [|b ds]; [done|]. destruct (b =? 45).
  - pose proof (digits_val_nonneg ds 0 ltac:(lia)). destruct (Z.leb_spec (- 2 ^ 63) (- digits_val 0 ds)); [cbn [token_ok]; lia|apply strtod_ok].
  - pose proof (digits_val_nonneg (b :: ds) 0 ltac:(lia)). destruct (Z.ltb_spec (digits_val 0 (b :: ds)) (2 ^ 64)); [cbn [token_ok]; lia|apply strtod_ok].
Qed.

Lemma scan_literal_ok rest t : token_ok t -> forall l, token_ok (fst (scan_literal rest t l)).
Proof. intros Ht. induction rest as [|c rest IH]; intros [|b l]; cbn [scan_literal]; try done. destruct (b =? c); [apply IH|done]. Qed.

Lemma scan_ok l : token_ok (fst (scan l)).
Proof.
  unfold scan. destruct (skip_whitespace l) as [|b l']; [done|].
  repeat match goal with |- token_ok (fst (if b =? ?x then _ else _)) =>
    destruct (b =? x); [first [done|by apply scan_literal_ok|apply scan_string_ok; split; [done|constructor]]|] end.
  destruct ((b =? 45) || is_digit_byte b); [|by destruct (b =? 0)]. unfold scan_number.
  destruct (number_loop _ _ _) as [[st text] l1]. cbn [fst]. destruct (number_final st); [apply convert_number_ok|done].
Qed.

Lemma first_scan_ok l : token_ok (fst (first_scan l)).
Proof.
  unfold first_scan. destruct l as [|b l]; [done|]. destruct (b =? 0xEF); [|apply scan_ok].
  destruct l as [|c [|d l]]; try done. destruct ((c =? 0xBB) && (d =? 0xBF)); [apply scan_ok|done].
Qed.

(** ** Values *)

Lemma text_ok_valid s : text_ok s -> valid_utf8 (string_of s) = true.
Proof. intros [Hu Hb]. unfold valid_utf8. by rewrite <- bytes_of_length, bytes_of_string_of. Qed.

Lemma token_value_ok t j : token_ok t -> token_value t = Some (Ok j) -> wf_json j = true.
Proof.
  destruct t; cbn [token_ok token_value]; intros Ht; try (intros [= <-]); try done.
  - by apply text_ok_valid.
  - cbn [wf_json]. apply andb_true_iff. rewrite Z.leb_le, Z.ltb_lt. lia.
  - cbn [wf_json]. apply andb_true_iff. rewrite Z.leb_le, Z.ltb_lt. lia.
  - destruct (is_finite_float x) eqn:E; [|done]. intros [= <-]. by apply Ht.
Qed.

Definition fields_ok (fields : list (string * json)) : Prop :=
  sorted_keys fields = true /\ Forall (fun kv => valid_utf8 kv.1 = true /\ wf_json kv.2 = true) fields.

Lemma object_ok fields : fields_ok fields -> wf_json (JObject fields) = true.
Proof.
  intros [Hs Hf]. cbn [wf_json]. rewrite Hs. clear Hs. cbn [andb]. induction Hf as [|[k v] fields [Hk Hv] _ IH]; [done|].
  cbn [fst snd] in *. by rewrite Hk, Hv, IH.
Qed.

Lemma sorted_cons k v fields : Forall (fun kv => String.compare k kv.1 = Lt) fields -> sorted_keys fields = true -> sorted_keys ((k, v) :: fields) = true.
Proof. intros Hk Hs. destruct fields as [|[k' v'] fields]; [done|]. inversion Hk; subst. cbn [fst] in *. cbn [sorted_keys] in *. by rewrite H1. Qed.

Lemma obj_set_keys (P : string -> Prop) fields key v : P key -> Forall (fun kv => P kv.1) fields -> Forall (fun kv => P kv.1) (obj_set fields key v).
Proof.
  intros Hp. induction 1 as [|[k w] fields Hk Hf IH]; cbn [obj_set]; [by repeat constructor|].
  destruct (String.compare key k); repeat constructor; try done.
Qed.

Lemma obj_set_sorted fields key v : sorted_keys fields = true -> sorted_keys (obj_set fields key v) = true.
Proof.
  induction fields as [|[k w] fields IH]; [done|]. intros Hs. pose proof Hs as [Hk Hs']%sorted_head. cbn [obj_set].
  destruct (String.compare key k) eqn:E.
  - by apply sorted_cons.
  - cbn [sorted_keys] in *. by rewrite E.
  - apply sorted_cons; [|by apply IH]. apply (obj_set_keys (fun k' => String.compare k k' = Lt)); [|done].
    rewrite String.compare_antisym, E. done.
Qed.

Lemma obj_set_ok fields key v : fields_ok fields -> valid_utf8 key = true -> wf_json v = true -> fields_ok (obj_set fields key v).
Proof.
  intros [Hs Hf] Hk Hv. split; [by apply obj_set_sorted|]. clear Hs. induction Hf as [|[k w] fields [Hk' Hw] Hf IH]; cbn [obj_set]; [by repeat constructor|].
  destruct (String.compare key k); repeat constructor; done.
Qed.

(** ** The parser *)

Definition frame_ok (f : frame) : Prop :=
  match f with
  | frame_array items => Forall (fun j => wf_json j = true) items
  | frame_object fields key => fields_ok fields /\ valid_utf8 key = true
  end.

Definition point_ok (p : point) : Prop := match p with at_value t => token_ok t | behind j => wf_json j = true end.

Lemma scan_member_ok t l key t' l' : token_ok t -> scan_member t l = Ok (key, t', l') -> valid_utf8 key = true /\ token_ok t'.
Proof.
  destruct t; try done. cbn [token_ok scan_member]. intros Hs. destruct (scan l) as [t1 l1]. destruct t1; try done.
  pose proof (scan_ok l1) as Ht. destruct (scan l1) as [t2 l2]. intros [= <- <- <-]. split; [by apply text_ok_valid|done].
Qed.

Definition turn_ok (r : point * list Z * list frame + json * list Z) : Prop :=
  match r with
  | inl (p, _, states) => point_ok p /\ Forall frame_ok states
  | inr (j, _) => wf_json j = true
  end.

Lemma array_ok items : Forall (fun j => wf_json j = true) items -> wf_json (JArray (rev items)) = true.
Proof. intros H%Forall_rev. cbn [wf_json]. apply forallb_forall. by apply List.Forall_forall. Qed.

Lemma value_turn t l states r : token_ok t -> Forall frame_ok states -> sax_step (at_value t) l states = Ok r -> turn_ok r.
Proof.
  intros Ht Hs. destruct (token_value t) as [[j|e]|] eqn:E.
  - destruct t; try done; cbn [sax_step]; rewrite E; cbn; intros [= <-]; (split; [|done]); eapply token_value_ok; done.
  - destruct t; try done; cbn [sax_step]; by rewrite E.
  - destruct t; try done; cbn [sax_step]; pose proof (scan_ok l) as H1; destruct (scan l) as [t1 l1]; cbn [fst] in H1.
    + assert (Ha : Forall frame_ok (frame_array [] :: states)) by (constructor; [constructor|done]).
      destruct t1; intros [= <-]; by split.
    + assert (Hm : forall r, ('(key, t2, l2) ← scan_member t1 l1; Ok (inl (at_value t2, l2, frame_object [] key :: states))) = Ok r -> turn_ok r).
      { intros r'. destruct (scan_member t1 l1) as [[[key t2] l2]|] eqn:Em; [|done]. cbn. intros [= <-].
        destruct (scan_member_ok _ _ _ _ _ H1 Em). split; [done|]. constructor; [|done]. split; [split; [done|constructor]|done]. }
      destruct t1; try (intros Hr; by apply (Hm r)). intros [= <-]. by split.
Qed.

Lemma behind_turn j l states r : wf_json j = true -> Forall frame_ok states -> sax_step (behind j) l states = Ok r -> turn_ok r.
Proof.
  intros Hj Hs. destruct Hs as [|f states Hf Hs]; cbn [sax_step]; [by intros [= <-]|].
  destruct f as [items|fields key]; destruct (scan l) as [t1 l1]; cbn [frame_ok] in Hf.
  - destruct t1; try done.
    + intros [= <-]. split; [|done]. apply (array_ok (j :: items)). by constructor.
    + pose proof (scan_ok l1) as H2. destruct (scan l1) as [t2 l2]. intros [= <-]. split; [done|]. constructor; [by constructor|done].
  - destruct Hf as [Hf Hk]. pose proof (obj_set_ok _ _ _ Hf Hk Hj) as Ho. destruct t1; try done.
    + intros [= <-]. split; [|done]. by apply object_ok.
    + pose proof (scan_ok l1) as H2. destruct (scan l1) as [t2 l2]. cbn [fst] in H2.
      destruct (scan_member t2 l2) as [[[key' t3] l3]|] eqn:Em; [|done]. cbn. intros [= <-].
      destruct (scan_member_ok _ _ _ _ _ H2 Em). split; [done|]. by constructor.
Qed.

Lemma sax_parse_ok fuel : forall p l states j rest, point_ok p -> Forall frame_ok states ->
  sax_parse_internal fuel p l states = Ok (j, rest) -> wf_json j = true.
Proof.
  induction fuel as [|fuel IH]; intros p l states j rest Hp Hs; [done|]. cbn [sax_parse_internal].
  destruct (sax_step p l states) as [r|] eqn:E; [|done]. cbn [mbind res_bind].
  assert (Hr : turn_ok r) by (destruct p; [by eapply value_turn|by eapply behind_turn]).
  destruct r as [[[p' l'] states']|[j' l']]; [destruct Hr; by apply IH|]. by intros [= <- _].
Qed.

Lemma parse_ok text j : parse text = Ok j -> wf_json j = true.
Proof.
  unfold parse. pose proof (first_scan_ok text) as H1. destruct (first_scan text) as [t l]. cbn [fst] in H1.
  destruct (sax_parse_internal _ _ _ _) as [[j' rest]|] eqn:E; [|done]. cbn. destruct (fst (scan rest)); try done.
  intros [= <-]. by eapply sax_parse_ok; [| |exact E].
Qed.

(** C3: the reader is type-safe: whatever text a client sends, each value [json::parse] makes of it
    is well-formed (valid UTF-8, also where it was escaped; integers of 64 bits; finite doubles in
    the format of the machine; objects with one field per key, in key order), so that [dump] writes
    it without an exception, and the text written reads back as the same value. *)
Theorem parse_well_formed (text : string) (j : json) : parse_string text = Ok j ->
  wf_json j = true /\ exists s, dump_string j = Ok s /\ parse_string s = Ok j.
Proof. intros Hj%parse_ok. split; [done|]. by apply dump_parse. Qed.

(** A field twice, an escaped surrogate pair, a number that is not written as it is read. *)
Definition odd_text : string :=
  let q s := quote +:+ s +:+ quote in
  " {" +:+ q "b" +:+ ":1," +:+ q "a" +:+ ":" +:+ q "\ud83d\ude00" +:+ ", " +:+ q "b" +:+ ":[2.50e1, null]}".

Lemma parse_well_formed_witness : exists j s, parse_string odd_text = Ok j /\ wf_json j = true
  /\ dump_string j = Ok s /\ parse_string s = Ok j /\ String.length s = 28%nat.
Proof.
  destruct (parse_string odd_text) as [j|e] eqn:E; [|by vm_compute in E].
  destruct (parse_well_formed odd_text j E) as (Hw & s & Hd & Hp). exists j, s. split_and!; [done..|].
  assert (Hl : (t ← parse_string odd_text; String.length <$> dump_string t) = Ok 28%nat) by (vm_compute; reflexivity).
  rewrite E in Hl. cbn [mbind res_bind] in Hl. rewrite Hd in Hl. by injection Hl.
Defined.

(** ** Writing for the log *)

Section elements.
Context (step n : Z).

Fixpoint pretty_items (items : list json) : res (list Z) :=
  match items with
  | [] => Ok []
  | [v] => t ← dump_pretty step v n; Ok (blanks_of n ++ t)
  | v :: items => t ← dump_pretty step v n; ts ← pretty_items items; Ok (blanks_of n ++ t ++ [44; 10] ++ ts)
  end.

Fixpoint pretty_fields (fields : list (string * json)) : res (list Z) :=
  match fields with
  | [] => Ok []
  | [(key, v)] => k ← dump_escaped key; t ← dump_pretty step v n; Ok (blanks_of n ++ [34] ++ k ++ [34; 58; 32] ++ t)
  | (key, v) :: fields =>
      k ← dump_escaped key; t ← dump_pretty step v n; ts ← pretty_fields fields;
      Ok (blanks_of n ++ [34] ++ k ++ [34; 58; 32] ++ t ++ [44; 10] ++ ts)
  end.
End elements.

Lemma pretty_array step v items indent : dump_pretty step (JArray (v :: items)) indent
  = ts ← pretty_items step (u32 (indent + step)) (v :: items); Ok ([91; 10] ++ ts ++ [10] ++ blanks_of indent ++ [93]).
Proof. reflexivity. Qed.

Lemma pretty_object step kv fields indent : dump_pretty step (JObject (kv :: fields)) indent
  = ts ← pretty_fields step (u32 (indent + step)) (kv :: fields); Ok ([123; 10] ++ ts ++ [10] ++ blanks_of indent ++ [125]).
Proof. reflexivity. Qed.

Definition prints (j : json) : Prop := forall step indent, exists text, dump_pretty step j indent = Ok text.

Lemma pretty_items_ok step n items : Forall prints items -> exists ts, pretty_items step n items = Ok ts.
Proof.
  induction 1 as [|v items Hv _ [ts IH]]; [by eexists|]. destruct (Hv step n) as [t Et]. cbn [pretty_items]. rewrite Et.
  destruct items; [by eexists|]. rewrite IH. by eexists.
Qed.

Lemma pretty_fields_ok step n fields : Forall (fun kv => valid_utf8 kv.1 = true /\ prints kv.2) fields -> exists ts, pretty_fields step n fields = Ok ts.
Proof.
  induction 1 as [|[k v] fields [Hk Hv] _ [ts IH]]; [by eexists|]. destruct (scan_dump_string k [] Hk) as (out & Ek & _). destruct (Hv step n) as [t Et].
  cbn [pretty_fields]. rewrite Ek. cbn [fst snd mbind res_bind] in *. rewrite Et. destruct fields; [by eexists|]. rewrite IH. by eexists.
Qed.

(** What the reader returns can be written with an indentation, too. *)
Lemma dump_pretty_ok j : wf_json j = true -> prints j.
Proof.
  induction j as [|fields IH|items IH|s|b|z|x|bs st] using json_nested_ind; intros Hw step indent; try (cbn; by eexists).
  - cbn [wf_json] in Hw. apply andb_true_iff in Hw as [_ Hf%wf_fields]. destruct fields as [|kv fields]; [by eexists|].
    destruct (pretty_fields_ok step (u32 (indent + step)) (kv :: fields)) as [ts E].
    { apply Forall_forall. intros kv' Hin. rewrite Forall_forall in IH, Hf. destruct (Hf kv' Hin). split; [done|]. by apply IH. }
    rewrite pretty_object, E. by eexists.
  - cbn [wf_json] in Hw. rewrite forallb_forall in Hw. destruct items as [|v items]; [by eexists|].
    destruct (pretty_items_ok step (u32 (indent + step)) (v :: items)) as [ts E].
    { apply Forall_forall. intros v' Hin. rewrite Forall_forall in IH. apply IH; [done|]. by apply Hw, list_elem_of_In. }
    rewrite pretty_array, E. by eexists.
  - cbn [dump_pretty dump]. destruct (scan_dump_string s [] Hw) as (out & -> & _). by eexists.
Qed.

(** Arrays in arrays. *)
Fixpoint nested (n : nat) : json := match n with O => JArray [] | S n => JArray [nested n] end.

Lemma nested_wf n : wf_json (nested n) = true.
Proof. induction n as [|n IH]; [done|]. cbn [nested wf_json forallb]. by rewrite IH. Qed.

Lemma nested_text n : dump (nested n) = Ok (replicate (S n) 91 ++ replicate (S n) 93).
Proof.
  induction n as [|n IH]; [done|]. cbn [nested]. rewrite dump_array. cbn [dump_items]. rewrite IH. cbn [mbind res_bind]. f_equal.
  rewrite (replicate_S_end (S n) 93). cbn [replicate app]. by rewrite <- !app_assoc.
Qed.

Lemma nested_log n : forall k, k + 2 * Z.of_nat n < 2 ^ 32 -> 0 <= k -> exists text, dump_pretty 2 (nested n) k = Ok text
  /\ Z.of_nat (length text) = 2 * (Z.of_nat n + 1) * (Z.of_nat n + 1) + 2 * k * Z.of_nat n.
Proof.
  induction n as [|n IH]; intros k Hk Hk0; [eexists; split; [done|cbn; lia]|]. destruct (IH (k + 2) ltac:(lia) ltac:(lia)) as (text & E & Hl).
  cbn [nested]. rewrite pretty_array. unfold u32. rewrite Z.mod_small by lia. cbn [pretty_items]. rewrite E. cbn [mbind res_bind].
  eexists. split; [done|]. unfold blanks_of. rewrite !length_app, !length_replicate. cbn [length]. rewrite !Nat2Z.inj_add, Hl, !Z2Nat.id by lia. nia.
Qed.

(** The log of a request can be as long as the square of the request: for a body of m arrays
    inside each other (m = n + 1), which has 2 m bytes, [received_json.dump(2)] makes a text of
    exactly 2 m^2 bytes. *)
Theorem nested_request_log (n : nat) : Z.of_nat n < 2 ^ 31 ->
  exists j text, parse_string (string_of (replicate (S n) 91 ++ replicate (S n) 93)) = Ok j
  /\ dump_pretty 2 j 0 = Ok text /\ Z.of_nat (length text) = 2 * Z.of_nat (S n) * Z.of_nat (S n).
Proof.
  intros Hn. destruct (nested_log n 0 ltac:(lia) ltac:(lia)) as (text & E & Hl). exists (nested n), text.
  destruct (dump_parse (nested n) (nested_wf n)) as (s & Hd & Hp). unfold dump_string in Hd. rewrite nested_text in Hd. cbn in Hd.
  injection Hd as <-. split; [exact Hp|]. split; [done|]. rewrite Hl. lia.
Qed.

Lemma nested_request_log_witness : exists j text, parse_string "[[[]]]" = Ok j /\ dump_pretty 2 j 0 = Ok text /\ length text = 18%nat.
Proof.
  destruct (nested_request_log 2 ltac:(lia)) as (j & text & E & Ep & Hl). exists j, text. split; [exact E|]. split; [exact Ep|]. lia.
Defined.

(** ** Termination *)

Lemma skip_whitespace_length l : (length (skip_whitespace l) <= length l)%nat.
Proof. induction l as [|b l IH]; cbn [skip_whitespace length]; [lia|]. destruct (is_ws b); cbn [length]; lia. Qed.

Lemma get_codepoint_length l cp rest : get_codepoint l = Some (cp, rest) -> (length rest <= length l)%nat.
Proof.
  unfold get_codepoint. destruct l as [|a [|b [|c [|d l]]]]; try done.
  destruct (hex_value a), (hex_value b), (hex_value c), (hex_value d); try done. cbn. intros [= _ <-]. lia.
Qed.

Lemma scan_u_escape_length l bs rest : scan_u_escape l = Some (bs, rest) -> (length rest <= length l)%nat.
Proof.
  unfold scan_u_escape. destruct (get_codepoint l) as [[cp l1]|] eqn:E; [|done]. apply get_codepoint_length in E. cbn.
  destruct (in_range 0xD800 0xDBFF cp).
  - destruct l1 as [|x [|y l1]]; try done. destruct ((x =? 92) && (y =? 117)); [|done].
    destruct (get_codepoint l1) as [[cp2 l2]|] eqn:E2; [|done]. apply get_codepoint_length in E2. cbn in *.
    destruct (in_range 0xDC00 0xDFFF cp2); [|done]. intros [= _ <-]. lia.
  - destruct (in_range 0xDC00 0xDFFF cp); [done|]. intros [= _ <-]. done.
Qed.

Lemma next_byte_length rs l q rest : next_byte_in_range rs l = Some (q, rest) -> (length rest <= length l)%nat.
Proof. intros ->%next_byte_app. rewrite length_app. lia. Qed.

(** The string is read to its end, and the reader never goes back. *)
Lemma scan_string_total fuel : forall l acc, (length l < fuel)%nat ->
  (length (snd (scan_string fuel l acc)) <= length l)%nat /\ forall k, scan_string (fuel + k) l acc = scan_string fuel l acc.
Proof.
  induction fuel as [|fuel IH]; intros l acc Hl; [lia|]. destruct l as [|b l]; [done|]. cbn [length] in Hl.
  cbn [plus scan_string]. destruct (b =? 34); [cbn; split; [lia|done]|].
  assert (Hn : forall l' acc', (length l' <= length l)%nat -> (length (snd (scan_string fuel l' acc')) <= S (length l))%nat
    /\ forall k, scan_string (fuel + k) l' acc' = scan_string fuel l' acc').
  { intros l' acc' Hl'. destruct (IH l' acc' ltac:(lia)). split; [lia|done]. }
  destruct (b =? 92).
  - destruct l as [|c l]; [cbn; split; [lia|done]|]. cbn [length] in *. destruct (short_escape c); [apply Hn; lia|].
    destruct (c =? 117); [|cbn; split; [lia|done]].
    destruct (scan_u_escape l) as [[bs r]|] eqn:E; [|cbn; split; [lia|done]]. apply scan_u_escape_length in E. apply Hn. lia.
  - destruct (follow_ranges b) as [rs|]; [|cbn; split; [lia|done]].
    destruct (next_byte_in_range rs l) as [[q r]|] eqn:E; [|cbn; split; [lia|done]]. apply next_byte_length in E. by apply Hn.
Qed.

Lemma number_loop_length l : forall st acc, (length (snd (number_loop st l acc)) <= length l)%nat.
Proof.
  induction l as [|b l IH]; intros st acc; cbn [number_loop]; [cbn; lia|]. destruct (number_next st b) as [st'|]; [|done].
  specialize (IH st' (acc ++ [b])). cbn [length]. lia.
Qed.

Lemma scan_literal_length rest t : forall l, (length (snd (scan_literal rest t l)) <= length l)%nat.
Proof.
  induction rest as [|c rest IH]; intros [|b l]; cbn [scan_literal length]; try (cbn; lia). destruct (b =? c); [|cbn; lia].
  specialize (IH l). lia.
Qed.

(** A token takes at least a byte, or it is the end. *)
Lemma scan_shrinks l : (length (snd (scan l)) < length l)%nat \/ fst (scan l) = T_end_of_input /\ (length (snd (scan l)) <= length l)%nat.
Proof.
  unfold scan. pose proof (skip_whitespace_length l) as Hw. destruct (skip_whitespace l) as [|b l']; [right; cbn; split; [done|lia]|].
  cbn [length] in Hw. left. enough (H : forall x : token * list Z, (length (snd x) <= length l')%nat -> (length (snd x) < length l)%nat).
  { apply H. repeat match goal with |- context [if b =? ?x then _ else _] => destruct (b =? x) end;
      try (cbn [snd]; lia); try apply scan_literal_length; try (apply (scan_string_total (S (length l'))); lia).
    all: destruct (_ || _); try (cbn [snd]; lia); unfold scan_number; pose proof (number_loop_length l' (if b =? 45 then N_minus else if b =? 48 then N_zero else N_any1) [b]) as Hn.
    all: by destruct (number_loop _ _ _) as [[st text] l1]. }
  intros x Hx. lia.
Qed.

(** What is left to do: the text, and the token that was read. *)
Definition weight (p : point) : nat := match p with at_value T_end_of_input => 0 | at_value _ => 1 | behind _ => 0 end.
Definition measure (p : point) (l : list Z) : nat := 2 * length l + weight p.

Lemma weight_scan l : (measure (at_value (fst (scan l))) (snd (scan l)) <= 2 * length l)%nat.
Proof.
  unfold measure. destruct (scan_shrinks l) as [H|[E H]].
  - assert (weight (at_value (fst (scan l))) <= 1)%nat by (by destruct (fst (scan l)); cbn; lia). lia.
  - rewrite E. cbn [weight]. lia.
Qed.

Lemma scan_member_shrinks t l key t' l' : scan_member t l = Ok (key, t', l') -> (measure (at_value t') l' < 2 * length l)%nat.
Proof.
  destruct t; try done. cbn [scan_member]. pose proof (scan_shrinks l) as H. destruct (scan l) as [t1 l1]. destruct t1; try done.
  destruct H as [H|[? _]]; [|done]. pose proof (weight_scan l1) as Hw. destruct (scan l1) as [t2 l2]. cbn [fst snd] in *. intros [= _ <- <-]. lia.
Qed.

Lemma sax_step_shrinks p l states p' l' states' : sax_step p l states = Ok (inl (p', l', states')) -> (measure p' l' < measure p l)%nat.
Proof.
  pose proof (weight_scan l) as Hw. pose proof (scan_shrinks l) as Hs. destruct p as [t|j].
  - destruct t; cbn [sax_step token_value]; try done; try (cbn; intros [= <- <- _]; unfold measure; cbn; lia).
    + destruct (scan l) as [t1 l1]. cbn [fst snd] in *. unfold measure in *. cbn [weight] in *.
      destruct t1; intros [= <- <- _]; cbn [weight] in *; lia.
    + destruct (scan l) as [t1 l1]. cbn [fst snd] in *.
      assert (Hm : forall r, ('(key, t2, l2) ← scan_member t1 l1; Ok (inl (at_value t2, l2, frame_object [] key :: states)))
          = Ok (inl r : _ + json * list Z) ->
        (measure r.1.1 r.1.2 < measure (at_value T_begin_object) l)%nat).
      { intros r. destruct (scan_member t1 l1) as [[[key t2] l2]|] eqn:E; [|done]. cbn. intros [= <-]. cbn.
        apply scan_member_shrinks in E. unfold measure in *. destruct t1; try done; cbn [weight] in *; lia. }
      destruct t1; try (intros Hr; apply (Hm (p', l', states') Hr)). intros [= <- <- _]. unfold measure in *. cbn [weight] in *. lia.
    + destruct (is_finite_float x); [|done]. intros [= <- <- _]. unfold measure. cbn. lia.
  - destruct states as [|[items|fields key] states]; cbn [sax_step]; [done| |];
      destruct (scan l) as [t1 l1]; cbn [fst snd] in *; (destruct Hs as [Hs|[-> _]]; [|done]);
      (destruct t1; try done; [intros [= <- <- _]; unfold measure; cbn [weight]; lia|]); pose proof (weight_scan l1) as Hw2;
      destruct (scan l1) as [t2 l2]; cbn [fst snd] in Hw2.
    + intros [= <- <- _]. unfold measure in *. cbn [weight] in *. lia.
    + destruct (scan_member t2 l2) as [[[key' t3] l3]|] eqn:E; [|done]. cbn. intros [= <- <- _].
      apply scan_member_shrinks in E. unfold measure in *. cbn [weight] in *. lia.
Qed.

Lemma sax_parse_total n : forall p l states k, (measure p l < n)%nat ->
  sax_parse_internal (n + k) p l states = sax_parse_internal n p l states.
Proof.
  induction n as [|n IH]; intros p l states k Hm; [lia|]. cbn [plus sax_parse_internal].
  destruct (sax_step p l states) as [[[[p' l'] states']|r]|] eqn:E; [|done..]. cbn [mbind res_bind].
  apply sax_step_shrinks in E. apply IH. lia.
Qed.

Lemma first_scan_length text : (length (snd (first_scan text)) <= length text)%nat.
Proof.
  unfold first_scan. assert (H : forall l, (length (snd (scan l)) <= length l)%nat) by (intros l; destruct (scan_shrinks l) as [|[_ ?]]; lia).
  destruct text as [|b l]; [apply H|]. destruct (b =? 0xEF); [|apply H].
  destruct l as [|c [|d l]]; [cbn; lia..|]. destruct ((c =? 0xBB) && (d =? 0xBF)); [|cbn; lia]. specialize (H l). cbn [length]. lia.
Qed.

(** A result of [json::parse]: a value, or one of the two exceptions of the parser. *)
Definition returned {A} (r : res A) : Prop :=
  (exists a, r = Ok a) \/ r = Throw json_parse_error \/ r = Throw (json_out_of_range 406).

Lemma returned_bind {A B} (r : res A) (f : A -> res B) : returned r -> (forall a, returned (f a)) -> returned (r ≫= f).
Proof. intros [[a ->]|[-> | ->]] Hf; [apply Hf|right; by left|right; by right]. Qed.

Lemma returned_ok {A} (a : A) : returned (Ok a).
Proof. left. by eexists. Qed.

Lemma returned_error {A} : returned (A := A) (Throw json_parse_error).
Proof. right. by left. Qed.

Lemma scan_member_returned t l : returned (scan_member t l).
Proof. unfold scan_member. destruct t; try apply returned_error. destruct (scan l) as [[] l']; try apply returned_error. destruct (scan l'). apply returned_ok. Qed.

Lemma token_value_returned t r : token_value t = Some r -> returned r.
Proof.
  destruct t; cbn; intros [= <-]; try apply returned_ok. destruct (is_finite_float _); [apply returned_ok|]. right. by right.
Qed.

Lemma sax_step_returned p l states : returned (sax_step p l states).
Proof.
  unfold sax_step. destruct p as [t|j].
  - destruct t; cbv iota; try (destruct (token_value _) as [r|] eqn:E; [|apply returned_error]; apply token_value_returned in E; apply returned_bind; [done|intros a; apply returned_ok]).
    + destruct (scan l) as [t l']. destruct t; apply returned_ok.
    + destruct (scan l) as [t l']. destruct t; try apply returned_ok; (apply returned_bind; [apply scan_member_returned|intros [[]]; apply returned_ok]).
  - destruct states as [|[items|fields key] states]; [apply returned_ok|..]; destruct (scan l) as [[] l']; try apply returned_error; try apply returned_ok;
      destruct (scan l') as [t l'']; [apply returned_ok|]. apply returned_bind; [apply scan_member_returned|intros [[]]; apply returned_ok].
Qed.

Lemma sax_parse_returned n : forall p l states, (measure p l < n)%nat -> returned (sax_parse_internal n p l states).
Proof.
  induction n as [|n IH]; intros p l states Hm; [lia|]. cbn [sax_parse_internal]. pose proof (sax_step_returned p l states) as Hr.
  destruct (sax_step p l states) as [[[[p' l'] states']|r]|e] eqn:E; cbn [mbind res_bind].
  - apply sax_step_shrinks in E. apply IH. lia.
  - apply returned_ok.
  - by destruct Hr as [[? ?]|[[= ->]|[= ->]]]; [|right; left|right; right].
Qed.


