(* ===== verification/JsonOps.v ===== *)
(** * json.hpp: values as containers

    The checked access, the capacity, the modifiers and the comparison for equality of [basic_json].
    A call that changes a value gives the value behind the call. *)

From S2P Require Import Prelude Str Json JsonSpec JsonWf.
From Stdlib Require Import Ascii SpecFloat.
From Stdlib Require String.

Local Open Scope string_scope.
Local Open Scope Z_scope.
Local Open Scope list_scope.

(** ** Access and capacity *)

Definition is_null (j : json) : bool := match j with JNull => true | _ => false end.
Definition is_object (j : json) : bool := match j with JObject _ => true | _ => false end.
Definition is_array (j : json) : bool := match j with JArray _ => true | _ => false end.
Definition is_primitive (j : json) : bool := negb (is_object j) && negb (is_array j).

(** [at(key)] and [at(idx)]. *)
Definition at_key (j : json) (key : string) : res json :=
  match j with
  | JObject fields => match obj_find fields key with Some v => Ok v | None => Throw (json_out_of_range 403) end
  | _ => Throw (json_type_error 304)
  end.

Definition at_index (j : json) (idx : nat) : res json :=
  match j with
  | JArray items => match items !! idx with Some v => Ok v | None => Throw (json_out_of_range 401) end
  | _ => Throw (json_type_error 304)
  end.

Definition json_empty (j : json) : bool :=
  match j with
  | JNull => true
  | JArray items => match items with [] => true | _ => false end
  | JObject fields => match fields with [] => true | _ => false end
  | _ => false
  end.

Definition json_size (j : json) : nat :=
  match j with
  | JNull => 0
  | JArray items => length items
  | JObject fields => length fields
  | _ => 1
  end%nat.

(** [contains(key)] and [count(key)]. *)
Definition contains_key (j : json) (key : string) : bool :=
  match j with JObject fields => match obj_find fields key with Some _ => true | None => false end | _ => false end.
Definition count_key (j : json) (key : string) : nat := if contains_key j key then 1%nat else 0%nat.

(** ** Modifiers *)

Definition json_clear (j : json) : json :=
  match j with
  | JInt _ => JInt 0
  | JFloat _ => JFloat (S754_zero false)
  | JBool _ => JBool false
  | JString _ => JString ""
  | JArray _ => JArray []
  | JObject _ => JObject []
  | JBinary _ subtype => JBinary [] subtype
  | JNull => JNull
  end.

Definition push_back (j val : json) : res json :=
  match j with
  | JNull => Ok (JArray [val])
  | JArray items => Ok (JArray (items ++ [val]))
  | _ => Throw (json_type_error 308)
  end.

(** [push_back] of a field: [std::map::insert], which keeps a field that is there. *)
Definition push_back_field (j : json) (key : string) (val : json) : res json :=
  match j with
  | JNull => Ok (JObject [(key, val)])
  | JObject fields => Ok (JObject match obj_find fields key with Some _ => fields | None => obj_set fields key val end)
  | _ => Throw (json_type_error 308)
  end.

(** [emplace_back] and [emplace]; the flag tells whether the field is new. *)
Definition emplace_back (j val : json) : res json :=
  match j with
  | JNull => Ok (JArray [val])
  | JArray items => Ok (JArray (items ++ [val]))
  | _ => Throw (json_type_error 311)
  end.

Definition emplace (j : json) (key : string) (val : json) : res (json * bool) :=
  match j with
  | JNull => Ok (JObject [(key, val)], true)
  | JObject fields =>
      match obj_find fields key with Some _ => Ok (j, false) | None => Ok (JObject (obj_set fields key val), true) end
  | _ => Throw (json_type_error 311)
  end.

(** [insert(begin() + pos, val)] for a position within the array. *)
Definition insert_at (j : json) (pos : nat) (val : json) : res json :=
  match j with
  | JArray items => Ok (JArray (take pos items ++ [val] ++ drop pos items))
  | _ => Throw (json_type_error 309)
  end.

(** [insert(first, last)] for all fields of another object. *)
Definition insert_fields (j other : json) : res json :=
  match j, other with
  | JObject fields, JObject others =>
      Ok (JObject (foldl (fun o '(k, v) => match obj_find o k with Some _ => o | None => obj_set o k v end) fields others))
  | JObject _, _ => Throw (json_invalid_iterator 202)
  | _, _ => Throw (json_type_error 309)
  end.

Fixpoint obj_erase (fields : list (string * json)) (key : string) : list (string * json) :=
  match fields with
  | [] => []
  | (k, v) :: fields => if String.eqb k key then fields else (k, v) :: obj_erase fields key
  end.

(** [erase(key)], with the number of fields removed, and [erase(idx)]. *)
Definition erase_key (j : json) (key : string) : res (json * nat) :=
  match j with
  | JObject fields => Ok (JObject (obj_erase fields key), count_key j key)
  | _ => Throw (json_type_error 307)
  end.

Definition erase_index (j : json) (idx : nat) : res json :=
  match j with
  | JArray items => if (length items <=? idx)%nat then Throw (json_out_of_range 401) else Ok (JArray (delete idx items))
  | _ => Throw (json_type_error 307)
  end.

(** [update(j, merge_objects)].  The inner call on a field that is not an object throws; what the call
    has changed up to then is not kept here. *)
Fixpoint update (merge_objects : bool) (j : json) (this : json) : res json :=
  match this with
  | JNull | JObject _ =>
      match j with
      | JObject others =>
          (fix go (others : list (string * json)) (fields : list (string * json)) : res json :=
             match others with
             | [] => Ok (JObject fields)
             | (key, v) :: others =>
                 match (if merge_objects && is_object v then obj_find fields key else None) with
                 | Some old => merged ← update true v old; go others (obj_set fields key merged)
                 | None => go others (obj_set fields key v)
                 end
             end) others (match this with JObject fields => fields | _ => [] end)
      | _ => Throw (json_type_error 312)
      end
  | _ => Throw (json_type_error 312)
  end.

(** ** Equality *)

(** [operator==].  Of a signed and an unsigned number the unsigned one is converted to 64 signed bits;
    of an integer and a float the integer is converted. *)
Fixpoint json_eq (lhs rhs : json) {struct lhs} : bool :=
  match lhs, rhs with
  | JArray l, JArray r =>
      (fix go (l r : list json) : bool :=
         match l, r with
         | [], [] => true
         | x :: l, y :: r => json_eq x y && go l r
         | _, _ => false
         end) l r
  | JObject l, JObject r =>
      (fix go (l r : list (string * json)) : bool :=
         match l, r with
         | [], [] => true
         | (k, x) :: l, (k', y) :: r => String.eqb k k' && json_eq x y && go l r
         | _, _ => false
         end) l r
  | JNull, JNull => true
  | JString s, JString t => String.eqb s t
  | JBool a, JBool b => Bool.eqb a b
  | JInt a, JInt b => s64 a =? s64 b
  | JFloat x, JFloat y => SFeqb x y
  | JInt a, JFloat y => SFeqb (double_of_int a) y
  | JFloat x, JInt b => SFeqb x (double_of_int b)
  | JBinary a t, JBinary b u => bool_decide (a = b) && bool_decide (t = u)
  | _, _ => false
  end.

(** ** Fields of sorted objects *)

Lemma compare_gt_lt s t : String.compare s t = Gt -> String.compare t s = Lt.
Proof. rewrite String.compare_antisym. by destruct (String.compare t s). Qed.

Lemma find_below k fields : Forall (fun kv => String.compare k kv.1 = Lt) fields -> obj_find fields k = None.
Proof.
  induction 1 as [|[k' v] fields Hk _ IH]; [done|]. cbn in *. destruct (String.eqb_spec k' k) as [->|]; [|done].
  by rewrite (proj2 (string_compare_eq k k) eq_refl) in Hk.
Qed.

Lemma find_head k v fields : sorted_keys ((k, v) :: fields) = true -> obj_find fields k = None.
Proof. intros [Hk _]%sorted_head. by apply find_below. Qed.

(** Sorted fields are related one by one when they are related key by key. *)
Lemma fields_rel (R : json -> json -> Prop) a : forall b, sorted_keys a = true -> sorted_keys b = true ->
  (forall k, option_Forall2 R (obj_find a k) (obj_find b k)) -> Forall2 (fun x y => x.1 = y.1 /\ R x.2 y.2) a b.
Proof.
  induction a as [|[k v] a IH]; intros [|[k' w] b] Ha Hb H.
  - constructor.
  - specialize (H k'). cbn in H. rewrite String.eqb_refl in H. inversion H.
  - specialize (H k). cbn in H. rewrite String.eqb_refl in H. inversion H.
  - pose proof (find_head _ _ _ Ha) as Fa. pose proof (find_head _ _ _ Hb) as Fb.
    apply sorted_head in Ha as [Ka Sa]. apply sorted_head in Hb as [Kb Sb].
    assert (k = k') as <-.
    { destruct (String.compare k k') eqn:E; [by apply string_compare_eq in E|exfalso..].
      - specialize (H k). cbn in H. rewrite String.eqb_refl in H. destruct (String.eqb_spec k' k) as [->|_].
        { by rewrite (proj2 (string_compare_eq k k) eq_refl) in E. }
        rewrite (find_below k b) in H; [inversion H|]. eapply Forall_impl; [exact Kb|]. intros [k2 v2] Hk2. by eapply string_lt_trans.
      - apply compare_gt_lt in E. specialize (H k'). cbn in H. rewrite String.eqb_refl in H. destruct (String.eqb_spec k k') as [->|_].
        { by rewrite (proj2 (string_compare_eq k' k') eq_refl) in E. }
        rewrite (find_below k' a) in H; [inversion H|]. eapply Forall_impl; [exact Ka|]. intros [k2 v2] Hk2. by eapply string_lt_trans. }
    constructor.
    + specialize (H k). cbn in H. rewrite String.eqb_refl in H. by inversion H.
    + apply IH; [done..|]. intros kk. specialize (H kk). cbn in H. destruct (String.eqb_spec k kk) as [E|]; [|done].
      rewrite <- E, Fa, Fb. constructor.
Qed.

Lemma fields_ext a b : sorted_keys a = true -> sorted_keys b = true -> (forall k, obj_find a k = obj_find b k) -> a = b.
Proof.
  intros Ha Hb H. enough (Forall2 (fun x y => x.1 = y.1 /\ x.2 = y.2) a b) as F
    by (clear -F; induction F as [|[k v] [k' v'] a b [E E'] F IH]; cbn in *; by subst).
  apply fields_rel; [done..|]. intros k. rewrite H. by destruct (obj_find b k); constructor.
Qed.

Lemma obj_find_erase fields key k : sorted_keys fields = true ->
  obj_find (obj_erase fields key) k = if String.eqb key k then None else obj_find fields k.
Proof.
  induction fields as [|[k' v] fields IH]; intros Hs; cbn; [by destruct (String.eqb key k)|].
  pose proof (find_head _ _ _ Hs) as Hf. apply sorted_head in Hs as [_ Hs].
  destruct (String.eqb_spec k' key) as [->|Hne]; cbn.
  - destruct (String.eqb_spec key k) as [->|]; [done|]. done.
  - rewrite IH by done. destruct (String.eqb_spec k' k) as [->|]; [|done]. destruct (String.eqb_spec key k) as [->|]; [done|]. done.
Qed.

Lemma obj_erase_keys (P : string -> Prop) fields key : Forall (fun kv => P kv.1) fields -> Forall (fun kv => P kv.1) (obj_erase fields key).
Proof. induction 1 as [|[k v] fields Hk H IH]; cbn; [constructor|]. destruct (String.eqb k key); [done|by constructor]. Qed.

Lemma obj_erase_sorted fields key : sorted_keys fields = true -> sorted_keys (obj_erase fields key) = true.
Proof.
  induction fields as [|[k v] fields IH]; [done|]. intros [Hk Hs]%sorted_head. cbn. destruct (String.eqb k key); [done|].
  apply sorted_cons; [by apply (obj_erase_keys (fun k' => String.compare k k' = Lt))|by apply IH].
Qed.

(** ** The laws of update *)

Definition update_fields (merge_objects : bool) : list (string * json) -> list (string * json) -> res json :=
  fix go (others fields : list (string * json)) : res json :=
    match others with
    | [] => Ok (JObject fields)
    | (key, v) :: others =>
        match (if merge_objects && is_object v then obj_find fields key else None) with
        | Some old => merged ← update true v old; go others (obj_set fields key merged)
        | None => go others (obj_set fields key v)
        end
    end.

Lemma update_object merge_objects others fields :
  update merge_objects (JObject others) (JObject fields) = update_fields merge_objects others fields.
Proof. reflexivity. Qed.

(** What a field is behind an update with the value [new]. *)
Definition updated (merge_objects : bool) (old new : option json) (v : option json) : Prop :=
  match new with
  | None => v = old
  | Some n =>
      match (if merge_objects && is_object n then old else None) with
      | Some o => exists w, update true n o = Ok w /\ v = Some w
      | None => v = Some n
      end
  end.

Lemma update_fields_find merge_objects others : forall fields u, sorted_keys others = true -> sorted_keys fields = true ->
  update_fields merge_objects others fields = Ok u ->
  exists us, u = JObject us /\ sorted_keys us = true
    /\ forall k, updated merge_objects (obj_find fields k) (obj_find others k) (obj_find us k).
Proof.
  induction others as [|[key v] others IH]; intros fields u Ho Hf; cbn [update_fields].
  - intros [= <-]. exists fields. split_and!; done.
  - pose proof (find_head _ _ _ Ho) as Hn. apply sorted_head in Ho as [_ Ho].
    assert (forall x, update_fields merge_objects others (obj_set fields key x) = Ok u ->
      match (if merge_objects && is_object v then obj_find fields key else None) with
      | Some o => update true v o = Ok x | None => x = v end ->
      exists us, u = JObject us /\ sorted_keys us = true
        /\ forall k, updated merge_objects (obj_find fields k) (obj_find ((key, v) :: others) k) (obj_find us k)) as G.
    { intros x Hx Hc. apply IH in Hx as (us & -> & Hs & Hu); [|done|by apply obj_set_sorted]. exists us. split_and!; [done..|].
      intros k. specialize (Hu k). rewrite obj_find_set in Hu. cbn [obj_find]. destruct (String.eqb_spec key k) as [Ek|]; [|done].
      subst k. rewrite Hn in Hu. cbn [updated] in *. rewrite Hu. destruct (if merge_objects && is_object v then _ else _); [by exists x|by subst x]. }
    destruct (if merge_objects && is_object v then _ else _) as [old|] eqn:E.
    + destruct (update true v old) as [w|e] eqn:Ew; [|done]. cbn. intros H. by apply (G w).
    + intros H. by apply (G v).
Qed.

(** An update overwrites exactly the fields of the other object: every field it does not name stays,
    every field it names is the new value, or, when objects are merged and both values are there and the
    new one is an object, the old value updated by the new one. *)
Theorem update_overwrites (merge_objects : bool) (fields others : list (string * json)) (u : json) :
  sorted_keys fields = true -> sorted_keys others = true -> update merge_objects (JObject others) (JObject fields) = Ok u ->
  exists us, u = JObject us /\ sorted_keys us = true
    /\ forall k, updated merge_objects (obj_find fields k) (obj_find others k) (obj_find us k).
Proof. rewrite update_object. intros Hf Ho. by apply update_fields_find. Qed.

Lemma update_overwrites_witness : exists us, sorted_keys us = true
  /\ update true (make_obj [("a", make_obj [("x", JInt 1)]); ("b", JNull)]) (make_obj [("a", make_obj [("y", JInt 2)]); ("c", JInt 3)]) = Ok (JObject us)
  /\ obj_find us "a" = Some (make_obj [("y", JInt 2); ("x", JInt 1)]) /\ obj_find us "b" = Some JNull /\ obj_find us "c" = Some (JInt 3).
Proof.
  destruct (update_overwrites true [("a", make_obj [("y", JInt 2)]); ("c", JInt 3)] [("a", make_obj [("x", JInt 1)]); ("b", JNull)]
    (make_obj [("a", make_obj [("y", JInt 2); ("x", JInt 1)]); ("b", JNull); ("c", JInt 3)]) eq_refl eq_refl eq_refl) as (us & E & Hs & Hu).
  injection E as <-. eexists. split_and!; [exact Hs|reflexivity..].
Defined.

(** ** Equality *)

Fixpoint no_nan (j : json) : bool :=
  match j with
  | JObject fields => forallb (fun '(_, v) => no_nan v) fields
  | JArray items => forallb no_nan items
  | JFloat x => match x with S754_nan => false | _ => true end
  | _ => true
  end.

Definition eq_items : list json -> list json -> bool :=
  fix go (l r : list json) : bool :=
    match l, r with [], [] => true | x :: l, y :: r => json_eq x y && go l r | _, _ => false end.
Definition eq_fields : list (string * json) -> list (string * json) -> bool :=
  fix go (l r : list (string * json)) : bool :=
    match l, r with [], [] => true | (k, x) :: l, (k', y) :: r => String.eqb k k' && json_eq x y && go l r | _, _ => false end.

Lemma json_eq_array l r : json_eq (JArray l) (JArray r) = eq_items l r.
Proof. reflexivity. Qed.
Lemma json_eq_object l r : json_eq (JObject l) (JObject r) = eq_fields l r.
Proof. reflexivity. Qed.

Lemma eq_items_forall l : forall r, eq_items l r = true <-> Forall2 (fun x y => json_eq x y = true) l r.
Proof.
  induction l as [|x l IH]; intros [|y r]; cbn; split; try done; try (by inversion 1).
  - intros [Hx Hl]%andb_true_iff. constructor; [done|by apply IH].
  - inversion 1; subst. apply andb_true_iff. split; [done|by apply IH].
Qed.

Lemma eq_fields_forall l : forall r, eq_fields l r = true <-> Forall2 (fun x y => x.1 = y.1 /\ json_eq x.2 y.2 = true) l r.
Proof.
  induction l as [|[k x] l IH]; intros [|[k' y] r]; cbn; split; try done; try (by inversion 1).
  - intros [[Hk Hx]%andb_true_iff Hl]%andb_true_iff. apply String.eqb_eq in Hk. constructor; [done|by apply IH].
  - inversion 1 as [|? ? ? ? [Hk Hx] Hl]; subst. cbn in *. subst. apply andb_true_iff. split; [|by apply IH]. by rewrite String.eqb_refl.
Qed.

Lemma obj_set_set fields k v w : obj_set (obj_set fields k v) k w = obj_set fields k w.
Proof.
  assert (Hr : String.compare k k = Eq) by (by apply string_compare_eq).
  induction fields as [|[k' x] fields IH]; cbn; [by rewrite Hr|]. destruct (String.compare k k') eqn:E; cbn; rewrite ?E, ?Hr; try done. by rewrite IH.
Qed.

Lemma SFeqb_refl x : x <> S754_nan -> SFeqb x x = true.
Proof.
  unfold SFeqb, SFcompare. destruct x as [s|s| |s m e]; [by destruct s|by destruct s|done|]. intros _.
  destruct s; rewrite Z.compare_refl, Pos.compare_cont_refl; done.
Qed.

Lemma json_eq_refl j : no_nan j = true -> json_eq j j = true.
Proof.
  induction j as [|fields IH|items IH|s|b|z|x|bs st] using json_nested_ind; intros H.
  - done.
  - rewrite json_eq_object. apply eq_fields_forall. cbn [no_nan] in H. induction IH as [|[k v] fields Hv _ IH']; [constructor|].
    cbn [forallb] in H. apply andb_true_iff in H as [H1 H2]. constructor; [split; [done|by apply Hv]|by apply IH'].
  - rewrite json_eq_array. apply eq_items_forall. cbn [no_nan] in H. induction IH as [|v items Hv _ IH']; [constructor|].
    cbn [forallb] in H. apply andb_true_iff in H as [H1 H2]. constructor; [by apply Hv|by apply IH'].
  - apply String.eqb_refl.
  - by destruct b.
  - apply Z.eqb_refl.
  - apply SFeqb_refl. by intros ->.
  - cbn [json_eq]. by rewrite !bool_decide_eq_true_2.
Qed.

(** Objects are equal when their fields are. *)
Lemma json_eq_fields a b : sorted_keys a = true -> sorted_keys b = true ->
  (forall k, option_Forall2 (fun x y => json_eq x y = true) (obj_find a k) (obj_find b k)) -> json_eq (JObject a) (JObject b) = true.
Proof. intros Ha Hb H. rewrite json_eq_object. apply eq_fields_forall. by apply (fields_rel (fun x y => json_eq x y = true)). Qed.
