(* ===== verification/JsonPointer.v ===== *)
(** * json.hpp: JSON pointers

    [json_pointer]: its reference tokens, its text, and the ways it is followed into a value. *)

From S2P Require Import Prelude Str Json JsonSpec JsonWf JsonOps.
From Stdlib Require Import Ascii.
From Stdlib Require String.

Local Open Scope string_scope.
Local Open Scope Z_scope.

(** ** Escaping *)

(** [replace_substring]: from each occurrence the search goes on behind the text put in. *)
Fixpoint replace_loop (fuel : nat) (s f t : string) : string :=
  match fuel with
  | O => s
  | S fuel =>
      match find_sub f s with
      | None => s
      | Some pos => str_take pos s +:+ t +:+ replace_loop fuel (str_drop (pos + String.length f) s) f t
      end
  end.

Definition replace_substring (s f t : string) : string := replace_loop (String.length s) s f t.

Definition escape (s : string) : string := replace_substring (replace_substring s "~" "~0") "/" "~1".
Definition unescape (s : string) : string := replace_substring (replace_substring s "~1" "/") "~0" "~".

(** ** Pointers *)

(** The reference tokens. *)
Definition json_pointer : Type := list string.

(** Every [~] must be followed by 0 or 1; [pos] runs over the positions of [~]. *)
Fixpoint tilde_loop (fuel : nat) (token : string) (pos : option nat) : res unit :=
  match fuel, pos with
  | S fuel, Some pos =>
      match str_drop (S pos) token with
      | String c _ =>
          if Ascii.eqb c "0" || Ascii.eqb c "1" then tilde_loop fuel token (find_char_from "~" token (S pos))
          else Throw json_parse_error
      | EmptyString => Throw json_parse_error
      end
  | _, _ => Ok tt
  end.

Definition check_tildes (token : string) : res unit := tilde_loop (S (String.length token)) token (find_char_from "~" token 0).

(** The tokens from [start] on; [start] is behind a slash. *)
Fixpoint split_loop (fuel : nat) (reference_string : string) (start : nat) : res (list string) :=
  match fuel with
  | O => Ok []
  | S fuel =>
      let slash := find_char_from "/" reference_string start in
      let token := match slash with
                   | Some p => str_take (p - start) (str_drop start reference_string)
                   | None => str_drop start reference_string
                   end in
      check_tildes token ≫= fun _ =>
      rest ← match slash with Some p => split_loop fuel reference_string (S p) | None => Ok [] end;
      Ok (unescape token :: rest)
  end.

Definition split (reference_string : string) : res json_pointer :=
  match reference_string with
  | EmptyString => Ok []
  | String c _ =>
      if negb (Ascii.eqb c "/") then Throw json_parse_error
      else split_loop (S (String.length reference_string)) reference_string 1
  end.

Definition pointer_string (ptr : json_pointer) : string := foldl (fun a b => a +:+ "/" +:+ escape b) "" ptr.

(** [operator/], [push_back], [pop_back], [back], [top], [parent_pointer]. *)
Definition append_pointer (lhs rhs : json_pointer) : json_pointer := (lhs ++ rhs)%list.
Definition append_token (lhs : json_pointer) (token : string) : json_pointer := (lhs ++ [token])%list.
Definition append_index (lhs : json_pointer) (array_idx : Z) : json_pointer := append_token lhs (to_string array_idx).

Definition pop_back (ptr : json_pointer) : res json_pointer :=
  match ptr with [] => Throw (json_out_of_range 405) | _ => Ok (removelast ptr) end.
Definition back (ptr : json_pointer) : res string :=
  match last ptr with None => Throw (json_out_of_range 405) | Some t => Ok t end.
Definition top (ptr : json_pointer) : res json_pointer :=
  match ptr with [] => Throw (json_out_of_range 405) | t :: _ => Ok [t] end.
Definition parent_pointer (ptr : json_pointer) : res json_pointer :=
  match ptr with [] => Ok ptr | _ => pop_back ptr end.

(** ** Following a pointer *)

Definition size_max : Z := 2 ^ 64 - 1.

(** A token as an array index.  [strtoull] reads the digits at the start; a text of one character that
    is no digit reads as nothing. *)
Definition array_index (s : string) : res nat :=
  let multi := (1 <? String.length s)%nat in
  match s with
  | String c _ =>
      if multi && Ascii.eqb c "0" then Throw json_parse_error
      else if multi && negb ((49 <=? code c) && (code c <=? 57)) then Throw json_parse_error
      else
        let digits := take_digits s in
        let n := dec_value 0 digits in
        if str_empty digits || (2 ^ 64 <=? n) || negb (String.length digits =? String.length s)%nat then Throw (json_out_of_range 404)
        else if size_max <=? n then Throw (json_out_of_range 410)
        else Ok (Z.to_nat n)
  | EmptyString => Throw (json_out_of_range 404)
  end.

(** [get_checked], as the value read. *)
Fixpoint get_checked (ptr : json_pointer) (j : json) : res json :=
  match ptr with
  | [] => Ok j
  | token :: ptr =>
      match j with
      | JObject _ => v ← at_key j token; get_checked ptr v
      | JArray _ =>
          if String.eqb token "-" then Throw (json_out_of_range 402)
          else i ← array_index token; v ← at_index j i; get_checked ptr v
      | _ => Throw (json_out_of_range 404)
      end
  end.

(** [get_checked], as the place of a change: [f] is what is done with the reference. *)
Fixpoint modify_checked (ptr : json_pointer) (f : json -> res json) (j : json) : res json :=
  match ptr with
  | [] => f j
  | token :: ptr =>
      match j with
      | JObject fields => v ← at_key j token; v ← modify_checked ptr f v; Ok (JObject (obj_set fields token v))
      | JArray items =>
          if String.eqb token "-" then Throw (json_out_of_range 402)
          else i ← array_index token; v ← at_index j i; v ← modify_checked ptr f v; Ok (JArray (<[i := v]> items))
      | _ => Throw (json_out_of_range 404)
      end
  end.

(** [get_unchecked] of a constant value: what [at] would refuse is undefined. *)
Fixpoint get_unchecked (ptr : json_pointer) (j : json) : res json :=
  match ptr with
  | [] => Ok j
  | token :: ptr =>
      match j with
      | JObject _ => v ← json_at j token; get_unchecked ptr v
      | JArray _ =>
          if String.eqb token "-" then Throw (json_out_of_range 402)
          else i ← array_index token; v ← json_nth j i; get_unchecked ptr v
      | _ => Throw (json_out_of_range 404)
      end
  end.

(** [operator[](idx)] of an array fills it up with null. *)
Definition fill (idx : nat) (items : list json) : list json := (items ++ replicate (S idx - length items) JNull)%list.

(** [get_unchecked] of a value that may change: what is missing is created, in memory without bound. *)
Fixpoint modify_unchecked (ptr : json_pointer) (f : json -> res json) (j : json) : res json :=
  match ptr with
  | [] => f j
  | token :: ptr =>
      let j := match j with
               | JNull => if all_chars is_digit token || String.eqb token "-" then JArray [] else JObject []
               | _ => j
               end in
      match j with
      | JObject fields => v ← modify_unchecked ptr f (default JNull (obj_find fields token)); Ok (JObject (obj_set fields token v))
      | JArray items =>
          i ← (if String.eqb token "-" then Ok (length items) else array_index token);
          let items := fill i items in
          v ← modify_unchecked ptr f (default JNull (items !! i)); Ok (JArray (<[i := v]> items))
      | _ => Throw (json_out_of_range 404)
      end
  end.

(** [get_and_create], which [unflatten] uses. *)
Fixpoint modify_and_create (ptr : json_pointer) (f : json -> res json) (j : json) : res json :=
  match ptr with
  | [] => f j
  | token :: ptr =>
      let at_field fields := v ← modify_and_create ptr f (default JNull (obj_find fields token)); Ok (JObject (obj_set fields token v)) in
      let at_item i items :=
        let items := fill i items in v ← modify_and_create ptr f (default JNull (items !! i)); Ok (JArray (<[i := v]> items)) in
      match j with
      | JNull => if String.eqb token "0" then at_item 0%nat [] else at_field []
      | JObject fields => at_field fields
      | JArray items => i ← array_index token; at_item i items
      | _ => Throw (json_type_error 313)
      end
  end.

(** [contains]: the tokens that are no array index are refused before [array_index] sees them. *)
Definition index_shape (token : string) : bool :=
  match token with
  | EmptyString => true
  | String c rest =>
      if str_empty rest then is_digit c else (49 <=? code c) && (code c <=? 57) && all_chars is_digit rest
  end.

Fixpoint contains (ptr : json_pointer) (j : json) : res bool :=
  match ptr with
  | [] => Ok true
  | token :: ptr =>
      match j with
      | JObject fields => match obj_find fields token with None => Ok false | Some v => contains ptr v end
      | JArray items =>
          if String.eqb token "-" then Ok false
          else if negb (index_shape token) then Ok false
          else
            i ← array_index token;
            match items !! i with None => Ok false | Some v => contains ptr v end
      | _ => Ok false
      end
  end.

(** ** Replacing, one character at a time *)

Fixpoint subst1 (a : ascii) (t s : string) : string :=
  match s with
  | EmptyString => EmptyString
  | String c s => if Ascii.eqb c a then t +:+ subst1 a t s else String c (subst1 a t s)
  end.

Fixpoint subst2 (a b : ascii) (t s : string) : string :=
  match s with
  | EmptyString => EmptyString
  | String c s' =>
      match s' with
      | String d s'' => if Ascii.eqb c a && Ascii.eqb d b then t +:+ subst2 a b t s'' else String c (subst2 a b t s')
      | EmptyString => String c EmptyString
      end
  end.

Lemma replace_loop_keep fuel c s f t : prefixb f (String c s) = false -> f <> "" ->
  replace_loop (S fuel) (String c s) f t = String c (replace_loop (S fuel) s f t).
Proof.
  intros Hp Hf. cbn [replace_loop find_sub]. rewrite Hp. by destruct (find_sub f s) as [p|].
Qed.

Lemma replace_loop_hit fuel s f t : prefixb f s = true -> replace_loop (S fuel) s f t = t +:+ replace_loop fuel (str_drop (String.length f) s) f t.
Proof. intros Hp. cbn [replace_loop]. destruct s as [|c s]; cbn [find_sub]; by rewrite Hp. Qed.

Lemma replace_loop_nil fuel f t : f <> "" -> replace_loop fuel "" f t = "".
Proof. by destruct fuel, f. Qed.

Lemma replace1 a t : forall s fuel, (String.length s <= fuel)%nat -> replace_loop fuel s (String a "") t = subst1 a t s.
Proof.
  induction s as [|c s IH]; intros fuel Hl; [by apply replace_loop_nil|]. cbn [String.length] in Hl. destruct fuel as [|fuel]; [lia|].
  cbn [subst1]. destruct (Ascii.eqb c a) eqn:E.
  - rewrite replace_loop_hit by (cbn; by rewrite E). cbn [String.length str_drop]. by rewrite IH by lia.
  - rewrite replace_loop_keep by (cbn; by rewrite ?E). by rewrite IH by lia.
Qed.

Lemma replace2 a b t n : forall s fuel, (String.length s <= n)%nat -> (String.length s <= fuel)%nat ->
  replace_loop fuel s (String a (String b "")) t = subst2 a b t s.
Proof.
  induction n as [|n IH]; intros [|c s] fuel Hn Hl; try (by apply replace_loop_nil); cbn [String.length] in *; [lia|].
  destruct fuel as [|fuel]; [lia|]. cbn [subst2]. destruct s as [|d s].
  - rewrite replace_loop_keep by (cbn; by rewrite ?andb_false_r). by rewrite replace_loop_nil.
  - cbn [String.length] in *. destruct (Ascii.eqb c a && Ascii.eqb d b) eqn:E.
    + rewrite replace_loop_hit by (cbn; by rewrite andb_true_r). cbn [String.length str_drop]. by rewrite IH by lia.
    + rewrite replace_loop_keep by (cbn; by rewrite ?andb_true_r). by rewrite IH by (cbn; lia).
Qed.

Lemma escape_eq s : escape s = subst1 "/" "~1" (subst1 "~" "~0" s).
Proof. unfold escape, replace_substring. by rewrite !replace1 by lia. Qed.
Lemma unescape_eq s : unescape s = subst2 "~" "0" "~" (subst2 "~" "1" "/" s).
Proof. unfold unescape, replace_substring. rewrite (replace2 "~" "1" _ (String.length s)) by lia. by rewrite (replace2 "~" "0" _ (String.length (subst2 "~" "1" "/" s))) by lia. Qed.

(** ** Escaping and back *)

Fixpoint tildes_ok (s : string) : bool :=
  match s with
  | EmptyString => true
  | String c s =>
      (if Ascii.eqb c "~" then match s with String d _ => Ascii.eqb d "0" || Ascii.eqb d "1" | EmptyString => false end else true)
      && tildes_ok s
  end.

Lemma subst2_keep a b t c s : Ascii.eqb c a = false -> subst2 a b t (String c s) = String c (subst2 a b t s).
Proof. intros E. cbn. destruct s as [|d s]; [done|]. by rewrite E. Qed.

Lemma unescape_slashes s : subst2 "~" "1" "/" (subst1 "/" "~1" (subst1 "~" "~0" s)) = subst1 "~" "~0" s.
Proof.
  induction s as [|c s IH]; [done|]. cbn [subst1]. destruct (Ascii.eqb_spec c "~") as [->|Ht].
  - change ("~0" +:+ ?x) with (String "~" (String "0" x)). cbn [subst1 Ascii.eqb Bool.eqb].
    change (subst2 "~" "1" "/" (String "~" (String "0" ?x))) with (String "~" (subst2 "~" "1" "/" (String "0" x))).
    rewrite subst2_keep by done. by rewrite IH.
  - cbn [subst1]. destruct (Ascii.eqb_spec c "/") as [->|Hs].
    + change (subst2 "~" "1" "/" ("~1" +:+ ?x)) with (String "/" (subst2 "~" "1" "/" x)). by rewrite IH.
    + rewrite subst2_keep by (by apply Ascii.eqb_neq). by rewrite IH.
Qed.

Lemma unescape_tildes s : subst2 "~" "0" "~" (subst1 "~" "~0" s) = s.
Proof.
  induction s as [|c s IH]; [done|]. cbn [subst1]. destruct (Ascii.eqb_spec c "~") as [->|Ht].
  - change (subst2 "~" "0" "~" ("~0" +:+ ?x)) with (String "~" (subst2 "~" "0" "~" x)). by rewrite IH.
  - rewrite subst2_keep by (by apply Ascii.eqb_neq). by rewrite IH.
Qed.

Lemma unescape_escape s : unescape (escape s) = s.
Proof. by rewrite unescape_eq, escape_eq, unescape_slashes, unescape_tildes. Qed.

Lemma escape_clean s : has_char "/" (escape s) = false /\ tildes_ok (escape s) = true.
Proof.
  rewrite escape_eq. induction s as [|c s [IH1 IH2]]; [done|]. cbn [subst1]. destruct (Ascii.eqb_spec c "~") as [->|Ht].
  - change ("~0" +:+ ?x) with (String "~" (String "0" x)). cbn [subst1 Ascii.eqb Bool.eqb]. rewrite !has_char_cons, IH1. by cbn [tildes_ok]; rewrite IH2.
  - cbn [subst1]. destruct (Ascii.eqb_spec c "/") as [->|Hs].
    + change ("~1" +:+ ?x) with (String "~" (String "1" x)). rewrite !has_char_cons, IH1. by cbn [tildes_ok]; rewrite IH2.
    + rewrite has_char_cons, IH1. cbn [tildes_ok]. rewrite IH2, !(proj2 (Ascii.eqb_neq _ _)) by done. done.
Qed.

Lemma escape_unescape s n : (String.length s <= n)%nat -> has_char "/" s = false -> tildes_ok s = true -> escape (unescape s) = s.
Proof.
  rewrite unescape_eq, escape_eq. revert s. induction n as [|n IH]; intros [|c s] Hn; try done; cbn [String.length] in *; [lia|].
  rewrite has_char_cons. intros [Hc Hs]%orb_false_iff. cbn [tildes_ok]. destruct (Ascii.eqb_spec c "~") as [->|Ht].
  - destruct s as [|d s]; [done|]. rewrite has_char_cons in Hs. apply orb_false_iff in Hs as [Hd Hs]. cbn [String.length tildes_ok] in *.
    intros [[Hz|Ho]%orb_true_iff H]%andb_true_iff.
    + apply Ascii.eqb_eq in Hz as ->. change (subst2 "~" "1" "/" (String "~" (String "0" s))) with (String "~" (subst2 "~" "1" "/" (String "0" s))).
      rewrite (subst2_keep "~" "1" "/" "0") by done. change (subst2 "~" "0" "~" (String "~" (String "0" ?x))) with (String "~" (subst2 "~" "0" "~" x)).
      cbn [subst1 Ascii.eqb Bool.eqb]. change ("~0" +:+ ?x) with (String "~" (String "0" x)). cbn [subst1 Ascii.eqb Bool.eqb]. by rewrite IH by (done || lia).
    + apply Ascii.eqb_eq in Ho as ->. change (subst2 "~" "1" "/" (String "~" (String "1" s))) with (String "/" (subst2 "~" "1" "/" s)).
      rewrite (subst2_keep "~" "0" "~" "/") by done. cbn [subst1 Ascii.eqb Bool.eqb]. change ("~1" +:+ ?x) with (String "~" (String "1" x)). by rewrite IH by (done || lia).
  - intros [_ H]%andb_true_iff. rewrite !subst2_keep by (by apply Ascii.eqb_neq). cbn [subst1]. rewrite (proj2 (Ascii.eqb_neq c "~")) by done.
    cbn [subst1]. rewrite Hc. by rewrite IH by (done || lia).
Qed.

(** ** Splitting *)

Lemma find_char_from_0 c s : find_char_from c s 0 = find_char c s.
Proof. unfold find_char_from. cbn. by destruct (find_char c s). Qed.

Lemma str_drop_S p s c r : str_drop p s = String c r -> str_drop (S p) s = r.
Proof. intros E. replace (S p) with (p + 1)%nat by lia. by rewrite str_drop_add, E. Qed.

Lemma find_from_step c s p d r : str_drop p s = String d r ->
  find_char_from c s p = if Ascii.eqb d c then Some p else find_char_from c s (S p).
Proof.
  intros E. unfold find_char_from. rewrite E, (str_drop_S _ _ _ _ E). cbn [find_char]. destruct (Ascii.eqb d c).
  - cbn. by rewrite Nat.add_0_r.
  - destruct (find_char c r); cbn; [|done]. f_equal. lia.
Qed.

Lemma tilde_loop_ok token r : forall p fuel, str_drop p token = r -> (String.length r < fuel)%nat ->
  tilde_loop fuel token (find_char_from "~" token p) = if tildes_ok r then Ok tt else Throw json_parse_error.
Proof.
  induction r as [|c r IH]; intros p fuel E Hf.
  - unfold find_char_from. rewrite E. by destruct fuel.
  - cbn [String.length] in Hf. destruct fuel as [|fuel]; [lia|]. rewrite (find_from_step _ _ _ _ _ E). pose proof (str_drop_S _ _ _ _ E) as E'. cbn [tildes_ok].
    destruct (Ascii.eqb c "~"); cbn [andb].
    + cbn [tilde_loop]. rewrite E'. destruct r as [|d r]; [done|]. destruct (_ || _); [|done]. cbn [andb]. by apply IH; [|cbn in *; lia].
    + apply IH; [done|lia].
Qed.

Lemma check_tildes_ok token : check_tildes token = if tildes_ok token then Ok tt else Throw json_parse_error.
Proof. unfold check_tildes. apply tilde_loop_ok; [done|lia]. Qed.

(** The texts between slashes. *)
Fixpoint slash_tokens (s : string) : list string :=
  match s with
  | EmptyString => [EmptyString]
  | String c s =>
      if Ascii.eqb c "/" then EmptyString :: slash_tokens s
      else match slash_tokens s with t :: ts => String c t :: ts | [] => [] end
  end.

Definition read_token (token : string) : res string := check_tildes token ≫= fun _ => Ok (unescape token).

Lemma read_tokens_cons t ts : mapM read_token (t :: ts) = check_tildes t ≫= fun _ => rest ← mapM read_token ts; Ok (unescape t :: rest).
Proof.
  cbn [mapM]. change (read_token t) with (check_tildes t ≫= fun _ => Ok (unescape t)). by destruct (check_tildes t) as [[]|e].
Qed.

Lemma slash_tokens_find s : slash_tokens s =
  match find_char "/" s with Some p => str_take p s :: slash_tokens (str_drop (S p) s) | None => [s] end.
Proof.
  induction s as [|c s IH]; [done|]. cbn [slash_tokens find_char]. destruct (Ascii.eqb c "/"); [done|].
  rewrite IH. by destruct (find_char "/" s) as [p|].
Qed.

Lemma find_char_length c s p : find_char c s = Some p -> (p < String.length s)%nat.
Proof.
  revert p. induction s as [|d s IH]; intros p; cbn; [done|]. destruct (Ascii.eqb d c); [intros [= <-]; lia|].
  destruct (find_char c s) as [q|]; [|done]. intros [= <-]. specialize (IH q eq_refl). lia.
Qed.

Lemma before_char c s p : find_char c s = Some p -> has_char c (str_take p s) = false.
Proof.
  revert p. induction s as [|d s IH]; intros p; cbn; [done|]. destruct (Ascii.eqb d c) eqn:E; [by intros [= <-]|].
  destruct (find_char c s) as [q|]; [|done]. intros [= <-]. cbn [str_take]. rewrite has_char_cons, E. by apply IH.
Qed.

Lemma split_at_char c s p : find_char c s = Some p -> str_take p s +:+ String c (str_drop (S p) s) = s.
Proof.
  revert p. induction s as [|d s IH]; intros p; cbn; [done|]. destruct (Ascii.eqb_spec d c) as [->|]; [by intros [= <-]|].
  destruct (find_char c s) as [q|]; [|done]. intros [= <-]. cbn. f_equal. by apply IH.
Qed.

Lemma split_loop_ok ref n : forall start fuel, (String.length (str_drop start ref) <= n)%nat -> (n < fuel)%nat ->
  split_loop fuel ref start = mapM read_token (slash_tokens (str_drop start ref)).
Proof.
  induction n as [n IH] using lt_wf_ind. intros start fuel Hn Hf. destruct fuel as [|fuel]; [lia|]. cbn [split_loop].
  rewrite slash_tokens_find. unfold find_char_from. destruct (find_char "/" (str_drop start ref)) as [p|] eqn:E; cbn [fmap option_fmap option_map].
  - replace (start + p - start)%nat with p by lia. replace (S (start + p)) with (start + S p)%nat by lia. rewrite <- str_drop_add.
    apply find_char_length in E. rewrite (IH (n - 1)%nat); [|lia|rewrite str_drop_length in *; lia|lia]. rewrite str_drop_add.
    by rewrite read_tokens_cons.
  - by rewrite read_tokens_cons.
Qed.

Lemma split_eq s : split s = match s with
  | EmptyString => Ok []
  | String c r => if negb (Ascii.eqb c "/") then Throw json_parse_error else mapM read_token (slash_tokens r)
  end.
Proof. unfold split. destruct s as [|c r]; [done|]. destruct (negb _); [done|]. rewrite (split_loop_ok _ (String.length r)); [done|cbn; lia..]. Qed.

Lemma pointer_string_acc ptr : forall acc, foldl (fun a b => a +:+ "/" +:+ escape b) acc ptr = acc +:+ pointer_string ptr.
Proof.
  unfold pointer_string. induction ptr as [|t ptr IH]; intros acc; cbn [foldl]; [by rewrite append_nil|].
  rewrite IH, (IH ("" +:+ _)). by rewrite !append_assoc.
Qed.

Lemma pointer_string_cons t ptr : pointer_string (t :: ptr) = String "/" (escape t +:+ pointer_string ptr).
Proof. unfold pointer_string at 1. cbn [foldl]. by rewrite pointer_string_acc. Qed.

Lemma pointer_string_snoc ptr t : pointer_string (append_token ptr t) = pointer_string ptr +:+ "/" +:+ escape t.
Proof. unfold pointer_string, append_token. by rewrite foldl_app. Qed.

Lemma slash_tokens_app t r : has_char "/" t = false -> slash_tokens (t +:+ String "/" r) = t :: slash_tokens r.
Proof.
  induction t as [|c t IH]; [done|]. rewrite has_char_cons. intros [Hc Ht]%orb_false_iff. cbn [slash_tokens String.append].
  rewrite Hc. change (slash_tokens (String.append t _)) with (slash_tokens (t +:+ String "/" r)). by rewrite IH.
Qed.

Lemma slash_tokens_one t : has_char "/" t = false -> slash_tokens t = [t].
Proof. intros H. by rewrite slash_tokens_find, (has_char_none _ _ H). Qed.

Lemma read_escaped t : check_tildes (escape t) = Ok tt.
Proof. rewrite check_tildes_ok. by rewrite (proj2 (escape_clean t)). Qed.

Lemma read_pointer_tokens ptr : forall t, mapM read_token (slash_tokens (escape t +:+ pointer_string ptr)) = Ok (t :: ptr).
Proof.
  induction ptr as [|u ptr IH]; intros t.
  - change (pointer_string []) with "". rewrite append_nil, slash_tokens_one by apply escape_clean. rewrite read_tokens_cons, read_escaped.
    cbn. by rewrite unescape_escape.
  - rewrite pointer_string_cons, slash_tokens_app by apply escape_clean. rewrite read_tokens_cons, read_escaped, IH. cbn. by rewrite unescape_escape.
Qed.

Lemma split_pointer_string ptr : split (pointer_string ptr) = Ok ptr.
Proof. destruct ptr as [|t ptr]; [done|]. rewrite pointer_string_cons, split_eq. cbn [negb Ascii.eqb Bool.eqb]. apply read_pointer_tokens. Qed.

Lemma read_tokens_text n : forall r ptr, (String.length r < n)%nat -> mapM read_token (slash_tokens r) = Ok ptr -> pointer_string ptr = String "/" r.
Proof.
  induction n as [|n IH]; intros r ptr Hn; [lia|]. rewrite slash_tokens_find. destruct (find_char "/" r) as [p|] eqn:E.
  - rewrite read_tokens_cons, check_tildes_ok. destruct (tildes_ok (str_take p r)) eqn:Ht; [|done]. cbn [mbind res_bind].
    destruct (mapM read_token _) as [ts|] eqn:Em; [|done]. intros [= <-]. apply IH in Em; [|rewrite str_drop_length; apply find_char_length in E; lia].
    rewrite pointer_string_cons, Em, (escape_unescape _ _ (Nat.le_refl _)); [|by apply before_char|done].
    f_equal. by apply split_at_char.
  - rewrite read_tokens_cons, check_tildes_ok. destruct (tildes_ok r) eqn:Ht; [|done]. cbn. intros [= <-].
    rewrite pointer_string_cons. change (pointer_string []) with "". rewrite append_nil, (escape_unescape _ _ (Nat.le_refl _)); [done| |done].
    unfold has_char. by rewrite E.
Qed.

Lemma tildes_ok_escape d s : tildes_ok (String "~" (String d s)) = (Ascii.eqb d "0" || Ascii.eqb d "1") && tildes_ok (String d s).
Proof. done. Qed.

(** The check of the tokens one by one is a check of the whole text: no escape ends at a slash. *)
Lemma tildes_ok_tokens r : forallb tildes_ok (slash_tokens r) = tildes_ok r.
Proof.
  induction r as [|c r IH]; [done|]. cbn [slash_tokens tildes_ok]. destruct (Ascii.eqb_spec c "/") as [->|Hc]; [by cbn; rewrite IH|].
  rewrite slash_tokens_find in *. destruct (Ascii.eqb_spec c "~") as [->|Ht].
  - destruct r as [|d r]; [done|]. cbn [find_char] in *. destruct (Ascii.eqb_spec d "/") as [->|Hd]; [done|].
    destruct (find_char "/" r) as [p|]; cbn [fmap option_fmap option_map str_take str_drop] in *; rewrite <- IH; cbn [forallb];
      by rewrite (tildes_ok_escape d), <- ?andb_assoc.
  - destruct (find_char "/" r) as [p|]; cbn [forallb tildes_ok] in *; rewrite (proj2 (Ascii.eqb_neq c "~")) by done; exact IH.
Qed.

Lemma read_tokens_ok ts : mapM read_token ts = if forallb tildes_ok ts then Ok (map unescape ts) else Throw json_parse_error.
Proof.
  induction ts as [|t ts IH]; [done|]. rewrite read_tokens_cons, check_tildes_ok, IH. cbn [forallb map].
  destruct (tildes_ok t); [|done]. by destruct (forallb tildes_ok ts).
Qed.

(** Every [~] of the text is the start of an escape. *)
Definition escapes_only (s : string) : Prop :=
  forall a b, s = a +:+ String "~" b -> exists c r, b = String c r /\ (c = "0" \/ c = "1")%char.

Lemma tildes_ok_spec s : tildes_ok s = true <-> escapes_only s.
Proof.
  unfold escapes_only. induction s as [|c s IH]; cbn [tildes_ok].
  { split; [|done]. intros _ [|] b E; discriminate E. }
  rewrite andb_true_iff, IH. split.
  - intros [Hc Hs] [|c' a] b E; injection E as -> E; [|by apply (Hs a)]. subst s. cbn in Hc. destruct b as [|d r]; [done|].
    exists d, r. split; [done|]. apply orb_true_iff in Hc as [->%Ascii.eqb_eq| ->%Ascii.eqb_eq]; auto.
  - intros H. split; [|intros a b ->; by apply (H (String c a))]. destruct (Ascii.eqb_spec c "~") as [->|]; [|done].
    destruct (H "" s eq_refl) as (d & r & -> & [-> | ->]); done.
Qed.

(** C40: Pointers and their texts determine each other: the text of every list of reference tokens, whatever
    characters they hold, is read as those tokens, and a text that is read as a pointer is the text of it.
    A text is read exactly when it is empty, or starts with a slash and every [~] in it is followed by 0 or 1;
    any other text is a parse error. *)
Theorem pointer_text_roundtrip (ptr : json_pointer) (s : string) :
  split (pointer_string ptr) = Ok ptr /\ (split s = Ok ptr -> pointer_string ptr = s)
  /\ ((exists ptr', split s = Ok ptr') <-> s = "" \/ (exists r, s = String "/" r) /\ escapes_only s)
  /\ ((exists ptr', split s = Ok ptr') \/ split s = Throw json_parse_error).
Proof.
  split; [apply split_pointer_string|]. rewrite split_eq. destruct s as [|c r].
  { split; [by intros [= <-]|]. split; [|left; by eexists]. split; [by left|by eexists]. }
  destruct (Ascii.eqb_spec c "/") as [->|Hc]; cbn [negb].
  2: { split; [done|]. split; [|by right]. split; [by intros [? ?]|]. intros [?|[[r' [= E _]] _]]; [done|congruence]. }
  split; [intros E; by apply (read_tokens_text (S (String.length r))) in E; [|lia]|].
  rewrite read_tokens_ok, tildes_ok_tokens. rewrite <- tildes_ok_spec. change (tildes_ok (String "/" r)) with (tildes_ok r).
  destruct (tildes_ok r); split.
  - split; [|by eexists]. intros _. right. split; [by eexists|done].
  - left. by eexists.
  - split; [by intros [? ?]|]. by intros [?|[_ ?]].
  - by right.
Qed.

Lemma pointer_text_roundtrip_witness :
  split (pointer_string ["a/b"; "m~n"; ""; "0"]) = Ok ["a/b"; "m~n"; ""; "0"] /\ pointer_string ["a/b"; "m~n"; ""; "0"] = "/a~1b/m~0n//0"
  /\ split "/a~/b" = Throw json_parse_error.
Proof.
  destruct (pointer_text_roundtrip ["a/b"; "m~n"; ""; "0"] "/a~1b/m~0n//0") as (H1 & H2 & _). split; [exact H1|]. split; [by apply H2|].
  destruct (pointer_text_roundtrip [] "/a~/b") as (_ & _ & H3 & [H4|H4]); [|exact H4].
  apply H3 in H4 as [H4|[_ H4]]; [discriminate H4|]. by destruct (H4 "/a" "/b" eq_refl) as (c & r & [= <- <-] & [?|?]).
Defined.

(** ** Indices *)

Lemma dec_digits_first fuel : forall n acc, 0 < n < 10 ^ Z.of_nat fuel -> exists c r, dec_digits fuel n acc = String c r /\ 49 <= code c <= 57.
Proof.
  induction fuel as [|fuel IH]; intros n acc Hn; [cbn in Hn; lia|]. cbn [dec_digits]. destruct (Z.eqb_spec (n / 10) 0) as [E|E].
  - apply Z.div_small_iff in E; [|lia]. rewrite Z.mod_small by lia. eexists _, _. split; [done|]. rewrite code_digit_char by lia. lia.
  - assert (10 <= n) by (destruct (Z.ltb_spec n 10); [by rewrite Z.div_small in E by lia|lia]). apply IH. rewrite Nat2Z.inj_succ, Z.pow_succ_r in Hn by lia. split; [apply Z.div_str_pos; lia|]. apply Z.div_lt_upper_bound; lia.
Qed.

Lemma array_index_to_string (n : nat) : Z.of_nat n < size_max -> array_index (to_string (Z.of_nat n)) = Ok n.
Proof.
  intros Hn. unfold array_index. pose proof (to_string_spec (Z.of_nat n) ltac:(lia)) as (Hv & Hd & Hne).
  rewrite (take_digits_all _ Hd), Hv, Nat.eqb_refl, Nat2Z.id. unfold size_max in *.
  assert (Hs : (2 ^ 64 <=? Z.of_nat n) = false) by lia. assert (Hm : (2 ^ 64 - 1 <=? Z.of_nat n) = false) by lia.
  destruct (to_string (Z.of_nat n)) as [|c r] eqn:E; [done|]. rewrite Hs, Hm. cbn [str_empty orb negb].
  destruct (Nat.eq_dec n 0) as [->|Hz]; [injection E as <- <-; done|].
  destruct (dec_digits_first (S (Z.to_nat (Z.log2 (Z.of_nat n)))) (Z.of_nat n) "") as (c' & r' & E' & Hc); [split; [lia|apply dec_fuel; lia]|].
  unfold to_string in E. rewrite E in E'. injection E' as <- <-.
  assert (Ascii.eqb c "0" = false) as ->. { apply Ascii.eqb_neq. intros ->. change (code "0") with 48 in Hc. lia. }
  assert ((49 <=? code c) && (code c <=? 57) = true) as -> by lia. by rewrite !andb_false_r.
Qed.

Lemma to_string_not_dash n : 0 <= n -> String.eqb (to_string n) "-" = false.
Proof. intros H. apply String.eqb_neq. intros E. pose proof (to_string_spec n H) as (_ & Hd & _). rewrite E in Hd. done. Qed.

(** ** Reading what is there *)

Lemma take_digits_full s : (String.length (take_digits s) =? String.length s)%nat = true -> all_chars is_digit s = true.
Proof.
  intros E%Nat.eqb_eq. induction s as [|c s IH]; [done|]. cbn [take_digits all_chars] in *. destruct (is_digit c); [|done].
  cbn in *. apply IH. lia.
Qed.

Lemma array_index_shape t i : array_index t = Ok i -> index_shape t = true.
Proof.
  unfold array_index. destruct t as [|c r]; [done|]. cbv zeta. destruct (_ && Ascii.eqb c "0") eqn:E0; [done|].
  destruct (_ && negb _) eqn:E1; [done|]. destruct (_ || negb _) eqn:E2; [done|]. intros _.
  apply orb_false_iff in E2 as [_ E2]. apply negb_false_iff, take_digits_full in E2. cbn [index_shape all_chars] in *.
  apply andb_true_iff in E2 as [Hc Hr]. destruct r as [|d r]; [done|]. cbn [str_empty String.length Nat.ltb Nat.leb andb] in *.
  apply negb_false_iff in E1. by rewrite E1, Hr.
Qed.

Lemma contains_checked ptr : forall j, contains ptr j = Ok true <-> exists v, get_checked ptr j = Ok v.
Proof.
  induction ptr as [|t ptr IH]; intros j; cbn [contains get_checked]; [split; [by eauto|done]|].
  destruct j as [|fields|items|s|b|z|x|bs st]; try (split; [done|by intros [v [=]]]).
  - cbn [at_key]. destruct (obj_find fields t) as [v|]; [apply IH|]. split; [done|by intros [v [=]]].
  - destruct (String.eqb t "-"); [split; [done|by intros [v [=]]]|]. destruct (index_shape t) eqn:Hs; cbn [negb].
    + destruct (array_index t) as [i|e]; cbn [mbind res_bind]; [|split; [done|by intros [v [=]]]].
      cbn [at_index]. destruct (items !! i) as [v|]; [apply IH|]. split; [done|by intros [v [=]]].
    + split; [done|]. destruct (array_index t) as [i|e] eqn:E; [|by intros [v [=]]]. by rewrite (array_index_shape _ _ E) in Hs.
Qed.

(** What [contains] throws: an empty token, or a number too large, met at an array. *)
Lemma contains_throws ptr : forall j e, contains ptr j = Throw e -> e = json_out_of_range 404 \/ e = json_out_of_range 410.
Proof.
  induction ptr as [|t ptr IH]; intros j e; cbn [contains]; [done|]. destruct j as [|fields|items|s|b|z|x|bs st]; try done.
  - destruct (obj_find fields t); [apply IH|done].
  - destruct (String.eqb t "-"); [done|]. destruct (index_shape t) eqn:Hs; cbn [negb]; [|done].
    destruct (array_index t) as [i|e'] eqn:E; cbn [mbind res_bind]; [destruct (items !! i); [apply IH|done]|]. intros [= ->].
    unfold array_index in E. destruct t as [|c r]; [injection E as <-; by left|]. cbv zeta in E. cbn [index_shape] in Hs. destruct r as [|d r].
    + cbn [String.length Nat.ltb Nat.leb andb] in E. destruct (_ || _); [injection E as <-; by left|]. destruct (size_max <=? _); [injection E as <-; by right|done].
    + cbn [str_empty String.length Nat.ltb Nat.leb andb] in *. apply andb_true_iff in Hs as [Hc _]. rewrite Hc in E. cbn [negb] in E.
      destruct (Ascii.eqb_spec c "0") as [->|_]; [done|]. destruct (_ || _); [injection E as <-; by left|]. destruct (size_max <=? _); [injection E as <-; by right|done].
Qed.

(** A pointer is contained in a value exactly when [at] finds something there, and then reading it
    without checks gives the same; asking can fail only for an index that is empty or too large. *)
Theorem contains_exact (ptr : json_pointer) (j : json) :
  (contains ptr j = Ok true <-> exists v, get_checked ptr j = Ok v)
  /\ (forall v, get_checked ptr j = Ok v -> get_unchecked ptr j = Ok v)
  /\ (forall e, contains ptr j = Throw e -> e = json_out_of_range 404 \/ e = json_out_of_range 410).
Proof.
  split_and!; [apply contains_checked| |apply contains_throws]. revert j. induction ptr as [|t ptr IH]; intros j v; cbn [get_checked get_unchecked]; [done|].
  destruct j as [|fields|items|s|b|z|x|bs st]; try done.
  - cbn [at_key json_at]. destruct (obj_find fields t); [apply IH|done].
  - destruct (String.eqb t "-"); [done|]. destruct (array_index t) as [i|]; cbn [mbind res_bind]; [|done]. cbn [at_index json_nth].
    destruct (items !! i); [apply IH|done].
Qed.

(** ** Reading and writing through a pointer *)

Lemma modify_get ptr f : forall j j', modify_checked ptr f j = Ok j' ->
  exists v v', get_checked ptr j = Ok v /\ f v = Ok v' /\ get_checked ptr j' = Ok v'.
Proof.
  induction ptr as [|t ptr IH]; intros j j'; cbn [modify_checked get_checked]; [intros H; by exists j, j'|].
  destruct j as [|fields|items|s|b|z|x|bs st]; try done.
  - cbn [at_key]. destruct (obj_find fields t) as [v|]; [|done]. cbn [mbind res_bind].
    destruct (modify_checked ptr f v) as [w|] eqn:E; [|done]. intros [= <-]. apply IH in E as (x & x' & H1 & H2 & H3).
    exists x, x'. cbn [at_key]. rewrite obj_find_set, String.eqb_refl. done.
  - destruct (String.eqb t "-") eqn:Ed; [done|]. destruct (array_index t) as [i|] eqn:Ei; [|done]. cbn [mbind res_bind at_index].
    destruct (items !! i) as [v|] eqn:El; [|done]. cbn [mbind res_bind]. destruct (modify_checked ptr f v) as [w|] eqn:E; [|done]. intros [= <-].
    apply IH in E as (x & x' & H1 & H2 & H3). exists x, x'. rewrite ?Ed, ?Ei. cbn [mbind res_bind at_index].
    rewrite list_lookup_insert_eq by (by eapply lookup_lt_Some). done.
Qed.
