(* ===== verification/JsonPatch.v ===== *)
(** * json.hpp: patches

    [patch_inplace], [patch], [diff] and [merge_patch].  [patch_inplace] changes the document in place,
    and keeps what the operations before an exception have done; the document is the state. *)

From S2P Require Import Prelude Str Json JsonText JsonSpec JsonWf JsonOps JsonPointer.
From Stdlib Require Import Ascii.
From Stdlib Require String.

Local Open Scope string_scope.
Local Open Scope Z_scope.

(** ** Applying a patch *)

Inductive patch_operations := op_add | op_remove | op_replace | op_move | op_copy | op_test | op_invalid.

Definition get_op (op : string) : patch_operations :=
  if String.eqb op "add" then op_add
  else if String.eqb op "remove" then op_remove
  else if String.eqb op "replace" then op_replace
  else if String.eqb op "move" then op_move
  else if String.eqb op "copy" then op_copy
  else if String.eqb op "test" then op_test
  else op_invalid.

(** A change of the whole document. *)
Definition changing (f : json -> res json) : M json unit := fun doc =>
  match f doc with Ok doc' => (Ok tt, doc') | Throw e => (Throw e, doc) end.

Definition checking {A} (f : json -> res A) : M json A := fun doc => (f doc, doc).

(** What "add" does with the parent.  A parent that is neither null nor a container meets an assertion,
    which a release build leaves out: nothing happens. *)
Definition add_child (last_path : string) (val parent : json) : res json :=
  match parent with
  | JNull => Ok (JObject [(last_path, val)])
  | JObject fields => Ok (JObject (obj_set fields last_path val))
  | JArray items =>
      if String.eqb last_path "-" then push_back parent val
      else
        idx ← array_index last_path;
        if (length items <? idx)%nat then Throw (json_out_of_range 401) else insert_at parent idx val
  | _ => Ok parent
  end.

(** The first token must lead somewhere, when there are more. *)
Definition check_top (ptr : json_pointer) : M json unit :=
  match ptr with
  | token :: _ :: _ => checking (get_checked [token]) ≫= fun _ => mret tt
  | _ => mret tt
  end.

Definition operation_add (ptr : json_pointer) (val : json) : M json unit :=
  match ptr with
  | [] => changing (fun _ => Ok val)
  | _ :: _ =>
      check_top ptr ;;
      last_path ← liftR (back ptr);
      parent ← liftR (pop_back ptr);
      changing (modify_checked parent (add_child last_path val))
  end.

Definition remove_child (last_path : string) (parent : json) : res json :=
  match parent with
  | JObject fields =>
      match obj_find fields last_path with
      | Some _ => Ok (JObject (obj_erase fields last_path))
      | None => Throw (json_out_of_range 403)
      end
  | JArray _ => idx ← array_index last_path; erase_index parent idx
  | _ => Ok parent
  end.

Definition operation_remove (ptr : json_pointer) : M json unit :=
  last_path ← liftR (back ptr);
  parent ← liftR (pop_back ptr);
  changing (modify_checked parent (remove_child last_path)).

(** [get_value]: a member of the operation, of type string when asked for. *)
Definition get_member (val : json) (member : string) : res json :=
  match val with
  | JObject fields => match obj_find fields member with Some v => Ok v | None => Throw json_parse_error end
  | _ => Throw json_parse_error
  end.
Definition get_string_member (val : json) (member : string) : res string :=
  v ← get_member val member;
  match v with JString s => Ok s | _ => Throw json_parse_error end.

(** The text of a failed operation is part of the message: it is written first. *)
Definition test_failed {A} (val : json) : res A := dump_string val ≫= fun _ => Throw (json_other_error 501).

Definition is_out_of_range (e : exn) : bool := match e with json_out_of_range _ => true | _ => false end.

(** One operation.  In "test" the pointer is followed before the value is looked up. *)
Definition apply_operation (val : json) : M json unit :=
  if negb (is_object val) then throwM json_parse_error
  else
    op ← liftR (get_string_member val "op");
    path ← liftR (get_string_member val "path");
    ptr ← liftR (split path);
    match get_op op with
    | op_add => v ← liftR (get_member val "value"); operation_add ptr v
    | op_remove => operation_remove ptr
    | op_replace => v ← liftR (get_member val "value"); changing (modify_checked ptr (fun _ => Ok v))
    | op_move =>
        from_path ← liftR (get_string_member val "from");
        from_ptr ← liftR (split from_path);
        v ← checking (get_checked from_ptr);
        operation_remove from_ptr ;;
        operation_add ptr v
    | op_copy =>
        from_path ← liftR (get_string_member val "from");
        from_ptr ← liftR (split from_path);
        v ← checking (get_checked from_ptr);
        operation_add ptr v
    | op_test =>
        success ← try_catch (found ← checking (get_checked ptr); v ← liftR (get_member val "value"); mret (json_eq found v))
                    is_out_of_range (fun _ => mret false);
        if (success : bool) then mret tt else liftR (test_failed val)
    | op_invalid => throwM json_parse_error
    end.

Fixpoint apply_operations (vals : list json) : M json unit :=
  match vals with
  | [] => mret tt
  | val :: vals => apply_operation val ;; apply_operations vals
  end.

Definition patch_inplace (json_patch : json) : M json unit :=
  match json_patch with JArray vals => apply_operations vals | _ => throwM json_parse_error end.

Definition patch (this json_patch : json) : res json :=
  let '(r, doc) := patch_inplace json_patch this in r ≫= fun _ => Ok doc.

(** ** The difference of two values *)

Definition replace_operation (path : string) (target : json) : json :=
  make_obj [("op", JString "replace"); ("path", JString path); ("value", target)].
Definition remove_operation (path : string) : json := make_obj [("op", JString "remove"); ("path", JString path)].
Definition add_operation (path : string) (value : json) : json :=
  make_obj [("op", JString "add"); ("path", JString path); ("value", value)].

Definition index_path (path : string) (i : nat) : string := path +:+ "/" +:+ to_string (Z.of_nat i).
Definition key_path (path key : string) : string := path +:+ "/" +:+ escape key.

(** The elements left in the source are removed from the last to the first. *)
Fixpoint removals (path : string) (i n : nat) : list json :=
  match n with O => [] | S n => (removals path (S i) n ++ [remove_operation (index_path path i)])%list end.

(** The operations of the patch.  Signed and unsigned integers are one type here: two that differ are
    replaced either way. *)
Fixpoint diff_operations (source target : json) (path : string) {struct source} : list json :=
  if json_eq source target then []
  else
    match source, target with
    | JArray s, JArray t =>
        ((fix go (s t : list json) (i : nat) {struct s} : list json :=
            match s, t with
            | a :: s', b :: t' => (diff_operations a b (index_path path i) ++ go s' t' (S i))%list
            | _, [] => removals path i (length s)
            | [], _ => map (add_operation (path +:+ "/-")) t
            end) s t 0%nat)
    | JObject s, JObject t =>
        ((fix go (l : list (string * json)) : list json :=
            match l with
            | [] => []
            | (key, v) :: l =>
                match obj_find t key with
                | Some w => diff_operations v w (key_path path key)
                | None => [remove_operation (key_path path key)]
                end ++ go l
            end) s
         ++ omap (fun '(key, w) => match obj_find s key with Some _ => None | None => Some (add_operation (key_path path key) w) end) t)%list
    | _, _ => [replace_operation path target]
    end.

Definition diff (source target : json) : json := JArray (diff_operations source target "").

(** ** Merge patches *)

(** [merge_patch]: the value behind the call. *)
Fixpoint merge_patch (apply_patch : json) (this : json) : json :=
  match apply_patch with
  | JObject others =>
      JObject ((fix go (others fields : list (string * json)) : list (string * json) :=
                  match others with
                  | [] => fields
                  | (key, v) :: others =>
                      go others (if is_null v then obj_erase fields key
                                 else obj_set fields key (merge_patch v (default JNull (obj_find fields key))))
                  end) others (match this with JObject fields => fields | _ => [] end))
  | _ => apply_patch
  end.

(** ** Values at a pointer *)

(** Keys in order, and arrays short enough for their indices. *)
Fixpoint tidy (j : json) : bool :=
  match j with
  | JObject fields => sorted_keys fields && forallb (fun '(_, v) => tidy v) fields
  | JArray items => (Z.of_nat (length items) <? size_max) && forallb tidy items
  | _ => true
  end.

Definition put (ptr : json_pointer) (v : json) (doc : json) : res json := modify_checked ptr (fun _ => Ok v) doc.

Lemma tidy_object fields : tidy (JObject fields) = true <-> sorted_keys fields = true /\ Forall (fun kv => tidy kv.2 = true) fields.
Proof.
  cbn [tidy]. rewrite andb_true_iff, forallb_forall, List.Forall_forall.
  split; intros [H1 H2]; (split; [done|]); intros [k v] Hv; by apply (H2 (k, v)).
Qed.

Lemma tidy_array items : tidy (JArray items) = true <-> Z.of_nat (length items) < size_max /\ Forall (fun v => tidy v = true) items.
Proof. cbn [tidy]. by rewrite andb_true_iff, Z.ltb_lt, forallb_forall, List.Forall_forall. Qed.

Lemma obj_find_in fields k v : obj_find fields k = Some v -> In (k, v) fields.
Proof.
  induction fields as [|[k' w] fields IH]; cbn; [done|]. destruct (String.eqb_spec k' k) as [->|]; [intros [= ->]; by left|]. intros H. right. by apply IH.
Qed.

Lemma tidy_find fields k v : tidy (JObject fields) = true -> obj_find fields k = Some v -> tidy v = true.
Proof. intros [_ H]%tidy_object Hf%obj_find_in. rewrite List.Forall_forall in H. by apply (H (k, v)). Qed.

Lemma tidy_nth items i v : tidy (JArray items) = true -> items !! i = Some v -> tidy v = true.
Proof. intros [_ H]%tidy_array Hi. by eapply Forall_lookup_1 in H. Qed.

Lemma obj_set_forall (P : json -> Prop) fields k v : Forall (fun kv => P kv.2) fields -> P v -> Forall (fun kv => P kv.2) (obj_set fields k v).
Proof.
  intros H Hv. induction H as [|[k' w] fields Hw H IH]; cbn; [by repeat constructor|]. destruct (String.compare k k'); repeat constructor; done.
Qed.

Lemma obj_erase_forall (P : json -> Prop) fields k : Forall (fun kv => P kv.2) fields -> Forall (fun kv => P kv.2) (obj_erase fields k).
Proof. induction 1 as [|[k' w] fields Hw H IH]; cbn; [constructor|]. destruct (String.eqb k' k); [done|by constructor]. Qed.

Lemma tidy_set fields k v : tidy (JObject fields) = true -> tidy v = true -> tidy (JObject (obj_set fields k v)) = true.
Proof. intros [H1 H2]%tidy_object Hv. apply tidy_object. split; [by apply obj_set_sorted|by apply (obj_set_forall (fun v => tidy v = true))]. Qed.

Lemma tidy_erase fields k : tidy (JObject fields) = true -> tidy (JObject (obj_erase fields k)) = true.
Proof. intros [H1 H2]%tidy_object. apply tidy_object. split; [by apply obj_erase_sorted|by apply (obj_erase_forall (fun v => tidy v = true))]. Qed.

Lemma tidy_insert items i v : tidy (JArray items) = true -> tidy v = true -> tidy (JArray (<[i := v]> items)) = true.
Proof. intros [H1 H2]%tidy_array Hv. apply tidy_array. rewrite length_insert. split; [done|]. by apply Forall_insert. Qed.

Lemma obj_set_same fields k v : sorted_keys fields = true -> obj_find fields k = Some v -> obj_set fields k v = fields.
Proof.
  intros Hs Hf. apply fields_ext; [by apply obj_set_sorted|done|]. intros k'. rewrite obj_find_set. destruct (String.eqb_spec k k') as [<-|]; congruence.
Qed.

(** *** The laws of reading and writing *)

Lemma get_app p q : forall j, get_checked (p ++ q)%list j = v ← get_checked p j; get_checked q v.
Proof.
  induction p as [|t p IH]; intros j; [done|]. cbn [app get_checked]. destruct j as [|fields|items|s|b|z|x|bs st]; try done.
  - destruct (at_key _ _); [apply IH|done].
  - destruct (String.eqb t "-"); [done|]. destruct (array_index t); [|done]. cbn [mbind res_bind]. destruct (at_index _ _); [apply IH|done].
Qed.

Lemma modify_app p q f : forall j, modify_checked (p ++ q)%list f j = modify_checked p (modify_checked q f) j.
Proof.
  induction p as [|t p IH]; intros j; [done|]. cbn [app modify_checked]. destruct j as [|fields|items|s|b|z|x|bs st]; try done.
  - destruct (at_key _ _); [|done]. cbn [mbind res_bind]. by rewrite IH.
  - destruct (String.eqb t "-"); [done|]. destruct (array_index t); [|done]. cbn [mbind res_bind]. destruct (at_index _ _); [|done]. cbn [mbind res_bind]. by rewrite IH.
Qed.

Lemma modify_put ptr f : forall doc v w, get_checked ptr doc = Ok v -> f v = Ok w -> modify_checked ptr f doc = put ptr w doc.
Proof.
  unfold put. induction ptr as [|t ptr IH]; intros doc v w; cbn [get_checked modify_checked]; [by intros [= ->]|].
  destruct doc as [|fields|items|s|b|z|x|bs st]; try done.
  - destruct (at_key _ _); [|done]. cbn [mbind res_bind]. intros H1 H2. by rewrite (IH _ _ _ H1 H2).
  - destruct (String.eqb t "-"); [done|]. destruct (array_index t); [|done]. cbn [mbind res_bind]. destruct (at_index _ _); [|done]. cbn [mbind res_bind].
    intros H1 H2. by rewrite (IH _ _ _ H1 H2).
Qed.

Lemma put_ok ptr w : forall doc v, get_checked ptr doc = Ok v -> exists doc', put ptr w doc = Ok doc'.
Proof.
  unfold put. induction ptr as [|t ptr IH]; intros doc v; cbn [get_checked modify_checked]; [by eauto|].
  destruct doc as [|fields|items|s|b|z|x|bs st]; try done.
  - destruct (at_key _ _); [|done]. cbn [mbind res_bind]. intros H. destruct (IH _ _ H) as [d ->]. cbn. by eauto.
  - destruct (String.eqb t "-"); [done|]. destruct (array_index t); [|done]. cbn [mbind res_bind]. destruct (at_index _ _); [|done]. cbn [mbind res_bind].
    intros H. destruct (IH _ _ H) as [d ->]. cbn. by eauto.
Qed.

Lemma put_get ptr w doc doc' : put ptr w doc = Ok doc' -> get_checked ptr doc' = Ok w.
Proof. intros H. apply modify_get in H as (v & v' & _ & E & H). by injection E as <-. Qed.

Lemma put_put ptr w x : forall doc doc', put ptr w doc = Ok doc' -> put ptr x doc' = put ptr x doc.
Proof.
  unfold put. induction ptr as [|t ptr IH]; intros doc doc'; cbn [modify_checked]; [done|].
  destruct doc as [|fields|items|s|b|z|y|bs st]; try done.
  - cbn [at_key]. destruct (obj_find fields t) as [v|] eqn:Ef; [|done]. cbn [mbind res_bind]. destruct (modify_checked ptr _ v) as [v'|] eqn:E; [|done].
    intros [= <-]. cbn [at_key]. rewrite obj_find_set, String.eqb_refl. cbn [mbind res_bind]. rewrite (IH _ _ E).
    destruct (modify_checked ptr (fun _ => Ok x) v); [|done]. cbn. by rewrite obj_set_set.
  - destruct (String.eqb t "-"); [done|]. destruct (array_index t) as [i|]; [|done]. cbn [mbind res_bind at_index].
    destruct (items !! i) as [v|] eqn:Ei; [|done]. cbn [mbind res_bind]. destruct (modify_checked ptr _ v) as [v'|] eqn:E; [|done]. intros [= <-].
    cbn [at_index]. rewrite list_lookup_insert_eq by (by eapply lookup_lt_Some). cbn [mbind res_bind]. rewrite (IH _ _ E).
    destruct (modify_checked ptr (fun _ => Ok x) v); [|done]. cbn. by rewrite list_insert_insert_eq.
Qed.

Lemma put_same ptr : forall doc v, tidy doc = true -> get_checked ptr doc = Ok v -> put ptr v doc = Ok doc.
Proof.
  unfold put. induction ptr as [|t ptr IH]; intros doc v Ht; cbn [get_checked modify_checked]; [by intros [= ->]|].
  destruct doc as [|fields|items|s|b|z|x|bs st]; try done.
  - cbn [at_key]. destruct (obj_find fields t) as [w|] eqn:Ef; [|done]. cbn [mbind res_bind]. intros H.
    rewrite (IH _ _ (tidy_find _ _ _ Ht Ef) H). cbn. apply tidy_object in Ht as [Hs _]. by rewrite obj_set_same.
  - destruct (String.eqb t "-"); [done|]. destruct (array_index t) as [i|]; [|done]. cbn [mbind res_bind at_index].
    destruct (items !! i) as [w|] eqn:Ei; [|done]. cbn [mbind res_bind]. intros H. rewrite (IH _ _ (tidy_nth _ _ _ Ht Ei) H). cbn. by rewrite list_insert_id.
Qed.

Lemma put_tidy ptr w : tidy w = true -> forall doc doc', tidy doc = true -> put ptr w doc = Ok doc' -> tidy doc' = true.
Proof.
  intros Hw. unfold put. induction ptr as [|t ptr IH]; intros doc doc' Ht; cbn [modify_checked]; [by intros [= <-]|].
  destruct doc as [|fields|items|s|b|z|x|bs st]; try done.
  - cbn [at_key]. destruct (obj_find fields t) as [v|] eqn:Ef; [|done]. cbn [mbind res_bind]. destruct (modify_checked ptr _ v) as [v'|] eqn:E; [|done].
    intros [= <-]. apply tidy_set; [done|]. by apply (IH v); [eapply tidy_find|].
  - destruct (String.eqb t "-"); [done|]. destruct (array_index t) as [i|]; [|done]. cbn [mbind res_bind at_index].
    destruct (items !! i) as [v|] eqn:Ei; [|done]. cbn [mbind res_bind]. destruct (modify_checked ptr _ v) as [v'|] eqn:E; [|done]. intros [= <-].
    apply tidy_insert; [done|]. by apply (IH v); [eapply tidy_nth|].
Qed.

(** ** What the operations of a difference do *)

Lemma operations_app a b doc doc' : apply_operations a doc = (Ok tt, doc') -> apply_operations (a ++ b)%list doc = apply_operations b doc'.
Proof.
  revert doc. induction a as [|v a IH]; intros doc; cbn [apply_operations app]; [by intros [= ->]|].
  unfold mbind, M_bind. destruct (apply_operation v doc) as [[[]|e] d]; [apply IH|done].
Qed.

Lemma operation_one v doc doc' : apply_operation v doc = (Ok tt, doc') -> apply_operations [v] doc = (Ok tt, doc').
Proof. intros H. cbn. unfold mbind, M_bind. by rewrite H. Qed.

Lemma back_snoc ptr tok : back (append_token ptr tok) = Ok tok.
Proof. unfold back, append_token. by rewrite last_snoc. Qed.
Lemma pop_back_snoc ptr tok : pop_back (append_token ptr tok) = Ok ptr.
Proof. unfold pop_back, append_token. rewrite removelast_last. by destruct ptr. Qed.

Lemma changing_put ptr f v w doc doc' : get_checked ptr doc = Ok v -> f v = Ok w -> put ptr w doc = Ok doc' ->
  changing (modify_checked ptr f) doc = (Ok tt, doc').
Proof. intros Hg Hf Hp. unfold changing. by rewrite (modify_put _ _ _ _ _ Hg Hf), Hp. Qed.

(** An operation whose members are in place. *)
Lemma apply_operation_eq fields op ptr doc : obj_find fields "op" = Some (JString op) -> obj_find fields "path" = Some (JString (pointer_string ptr)) ->
  apply_operation (JObject fields) doc
  = match get_op op with
    | op_add => (v ← liftR (get_member (JObject fields) "value"); operation_add ptr v) doc
    | op_remove => operation_remove ptr doc
    | op_replace => (v ← liftR (get_member (JObject fields) "value"); changing (modify_checked ptr (fun _ => Ok v))) doc
    | _ => apply_operation (JObject fields) doc
    end.
Proof.
  intros Ho Hp. unfold apply_operation. cbn [is_object negb]. unfold get_string_member, get_member. rewrite Ho, Hp. unfold mbind, M_bind, liftR, res_bind.
  rewrite split_pointer_string. by destruct (get_op op).
Qed.

Lemma apply_replace ptr t doc doc' : put ptr t doc = Ok doc' -> apply_operation (replace_operation (pointer_string ptr) t) doc = (Ok tt, doc').
Proof.
  intros H. change (replace_operation ?p t) with (JObject [("op", JString "replace"); ("path", JString p); ("value", t)]).
  rewrite (apply_operation_eq _ "replace" ptr) by reflexivity. change (changing (fun doc => put ptr t doc) doc = (Ok tt, doc')).
  unfold changing. by rewrite H.
Qed.

Lemma apply_remove ptr tok v w doc doc' : get_checked ptr doc = Ok v -> remove_child tok v = Ok w -> put ptr w doc = Ok doc' ->
  apply_operation (remove_operation (pointer_string (append_token ptr tok))) doc = (Ok tt, doc').
Proof.
  intros Hg Hr Hp. change (remove_operation ?p) with (JObject [("op", JString "remove"); ("path", JString p)]).
  rewrite (apply_operation_eq _ "remove" (append_token ptr tok)) by reflexivity. cbn [get_op String.eqb Ascii.eqb Bool.eqb]. unfold operation_remove, mbind, M_bind, liftR. rewrite back_snoc, pop_back_snoc. by eapply changing_put.
Qed.

Lemma apply_add ptr tok x v w doc doc' : get_checked ptr doc = Ok v -> add_child tok x v = Ok w -> put ptr w doc = Ok doc' ->
  apply_operation (add_operation (pointer_string (append_token ptr tok)) x) doc = (Ok tt, doc').
Proof.
  intros Hg Hr Hp. change (add_operation ?p x) with (JObject [("op", JString "add"); ("path", JString p); ("value", x)]).
  rewrite (apply_operation_eq _ "add" (append_token ptr tok)) by reflexivity. cbn [get_op String.eqb Ascii.eqb Bool.eqb].
  change ((v ← liftR (get_member ?o "value"); operation_add ?p v) doc) with (operation_add p x doc). unfold operation_add. pose proof (back_snoc ptr tok) as Hb. pose proof (pop_back_snoc ptr tok) as Hq.
  assert (Htop : check_top (append_token ptr tok) doc = (Ok tt, doc)).
  { destruct ptr as [|t ptr]; [done|]. change (t :: ptr) with ([t] ++ ptr)%list in Hg. rewrite get_app in Hg.
    unfold append_token. destruct ptr as [|u ptr]; cbn [app check_top]; unfold mbind, M_bind, checking; by destruct (get_checked [t] doc). }
  assert (exists t rest, append_token ptr tok = t :: rest) as (t & rest & Ea) by (destruct ptr; by eexists _, _).
  rewrite Ea in *. unfold mbind, M_bind, liftR. rewrite Htop, Hb, Hq. by eapply changing_put.
Qed.

(** *** Paths *)

Lemma digits_escape s : all_chars is_digit s = true -> escape s = s.
Proof.
  rewrite escape_eq. induction s as [|c s IH]; [done|]. cbn [all_chars subst1]. intros [Hc Hs]%andb_true_iff.
  assert (Ascii.eqb c "~" = false) as -> by (apply Ascii.eqb_neq; by apply digit_not_char).
  cbn [subst1]. assert (Ascii.eqb c "/" = false) as -> by (apply Ascii.eqb_neq; by apply digit_not_char). by rewrite IH.
Qed.

Lemma index_path_eq ptr i : index_path (pointer_string ptr) i = pointer_string (append_token ptr (to_string (Z.of_nat i))).
Proof. rewrite pointer_string_snoc, digits_escape; [done|]. apply to_string_spec. lia. Qed.

Lemma key_path_eq ptr key : key_path (pointer_string ptr) key = pointer_string (append_token ptr key).
Proof. by rewrite pointer_string_snoc. Qed.

Lemma dash_path ptr : pointer_string ptr +:+ "/-" = pointer_string (append_token ptr "-").
Proof. by rewrite pointer_string_snoc. Qed.

(** *** Children *)

Lemma get_item ptr doc pre a s : get_checked ptr doc = Ok (JArray (pre ++ a :: s)%list) -> Z.of_nat (length pre) < size_max ->
  get_checked (append_token ptr (to_string (Z.of_nat (length pre)))) doc = Ok a.
Proof.
  intros H Hl. unfold append_token. rewrite get_app, H. cbn [mbind res_bind get_checked]. rewrite to_string_not_dash by lia.
  rewrite array_index_to_string by done. cbn [mbind res_bind at_index]. rewrite list_lookup_middle by done. done.
Qed.

Lemma put_item ptr doc pre a s x : get_checked ptr doc = Ok (JArray (pre ++ a :: s)%list) -> Z.of_nat (length pre) < size_max ->
  put (append_token ptr (to_string (Z.of_nat (length pre)))) x doc = put ptr (JArray (pre ++ x :: s)%list) doc.
Proof.
  intros H Hl. unfold put at 1, append_token. rewrite modify_app. apply (modify_put _ _ _ _ _ H). cbn [modify_checked].
  rewrite to_string_not_dash by lia. rewrite array_index_to_string by done. cbn [mbind res_bind at_index]. rewrite list_lookup_middle by done.
  cbn. by rewrite insert_app_r_alt, Nat.sub_diag by lia.
Qed.

Lemma get_field ptr doc fields key v : get_checked ptr doc = Ok (JObject fields) -> obj_find fields key = Some v ->
  get_checked (append_token ptr key) doc = Ok v.
Proof. intros H Hf. unfold append_token. rewrite get_app, H. cbn. by rewrite Hf. Qed.

Lemma put_field ptr doc fields key v x : get_checked ptr doc = Ok (JObject fields) -> obj_find fields key = Some v ->
  put (append_token ptr key) x doc = put ptr (JObject (obj_set fields key x)) doc.
Proof. intros H Hf. unfold put at 1, append_token. rewrite modify_app. apply (modify_put _ _ _ _ _ H). cbn. by rewrite Hf. Qed.

(** ** Applying a difference *)

Definition diff_items (path : string) : list json -> list json -> nat -> list json :=
  fix go (s t : list json) (i : nat) {struct s} : list json :=
    match s, t with
    | a :: s', b :: t' => (diff_operations a b (index_path path i) ++ go s' t' (S i))%list
    | _, [] => removals path i (length s)
    | [], _ => map (add_operation (path +:+ "/-")) t
    end.

Definition diff_fields (path : string) (t : list (string * json)) : list (string * json) -> list json :=
  fix go (l : list (string * json)) : list json :=
    match l with
    | [] => []
    | (key, v) :: l =>
        match obj_find t key with
        | Some w => diff_operations v w (key_path path key)
        | None => [remove_operation (key_path path key)]
        end ++ go l
    end%list.

Definition new_fields (path : string) (s t : list (string * json)) : list json :=
  omap (fun '(key, w) => match obj_find s key with Some _ => None | None => Some (add_operation (key_path path key) w) end) t.

Lemma diff_eq s t path : diff_operations s t path =
  if json_eq s t then []
  else match s, t with
       | JArray s, JArray t => diff_items path s t 0
       | JObject s, JObject t => (diff_fields path t s ++ new_fields path s t)%list
       | _, _ => [replace_operation path t]
       end.
Proof. by destruct s. Qed.

(** The operations [ops] put at [ptr] a value with the property [Q]. *)
Definition patches (ptr : json_pointer) (doc : json) (ops : list json) (Q : json -> Prop) : Prop :=
  exists v doc', apply_operations ops doc = (Ok tt, doc') /\ put ptr v doc = Ok doc' /\ tidy v = true /\ Q v.

Lemma patches_nil ptr doc v (Q : json -> Prop) : tidy doc = true -> tidy v = true -> get_checked ptr doc = Ok v -> Q v -> patches ptr doc [] Q.
Proof. intros Hd Hv Hg HQ. exists v, doc. split_and!; try done. by apply put_same. Qed.

Lemma patches_app ptr doc a b (Q R : json -> Prop) : tidy doc = true -> patches ptr doc a Q ->
  (forall v doc', Q v -> tidy v = true -> tidy doc' = true -> get_checked ptr doc' = Ok v -> patches ptr doc' b R) -> patches ptr doc (a ++ b)%list R.
Proof.
  intros Ht (v & d & Ha & Hp & Hv & HQ) H. destruct (H v d) as (w & d' & Hb & Hp' & Hw & HR); [done..|exact (put_tidy _ _ Hv _ _ Ht Hp)|exact (put_get _ _ _ _ Hp)|].
  exists w, d'. split_and!; try done; [by rewrite (operations_app _ _ _ _ Ha)|]. by rewrite <- (put_put _ _ w _ _ Hp).
Qed.

Lemma patches_op ptr doc op u v (Q : json -> Prop) : get_checked ptr doc = Ok u -> tidy v = true -> Q v ->
  (forall doc', put ptr v doc = Ok doc' -> apply_operation op doc = (Ok tt, doc')) -> patches ptr doc [op] Q.
Proof.
  intros Hg Hv HQ H. destruct (put_ok ptr v _ _ Hg) as [d Hp]. exists v, d. split_and!; try done. by apply operation_one, H.
Qed.

Lemma patches_item ptr doc pre a s ops (Q : json -> Prop) : get_checked ptr doc = Ok (JArray (pre ++ a :: s)%list) -> tidy (JArray (pre ++ a :: s)%list) = true ->
  patches (append_token ptr (to_string (Z.of_nat (length pre)))) doc ops Q ->
  patches ptr doc ops (fun v => exists x, v = JArray (pre ++ x :: s)%list /\ tidy x = true /\ Q x).
Proof.
  intros Hg Ht (x & d & Ha & Hp & Hx & HQ). pose proof Ht as [Hl _]%tidy_array. rewrite length_app in Hl. cbn in Hl.
  exists (JArray (pre ++ x :: s)%list), d. rewrite (put_item _ _ _ _ _ _ Hg) in Hp by lia. split_and!; try done; [|by exists x].
  apply tidy_array in Ht as [H1 H2]. apply tidy_array. rewrite length_app in *. split; [done|].
  apply Forall_app in H2 as [H2 H3]. inversion H3; subst. apply Forall_app. split; [done|by constructor].
Qed.

Lemma patches_field ptr doc fields key v ops (Q : json -> Prop) : get_checked ptr doc = Ok (JObject fields) -> tidy (JObject fields) = true ->
  obj_find fields key = Some v -> patches (append_token ptr key) doc ops Q ->
  patches ptr doc ops (fun j => exists x, j = JObject (obj_set fields key x) /\ tidy x = true /\ Q x).
Proof.
  intros Hg Ht Hf (x & d & Ha & Hp & Hx & HQ). exists (JObject (obj_set fields key x)), d. rewrite (put_field _ _ _ _ _ _ Hg Hf) in Hp.
  split_and!; try done; [|by exists x]. by apply tidy_set.
Qed.

Definition patched (a : json) : Prop := forall b ptr doc, tidy a = true -> tidy b = true -> no_nan b = true -> tidy doc = true ->
  get_checked ptr doc = Ok a -> patches ptr doc (diff_operations a b (pointer_string ptr)) (fun v => json_eq v b = true).

Lemma removals_patched ptr n : forall doc pre s, length s = n -> tidy doc = true -> tidy (JArray (pre ++ s)%list) = true ->
  get_checked ptr doc = Ok (JArray (pre ++ s)%list) ->
  patches ptr doc (removals (pointer_string ptr) (length pre) n) (fun v => v = JArray pre).
Proof.
  induction n as [|n IH]; intros doc pre s Hl Hd Ht Hg.
  - destruct s; [|done]. rewrite app_nil_r in *. by eapply patches_nil.
  - destruct s as [|a s]; [done|]. cbn [removals]. apply (patches_app _ _ _ _ (fun v => v = JArray (pre ++ [a])%list)); [done| |].
    + replace (S (length pre)) with (length (pre ++ [a])%list) by (rewrite length_app; cbn; lia).
      rewrite cons_middle, app_assoc in Ht, Hg. apply (IH doc (pre ++ [a])%list s); [cbn in Hl; lia|done..].
    + intros v d -> Hv Hd' Hg'. rewrite index_path_eq. pose proof Hv as [Hb Hf]%tidy_array. rewrite length_app in Hb. cbn in Hb.
      apply (patches_op _ _ _ _ (JArray pre) _ Hg'); [|done|].
      * apply tidy_array. apply Forall_app in Hf as [Hf _]. split; [lia|done].
      * intros d' Hp. apply (apply_remove _ _ _ _ _ _ Hg' ) with (2 := Hp). cbn [remove_child]. rewrite array_index_to_string by lia.
        cbn [mbind res_bind erase_index]. rewrite length_app. cbn [length]. destruct (Nat.leb_spec (length pre + 1) (length pre)); [lia|].
        by rewrite delete_middle, app_nil_r.
Qed.

Lemma adds_patched ptr t : forall doc pre, tidy doc = true -> tidy (JArray (pre ++ t)%list) = true -> get_checked ptr doc = Ok (JArray pre) ->
  patches ptr doc (map (add_operation (pointer_string ptr +:+ "/-")) t) (fun v => v = JArray (pre ++ t)%list).
Proof.
  induction t as [|b t IH]; intros doc pre Hd Ht Hg; cbn [map].
  - rewrite app_nil_r in *. by eapply patches_nil.
  - rewrite cons_middle, app_assoc in Ht. change (?x :: map ?f t) with ([x] ++ map f t)%list.
    apply (patches_app _ _ _ _ (fun v => v = JArray (pre ++ [b])%list)); [done| |].
    + rewrite dash_path. apply (patches_op _ _ _ _ (JArray (pre ++ [b])%list) _ Hg); [|done|].
      * apply tidy_array in Ht as [H1 H2]. apply tidy_array. rewrite length_app in H1. apply Forall_app in H2 as [H2 _]. split; [lia|done].
      * intros d' Hp. by apply (apply_add _ _ _ _ _ _ _ Hg) with (2 := Hp).
    + intros v d -> Hv Hd' Hg'. rewrite cons_middle, app_assoc. by apply IH.
Qed.

Lemma items_patched ptr s : Forall patched s -> forall t doc pre, tidy doc = true -> tidy (JArray (pre ++ s)%list) = true -> tidy (JArray (pre ++ t)%list) = true ->
  forallb no_nan t = true -> get_checked ptr doc = Ok (JArray (pre ++ s)%list) ->
  patches ptr doc (diff_items (pointer_string ptr) s t (length pre)) (fun v => exists s', v = JArray (pre ++ s')%list /\ Forall2 (fun x y => json_eq x y = true) s' t).
Proof.
  induction 1 as [|a s Ha Hs IH]; intros [|b t] doc pre Hd Ht1 Ht2 Hn Hg.
  - cbn [diff_items length removals]. eapply patches_nil; [done..|]. by exists [].
  - cbn [diff_items]. rewrite app_nil_r in Hg. destruct (adds_patched ptr (b :: t) doc pre Hd Ht2 Hg) as (v & d & H1 & H2 & H3 & ->).
    eexists _, d. split_and!; [done..|]. eexists. split; [done|]. apply Forall2_same_length_lookup_2; [done|]. intros i x y Hx Hy. rewrite Hx in Hy. injection Hy as <-.
    apply json_eq_refl. rewrite forallb_forall in Hn. apply Hn. by eapply list_elem_of_In, list_elem_of_lookup_2.
  - cbn [diff_items]. destruct (removals_patched ptr _ doc pre (a :: s) eq_refl Hd Ht1 Hg) as (v & d & H1 & H2 & H3 & ->).
    eexists _, d. split_and!; [done..|]. exists []. by rewrite app_nil_r.
  - cbn [diff_items]. cbn [forallb] in Hn. apply andb_true_iff in Hn as [Hb Hn].
    pose proof Ht1 as [L1 F1]%tidy_array. pose proof Ht2 as [L2 F2]%tidy_array. rewrite length_app in L1, L2. cbn [length] in L1, L2.
    apply Forall_app in F1 as [Fp F1], F2 as [_ F2]. inversion F1; inversion F2; subst.
    eapply patches_app; [done| |].
    + apply (patches_item _ _ pre a s _ (fun x => json_eq x b = true) Hg Ht1). rewrite index_path_eq. apply Ha; try done. eapply get_item; [done|lia].
    + intros v d (x & -> & Hx & He) Hv Hd' Hg'. cbn beta in *. replace (S (length pre)) with (length (pre ++ [x])%list) by (rewrite length_app; cbn; lia).
      rewrite cons_middle, app_assoc in Hv, Hg'. destruct (IH t d (pre ++ [x])%list Hd' Hv) as (v & d2 & P1 & P2 & P3 & s' & -> & P4); [|done..|].
      { apply tidy_array. rewrite !length_app. cbn [length]. split; [lia|]. apply Forall_app. split; [|done]. apply Forall_app. split; [done|by constructor]. }
      exists (JArray ((pre ++ [x]) ++ s')%list), d2. split_and!; [done..|]. exists (x :: s'). rewrite <- app_assoc. split; [done|]. by constructor.
Qed.

Lemma fields_patched ptr t l : Forall (fun kv => patched kv.2) l -> tidy (JObject t) = true -> no_nan (JObject t) = true -> sorted_keys l = true ->
  forall doc cur, tidy doc = true -> tidy (JObject cur) = true -> get_checked ptr doc = Ok (JObject cur) ->
  (forall k v, obj_find l k = Some v -> obj_find cur k = Some v) ->
  patches ptr doc (diff_fields (pointer_string ptr) t l) (fun j => exists cur', j = JObject cur' /\ forall k,
    match obj_find l k with
    | Some _ => option_Forall2 (fun x y => json_eq x y = true) (obj_find cur' k) (obj_find t k)
    | None => obj_find cur' k = obj_find cur k
    end).
Proof.
  intros Hl Ht Hn. induction Hl as [|[key v] l Hv Hl IH]; intros Hs doc cur Hd Hc Hg Hf; cbn [diff_fields].
  - eapply patches_nil; [done..|]. by exists cur.
  - pose proof (find_head _ _ _ Hs) as Hk. apply sorted_head in Hs as [_ Hs]. cbn [snd] in Hv.
    assert (Hkey : obj_find cur key = Some v) by (apply Hf; cbn; by rewrite String.eqb_refl).
    assert (Hrest : forall k w, obj_find l k = Some w -> k <> key /\ obj_find cur k = Some w).
    { intros k w Hw. assert (k <> key) as Hne by congruence. split; [done|]. apply Hf. cbn. by destruct (String.eqb_spec key k); [congruence|]. }
    (* behind the operations for [key] *)
    assert (G : forall d c (Q : json -> option json -> Prop), tidy d = true -> tidy (JObject c) = true -> get_checked ptr d = Ok (JObject c) ->
      (forall k, k <> key -> obj_find c k = obj_find cur k) -> option_Forall2 (fun x y => json_eq x y = true) (obj_find c key) (obj_find t key) ->
      patches ptr d (diff_fields (pointer_string ptr) t l) (fun j => exists cur', j = JObject cur' /\ forall k,
        match obj_find ((key, v) :: l) k with
        | Some _ => option_Forall2 (fun x y => json_eq x y = true) (obj_find cur' k) (obj_find t k)
        | None => obj_find cur' k = obj_find cur k
        end)).
    { intros d c _ Hd' Hc' Hg' Hne He. destruct (IH Hs d c Hd' Hc' Hg') as (j & d2 & P1 & P2 & P3 & cur' & -> & P4).
      { intros k w Hw. destruct (Hrest k w Hw) as [N E]. by rewrite Hne. }
      exists (JObject cur'), d2. split_and!; [done..|]. exists cur'. split; [done|]. intros k. cbn [obj_find]. specialize (P4 k).
      destruct (String.eqb_spec key k) as [Ek|N]; [subst k; rewrite Hk in P4; by rewrite P4|].
      destruct (obj_find l k); [done|]. rewrite P4. apply Hne. congruence. }
    destruct (obj_find t key) as [w|] eqn:Et.
    + eapply patches_app; [done| |].
      * apply (patches_field _ _ cur key v _ (fun x => json_eq x w = true) Hg Hc Hkey). rewrite key_path_eq. apply Hv; try done.
        -- exact (tidy_find _ _ _ Hc Hkey).
        -- exact (tidy_find _ _ _ Ht Et).
        -- cbn [no_nan] in Hn. rewrite forallb_forall in Hn. by apply (Hn (key, w)), obj_find_in.
        -- by eapply get_field.
      * intros j d (x & -> & Hx & He) Hj Hd' Hg'. cbn beta in *. apply (G d (obj_set cur key x) (fun _ _ => True)); try done.
        -- intros k Hne. rewrite obj_find_set. by destruct (String.eqb_spec key k); [congruence|].
        -- rewrite obj_find_set, String.eqb_refl. by constructor.
    + eapply (patches_app _ _ [_] _ (fun j => j = JObject (obj_erase cur key))); [done| |].
      * rewrite key_path_eq. apply (patches_op _ _ _ _ (JObject (obj_erase cur key)) _ Hg); [by apply tidy_erase|done|].
        intros d' Hp. apply (apply_remove _ _ _ _ _ _ Hg) with (2 := Hp). cbn [remove_child]. by rewrite Hkey.
      * intros j d -> Hj Hd' Hg'. apply tidy_object in Hc as [Hcs _]. apply (G d (obj_erase cur key) (fun _ _ => True)); try done.
        -- intros k Hne. rewrite obj_find_erase by done. by destruct (String.eqb_spec key k); [congruence|].
        -- rewrite obj_find_erase by done. rewrite String.eqb_refl. constructor.
Qed.

Lemma new_fields_patched ptr s t : tidy (JObject t) = true -> forall doc cur, tidy doc = true -> tidy (JObject cur) = true ->
  get_checked ptr doc = Ok (JObject cur) ->
  patches ptr doc (new_fields (pointer_string ptr) s t) (fun j => exists cur', j = JObject cur' /\ forall k,
    obj_find cur' k = match obj_find t k, obj_find s k with Some w, None => Some w | _, _ => obj_find cur k end).
Proof.
  unfold new_fields. intros Ht. induction t as [|[key w] t IH]; intros doc cur Hd Hc Hg; cbn [omap list_omap].
  - eapply patches_nil; [done..|]. by exists cur.
  - pose proof Ht as [Hs Hf]%tidy_object. pose proof (find_head _ _ _ Hs) as Hk. apply sorted_head in Hs as [_ Hs]. inversion Hf as [|? ? Hw Hf']; subst.
    assert (Ht' : tidy (JObject t) = true) by (by apply tidy_object). destruct (obj_find s key) as [v|] eqn:Es.
    + destruct (IH Ht' doc cur Hd Hc Hg) as (j & d & P1 & P2 & P3 & cur' & -> & P4). exists (JObject cur'), d. split_and!; [done..|]. exists cur'. split; [done|].
      intros k. rewrite P4. cbn [obj_find]. destruct (String.eqb_spec key k) as [Ek|]; [|done]. subst k. by rewrite Hk, Es.
    + eapply (patches_app _ _ [_] _ (fun j => j = JObject (obj_set cur key w))); [done| |].
      * rewrite key_path_eq. apply (patches_op _ _ _ _ (JObject (obj_set cur key w)) _ Hg); [by apply tidy_set|done|].
        intros d' Hp. by apply (apply_add _ _ _ _ _ _ _ Hg) with (2 := Hp).
      * intros j d -> Hj Hd' Hg'. destruct (IH Ht' d _ Hd' Hj Hg') as (j & d2 & P1 & P2 & P3 & cur' & -> & P4). exists (JObject cur'), d2. split_and!; [done..|].
        exists cur'. split; [done|]. intros k. rewrite P4, obj_find_set. cbn [obj_find]. destruct (String.eqb_spec key k) as [Ek|]; [|done]. subst k. by rewrite Hk, Es.
Qed.

Lemma diff_patched s : patched s.
Proof.
  induction s as [|fields IH|items IH|s|b|z|x|bs st] using json_nested_ind; intros t ptr doc Hs Ht Hn Hd Hg; rewrite diff_eq;
    (destruct (json_eq _ t) eqn:E; [exact (patches_nil _ _ _ _ Hd Hs Hg E)|]);
    try (apply (patches_op _ _ _ _ t _ Hg); [done|by apply json_eq_refl|by apply apply_replace]);
    destruct t as [|tf|ti|ts|tb|tz|tx|tbs tst]; try (apply (patches_op _ _ _ _ _ _ Hg Ht); [by apply json_eq_refl|by apply apply_replace]).
  - pose proof Hs as [Hk _]%tidy_object. pose proof Ht as [Hkt _]%tidy_object. eapply patches_app; [done|by apply (fields_patched ptr tf fields IH Ht Hn Hk doc fields)|].
    intros j d (cur & -> & Hcur) Hj Hd' Hg'. cbn beta in *.
    destruct (new_fields_patched ptr fields tf Ht d cur Hd' Hj Hg') as (j & d2 & P1 & P2 & P3 & cur' & -> & P4).
    exists (JObject cur'), d2. split_and!; [done..|]. apply json_eq_fields; [by apply tidy_object in P3 as [? _]|done|].
    intros k. rewrite P4. specialize (Hcur k). destruct (obj_find fields k) as [v|] eqn:Ef.
    + by destruct (obj_find tf k).
    + destruct (obj_find tf k) as [w|] eqn:Et; [|rewrite Hcur; constructor]. constructor. apply json_eq_refl.
      cbn [no_nan] in Hn. rewrite forallb_forall in Hn. by apply (Hn (k, w)), obj_find_in.
  - destruct (items_patched ptr items IH ti doc [] Hd Hs Ht Hn Hg) as (j & d & P1 & P2 & P3 & s' & -> & P4).
    eexists _, d. split_and!; [done..|]. rewrite json_eq_array. by apply eq_items_forall.
Qed.

(** C15: The difference of two values is a patch that turns one into the other: whatever values, with keys
    that need escaping, arrays that grow or shrink and containers within containers, applying
    [diff(source, target)] to the source succeeds, and the result compares equal to the target. *)
Theorem patch_diff (source target : json) : tidy source = true -> tidy target = true -> no_nan target = true ->
  exists result, patch source (diff source target) = Ok result /\ tidy result = true /\ json_eq result target = true.
Proof.
  intros Hs Ht Hn. destruct (diff_patched source target [] source Hs Ht Hn Hs eq_refl) as (v & d & P1 & P2 & P3 & P4).
  injection P2 as <-. exists v. split_and!; [|done..]. unfold patch, diff, patch_inplace. change (pointer_string []) with "" in P1. by rewrite P1.
Qed.

Lemma patch_diff_witness :
  let source := make_obj [("a/b", JArray [JInt 1; JInt 2; JInt 3]); ("gone", JNull); ("m~n", make_obj [("x", JBool true)])] in
  let target := make_obj [("a/b", JArray [JInt 1; JString "two"]); ("m~n", make_obj [("x", JBool true); ("y", JArray [])]); ("new", JInt 7)] in
  exists result, patch source (diff source target) = Ok result /\ json_eq result target = true.
Proof.
  intros source target. destruct (patch_diff source target eq_refl eq_refl eq_refl) as (r & H1 & _ & H2). by exists r.
Defined.

(** A negative integer and an unsigned one that agree in their 64 bits compare equal, so their
    difference is the empty patch, which leaves the negative one. *)
Theorem diff_sign_blind (z : Z) : - 2 ^ 63 <= z < 0 ->
  json_eq (JInt z) (JInt (z + 2 ^ 64)) = true /\ patch (JInt z) (diff (JInt z) (JInt (z + 2 ^ 64))) = Ok (JInt z).
Proof.
  intros Hz. assert (E : json_eq (JInt z) (JInt (z + 2 ^ 64)) = true).
  { cbn [json_eq]. apply Z.eqb_eq. unfold s64. replace (z + 2 ^ 64 + 2 ^ 63) with (z + 2 ^ 63 + 1 * 2 ^ 64) by lia. by rewrite Z.mod_add by lia. }
  split; [done|]. unfold patch, diff. rewrite diff_eq, E. done.
Qed.

Lemma diff_sign_blind_witness :
  json_eq (JInt (-1)) (JInt 18446744073709551615) = true /\ patch (JInt (-1)) (diff (JInt (-1)) (JInt 18446744073709551615)) = Ok (JInt (-1)).
Proof. apply (diff_sign_blind (-1)). lia. Defined.

(** ** Merging *)

Definition merge_fields : list (string * json) -> list (string * json) -> list (string * json) :=
  fix go (others fields : list (string * json)) : list (string * json) :=
    match others with
    | [] => fields
    | (key, v) :: others =>
        go others (if is_null v then obj_erase fields key
                   else obj_set fields key (merge_patch v (default JNull (obj_find fields key))))
    end.

Definition fields_of (j : json) : list (string * json) := match j with JObject fields => fields | _ => [] end.

Lemma merge_object others this : merge_patch (JObject others) this = JObject (merge_fields others (fields_of this)).
Proof. by destruct this. Qed.

(** A field behind a merge. *)
Definition merged (p : option json) (old : option json) : option json :=
  match p with
  | None => old
  | Some v => if is_null v then None else Some (merge_patch v (default JNull old))
  end.

Lemma merge_fields_find others : sorted_keys others = true -> forall fields, sorted_keys fields = true ->
  sorted_keys (merge_fields others fields) = true
  /\ forall k, obj_find (merge_fields others fields) k = merged (obj_find others k) (obj_find fields k).
Proof.
  induction others as [|[key v] others IH]; intros Ho fields Hf; cbn [merge_fields]; [done|].
  pose proof (find_head _ _ _ Ho) as Hk. apply sorted_head in Ho as [_ Ho].
  destruct (is_null v) eqn:En.
  - destruct (IH Ho (obj_erase fields key)) as [H1 H2]; [by apply obj_erase_sorted|]. split; [done|]. intros k. rewrite H2. cbn [obj_find].
    rewrite obj_find_erase by done. destruct (String.eqb_spec key k) as [E|]; [|done]. subst k. rewrite Hk. cbn. by rewrite En.
  - destruct (IH Ho (obj_set fields key (merge_patch v (default JNull (obj_find fields key))))) as [H1 H2]; [by apply obj_set_sorted|]. split; [done|].
    intros k. rewrite H2, obj_find_set. cbn [obj_find]. destruct (String.eqb_spec key k) as [E|]; [|done]. subst k. rewrite Hk. cbn. by rewrite En.
Qed.

(** Sorted at every level. *)
Fixpoint ordered (j : json) : bool :=
  match j with
  | JObject fields => sorted_keys fields && forallb (fun '(_, v) => ordered v) fields
  | JArray items => forallb ordered items
  | _ => true
  end.

Lemma ordered_find fields k v : ordered (JObject fields) = true -> obj_find fields k = Some v -> ordered v = true.
Proof. cbn [ordered]. intros [_ H]%andb_true_iff Hf. rewrite forallb_forall in H. by apply (H (k, v)), obj_find_in. Qed.

Lemma ordered_sorted j : ordered j = true -> sorted_keys (fields_of j) = true.
Proof. destruct j; cbn [ordered fields_of]; try done. by intros [H _]%andb_true_iff. Qed.

(** C38: A merge patch does to an object what RFC 7386 prescribes, field by field: a field the patch does
    not name stays, a field it sets to null is gone, and any other is merged with what was there; a patch
    that is no object replaces the value.  Merging the same patch a second time changes nothing. *)
Theorem merge_patch_correct (p this : json) : ordered p = true -> ordered this = true ->
  (is_object p = false -> merge_patch p this = p)
  /\ (forall others, p = JObject others -> exists fields, merge_patch p this = JObject fields /\ sorted_keys fields = true
        /\ forall k, obj_find fields k = merged (obj_find others k) (obj_find (fields_of this) k))
  /\ merge_patch p (merge_patch p this) = merge_patch p this.
Proof.
  intros Hp Ht. split_and!; [by destruct p| |].
  - intros others ->. rewrite merge_object. eexists. split; [done|]. apply merge_fields_find; [by apply (ordered_sorted (JObject others))|by apply ordered_sorted].
  - revert this Ht Hp. induction p as [|others IH|items _|s|b|z|x|bs st] using json_nested_ind; intros this Ht Hp; try done.
    pose proof (ordered_sorted _ Hp) as Ho. cbn [fields_of] in Ho. rewrite !merge_object. f_equal. cbn [fields_of].
    destruct (merge_fields_find others Ho (fields_of this) (ordered_sorted _ Ht)) as [S1 F1]. destruct (merge_fields_find others Ho _ S1) as [S2 F2].
    apply fields_ext; [done..|]. intros k. rewrite F2, F1. destruct (obj_find others k) as [v|] eqn:Ev; cbn [merged]; [|done].
    destruct (is_null v) eqn:En; [done|]. cbn [default]. f_equal. rewrite Forall_forall in IH. apply (IH (k, v)).
    + by apply list_elem_of_In, obj_find_in.
    + destruct this as [|fields|items|s|b|z|x|bs st]; try done. cbn [fields_of]. destruct (obj_find fields k) eqn:Ef; [|done]. by apply (ordered_find fields k).
    + by apply (ordered_find others k).
Qed.

Lemma merge_patch_correct_witness :
  let p := make_obj [("a", JNull); ("b", make_obj [("c", JInt 1); ("d", JNull)])] in
  let this := make_obj [("a", JInt 0); ("b", make_obj [("d", JInt 2); ("e", JInt 3)])] in
  merge_patch p this = make_obj [("b", make_obj [("c", JInt 1); ("e", JInt 3)])] /\ merge_patch p (merge_patch p this) = merge_patch p this.
Proof. intros p this. split; [reflexivity|]. apply (merge_patch_correct p this); reflexivity. Defined.

(** An operation below a value that is no container is ignored, although RFC 6902 makes it an error:
    when the parent is a string, a number or a boolean, "add" and "remove" succeed and change nothing. *)
Theorem patch_below_primitive (doc parent x : json) (ptr : json_pointer) (tok : string) :
  tidy doc = true -> get_checked ptr doc = Ok parent -> is_primitive parent = true -> is_null parent = false ->
  patch doc (JArray [add_operation (pointer_string (append_token ptr tok)) x; remove_operation (pointer_string (append_token ptr tok))]) = Ok doc.
Proof.
  intros Hd Hg Hp Hn. assert (Hs : put ptr parent doc = Ok doc) by (by apply put_same).
  assert (Ha : apply_operation (add_operation (pointer_string (append_token ptr tok)) x) doc = (Ok tt, doc)).
  { apply (apply_add _ _ _ _ _ _ _ Hg) with (2 := Hs). by destruct parent. }
  assert (Hr : apply_operation (remove_operation (pointer_string (append_token ptr tok))) doc = (Ok tt, doc)).
  { apply (apply_remove _ _ _ _ _ _ Hg) with (2 := Hs). by destruct parent. }
  unfold patch, patch_inplace. cbn [apply_operations]. unfold mbind, M_bind. by rewrite Ha, Hr.
Qed.

Lemma patch_below_primitive_witness :
  patch (make_obj [("a", JInt 5)]) (JArray [add_operation "/a/b" (JInt 1); remove_operation "/a/b"]) = Ok (make_obj [("a", JInt 5)]).
Proof. apply (patch_below_primitive (make_obj [("a", JInt 5)]) (JInt 5) (JInt 1) ["a"] "b"); reflexivity. Defined.
