(* ===== verification/JsonFlatten.v ===== *)
(** * json.hpp: flatten and unflatten

    A value as the object of its primitive parts, each under the text of its pointer, and back. *)

From S2P Require Import Prelude Str Json JsonSpec JsonWf JsonOps JsonPointer JsonPatch.
From Stdlib Require Import Ascii.
From Stdlib Require String.

Local Open Scope string_scope.
Local Open Scope Z_scope.

Fixpoint flatten_into (reference_string : string) (value : json) (result : list (string * json)) {struct value} : list (string * json) :=
  match value with
  | JArray [] => obj_set result reference_string JNull
  | JArray items =>
      (fix go (items : list json) (i : nat) (result : list (string * json)) {struct items} : list (string * json) :=
         match items with
         | [] => result
         | v :: items => go items (S i) (flatten_into (index_path reference_string i) v result)
         end) items 0%nat result
  | JObject [] => obj_set result reference_string JNull
  | JObject fields =>
      (fix go (fields : list (string * json)) (result : list (string * json)) {struct fields} : list (string * json) :=
         match fields with
         | [] => result
         | (key, v) :: fields => go fields (flatten_into (key_path reference_string key) v result)
         end) fields result
  | _ => obj_set result reference_string value
  end.

Definition flatten (this : json) : json := JObject (flatten_into "" this []).

Fixpoint unflatten_loop (fields : list (string * json)) (result : json) : res json :=
  match fields with
  | [] => Ok result
  | (key, v) :: fields =>
      if negb (is_primitive v) then Throw (json_type_error 315)
      else ptr ← split key; result ← modify_and_create ptr (fun _ => Ok v) result; unflatten_loop fields result
  end.

Definition unflatten (this : json) : res json :=
  match this with JObject fields => unflatten_loop fields JNull | _ => Throw (json_type_error 314) end.

(** ** The leaves of a value *)

Definition under (token : string) (l : list (json_pointer * json)) : list (json_pointer * json) := map (fun '(p, v) => (token :: p, v)) l.

Definition item_token (i : nat) : string := to_string (Z.of_nat i).

Fixpoint leaves (j : json) : list (json_pointer * json) :=
  match j with
  | JArray [] | JObject [] => [([], JNull)]
  | JArray items =>
      (fix go (items : list json) (i : nat) : list (json_pointer * json) :=
         match items with [] => [] | v :: items => (under (item_token i) (leaves v) ++ go items (S i))%list end) items 0%nat
  | JObject fields =>
      (fix go (fields : list (string * json)) : list (json_pointer * json) :=
         match fields with [] => [] | (key, v) :: fields => (under key (leaves v) ++ go fields)%list end) fields
  | _ => [([], j)]
  end.

Definition item_leaves : list json -> nat -> list (json_pointer * json) :=
  fix go (items : list json) (i : nat) : list (json_pointer * json) :=
    match items with [] => [] | v :: items => (under (item_token i) (leaves v) ++ go items (S i))%list end.
Definition field_leaves : list (string * json) -> list (json_pointer * json) :=
  fix go (fields : list (string * json)) : list (json_pointer * json) :=
    match fields with [] => [] | (key, v) :: fields => (under key (leaves v) ++ go fields)%list end.

Definition flatten_items (reference_string : string) : list json -> nat -> list (string * json) -> list (string * json) :=
  fix go (items : list json) (i : nat) (result : list (string * json)) {struct items} : list (string * json) :=
    match items with
    | [] => result
    | v :: items => go items (S i) (flatten_into (index_path reference_string i) v result)
    end.
Definition flatten_fields (reference_string : string) : list (string * json) -> list (string * json) -> list (string * json) :=
  fix go (fields : list (string * json)) (result : list (string * json)) {struct fields} : list (string * json) :=
    match fields with
    | [] => result
    | (key, v) :: fields => go fields (flatten_into (key_path reference_string key) v result)
    end.

Definition set_leaf (ptr : json_pointer) (o : list (string * json)) (l : json_pointer * json) : list (string * json) :=
  obj_set o (pointer_string (ptr ++ l.1)%list) l.2.

Lemma set_leaves_under ptr token l : forall o, foldl (set_leaf ptr) o (under token l) = foldl (set_leaf (append_token ptr token)) o l.
Proof.
  induction l as [|[p v] l IH]; intros o; [done|]. cbn [under map foldl]. fold (under token l). rewrite IH. unfold set_leaf at 2 4. cbn [fst snd].
  unfold append_token. by rewrite <- app_assoc.
Qed.

Lemma flatten_leaves j : forall ptr o, flatten_into (pointer_string ptr) j o = foldl (set_leaf ptr) o (leaves j).
Proof.
  induction j as [|fields IH|items IH|s|b|z|x|bs st] using json_nested_ind; intros ptr o;
    try (cbn; unfold set_leaf; cbn [fst snd]; by rewrite app_nil_r).
  - destruct fields as [|kv fields]; [cbn; unfold set_leaf; cbn [fst snd]; by rewrite app_nil_r|].
    change (flatten_into (pointer_string ptr) (JObject (kv :: fields)) o) with (flatten_fields (pointer_string ptr) (kv :: fields) o).
    change (leaves (JObject (kv :: fields))) with (field_leaves (kv :: fields)). revert o.
    induction IH as [|[key v] l Hv Hl IH']; intros o; [done|]. cbn [field_leaves flatten_fields]. rewrite foldl_app, set_leaves_under, <- IH'. cbn [snd] in Hv.
    by rewrite <- Hv, key_path_eq.
  - destruct items as [|a items]; [cbn; unfold set_leaf; cbn [fst snd]; by rewrite app_nil_r|].
    change (flatten_into (pointer_string ptr) (JArray (a :: items)) o) with (flatten_items (pointer_string ptr) (a :: items) 0 o).
    change (leaves (JArray (a :: items))) with (item_leaves (a :: items) 0). generalize 0%nat as i. revert o.
    induction IH as [|v l Hv Hl IH']; intros o i; [done|]. cbn [item_leaves flatten_items]. rewrite foldl_app, set_leaves_under, <- IH'.
    by rewrite <- Hv, index_path_eq.
Qed.

(** ** Trees that grow leaf by leaf *)

(** What is left of the pointers that start with a token. *)
Definition tails (t : string) (ps : list json_pointer) : list json_pointer :=
  omap (fun p => match p with t' :: q => if String.eqb t' t then Some q else None | [] => None end) ps.

(** The value that has been built from the leaves of [j] at the pointers [ps]. *)
Fixpoint grow (j : json) (ps : list json_pointer) {struct j} : json :=
  match ps with
  | [] => JNull
  | _ =>
      match j with
      | JArray items =>
          JArray ((fix go (items : list json) (i : nat) {struct items} : list json :=
                     match items with
                     | [] => []
                     | v :: items =>
                         match go items (S i), tails (item_token i) ps with
                         | [], [] => []
                         | rest, ts => grow v ts :: rest
                         end
                     end) items 0%nat)
      | JObject fields =>
          JObject ((fix go (fields : list (string * json)) : list (string * json) :=
                      match fields with
                      | [] => []
                      | (key, v) :: fields =>
                          match tails key ps with [] => go fields | ts => (key, grow v ts) :: go fields end
                      end) fields)
      | _ => j
      end
  end.

Definition grow_items (ps : list json_pointer) : list json -> nat -> list json :=
  fix go (items : list json) (i : nat) {struct items} : list json :=
    match items with
    | [] => []
    | v :: items =>
        match go items (S i), tails (item_token i) ps with
        | [], [] => []
        | rest, ts => grow v ts :: rest
        end
    end.
Definition grow_fields (ps : list json_pointer) : list (string * json) -> list (string * json) :=
  fix go (fields : list (string * json)) : list (string * json) :=
    match fields with
    | [] => []
    | (key, v) :: fields => match tails key ps with [] => go fields | ts => (key, grow v ts) :: go fields end
    end.

Lemma grow_nil j : grow j [] = JNull.
Proof. by destruct j. Qed.
Lemma grow_array items p ps : grow (JArray items) (p :: ps) = JArray (grow_items (p :: ps) items 0).
Proof. reflexivity. Qed.
Lemma grow_object fields p ps : grow (JObject fields) (p :: ps) = JObject (grow_fields (p :: ps) fields).
Proof. reflexivity. Qed.

Lemma tails_same t q ps : tails t ((t :: q) :: ps) = q :: tails t ps.
Proof. cbn. by rewrite String.eqb_refl. Qed.
Lemma tails_other t t' q ps : t' <> t -> tails t ((t' :: q) :: ps) = tails t ps.
Proof. intros H. cbn. by destruct (String.eqb_spec t' t). Qed.

Lemma tails_in t q ps : In q (tails t ps) <-> In (t :: q) ps.
Proof.
  unfold tails. induction ps as [|p ps IH]; [done|]. cbn [omap list_omap]. destruct p as [|t' q']; cbn [In].
  - rewrite IH. split; [by right|]. by intros [?|].
  - destruct (String.eqb_spec t' t) as [->|Hne]; cbn [In]; rewrite IH.
    + split; (intros [H|H]; [left; congruence|by right]).
    + split; [by right|]. intros [H|H]; [congruence|done].
Qed.

Lemma item_token_inj i k : item_token i = item_token k -> i = k.
Proof.
  intros E. apply (f_equal (dec_value 0)) in E. unfold item_token in E.
  rewrite (proj1 (to_string_spec (Z.of_nat i) ltac:(lia))), (proj1 (to_string_spec (Z.of_nat k) ltac:(lia))) in E. lia.
Qed.

Lemma grow_items_other q ps items : forall i t, (forall k, (i <= k)%nat -> t <> item_token k) -> grow_items ((t :: q) :: ps) items i = grow_items ps items i.
Proof.
  induction items as [|v items IH]; intros i t H; [done|]. cbn [grow_items]. rewrite IH by (intros k Hk; apply H; lia).
  by rewrite tails_other by (apply H; lia).
Qed.

(** A leaf put into an array that is being built. *)
Lemma grow_items_set q ps items : forall i k v, items !! k = Some v ->
  let ts := tails (item_token (i + k)) ps in
  (fill k (grow_items ps items i)) !! k = Some (grow v ts)
  /\ <[k := grow v (q :: ts)]> (fill k (grow_items ps items i)) = grow_items ((item_token (i + k) :: q) :: ps) items i.
Proof.
  induction items as [|w items IH]; intros i k v Hk; [by destruct k|]. destruct k as [|k].
  - injection Hk as ->. rewrite Nat.add_0_r. cbn [grow_items]. rewrite tails_same, grow_items_other.
    2:{ intros k Hk E. apply item_token_inj in E. lia. }
    destruct (grow_items ps items (S i)) as [|x rest]; destruct (tails (item_token i) ps) as [|p ts]; cbn [fill length Nat.sub replicate app];
      unfold fill; cbn; rewrite ?grow_nil, ?app_nil_r; done.
  - cbn in Hk. destruct (IH (S i) k v Hk) as [H1 H2]. cbv zeta in *.
    replace (i + S k)%nat with (S i + k)%nat by lia. cbn [grow_items].
    rewrite (tails_other (item_token i)) by (intros E; apply item_token_inj in E; lia). rewrite <- H2.
    assert (Hf : forall x l, fill (S k) (x :: l) = x :: fill k l) by done.
    assert (Hn : fill (S k) [] = JNull :: fill k []) by (unfold fill; cbn [length app]; rewrite !Nat.sub_0_r; done).
    assert (Hne : exists y l, <[k := grow v (q :: tails (item_token (S i + k)) ps)]> (fill k (grow_items ps items (S i))) = y :: l).
    { destruct (<[k := _]> (fill k (grow_items ps items (S i)))) eqn:E; [|by eexists _, _]. apply (f_equal length) in E.
      rewrite length_insert in E. apply lookup_lt_Some in H1. cbn in E. lia. }
    destruct Hne as (y & l & Hne).
    destruct (grow_items ps items (S i)) as [|x rest]; destruct (tails (item_token i) ps) as [|p ts]; rewrite ?Hf, ?Hn; cbn [lookup list_lookup];
      (split; [exact H1|]); change (<[S k := ?a]> (?b :: ?c)) with (b :: <[k := a]> c); rewrite Hne; by rewrite ?grow_nil.
Qed.

(** A leaf put into an object that is being built. *)
Lemma grow_fields_find ps fields : sorted_keys fields = true -> forall k,
  obj_find (grow_fields ps fields) k
  = match obj_find fields k with Some v => match tails k ps with [] => None | ts => Some (grow v ts) end | None => None end.
Proof.
  induction fields as [|[key v] fields IH]; intros Hs k; [done|]. pose proof (find_head _ _ _ Hs) as Hk. apply sorted_head in Hs as [_ Hs].
  cbn [grow_fields obj_find]. specialize (IH Hs k). destruct (String.eqb_spec key k) as [E|Hne].
  - subst k. rewrite Hk in IH. destruct (tails key ps) as [|p ts]; [done|]. cbn [obj_find]. by rewrite String.eqb_refl.
  - destruct (tails key ps) as [|p ts]; [done|]. cbn [obj_find]. by destruct (String.eqb_spec key k).
Qed.

Lemma grow_fields_sorted ps fields : sorted_keys fields = true -> sorted_keys (grow_fields ps fields) = true.
Proof.
  induction fields as [|[key v] fields IH]; intros Hs; [done|]. apply sorted_head in Hs as [Hk Hs]. cbn [grow_fields].
  destruct (tails key ps); [by apply IH|]. apply sorted_cons; [|by apply IH]. clear IH Hs. induction Hk as [|[k w] fields Hk _ IH]; [constructor|].
  cbn [grow_fields]. destruct (tails k ps); [done|by constructor].
Qed.

Lemma grow_fields_set q ps fields k v : sorted_keys fields = true -> obj_find fields k = Some v ->
  obj_set (grow_fields ps fields) k (grow v (q :: tails k ps)) = grow_fields ((k :: q) :: ps) fields
  /\ default JNull (obj_find (grow_fields ps fields) k) = grow v (tails k ps).
Proof.
  intros Hs Hf. split.
  - apply fields_ext; [by apply obj_set_sorted, grow_fields_sorted|by apply grow_fields_sorted|]. intros k'. rewrite obj_find_set, !grow_fields_find by done.
    destruct (String.eqb_spec k k') as [E|Hne]; [subst k'; by rewrite Hf, tails_same|]. by rewrite tails_other.
  - rewrite grow_fields_find, Hf by done. destruct (tails k ps); [by rewrite grow_nil|done].
Qed.

(** ** One leaf more *)

(** No container is empty, and no object has the key 0. *)
Fixpoint rebuildable (j : json) : bool :=
  match j with
  | JArray items => negb (json_empty j) && forallb rebuildable items
  | JObject fields => negb (json_empty j) && forallb (fun '(key, v) => negb (String.eqb key "0") && rebuildable v) fields
  | _ => true
  end.

Lemma in_find fields k v : sorted_keys fields = true -> In (k, v) fields -> obj_find fields k = Some v.
Proof.
  induction fields as [|[k' w] fields IH]; intros Hs; [done|]. pose proof (find_head _ _ _ Hs) as Hk. apply sorted_head in Hs as [_ Hs].
  intros [E|H]; cbn; [injection E as -> ->; by rewrite String.eqb_refl|]. specialize (IH Hs H). by destruct (String.eqb_spec k' k); [congruence|].
Qed.

Lemma in_under t l p v : In (p, v) (under t l) <-> exists q, p = t :: q /\ In (q, v) l.
Proof.
  unfold under. rewrite in_map_iff. split.
  - intros ([q w] & [= <- <-] & H). by exists q.
  - intros (q & -> & H). by exists (q, v).
Qed.

Lemma in_item_leaves p v items : forall i, In (p, v) (item_leaves items i) <-> exists k w q, items !! k = Some w /\ p = item_token (i + k) :: q /\ In (q, v) (leaves w).
Proof.
  induction items as [|a items IH]; intros i; cbn [item_leaves]; [split; [done|intros (k & w & q & H & _); by destruct k]|].
  rewrite in_app_iff, in_under, IH. split.
  - intros [(q & -> & H)|(k & w & q & H1 & -> & H2)]; [exists 0%nat, a, q; by rewrite Nat.add_0_r|].
    exists (S k), w, q. by replace (i + S k)%nat with (S i + k)%nat by lia.
  - intros ([|k] & w & q & H1 & -> & H2).
    + left. injection H1 as ->. rewrite Nat.add_0_r. by exists q.
    + right. exists k, w, q. by replace (S i + k)%nat with (i + S k)%nat by lia.
Qed.

Lemma in_field_leaves p v fields : In (p, v) (field_leaves fields) <-> exists k w q, In (k, w) fields /\ p = k :: q /\ In (q, v) (leaves w).
Proof.
  induction fields as [|[k' a] fields IH]; cbn [field_leaves]; [split; [done|by intros (k & w & q & [] & _)]|].
  rewrite in_app_iff, in_under, IH. split.
  - intros [(q & -> & H)|(k & w & q & H1 & -> & H2)]; [exists k', a, q; by split; [left|]|]. exists k, w, q. by split; [right|].
  - intros (k & w & q & [[= -> ->]|H1] & -> & H2); [left; by exists q|right; by exists k, w, q].
Qed.

Lemma leaves_array items : items <> [] -> leaves (JArray items) = item_leaves items 0.
Proof. by destruct items. Qed.
Lemma leaves_object fields : fields <> [] -> leaves (JObject fields) = field_leaves fields.
Proof. by destruct fields. Qed.

Lemma rebuildable_array items : rebuildable (JArray items) = true -> items <> [] /\ forall k w, items !! k = Some w -> rebuildable w = true.
Proof.
  cbn [rebuildable json_empty]. intros [H1 H2]%andb_true_iff. rewrite forallb_forall in H2. split; [by destruct items|].
  intros k w Hw. apply H2. by eapply list_elem_of_In, list_elem_of_lookup_2.
Qed.
Lemma rebuildable_object fields : rebuildable (JObject fields) = true ->
  fields <> [] /\ forall k w, obj_find fields k = Some w -> k <> "0" /\ rebuildable w = true.
Proof.
  cbn [rebuildable json_empty]. intros [H1 H2]%andb_true_iff. rewrite forallb_forall in H2. split; [by destruct fields|].
  intros k w Hw%obj_find_in. specialize (H2 _ Hw). cbn in H2. apply andb_true_iff in H2 as [H2 H3]. split; [|done].
  intros ->. by rewrite String.eqb_refl in H2.
Qed.

(** The leaf at [path] may be the next one: where it is the first below a node that is not yet there,
    the token says what to create. *)
Definition creates (j : json) (ps : list json_pointer) (path : json_pointer) : Prop :=
  forall pre t q node, path = (pre ++ t :: q)%list -> get_checked pre j = Ok node -> (forall r, ~ In (pre ++ r)%list ps) ->
  (t = "0" <-> is_array node = true).

Lemma get_item_token items k w : Z.of_nat (length items) < size_max -> items !! k = Some w -> forall q,
  get_checked (item_token k :: q) (JArray items) = get_checked q w /\ array_index (item_token k) = Ok k.
Proof.
  intros Hl Hk q. apply lookup_lt_Some in Hk as Hlt. assert (E : array_index (item_token k) = Ok k) by (apply array_index_to_string; lia).
  split; [|done]. cbn [get_checked]. unfold item_token at 1. rewrite to_string_not_dash by lia. rewrite E. cbn. by rewrite Hk.
Qed.

Lemma creates_child j child t q ps : (forall r, get_checked (t :: r) j = get_checked r child) -> creates j ps (t :: q) -> creates child (tails t ps) q.
Proof.
  intros Hg H pre t' q' node -> Hn Hin. apply (H (t :: pre) t' q' node); [done|by rewrite Hg|]. intros r Hr. by apply (Hin r), tails_in.
Qed.

Lemma grow_step j : forall ps path v, tidy j = true -> rebuildable j = true -> In (path, v) (leaves j) -> creates j ps path ->
  modify_and_create path (fun _ => Ok v) (grow j ps) = Ok (grow j (path :: ps)).
Proof.
  induction j as [|fields IH|items IH|s|b|z|x|bs st] using json_nested_ind; intros ps path v Ht Hr Hin Hc;
    try (destruct Hin as [[= <- <-]|[]]; reflexivity).
  - apply rebuildable_object in Hr as [Hne Hr]. rewrite leaves_object in Hin by done. apply in_field_leaves in Hin as (k & w & q & Hk & -> & Hq).
    pose proof Ht as [Hs _]%tidy_object. apply in_find in Hk; [|done]. destruct (Hr _ _ Hk) as [Hz Hw].
    assert (Hg : forall r, get_checked (k :: r) (JObject fields) = get_checked r w) by (intros r; cbn; by rewrite Hk).
    rewrite Forall_forall in IH. specialize (IH (k, w)). cbn [snd] in IH.
    assert (Hchild : modify_and_create q (fun _ => Ok v) (grow w (tails k ps)) = Ok (grow w (q :: tails k ps))).
    { apply IH; [by apply list_elem_of_In, obj_find_in|by eapply tidy_find|done..|by apply (creates_child _ _ _ _ _ Hg)]. }
    destruct (grow_fields_set q ps fields k w Hs Hk) as [Hset Hdef].
    transitivity (Ok (JObject (obj_set (grow_fields ps fields) k (grow w (q :: tails k ps))))); [|exact (f_equal (fun f => Ok (JObject f)) Hset)].
    destruct ps as [|p ps].
    + rewrite grow_nil. cbn [modify_and_create]. rewrite (proj2 (String.eqb_neq k "0") Hz). cbn [tails omap list_omap] in Hchild |- *.
      rewrite grow_nil in Hchild. cbn [obj_find default]. rewrite Hchild. cbn.
      assert (grow_fields [] fields = []) as -> by (clear; induction fields as [|[k' v'] fields IH]; [done|apply IH]). done.
    + rewrite grow_object. cbn [modify_and_create]. rewrite Hdef, Hchild. done.
  - apply rebuildable_array in Hr as [Hne Hr]. rewrite leaves_array in Hin by done. apply in_item_leaves in Hin as (k & w & q & Hk & -> & Hq).
    change (0 + k)%nat with k in *. pose proof Ht as [Hl _]%tidy_array.
    assert (Hg : forall r, get_checked (item_token k :: r) (JArray items) = get_checked r w) by (intros r; by apply get_item_token).
    destruct (get_item_token items k w Hl Hk []) as [_ Hi]. rewrite Forall_forall in IH.
    assert (Hchild : modify_and_create q (fun _ => Ok v) (grow w (tails (item_token k) ps)) = Ok (grow w (q :: tails (item_token k) ps))).
    { apply IH; [by eapply list_elem_of_lookup_2|by eapply tidy_nth|by eapply Hr|done|by apply (creates_child _ _ _ _ _ Hg)]. }
    destruct (grow_items_set q ps items 0 k w Hk) as [Hat Hset]. change (0 + k)%nat with k in *.
    transitivity (Ok (JArray (<[k := grow w (q :: tails (item_token k) ps)]> (fill k (grow_items ps items 0))))); [|exact (f_equal (fun l => Ok (JArray l)) Hset)].
    destruct ps as [|p ps].
    + assert (Hz : item_token k = "0") by (apply (Hc [] (item_token k) q (JArray items)); [done..|by intros r []|done]).
      assert (k = 0%nat) as -> by (by apply item_token_inj; rewrite Hz).
      assert (Hn : grow_items [] items 0 = []).
      { clear. generalize 0%nat as i. induction items as [|a items IH]; intros i; [done|]. cbn [grow_items]. by rewrite IH. }
      rewrite grow_nil. cbn [modify_and_create]. rewrite Hz, String.eqb_refl. rewrite Hn in *. rewrite Hat. cbn [default id]. unfold id. rewrite Hchild. done.
    + rewrite grow_array. cbn [modify_and_create]. rewrite Hi. cbn [mbind res_bind]. rewrite Hat. cbn [default id]. unfold id. rewrite Hchild. done.
Qed.

(** ** All leaves *)

Lemma leaves_some j : exists p v, In (p, v) (leaves j).
Proof.
  induction j as [|fields IH|items IH|s|b|z|x|bs st] using json_nested_ind; try (by eexists [], _; left).
  - destruct fields as [|[k w] fields]; [by eexists [], _; left|]. inversion IH as [|? ? (p & v & H) _]; subst.
    exists (k :: p), v. rewrite leaves_object by done. apply in_field_leaves. exists k, w, p. by split; [left|].
  - destruct items as [|w items]; [by eexists [], _; left|]. inversion IH as [|? ? (p & v & H) _]; subst.
    exists (item_token 0 :: p), v. rewrite leaves_array by done. apply in_item_leaves. by exists 0%nat, w, p.
Qed.

Lemma leaves_primitive j : forall p v, In (p, v) (leaves j) -> is_primitive v = true.
Proof.
  induction j as [|fields IH|items IH|s|b|z|x|bs st] using json_nested_ind; intros p v; try (by intros [[= <- <-]|[]]).
  - destruct fields as [|kw fields]; [by intros [[= <- <-]|[]]|]. rewrite leaves_object by done. intros (k & w & q & Hk & -> & Hq)%in_field_leaves.
    rewrite List.Forall_forall in IH. by apply (IH (k, w) Hk q).
  - destruct items as [|w items]; [by intros [[= <- <-]|[]]|]. rewrite leaves_array by done. intros (k & w' & q & Hk & -> & Hq)%in_item_leaves.
    eapply Forall_lookup_1 in IH; [|exact Hk]. by apply (IH q).
Qed.

Lemma grow_items_all ps items : forall i, (forall k w, items !! k = Some w -> tails (item_token (i + k)) ps <> [] /\ grow w (tails (item_token (i + k)) ps) = w) ->
  grow_items ps items i = items.
Proof.
  induction items as [|a items IH]; intros i H; [done|]. cbn [grow_items]. rewrite IH.
  - destruct (H 0%nat a eq_refl) as [H1 H2]. rewrite Nat.add_0_r in *.
    destruct (tails (item_token i) ps) as [|p ts]; [done|]. rewrite H2. by destruct items.
  - intros k w Hk. specialize (H (S k) w Hk). by replace (i + S k)%nat with (S i + k)%nat in H by lia.
Qed.

Lemma grow_all j : forall ps, tidy j = true -> rebuildable j = true -> (forall p v, In (p, v) (leaves j) -> In p ps) -> grow j ps = j.
Proof.
  induction j as [|fields IH|items IH|s|b|z|x|bs st] using json_nested_ind; intros ps Ht Hr H;
    (destruct ps as [|p ps]; [match type of H with context [leaves ?j] => destruct (leaves_some j) as (p & v & Hin) end; by apply H in Hin|]); try done.
  - rewrite grow_object. f_equal. pose proof Ht as [Hs _]%tidy_object. apply rebuildable_object in Hr as [Hne Hr]. rewrite leaves_object in H by done.
    apply fields_ext; [by apply grow_fields_sorted|done|]. intros k. rewrite grow_fields_find by done. destruct (obj_find fields k) as [w|] eqn:Ek; [|done].
    assert (Hw : forall q v, In (q, v) (leaves w) -> In q (tails k (p :: ps))).
    { intros q v Hq. apply tails_in, (H _ v), in_field_leaves. exists k, w, q. split; [by apply obj_find_in|done]. }
    rewrite List.Forall_forall in IH. specialize (IH (k, w) (obj_find_in _ _ _ Ek) (tails k (p :: ps)) (tidy_find _ _ _ Ht Ek) (proj2 (Hr _ _ Ek)) Hw). cbn [snd] in IH.
    destruct (tails k (p :: ps)) as [|q ts]; [|by rewrite IH]. destruct (leaves_some w) as (q & v & Hq). by apply Hw in Hq.
  - rewrite grow_array. f_equal. apply rebuildable_array in Hr as [Hne Hr]. rewrite leaves_array in H by done. apply grow_items_all. intros k w Hk.
    change (0 + k)%nat with k. assert (Hw : forall q v, In (q, v) (leaves w) -> In q (tails (item_token k) (p :: ps))).
    { intros q v Hq. apply tails_in, (H _ v), in_item_leaves. by exists k, w, q. }
    split; [destruct (leaves_some w) as (q & v & Hq); apply Hw in Hq; by intros E; rewrite E in Hq|].
    eapply Forall_lookup_1 in IH; [|exact Hk]. apply IH; [by eapply tidy_nth|by eapply Hr|done].
Qed.

(** The leaves below a node on the way to a leaf. *)
Lemma leaves_below pre : forall j node r0 v0, tidy j = true -> rebuildable j = true -> get_checked pre j = Ok node -> In ((pre ++ r0)%list, v0) (leaves j) ->
  tidy node = true /\ rebuildable node = true /\ forall r v, In ((pre ++ r)%list, v) (leaves j) <-> In (r, v) (leaves node).
Proof.
  induction pre as [|t pre IH]; intros j node r0 v0 Ht Hr; [intros [= ->] _; by split_and!|].
  destruct j as [|fields|items|s|b|z|x|bs st]; try (by intros _ [[=]|[]]); cbn [get_checked].
  - pose proof Ht as [Hs _]%tidy_object. pose proof Hr as [Hne Hr']%rebuildable_object. rewrite leaves_object by done. cbn [at_key].
    destruct (obj_find fields t) as [w|] eqn:Ew; [|done]. cbn [mbind res_bind app]. intros Hg (k & w' & q & Hk & [= <- <-] & Hq)%in_field_leaves.
    apply in_find in Hk; [|done]. rewrite Ew in Hk. injection Hk as <-.
    destruct (IH w node r0 v0 (tidy_find _ _ _ Ht Ew) (proj2 (Hr' _ _ Ew)) Hg Hq) as (H1 & H2 & H3). split_and!; [done..|]. intros r v. rewrite <- H3. split.
    + intros (k & w' & q & Hk & [= <- <-] & Hq')%in_field_leaves. apply in_find in Hk; [|done]. rewrite Ew in Hk. by injection Hk as <-.
    + intros H. apply in_field_leaves. exists t, w, (pre ++ r)%list. split; [by apply obj_find_in|done].
  - pose proof Ht as [Hl _]%tidy_array. pose proof Hr as [Hne Hr']%rebuildable_array. rewrite leaves_array by done. cbn [app].
    intros Hg (k & w & q & Hk & [= -> <-] & Hq)%in_item_leaves. change (0 + k)%nat with k in *.
    destruct (get_item_token items k w Hl Hk pre) as [E _]. cbn [get_checked] in E. rewrite E in Hg.
    destruct (IH w node r0 v0 (tidy_nth _ _ _ Ht Hk) (Hr' _ _ Hk) Hg Hq) as (H1 & H2 & H3). split_and!; [done..|]. intros r v. rewrite <- H3. split.
    + intros (k' & w' & q & Hk' & [= Ek <-] & Hq')%in_item_leaves. apply item_token_inj in Ek. cbn in Ek. subst k'. rewrite Hk in Hk'. by injection Hk' as <-.
    + intros H. apply in_item_leaves. by exists k, w, (pre ++ r)%list.
Qed.

(** ** The fields of a flattened value *)

Lemma set_leaves_sorted l : forall o, sorted_keys o = true -> sorted_keys (foldl (set_leaf []) o l) = true.
Proof. induction l as [|a l IH]; intros o H; [done|]. cbn [foldl]. by apply IH, obj_set_sorted. Qed.

Lemma obj_set_in o k v k' v' : In (k', v') (obj_set o k v) -> (k', v') = (k, v) \/ In (k', v') o.
Proof.
  induction o as [|[k2 w] o IH]; cbn; [by intros [E|[]]; left|]. destruct (String.compare k k2) eqn:E; cbn.
  - apply string_compare_eq in E as <-. intros [H|H]; [by left|by right; right].
  - intros [H|H]; [by left|by right].
  - intros [H|H]; [by right; left|]. destruct (IH H) as [?|?]; [by left|by right; right].
Qed.

Lemma set_leaves_from l : forall o k v, In (k, v) (foldl (set_leaf []) o l) -> In (k, v) o \/ exists p, k = pointer_string p /\ In (p, v) l.
Proof.
  induction l as [|[p w] l IH]; intros o k v; [by left|]. cbn [foldl]. intros [H|(p' & -> & H)]%IH; [|right; exists p'; by split; [|right]].
  unfold set_leaf in H. cbn [fst snd app] in H. apply obj_set_in in H as [[= -> ->]|H]; [right; exists p; by split; [|left]|by left].
Qed.

Lemma set_leaves_keep l : forall o k, obj_find o k <> None -> obj_find (foldl (set_leaf []) o l) k <> None.
Proof.
  induction l as [|[p w] l IH]; intros o k H; [done|]. cbn [foldl]. apply IH. unfold set_leaf. rewrite obj_find_set. by destruct (String.eqb _ k).
Qed.

Lemma set_leaves_all l : forall o p v, In (p, v) l -> obj_find (foldl (set_leaf []) o l) (pointer_string p) <> None.
Proof.
  induction l as [|[p' w] l IH]; intros o p v; [done|]. intros [[= -> ->]|H]; cbn [foldl]; [|by apply (IH _ _ v)].
  apply set_leaves_keep. unfold set_leaf. cbn [fst app]. by rewrite obj_find_set, String.eqb_refl.
Qed.

Lemma pointer_string_app p q : pointer_string (p ++ q)%list = pointer_string p +:+ pointer_string q.
Proof. unfold pointer_string at 1. rewrite foldl_app. fold (pointer_string p). by rewrite pointer_string_acc. Qed.

Lemma compare_prefix s a b : String.compare (s +:+ a) (s +:+ b) = String.compare a b.
Proof. induction s as [|c s IH]; [done|]. cbn. unfold Ascii.compare. by rewrite N.compare_refl. Qed.

(** The texts below the first element of an array come before those below the others. *)
Lemma zero_first pre r k q : k <> 0%nat ->
  String.compare (pointer_string (pre ++ "0" :: r)%list) (pointer_string (pre ++ item_token k :: q)%list) = Lt.
Proof.
  intros Hk. rewrite !pointer_string_app, compare_prefix, !pointer_string_cons. change (escape "0") with "0".
  unfold item_token. rewrite digits_escape by (apply to_string_spec; lia).
  destruct (dec_digits_first (S (Z.to_nat (Z.log2 (Z.of_nat k)))) (Z.of_nat k) "") as (c & s & E & Hc); [split; [lia|apply dec_fuel; lia]|].
  unfold to_string. rewrite E. change (("0" +:+ ?x)) with (String "0" x). change ((String c s +:+ ?x)) with (String c (s +:+ x)). cbn [String.compare].
  unfold Ascii.compare at 1. rewrite N.compare_refl. unfold Ascii.compare.
  assert ((N_of_ascii "0" ?= N_of_ascii c)%N = Lt) as ->; [|done]. apply N.compare_lt_iff. unfold code in Hc. change (N_of_ascii "0") with 48%N. lia.
Qed.

(** ** Back from the fields *)

Lemma sorted_middle F1 k v F2 : sorted_keys (F1 ++ (k, v) :: F2)%list = true -> Forall (fun kv => String.compare k kv.1 = Lt) F2.
Proof.
  induction F1 as [|[k' w] F1 IH]; cbn [app]; intros H; [by apply sorted_head in H as [? _]|]. apply IH. by apply sorted_head in H as [_ ?].
Qed.

Lemma compare_lt_irrefl s : String.compare s s <> Lt.
Proof. by rewrite (proj2 (string_compare_eq s s) eq_refl). Qed.

Section rebuild.
Context (j : json) (Ht : tidy j = true) (Hr : rebuildable j = true).

Definition flat_fields : list (string * json) := foldl (set_leaf []) [] (leaves j).

(** In the order of the texts every leaf may be the next one. *)
Lemma sorted_creates F1 p v F2 ps : flat_fields = (F1 ++ (pointer_string p, v) :: F2)%list -> In (p, v) (leaves j) ->
  (forall q w, In (pointer_string q, w) F1 -> In q ps) -> creates j ps p.
Proof.
  intros HF Hin Hps pre t q node -> Hg Hno. destruct (leaves_below pre j node (t :: q) v Ht Hr Hg Hin) as (Htn & Hrn & Hb).
  apply Hb in Hin. destruct node as [|fields|items|s|b|z|x|bs st]; try (by destruct Hin as [[=]|[]]).
  - pose proof Htn as [Hs _]%tidy_object. apply rebuildable_object in Hrn as [Hne Hz]. rewrite leaves_object in Hin by done.
    apply in_field_leaves in Hin as (k & w & q' & Hk & [= -> ->] & _). apply in_find in Hk; [|done]. by destruct (Hz _ _ Hk).
  - apply rebuildable_array in Hrn as [Hne _]. pose proof Hin as Hin'. rewrite leaves_array in Hin by done.
    apply in_item_leaves in Hin as (k & w & q' & Hk & [= -> ->] & _). change (0 + k)%nat with k in *. split; [done|]. intros _.
    destruct (Nat.eq_dec k 0) as [->|Hk0]; [done|exfalso]. destruct items as [|a items]; [done|]. destruct (leaves_some a) as (r & u & Hu).
    assert (Hz : In ((pre ++ "0" :: r)%list, u) (leaves j)).
    { apply Hb. rewrite leaves_array by done. apply in_item_leaves. by exists 0%nat, a, r. }
    apply (Hno ("0" :: r)). pose proof (zero_first pre r k q' Hk0) as Hlt. apply (set_leaves_all _ []) in Hz. fold flat_fields in Hz.
    destruct (obj_find flat_fields _) as [u'|] eqn:Ef in Hz; [|done]. apply obj_find_in in Ef. rewrite HF in Ef.
    apply in_app_iff in Ef as [Ef|[Ef|Ef]]; [by apply (Hps _ u')| |].
    + injection Ef as Ef _. rewrite <- Ef in Hlt. destruct (compare_lt_irrefl _ Hlt).
    + pose proof (set_leaves_sorted (leaves j) [] eq_refl) as Hsort. fold flat_fields in Hsort. rewrite HF in Hsort. apply sorted_middle in Hsort.
      rewrite List.Forall_forall in Hsort. specialize (Hsort _ Ef). cbn [fst] in Hsort. 
      destruct (compare_lt_irrefl _ (string_lt_trans _ _ _ Hlt Hsort)).
Qed.

Lemma unflatten_grow F2 : forall F1 ps, flat_fields = (F1 ++ F2)%list -> (forall q w, In (pointer_string q, w) F1 -> In q ps) ->
  exists ps', unflatten_loop F2 (grow j ps) = Ok (grow j ps') /\ forall q w, In (pointer_string q, w) flat_fields -> In q ps'.
Proof.
  induction F2 as [|[k v] F2 IH]; intros F1 ps HF Hps.
  - rewrite app_nil_r in HF. exists ps. split; [done|]. by rewrite HF.
  - assert (Hk : In (k, v) flat_fields) by (rewrite HF; apply in_app_iff; by right; left).
    apply set_leaves_from in Hk as [[]|(p & -> & Hin)]. cbn [unflatten_loop]. rewrite (leaves_primitive _ _ _ Hin), split_pointer_string. cbn [negb mbind res_bind].
    rewrite grow_step by (done || by eapply sorted_creates). cbn [mbind res_bind]. apply (IH (F1 ++ [(pointer_string p, v)])%list).
    + by rewrite <- app_assoc.
    + intros q w [H|[[= H _]|[]]]%in_app_iff; [right; by eapply Hps|left].
      apply (f_equal split) in H. rewrite !split_pointer_string in H. by injection H.
Qed.
End rebuild.

(** C39: Flattening keeps everything: a value without empty containers and without the key 0 is what
    [unflatten] builds from its flattened form, which is an object of primitive values, in whatever order
    of indices and keys the texts of the pointers are sorted. *)
Theorem unflatten_flatten (j : json) : tidy j = true -> rebuildable j = true -> unflatten (flatten j) = Ok j.
Proof.
  intros Ht Hr. unfold unflatten, flatten. change "" with (pointer_string []). rewrite flatten_leaves. fold (flat_fields j).
  rewrite <- (grow_nil j). destruct (unflatten_grow j Ht Hr (flat_fields j) [] [] eq_refl) as (ps & -> & H); [done|]. f_equal. apply grow_all; [done..|].
  intros p v Hin. apply (set_leaves_all _ []) in Hin. fold (flat_fields j) in Hin. destruct (obj_find (flat_fields j) (pointer_string p)) as [w|] eqn:E; [|done].
  by apply obj_find_in, H in E.
Qed.

Lemma unflatten_flatten_witness :
  let j := make_obj [("a/b", JArray [JInt 0; JArray [JNull; JInt 2]; JInt 3; JInt 4; JInt 5; JInt 6; JInt 7; JInt 8; JInt 9; JInt 10; JString "last"]); ("~", make_obj [("10", JBool true)])] in
  unflatten (flatten j) = Ok j.
Proof. intros j. apply unflatten_flatten; reflexivity. Defined.

(** The key 0 is taken for an index: the object with this key alone comes back as an array. *)
Theorem unflatten_zero_key (v : json) : is_primitive v = true ->
  unflatten (flatten (make_obj [("0", v)])) = Ok (JArray [v]).
Proof. by destruct v. Qed.

Lemma unflatten_zero_key_witness : unflatten (flatten (make_obj [("0", JInt 7)])) = Ok (JArray [JInt 7]).
Proof. apply unflatten_zero_key; reflexivity. Defined.
