(* ===== verification/JsonBinary.v ===== *)
(** * json.hpp: what the binary formats share

    The bytes of integers and floating-point numbers, the events a reader reports to its handler, the
    handler that builds a value of them, and the primitives of the reader over the rest of the input. *)

From S2P Require Import Prelude Str Json Numbers JsonText JsonSpec JsonWf JsonOps.
From Stdlib Require Import Ascii SpecFloat.
From Stdlib Require String.

Local Open Scope string_scope.
Local Open Scope Z_scope.
Local Open Scope list_scope.

(** ** Bytes of numbers *)

(** [write_number] of an unsigned number of [n] bytes: the most significant byte first, or last. *)
Fixpoint le_bytes (n : nat) (z : Z) : list Z :=
  match n with O => [] | S n => z mod 256 :: le_bytes n (z / 256) end.
Definition be_bytes (n : nat) (z : Z) : list Z := rev (le_bytes n z).

Fixpoint of_le (bs : list Z) : Z := match bs with [] => 0 | b :: bs => b + 256 * of_le bs end.
Definition of_be (bs : list Z) : Z := of_le (rev bs).

(** A floating-point number of [mb] bits of mantissa and [eb] of exponent in its bits, and back.  A NaN
    has no payload. *)
Definition encode_bits (mb eb : Z) (x : spec_float) : Z :=
  let emin := 3 - 2 ^ (eb - 1) - (mb + 1) in
  let sign (s : bool) := if s then 2 ^ (mb + eb) else 0 in
  match x with
  | S754_zero s => sign s
  | S754_infinity s => sign s + (2 ^ eb - 1) * 2 ^ mb
  | S754_nan => (2 ^ eb - 1) * 2 ^ mb + 2 ^ (mb - 1)
  | S754_finite s m e => sign s + (if Z.pos m <? 2 ^ mb then Z.pos m else (e - emin + 1) * 2 ^ mb + (Z.pos m - 2 ^ mb))
  end.

Definition decode_bits (mb eb : Z) (bits : Z) : spec_float :=
  let emin := 3 - 2 ^ (eb - 1) - (mb + 1) in
  let s := negb (bits / 2 ^ (mb + eb) =? 0) in
  let ex := bits / 2 ^ mb mod 2 ^ eb in
  let frac := bits mod 2 ^ mb in
  if ex =? 2 ^ eb - 1 then if frac =? 0 then S754_infinity s else S754_nan
  else if ex =? 0 then match frac with Z.pos m => S754_finite s m emin | _ => S754_zero s end
  else S754_finite s (Z.to_pos (frac + 2 ^ mb)) (ex + emin - 1).

Definition double_bits (x : spec_float) : Z := encode_bits 52 11 x.
Definition float_bits (x : spec_float) : Z := encode_bits 23 8 x.
Definition double_of_bits (z : Z) : spec_float := decode_bits 52 11 z.
Definition float_of_bits (z : Z) : spec_float := decode_bits 23 8 z.

(** [write_compact_float]: as a float when that loses nothing. *)
Definition float_max : double := double_of_float (S754_finite false 16777215 104).

Definition fits_float (x : spec_float) : bool :=
  negb (is_finite_float x)
  || SFleb (SFopp float_max) x && SFleb x float_max && SFeqb (double_of_float (float_of_double x)) x.

Definition write_compact_float (single double : Z) (x : spec_float) : list Z :=
  if fits_float x then single :: be_bytes 4 (float_bits (float_of_double x)) else double :: be_bytes 8 (double_bits x).

(** ** Events *)

(** The calls of a reader to its handler; a container comes with its size, or [unknown_size]. *)
Inductive event :=
| ev_null
| ev_boolean (b : bool)
| ev_number_integer (z : Z)
| ev_number_unsigned (z : Z)
| ev_number_float (x : spec_float)
| ev_string (s : string)
| ev_binary (bytes : list Z) (subtype : option Z)
| ev_start_object (len : Z)
| ev_key (s : string)
| ev_end_object
| ev_start_array (len : Z)
| ev_end_array.

Definition unknown_size : Z := 2 ^ 64 - 1.

(** ** The handler that builds a value: json_sax_dom_parser *)

(** A container that is open: its elements, or its fields and the key that waits for a value. *)
Inductive container := building_array (items : list json) | building_object (fields : list (string * json)) (key : option string).

(** The value so far and the open containers, the innermost first.  A container is put in its place when
    it ends. *)
Record dom := mk_dom { root : json; ref_stack : list container }.

Definition handle_value (v : json) (d : dom) : res dom :=
  match ref_stack d with
  | [] => Ok (mk_dom v [])
  | building_array items :: st => Ok (mk_dom (root d) (building_array (items ++ [v]) :: st))
  | building_object fields (Some key) :: st => Ok (mk_dom (root d) (building_object (obj_set fields key v) (Some key) :: st))
  | building_object _ None :: _ => Throw undefined_behavior
  end.

(** [max_size()] of a vector of values and of a map of fields. *)
Definition array_max : Z := (2 ^ 63 - 1) / 16.
Definition object_max : Z := (2 ^ 63 - 1) / 80.

(** [ref_stack.back()->operator[](val)]: the field is made when it is missing. *)
Definition touch_field (fields : list (string * json)) (key : string) : list (string * json) :=
  match obj_find fields key with Some _ => fields | None => obj_set fields key JNull end.

Definition dom_event (ev : event) (d : dom) : res dom :=
  match ev with
  | ev_null => handle_value JNull d
  | ev_boolean b => handle_value (JBool b) d
  | ev_number_integer z => handle_value (JInt z) d
  | ev_number_unsigned z => handle_value (JInt z) d
  | ev_number_float x => handle_value (JFloat x) d
  | ev_string s => handle_value (JString s) d
  | ev_binary bytes subtype => handle_value (JBinary bytes subtype) d
  | ev_start_object len =>
      if negb (len =? unknown_size) && (object_max <? len) then Throw (json_out_of_range 408)
      else Ok (mk_dom (root d) (building_object [] None :: ref_stack d))
  | ev_key s =>
      match ref_stack d with
      | building_object fields _ :: st => Ok (mk_dom (root d) (building_object (touch_field fields s) (Some s) :: st))
      | _ => Throw undefined_behavior
      end
  | ev_end_object =>
      match ref_stack d with
      | building_object fields _ :: st => handle_value (JObject fields) (mk_dom (root d) st)
      | _ => Throw undefined_behavior
      end
  | ev_start_array len =>
      if negb (len =? unknown_size) && (array_max <? len) then Throw (json_out_of_range 408)
      else Ok (mk_dom (root d) (building_array [] :: ref_stack d))
  | ev_end_array =>
      match ref_stack d with
      | building_array items :: st => handle_value (JArray items) (mk_dom (root d) st)
      | _ => Throw undefined_behavior
      end
  end.

(** ** The reader *)

(** The rest of the input, and the handler. *)
Record reader := mk_reader { input : list Z; handler : dom }.

(** [get()]; [None] is the end of the input. *)
Definition get : M reader (option Z) := fun r =>
  match input r with
  | [] => (Ok None, r)
  | b :: l => (Ok (Some b), mk_reader l (handler r))
  end.

(** A call of the handler. *)
Definition emit (ev : event) : M reader unit := fun r =>
  match dom_event ev (handler r) with
  | Ok d => (Ok tt, mk_reader (input r) d)
  | Throw e => (Throw e, r)
  end.

(** [get_to]: the [n] bytes of a number, or the error at the end of the input. *)
Definition get_to (n : Z) : M reader (list Z) := fun r =>
  if Z.of_nat (length (input r)) <? n then (Throw json_parse_error, mk_reader [] (handler r))
  else (Ok (take (Z.to_nat n) (input r)), mk_reader (drop (Z.to_nat n) (input r)) (handler r)).

(** The same byte by byte: [get_string] and [get_binary]. *)
Fixpoint get_bytes (l : list Z) (len : Z) : res (list Z) * list Z :=
  if len <=? 0 then (Ok [], l)
  else
    match l with
    | [] => (Throw json_parse_error, [])
    | b :: l => let '(r, l) := get_bytes l (len - 1) in (cons b <$> r, l)
    end.

Definition get_binary (len : Z) : M reader (list Z) := fun r =>
  let '(bs, l) := get_bytes (input r) len in (bs, mk_reader l (handler r)).

Definition get_string (len : Z) : M reader string := string_of <$> get_binary len.

(** [get_number]: most significant byte first, or last. *)
Definition get_number (n : Z) : M reader Z := of_be <$> get_to n.
Definition get_number_le (n : Z) : M reader Z := of_le <$> get_to n.

(** The same for a signed number of [n] bytes. *)
Definition to_signed (n z : Z) : Z := if z <? 2 ^ (8 * n - 1) then z else z - 2 ^ (8 * n).
Definition get_signed (n : Z) : M reader Z := to_signed n <$> get_number n.
Definition get_signed_le (n : Z) : M reader Z := to_signed n <$> get_number_le n.

(** The loops of the readers: [len] values one after the other, and values up to a break byte.  Every turn
    takes a byte of the input, so that more turns than there are bytes are never made. *)
Fixpoint repeat_read (fuel : nat) (len : Z) (body : M reader unit) : M reader unit :=
  if len <=? 0 then mret tt
  else match fuel with O => throwM undefined_behavior | S fuel => body;; repeat_read fuel (len - 1) body end.

Definition is_byte_value (b : Z) (c : option Z) : bool := match c with Some c => c =? b | None => false end.

Fixpoint until_break {A} (fuel : nat) (body : A -> option Z -> M reader A) (a : A) : M reader A :=
  c ← get;
  if is_byte_value 0xFF c then mret a
  else match fuel with O => throwM undefined_behavior | S fuel => a ← body a c; until_break fuel body a end.

(** [sax_parse] and [from_...] with its default arguments: the whole input must be used up, and errors
    are thrown. *)
Definition expect_end : M reader unit :=
  c ← get;
  match c with None => mret tt | Some _ => throwM json_parse_error end.

Definition sax_parse (parse : M reader unit) (bytes : list Z) : res json :=
  let '(r, st) := (parse;; expect_end) (mk_reader bytes (mk_dom JNull [])) in
  r ≫= fun _ => Ok (root (handler st)).

(** ** Lemmas on numbers *)

Lemma le_bytes_length n z : length (le_bytes n z) = n.
Proof. revert z. induction n as [|n IH]; intros z; cbn; [done|]. by rewrite IH. Qed.

Lemma be_bytes_length n z : length (be_bytes n z) = n.
Proof. unfold be_bytes. by rewrite length_rev, le_bytes_length. Qed.

Lemma of_le_bytes n : forall z, 0 <= z < 256 ^ Z.of_nat n -> of_le (le_bytes n z) = z.
Proof.
  induction n as [|n IH]; intros z Hz; cbn [le_bytes of_le]; [cbn in Hz; lia|].
  rewrite Nat2Z.inj_succ, Z.pow_succ_r in Hz by lia. rewrite IH by (Z.div_mod_to_equations; nia). Z.div_mod_to_equations; lia.
Qed.

Lemma of_be_bytes n z : 0 <= z < 256 ^ Z.of_nat n -> of_be (be_bytes n z) = z.
Proof. intros H. unfold of_be, be_bytes. rewrite rev_involutive. by apply of_le_bytes. Qed.

(** The bytes of a negative number are those of its residue. *)
Lemma le_bytes_mod n : forall z, le_bytes n (z mod 256 ^ Z.of_nat n) = le_bytes n z.
Proof.
  induction n as [|n IH]; intros z; [done|]. rewrite Nat2Z.inj_succ, Z.pow_succ_r, Z.rem_mul_r by (try apply Z.pow_nonzero; try apply Z.pow_pos_nonneg; lia).
  cbn [le_bytes]. rewrite <- (IH (z / 256)). f_equal.
  - rewrite Z.mul_comm, Z.mod_add by lia. by rewrite Z.mod_mod by lia.
  - f_equal. rewrite Z.mul_comm, Z.div_add by lia. rewrite Z.div_small by (apply Z.mod_pos_bound; lia). lia.
Qed.

Lemma le_bytes_range n : forall z, Forall is_byte (le_bytes n z).
Proof. induction n as [|n IH]; intros z; cbn; constructor; [|apply IH]. unfold is_byte. apply Z.mod_pos_bound. lia. Qed.
Lemma be_bytes_range n z : Forall is_byte (be_bytes n z).
Proof. unfold be_bytes. apply Forall_rev, le_bytes_range. Qed.

(** *** Floating-point numbers *)

Lemma digits_bounds p : 2 ^ (Z.pos (digits2_pos p) - 1) <= Z.pos p < 2 ^ Z.pos (digits2_pos p).
Proof.
  induction p as [p IH|p IH|]; cbn [digits2_pos]; [| |done]; rewrite Pos2Z.inj_succ;
    replace (Z.succ (Z.pos (digits2_pos p)) - 1) with (Z.succ (Z.pos (digits2_pos p) - 1)) by lia; rewrite !Z.pow_succ_r by lia; lia.
Qed.

Lemma digits2_unique p d : 0 < d -> 2 ^ (d - 1) <= Z.pos p < 2 ^ d -> Z.pos (digits2_pos p) = d.
Proof.
  intros Hd H. pose proof (digits_bounds p) as B. destruct (Z.lt_trichotomy (Z.pos (digits2_pos p)) d) as [L|[E|L]]; [|done|].
  - pose proof (Z.pow_le_mono_r 2 (Z.pos (digits2_pos p)) (d - 1)). lia.
  - pose proof (Z.pow_le_mono_r 2 d (Z.pos (digits2_pos p) - 1)). lia.
Qed.

Lemma digits_le p d : 0 <= d -> Z.pos p < 2 ^ d -> Z.pos (digits2_pos p) <= d.
Proof.
  intros Hd H. pose proof (digits_bounds p) as B. destruct (Z.le_gt_cases (Z.pos (digits2_pos p)) d); [done|].
  pose proof (Z.pow_le_mono_r 2 d (Z.pos (digits2_pos p) - 1)). lia.
Qed.

Lemma digits_ge p d : 0 < d -> 2 ^ (d - 1) <= Z.pos p -> d <= Z.pos (digits2_pos p).
Proof.
  intros Hd H. pose proof (digits_bounds p) as B. destruct (Z.le_gt_cases d (Z.pos (digits2_pos p))); [done|].
  pose proof (Z.pow_le_mono_r 2 (Z.pos (digits2_pos p)) (d - 1)). lia.
Qed.

Lemma shr_1_m r : 0 <= shr_m r -> shr_m (shr_1 r) = shr_m r / 2 /\ 0 <= shr_m (shr_1 r).
Proof.
  destruct r as [m b s]. cbn [shr_m]. intros H. destruct m as [|[p|p|]|p]; cbn [shr_1 shr_m]; try (split; [done|lia]); try lia;
    (split; [|lia]); [rewrite Pos2Z.inj_xI|rewrite Pos2Z.inj_xO]; Z.div_mod_to_equations; lia.
Qed.

Lemma shr_iter_m p : forall r, 0 <= shr_m r -> shr_m (iter_pos shr_1 p r) = shr_m r / 2 ^ Z.pos p /\ 0 <= shr_m (iter_pos shr_1 p r).
Proof.
  induction p as [p IH|p IH|]; intros r Hr; cbn [iter_pos].
  - destruct (shr_1_m r Hr) as [E1 N1]. destruct (IH (shr_1 r) N1) as [E2 N2]. destruct (IH _ N2) as [E3 N3]. split; [|done].
    rewrite E3, E2, E1, !Z.div_div by (try apply Z.pow_nonzero; try apply Z.pow_pos_nonneg; lia). f_equal.
    rewrite (Pos2Z.inj_xI p), <- !Z.pow_add_r, <- Z.pow_succ_r by lia. f_equal. lia.
  - destruct (IH r Hr) as [E2 N2]. destruct (IH _ N2) as [E3 N3]. split; [|done].
    rewrite E3, E2, Z.div_div by (try apply Z.pow_nonzero; try apply Z.pow_pos_nonneg; lia). f_equal.
    rewrite (Pos2Z.inj_xO p), <- Z.pow_add_r by lia. f_equal. lia.
  - apply shr_1_m. done.
Qed.

(** Rounding gives a number in its normal form. *)
Lemma round_aux_valid prec emax sx (mx : positive) ex lx : 0 < prec -> ex <= fexp prec emax (Z.pos (digits2_pos mx) + ex) ->
  valid_binary prec emax (binary_round_aux prec emax sx (Z.pos mx) ex lx) = true.
Proof.
  intros Hp He. unfold binary_round_aux, shr_fexp. cbn [Zdigits2]. set (D := Z.pos (digits2_pos mx)) in *. set (e1 := fexp prec emax (D + ex)) in *.
  pose proof (digits_bounds mx) as B. fold D in B.
  assert (HD : 0 < D) by (unfold D; lia). assert (He1 : e1 = Z.max (D + ex - prec) (emin prec emax)) by done.
  assert (exists r1, shr (shr_record_of_loc (Z.pos mx) lx) ex (e1 - ex) = (r1, e1) /\ shr_m r1 = Z.pos mx / 2 ^ (e1 - ex)) as (r1 & -> & Hm).
  { assert (Hl : shr_m (shr_record_of_loc (Z.pos mx) lx) = Z.pos mx) by (by destruct lx as [|[]]). destruct (e1 - ex) as [|p|p] eqn:En; [| |lia]; cbn [shr].
    - eexists. split; [f_equal; lia|]. by rewrite Hl, Z.div_1_r.
    - eexists. split; [f_equal; lia|]. rewrite <- Hl at 2. apply shr_iter_m. rewrite Hl. lia. }
  set (m1 := Z.pos mx / 2 ^ (e1 - ex)) in *. set (M := round_nearest_even _ _).
  assert (HM : M = m1 \/ M = m1 + 1) by (unfold M; rewrite Hm; destruct (loc_of_shr_record r1) as [|[]]; cbn; auto; case_match; auto).
  assert (H1 : 0 <= m1 < 2 ^ prec).
  { split; [apply Z.div_pos; lia|]. apply Z.div_lt_upper_bound; [apply Z.pow_pos_nonneg; lia|]. rewrite <- Z.pow_add_r by lia.
    apply Z.lt_le_trans with (2 ^ D); [lia|]. apply Z.pow_le_mono_r; lia. }
  assert (H2 : emin prec emax < e1 -> 2 ^ (prec - 1) <= m1).
  { intros Hlt. apply Z.div_le_lower_bound; [apply Z.pow_pos_nonneg; lia|]. rewrite <- Z.pow_add_r by lia.
    apply Z.le_trans with (2 ^ (D - 1)); [|lia]. apply Z.pow_le_mono_r; lia. }
  clearbody M m1. destruct M as [|q|q] eqn:EM; [| |lia].
  { assert (Hz : fexp prec emax (Zdigits2 0 + e1) - e1 <= 0) by (unfold fexp; cbn [Zdigits2]; lia). by destruct (_ - e1) as [|p|p]; [|lia|]. }
  cbn [Zdigits2 shr_record_of_loc]. set (D2 := Z.pos (digits2_pos q)). pose proof (digits_bounds q) as B2. fold D2 in B2.
  destruct (Z.le_gt_cases D2 prec) as [Hd|Hd].
  - assert (Hf : fexp prec emax (D2 + e1) = e1).
    { unfold fexp. destruct (Z.eq_dec e1 (emin prec emax)) as [->|Hne]; [lia|]. assert (prec <= D2) by (apply digits_ge; [lia|]; specialize (H2 ltac:(lia)); lia). lia. }
    rewrite Hf, Z.sub_diag. cbn [shr shr_m]. destruct (Z.leb_spec e1 (emax - prec)) as [Hb|]; [|done].
    cbn [valid_binary]. unfold bounded, canonical_mantissa. fold D2. rewrite Hf, Z.eqb_refl. apply Z.leb_le. done.
  - assert (Hq : Z.pos q = 2 ^ prec) by (pose proof (Z.pow_le_mono_r 2 prec (D2 - 1)); lia).
    assert (HD2 : D2 = prec + 1) by (apply digits2_unique; [lia|]; rewrite Hq; replace (prec + 1 - 1) with prec by lia; rewrite Z.pow_add_r by lia; lia).
    assert (Hf : fexp prec emax (D2 + e1) - e1 = 1) by (unfold fexp; lia). rewrite Hf. cbn [shr iter_pos].
    destruct (shr_1_m {| shr_m := Z.pos q; shr_r := false; shr_s := false |} ltac:(cbn; lia)) as [E _]. cbn [shr_m] in E. rewrite E, Hq.
    assert (Hh : 2 ^ prec / 2 = 2 ^ (prec - 1)).
    { replace prec with (Z.succ (prec - 1)) at 1 by lia. rewrite Z.pow_succ_r by lia. rewrite Z.mul_comm, Z.div_mul by lia. done. }
    rewrite Hh. destruct (2 ^ (prec - 1)) as [|h|h] eqn:Eh; try (pose proof (Z.pow_pos_nonneg 2 (prec - 1)); lia).
    destruct (Z.leb_spec (e1 + 1) (emax - prec)) as [Hb|]; [|done]. cbn [valid_binary]. unfold bounded, canonical_mantissa.
    rewrite (digits2_unique h prec); [|lia|]. 2:{ rewrite <- Eh. split; [lia|]. apply Z.pow_lt_mono_r; lia. }
    apply andb_true_iff. split; [apply Z.eqb_eq; unfold fexp; lia|apply Z.leb_le; lia].
Qed.

Lemma iter_xO d : forall p, Z.pos (digits2_pos (Pos.iter xO p d)) = Z.pos (digits2_pos p) + Z.pos d.
Proof.
  induction d as [|d IH] using Pos.peano_ind; intros p; [cbn; lia|]. rewrite Pos.iter_succ. cbn [digits2_pos]. rewrite Pos2Z.inj_succ, IH. lia.
Qed.

Lemma normalize_valid prec emax m e s : 0 < prec -> valid_binary prec emax (binary_normalize prec emax m e s) = true.
Proof.
  intros Hp. assert (H : forall sx p, valid_binary prec emax (binary_round prec emax sx p e) = true).
  { intros sx p. unfold binary_round, shl_align. set (e' := fexp _ _ _). destruct (e' - e) as [|q|q] eqn:E; apply round_aux_valid; try done.
    - fold e'. lia.
    - fold e'. lia.
    - rewrite iter_xO. replace (Z.pos (digits2_pos p) + Z.pos q + e') with (Z.pos (digits2_pos p) + e) by lia. fold e'. lia. }
  destruct m; [done|apply H..].
Qed.

Lemma float_of_double_valid x : valid_binary 24 128 (float_of_double x) = true.
Proof. destruct x as [s|s| |s m e]; try done. by apply normalize_valid. Qed.

(** The doubles of a value: canonical ones, infinities and NaN. *)
Lemma canonical_valid x : (is_finite_float x = true -> canonical_double x = true) -> valid_binary 53 1024 x = true.
Proof.
  destruct x as [s|s| |s m e]; try done. intros H. specialize (H eq_refl). cbn [canonical_double] in H. cbn [valid_binary]. unfold bounded, canonical_mantissa, fexp, emin.
  rewrite !andb_true_iff, orb_true_iff, Z.ltb_lt, !Z.leb_le, Z.eqb_eq in H. destruct H as [[[H1 H2] H3] H4].
  rewrite andb_true_iff, Z.eqb_eq, Z.leb_le. pose proof (digits_le m 53 ltac:(lia) H1). split; [|lia]. destruct H2 as [H2|H2]; [|lia].
  pose proof (digits_ge m 53 ltac:(lia) H2). lia.
Qed.

(** The bits of a number: its sign, the exponent field and the fraction. *)
Lemma decode_fields mb eb (s : bool) E f : 0 < mb -> 0 < eb -> 0 <= E < 2 ^ eb -> 0 <= f < 2 ^ mb ->
  let z := (if s then 2 ^ (mb + eb) else 0) + E * 2 ^ mb + f in
  0 <= z < 2 ^ (1 + mb + eb) /\ negb (z / 2 ^ (mb + eb) =? 0) = s /\ z / 2 ^ mb mod 2 ^ eb = E /\ z mod 2 ^ mb = f.
Proof.
  intros Hm He HE Hf. cbn zeta. pose proof (Z.pow_pos_nonneg 2 mb) as P1. pose proof (Z.pow_pos_nonneg 2 eb) as P2.
  rewrite !Z.pow_add_r by lia. set (A := 2 ^ mb) in *. set (B := 2 ^ eb) in *. change (2 ^ 1) with 2.
  assert (Hlow : 0 <= E * A + f < A * B) by nia. set (S := if s then 1 else 0).
  assert (Hz : (if s then A * B else 0) + E * A + f = S * (A * B) + (E * A + f)) by (unfold S; destruct s; lia). rewrite Hz.
  assert (HS : 0 <= S <= 1) by (unfold S; destruct s; lia). split_and!.
  - nia.
  - nia.
  - rewrite Z.div_add_l, Z.div_small, Z.add_0_r by lia. unfold S. by destruct s.
  - replace (S * (A * B) + (E * A + f)) with ((S * B + E) * A + f) by lia. rewrite Z.div_add_l, Z.div_small, Z.add_0_r by lia.
    rewrite Z.add_comm, Z.mod_add by lia. apply Z.mod_small. lia.
  - replace (S * (A * B) + (E * A + f)) with (f + (S * B + E) * A) by lia. rewrite Z.mod_add by lia. by apply Z.mod_small.
Qed.

Lemma decode_encode mb eb x : 1 < mb -> 1 < eb -> valid_binary (mb + 1) (2 ^ (eb - 1)) x = true ->
  0 <= encode_bits mb eb x < 2 ^ (1 + mb + eb) /\ decode_bits mb eb (encode_bits mb eb x) = x.
Proof.
  intros Hm He Hv. unfold decode_bits. pose proof (Z.pow_pos_nonneg 2 mb) as P1.
  assert (P2 : 2 ^ 2 <= 2 ^ eb) by (apply Z.pow_le_mono_r; lia). assert (P3 : 2 ^ eb = 2 * 2 ^ (eb - 1)) by (rewrite <- Z.pow_succ_r by lia; f_equal; lia).
  assert (P4 : 2 ^ mb = 2 * 2 ^ (mb - 1)) by (rewrite <- Z.pow_succ_r by lia; f_equal; lia). pose proof (Z.pow_pos_nonneg 2 (mb - 1)) as P5.
  destruct x as [s|s| |s m e]; cbn [encode_bits].
  - destruct (decode_fields mb eb s 0 0) as (R & Es & E & F); try lia. rewrite Z.mul_0_l, !Z.add_0_r in *. rewrite E, F, Es.
    destruct (Z.eqb_spec 0 (2 ^ eb - 1)); [lia|]. done.
  - destruct (decode_fields mb eb s (2 ^ eb - 1) 0) as (R & Es & E & F); try lia. rewrite Z.add_0_r in *. by rewrite E, F, Es, Z.eqb_refl.
  - destruct (decode_fields mb eb false (2 ^ eb - 1) (2 ^ (mb - 1))) as (R & Es & E & F); try lia. rewrite Z.add_0_l in *. rewrite E, F, Es, Z.eqb_refl.
    destruct (Z.eqb_spec (2 ^ (mb - 1)) 0); [lia|done].
  - cbn [valid_binary] in Hv. unfold bounded, canonical_mantissa, fexp, emin in Hv. rewrite andb_true_iff, Z.eqb_eq, Z.leb_le in Hv. destruct Hv as [H1 H2].
    set (D := Z.pos (digits2_pos m)) in *. pose proof (digits_bounds m) as B. fold D in B.
    destruct (Z.ltb_spec (Z.pos m) (2 ^ mb)) as [Hs|Hs].
    + assert (HD : D <= mb) by (by apply digits_le; [lia|]). assert (e = 3 - 2 ^ (eb - 1) - (mb + 1)) as -> by lia.
      destruct (decode_fields mb eb s 0 (Z.pos m)) as (R & Es & E & F); try lia. rewrite Z.mul_0_l, !Z.add_0_r in *. rewrite E, F, Es.
      destruct (Z.eqb_spec 0 (2 ^ eb - 1)); [lia|]. done.
    + assert (HD : mb + 1 <= D) by (apply digits_ge; [lia|]; by replace (mb + 1 - 1) with mb by lia).
      assert (HD' : D = mb + 1) by lia. rewrite HD' in B. replace (mb + 1 - 1) with mb in B by lia. rewrite Z.pow_add_r in B by lia. change (2 ^ 1) with 2 in B.
      destruct (decode_fields mb eb s (e - (3 - 2 ^ (eb - 1) - (mb + 1)) + 1) (Z.pos m - 2 ^ mb)) as (R & Es & E & F); try lia.
      rewrite Z.add_assoc. rewrite E, F, Es. destruct (Z.eqb_spec (e - (3 - 2 ^ (eb - 1) - (mb + 1)) + 1) (2 ^ eb - 1)); [lia|].
      destruct (Z.eqb_spec (e - (3 - 2 ^ (eb - 1) - (mb + 1)) + 1) 0); [lia|]. split; [done|]. f_equal; lia.
Qed.

(** Numbers that compare equal are the same, zeros apart. *)
Lemma same_double a b : SFeqb a b = true -> (forall s, b <> S754_zero s) -> a = b.
Proof.
  unfold SFeqb, SFcompare. intros H Hz. destruct a as [s|s| |s m e], b as [s'|s'| |s' m' e']; try done; try (by specialize (Hz s')); try (by destruct s); try (by destruct s');
    destruct s, s'; try done; change (Pos.compare_cont Eq m m') with (Pos.compare m m') in H;
    destruct (Z.compare_spec e e') as [->| |]; try done; destruct (Pos.compare_spec m m') as [->| |]; done.
Qed.

(** A number written as a float or as a double reads back. *)
Lemma compact_float_read single double x : float_ok x -> exists bs,
  write_compact_float single double x = single :: bs /\ length bs = 4%nat /\ double_of_float (float_of_bits (of_be bs)) = x \/
  write_compact_float single double x = double :: bs /\ length bs = 8%nat /\ double_of_bits (of_be bs) = x.
Proof.
  intros Hx. unfold write_compact_float. destruct (fits_float x) eqn:Hf.
  - exists (be_bytes 4 (float_bits (float_of_double x))). left. split; [done|]. split; [apply be_bytes_length|].
    destruct (decode_encode 23 8 (float_of_double x)) as [R E]; [lia|lia|apply float_of_double_valid|].
    unfold float_of_bits, float_bits. rewrite of_be_bytes by exact R. rewrite E. unfold fits_float in Hf. destruct x as [s|s| |s m e]; try done.
    apply orb_true_iff in Hf as [Hf|Hf]; [done|]. apply andb_true_iff in Hf as [_ Hf]. by apply same_double.
  - exists (be_bytes 8 (double_bits x)). right. split; [done|]. split; [apply be_bytes_length|].
    destruct (decode_encode 52 11 x) as [R E]; [lia|lia|by apply canonical_valid|]. unfold double_of_bits, double_bits. by rewrite of_be_bytes by exact R.
Qed.

(** ** Reading what was written *)

(** Chooses the branch of a condition on the first byte. *)
Ltac branch :=
  match goal with
  | |- context [if ?b then _ else _] =>
      let E := fresh in first [ destruct b eqn:E; [exfalso; lia|]; clear E | destruct b eqn:E; [|exfalso; lia]; clear E ]
  end.

Lemma be_byte n : 0 <= n < 256 -> be_bytes 1 n = [n].
Proof. intros H. unfold be_bytes. cbn. by rewrite Z.mod_small. Qed.

(** [m] takes [bs] from the input, returns [a] and leaves the handler alone. *)
Definition takes {A} (m : M reader A) (bs : list Z) (a : A) : Prop :=
  forall rest d, m (mk_reader (bs ++ rest) d) = (Ok a, mk_reader rest d).

Lemma get_to_takes bs : takes (get_to (Z.of_nat (length bs))) bs bs.
Proof.
  intros rest d. unfold get_to. cbn [input handler]. rewrite length_app. destruct (Z.ltb_spec (Z.of_nat (length bs + length rest)) (Z.of_nat (length bs))); [lia|].
  by rewrite Nat2Z.id, take_app_length, drop_app_length.
Qed.

Lemma takes_fmap {A B} (f : A -> B) m bs a : takes m bs a -> takes (f <$> m) bs (f a).
Proof. intros H rest d. cbv [fmap M_fmap]. by rewrite H. Qed.

Lemma get_number_takes bs n : n = Z.of_nat (length bs) -> takes (get_number n) bs (of_be bs).
Proof. intros ->. apply takes_fmap, get_to_takes. Qed.

Lemma get_number_le_takes bs n : n = Z.of_nat (length bs) -> takes (get_number_le n) bs (of_le bs).
Proof. intros ->. apply takes_fmap, get_to_takes. Qed.

Lemma get_be_takes n z : 0 <= z < 256 ^ Z.of_nat n -> takes (get_number (Z.of_nat n)) (be_bytes n z) z.
Proof. intros H. rewrite <- (of_be_bytes n z H) at 2. apply get_number_takes. by rewrite be_bytes_length. Qed.

Lemma get_le_takes n z : 0 <= z < 256 ^ Z.of_nat n -> takes (get_number_le (Z.of_nat n)) (le_bytes n z) z.
Proof. intros H. rewrite <- (of_le_bytes n z H) at 2. apply get_number_le_takes. by rewrite le_bytes_length. Qed.

Lemma signed_residue n z : 0 < n -> - 2 ^ (8 * n - 1) <= z < 2 ^ (8 * n - 1) -> 0 < 256 ^ n /\ to_signed n (z mod 256 ^ n) = z.
Proof.
  intros Hn Hz. assert (P : 2 ^ (8 * n) = 2 * 2 ^ (8 * n - 1)) by (rewrite <- Z.pow_succ_r by lia; f_equal; lia).
  assert (Q : 256 ^ n = 2 ^ (8 * n)) by (change 256 with (2 ^ 8); by rewrite <- Z.pow_mul_r by lia). rewrite Q. split; [lia|]. unfold to_signed.
  destruct (Z.le_gt_cases 0 z); [rewrite Z.mod_small by lia|rewrite <- (Z.mod_unique z _ (-1) (z + 2 ^ (8 * n))) by lia]; case_match; lia.
Qed.

Lemma signed_takes n z : (0 < n)%nat -> - 2 ^ (8 * Z.of_nat n - 1) <= z < 2 ^ (8 * Z.of_nat n - 1) -> takes (get_signed (Z.of_nat n)) (be_bytes n z) z.
Proof.
  intros Hn Hz. destruct (signed_residue (Z.of_nat n) z) as [P E]; [lia|done|]. rewrite <- E at 2. unfold be_bytes. rewrite <- le_bytes_mod.
  apply takes_fmap, get_be_takes, Z.mod_pos_bound, P.
Qed.

Lemma signed_le_takes n z : (0 < n)%nat -> - 2 ^ (8 * Z.of_nat n - 1) <= z < 2 ^ (8 * Z.of_nat n - 1) -> takes (get_signed_le (Z.of_nat n)) (le_bytes n z) z.
Proof.
  intros Hn Hz. destruct (signed_residue (Z.of_nat n) z) as [P E]; [lia|done|]. rewrite <- E at 2. rewrite <- le_bytes_mod.
  apply takes_fmap, get_le_takes, Z.mod_pos_bound, P.
Qed.

Lemma get_bytes_app bs rest : get_bytes (bs ++ rest) (Z.of_nat (length bs)) = (Ok bs, rest).
Proof.
  induction bs as [|b bs IH]; [by destruct rest|]. cbn [app length get_bytes]. destruct (Z.leb_spec (Z.of_nat (S (length bs))) 0); [lia|].
  replace (Z.of_nat (S (length bs)) - 1) with (Z.of_nat (length bs)) by lia. by rewrite IH.
Qed.

Lemma get_binary_takes bs n : n = Z.of_nat (length bs) -> takes (get_binary n) bs bs.
Proof. intros -> rest d. unfold get_binary. cbn [input handler]. by rewrite get_bytes_app. Qed.

Lemma get_string_takes s n : n = Z.of_nat (String.length s) -> takes (get_string n) (bytes_of s) s.
Proof. intros ->. rewrite <- (string_of_bytes_of s) at 3. apply takes_fmap, get_binary_takes. by rewrite bytes_of_length. Qed.

(** ** Values that the formats can hold *)

(** Strings, byte strings and containers of at most [lim] elements, subtypes below [sub]. *)
Fixpoint binary_value (lim sub : Z) (j : json) : bool :=
  match j with
  | JObject fields =>
      sorted_keys fields && (Z.of_nat (length fields) <=? Z.min lim object_max)
      && forallb (fun kv => (Z.of_nat (String.length kv.1) <=? lim) && binary_value lim sub kv.2) fields
  | JArray items => (Z.of_nat (length items) <=? Z.min lim array_max) && forallb (binary_value lim sub) items
  | JString s => Z.of_nat (String.length s) <=? lim
  | JInt z => (- 2 ^ 63 <=? z) && (z <? 2 ^ 64)
  | JFloat x => negb (is_finite_float x) || canonical_double x
  | JBinary bs st =>
      (Z.of_nat (length bs) <=? lim) && forallb (fun b => (0 <=? b) && (b <? 256)) bs
      && match st with Some t => (0 <=? t) && (t <? sub) | None => true end
  | _ => true
  end.

(** A value of [binary_value], split. *)
Lemma value_items lim sub items : binary_value lim sub (JArray items) = true ->
  Z.of_nat (length items) <= lim /\ Z.of_nat (length items) <= array_max /\ forall v, In v items -> binary_value lim sub v = true.
Proof. cbn [binary_value]. intros [H1 H2]%andb_true_iff. split_and!; [lia|lia|]. by apply forallb_forall. Qed.

Lemma value_fields lim sub fields : binary_value lim sub (JObject fields) = true ->
  sorted_keys fields = true /\ Z.of_nat (length fields) <= lim /\ Z.of_nat (length fields) <= object_max /\
  forall kv, In kv fields -> Z.of_nat (String.length kv.1) <= lim /\ binary_value lim sub kv.2 = true.
Proof.
  cbn [binary_value]. intros [[H1 H2]%andb_true_iff H3]%andb_true_iff. split_and!; [done|lia|lia|]. intros kv Hv. rewrite forallb_forall in H3.
  specialize (H3 kv Hv). apply andb_true_iff in H3 as [? ?]. split; [lia|done].
Qed.

(** The value with every subtype changed. *)
Fixpoint subtypes (f : Z -> option Z) (j : json) : json :=
  match j with
  | JObject fields => JObject (map (fun kv => (kv.1, subtypes f kv.2)) fields)
  | JArray items => JArray (map (subtypes f) items)
  | JBinary bs (Some t) => JBinary bs (f t)
  | _ => j
  end.

Fixpoint untagged (j : json) : bool :=
  match j with
  | JObject fields => forallb (fun kv => untagged kv.2) fields
  | JArray items => forallb untagged items
  | JBinary _ (Some _) => false
  | _ => true
  end.

Lemma subtypes_untagged f j : untagged j = true -> subtypes f j = j.
Proof.
  induction j as [|fields IH|items IH|s|b|z|x|bs [t|]] using json_nested_ind; cbn [untagged subtypes]; intros H; try done; f_equal.
  - induction IH as [|[k v] fields Hv _ IHf]; [done|]. cbn [forallb snd fst map] in *. apply andb_true_iff in H as [Hu H]. rewrite Hv by done. by rewrite IHf.
  - induction IH as [|v items Hv _ IHi]; [done|]. cbn [forallb map] in *. apply andb_true_iff in H as [Hu H]. rewrite Hv by done. by rewrite IHi.
Qed.

Lemma subtypes_same j : subtypes Some j = j.
Proof.
  induction j as [|fields IH|items IH|s|b|z|x|bs [t|]] using json_nested_ind; cbn [subtypes]; try done; f_equal.
  - induction IH as [|[k v] fields Hv _ IHf]; [done|]. cbn [snd fst map] in *. by rewrite Hv, IHf.
  - induction IH as [|v items Hv _ IHi]; [done|]. cbn [map]. by rewrite Hv, IHi.
Qed.

Lemma subtypes_keys f fields : sorted_keys (map (fun kv => (kv.1, subtypes f kv.2)) fields) = sorted_keys fields.
Proof. induction fields as [|[k v] [|[k' v'] fields] IH]; [done..|]. cbn [map sorted_keys fst snd] in *. by destruct (String.compare k k'). Qed.

(** ** The handler on the events of a value *)

(** A value may come: there is an open array, or an object with a key, or nothing yet. *)
Definition ready (d : dom) : Prop := match ref_stack d with building_object _ None :: _ => False | _ => True end.

(** Where [handle_value] puts a value. *)
Definition place (v : json) (d : dom) : dom :=
  match ref_stack d with
  | [] => mk_dom v []
  | building_array items :: st => mk_dom (root d) (building_array (items ++ [v]) :: st)
  | building_object fields (Some key) :: st => mk_dom (root d) (building_object (obj_set fields key v) (Some key) :: st)
  | building_object _ None :: _ => d
  end.

Lemma handle_place v d : ready d -> handle_value v d = Ok (place v d).
Proof. unfold ready, handle_value, place. destruct (ref_stack d) as [|[?|? [?|]] ?]; done. Qed.

Lemma place_ready v d : ready d -> ready (place v d).
Proof. unfold ready, place. destruct (ref_stack d) as [|[?|? [?|]] ?] eqn:E; cbn; try done. Qed.

Lemma touch_set fields k v : obj_set (touch_field fields k) k v = obj_set fields k v.
Proof. unfold touch_field. case_match; [done|]. apply obj_set_set. Qed.

(** ** Safe readers *)

(** The errors of a reader. *)
Definition read_error (e : exn) : Prop := e = json_parse_error \/ e = json_out_of_range 408.

(** Every run of [m] from [r] ends in a state with [Q], or with an error of a reader. *)
Definition wp {A} (m : M reader A) (Q : A -> reader -> Prop) (r : reader) : Prop :=
  match m r with (Ok a, r') => Q a r' | (Throw e, _) => read_error e end.

Lemma wp_bind {A B} (m : M reader A) (k : A -> M reader B) Q r : wp m (fun a => wp (k a) Q) r -> wp (m ≫= k) Q r.
Proof. unfold wp. cbv [mbind M_bind]. by destruct (m r) as [[a|e] r']. Qed.

Lemma wp_ret {A} (a : A) (Q : A -> reader -> Prop) r : Q a r -> wp (mret a) Q r.
Proof. done. Qed.

Lemma wp_throw {A} Q r : wp (throwM json_parse_error : M reader A) Q r.
Proof. by left. Qed.

Lemma wp_fmap {A B} (f : A -> B) m Q r : wp m (fun a => Q (f a)) r -> wp (f <$> m) Q r.
Proof. unfold wp. cbv [fmap M_fmap]. by destruct (m r) as [[a|e] r']. Qed.

Lemma wp_mono {A} (m : M reader A) (P Q : A -> reader -> Prop) r : wp m P r -> (forall a r', P a r' -> Q a r') -> wp m Q r.
Proof. unfold wp. destruct (m r) as [[a|e] r']; auto. Qed.

(** The input got no longer, and the handler is the same. *)
Definition quiet {A} (r : reader) (_ : A) (r' : reader) : Prop :=
  (length (input r') <= length (input r))%nat /\ handler r' = handler r.

Lemma wp_get (Q : option Z -> reader -> Prop) r :
  (input r = [] -> Q None r) -> (forall b r', length (input r) = S (length (input r')) -> handler r' = handler r -> Q (Some b) r') -> wp get Q r.
Proof. unfold wp, get. destruct (input r) as [|b l] eqn:E; auto. Qed.

Lemma wp_get_to n r : wp (get_to n) (quiet r) r.
Proof. unfold wp, get_to, quiet. destruct (_ <? _); [by left|]. cbn [input handler]. rewrite length_drop. split; [lia|done]. Qed.

Lemma wp_get_number n r : wp (get_number n) (quiet r) r.
Proof. apply wp_fmap, wp_get_to. Qed.

Lemma wp_get_number_le n r : wp (get_number_le n) (quiet r) r.
Proof. apply wp_fmap, wp_get_to. Qed.

Lemma wp_get_signed n r : wp (get_signed n) (quiet r) r.
Proof. apply wp_fmap, wp_get_number. Qed.

Lemma wp_get_signed_le n r : wp (get_signed_le n) (quiet r) r.
Proof. apply wp_fmap, wp_get_number_le. Qed.

Lemma get_bytes_spec l : forall n, match get_bytes l n with (Ok bs, l') => (length l' <= length l)%nat | (Throw e, _) => e = json_parse_error end.
Proof.
  induction l as [|b l IH]; intros n; cbn [get_bytes]; destruct (n <=? 0); try done. specialize (IH (n - 1)). destruct (get_bytes l (n - 1)) as [[bs|e] l']; cbn in *; [lia|done].
Qed.

Lemma wp_get_binary n r : wp (get_binary n) (quiet r) r.
Proof. unfold wp, get_binary, quiet. pose proof (get_bytes_spec (input r) n) as H. destruct (get_bytes (input r) n) as [[bs|e] l']; cbn; [done|by left]. Qed.

Lemma wp_get_string n r : wp (get_string n) (quiet r) r.
Proof. apply wp_fmap, wp_get_binary. Qed.

(** The innermost container of [d'] is the one of [d], or both have none. *)
Definition same_place (d d' : dom) : Prop :=
  match ref_stack d, ref_stack d' with
  | [], [] => True
  | building_array _ :: st, building_array _ :: st' => st' = st
  | building_object _ _ :: st, building_object _ (Some _) :: st' => st' = st
  | _, _ => False
  end.

(** A value was read. *)
Definition read_one {A} (r : reader) (_ : A) (r' : reader) : Prop :=
  (length (input r') <= length (input r))%nat /\ same_place (handler r) (handler r').

Lemma same_place_ready d d' : same_place d d' -> ready d'.
Proof. unfold same_place, ready. by destruct (ref_stack d) as [|[?|? ?] ?], (ref_stack d') as [|[?|? [?|]] ?]. Qed.

Lemma same_place_trans d d' d'' : same_place d d' -> same_place d' d'' -> same_place d d''.
Proof.
  unfold same_place. destruct (ref_stack d) as [|[?|? ?] ?], (ref_stack d') as [|[?|? ?] ?], (ref_stack d'') as [|[?|? [?|]] ?]; try done; repeat case_match; try done; congruence.
Qed.

Lemma place_same v d : ready d -> same_place d (place v d).
Proof. unfold ready, same_place, place. destruct (ref_stack d) as [|[?|? [?|]] ?] eqn:E; cbn; try done. Qed.

Lemma same_place_refl d : ready d -> same_place d d.
Proof. unfold ready, same_place. by destruct (ref_stack d) as [|[?|? [?|]] ?]. Qed.

(** The events of a value without parts. *)
Definition leaf (ev : event) : bool :=
  match ev with ev_start_object _ | ev_key _ | ev_end_object | ev_start_array _ | ev_end_array => false | _ => true end.

Lemma wp_leaf ev r : leaf ev = true -> ready (handler r) -> wp (emit ev) (read_one r) r.
Proof.
  intros Hl Hr. unfold wp, emit, read_one. destruct ev; try done; cbn [dom_event]; rewrite handle_place by done; cbn; split; try lia; by apply place_same.
Qed.

Lemma handle_same v (d : dom) st x : ready d -> st = ref_stack d -> exists d', handle_value v (mk_dom x st) = Ok d' /\ same_place d d'.
Proof.
  intros Hr ->. unfold handle_value, same_place. cbn [ref_stack root]. unfold ready in Hr.
  destruct (ref_stack d) as [|[?|? [?|]] ?]; try done; eexists; split; try done.
Qed.

(** An array, from its start to its end. *)
Lemma wp_array len body r : ready (handler r) ->
  (forall r1, input r1 = input r -> ref_stack (handler r1) = building_array [] :: ref_stack (handler r) -> wp body (read_one (A := unit) r1) r1) ->
  wp (emit (ev_start_array len);; body;; emit ev_end_array) (read_one r) r.
Proof.
  intros Hr Hb. apply wp_bind. unfold wp at 1, emit at 1. cbn [dom_event]. destruct (_ && _); [by right|]. apply wp_bind.
  eapply wp_mono; [apply Hb; done|]. intros _ r2 [L S]. cbn [input handler ref_stack] in *. unfold same_place in S. cbn [ref_stack] in S.
  destruct (ref_stack (handler r2)) as [|[items|] st] eqn:E; try done. unfold wp, emit. cbn [dom_event]. rewrite E.
  destruct (handle_same (JArray items) (handler r) st (root (handler r2)) Hr S) as (d' & -> & Hs). done.
Qed.

(** The innermost container is an object, inside of [st]. *)
Definition in_object (st : list container) (d : dom) : Prop := exists fields key, ref_stack d = building_object fields key :: st.

Definition read_fields {A} (st : list container) (r : reader) (_ : A) (r' : reader) : Prop :=
  (length (input r') <= length (input r))%nat /\ in_object st (handler r').

Lemma wp_object len body r : ready (handler r) ->
  (forall r1, input r1 = input r -> in_object (ref_stack (handler r)) (handler r1) -> wp body (read_fields (A := unit) (ref_stack (handler r)) r1) r1) ->
  wp (emit (ev_start_object len);; body;; emit ev_end_object) (read_one r) r.
Proof.
  intros Hr Hb. apply wp_bind. unfold wp at 1, emit at 1. cbn [dom_event]. destruct (_ && _); [by right|]. apply wp_bind.
  eapply wp_mono; [apply Hb; [done|]; by eexists _, _|]. intros _ r2 [L (fields & key & E)]. cbn [input] in L. unfold wp, emit. cbn [dom_event]. rewrite E.
  destruct (handle_same (JObject fields) (handler r) (ref_stack (handler r)) (root (handler r2)) Hr eq_refl) as (d' & -> & Hs). done.
Qed.

(** A key, and what follows it. *)
Lemma wp_key st s r : in_object st (handler r) ->
  wp (emit (ev_key s)) (fun _ r' => input r' = input r /\ ready (handler r') /\ forall d', same_place (handler r') d' -> in_object st d') r.
Proof.
  intros (fields & key & E). unfold wp, emit. cbn [dom_event]. rewrite E. cbn [input handler]. split_and!; [done|done|]. intros d'. unfold same_place. cbn [ref_stack].
  destruct (ref_stack d') as [|[?|? [?|]] ?] eqn:E'; try done. intros ->. by eexists _, _.
Qed.

(** A reader that is safe on every input gives a value or one of its errors. *)
Lemma sax_parse_safe parse bytes : (forall r, input r = bytes -> ready (handler r) -> wp parse (read_one r) r) ->
  match sax_parse parse bytes with Ok _ => True | Throw e => read_error e end.
Proof.
  intros H. unfold sax_parse. cbv [mbind M_bind res_bind]. specialize (H (mk_reader bytes (mk_dom JNull [])) eq_refl I). unfold wp in H.
  destruct (parse _) as [[[]|e] r]; [|done]. unfold expect_end, get. cbv [mbind M_bind]. destruct (input r); [done|by left].
Qed.

(** ** Writing and reading a whole value *)

(** [parse] takes [bs] from the input and hands [v] to the handler. *)
Definition reads_value (parse : M reader unit) (bs : list Z) (v : json) : Prop :=
  forall rest d, ready d -> parse (mk_reader (bs ++ rest) d) = (Ok tt, mk_reader rest (place v d)).

Lemma sax_parse_written parse bs v : reads_value parse bs v -> sax_parse parse bs = Ok v.
Proof.
  intros H. unfold sax_parse. cbv [mbind M_bind res_bind]. specialize (H [] (mk_dom JNull []) I). rewrite app_nil_r in H. by rewrite H.
Qed.

(** A field: its key and its value, into the object that is open. *)
Definition reads_field (parse : M reader unit) (bs : list Z) (kv : string * json) : Prop :=
  forall rest x fields key st, parse (mk_reader (bs ++ rest) (mk_dom x (building_object fields key :: st))) =
    (Ok tt, mk_reader rest (mk_dom x (building_object (obj_set fields kv.1 kv.2) (Some kv.1) :: st))).

Lemma key_value_field parse bs k v : reads_value parse bs v -> reads_field (emit (ev_key k);; parse) bs (k, v).
Proof.
  intros H rest x fields key st. cbv [mbind M_bind]. unfold emit. cbn [dom_event handler ref_stack input root]. rewrite H by done.
  unfold place. cbn [ref_stack root]. by rewrite touch_set.
Qed.

Lemma takes_field {A} (m : M reader A) bs a k bs' kv : takes m bs a -> reads_field (k a) bs' kv -> reads_field (m ≫= k) (bs ++ bs') kv.
Proof. intros Hm Hk rest x fields key st. cbv [mbind M_bind]. rewrite <- app_assoc, Hm. apply Hk. Qed.

Lemma takes_value {A} (m : M reader A) bs a k bs' v : takes m bs a -> reads_value (k a) bs' v -> reads_value (m ≫= k) (bs ++ bs') v.
Proof. intros Hm Hk rest d Hd. cbv [mbind M_bind]. rewrite <- app_assoc, Hm. by apply Hk. Qed.

Lemma get_takes b : takes get [b] (Some b).
Proof. done. Qed.

Lemma takes_bind {A B} (m : M reader A) (k : A -> M reader B) bs a bs' b : takes m bs a -> takes (k a) bs' b -> takes (m ≫= k) (bs ++ bs') b.
Proof. intros Hm Hk rest d. cbv [mbind M_bind]. rewrite <- app_assoc, Hm. apply Hk. Qed.

(** The value of a leaf. *)
Definition leaf_value (ev : event) : json :=
  match ev with
  | ev_boolean b => JBool b | ev_number_integer z | ev_number_unsigned z => JInt z | ev_number_float x => JFloat x
  | ev_string s => JString s | ev_binary bs st => JBinary bs st | _ => JNull
  end.

Lemma leaf_read ev v : leaf ev = true -> v = leaf_value ev -> reads_value (emit ev) [] v.
Proof. intros Hl -> rest d Hd. unfold emit. destruct ev; try done; cbn [dom_event handler]; by rewrite handle_place. Qed.

Lemma takes_leaf {A} (m : M reader A) (ev : A -> event) bs a v : takes m bs a -> leaf (ev a) = true -> v = leaf_value (ev a) -> reads_value (a ← m; emit (ev a)) bs v.
Proof. intros Hm Hl Hv. rewrite <- (app_nil_r bs). eapply takes_value; [exact Hm|]. by apply leaf_read. Qed.

Lemma repeat_items body bss vs : Forall2 (reads_value body) bss vs -> forall fuel rest x items st, (length vs <= fuel)%nat ->
  repeat_read fuel (Z.of_nat (length vs)) body (mk_reader (concat bss ++ rest) (mk_dom x (building_array items :: st))) =
    (Ok tt, mk_reader rest (mk_dom x (building_array (items ++ vs) :: st))).
Proof.
  induction 1 as [|bs v bss vs Hv _ IH]; intros fuel rest x items st Hf; [rewrite app_nil_r; by destruct fuel|].
  destruct fuel as [|fuel]; [cbn in Hf; lia|]. cbn [repeat_read length concat]. destruct (Z.leb_spec (Z.of_nat (S (length vs))) 0); [lia|].
  cbv [mbind M_bind]. rewrite <- app_assoc, Hv by done. unfold place. cbn [ref_stack root].
  replace (Z.of_nat (S (length vs)) - 1) with (Z.of_nat (length vs)) by lia. cbn in Hf. rewrite IH by lia. by rewrite <- app_assoc.
Qed.

Lemma repeat_fields body bss kvs : Forall2 (reads_field body) bss kvs -> forall fuel rest x fields key st, (length kvs <= fuel)%nat -> exists key',
  repeat_read fuel (Z.of_nat (length kvs)) body (mk_reader (concat bss ++ rest) (mk_dom x (building_object fields key :: st))) =
    (Ok tt, mk_reader rest (mk_dom x (building_object (set_fields fields kvs) key' :: st))).
Proof.
  induction 1 as [|bs [k v] bss kvs Hv _ IH]; intros fuel rest x fields key st Hf; [exists key; by destruct fuel|].
  destruct fuel as [|fuel]; [cbn in Hf; lia|]. cbn [repeat_read length concat]. destruct (Z.leb_spec (Z.of_nat (S (length kvs))) 0); [lia|].
  cbv [mbind M_bind]. rewrite <- app_assoc, Hv.
  replace (Z.of_nat (S (length kvs)) - 1) with (Z.of_nat (length kvs)) by lia. cbn in Hf. apply IH. lia.
Qed.

(** An array and an object, from the start to the end. *)
Lemma array_read body bss vs fuel n : n = Z.of_nat (length vs) -> Forall2 (reads_value body) bss vs -> (length vs <= fuel)%nat -> n <= array_max ->
  reads_value (emit (ev_start_array n);; repeat_read fuel n body;; emit ev_end_array) (concat bss) (JArray vs).
Proof.
  intros -> Hv Hf Hm rest d Hd. cbv [mbind M_bind]. unfold emit at 1. cbn [dom_event handler input].
  destruct (Z.ltb_spec array_max (Z.of_nat (length vs))); [lia|]. rewrite andb_false_r. rewrite (repeat_items body bss vs Hv) by done.
  unfold emit. cbn [dom_event handler ref_stack input root]. rewrite handle_place by done. by destruct d.
Qed.

Lemma object_read body bss kvs fuel n : n = Z.of_nat (length kvs) -> Forall2 (reads_field body) bss kvs -> (length kvs <= fuel)%nat -> n <= object_max -> sorted_keys kvs = true ->
  reads_value (emit (ev_start_object n);; repeat_read fuel n body;; emit ev_end_object) (concat bss) (JObject kvs).
Proof.
  intros -> Hv Hf Hm Hs rest d Hd. cbv [mbind M_bind]. unfold emit at 1. cbn [dom_event handler input].
  destruct (Z.ltb_spec object_max (Z.of_nat (length kvs))); [lia|]. rewrite andb_false_r.
  destruct (repeat_fields body bss kvs Hv fuel rest (root d) [] None (ref_stack d) Hf) as [key' ->].
  unfold emit. cbn [dom_event handler ref_stack input root]. rewrite handle_place by done. rewrite set_fields_sorted by done. by destruct d.
Qed.

Lemma max_sizes : array_max < 2 ^ 60 /\ object_max < 2 ^ 60.
Proof. by vm_compute. Qed.

(** The parts of a container in its bytes. *)
Lemma concat_parts {A} (w : A -> list Z) l x : In x l -> (length (w x) <= length (concat (map w l)))%nat.
Proof. induction l as [|y l IH]; [done|]. cbn [map concat]. rewrite length_app. intros [->|H]; [lia|]. specialize (IH H). lia. Qed.

Lemma concat_count {A} (w : A -> list Z) l : (forall x, In x l -> 0 < length (w x))%nat -> (length l <= length (concat (map w l)))%nat.
Proof.
  induction l as [|y l IH]; intros H; [done|]. cbn [map concat length]. rewrite length_app. pose proof (H y (or_introl eq_refl)).
  specialize (IH (fun x Hx => H x (or_intror Hx))). lia.
Qed.

Lemma map_reads {A B} (R : list Z -> A -> Prop) (w : B -> list Z) (f : B -> A) (l : list B) : (forall x, In x l -> R (w x) (f x)) -> Forall2 R (map w l) (map f l).
Proof. induction l as [|x l IH]; intros H; cbn; constructor; [apply H; by left|]. apply IH. intros y Hy. apply H. by right. Qed.

(** The containers of a format that writes the size first: [w] writes a value or a field, [value] reads one. *)
Lemma elements_read (w : json -> list Z) (f : json -> json) body items fuel : (forall v, In v items -> 0 < length (w v))%nat ->
  (forall v, In v items -> reads_value body (w v) (f v)) -> (length (concat (map w items)) < fuel)%nat -> Z.of_nat (length items) <= array_max ->
  reads_value (emit (ev_start_array (Z.of_nat (length items)));; repeat_read fuel (Z.of_nat (length items)) body;; emit ev_end_array)
    (concat (map w items)) (JArray (map f items)).
Proof.
  intros Hw Hr Hf Hm. apply array_read; rewrite ?length_map; [done|by apply map_reads| |done]. pose proof (concat_count w items Hw). lia.
Qed.

Lemma members_read (w : string * json -> list Z) (f : json -> json) body fields fuel : (forall kv, In kv fields -> 0 < length (w kv))%nat ->
  (forall kv, In kv fields -> reads_field body (w kv) (kv.1, f kv.2)) -> (length (concat (map w fields)) < fuel)%nat -> Z.of_nat (length fields) <= object_max ->
  sorted_keys (map (fun kv => (kv.1, f kv.2)) fields) = true ->
  reads_value (emit (ev_start_object (Z.of_nat (length fields)));; repeat_read fuel (Z.of_nat (length fields)) body;; emit ev_end_object)
    (concat (map w fields)) (JObject (map (fun kv => (kv.1, f kv.2)) fields)).
Proof.
  intros Hw Hr Hf Hm Hk. apply object_read; rewrite ?length_map; [done|by apply map_reads| |done|done]. pose proof (concat_count w fields Hw). lia.
Qed.

(** *** The loops are safe *)

Lemma wp_repeat (I : dom -> Prop) body fuel : forall len r, I (handler r) -> (length (input r) < fuel)%nat ->
  (forall r1, I (handler r1) -> (length (input r1) <= length (input r))%nat -> wp body (fun _ r2 => I (handler r2) /\ (length (input r2) < length (input r1))%nat) r1) ->
  wp (repeat_read fuel len body) (fun _ r2 => I (handler r2) /\ (length (input r2) <= length (input r))%nat) r.
Proof.
  induction fuel as [|fuel IH]; intros len r Hi Hf Hb; [lia|]. cbn [repeat_read]. destruct (len <=? 0); [by apply wp_ret|].
  apply wp_bind. eapply wp_mono; [by apply Hb|]. intros _ r1 [H1 L1]. eapply wp_mono; [apply IH; [done|lia|]|].
  - intros r2 H2 L2. apply Hb; [done|lia].
  - intros _ r2 [H2 L2]. split; [done|lia].
Qed.

Lemma wp_until {A} (I : dom -> Prop) (body : A -> option Z -> M reader A) fuel : forall a r, I (handler r) -> (length (input r) < fuel)%nat ->
  (forall a r1, I (handler r1) -> wp (body a None) (fun _ _ => False) r1) ->
  (forall a b r1, I (handler r1) -> (length (input r1) < length (input r))%nat ->
    wp (body a (Some b)) (fun _ r2 => I (handler r2) /\ (length (input r2) <= length (input r1))%nat) r1) ->
  wp (until_break fuel body a) (fun _ r2 => I (handler r2) /\ (length (input r2) <= length (input r))%nat) r.
Proof.
  induction fuel as [|fuel IH]; intros a r Hi Hf Hn Hb; [lia|]. cbn [until_break]. apply wp_bind, wp_get.
  { intros _. apply wp_bind. eapply wp_mono; [by apply Hn|done]. }
  intros b r1 L1 E1. assert (Hr : wp (a ← body a (Some b); until_break fuel body a) (fun _ r2 => I (handler r2) /\ (length (input r2) <= length (input r))%nat) r1).
  { apply wp_bind. eapply wp_mono; [apply Hb; [congruence|lia]|]. intros a' r2 [H2 L2]. eapply wp_mono; [apply IH; [done|lia|done|]|].
    - intros a2 b2 r3 H3 L3. apply Hb; [done|lia].
    - intros _ r3 [H3 L3]. split; [done|lia]. }
  cbn [is_byte_value]. destruct (b =? 0xFF); [apply wp_ret; split; [congruence|lia]|exact Hr].
Qed.

(** A part that leaves the handler alone, then a value without parts. *)
Lemma wp_then_leaf {A} (m : M reader A) (ev : A -> event) r : wp m (quiet r) r -> (forall a, leaf (ev a) = true) -> ready (handler r) ->
  wp (a ← m; emit (ev a)) (read_one r) r.
Proof.
  intros Hm Hl Hr. apply wp_bind. eapply wp_mono; [exact Hm|]. intros a r1 [L E]. eapply wp_mono; [apply wp_leaf; [done|congruence]|].
  intros u r2 [L2 S2]. rewrite E in S2. split; [lia|done].
Qed.

Lemma wp_quiet_bind {A B} (m : M reader A) (k : A -> M reader B) r : wp m (quiet r) r -> (forall a r1, quiet r a r1 -> wp (k a) (quiet r1) r1) -> wp (m ≫= k) (quiet r) r.
Proof.
  intros Hm Hk. apply wp_bind. eapply wp_mono; [exact Hm|]. intros a r1 Q1. eapply wp_mono; [by apply Hk|].
  destruct Q1 as [L1 E1]. intros b r2 [L2 E2]. split; [lia|congruence].
Qed.

(** A value read after parts that leave the handler alone. *)
Lemma read_one_quiet {A B C} r (a : A) r1 (b : B) r2 (c : C) : quiet r a r1 -> read_one r1 b r2 -> read_one r c r2.
Proof. intros [L1 E1] [L2 S2]. unfold read_one. rewrite E1 in S2. split; [lia|done]. Qed.

Lemma wp_quiet_then {A B} (m : M reader A) (k : A -> M reader B) r : wp m (quiet r) r -> (forall a r1, quiet r a r1 -> wp (k a) (read_one r1) r1) -> wp (m ≫= k) (read_one r) r.
Proof. intros Hm Hk. apply wp_bind. eapply wp_mono; [exact Hm|]. intros a r1 Q1. eapply wp_mono; [by apply Hk|]. intros b r2 P2. by eapply read_one_quiet. Qed.

(** Enough fuel for a reader whose first byte is [c]. *)
Definition enough (fuel : nat) (c : option Z) (r : reader) : Prop :=
  match c with None => (0 < fuel)%nat | Some _ => (length (input r) + 1 < fuel)%nat end.

(** The turn of a loop: a byte, and what starts with it. *)
Lemma wp_turn {A} fuel (k : option Z -> M reader A) Q r : (length (input r) < fuel)%nat -> (0 < fuel)%nat ->
  (forall c r1, enough fuel c r1 -> quiet r c r1 -> (c <> None -> length (input r) = S (length (input r1))) -> wp (k c) Q r1) ->
  wp (c ← get; k c) Q r.
Proof.
  intros L F H. apply wp_bind, wp_get.
  - intros E. by apply H.
  - intros b r1 L1 E1. apply H; [cbn; lia|split; [lia|done]|by intros _].
Qed.
