(* ===== verification/JsonCbor.v ===== *)
(** * json.hpp: CBOR

    [write_cbor], the reader [parse_cbor_internal] with its strings, byte strings, containers, tags and
    half-precision numbers, and [to_cbor]/[from_cbor]. *)

From S2P Require Import Prelude Str Json Numbers JsonText JsonSpec JsonWf JsonOps JsonBinary.
From Stdlib Require Import Ascii SpecFloat.
From Stdlib Require String.

Local Open Scope string_scope.
Local Open Scope Z_scope.
Local Open Scope list_scope.

(** ** Writing *)

(** The first byte of a value of the type [base] with the number [n], and the bytes of the number when it
    does not fit into the first byte. *)
Definition cbor_head (base n : Z) : list Z :=
  if n <=? 0x17 then be_bytes 1 (base + n)
  else if n <=? 0xFF then base + 0x18 :: be_bytes 1 n
  else if n <=? 0xFFFF then base + 0x19 :: be_bytes 2 n
  else if n <=? 0xFFFFFFFF then base + 0x1A :: be_bytes 4 n
  else base + 0x1B :: be_bytes 8 n.

Definition cbor_integer (z : Z) : list Z := if 0 <=? z then cbor_head 0x00 z else cbor_head 0x20 (-1 - z).

Definition cbor_float (x : spec_float) : list Z :=
  match x with
  | S754_nan => [0xF9; 0x7E; 0x00]
  | S754_infinity s => [0xF9; if s then 0xFC else 0x7C; 0x00]
  | _ => write_compact_float 0xFA 0xFB x
  end.

Definition cbor_string (s : string) : list Z := cbor_head 0x60 (Z.of_nat (String.length s)) ++ bytes_of s.

Definition cbor_tag (t : Z) : list Z :=
  if t <=? 0xFF then 0xD8 :: be_bytes 1 t
  else if t <=? 0xFFFF then 0xD9 :: be_bytes 2 t
  else if t <=? 0xFFFFFFFF then 0xDA :: be_bytes 4 t
  else 0xDB :: be_bytes 8 t.

Definition cbor_binary (bs : list Z) (st : option Z) : list Z :=
  match st with Some t => cbor_tag t | None => [] end ++ cbor_head 0x40 (Z.of_nat (length bs)) ++ bs.

Fixpoint write_cbor (j : json) : list Z :=
  match j with
  | JNull => [0xF6]
  | JBool b => [if b then 0xF5 else 0xF4]
  | JInt z => cbor_integer z
  | JFloat x => cbor_float x
  | JString s => cbor_string s
  | JArray items => cbor_head 0x80 (Z.of_nat (length items)) ++ concat (map write_cbor items)
  | JBinary bs st => cbor_binary bs st
  | JObject fields => cbor_head 0xA0 (Z.of_nat (length fields)) ++ concat (map (fun kv => cbor_string kv.1 ++ write_cbor kv.2) fields)
  end.

Definition to_cbor (j : json) : list Z := write_cbor j.

(** ** Reading *)

Inductive cbor_tag_handler := tag_error | tag_ignore | tag_store.

(** The number of a first byte, from its low bits or from the bytes that follow. *)
Definition cbor_argument (info : Z) : M reader Z :=
  if info <=? 0x17 then mret info
  else if info =? 0x18 then get_number 1
  else if info =? 0x19 then get_number 2
  else if info =? 0x1A then get_number 4
  else if info =? 0x1B then get_number 8
  else throwM json_parse_error.

(** [get_cbor_string] and [get_cbor_binary], which differ in the first byte [base] of their type. *)
Fixpoint get_cbor_bytes (fuel : nat) (base : Z) (c : option Z) : M reader (list Z) :=
  match fuel, c with
  | O, _ => throwM undefined_behavior
  | _, None => throwM json_parse_error
  | S fuel, Some c =>
      if (base <=? c) && (c <=? base + 0x1B) then len ← cbor_argument (c - base); get_binary len
      else if c =? base + 0x1F then until_break fuel (fun acc c => chunk ← get_cbor_bytes fuel base c; mret (acc ++ chunk)) []
      else throwM json_parse_error
  end.

Definition get_cbor_string (fuel : nat) (c : option Z) : M reader string := string_of <$> get_cbor_bytes fuel 0x60 c.
Definition get_cbor_binary (fuel : nat) (c : option Z) : M reader (list Z) := get_cbor_bytes fuel 0x40 c.

(** A half-precision number. *)
Definition half_float (half : Z) : spec_float :=
  let exp := Z.land (Z.shiftr half 10) 0x1F in
  let mant := Z.land half 0x3FF in
  let val :=
    if exp =? 0 then binary_normalize 53 1024 mant (-24) false
    else if exp =? 31 then if mant =? 0 then S754_infinity false else S754_nan
    else binary_normalize 53 1024 (mant + 1024) (exp - 25) false in
  if Z.land half 0x8000 =? 0 then val else SFopp val.

(** [get_cbor_array] and [get_cbor_object], over the reader of a value. *)
Definition get_cbor_array (fuel : nat) (value : option Z -> M reader unit) (len : Z) : M reader unit :=
  emit (ev_start_array len);;
  (if negb (len =? unknown_size) then repeat_read fuel len (c ← get; value c)
   else until_break fuel (fun _ c => value c) tt);;
  emit ev_end_array.

Definition cbor_field (fuel : nat) (value : option Z -> M reader unit) (c : option Z) : M reader unit :=
  key ← get_cbor_string fuel c; emit (ev_key key);; c ← get; value c.

Definition get_cbor_object (fuel : nat) (value : option Z -> M reader unit) (len : Z) : M reader unit :=
  emit (ev_start_object len);;
  (if negb (len =? unknown_size) then repeat_read fuel len (c ← get; cbor_field fuel value c)
   else until_break fuel (fun _ c => cbor_field fuel value c) tt);;
  emit ev_end_object.

(** The number of a tag that has bytes of its own. *)
Definition cbor_tag_number (c : Z) : M reader Z :=
  get_number (if c =? 0xD8 then 1 else if c =? 0xD9 then 2 else if c =? 0xDA then 4 else 8).

Definition is_tag (c : Z) : bool := (0xC6 <=? c) && (c <=? 0xD4) || (0xD8 <=? c) && (c <=? 0xDB).

Fixpoint parse_cbor_internal (fuel : nat) (tag_handler : cbor_tag_handler) (c : option Z) : M reader unit :=
  match fuel, c with
  | O, _ => throwM undefined_behavior
  | _, None => throwM json_parse_error
  | S fuel, Some c =>
      if c <=? 0x1B then n ← cbor_argument c; emit (ev_number_unsigned n)
      else if (0x20 <=? c) && (c <=? 0x3B) then n ← cbor_argument (c - 0x20); emit (ev_number_integer (-1 - s64 n))
      else if (0x40 <=? c) && (c <=? 0x5B) || (c =? 0x5F) then b ← get_cbor_binary (S fuel) (Some c); emit (ev_binary b None)
      else if (0x60 <=? c) && (c <=? 0x7B) || (c =? 0x7F) then s ← get_cbor_string (S fuel) (Some c); emit (ev_string s)
      else if (0x80 <=? c) && (c <=? 0x9B) then len ← cbor_argument (c - 0x80); get_cbor_array fuel (parse_cbor_internal fuel tag_handler) len
      else if c =? 0x9F then get_cbor_array fuel (parse_cbor_internal fuel tag_handler) unknown_size
      else if (0xA0 <=? c) && (c <=? 0xBB) then len ← cbor_argument (c - 0xA0); get_cbor_object fuel (parse_cbor_internal fuel tag_handler) len
      else if c =? 0xBF then get_cbor_object fuel (parse_cbor_internal fuel tag_handler) unknown_size
      else if is_tag c then
        match tag_handler with
        | tag_error => throwM json_parse_error
        | tag_ignore =>
            (if 0xD8 <=? c then cbor_tag_number c;; mret tt else mret tt);;
            c ← get; parse_cbor_internal fuel tag_handler c
        | tag_store =>
            if 0xD8 <=? c then
              t ← cbor_tag_number c; c ← get; b ← get_cbor_binary fuel c; emit (ev_binary b (Some t))
            else c ← get; parse_cbor_internal fuel tag_handler c
        end
      else if c =? 0xF4 then emit (ev_boolean false)
      else if c =? 0xF5 then emit (ev_boolean true)
      else if c =? 0xF6 then emit ev_null
      else if c =? 0xF9 then
        byte1 ← get_number 1; byte2 ← get_number 1; emit (ev_number_float (half_float (Z.shiftl byte1 8 + byte2)))
      else if c =? 0xFA then n ← get_number 4; emit (ev_number_float (double_of_float (float_of_bits n)))
      else if c =? 0xFB then n ← get_number 8; emit (ev_number_float (double_of_bits n))
      else throwM json_parse_error
  end.

(** [from_cbor]; every call takes a byte of the input, the first two aside. *)
Definition from_cbor (tag_handler : cbor_tag_handler) (bytes : list Z) : res json :=
  sax_parse (c ← get; parse_cbor_internal (length bytes + 2) tag_handler c) bytes.

(** ** The reader is safe *)

Lemma wp_cbor_argument info r : wp (cbor_argument info) (quiet r) r.
Proof. unfold cbor_argument. repeat case_match; try apply wp_get_number; [by apply wp_ret|apply wp_throw]. Qed.

Lemma cbor_bytes_safe fuel base : forall c r, enough fuel c r -> wp (get_cbor_bytes fuel base c) (fun a r' => c <> None /\ quiet r a r') r.
Proof.
  induction fuel as [|fuel IH]; intros c r Hf; [destruct c; cbn in Hf; lia|]. destruct c as [c|]; [|apply wp_throw]. cbn [enough] in Hf. cbn [get_cbor_bytes].
  eapply wp_mono; [|intros a r' H; split; [done|exact H]]. destruct (_ && _).
  { apply wp_quiet_bind; [apply wp_cbor_argument|]. intros len r1 _. apply wp_get_binary. }
  destruct (c =? _); [|apply wp_throw]. eapply wp_mono; [apply (wp_until (eq (handler r))); [done|lia|..]|by intros a r' [E L]].
  - intros acc r1 _. apply wp_bind. eapply wp_mono; [apply IH; cbn; lia|]. by intros a r2 [? _].
  - intros acc b r1 E1 L1. apply wp_bind. eapply wp_mono; [apply IH; cbn; lia|]. intros a r2 (_ & L2 & E2). apply wp_ret. split; [congruence|done].
Qed.

Lemma cbor_binary_safe fuel c r : enough fuel c r -> wp (get_cbor_binary fuel c) (quiet r) r.
Proof. intros H. eapply wp_mono; [by apply cbor_bytes_safe|]. by intros a r' [_ Q]. Qed.

Lemma cbor_string_safe fuel c r : enough fuel c r -> wp (get_cbor_string fuel c) (fun s r' => c <> None /\ quiet r s r') r.
Proof. intros H. apply wp_fmap, cbor_bytes_safe, H. Qed.

Section containers.
  Context (fuel : nat) (value : option Z -> M reader unit).
  Context (value_safe : forall c r, enough fuel c r -> ready (handler r) -> wp (value c) (fun a r' => c <> None /\ read_one r a r') r).

Lemma cbor_array_safe len r : (length (input r) < fuel)%nat -> ready (handler r) -> wp (get_cbor_array fuel value len) (read_one r) r.
Proof.
  intros Hf Hr. apply wp_array; [done|]. intros r1 E1 S1. rewrite <- E1 in Hf.
  assert (R1 : same_place (handler r1) (handler r1)) by (apply same_place_refl; unfold ready; by rewrite S1).
  destruct (negb _).
  - eapply wp_mono; [apply (wp_repeat (same_place (handler r1))); [done|done|]|by intros a r' [? ?]].
    intros r2 P2 L2. apply (wp_turn fuel); [lia|lia|]. intros c r3 F3 [_ E3] L3. eapply wp_mono; [apply value_safe; [done|rewrite E3; by eapply same_place_ready]|].
    intros a r4 (N & L4 & P4). specialize (L3 N). split; [|lia]. eapply same_place_trans; [exact P2|]. by rewrite <- E3.
  - eapply wp_mono; [apply (wp_until (same_place (handler r1))); [done|done|..]|by intros a r' [? ?]].
    + intros u r2 P2. eapply wp_mono; [apply value_safe; [cbn; lia|by eapply same_place_ready]|by intros ? ? [? _]].
    + intros u b r2 P2 L2. eapply wp_mono; [apply value_safe; [cbn; lia|by eapply same_place_ready]|].
      intros a r3 (_ & L3 & P3). split; [by eapply same_place_trans|done].
Qed.

Lemma cbor_field_safe st c r : enough fuel c r -> in_object st (handler r) ->
  wp (cbor_field fuel value c) (fun _ r' => c <> None /\ in_object st (handler r') /\ (length (input r') <= length (input r))%nat) r.
Proof.
  intros Hf Ho. apply wp_bind. eapply wp_mono; [by apply cbor_string_safe|]. intros s r1 (N & L1 & E1). destruct c as [c|]; [|done]. cbn [enough] in Hf.
  apply wp_bind. eapply wp_mono; [apply wp_key; by rewrite E1|]. intros _ r2 (E2 & R2 & P2). apply (wp_turn fuel); [rewrite E2; lia|lia|].
  intros c2 r3 F3 [_ E3] L3. eapply wp_mono; [apply value_safe; [done|congruence]|]. intros _ r4 (N4 & L4 & P4). specialize (L3 N4). rewrite E2 in L3.
  split; [done|]. split; [|lia]. apply P2. by rewrite <- E3.
Qed.

Lemma cbor_object_safe len r : (length (input r) < fuel)%nat -> ready (handler r) -> wp (get_cbor_object fuel value len) (read_one r) r.
Proof.
  intros Hf Hr. apply wp_object; [done|]. intros r1 E1 S1. rewrite <- E1 in Hf. set (st := ref_stack (handler r)) in *. destruct (negb _).
  - eapply wp_mono; [apply (wp_repeat (in_object st)); [done|done|]|by intros a r' [? ?]].
    intros r2 P2 L2. apply (wp_turn fuel); [lia|lia|]. intros c r3 F3 [_ E3] L3. eapply wp_mono; [apply (cbor_field_safe st); [done|by rewrite E3]|].
    intros a r4 (N & P4 & L4). specialize (L3 N). split; [done|lia].
  - eapply wp_mono; [apply (wp_until (in_object st)); [done|done|..]|by intros a r' [? ?]].
    + intros u r2 P2. eapply wp_mono; [apply (cbor_field_safe st); [cbn; lia|done]|by intros ? ? [? _]].
    + intros u b r2 P2 L2. eapply wp_mono; [apply (cbor_field_safe st); [cbn; lia|done]|by intros ? ? [_ ?]].
Qed.
End containers.

Lemma parse_cbor_safe fuel h : forall c r, enough fuel c r -> ready (handler r) -> wp (parse_cbor_internal fuel h c) (fun a r' => c <> None /\ read_one r a r') r.
Proof.
  induction fuel as [|fuel IH]; intros c r Hf Hr; [destruct c; cbn in Hf; lia|]. destruct c as [c|]; [|apply wp_throw].
  eapply wp_mono; [|intros a r' H; split; [done|exact H]]. pose proof (Hf : (length (input r) + 1 < S fuel)%nat) as Hl. cbn [parse_cbor_internal].
  assert (Hrec : forall r1, quiet r tt r1 -> wp (c ← get; parse_cbor_internal fuel h c) (read_one r) r1).
  { intros r1 [L1 E1]. apply (wp_turn fuel); [lia|lia|]. intros c2 r2 F2 [_ E2] L2. eapply wp_mono; [apply IH; [done|congruence]|].
    intros u r3 (N & L3 & P3). specialize (L2 N). rewrite E2, E1 in P3. split; [lia|done]. }
  repeat match goal with |- wp (if ?b then _ else _) _ _ => destruct b end; try apply wp_throw;
    try (apply wp_then_leaf; [|done|done]; apply wp_cbor_argument || apply wp_get_number || (by apply cbor_binary_safe) || (eapply wp_mono; [by apply cbor_string_safe|]; by intros ? ? [_ ?]));
    try (by apply wp_leaf).
  - apply wp_quiet_then; [apply wp_cbor_argument|]. intros len r1 [L1 E1]. apply cbor_array_safe; [exact IH|lia|congruence].
  - apply cbor_array_safe; [exact IH|lia|done].
  - apply wp_quiet_then; [apply wp_cbor_argument|]. intros len r1 [L1 E1]. apply cbor_object_safe; [exact IH|lia|congruence].
  - apply cbor_object_safe; [exact IH|lia|done].
  - assert (Hq : wp (c ← get; parse_cbor_internal fuel h c) (read_one r) r) by (apply Hrec; done).
    destruct h; [apply wp_throw| |].
    + apply wp_bind. apply (wp_mono _ (quiet r)); [|intros [] r1 Q1; by apply Hrec].
      destruct (0xD8 <=? c); [|by apply wp_ret]. apply wp_quiet_bind; [apply wp_get_number|]. intros t r1 _. by apply wp_ret.
    + destruct (0xD8 <=? c); [|done]. apply wp_quiet_then; [apply wp_get_number|]. intros t r1 [L1 E1]. apply (wp_turn fuel); [lia|lia|].
      intros c2 r2 F2 Q2 _. eapply wp_mono; [apply wp_then_leaf; [by apply cbor_binary_safe|done|destruct Q2; congruence]|].
      intros u r3 P3. by eapply read_one_quiet.
  - apply wp_quiet_then; [apply wp_get_number|]. intros byte1 r1 [L1 E1]. apply wp_then_leaf; [apply wp_get_number|done|congruence].
Qed.

(** C26: Whatever bytes and tag handler it is given, the CBOR reader ends; it calls the handler in an order the handler
    expects, and gives a value, a parse error or, for a container of impossible size, out_of_range. *)
Theorem cbor_reader_safe (h : cbor_tag_handler) (bytes : list Z) :
  match from_cbor h bytes with Ok _ => True | Throw e => read_error e end.
Proof.
  apply sax_parse_safe. intros r <- Hr. apply (wp_turn (length (input r) + 2)); [lia|lia|]. intros c r1 F1 [L1 E1] L2.
  eapply wp_mono; [apply parse_cbor_safe; [done|congruence]|]. intros u r2 (_ & L3 & P3). rewrite E1 in P3. split; [lia|done].
Qed.

(** ** Writing and reading back *)

Lemma cbor_head_read base n : 0 <= base <= 0xA0 -> 0 <= n < 2 ^ 64 -> exists b tl, cbor_head base n = b :: tl /\ base <= b <= base + 0x1B /\
  takes (cbor_argument (b - base)) tl n.
Proof.
  intros Hb Hn. unfold cbor_head. destruct (Z.leb_spec n 0x17).
  { exists (base + n), []. rewrite be_byte by lia. split; [done|]. split; [lia|]. unfold cbor_argument. rewrite Z.add_simpl_l. by branch. }
  assert (Hk : forall k, 0 <= n < 256 ^ Z.of_nat k -> takes (get_number (Z.of_nat k)) (be_bytes k n) n) by (intros k; apply get_be_takes).
  destruct (Z.leb_spec n 0xFF); [|destruct (Z.leb_spec n 0xFFFF); [|destruct (Z.leb_spec n 0xFFFFFFFF)]]; eexists _, _;
    (split; [reflexivity|]); (split; [lia|]); rewrite Z.add_simpl_l; [apply (Hk 1%nat)|apply (Hk 2%nat)|apply (Hk 4%nat)|apply (Hk 8%nat)]; split; try lia.
Qed.

Lemma cbor_bytes_read fuel base bs : 0 <= base <= 0xA0 -> Z.of_nat (length bs) < 2 ^ 64 -> exists b tl, cbor_head base (Z.of_nat (length bs)) = b :: tl /\ base <= b <= base + 0x1B /\
  takes (get_cbor_bytes (S fuel) base (Some b)) (tl ++ bs) bs.
Proof.
  intros Hb Hn. destruct (cbor_head_read base (Z.of_nat (length bs))) as (b & tl & E & R & H); [done|lia|]. exists b, tl. split; [done|]. split; [done|].
  cbn [get_cbor_bytes]. branch. eapply takes_bind; [exact H|]. by apply get_binary_takes.
Qed.

Lemma cbor_string_read fuel s : Z.of_nat (String.length s) < 2 ^ 64 -> exists b tl, cbor_string s = b :: tl /\ 0x60 <= b <= 0x7B /\
  takes (get_cbor_string (S fuel) (Some b)) tl s.
Proof.
  intros Hn. rewrite <- bytes_of_length in Hn. destruct (cbor_bytes_read fuel 0x60 (bytes_of s)) as (b & tl & E & R & H); [lia|done|].
  exists b, (tl ++ bytes_of s). unfold cbor_string. rewrite <- bytes_of_length, E. split; [done|]. split; [lia|].
  rewrite <- (string_of_bytes_of s) at 2. by apply takes_fmap.
Qed.

(** What a handler makes of a tag. *)
Definition tag_view (h : cbor_tag_handler) (t : Z) : option Z := match h with tag_store => Some t | _ => None end.

Lemma cbor_integer_read fuel h z : - 2 ^ 63 <= z < 2 ^ 64 -> reads_value (c ← get; parse_cbor_internal (S fuel) h c) (cbor_integer z) (JInt z).
Proof.
  intros Hz. unfold cbor_integer. destruct (Z.leb_spec 0 z).
  - destruct (cbor_head_read 0x00 z) as (b & tl & -> & R & H1); [lia|lia|]. apply (takes_value get [b] (Some b)); [apply get_takes|]. cbn [parse_cbor_internal].
    branch. rewrite Z.sub_0_r in H1. by eapply takes_leaf.
  - destruct (cbor_head_read 0x20 (-1 - z)) as (b & tl & -> & R & H1); [lia|lia|]. apply (takes_value get [b] (Some b)); [apply get_takes|]. cbn [parse_cbor_internal].
    do 2 branch. eapply takes_leaf; [exact H1|done|]. cbn [leaf_value]. f_equal. unfold s64. rewrite Z.mod_small by lia. lia.
Qed.

Lemma cbor_float_read fuel h x : float_ok x -> reads_value (c ← get; parse_cbor_internal (S fuel) h c) (cbor_float x) (JFloat x).
Proof.
  intros Hx. assert (Hc : reads_value (c ← get; parse_cbor_internal (S fuel) h c) (write_compact_float 0xFA 0xFB x) (JFloat x)).
  { destruct (compact_float_read 0xFA 0xFB x Hx) as (bs & [(-> & L & E)|(-> & L & E)]).
    - apply (takes_value get [0xFA] (Some 0xFA)); [apply get_takes|]. apply (takes_leaf _ _ bs (of_be bs)); [apply get_number_takes; by rewrite L|done|]. cbn [leaf_value]. by rewrite E.
    - apply (takes_value get [0xFB] (Some 0xFB)); [apply get_takes|]. apply (takes_leaf _ _ bs (of_be bs)); [apply get_number_takes; by rewrite L|done|]. cbn [leaf_value]. by rewrite E. }
  assert (Hh : forall b1 b2, reads_value (c ← get; parse_cbor_internal (S fuel) h c) [0xF9; b1; b2] (JFloat (half_float (Z.shiftl (of_be [b1]) 8 + of_be [b2])))).
  { intros b1 b2. apply (takes_value get [0xF9] (Some 0xF9)); [apply get_takes|]. apply (takes_value (get_number 1) [b1] (of_be [b1])); [by apply get_number_takes|].
    apply (takes_leaf (get_number 1) (fun byte2 => ev_number_float (half_float (Z.shiftl (of_be [b1]) 8 + byte2))) [b2] (of_be [b2])); [by apply get_number_takes|done|done]. }
  destruct x as [s|[]| |s m e]; try exact Hc; [apply (Hh 0xFC 0)|apply (Hh 0x7C 0)|apply (Hh 0x7E 0)].
Qed.

Lemma cbor_binary_read fuel h bs st : (h = tag_error -> st = None) -> Z.of_nat (length bs) < 2 ^ 64 -> (forall t, st = Some t -> 0 <= t < 2 ^ 64) ->
  reads_value (c ← get; parse_cbor_internal (S (S fuel)) h c) (cbor_binary bs st) (JBinary bs (st ≫= tag_view h)).
Proof.
  intros Hh Hn Ht. unfold cbor_binary.
  assert (Hb : forall fuel, reads_value (c ← get; parse_cbor_internal (S fuel) h c) (cbor_head 0x40 (Z.of_nat (length bs)) ++ bs) (JBinary bs None)).
  { clear fuel. intros fuel. destruct (cbor_bytes_read fuel 0x40 bs) as (b & tl & -> & R & H); [lia|done|]. apply (takes_value get [b] (Some b)); [apply get_takes|].
    cbn [parse_cbor_internal]. do 3 branch. by eapply takes_leaf. }
  destruct st as [t|]; [|exact (Hb _)]. specialize (Ht t eq_refl).
  assert (exists b tl, cbor_tag t = b :: tl /\ 0xD8 <= b <= 0xDB /\ takes (cbor_tag_number b) tl t) as (b & tl & -> & R & H).
  { assert (Hk : forall k, 0 <= t < 256 ^ Z.of_nat k -> takes (get_number (Z.of_nat k)) (be_bytes k t) t) by (intros k; apply get_be_takes). unfold cbor_tag.
    destruct (Z.leb_spec t 0xFF); [|destruct (Z.leb_spec t 0xFFFF); [|destruct (Z.leb_spec t 0xFFFFFFFF)]]; eexists _, _;
      (split; [reflexivity|]); (split; [lia|]); [apply (Hk 1%nat)|apply (Hk 2%nat)|apply (Hk 4%nat)|apply (Hk 8%nat)]; split; try lia. }
  apply (takes_value get [b] (Some b)); [apply get_takes|]. cbn [parse_cbor_internal]. unfold is_tag. do 9 branch. destruct h.
  - by specialize (Hh eq_refl).
  - branch. apply (takes_value _ tl tt); [|exact (Hb _)]. intros rest d. cbv [mbind M_bind]. by rewrite H.
  - branch. apply (takes_value _ tl t); [exact H|]. destruct (cbor_bytes_read fuel 0x40 bs) as (b2 & tl2 & -> & _ & H2); [lia|done|].
    apply (takes_value get [b2] (Some b2)); [apply get_takes|]. by eapply takes_leaf.
Qed.

Lemma write_cbor_nonempty j : (0 < length (write_cbor j))%nat.
Proof.
  assert (H : forall base n, (0 < length (cbor_head base n))%nat) by (intros; unfold cbor_head; repeat case_match; cbn; lia).
  destruct j as [|fields|items|s|b|z|x|bs st]; cbn [write_cbor]; try (cbn; lia); unfold cbor_string, cbor_binary, cbor_integer; rewrite ?length_app.
  1-3: match goal with |- context [cbor_head ?b ?n] => specialize (H b n) end; lia.
  - destruct (0 <=? z); apply H.
  - destruct x; cbn; try lia; unfold write_compact_float; case_match; cbn; lia.
  - specialize (H 0x40 (Z.of_nat (length bs))). lia.
Qed.

Lemma cbor_field_written fuel h k v w : Z.of_nat (String.length k) < 2 ^ 64 -> reads_value (c ← get; parse_cbor_internal (S fuel) h c) (write_cbor v) w ->
  reads_field (c ← get; cbor_field (S fuel) (parse_cbor_internal (S fuel) h) c) (cbor_string k ++ write_cbor v) (k, w).
Proof.
  intros Hk Hv. destruct (cbor_string_read fuel k Hk) as (b & tl & -> & _ & H). apply (takes_field get [b] (Some b)); [apply get_takes|].
  eapply takes_field; [exact H|]. by apply key_value_field.
Qed.

Lemma untagged_items items v : untagged (JArray items) = true -> In v items -> untagged v = true.
Proof. cbn [untagged]. rewrite forallb_forall. auto. Qed.

Lemma untagged_fields fields kv : untagged (JObject fields) = true -> In kv fields -> untagged kv.2 = true.
Proof. cbn [untagged]. rewrite forallb_forall. auto. Qed.

Lemma cbor_written h j : forall fuel, binary_value (2 ^ 64 - 1) (2 ^ 64) j = true -> (h = tag_error -> untagged j = true) -> (length (write_cbor j) < fuel)%nat ->
  reads_value (c ← get; parse_cbor_internal fuel h c) (write_cbor j) (subtypes (tag_view h) j).
Proof.
  pose proof max_sizes as Hmax.
  induction j as [|fields IH|items IH|s|b|z|x|bs st] using json_nested_ind; intros [|fuel] Hv Hh Hf; try lia; cbn [subtypes].
  - apply (takes_value get [0xF6] (Some 0xF6)); [apply get_takes|]. by apply leaf_read.
  - apply value_fields in Hv as (Hs & Hl & Hm & Hv). cbn [write_cbor] in Hf |- *. destruct (cbor_head_read 0xA0 (Z.of_nat (length fields))) as (b & tl & E & R & H); [lia|lia|].
    rewrite E in Hf |- *. cbn [length app] in Hf. rewrite length_app in Hf. apply (takes_value get [b] (Some b)); [apply get_takes|]. cbn [parse_cbor_internal]. do 7 branch.
    eapply takes_value; [exact H|]. cbn beta. unfold get_cbor_object. destruct (Z.eqb_spec (Z.of_nat (length fields)) unknown_size) as [Eu|_]; [unfold unknown_size in Eu; lia|].
    apply (members_read (fun kv => cbor_string kv.1 ++ write_cbor kv.2)); [|..|lia|done|by rewrite subtypes_keys].
    + intros [k v] _. rewrite length_app. pose proof (write_cbor_nonempty v). cbn [snd]. lia.
    + intros [k v] Hin. destruct (Hv _ Hin) as [Hk Hvv]. pose proof (concat_parts (fun kv => cbor_string kv.1 ++ write_cbor kv.2) fields (k, v) Hin) as Hp.
      cbn [fst snd] in *. rewrite length_app in Hp. destruct fuel as [|fuel]; [lia|]. apply cbor_field_written; [lia|].
      rewrite Forall_forall in IH. apply (IH (k, v)); [by apply list_elem_of_In|done| |cbn [snd]; lia]. intros He. by apply (untagged_fields fields (k, v)); [apply Hh|].
  - apply value_items in Hv as (Hl & Hm & Hv). cbn [write_cbor] in Hf |- *. destruct (cbor_head_read 0x80 (Z.of_nat (length items))) as (b & tl & E & R & H); [lia|lia|].
    rewrite E in Hf |- *. cbn [length app] in Hf. rewrite length_app in Hf. apply (takes_value get [b] (Some b)); [apply get_takes|]. cbn [parse_cbor_internal]. do 5 branch.
    eapply takes_value; [exact H|]. cbn beta. unfold get_cbor_array. destruct (Z.eqb_spec (Z.of_nat (length items)) unknown_size) as [Eu|_]; [unfold unknown_size in Eu; lia|].
    apply (elements_read write_cbor); [intros v _; apply write_cbor_nonempty| |lia|done]. intros v Hin. pose proof (concat_parts write_cbor items v Hin) as Hp.
    rewrite Forall_forall in IH. apply IH; [by apply list_elem_of_In|by apply Hv| |lia]. intros He. by apply (untagged_items items); [apply Hh|].
  - cbn [binary_value] in Hv. destruct (cbor_string_read fuel s) as (b & tl & E & R & H); [lia|]. cbn [write_cbor]. rewrite E. apply (takes_value get [b] (Some b)); [apply get_takes|].
    cbn [parse_cbor_internal]. do 4 branch. by eapply takes_leaf.
  - destruct b; [apply (takes_value get [0xF5] (Some 0xF5))|apply (takes_value get [0xF4] (Some 0xF4))]; try apply get_takes; by apply leaf_read.
  - cbn [binary_value] in Hv. apply cbor_integer_read. lia.
  - cbn [binary_value] in Hv. apply cbor_float_read. unfold float_ok. intros Hx. by rewrite Hx in Hv.
  - pose proof (write_cbor_nonempty (JBinary bs st)). destruct fuel as [|fuel]; [lia|]. cbn [binary_value] in Hv.
    apply andb_true_iff in Hv as [[H1 _]%andb_true_iff H2]. destruct st as [t|].
    + apply (cbor_binary_read fuel h bs (Some t)); [|lia|intros ? [= <-]; lia]. intros He. by specialize (Hh He).
    + by apply (cbor_binary_read fuel h bs None); [|lia|].
Qed.

Lemma from_cbor_written h j : binary_value (2 ^ 64 - 1) (2 ^ 64) j = true -> (h = tag_error -> untagged j = true) ->
  from_cbor h (to_cbor j) = Ok (subtypes (tag_view h) j).
Proof. intros Hv Hh. apply sax_parse_written, cbor_written; [done|done|]. unfold to_cbor. lia. Qed.

(** C25: A value written as CBOR reads back as the same value when tags are stored, without the subtypes of its byte strings
    when they are ignored, and as the same value when tags are errors and it has no subtypes. *)
Theorem cbor_roundtrip (j : json) : binary_value (2 ^ 64 - 1) (2 ^ 64) j = true ->
  from_cbor tag_store (to_cbor j) = Ok j /\
  from_cbor tag_ignore (to_cbor j) = Ok (subtypes (fun _ => None) j) /\
  (untagged j = true -> from_cbor tag_error (to_cbor j) = Ok j).
Proof.
  intros Hv. split_and!.
  - rewrite from_cbor_written by done. f_equal. apply subtypes_same.
  - by rewrite from_cbor_written.
  - intros Hu. rewrite from_cbor_written by done. f_equal. by apply subtypes_untagged.
Qed.

(** A value with every kind of part. *)
Definition sample : json :=
  JObject [("bytes", JBinary [0; 255] (Some 70000)); ("list", JArray [JNull; JBool true; JInt (-500); JInt (2 ^ 64 - 1); JFloat S754_nan; JFloat (S754_infinity true)]);
           ("x", JArray [JFloat (S754_finite false (2 ^ 52) (-52)); JFloat (S754_finite true 7205759403792794 (-56)); JFloat (S754_zero true); JString (string_of [0xFF; 0])])].

Lemma cbor_roundtrip_witness : from_cbor tag_store (to_cbor sample) = Ok sample /\ from_cbor tag_ignore (to_cbor sample) <> Ok sample.
Proof.
  assert (Hv : binary_value (2 ^ 64 - 1) (2 ^ 64) sample = true) by (vm_compute; reflexivity).
  destruct (cbor_roundtrip sample Hv) as (H1 & H2 & _). split; [exact H1|]. rewrite H2. vm_compute. discriminate.
Defined.

(** A negative number of CBOR below the range of 64 bits, -1 - n for n from 2^63 on, is read as the number 2^64 - 1 - n,
    which is not negative, and without an error. *)
Theorem cbor_negative_wraps (h : cbor_tag_handler) (n : Z) : 2 ^ 63 <= n < 2 ^ 64 -> from_cbor h (0x3B :: be_bytes 8 n) = Ok (JInt (2 ^ 64 - 1 - n)).
Proof.
  intros Hn. apply sax_parse_written. cbn [length Nat.add]. apply (takes_value get [0x3B] (Some 0x3B)); [apply get_takes|].
  apply (takes_leaf (get_number 8) (fun n => ev_number_integer (-1 - s64 n)) _ n); [apply (get_be_takes 8); lia|done|]. cbn [leaf_value]. f_equal.
  unfold s64. rewrite <- (Z.mod_unique (n + 2 ^ 63) (2 ^ 64) 1 (n - 2 ^ 63)); lia.
Qed.

Lemma cbor_negative_wraps_witness : from_cbor tag_error (0x3B :: be_bytes 8 (2 ^ 64 - 1)) = Ok (JInt 0).
Proof. apply (cbor_negative_wraps tag_error (2 ^ 64 - 1)). lia. Defined.
