(* ===== verification/JsonMsgpack.v ===== *)
(** * json.hpp: MessagePack

    [write_msgpack], the reader [parse_msgpack_internal] with its strings, byte strings and containers, and
    [to_msgpack]/[from_msgpack]. *)

From S2P Require Import Prelude Str Json Numbers JsonText JsonSpec JsonWf JsonOps JsonBinary.
From Stdlib Require Import Ascii SpecFloat.
From Stdlib Require String.

Local Open Scope string_scope.
Local Open Scope Z_scope.
Local Open Scope list_scope.

(** ** Writing *)

Definition msgpack_integer (z : Z) : list Z :=
  if 0 <=? z then
    if z <? 128 then be_bytes 1 z
    else if z <=? 0xFF then 0xCC :: be_bytes 1 z
    else if z <=? 0xFFFF then 0xCD :: be_bytes 2 z
    else if z <=? 0xFFFFFFFF then 0xCE :: be_bytes 4 z
    else 0xCF :: be_bytes 8 z
  else if -32 <=? z then be_bytes 1 z
  else if - 2 ^ 7 <=? z then 0xD0 :: be_bytes 1 z
  else if - 2 ^ 15 <=? z then 0xD1 :: be_bytes 2 z
  else if - 2 ^ 31 <=? z then 0xD2 :: be_bytes 4 z
  else 0xD3 :: be_bytes 8 z.

(** A string of 2^32 bytes or more has no first byte and no size. *)
Definition msgpack_string (s : string) : list Z :=
  let N := Z.of_nat (String.length s) in
  (if N <=? 31 then be_bytes 1 (Z.lor 0xA0 N)
   else if N <=? 0xFF then 0xD9 :: be_bytes 1 N
   else if N <=? 0xFFFF then 0xDA :: be_bytes 2 N
   else if N <=? 0xFFFFFFFF then 0xDB :: be_bytes 4 N
   else []) ++ bytes_of s.

(** The size of an array or an object, from the first byte of the short form and the one of the others. *)
Definition msgpack_size (fix_ first N : Z) : list Z :=
  if N <=? 15 then be_bytes 1 (Z.lor fix_ N)
  else if N <=? 0xFFFF then first :: be_bytes 2 N
  else if N <=? 0xFFFFFFFF then first + 1 :: be_bytes 4 N
  else [].

(** The first bytes of a byte string; with a subtype of an extension. *)
Definition msgpack_binary_head (use_ext : bool) (N : Z) : list Z :=
  if N <=? 0xFF then
    if use_ext then
      if N =? 1 then [0xD4]
      else if N =? 2 then [0xD5]
      else if N =? 4 then [0xD6]
      else if N =? 8 then [0xD7]
      else if N =? 16 then [0xD8]
      else 0xC7 :: be_bytes 1 N
    else 0xC4 :: be_bytes 1 N
  else if N <=? 0xFFFF then (if use_ext then 0xC8 else 0xC5) :: be_bytes 2 N
  else if N <=? 0xFFFFFFFF then (if use_ext then 0xC9 else 0xC6) :: be_bytes 4 N
  else [].

Definition msgpack_binary (bs : list Z) (st : option Z) : list Z :=
  match st with
  | Some t => msgpack_binary_head true (Z.of_nat (length bs)) ++ be_bytes 1 t
  | None => msgpack_binary_head false (Z.of_nat (length bs))
  end ++ bs.

Fixpoint write_msgpack (j : json) : list Z :=
  match j with
  | JNull => [0xC0]
  | JBool b => [if b then 0xC3 else 0xC2]
  | JInt z => msgpack_integer z
  | JFloat x => write_compact_float 0xCA 0xCB x
  | JString s => msgpack_string s
  | JArray items => msgpack_size 0x90 0xDC (Z.of_nat (length items)) ++ concat (map write_msgpack items)
  | JBinary bs st => msgpack_binary bs st
  | JObject fields => msgpack_size 0x80 0xDE (Z.of_nat (length fields)) ++ concat (map (fun kv => msgpack_string kv.1 ++ write_msgpack kv.2) fields)
  end.

Definition to_msgpack (j : json) : list Z := write_msgpack j.

(** ** Reading *)

Definition get_msgpack_string (c : option Z) : M reader string :=
  match c with
  | None => throwM json_parse_error
  | Some c =>
      if (0xA0 <=? c) && (c <=? 0xBF) then get_string (Z.land c 0x1F)
      else if c =? 0xD9 then len ← get_number 1; get_string len
      else if c =? 0xDA then len ← get_number 2; get_string len
      else if c =? 0xDB then len ← get_number 4; get_string len
      else throwM json_parse_error
  end.

(** The subtype is kept as an unsigned byte. *)
Definition ext_binary (len : Z) : M reader (list Z * option Z) :=
  subtype ← get_signed 1; b ← get_binary len; mret (b, Some (u8 subtype)).

Definition plain_binary (len : Z) : M reader (list Z * option Z) := b ← get_binary len; mret (b, None).

Definition get_msgpack_binary (c : Z) : M reader (list Z * option Z) :=
  if c =? 0xC4 then len ← get_number 1; plain_binary len
  else if c =? 0xC5 then len ← get_number 2; plain_binary len
  else if c =? 0xC6 then len ← get_number 4; plain_binary len
  else if c =? 0xC7 then len ← get_number 1; ext_binary len
  else if c =? 0xC8 then len ← get_number 2; ext_binary len
  else if c =? 0xC9 then len ← get_number 4; ext_binary len
  else if c =? 0xD4 then ext_binary 1
  else if c =? 0xD5 then ext_binary 2
  else if c =? 0xD6 then ext_binary 4
  else if c =? 0xD7 then ext_binary 8
  else ext_binary 16.

Definition get_msgpack_array (fuel : nat) (value : M reader unit) (len : Z) : M reader unit :=
  emit (ev_start_array len);; repeat_read fuel len value;; emit ev_end_array.

Definition msgpack_field (value : M reader unit) : M reader unit :=
  c ← get; key ← get_msgpack_string c; emit (ev_key key);; value.

Definition get_msgpack_object (fuel : nat) (value : M reader unit) (len : Z) : M reader unit :=
  emit (ev_start_object len);; repeat_read fuel len (msgpack_field value);; emit ev_end_object.

Fixpoint parse_msgpack_internal (fuel : nat) : M reader unit :=
  match fuel with
  | O => throwM undefined_behavior
  | S fuel =>
      c ← get;
      match c with
      | None => throwM json_parse_error
      | Some c =>
          if c <=? 0x7F then emit (ev_number_unsigned c)
          else if c <=? 0x8F then get_msgpack_object fuel (parse_msgpack_internal fuel) (Z.land c 0x0F)
          else if c <=? 0x9F then get_msgpack_array fuel (parse_msgpack_internal fuel) (Z.land c 0x0F)
          else if (c <=? 0xBF) || (0xD9 <=? c) && (c <=? 0xDB) then s ← get_msgpack_string (Some c); emit (ev_string s)
          else if c =? 0xC0 then emit ev_null
          else if c =? 0xC2 then emit (ev_boolean false)
          else if c =? 0xC3 then emit (ev_boolean true)
          else if (0xC4 <=? c) && (c <=? 0xC9) || (0xD4 <=? c) && (c <=? 0xD8) then b ← get_msgpack_binary c; emit (ev_binary b.1 b.2)
          else if c =? 0xCA then n ← get_number 4; emit (ev_number_float (double_of_float (float_of_bits n)))
          else if c =? 0xCB then n ← get_number 8; emit (ev_number_float (double_of_bits n))
          else if c =? 0xCC then n ← get_number 1; emit (ev_number_unsigned n)
          else if c =? 0xCD then n ← get_number 2; emit (ev_number_unsigned n)
          else if c =? 0xCE then n ← get_number 4; emit (ev_number_unsigned n)
          else if c =? 0xCF then n ← get_number 8; emit (ev_number_unsigned n)
          else if c =? 0xD0 then n ← get_signed 1; emit (ev_number_integer n)
          else if c =? 0xD1 then n ← get_signed 2; emit (ev_number_integer n)
          else if c =? 0xD2 then n ← get_signed 4; emit (ev_number_integer n)
          else if c =? 0xD3 then n ← get_signed 8; emit (ev_number_integer n)
          else if c =? 0xDC then len ← get_number 2; get_msgpack_array fuel (parse_msgpack_internal fuel) len
          else if c =? 0xDD then len ← get_number 4; get_msgpack_array fuel (parse_msgpack_internal fuel) len
          else if c =? 0xDE then len ← get_number 2; get_msgpack_object fuel (parse_msgpack_internal fuel) len
          else if c =? 0xDF then len ← get_number 4; get_msgpack_object fuel (parse_msgpack_internal fuel) len
          else if (0xE0 <=? c) && (c <=? 0xFF) then emit (ev_number_integer (c - 256))
          else throwM json_parse_error
      end
  end.

Definition from_msgpack (bytes : list Z) : res json := sax_parse (parse_msgpack_internal (length bytes + 1)) bytes.

(** ** The reader is safe *)

Lemma wp_sized {A} n (k : Z -> M reader A) r : (forall len r1, wp (k len) (quiet r1) r1) -> wp (len ← get_number n; k len) (quiet r) r.
Proof. intros Hk. apply wp_quiet_bind; [apply wp_get_number|]. intros len r1 _. apply Hk. Qed.

Lemma wp_msgpack_string c r : wp (get_msgpack_string c) (fun s r' => c <> None /\ quiet r s r') r.
Proof.
  destruct c as [c|]; [|apply wp_throw]. eapply wp_mono; [|intros a r' H; split; [done|exact H]]. unfold get_msgpack_string.
  repeat match goal with |- wp (if ?b then _ else _) _ _ => destruct b end; try apply wp_throw; try apply wp_sized; intros; apply wp_get_string.
Qed.

Lemma wp_ext_binary len r : wp (ext_binary len) (quiet r) r.
Proof. apply wp_quiet_bind; [apply wp_get_signed|]. intros t r1 _. apply wp_quiet_bind; [apply wp_get_binary|]. intros b r2 _. by apply wp_ret. Qed.

Lemma wp_plain_binary len r : wp (plain_binary len) (quiet r) r.
Proof. apply wp_quiet_bind; [apply wp_get_binary|]. intros b r2 _. by apply wp_ret. Qed.

Lemma wp_msgpack_binary c r : wp (get_msgpack_binary c) (quiet r) r.
Proof.
  unfold get_msgpack_binary. repeat match goal with |- wp (if ?b then _ else _) _ _ => destruct b end;
    try (apply wp_sized; intros); apply wp_ext_binary || apply wp_plain_binary.
Qed.

(** A value, and at least a byte of it. *)
Definition read_some (r : reader) (a : unit) (r' : reader) : Prop := read_one r a r' /\ (length (input r') < length (input r))%nat.

Section containers.
  Context (fuel : nat) (value : M reader unit).
  Context (value_safe : forall r, (length (input r) < fuel)%nat -> ready (handler r) -> wp value (read_some r) r).

Lemma msgpack_array_safe len r : (length (input r) < fuel)%nat -> ready (handler r) -> wp (get_msgpack_array fuel value len) (read_one r) r.
Proof.
  intros Hf Hr. apply wp_array; [done|]. intros r1 E1 S1. rewrite <- E1 in Hf.
  assert (R1 : same_place (handler r1) (handler r1)) by (apply same_place_refl; unfold ready; by rewrite S1).
  eapply wp_mono; [apply (wp_repeat (same_place (handler r1))); [done|done|]|by intros a r' [? ?]].
  intros r2 P2 L2. eapply wp_mono; [apply value_safe; [lia|by eapply same_place_ready]|]. intros a r3 [[L3 P3] L4]. split; [by eapply same_place_trans|done].
Qed.

Lemma msgpack_field_safe st r : (length (input r) < fuel)%nat -> in_object st (handler r) ->
  wp (msgpack_field value) (fun _ r' => in_object st (handler r') /\ (length (input r') < length (input r))%nat) r.
Proof.
  intros Hf Ho. apply (wp_turn fuel); [done|lia|]. intros c r1 _ [L1 E1] _. apply wp_bind. eapply wp_mono; [apply wp_msgpack_string|]. intros s r2 (_ & L2 & E2).
  apply wp_bind. eapply wp_mono; [apply wp_key; rewrite E2, E1; exact Ho|]. intros _ r3 (E3 & R3 & P3). eapply wp_mono; [apply value_safe; [rewrite E3; lia|done]|].
  intros _ r4 [[_ P4] L4]. rewrite E3 in L4. split; [by apply P3|lia].
Qed.

Lemma msgpack_object_safe len r : (length (input r) < fuel)%nat -> ready (handler r) -> wp (get_msgpack_object fuel value len) (read_one r) r.
Proof.
  intros Hf Hr. apply wp_object; [done|]. intros r1 E1 S1. rewrite <- E1 in Hf. set (st := ref_stack (handler r)) in *.
  eapply wp_mono; [apply (wp_repeat (in_object st)); [done|done|]|by intros a r' [? ?]]. intros r2 P2 L2. apply msgpack_field_safe; [lia|done].
Qed.
End containers.

Lemma parse_msgpack_safe fuel : forall r, (length (input r) < fuel)%nat -> ready (handler r) -> wp (parse_msgpack_internal fuel) (read_some r) r.
Proof.
  induction fuel as [|fuel IH]; intros r Hf Hr; [lia|]. cbn [parse_msgpack_internal]. apply wp_bind, wp_get; [intros _; apply wp_throw|].
  intros c r1 L1 E1. assert (Hr1 : ready (handler r1)) by congruence. apply (wp_mono _ (read_one r1)); [|intros a r2 [L2 P2]; rewrite E1 in P2; split; [split; [lia|done]|lia]].
  repeat match goal with |- wp (if ?b then _ else _) _ _ => destruct b end; try apply wp_throw; try (by apply wp_leaf);
    try (apply wp_then_leaf; [|done|done]; first [apply wp_get_number|apply wp_get_signed|apply wp_msgpack_binary|eapply wp_mono; [apply wp_msgpack_string|]; by intros ? ? [_ ?]]);
    try (apply wp_quiet_then; [apply wp_get_number|]; intros len r2 [L2 E2]; assert (ready (handler r2)) by congruence);
    (apply msgpack_array_safe || apply msgpack_object_safe); try exact IH; try done; lia.
Qed.

(** Whatever bytes it is given, the MessagePack reader ends; it calls the handler in an order the handler expects, and
    gives a value, a parse error or, for a container of impossible size, out_of_range. *)
Theorem msgpack_reader_safe (bytes : list Z) : match from_msgpack bytes with Ok _ => True | Throw e => read_error e end.
Proof. apply sax_parse_safe. intros r <- Hr. eapply wp_mono; [apply parse_msgpack_safe; [lia|done]|]. by intros u r' [? _]. Qed.

(** ** Writing and reading back *)

Lemma lor_add n : 0 <= n <= 31 -> Z.lor 0xA0 n = 0xA0 + n /\ Z.land (0xA0 + n) 0x1F = n.
Proof.
  intros H. pose proof (forall_below 32 (fun n => (Z.lor 0xA0 n =? 0xA0 + n) && (Z.land (0xA0 + n) 0x1F =? n)) ltac:(by vm_compute) n). lia.
Qed.

Lemma lor_add_size fix_ n : fix_ = 0x80 \/ fix_ = 0x90 -> 0 <= n <= 15 -> Z.lor fix_ n = fix_ + n /\ Z.land (fix_ + n) 0x0F = n.
Proof.
  intros H Hn. pose proof (forall_below 16 (fun n => (Z.lor 0x80 n =? 0x80 + n) && (Z.land (0x80 + n) 0xF =? n) && (Z.lor 0x90 n =? 0x90 + n) && (Z.land (0x90 + n) 0xF =? n)) ltac:(by vm_compute) n).
  destruct H as [-> | ->]; lia.
Qed.

Lemma msgpack_integer_read fuel z : - 2 ^ 63 <= z < 2 ^ 64 -> reads_value (parse_msgpack_internal (S fuel)) (msgpack_integer z) (JInt z).
Proof.
  intros Hz. assert (Hu : forall k, 0 <= z < 256 ^ Z.of_nat k -> takes (get_number (Z.of_nat k)) (be_bytes k z) z) by (intros k; apply get_be_takes).
  assert (Hs : forall k, (0 < k)%nat -> - 2 ^ (8 * Z.of_nat k - 1) <= z < 2 ^ (8 * Z.of_nat k - 1) -> takes (get_signed (Z.of_nat k)) (be_bytes k z) z) by (intros k; apply signed_takes).
  unfold msgpack_integer. destruct (Z.leb_spec 0 z).
  - destruct (Z.ltb_spec z 128).
    { rewrite be_byte by lia. apply (takes_value get [z] (Some z)); [apply get_takes|]. branch. by apply leaf_read. }
    destruct (Z.leb_spec z 0xFF); [|destruct (Z.leb_spec z 0xFFFF); [|destruct (Z.leb_spec z 0xFFFFFFFF)]];
      (eapply (takes_value get [_] (Some _)); [apply get_takes|]; eapply takes_leaf; [|done|done]); [apply (Hu 1%nat)|apply (Hu 2%nat)|apply (Hu 4%nat)|apply (Hu 8%nat)]; split; try lia.
  - destruct (Z.leb_spec (-32) z).
    { assert (be_bytes 1 z = [256 + z]) as -> by (unfold be_bytes; cbn; by rewrite <- (Z.mod_unique z 256 (-1) (256 + z)) by lia).
      apply (takes_value get [256 + z] (Some (256 + z))); [apply get_takes|]. do 23 branch. apply leaf_read; [done|]. cbn [leaf_value]. f_equal. lia. }
    destruct (Z.leb_spec (- 2 ^ 7) z); [|destruct (Z.leb_spec (- 2 ^ 15) z); [|destruct (Z.leb_spec (- 2 ^ 31) z)]];
      (eapply (takes_value get [_] (Some _)); [apply get_takes|]; eapply takes_leaf; [|done|done]); [apply (Hs 1%nat)|apply (Hs 2%nat)|apply (Hs 4%nat)|apply (Hs 8%nat)]; cbn; lia.
Qed.

Lemma msgpack_string_read s : Z.of_nat (String.length s) < 2 ^ 32 -> exists b tl, msgpack_string s = b :: tl /\ (0xA0 <= b <= 0xBF \/ 0xD9 <= b <= 0xDB) /\
  takes (get_msgpack_string (Some b)) tl s.
Proof.
  intros Hn. unfold msgpack_string. set (N := Z.of_nat (String.length s)) in *.
  assert (Hu : forall k, 0 <= N < 256 ^ Z.of_nat k -> takes (get_number (Z.of_nat k)) (be_bytes k N) N) by (intros k; apply get_be_takes).
  assert (Hs : takes (get_string N) (bytes_of s) s) by (by apply get_string_takes).
  destruct (Z.leb_spec N 31).
  { destruct (lor_add N) as [E1 E2]; [lia|]. exists (0xA0 + N), (bytes_of s). rewrite E1, be_byte by lia. split; [done|]. split; [lia|].
    unfold get_msgpack_string. branch. by rewrite E2. }
  destruct (Z.leb_spec N 0xFF); [|destruct (Z.leb_spec N 0xFFFF); [|destruct (Z.leb_spec N 0xFFFFFFFF); [|lia]]];
    (eexists _, _; split; [reflexivity|]; split; [lia|]; eapply takes_bind; [|exact Hs]); [apply (Hu 1%nat)|apply (Hu 2%nat)|apply (Hu 4%nat)]; split; try lia.
Qed.

(** The size of a container, and the container. *)
Lemma msgpack_size_read (array : bool) fuel N bs v : 0 <= N < 2 ^ 32 ->
  reads_value ((if array then get_msgpack_array else get_msgpack_object) fuel (parse_msgpack_internal fuel) N) bs v ->
  reads_value (parse_msgpack_internal (S fuel)) ((if array then msgpack_size 0x90 0xDC N else msgpack_size 0x80 0xDE N) ++ bs) v.
Proof.
  intros HN Hc. assert (Hu : forall k, 0 <= N < 256 ^ Z.of_nat k -> takes (get_number (Z.of_nat k)) (be_bytes k N) N) by (intros k; apply get_be_takes).
  unfold msgpack_size. destruct array; (destruct (Z.leb_spec N 15); [|destruct (Z.leb_spec N 0xFFFF); [|destruct (Z.leb_spec N 0xFFFFFFFF); [|lia]]]).
  1: destruct (lor_add_size 0x90 N) as [E1 E2]; [lia|lia|].
  4: destruct (lor_add_size 0x80 N) as [E1 E2]; [lia|lia|].
  1,4: rewrite E1, be_byte by lia; eapply (takes_value get [_] (Some _)); [apply get_takes|]; cbn beta iota; repeat branch; by rewrite E2.
  all: eapply (takes_value get [_] (Some _)); [apply get_takes|]; eapply takes_value; [|exact Hc].
  1,3: apply (Hu 2%nat); split; lia.
  all: apply (Hu 4%nat); split; lia.
Qed.

Lemma msgpack_binary_read fuel bs st : Z.of_nat (length bs) < 2 ^ 32 ->
  reads_value (parse_msgpack_internal (S fuel)) (msgpack_binary bs st) (JBinary bs (st ≫= fun t => Some (t mod 256))).
Proof.
  intros Hn. set (N := Z.of_nat (length bs)) in *.
  assert (Hu : forall k, 0 <= N < 256 ^ Z.of_nat k -> takes (get_number (Z.of_nat k)) (be_bytes k N) N) by (intros k; apply get_be_takes).
  assert (He : forall t, takes (ext_binary N) (be_bytes 1 t ++ bs) (bs, Some (t mod 256))).
  { intros t. set (s := (t + 128) mod 256 - 128). assert (Hs : be_bytes 1 t = be_bytes 1 s) by (unfold be_bytes; cbn; f_equal; unfold s; Z.div_mod_to_equations; lia).
    assert (Hm : t mod 256 = u8 s) by (unfold u8, s; Z.div_mod_to_equations; lia). rewrite Hs, Hm. eapply takes_bind; [apply (signed_takes 1 s); [lia|unfold s; cbn; Z.div_mod_to_equations; lia]|].
    rewrite <- (app_nil_r bs) at 1. eapply takes_bind; [by apply get_binary_takes|]. done. }
  assert (Hp : takes (plain_binary N) bs (bs, None)) by (rewrite <- (app_nil_r bs) at 1; eapply takes_bind; [by apply get_binary_takes|done]).
  assert (Hb : forall b tl (r : list Z * option Z), (0xC4 <= b <= 0xC9 \/ 0xD4 <= b <= 0xD8) -> takes (get_msgpack_binary b) tl r -> reads_value (parse_msgpack_internal (S fuel)) (b :: tl) (JBinary r.1 r.2)).
  { intros b tl r Hr H. apply (takes_value get [b] (Some b)); [apply get_takes|]. cbn beta iota. do 8 branch. by eapply takes_leaf. }
  assert (Hl : forall b tl m k, (0xC4 <= b <= 0xC9 \/ 0xD4 <= b <= 0xD8) -> forall l r, takes (get_number (Z.of_nat k)) tl N -> takes (m N) l r ->
    get_msgpack_binary b = (len ← get_number (Z.of_nat k); m len) -> reads_value (parse_msgpack_internal (S fuel)) (b :: tl ++ l) (JBinary r.1 r.2)).
  { intros b tl m k Hr l r Ht Hm E. apply Hb; [done|]. rewrite E. by eapply takes_bind. }
  destruct st as [t|]; cbn [mbind option_bind]; unfold msgpack_binary, msgpack_binary_head; fold N; rewrite <- ?app_assoc.
  - destruct (Z.leb_spec N 0xFF); [|destruct (Z.leb_spec N 0xFFFF); [|destruct (Z.leb_spec N 0xFFFFFFFF); [|lia]]].
    2: apply (Hl 0xC8 _ ext_binary 2%nat ltac:(lia) _ _ ltac:(apply Hu; lia) (He t)); done.
    2: apply (Hl 0xC9 _ ext_binary 4%nat ltac:(lia) _ _ ltac:(apply Hu; lia) (He t)); done.
    repeat match goal with |- context [N =? ?k] => destruct (Z.eqb_spec N k) as [E|] end.
    1-5: apply (Hb _ _ (bs, Some (t mod 256))); [lia|]; specialize (He t); rewrite E in He; exact He.
    apply (Hl 0xC7 _ ext_binary 1%nat ltac:(lia) _ _ ltac:(apply Hu; lia) (He t)); done.
  - destruct (Z.leb_spec N 0xFF); [|destruct (Z.leb_spec N 0xFFFF); [|destruct (Z.leb_spec N 0xFFFFFFFF); [|lia]]].
    + apply (Hl 0xC4 _ plain_binary 1%nat ltac:(lia) _ _ ltac:(apply Hu; lia) Hp); done.
    + apply (Hl 0xC5 _ plain_binary 2%nat ltac:(lia) _ _ ltac:(apply Hu; lia) Hp); done.
    + apply (Hl 0xC6 _ plain_binary 4%nat ltac:(lia) _ _ ltac:(apply Hu; lia) Hp); done.
Qed.

Lemma msgpack_float_read fuel x : float_ok x -> reads_value (parse_msgpack_internal (S fuel)) (write_compact_float 0xCA 0xCB x) (JFloat x).
Proof.
  intros Hx. destruct (compact_float_read 0xCA 0xCB x Hx) as (bs & [(-> & L & E)|(-> & L & E)]).
  - apply (takes_value get [0xCA] (Some 0xCA)); [apply get_takes|]. apply (takes_leaf _ _ bs (of_be bs)); [apply get_number_takes; by rewrite L|done|]. cbn [leaf_value]. by rewrite E.
  - apply (takes_value get [0xCB] (Some 0xCB)); [apply get_takes|]. apply (takes_leaf _ _ bs (of_be bs)); [apply get_number_takes; by rewrite L|done|]. cbn [leaf_value]. by rewrite E.
Qed.

Lemma msgpack_nonempty j : binary_value (2 ^ 32 - 1) (2 ^ 64) j = true -> (0 < length (write_msgpack j))%nat.
Proof.
  assert (H : forall f i N, N < 2 ^ 32 -> (0 < length (msgpack_size f i N))%nat) by (intros f i N HN; unfold msgpack_size; repeat case_match; cbn; lia).
  intros Hv. destruct j as [|fields|items|s|b|z|x|bs st]; cbn [write_msgpack]; try (cbn; lia).
  - apply value_fields in Hv as (_ & Hl & _). rewrite length_app. specialize (H 0x80 0xDE (Z.of_nat (length fields)) ltac:(lia)). lia.
  - apply value_items in Hv as (Hl & _). rewrite length_app. specialize (H 0x90 0xDC (Z.of_nat (length items)) ltac:(lia)). lia.
  - cbn [binary_value] in Hv. destruct (msgpack_string_read s) as (b & tl & -> & _); [lia|]. cbn. lia.
  - unfold msgpack_integer. repeat case_match; cbn; lia.
  - unfold write_compact_float. case_match; cbn; lia.
  - cbn [binary_value] in Hv. apply andb_true_iff in Hv as [[H1 _]%andb_true_iff _]. unfold msgpack_binary, msgpack_binary_head.
    destruct st; rewrite !length_app; repeat case_match; cbn; lia.
Qed.

Lemma msgpack_field_written fuel k v w : Z.of_nat (String.length k) < 2 ^ 32 -> reads_value (parse_msgpack_internal fuel) (write_msgpack v) w ->
  reads_field (msgpack_field (parse_msgpack_internal fuel)) (msgpack_string k ++ write_msgpack v) (k, w).
Proof.
  intros Hk Hv. destruct (msgpack_string_read k Hk) as (b & tl & -> & _ & H). apply (takes_field get [b] (Some b)); [apply get_takes|].
  eapply takes_field; [exact H|]. by apply key_value_field.
Qed.

Lemma msgpack_written j : forall fuel, binary_value (2 ^ 32 - 1) (2 ^ 64) j = true -> (length (write_msgpack j) < fuel)%nat ->
  reads_value (parse_msgpack_internal fuel) (write_msgpack j) (subtypes (fun t => Some (t mod 256)) j).
Proof.
  induction j as [|fields IH|items IH|s|b|z|x|bs st] using json_nested_ind; intros [|fuel] Hv Hf; try lia; cbn [subtypes].
  - apply (takes_value get [0xC0] (Some 0xC0)); [apply get_takes|]. by apply leaf_read.
  - pose proof (msgpack_nonempty _ Hv) as Hne. apply value_fields in Hv as (Hs & Hl & Hm & Hv). cbn [write_msgpack] in Hf, Hne |- *. rewrite length_app in Hf.
    assert (Hc : (length (concat (map (fun kv => msgpack_string kv.1 ++ write_msgpack kv.2) fields)) < fuel)%nat).
    { assert (0 < length (msgpack_size 0x80 0xDE (Z.of_nat (length fields))))%nat by (unfold msgpack_size; repeat case_match; cbn; lia). lia. }
    apply (msgpack_size_read false); [lia|]. apply (members_read (fun kv => msgpack_string kv.1 ++ write_msgpack kv.2)); [..|done|done|by rewrite subtypes_keys].
    + intros [k v] Hin. rewrite length_app. destruct (Hv _ Hin) as [_ Hvv]. pose proof (msgpack_nonempty v Hvv). cbn [snd]. lia.
    + intros [k v] Hin. destruct (Hv _ Hin) as [Hk Hvv]. pose proof (concat_parts (fun kv => msgpack_string kv.1 ++ write_msgpack kv.2) fields (k, v) Hin) as Hp.
      cbn [fst snd] in *. rewrite length_app in Hp. apply msgpack_field_written; [lia|]. rewrite Forall_forall in IH. apply (IH (k, v)); [by apply list_elem_of_In|done|cbn [snd]; lia].
  - apply value_items in Hv as (Hl & Hm & Hv). cbn [write_msgpack] in Hf |- *. rewrite length_app in Hf.
    assert (Hc : (length (concat (map write_msgpack items)) < fuel)%nat).
    { assert (0 < length (msgpack_size 0x90 0xDC (Z.of_nat (length items))))%nat by (unfold msgpack_size; repeat case_match; cbn; lia). lia. }
    apply (msgpack_size_read true); [lia|]. apply (elements_read write_msgpack); [intros v Hin; by apply msgpack_nonempty, Hv| |done|done].
    intros v Hin. pose proof (concat_parts write_msgpack items v Hin) as Hp. rewrite Forall_forall in IH. apply IH; [by apply list_elem_of_In|by apply Hv|lia].
  - cbn [binary_value] in Hv. destruct (msgpack_string_read s) as (b & tl & E & R & H); [lia|]. cbn [write_msgpack]. rewrite E. apply (takes_value get [b] (Some b)); [apply get_takes|].
    cbn beta iota. do 4 branch. by eapply takes_leaf.
  - destruct b; [apply (takes_value get [0xC3] (Some 0xC3))|apply (takes_value get [0xC2] (Some 0xC2))]; try apply get_takes; by apply leaf_read.
  - cbn [binary_value] in Hv. apply msgpack_integer_read. lia.
  - cbn [binary_value] in Hv. apply msgpack_float_read. unfold float_ok. intros Hx. by rewrite Hx in Hv.
  - cbn [binary_value] in Hv. apply andb_true_iff in Hv as [[H1 _]%andb_true_iff H2].
    destruct st as [t|]; [apply (msgpack_binary_read fuel bs (Some t))|apply (msgpack_binary_read fuel bs None)]; lia.
Qed.

(** C27: A value written as MessagePack, with strings and containers of less than 2^32 elements, reads back as the same value,
    with the subtypes of its byte strings reduced to a byte: a larger subtype is written and read as another one. *)
Theorem msgpack_roundtrip (j : json) : binary_value (2 ^ 32 - 1) (2 ^ 64) j = true ->
  from_msgpack (to_msgpack j) = Ok (subtypes (fun t => Some (t mod 256)) j).
Proof. intros Hv. apply sax_parse_written, msgpack_written; [done|]. unfold to_msgpack. lia. Qed.

Definition tagged_bytes : json := JArray [JBinary [1; 2; 3; 4] (Some 200); JBinary [] (Some 300); JInt (-2 ^ 63); JFloat (S754_finite true 1 (-1074)); JObject [("k", JNull)]].

Lemma msgpack_roundtrip_witness : from_msgpack (to_msgpack tagged_bytes) =
  Ok (JArray [JBinary [1; 2; 3; 4] (Some 200); JBinary [] (Some 44); JInt (-2 ^ 63); JFloat (S754_finite true 1 (-1074)); JObject [("k", JNull)]]).
Proof. rewrite (msgpack_roundtrip tagged_bytes); [reflexivity|]. vm_compute. reflexivity. Defined.
