(* ===== verification/JsonBson.v ===== *)
(** * json.hpp: BSON

    [write_bson] with the sizes it computes first, the reader [parse_bson_internal], and
    [to_bson]/[from_bson]. *)

From S2P Require Import Prelude Str Json Numbers JsonText JsonSpec JsonWf JsonOps JsonBinary.
From Stdlib Require Import Ascii SpecFloat.
From Stdlib Require String.

Local Open Scope string_scope.
Local Open Scope Z_scope.
Local Open Scope list_scope.

(** ** Sizes *)

Definition NUL : ascii := Ascii.ascii_of_nat 0.

Definition calc_bson_entry_header_size (name : string) : res Z :=
  match find_char NUL name with
  | Some _ => Throw (json_out_of_range 409)
  | None => Ok (1 + Z.of_nat (String.length name) + 1)
  end.

Definition calc_bson_string_size (value : string) : Z := 4 + Z.of_nat (String.length value) + 1.

Definition calc_bson_binary_size (value : list Z) : Z := 4 + Z.of_nat (length value) + 1.

(** The same for both integer types: a number from 2^63 on is unsigned and takes eight bytes. *)
Definition calc_bson_integer_size (value : Z) : Z := if (- 2 ^ 31 <=? value) && (value <=? INT_MAX) then 4 else 8.

Fixpoint calc_bson_element_size (name : string) (j : json) {struct j} : res Z :=
  header_size ← calc_bson_entry_header_size name;
  match j with
  | JObject fields =>
      n ← (fix go (fields : list (string * json)) (result : Z) : res Z :=
             match fields with [] => Ok result | (k, v) :: fields => n ← calc_bson_element_size k v; go fields (result + n) end) fields 0;
      Ok (header_size + (4 + n + 1))
  | JArray items =>
      n ← (fix go (items : list json) (array_index : nat) (result : Z) : res Z :=
             match items with
             | [] => Ok result
             | v :: items => n ← calc_bson_element_size (to_string (Z.of_nat array_index)) v; go items (S array_index) (result + n)
             end) items 0%nat 0;
      Ok (header_size + (4 + n + 1))
  | JBinary bs _ => Ok (header_size + calc_bson_binary_size bs)
  | JBool _ => Ok (header_size + 1)
  | JFloat _ => Ok (header_size + 8)
  | JInt z => Ok (header_size + calc_bson_integer_size z)
  | JString s => Ok (header_size + calc_bson_string_size s)
  | JNull => Ok (header_size + 0)
  end.

Fixpoint bson_fields_size (fields : list (string * json)) (result : Z) : res Z :=
  match fields with [] => Ok result | (k, v) :: fields => n ← calc_bson_element_size k v; bson_fields_size fields (result + n) end.

Definition calc_bson_object_size (value : list (string * json)) : res Z := n ← bson_fields_size value 0; Ok (4 + n + 1).

Fixpoint bson_items_size (items : list json) (array_index : nat) (result : Z) : res Z :=
  match items with
  | [] => Ok result
  | v :: items => n ← calc_bson_element_size (to_string (Z.of_nat array_index)) v; bson_items_size items (S array_index) (result + n)
  end.

Definition calc_bson_array_size (value : list json) : res Z := n ← bson_items_size value 0%nat 0; Ok (4 + n + 1).

(** ** Writing *)

(** The name with the zero that ends it. *)
Definition write_bson_entry_header (name : string) (element_type : Z) : list Z := element_type :: bytes_of name ++ [0].

Definition write_bson_boolean (name : string) (value : bool) : list Z := write_bson_entry_header name 0x08 ++ [if value then 1 else 0].

Definition write_bson_double (name : string) (value : spec_float) : list Z := write_bson_entry_header name 0x01 ++ le_bytes 8 (double_bits value).

Definition write_bson_string (name value : string) : list Z :=
  write_bson_entry_header name 0x02 ++ le_bytes 4 (Z.of_nat (String.length value) + 1) ++ bytes_of value ++ [0].

Definition write_bson_null (name : string) : list Z := write_bson_entry_header name 0x0A.

(** [write_bson_integer] and [write_bson_unsigned]. *)
Definition write_bson_integer (name : string) (value : Z) : list Z :=
  if (- 2 ^ 31 <=? value) && (value <=? INT_MAX) then write_bson_entry_header name 0x10 ++ le_bytes 4 value
  else if value <? 2 ^ 63 then write_bson_entry_header name 0x12 ++ le_bytes 8 value
  else write_bson_entry_header name 0x11 ++ le_bytes 8 value.

Definition write_bson_binary (name : string) (value : list Z) (subtype : option Z) : list Z :=
  write_bson_entry_header name 0x05 ++ le_bytes 4 (Z.of_nat (length value))
    ++ be_bytes 1 (match subtype with Some t => t | None => 0 end) ++ value.

Fixpoint write_bson_element (name : string) (j : json) {struct j} : res (list Z) :=
  match j with
  | JObject fields =>
      size ← calc_bson_object_size fields;
      els ← (fix go (fields : list (string * json)) : res (list Z) :=
               match fields with [] => Ok [] | (k, v) :: fields => e ← write_bson_element k v; es ← go fields; Ok (e ++ es) end) fields;
      Ok (write_bson_entry_header name 0x03 ++ le_bytes 4 size ++ els ++ [0])
  | JArray items =>
      size ← calc_bson_array_size items;
      els ← (fix go (items : list json) (array_index : nat) : res (list Z) :=
               match items with
               | [] => Ok []
               | v :: items => e ← write_bson_element (to_string (Z.of_nat array_index)) v; es ← go items (S array_index); Ok (e ++ es)
               end) items 0%nat;
      Ok (write_bson_entry_header name 0x04 ++ le_bytes 4 size ++ els ++ [0])
  | JBinary bs st => Ok (write_bson_binary name bs st)
  | JBool b => Ok (write_bson_boolean name b)
  | JFloat x => Ok (write_bson_double name x)
  | JInt z => Ok (write_bson_integer name z)
  | JString s => Ok (write_bson_string name s)
  | JNull => Ok (write_bson_null name)
  end.

Fixpoint write_bson_fields (fields : list (string * json)) : res (list Z) :=
  match fields with [] => Ok [] | (k, v) :: fields => e ← write_bson_element k v; es ← write_bson_fields fields; Ok (e ++ es) end.

Fixpoint write_bson_items (items : list json) (array_index : nat) : res (list Z) :=
  match items with
  | [] => Ok []
  | v :: items => e ← write_bson_element (to_string (Z.of_nat array_index)) v; es ← write_bson_items items (S array_index); Ok (e ++ es)
  end.

Definition write_bson_object (value : list (string * json)) : res (list Z) :=
  size ← calc_bson_object_size value; els ← write_bson_fields value; Ok (le_bytes 4 size ++ els ++ [0]).

(** [to_bson]: only an object is a document. *)
Definition to_bson (j : json) : res (list Z) :=
  match j with JObject fields => write_bson_object fields | _ => Throw (json_type_error 317) end.

(** ** Reading *)

(** [get_bson_cstr]: up to the first zero. *)
Fixpoint cstr_bytes (l : list Z) : res (list Z) * list Z :=
  match l with
  | [] => (Throw json_parse_error, [])
  | b :: l => if b =? 0 then (Ok [], l) else let '(r, l) := cstr_bytes l in (cons b <$> r, l)
  end.

Definition get_bson_cstr : M reader string := fun r =>
  let '(bs, l) := cstr_bytes (input r) in (string_of <$> bs, mk_reader l (handler r)).

(** [get_bson_string]: at the end of the input in place of the last byte it returns false, without an error. *)
Definition get_bson_string (len : Z) : M reader (option string) :=
  if len <? 1 then throwM json_parse_error
  else s ← get_string (len - 1); c ← get; mret (match c with Some _ => Some s | None => None end).

Definition get_bson_binary (len : Z) : M reader (list Z * option Z) :=
  if len <? 0 then throwM json_parse_error
  else subtype ← get_number 1; b ← get_binary len; mret (b, Some subtype).

(** A document or an array: its size, which is not looked at, and its elements. *)
Definition bson_document (element_list : bool -> M reader bool) (is_array : bool) : M reader bool :=
  get_signed_le 4;;
  emit (if is_array then ev_start_array unknown_size else ev_start_object unknown_size);;
  ok ← element_list is_array;
  if (ok : bool) then emit (if is_array then ev_end_array else ev_end_object);; mret true else mret false.

(** [parse_bson_element_internal]; [document] reads an object or an array. *)
Definition parse_bson_element_internal (document : bool -> M reader bool) (element_type : Z) : M reader bool :=
  if element_type =? 0x01 then n ← get_number_le 8; emit (ev_number_float (double_of_bits n));; mret true
  else if element_type =? 0x02 then
    len ← get_signed_le 4; s ← get_bson_string len;
    match s with Some s => emit (ev_string s);; mret true | None => mret false end
  else if element_type =? 0x03 then document false
  else if element_type =? 0x04 then document true
  else if element_type =? 0x05 then len ← get_signed_le 4; b ← get_bson_binary len; emit (ev_binary b.1 b.2);; mret true
  else if element_type =? 0x08 then c ← get; emit (ev_boolean (negb (is_byte_value 0 c)));; mret true
  else if element_type =? 0x0A then emit ev_null;; mret true
  else if element_type =? 0x10 then n ← get_signed_le 4; emit (ev_number_integer n);; mret true
  else if element_type =? 0x12 then n ← get_signed_le 8; emit (ev_number_integer n);; mret true
  else if element_type =? 0x11 then n ← get_number_le 8; emit (ev_number_unsigned n);; mret true
  else throwM json_parse_error.

Fixpoint parse_bson_element_list (fuel : nat) (is_array : bool) : M reader bool :=
  match fuel with
  | O => throwM undefined_behavior
  | S fuel =>
      c ← get;
      match c with
      | None => throwM json_parse_error
      | Some element_type =>
          if element_type =? 0 then mret true
          else
            key ← get_bson_cstr;
            (if is_array then mret tt else emit (ev_key key));;
            ok ← parse_bson_element_internal (bson_document (parse_bson_element_list fuel)) element_type;
            if (ok : bool) then parse_bson_element_list fuel is_array else mret false
      end
  end.

Definition parse_bson_internal (fuel : nat) : M reader bool := bson_document (parse_bson_element_list fuel) false.

(** [from_bson]; [None] is a discarded value. *)
Definition from_bson (bytes : list Z) : res (option json) :=
  let '(r, st) := (ok ← parse_bson_internal (length bytes + 1); (if (ok : bool) then expect_end else mret tt);; mret ok) (mk_reader bytes (mk_dom JNull [])) in
  ok ← r;
  Ok (if (ok : bool) then Some (root (handler st)) else None).

(** ** The reader is safe *)

(** When the reader says that it read a value, it did. *)
Definition maybe_one (r : reader) (ok : bool) (r' : reader) : Prop := ok = true -> read_one r ok r'.

(** The innermost container is an array or an object, inside of [st]. *)
Definition inside (is_array : bool) (st : list container) (d : dom) : Prop :=
  if is_array then exists items, ref_stack d = building_array items :: st else in_object st d.

Lemma cstr_spec l : match cstr_bytes l with (Ok bs, l') => (length l' < length l)%nat | (Throw e, _) => e = json_parse_error end.
Proof.
  induction l as [|b l IH]; [done|]. cbn [cstr_bytes]. destruct (b =? 0); [cbn; lia|]. destruct (cstr_bytes l) as [[bs|e] l']; cbn in *; [lia|done].
Qed.

Lemma wp_cstr r : wp get_bson_cstr (quiet r) r.
Proof. unfold wp, get_bson_cstr, quiet. pose proof (cstr_spec (input r)) as H. destruct (cstr_bytes (input r)) as [[bs|e] l']; cbn in *; [split; [lia|done]|by left]. Qed.

Lemma wp_bson_string len r : wp (get_bson_string len) (quiet r) r.
Proof.
  unfold get_bson_string. destruct (len <? 1); [apply wp_throw|]. apply wp_quiet_bind; [apply wp_get_string|]. intros s r1 _. apply wp_bind, wp_get.
  - intros _. by apply wp_ret.
  - intros b r2 L2 E2. apply wp_ret. split; [lia|done].
Qed.

Lemma wp_bson_binary len r : wp (get_bson_binary len) (quiet r) r.
Proof.
  unfold get_bson_binary. destruct (len <? 0); [apply wp_throw|]. apply wp_quiet_bind; [apply wp_get_number|]. intros t r1 _.
  apply wp_quiet_bind; [apply wp_get_binary|]. intros b r2 _. by apply wp_ret.
Qed.

(** A value without parts, and true. *)
Lemma wp_leaf_true {A} (m : M reader A) (ev : A -> event) r : wp m (quiet r) r -> (forall a, leaf (ev a) = true) -> ready (handler r) ->
  wp (a ← m; emit (ev a);; mret true) (maybe_one r) r.
Proof.
  intros Hm Hl Hr. apply wp_bind. eapply wp_mono; [exact Hm|]. intros a r1 [L1 E1]. apply wp_bind.
  eapply wp_mono; [apply wp_leaf; [done|congruence]|]. intros u r2 [L2 P2]. apply wp_ret. intros _. rewrite E1 in P2. split; [lia|done].
Qed.

Section elements.
  Context (fuel : nat) (element_list : bool -> M reader bool).
  Context (list_safe : forall is_array st r, (length (input r) < fuel)%nat -> inside is_array st (handler r) ->
    wp (element_list is_array) (fun ok r' => ok = true -> inside is_array st (handler r') /\ (length (input r') <= length (input r))%nat) r).

Lemma document_safe is_array r : (length (input r) < fuel)%nat -> ready (handler r) -> wp (bson_document element_list is_array) (maybe_one r) r.
Proof.
  intros Hf Hr. unfold bson_document. apply wp_bind. eapply wp_mono; [apply wp_get_signed_le|]. intros n r1 [L1 E1]. apply wp_bind.
  set (st := ref_stack (handler r)) in *.
  apply (wp_mono _ (fun _ r2 => input r2 = input r1 /\ inside is_array st (handler r2))).
  { unfold wp, emit, inside, in_object, st. destruct is_array; cbn; rewrite E1; split; try done; [by eexists|by eexists _, _]. }
  intros _ r2 [E2 I2]. apply wp_bind. eapply wp_mono; [apply (list_safe is_array st); [rewrite E2; lia|done]|]. intros ok r3 H3.
  destruct ok; [|by apply wp_ret]. destruct (H3 eq_refl) as [I3 L3]. apply wp_bind. rewrite E2 in L3.
  assert (He : exists d', dom_event (if is_array then ev_end_array else ev_end_object) (handler r3) = Ok d' /\ same_place (handler r) d').
  { unfold inside in I3. destruct is_array; [destruct I3 as [items E3]|destruct I3 as (fields & key & E3)]; cbn [dom_event]; rewrite E3;
      match goal with |- context [handle_value ?v ?d] => destruct (handle_same v (handler r) st (root (handler r3)) Hr eq_refl) as (d' & Ed & Hs) end;
      exists d'; by rewrite Ed. }
  destruct He as (d' & Ed & Hs). unfold wp, emit. rewrite Ed. cbn. intros _. split; [cbn; lia|done].
Qed.

Lemma element_safe t r : (length (input r) < fuel)%nat -> ready (handler r) -> wp (parse_bson_element_internal (bson_document element_list) t) (maybe_one r) r.
Proof.
  intros Hf Hr. unfold parse_bson_element_internal.
  repeat match goal with |- wp (if ?b then _ else _) _ _ => destruct b end; try apply wp_throw; try (by apply document_safe);
    try (apply wp_leaf_true; [apply wp_get_number_le || apply wp_get_signed_le|done|done]).
  - apply wp_bind. eapply wp_mono; [apply wp_get_signed_le|]. intros len r1 [L1 E1]. apply wp_bind. eapply wp_mono; [apply wp_bson_string|].
    intros [s|] r2 [L2 E2]; [|by apply wp_ret]. apply wp_bind. eapply wp_mono; [apply wp_leaf; [done|congruence]|]. intros u r3 [L3 P3]. apply wp_ret. intros _.
    rewrite E2, E1 in P3. split; [lia|done].
  - apply wp_bind. eapply wp_mono; [apply wp_get_signed_le|]. intros len r1 [L1 E1]. eapply wp_mono; [apply wp_leaf_true; [apply wp_bson_binary|done|congruence]|].
    intros ok r2 H2 Hok. destruct (H2 Hok) as [L2 P2]. rewrite E1 in P2. split; [lia|done].
  - apply wp_bind, wp_get.
    + intros _. apply wp_bind. eapply wp_mono; [by apply wp_leaf|]. intros u r2 P2. apply wp_ret. intros _. exact P2.
    + intros b r1 L1 E1. apply wp_bind. eapply wp_mono; [apply wp_leaf; [done|congruence]|]. intros u r2 [L2 P2]. apply wp_ret. intros _. rewrite E1 in P2. split; [lia|done].
  - apply wp_bind. eapply wp_mono; [by apply wp_leaf|]. intros u r2 P2. apply wp_ret. intros _. exact P2.
Qed.
End elements.

Lemma element_list_safe fuel : forall is_array st r, (length (input r) < fuel)%nat -> inside is_array st (handler r) ->
  wp (parse_bson_element_list fuel is_array) (fun ok r' => ok = true -> inside is_array st (handler r') /\ (length (input r') <= length (input r))%nat) r.
Proof.
  induction fuel as [|fuel IH]; intros is_array st r Hf Hi; [lia|]. cbn [parse_bson_element_list]. apply wp_bind, wp_get; [intros _; apply wp_throw|].
  intros t r1 L1 E1. destruct (t =? 0); [apply wp_ret; intros _; split; [by rewrite E1|lia]|]. apply wp_bind. eapply wp_mono; [apply wp_cstr|]. intros key r2 [L2 E2]. apply wp_bind.
  apply (wp_mono _ (fun _ r3 => input r3 = input r2 /\ ready (handler r3) /\ forall d', same_place (handler r3) d' -> inside is_array st d')).
  { destruct is_array; [|apply wp_key; by rewrite E2, E1]. apply wp_ret. rewrite E2, E1. destruct Hi as [items E]. split; [done|]. unfold ready, same_place, inside. rewrite E. split; [done|].
    intros d'. destruct (ref_stack d') as [|[items'|] st'] eqn:E'; try done. intros ->. by exists items'. }
  intros _ r3 (E3 & R3 & P3). apply wp_bind. eapply wp_mono; [apply (element_safe fuel); [exact IH|rewrite E3; lia|done]|]. intros ok r4 H4.
  destruct ok; [|by apply wp_ret]. destruct (H4 eq_refl) as [L4 S4]. rewrite E3 in L4. eapply wp_mono; [apply (IH is_array st); [lia|by apply P3]|].
  intros ok r5 H5 Hok. destruct (H5 Hok) as [I5 L5]. split; [done|lia].
Qed.

(** Whatever bytes it is given, the BSON reader ends; it calls the handler in an order the handler expects, and gives a
    value, a discarded value or a parse error. *)
Theorem bson_reader_safe (bytes : list Z) : match from_bson bytes with Ok _ => True | Throw e => read_error e end.
Proof.
  unfold from_bson. set (r := mk_reader bytes (mk_dom JNull [])).
  assert (H : wp (ok ← parse_bson_internal (length bytes + 1); (if (ok : bool) then expect_end else mret tt);; mret ok) (fun _ _ => True) r).
  { apply wp_bind. eapply wp_mono; [apply (document_safe (length bytes + 1)); [apply element_list_safe|cbn; lia|done]|]. intros ok r1 _. apply wp_bind.
    apply (wp_mono _ (fun _ _ => True)); [|done]. destruct ok; [|done]. apply wp_bind, wp_get; [done|intros; apply wp_throw]. }
  unfold wp in H. match type of H with match ?m with _ => _ end => destruct m as [[ok|e] st] end; done.
Qed.

(** ** The sizes are right *)

#[local] Arguments le_bytes : simpl never.
#[local] Arguments be_bytes : simpl never.
#[local] Arguments write_bson_entry_header : simpl never.

Lemma entry_header_size name n : calc_bson_entry_header_size name = Ok n -> find_char NUL name = None /\ n = Z.of_nat (String.length name) + 2.
Proof.
  unfold calc_bson_entry_header_size. destruct (find_char NUL name); [done|]. intros [= <-]. split; [done|lia].
Qed.

(** The loops inside of the element functions. *)
Lemma object_size_eq name fields : calc_bson_element_size name (JObject fields) = header_size ← calc_bson_entry_header_size name; n ← calc_bson_object_size fields; Ok (header_size + n).
Proof.
  unfold calc_bson_object_size. transitivity (header_size ← calc_bson_entry_header_size name; n ← bson_fields_size fields 0; Ok (header_size + (4 + n + 1))); [reflexivity|].
  destruct (calc_bson_entry_header_size name); [|done]. cbn. by destruct (bson_fields_size fields 0).
Qed.

Lemma array_size_eq name items : calc_bson_element_size name (JArray items) = header_size ← calc_bson_entry_header_size name; n ← calc_bson_array_size items; Ok (header_size + n).
Proof.
  unfold calc_bson_array_size. transitivity (header_size ← calc_bson_entry_header_size name; n ← bson_items_size items 0 0; Ok (header_size + (4 + n + 1))); [reflexivity|].
  destruct (calc_bson_entry_header_size name); [|done]. cbn. by destruct (bson_items_size items 0 0).
Qed.

Lemma write_object_eq name fields : write_bson_element name (JObject fields) = (bs ← write_bson_object fields; Ok (write_bson_entry_header name 0x03 ++ bs)).
Proof.
  unfold write_bson_object. transitivity (size ← calc_bson_object_size fields; els ← write_bson_fields fields; Ok (write_bson_entry_header name 0x03 ++ le_bytes 4 size ++ els ++ [0])); [reflexivity|].
  destruct (calc_bson_object_size fields); [|done]. cbn. by destruct (write_bson_fields fields).
Qed.

Lemma write_array_eq name items : write_bson_element name (JArray items) =
  (size ← calc_bson_array_size items; els ← write_bson_items items 0; Ok (write_bson_entry_header name 0x04 ++ le_bytes 4 size ++ els ++ [0])).
Proof. reflexivity. Qed.

Lemma header_length name t : length (write_bson_entry_header name t) = (String.length name + 2)%nat.
Proof. unfold write_bson_entry_header. cbn [length]. rewrite length_app, bytes_of_length. cbn [length]. lia. Qed.

Definition size_right (j : json) : Prop := forall name bs n, write_bson_element name j = Ok bs -> calc_bson_element_size name j = Ok n -> n = Z.of_nat (length bs).

Lemma fields_size_right fields : Forall (fun kv => size_right kv.2) fields -> forall els acc n, write_bson_fields fields = Ok els -> bson_fields_size fields acc = Ok n ->
  n = acc + Z.of_nat (length els).
Proof.
  induction 1 as [|[k v] fields Hv _ IH]; intros els acc n; [intros [= <-] [= <-]; cbn; lia|]. cbn [write_bson_fields bson_fields_size snd] in *.
  destruct (write_bson_element k v) as [e|] eqn:E1; [|done]. destruct (write_bson_fields fields) as [es|]; [|done]. intros [= <-].
  destruct (calc_bson_element_size k v) as [m|] eqn:E2; [|done]. cbn. intros H. specialize (IH es _ _ eq_refl H). specialize (Hv k e m E1 E2). rewrite length_app. lia.
Qed.

Lemma items_size_right items : Forall size_right items -> forall i els acc n, write_bson_items items i = Ok els -> bson_items_size items i acc = Ok n ->
  n = acc + Z.of_nat (length els).
Proof.
  induction 1 as [|v items Hv _ IH]; intros i els acc n; [intros [= <-] [= <-]; cbn; lia|]. cbn [write_bson_items bson_items_size].
  destruct (write_bson_element _ v) as [e|] eqn:E1; [|done]. destruct (write_bson_items items _) as [es|] eqn:E3; [|done]. intros [= <-].
  destruct (calc_bson_element_size _ v) as [m|] eqn:E2; [|done]. cbn. intros H. specialize (IH _ es _ _ E3 H). specialize (Hv _ e m E1 E2). rewrite length_app. lia.
Qed.

Lemma object_size_right fields : Forall (fun kv => size_right kv.2) fields -> forall bs, write_bson_object fields = Ok bs -> calc_bson_object_size fields = Ok (Z.of_nat (length bs)).
Proof.
  intros Hf bs. unfold write_bson_object, calc_bson_object_size. destruct (bson_fields_size fields 0) as [n|] eqn:E1; [|done]. destruct (write_bson_fields fields) as [els|] eqn:E2; [|done].
  intros [= <-]. rewrite (fields_size_right fields Hf els 0 n E2 E1). cbn. rewrite ?length_app, ?le_bytes_length. cbn. f_equal. lia.
Qed.

Lemma element_size_right j : size_right j.
Proof.
  induction j as [|fields IH|items IH|s|b|z|x|bs st] using json_nested_ind; intros name out n.
  2:{ rewrite write_object_eq, object_size_eq. destruct (write_bson_object fields) as [els|] eqn:E; [|done]. intros [= <-].
      destruct (calc_bson_entry_header_size name) as [h|] eqn:Eh; [|done]. apply entry_header_size in Eh as [_ ->]. rewrite (object_size_right fields IH els E). cbn.
      intros [= <-]. rewrite ?length_app, ?header_length, ?bytes_of_length, ?le_bytes_length. cbn [length]. rewrite ?length_app, ?bytes_of_length. cbn [length]. lia. }
  2:{ rewrite write_array_eq, array_size_eq. unfold calc_bson_array_size. destruct (bson_items_size items 0 0) as [m|] eqn:E1; [|done]. destruct (write_bson_items items 0) as [els|] eqn:E2; [|done].
      intros [= <-]. destruct (calc_bson_entry_header_size name) as [h|] eqn:Eh; [|done]. apply entry_header_size in Eh as [_ ->].
      rewrite (items_size_right items IH 0%nat els 0 m E2 E1). cbn. intros [= <-]. rewrite ?length_app, ?header_length, ?bytes_of_length, ?le_bytes_length. cbn [length]. rewrite ?length_app, ?bytes_of_length. cbn [length]. lia. }
  all: cbn [write_bson_element calc_bson_element_size]; destruct (calc_bson_entry_header_size name) as [h|] eqn:Eh; [|done]; apply entry_header_size in Eh as [_ ->].
  all: intros [= <-] [= <-]; unfold write_bson_null, write_bson_string, calc_bson_string_size, write_bson_boolean, write_bson_integer, calc_bson_integer_size, write_bson_double, write_bson_binary, calc_bson_binary_size;
    repeat case_match; rewrite ?length_app, ?le_bytes_length, ?be_bytes_length, ?bytes_of_length, ?header_length; cbn [length]; rewrite ?length_app, ?bytes_of_length; cbn [length]; lia.
Qed.

(** The size at the start of a BSON document is the number of its bytes. *)
Theorem bson_document_size (fields : list (string * json)) (bytes : list Z) : to_bson (JObject fields) = Ok bytes ->
  exists rest, bytes = le_bytes 4 (Z.of_nat (length bytes)) ++ rest /\ calc_bson_object_size fields = Ok (Z.of_nat (length bytes)).
Proof.
  intros H. cbn [to_bson] in H. pose proof (object_size_right fields ltac:(apply Forall_true; intros; apply element_size_right) bytes H) as Hs.
  unfold write_bson_object in H. rewrite Hs in H. cbn [mbind res_bind] in H. destruct (write_bson_fields fields) as [els|]; [|done].
  exists (els ++ [0]). split; [|done]. by injection H.
Qed.

(** ** Writing and reading back *)

Lemma cstr_app name rest : find_char NUL name = None -> cstr_bytes (bytes_of name ++ 0 :: rest) = (Ok (bytes_of name), rest).
Proof.
  induction name as [|c name IH]; [done|]. cbn [find_char bytes_of app cstr_bytes]. destruct (Ascii.eqb_spec c NUL) as [|Hc]; [done|]. intros H.
  destruct (Z.eqb_spec (code c) 0) as [E|_].
  - exfalso. apply Hc. rewrite <- (chr_code c), E. done.
  - destruct (find_char NUL name) eqn:F; [done|]. by rewrite IH.
Qed.

Lemma cstr_takes name : find_char NUL name = None -> takes get_bson_cstr (bytes_of name ++ [0]) name.
Proof. intros H rest d. unfold get_bson_cstr. cbn [input handler]. rewrite <- app_assoc. cbn [app]. rewrite cstr_app by done. cbn. by rewrite string_of_bytes_of. Qed.

Lemma digits_no_nul s : all_chars is_digit s = true -> find_char NUL s = None.
Proof.
  induction s as [|c s IH]; [done|]. cbn [all_chars find_char]. intros [Hc Hs]%andb_true_iff. destruct (Ascii.eqb_spec c NUL) as [->|]; [done|]. by rewrite IH.
Qed.

(** What a document keeps of a value: every byte string has a subtype, which is a byte. *)
Fixpoint bson_view (j : json) : json :=
  match j with
  | JObject fields => JObject (map (fun kv => (kv.1, bson_view kv.2)) fields)
  | JArray items => JArray (map bson_view items)
  | JBinary bs st => JBinary bs (Some (match st with Some t => t mod 256 | None => 0 end))
  | _ => j
  end.

Definition reads_true (parse : M reader bool) (bs : list Z) (v : json) : Prop :=
  forall rest d, ready d -> parse (mk_reader (bs ++ rest) d) = (Ok true, mk_reader rest (place v d)).

Lemma takes_true {A} (m : M reader A) bs a k bs' v : takes m bs a -> reads_true (k a) bs' v -> reads_true (m ≫= k) (bs ++ bs') v.
Proof. intros Hm Hk rest d Hd. cbv [mbind M_bind]. rewrite <- app_assoc, Hm. by apply Hk. Qed.

Lemma leaf_true ev v : leaf ev = true -> v = leaf_value ev -> reads_true (emit ev;; mret true) [] v.
Proof. intros Hl Hv rest d Hd. cbv [mbind M_bind]. by rewrite (leaf_read ev v Hl Hv rest d Hd). Qed.

Lemma takes_leaf_true {A} (m : M reader A) (ev : A -> event) bs a v : takes m bs a -> leaf (ev a) = true -> v = leaf_value (ev a) -> reads_true (a ← m; emit (ev a);; mret true) bs v.
Proof. intros Hm Hl Hv. rewrite <- (app_nil_r bs). eapply takes_true; [exact Hm|]. by apply leaf_true. Qed.

Definition bson_value (j : json) : bool := binary_value (2 ^ 31 - 2) (2 ^ 64) j.

(** The bytes of an element read back. *)
Definition element_reads (j : json) : Prop := forall name bs fuel, write_bson_element name j = Ok bs -> bson_value j = true -> (length bs <= fuel)%nat ->
  exists t p, bs = write_bson_entry_header name t ++ p /\ 0 < t /\ reads_true (parse_bson_element_internal (bson_document (parse_bson_element_list fuel)) t) p (bson_view j).

(** One turn of the loop over the elements. *)
Lemma list_turn fuel (is_array : bool) name t p v rest d : find_char NUL name = None -> 0 < t ->
  reads_true (parse_bson_element_internal (bson_document (parse_bson_element_list fuel)) t) p v ->
  forall d1, (if is_array then Ok d else dom_event (ev_key name) d) = Ok d1 -> ready d1 ->
  parse_bson_element_list (S fuel) is_array (mk_reader ((write_bson_entry_header name t ++ p) ++ rest) d) = parse_bson_element_list fuel is_array (mk_reader rest (place v d1)).
Proof.
  intros Hn Ht Hp d1 Hd Hr. cbn [parse_bson_element_list]. unfold write_bson_entry_header. cbv [mbind M_bind]. cbn [app get input].
  destruct (Z.eqb_spec t 0); [lia|]. rewrite <- !app_assoc, (app_assoc (bytes_of name)), cstr_takes by done.
  destruct is_array; [injection Hd as <-|unfold emit; cbn [handler input]; rewrite Hd]; unfold mret, M_ret; by rewrite Hp.
Qed.

Lemma list_fields fields : Forall (fun kv => element_reads kv.2) fields -> forall els fuel, write_bson_fields fields = Ok els ->
  (forall kv, In kv fields -> find_char NUL kv.1 = None /\ bson_value kv.2 = true) -> (length els < fuel)%nat -> forall rest x flds key st, exists key',
  parse_bson_element_list fuel false (mk_reader (els ++ 0 :: rest) (mk_dom x (building_object flds key :: st))) =
    (Ok true, mk_reader rest (mk_dom x (building_object (set_fields flds (map (fun kv => (kv.1, bson_view kv.2)) fields)) key' :: st))).
Proof.
  induction 1 as [|[k v] fields Hv _ IH]; intros els [|fuel] Hw Hk Hf rest x flds key st; try lia; [injection Hw as <-; by exists key|]. cbn [write_bson_fields] in Hw.
  destruct (write_bson_element k v) as [e|] eqn:E1; [|done]. destruct (write_bson_fields fields) as [es|] eqn:E2; [|done]. injection Hw as <-. rewrite length_app in Hf.
  destruct (Hk (k, v) (or_introl eq_refl)) as [Hn Hval]. destruct (Hv k e fuel E1 Hval ltac:(lia)) as (t & p & -> & Ht & Hp). cbn [snd fst] in *. rewrite <- (app_assoc _ es).
  rewrite (list_turn fuel false k t p (bson_view v) _ (mk_dom x (building_object flds key :: st)) Hn Ht Hp (mk_dom x (building_object (touch_field flds k) (Some k) :: st)) eq_refl I). unfold place. cbn [ref_stack root]. rewrite touch_set.
  rewrite length_app, header_length in Hf. apply IH; [done|intros kv Hin; apply Hk; by right|lia].
Qed.

Lemma list_items items : Forall element_reads items -> forall i els fuel, write_bson_items items i = Ok els ->
  (forall v, In v items -> bson_value v = true) -> (length els < fuel)%nat -> forall rest x done_ st,
  parse_bson_element_list fuel true (mk_reader (els ++ 0 :: rest) (mk_dom x (building_array done_ :: st))) =
    (Ok true, mk_reader rest (mk_dom x (building_array (done_ ++ map bson_view items) :: st))).
Proof.
  induction 1 as [|v items Hv _ IH]; intros i els [|fuel] Hw Hk Hf rest x done_ st; try lia; [injection Hw as <-; cbn; by rewrite app_nil_r|]. cbn [write_bson_items] in Hw.
  destruct (write_bson_element _ v) as [e|] eqn:E1; [|done]. destruct (write_bson_items items _) as [es|] eqn:E2; [|done]. injection Hw as <-. rewrite length_app in Hf.
  destruct (Hv _ e fuel E1 (Hk v (or_introl eq_refl)) ltac:(lia)) as (t & p & -> & Ht & Hp). rewrite <- (app_assoc _ es).
  assert (Hn : find_char NUL (to_string (Z.of_nat i)) = None) by (apply digits_no_nul; destruct (to_string_spec (Z.of_nat i)); [lia|tauto]).
  rewrite (list_turn fuel true _ t p (bson_view v) _ (mk_dom x (building_array done_ :: st)) Hn Ht Hp _ eq_refl I). unfold place. cbn [ref_stack root].
  rewrite length_app, header_length in Hf. rewrite (IH (S i) es); [|done|intros w Hin; apply Hk; by right|lia]. cbn [map]. by rewrite <- app_assoc.
Qed.

Lemma signed4_takes bs : length bs = 4%nat -> exists n, takes (get_signed_le 4) bs n.
Proof. intros H. eexists. apply takes_fmap, get_number_le_takes. by rewrite H. Qed.

Lemma view_keys fields : sorted_keys (map (fun kv => (kv.1, bson_view kv.2)) fields) = sorted_keys fields.
Proof. induction fields as [|[k v] [|[k' v'] fields] IH]; [done..|]. cbn [map sorted_keys fst snd] in *. by destruct (String.compare k k'). Qed.

Lemma fields_named fields acc n : bson_fields_size fields acc = Ok n -> forall kv, In kv fields -> find_char NUL kv.1 = None.
Proof.
  revert acc. induction fields as [|[k v] fields IH]; intros acc H kv; [done|]. cbn [bson_fields_size] in H. destruct (calc_bson_element_size k v) as [m|] eqn:E; [|done].
  intros [<-|Hin]; [|by eapply IH]. destruct v; cbn [calc_bson_element_size] in E; destruct (calc_bson_entry_header_size k) eqn:Eh; try done; by apply entry_header_size in Eh as [? _].
Qed.

(** An object, from its size to the last zero. *)
Lemma object_reads fields bs fuel : Forall (fun kv => element_reads kv.2) fields -> write_bson_object fields = Ok bs -> bson_value (JObject fields) = true ->
  (length bs <= fuel)%nat -> reads_true (bson_document (parse_bson_element_list fuel) false) bs (bson_view (JObject fields)).
Proof.
  intros Hr Hw Hv Hf. apply value_fields in Hv as (Hs & _ & _ & Hv). unfold write_bson_object, calc_bson_object_size in Hw.
  destruct (bson_fields_size fields 0) as [n|] eqn:En; [|done]. destruct (write_bson_fields fields) as [els|] eqn:Ee; [|done]. cbn [mbind res_bind] in Hw.
  assert (bs = le_bytes 4 (4 + n + 1) ++ els ++ [0]) as -> by congruence. rewrite !length_app, le_bytes_length in Hf. cbn [length] in Hf.
  destruct (signed4_takes (le_bytes 4 (4 + n + 1)) (le_bytes_length _ _)) as [m Hm]. unfold bson_document. eapply takes_true; [exact Hm|]. intros rest d Hd. cbv [mbind M_bind].
  unfold emit at 1. cbn [dom_event handler input]. rewrite Z.eqb_refl. cbn [negb andb]. rewrite <- app_assoc. cbn [app].
  destruct (list_fields fields Hr els fuel Ee ltac:(intros kv Hin; split; [by eapply fields_named|by apply Hv]) ltac:(lia) rest (root d) [] None (ref_stack d)) as [key' ->].
  unfold emit. cbn [dom_event handler ref_stack root input]. rewrite handle_place by done. rewrite set_fields_sorted by (rewrite ?view_keys; done). by destruct d.
Qed.

Lemma array_reads items size els fuel : Forall element_reads items -> write_bson_items items 0 = Ok els -> bson_value (JArray items) = true ->
  (length els < fuel)%nat -> reads_true (bson_document (parse_bson_element_list fuel) true) (le_bytes 4 size ++ els ++ [0]) (bson_view (JArray items)).
Proof.
  intros Hr Hw Hv Hf. apply value_items in Hv as (_ & _ & Hv). destruct (signed4_takes (le_bytes 4 size) (le_bytes_length _ _)) as [m Hm].
  unfold bson_document. eapply takes_true; [exact Hm|]. intros rest d Hd. cbv [mbind M_bind].
  unfold emit at 1. cbn [dom_event handler input]. rewrite Z.eqb_refl. cbn [negb andb]. rewrite <- app_assoc. cbn [app].
  rewrite (list_items items Hr 0%nat els fuel Hw Hv Hf). unfold emit. cbn [dom_event handler ref_stack root input]. rewrite handle_place by done. by destruct d.
Qed.

Lemma integer_reads z : - 2 ^ 63 <= z < 2 ^ 64 -> forall name doc, exists t p, write_bson_integer name z = write_bson_entry_header name t ++ p /\ 0 < t /\
  reads_true (parse_bson_element_internal doc t) p (JInt z).
Proof.
  intros Hz name doc. unfold write_bson_integer. destruct (_ && _) eqn:E; [|destruct (Z.ltb_spec z (2 ^ 63))]; eexists _, _; (split; [reflexivity|]); (split; [done|]).
  - apply (takes_leaf_true (get_signed_le 4) ev_number_integer _ z); [|done|done]. apply (signed_le_takes 4); [lia|]. unfold INT_MAX in E. cbn. lia.
  - apply (takes_leaf_true (get_signed_le 8) ev_number_integer _ z); [|done|done]. apply (signed_le_takes 8); [lia|]. cbn. lia.
  - apply (takes_leaf_true (get_number_le 8) ev_number_unsigned _ z); [|done|done]. apply (get_le_takes 8). cbn. unfold INT_MAX in E. lia.
Qed.

Lemma string_takes s : Z.of_nat (String.length s) < 2 ^ 31 - 1 -> takes (get_bson_string (Z.of_nat (String.length s) + 1)) (bytes_of s ++ [0]) (Some s).
Proof.
  intros H. unfold get_bson_string. destruct (Z.ltb_spec (Z.of_nat (String.length s) + 1) 1); [lia|]. eapply takes_bind; [apply get_string_takes; lia|].
  by intros rest d.
Qed.

Lemma all_element_reads j : element_reads j.
Proof.
  induction j as [|fields IH|items IH|s|b|z|x|bs st] using json_nested_ind; intros name out fuel Hw Hv Hf.
  - exists 0x0A, []. injection Hw as <-. split; [by rewrite app_nil_r|]. split; [done|]. by apply leaf_true.
  - rewrite write_object_eq in Hw. destruct (write_bson_object fields) as [els|] eqn:E; [|done]. exists 0x03, els. assert (out = write_bson_entry_header name 0x03 ++ els) as -> by (cbn in Hw; congruence).
    split; [done|]. split; [done|]. rewrite length_app in Hf. apply (object_reads fields els fuel IH E Hv). lia.
  - rewrite write_array_eq in Hw. destruct (calc_bson_array_size items) as [size|]; [|done]. destruct (write_bson_items items 0) as [els|] eqn:E; [|done]. cbn [mbind res_bind] in Hw.
    exists 0x04, (le_bytes 4 size ++ els ++ [0]). assert (out = write_bson_entry_header name 0x04 ++ le_bytes 4 size ++ els ++ [0]) as -> by congruence.
    split; [done|]. split; [done|]. rewrite !length_app, header_length in Hf. apply (array_reads items size els fuel IH E Hv). lia.
  - cbn [binary_value bson_value] in Hv. unfold bson_value in Hv. cbn [binary_value] in Hv. exists 0x02, (le_bytes 4 (Z.of_nat (String.length s) + 1) ++ bytes_of s ++ [0]).
    cbn [write_bson_element] in Hw. split; [unfold write_bson_string in Hw; congruence|]. split; [done|]. apply (takes_true (get_signed_le 4) _ (Z.of_nat (String.length s) + 1)); [apply (signed_le_takes 4); [lia|cbn; lia]|].
    rewrite <- (app_nil_r (bytes_of s ++ [0])). eapply takes_true; [apply string_takes; lia|]. by apply leaf_true.
  - exists 0x08, [if b then 1 else 0]. cbn [write_bson_element] in Hw. split; [unfold write_bson_boolean in Hw; congruence|]. split; [done|].
    apply (takes_leaf_true get _ _ (Some (if b then 1 else 0))); [apply get_takes|done|by destruct b].
  - unfold bson_value in Hv. cbn [binary_value] in Hv. cbn [write_bson_element] in Hw.
    destruct (integer_reads z ltac:(lia) name (bson_document (parse_bson_element_list fuel))) as (t & p & E & Ht & Hp). exists t, p. split; [congruence|done].
  - unfold bson_value in Hv. cbn [binary_value] in Hv. cbn [write_bson_element] in Hw. exists 0x01, (le_bytes 8 (double_bits x)). split; [unfold write_bson_double in Hw; congruence|]. split; [done|].
    destruct (decode_encode 52 11 x) as [R E]; [lia|lia|apply canonical_valid; intros Hx; by rewrite Hx in Hv|].
    apply (takes_leaf_true (get_number_le 8) _ _ (double_bits x)); [by apply (get_le_takes 8)|done|]. cbn [bson_view leaf_value]. f_equal. symmetry. exact E.
  - unfold bson_value in Hv. cbn [binary_value] in Hv. apply andb_true_iff in Hv as [[H1 _]%andb_true_iff _]. cbn [write_bson_element] in Hw.
    set (t := match st with Some t => t | None => 0 end) in *. exists 0x05, (le_bytes 4 (Z.of_nat (length bs)) ++ be_bytes 1 t ++ bs).
    split; [unfold write_bson_binary in Hw; fold t in Hw; congruence|]. split; [done|]. apply (takes_true (get_signed_le 4) _ (Z.of_nat (length bs))); [apply (signed_le_takes 4); [lia|cbn; lia]|].
    apply (takes_leaf_true _ (fun b => ev_binary b.1 b.2) _ (bs, Some (t mod 256))); [|done|by destruct st]. unfold get_bson_binary. destruct (Z.ltb_spec (Z.of_nat (length bs)) 0); [lia|].
    assert (be_bytes 1 t = be_bytes 1 (t mod 256)) as -> by (unfold be_bytes; f_equal; symmetry; apply (le_bytes_mod 1)).
    eapply takes_bind; [apply (get_be_takes 1); cbn; apply Z.mod_pos_bound; lia|]. intros rest d. cbv [mbind M_bind]. by rewrite get_binary_takes.
Qed.

(** C28: A document written as BSON reads back as the same value, with the byte strings' subtypes as bytes, 0 for one that has none. *)
Theorem bson_roundtrip (j : json) (bytes : list Z) : bson_value j = true -> to_bson j = Ok bytes -> from_bson bytes = Ok (Some (bson_view j)).
Proof.
  intros Hv Hw. destruct j as [|fields| | | | | |]; try done. cbn [to_bson] in Hw.
  pose proof (object_reads fields bytes (length bytes + 1) ltac:(apply Forall_true; intros; apply all_element_reads) Hw Hv ltac:(lia) [] (mk_dom JNull []) I) as H.
  rewrite app_nil_r in H. unfold from_bson, parse_bson_internal. cbv [mbind M_bind]. by rewrite H.
Qed.

Definition bson_sample : json :=
  JObject [("a", JArray [JInt 5; JInt (2 ^ 64 - 1); JFloat (S754_finite true 1 (-1074)); JNull; JBinary [1; 2] None]); ("b", JString "xyz"); ("c", JBool false)].

Lemma bson_roundtrip_witness : exists bytes, to_bson bson_sample = Ok bytes /\ from_bson bytes = Ok (Some (bson_view bson_sample)).
Proof.
  destruct (to_bson bson_sample) as [bytes|e] eqn:E; [|vm_compute in E; discriminate E]. exists bytes. split; [reflexivity|].
  apply (bson_roundtrip bson_sample bytes); [vm_compute; reflexivity|exact E].
Defined.

Lemma bson_document_size_witness : exists rest, [12; 0; 0; 0; 16; 107; 0; 1; 0; 0; 0; 0] = le_bytes 4 12 ++ rest.
Proof.
  destruct (bson_document_size [("k", JInt 1)] [12; 0; 0; 0; 16; 107; 0; 1; 0; 0; 0; 0]) as (rest & H & _); [vm_compute; reflexivity|]. exists rest. exact H.
Defined.

(** A BSON input that ends right before the zero of a string gives a discarded value and no exception, although every
    other end of the input is a parse error. *)
Theorem bson_cut_string (size : Z) (key s : string) : find_char NUL key = None -> Z.of_nat (String.length s) < 2 ^ 31 - 1 ->
  from_bson (le_bytes 4 size ++ write_bson_entry_header key 0x02 ++ le_bytes 4 (Z.of_nat (String.length s) + 1) ++ bytes_of s) = Ok None.
Proof.
  intros Hk Hs. unfold from_bson, parse_bson_internal. set (bytes := (_ ++ _ ++ _ ++ _)). rewrite Nat.add_1_r. generalize (length bytes). intros fuel. unfold bytes. clear bytes.
  destruct (signed4_takes (le_bytes 4 size) (le_bytes_length _ _)) as [m Hm]. unfold bson_document. cbv [mbind M_bind]. rewrite Hm. unfold emit at 1. cbn [dom_event handler input]. rewrite Z.eqb_refl. cbn [negb andb].
  cbn [parse_bson_element_list]. cbv [mbind M_bind]. unfold write_bson_entry_header. cbn [app get input]. cbn [Z.eqb]. rewrite cstr_takes by done.
  unfold emit at 1. cbn [dom_event handler input ref_stack root]. unfold parse_bson_element_internal. cbn [Z.eqb Pos.eqb]. cbv [mbind M_bind].
  rewrite (signed_le_takes 4 (Z.of_nat (String.length s) + 1)) by (cbn; lia). unfold get_bson_string. destruct (Z.ltb_spec (Z.of_nat (String.length s) + 1) 1); [lia|].
  cbv [mbind M_bind]. rewrite <- (app_nil_r (bytes_of s)). rewrite get_string_takes by lia. done.
Qed.

Lemma bson_cut_string_witness : from_bson [0; 0; 0; 0; 2; 65; 0; 3; 0; 0; 0; 66; 67] = Ok None.
Proof. apply (bson_cut_string 0 "A" "BC"); [reflexivity|cbn; lia]. Defined.
