(* ===== verification/Config.v ===== *)
(** * config_manager.cpp: the settings

    The settings of the programs: the environment file, the JSON file, and the address of the video
    stream made from them.  The contents of the two files and the environment of the process are
    arguments; [g_config] is the state. *)

From S2P Require Import Prelude Str Decimal Json Numbers JsonText JsonSpec.
From Stdlib Require Import Ascii SpecFloat.
From Stdlib Require String.

Local Open Scope string_scope.
Local Open Scope Z_scope.

Record AppConfig := mk_config {
  username : string;
  password : string;
  host : string;
  rtsp_port : string;
  rtsp_path : string;
  db_file : string;
  trackid : string;
  dist_threshold : spec_float;
  parallelism_threshold : spec_float;
  frame_cache_size : Z;
  history_size : Z;
  scale_x : spec_float;
  scale_y : spec_float;
  base_x : spec_float;
  base_y : spec_float;
  board_ports : gmap string string;
  retry_count : Z;
  timeout_ms : Z }.

(** The global [g_config] before anything is loaded. *)
Definition zero_float : spec_float := S754_zero false.
Definition empty_config : AppConfig :=
  mk_config "" "" "" "" "" "" "" zero_float zero_float 0 0 zero_float zero_float zero_float zero_float ∅ 0 0.

Definition put_login (u p h port path db track : string) (c : AppConfig) : AppConfig :=
  mk_config u p h port path db track (dist_threshold c) (parallelism_threshold c) (frame_cache_size c)
    (history_size c) (scale_x c) (scale_y c) (base_x c) (base_y c) (board_ports c) (retry_count c) (timeout_ms c).
Definition put_detection (d p : spec_float) (c : AppConfig) : AppConfig :=
  mk_config (username c) (password c) (host c) (rtsp_port c) (rtsp_path c) (db_file c) (trackid c) d p (frame_cache_size c)
    (history_size c) (scale_x c) (scale_y c) (base_x c) (base_y c) (board_ports c) (retry_count c) (timeout_ms c).
Definition put_cache (f h : Z) (c : AppConfig) : AppConfig :=
  mk_config (username c) (password c) (host c) (rtsp_port c) (rtsp_path c) (db_file c) (trackid c) (dist_threshold c)
    (parallelism_threshold c) f h (scale_x c) (scale_y c) (base_x c) (base_y c) (board_ports c) (retry_count c) (timeout_ms c).
Definition put_scale (x y bx by_ : spec_float) (c : AppConfig) : AppConfig :=
  mk_config (username c) (password c) (host c) (rtsp_port c) (rtsp_path c) (db_file c) (trackid c) (dist_threshold c)
    (parallelism_threshold c) (frame_cache_size c) (history_size c) x y bx by_ (board_ports c) (retry_count c) (timeout_ms c).
Definition put_board (ports : gmap string string) (r t : Z) (c : AppConfig) : AppConfig :=
  mk_config (username c) (password c) (host c) (rtsp_port c) (rtsp_path c) (db_file c) (trackid c) (dist_threshold c)
    (parallelism_threshold c) (frame_cache_size c) (history_size c) (scale_x c) (scale_y c) (base_x c) (base_y c) ports r t.

(** ** The environment file *)

Definition newline : ascii := Ascii.ascii_of_nat 10.
Definition is_blank (c : ascii) : bool := (code c =? 32) || (code c =? 9).

(** The lines [getline] reads one after the other: the text behind the last newline is a line unless
    it is empty. *)
Fixpoint lines_of (s : string) : list string :=
  match s with
  | EmptyString => []
  | String c s =>
      if Ascii.eqb c newline then "" :: lines_of s
      else match lines_of s with
           | l :: ls => String c l :: ls
           | [] => [String c ""]
           end
  end.

(** [s.erase(0, s.find_first_not_of(blanks))]: everything goes when there is no other character. *)
Fixpoint trim_left (s : string) : string :=
  match s with String c s' => if is_blank c then trim_left s' else s | EmptyString => "" end.

(** [s.erase(s.find_last_not_of(blanks) + 1)]; [npos + 1] is 0. *)
Fixpoint trim_right (s : string) : string :=
  match s with
  | EmptyString => ""
  | String c s => if is_blank c && all_chars is_blank s then "" else String c (trim_right s)
  end.

Definition trim (s : string) : string := trim_right (trim_left s).

(** The environment of the process; [setenv] refuses an empty name. *)
Definition environment : Type := gmap string string.
Definition setenv (key value : string) (e : environment) : environment :=
  if str_empty (c_str key) then e else <[c_str key := c_str value]> e.

(** The body of the loop over the lines. *)
Definition env_line (line : string) (e : environment) : environment :=
  match line with
  | EmptyString => e
  | String c _ =>
      if Ascii.eqb c "#" then e
      else match find_char "=" line with
           | None => e
           | Some pos => setenv (trim (str_take pos line)) (trim (str_drop (pos + 1) line)) e
           end
  end.

(** [file] is the content of [.env], [None] when it cannot be opened. *)
Definition load_env_variables (file : option string) (e : environment) : M AppConfig (bool * environment) :=
  match file with
  | None => mret (false, e)
  | Some text =>
      let e := foldl (fun e line => env_line line e) e (lines_of text) in
      match e !! "USERNAME", e !! "PASSWORD", e !! "HOST", e !! "RTSP_PORT", e !! "RTSP_PATH", e !! "DB_FILE" with
      | Some u, Some p, Some h, Some port, Some path, Some db =>
          modS (put_login u p h port path db (default "" (e !! "TRACKID"))) ;; mret (true, e)
      | _, _, _, _, _, _ => mret (false, e)
      end
  end.

(** ** The JSON file *)

(** [config_file >> config]: unlike [json::parse], what follows the value is not looked at. *)
Definition parse_stream (text : list Z) : res json :=
  let '(t, l) := first_scan text in
  '(j, _) ← sax_parse_internal (2 * length text + 2) (at_value t) l [];
  Ok j.

(** [get<float>()], which takes booleans too, and [get<size_t>()]. *)
Definition get_float (j : json) : res spec_float :=
  match j with
  | JInt z => Ok (float_of_int z)
  | JFloat d => Ok (float_of_double d)
  | JBool b => Ok (float_of_int (if b then 1 else 0))
  | _ => Throw (json_type_error 302)
  end.

(** [static_cast<size_t>] of a double: towards zero, undefined outside of the range. *)
Definition size_of_double (d : double) : res Z :=
  match d with
  | S754_zero _ => Ok 0
  | S754_finite s m e =>
      let a := if 0 <=? e then Z.pos m * 2 ^ e else Z.pos m / 2 ^ (- e) in
      let z := if s then - a else a in
      if (0 <=? z) && (z <? 2 ^ 64) then Ok z else Throw undefined_behavior
  | _ => Throw undefined_behavior
  end.

Definition get_size (j : json) : res Z :=
  match j with
  | JInt z => Ok (u64 z)
  | JFloat d => size_of_double d
  | _ => Throw (json_type_error 302)
  end.

(** [config[a][b].get<T>()]. *)
Definition config_at {A} (get : json -> res A) (config : json) (a b : string) : M AppConfig A :=
  liftR (j ← json_at_mut config a; j ← json_at_mut j b; get j).

(** The loop over the four ports, after [board_ports.clear()]. *)
Fixpoint load_ports (config : json) (is_ : list Z) : M AppConfig unit :=
  match is_ with
  | [] => mret tt
  | i :: is_ =>
      port ← liftR (j ← json_at_mut config "board"; j ← json_at_mut j "ports"; j ← json_at_mut j (to_string i); get_string j);
      c ← getS;
      putS (put_board (<[to_string i := port]> (board_ports c)) (retry_count c) (timeout_ms c) c) ;;
      load_ports config is_
  end.

(** The assignments one after the other: those before an exception stay. *)
Definition load_settings (config : json) : M AppConfig unit :=
  v ← config_at get_float config "detection" "dist_threshold";
  modS (fun c => put_detection v (parallelism_threshold c) c) ;;
  v ← config_at get_float config "detection" "parallelism_threshold";
  modS (fun c => put_detection (dist_threshold c) v c) ;;
  n ← config_at get_size config "cache" "frame_cache_size";
  modS (fun c => put_cache n (history_size c) c) ;;
  n ← config_at get_int config "cache" "history_size";
  modS (fun c => put_cache (frame_cache_size c) n c) ;;
  v ← config_at get_float config "scale" "x";
  modS (fun c => put_scale v (scale_y c) (base_x c) (base_y c) c) ;;
  v ← config_at get_float config "scale" "y";
  modS (fun c => put_scale (scale_x c) v (base_x c) (base_y c) c) ;;
  v ← config_at get_float config "scale" "base_x";
  modS (fun c => put_scale (scale_x c) (scale_y c) v (base_y c) c) ;;
  v ← config_at get_float config "scale" "base_y";
  modS (fun c => put_scale (scale_x c) (scale_y c) (base_x c) v c) ;;
  n ← config_at get_int config "board" "retry_count";
  modS (fun c => put_board (board_ports c) n (timeout_ms c) c) ;;
  n ← config_at get_int config "board" "timeout_ms";
  modS (fun c => put_board (board_ports c) (retry_count c) n c) ;;
  modS (fun c => put_board ∅ (retry_count c) (timeout_ms c) c) ;;
  load_ports config [1; 2; 3; 4].

(** [file] is the content of [config.json], [None] when it cannot be opened. *)
Definition load_json_config (file : option string) : M AppConfig bool :=
  match file with
  | None => mret false
  | Some text =>
      try_catch (config ← liftR (parse_stream (bytes_of text)); load_settings config ;; mret true)
        is_std_exception (fun _ => mret false)
  end.

(** Both are loaded, whatever the first returns. *)
Definition load_all_config (env_file config_file : option string) (e : environment) : M AppConfig (bool * environment) :=
  '(env_ok, e) ← load_env_variables env_file e;
  json_ok ← load_json_config config_file;
  mret (env_ok && json_ok, e).

(** ** The address of the video stream *)

Definition get_rtsp_url (c : AppConfig) : string :=
  let pw := match find_char "@" (password c) with
            | Some at_pos => str_take at_pos (password c) +:+ "%40" +:+ str_drop (at_pos + 1) (password c)
            | None => password c
            end in
  "rtsp://" +:+ username c +:+ ":" +:+ pw +:+ "@" +:+ host c +:+ ":" +:+ rtsp_port c +:+ rtsp_path c.

(** ** The environment file, read back *)

Definition blanks (s : string) : bool := all_chars is_blank s.

(** A text that does not begin or end with a blank. *)
Definition bare (s : string) : bool := String.eqb (trim s) s.

Definition line_char (c : ascii) : bool := negb (Ascii.eqb c newline) && negb (code c =? 0).

(** A line of an environment file: a comment, or a setting with blanks around its name and value. *)
Inductive env_item :=
| env_comment (s : string)
| env_setting (a key b c value d : string).

Definition item_text (i : env_item) : string :=
  match i with
  | env_comment s => "#" +:+ s
  | env_setting a key b c value d => a +:+ key +:+ b +:+ "=" +:+ c +:+ value +:+ d
  end.

Definition item_ok (i : env_item) : bool :=
  all_chars line_char (item_text i) &&
  match i with
  | env_comment _ => true
  | env_setting a key b c value d =>
      blanks a && blanks b && blanks c && blanks d && bare key && bare value
      && negb (str_empty key) && negb (has_char "=" key) && negb (prefixb "#" key)
  end.

Definition file_text (items : list env_item) : string :=
  foldr (fun i s => item_text i +:+ String newline s) "" items.

(** What a line is meant to do. *)
Definition item_effect (e : environment) (i : env_item) : environment :=
  match i with env_comment _ => e | env_setting _ key _ _ value _ => <[key := value]> e end.

(** The names without which the program does not start. *)
Definition required (e : environment) : option (string * string * string * string * string * string) :=
  u ← e !! "USERNAME"; p ← e !! "PASSWORD"; h ← e !! "HOST"; port ← e !! "RTSP_PORT"; path ← e !! "RTSP_PATH";
  db ← e !! "DB_FILE"; Some (u, p, h, port, path, db).

Lemma lines_of_app l s : all_chars line_char l = true -> lines_of (l +:+ String newline s) = l :: lines_of s.
Proof.
  induction l as [|c l IH]; cbn [all_chars]; intros H.
  - cbn [String.append lines_of]. by rewrite Ascii.eqb_refl.
  - breflect. rewrite append_cons. cbn [lines_of]. unfold line_char in H. breflect.
    rewrite IH by done. by destruct (Ascii.eqb c newline).
Qed.

Lemma trim_left_blanks a s : blanks a = true -> trim_left (a +:+ s) = trim_left s.
Proof.
  unfold blanks. induction a as [|c a IH]; cbn [all_chars]; intros H; [done|]. breflect. rewrite append_cons. cbn [trim_left].
  rewrite H. by apply IH.
Qed.

Lemma trim_right_all s : blanks s = true -> trim_right s = "".
Proof.
  unfold blanks. destruct s as [|c s]; cbn [all_chars trim_right]; [done|]. by intros ->.
Qed.

Lemma trim_right_blanks s d : blanks d = true -> trim_right (s +:+ d) = trim_right s.
Proof.
  intros Hd. induction s as [|c s IH].
  - cbn [String.append]. by rewrite trim_right_all.
  - rewrite append_cons. cbn [trim_right]. rewrite all_chars_app. fold (blanks d). rewrite Hd, andb_true_r.
    destruct (is_blank c && all_chars is_blank s); [done|]. by rewrite IH.
Qed.

Lemma trim_left_app s d : blanks s = false -> trim_left (s +:+ d) = trim_left s +:+ d.
Proof.
  unfold blanks. induction s as [|c s IH]; cbn [all_chars]; [done|]. rewrite append_cons. cbn [trim_left].
  destruct (is_blank c); cbn [andb]; intros H; [by apply IH|done].
Qed.

Lemma trim_bare a s d : blanks a = true -> blanks d = true -> bare s = true -> trim (a +:+ s +:+ d) = s.
Proof.
  intros Ha Hd Hs. apply String.eqb_eq in Hs. unfold trim in *. rewrite trim_left_blanks by done.
  destruct (blanks s) eqn:Hb.
  - assert (s = "") as ->.
    { rewrite <- Hs. pose proof (trim_left_blanks s "" Hb) as E. rewrite append_nil in E. by rewrite E. }
    cbn [String.append]. pose proof (trim_left_blanks d "" Hd) as E. rewrite append_nil in E. by rewrite E.
  - rewrite trim_left_app, trim_right_blanks by done. done.
Qed.

Lemma blanks_no_eq s : blanks s = true -> has_char "=" s = false.
Proof. by apply all_chars_has_no. Qed.

Lemma line_char_c_str s : all_chars line_char s = true -> c_str s = s.
Proof.
  intros H. apply c_str_id. revert H. apply all_chars_impl. intros c. unfold line_char. by destruct (Ascii.eqb c newline), (code c =? 0).
Qed.

Lemma env_line_setting a key b c value d e : item_ok (env_setting a key b c value d) = true ->
  env_line (item_text (env_setting a key b c value d)) e = <[key := value]> e.
Proof.
  unfold item_ok. cbn [item_text]. rewrite !all_chars_app. intros H. breflect.
  assert (Hn : has_char "=" (a +:+ key +:+ b) = false).
  { rewrite !has_char_app, (blanks_no_eq a), (blanks_no_eq b) by done. by destruct (has_char "=" key). }
  assert (Ht : a +:+ key +:+ b +:+ "=" +:+ c +:+ value +:+ d = (a +:+ key +:+ b) +:+ "=" +:+ (c +:+ value +:+ d))
    by (by rewrite !append_assoc).
  assert (Hl : env_line (a +:+ key +:+ b +:+ "=" +:+ c +:+ value +:+ d) e
               = match find_char "=" (a +:+ key +:+ b +:+ "=" +:+ c +:+ value +:+ d) with
                 | None => e
                 | Some pos => setenv (trim (str_take pos (a +:+ key +:+ b +:+ "=" +:+ c +:+ value +:+ d)))
                                 (trim (str_drop (pos + 1) (a +:+ key +:+ b +:+ "=" +:+ c +:+ value +:+ d))) e
                 end).
  { destruct a as [|x a]; [destruct key as [|x key]; [done|]|]; rewrite ?append_cons; cbn [env_line String.append];
      rewrite ?append_cons; cbn [env_line].
    - destruct (Ascii.eqb_spec x "#") as [->|]; [|done]. cbn in *. done.
    - destruct (Ascii.eqb_spec x "#") as [->|]; [|done]. unfold blanks in *. cbn in *. done. }
  rewrite Hl, Ht, find_char_app by done. cbn [find_char String.append Ascii.eqb Bool.eqb fmap option_fmap option_map].
  rewrite Nat.add_0_r, str_take_app, str_drop_add, str_drop_app. cbn [str_drop]. rewrite !trim_bare by done.
  unfold setenv. rewrite !line_char_c_str by done. by destruct (str_empty key).
Qed.

Lemma env_line_comment s e : env_line (item_text (env_comment s)) e = e.
Proof. done. Qed.

Lemma env_lines items e : Forall (fun i => item_ok i = true) items ->
  foldl (fun e line => env_line line e) e (lines_of (file_text items)) = foldl item_effect e items.
Proof.
  intros H. revert e. induction H as [|i items Hi _ IH]; intros e; [done|].
  unfold file_text. cbn [foldr]. fold (file_text items).
  rewrite lines_of_app by (unfold item_ok in Hi; by apply andb_prop in Hi as [? _]). cbn [foldl]. rewrite IH.
  destruct i as [s|a key b c value d]; [done|]. by rewrite env_line_setting.
Qed.

(** C36: an environment file of comments and settings, with any blanks around names and values, has
    exactly the effect of its settings in order on the environment of the process; the settings of
    the camera and the database are then those of the environment, or are left as they were when one
    of the six required names is missing. *)
Theorem env_file_loaded (items : list env_item) (e : environment) (c : AppConfig) :
  Forall (fun i => item_ok i = true) items ->
  let e' := foldl item_effect e items in
  load_env_variables (Some (file_text items)) e c
  = match required e' with
    | Some (u, p, h, port, path, db) => (Ok (true, e'), put_login u p h port path db (default "" (e' !! "TRACKID")) c)
    | None => (Ok (false, e'), c)
    end.
Proof.
  intros H e'. unfold load_env_variables. rewrite (env_lines items e H). fold e'. unfold required.
  destruct (e' !! "USERNAME"), (e' !! "PASSWORD"), (e' !! "HOST"), (e' !! "RTSP_PORT"), (e' !! "RTSP_PATH"), (e' !! "DB_FILE"); done.
Qed.

Definition some_items : list env_item :=
  [env_comment " the camera"; env_setting "" "USERNAME" "" " " "admin" ""; env_setting "" "PASSWORD" "" "" "a=b c" " ";
   env_setting "" "HOST" " " "" "10.0.0.2" ""; env_setting "" "RTSP_PORT" "" "" "554" "";
   env_setting "" "RTSP_PATH" "" "" "/profile2/media.smp" ""; env_setting "" "DB_FILE" "" "" "server_log.db" ""].

Lemma env_file_loaded_witness :
  exists e', load_env_variables (Some (file_text some_items)) ∅ empty_config
    = (Ok (true, e'), put_login "admin" "a=b c" "10.0.0.2" "554" "/profile2/media.smp" "server_log.db" "" empty_config).
Proof.
  exists (foldl item_effect ∅ some_items). rewrite (env_file_loaded some_items ∅ empty_config) by (repeat constructor).
  assert (required (foldl item_effect ∅ some_items)
          = Some ("admin", "a=b c", "10.0.0.2", "554", "/profile2/media.smp", "server_log.db")) as -> by (by vm_compute).
  assert ((foldl item_effect ∅ some_items : environment) !! "TRACKID" = None) as -> by (by vm_compute). done.
Defined.

(** ** The JSON file, read back *)

(** The object the JSON file is meant to hold. *)
Definition settings_json (dist par : double) (frames history : Z) (x y bx by_ : double) (retries timeout : Z)
    (p1 p2 p3 p4 : string) : json :=
  make_obj
    [("detection", make_obj [("dist_threshold", JFloat dist); ("parallelism_threshold", JFloat par)]);
     ("cache", make_obj [("frame_cache_size", JInt frames); ("history_size", JInt history)]);
     ("scale", make_obj [("x", JFloat x); ("y", JFloat y); ("base_x", JFloat bx); ("base_y", JFloat by_)]);
     ("board", make_obj [("retry_count", JInt retries); ("timeout_ms", JInt timeout);
        ("ports", make_obj [("1", JString p1); ("2", JString p2); ("3", JString p3); ("4", JString p4)])])].

Lemma settings_fields dist par frames history x y bx by_ retries timeout p1 p2 p3 p4 :
  settings_json dist par frames history x y bx by_ retries timeout p1 p2 p3 p4
  = JObject
      [("board", JObject [("ports", JObject [("1", JString p1); ("2", JString p2); ("3", JString p3); ("4", JString p4)]);
                          ("retry_count", JInt retries); ("timeout_ms", JInt timeout)]);
       ("cache", JObject [("frame_cache_size", JInt frames); ("history_size", JInt history)]);
       ("detection", JObject [("dist_threshold", JFloat dist); ("parallelism_threshold", JFloat par)]);
       ("scale", JObject [("base_x", JFloat bx); ("base_y", JFloat by_); ("x", JFloat x); ("y", JFloat y)])].
Proof. reflexivity. Qed.

Definition int_ok (z : Z) : Prop := - 2 ^ 31 <= z <= INT_MAX.

Lemma parse_stream_string s j : parse_string s = Ok j -> parse_stream (bytes_of s) = Ok j.
Proof.
  unfold parse_string, parse, parse_stream. destruct (first_scan (bytes_of s)) as [t l]. cbn [mbind res_bind].
  destruct (sax_parse_internal _ _ _ _) as [[j' l']|e]; cbn [mbind res_bind]; [|done]. by destruct (fst (scan l')).
Qed.

(** C35: settings written as JSON are loaded: whatever finite thresholds and scales, cache sizes,
    board settings and ports the file holds, the text of the object is read without an error and
    [g_config] has them all, the floats rounded from the doubles. *)
Theorem config_file_roundtrip (dist par x y bx by_ : double) (frames history retries timeout : Z)
    (p1 p2 p3 p4 : string) (c : AppConfig) :
  Forall (fun d => canonical_double d = true) [dist; par; x; y; bx; by_] -> Forall int_ok [history; retries; timeout] ->
  0 <= frames < 2 ^ 64 -> Forall (fun p => valid_utf8 p = true) [p1; p2; p3; p4] ->
  exists text, dump_string (settings_json dist par frames history x y bx by_ retries timeout p1 p2 p3 p4) = Ok text
  /\ load_json_config (Some text) c
     = (Ok true, put_board (<["4" := p4]> (<["3" := p3]> (<["2" := p2]> (<["1" := p1]> ∅)))) retries timeout
         (put_scale (float_of_double x) (float_of_double y) (float_of_double bx) (float_of_double by_)
           (put_cache frames history (put_detection (float_of_double dist) (float_of_double par) c)))).
Proof.
  intros Hd Hi Hf Hp. rewrite !Forall_cons in Hd. rewrite !Forall_cons in Hi. rewrite !Forall_cons in Hp. destruct Hd as (D1 & D2 & D3 & D4 & D5 & D6 & _).
  destruct Hi as (I1 & I2 & I3 & _), Hp as (P1 & P2 & P3 & P4 & _).
  assert (Hi : forall z, int_ok z -> (- 2 ^ 63 <=? z) && (z <? 2 ^ 64) = true) by (unfold int_ok, INT_MAX; intros; lia).
  destruct (dump_parse (settings_json dist par frames history x y bx by_ retries timeout p1 p2 p3 p4)) as (text & Et & Ep).
  { rewrite settings_fields. cbn [wf_json]. rewrite D1, D2, D3, D4, D5, D6, P1, P2, P3, P4, (Hi _ I1), (Hi _ I2), (Hi _ I3).
    assert ((- 2 ^ 63 <=? frames) && (frames <? 2 ^ 64) = true) as -> by lia. by vm_compute. }
  rewrite settings_fields in Ep. exists text. split; [done|]. unfold load_json_config, try_catch, mbind, M_bind, liftR. rewrite (parse_stream_string text _ Ep).
  assert (Hs : forall z, int_ok z -> s32 z = z) by (intros z; unfold int_ok, INT_MAX, s32; intros; rewrite Z.mod_small; lia).
  unfold load_settings, config_at, mbind, M_bind, liftR, modS.
  cbn -[float_of_double s32 u64 load_ports insert map_insert]. rewrite (Hs _ I1), (Hs _ I2), (Hs _ I3), u64_id by done.
  unfold load_ports, mbind, M_bind, liftR, getS, putS. reflexivity.
Qed.

(** The numbers of the file of the repository. *)
Definition three_quarters : double := S754_finite false 6755399441055744 (-53).

Lemma config_file_roundtrip_witness :
  exists text c, dump_string (settings_json (double_of_int 10) three_quarters 15 10 (double_of_int 3840) (double_of_int 2160)
    (double_of_int 960) (double_of_int 540) 3 500 "/dev/ttyAMA0" "/dev/ttyAMA2" "/dev/ttyAMA1" "/dev/ttyAMA3") = Ok text
  /\ load_json_config (Some text) empty_config = (Ok true, c) /\ history_size c = 10 /\ board_ports c !! "2" = Some "/dev/ttyAMA2".
Proof.
  destruct (config_file_roundtrip (double_of_int 10) three_quarters (double_of_int 3840) (double_of_int 2160)
    (double_of_int 960) (double_of_int 540) 15 10 3 500 "/dev/ttyAMA0" "/dev/ttyAMA2" "/dev/ttyAMA1" "/dev/ttyAMA3" empty_config)
    as (text & Et & El).
  - repeat constructor.
  - repeat constructor; unfold int_ok, INT_MAX; lia.
  - lia.
  - repeat constructor.
  - exists text. eexists. split; [exact Et|]. split; [exact El|]. split; reflexivity.
Defined.

(** ** The address, taken apart *)

(** How often a character occurs. *)
Fixpoint occurs (c : ascii) (s : string) : nat :=
  match s with EmptyString => 0 | String d s => (if Ascii.eqb d c then 1 else 0) + occurs c s end.

(** The user information and the rest of an address: by RFC 3986 the user information holds no [@],
    so the first one ends it. *)
Definition split_user (url : string) : option (string * string) :=
  match find_char "@" url with
  | Some p => Some (str_take p url, str_drop (p + 1) url)
  | None => None
  end.

Lemma occurs_0 c s : occurs c s = 0%nat <-> has_char c s = false.
Proof.
  induction s as [|d s IH]; cbn [occurs]; [done|]. rewrite has_char_cons.
  destruct (Ascii.eqb d c); cbn [orb]; [split; [lia|done]|]. by rewrite <- IH.
Qed.

Lemma find_char_split c s p : find_char c s = Some p ->
  exists a b, s = a +:+ String c b /\ p = String.length a /\ has_char c a = false.
Proof.
  revert p. induction s as [|d s IH]; intros p; cbn [find_char]; [done|].
  destruct (Ascii.eqb_spec d c) as [->|Hne]; [intros [= <-]; by exists "", s|].
  destruct (find_char c s) as [q|]; [|done]. intros [= <-]. destruct (IH q eq_refl) as (a & b & -> & -> & Ha).
  exists (String d a), b. split_and!; [done..|]. rewrite has_char_cons, Ha. by destruct (Ascii.eqb_spec d c).
Qed.

Lemma occurs_app c s t : occurs c (s +:+ t) = (occurs c s + occurs c t)%nat.
Proof. induction s as [|d s IH]; [done|]. rewrite append_cons. cbn [occurs]. rewrite IH. lia. Qed.

Lemma split_user_at a b : has_char "@" a = false -> split_user (a +:+ "@" +:+ b) = Some (a, b).
Proof.
  intros Ha. unfold split_user. rewrite find_char_app by done. cbn [String.append find_char Ascii.eqb Bool.eqb fmap option_fmap option_map].
  by rewrite Nat.add_0_r, str_take_app, str_drop_add, str_drop_app.
Qed.

(** The address of the video stream names the configured host, port and path exactly when the
    password has at most one [@]: the first [@] of the password is encoded, any other ends the user
    information too early. *)
Theorem rtsp_url_host (c : AppConfig) : has_char "@" (username c) = false ->
  (exists user, split_user (get_rtsp_url c) = Some (user, host c +:+ ":" +:+ rtsp_port c +:+ rtsp_path c))
  <-> (occurs "@" (password c) <= 1)%nat.
Proof.
  intros Hu. unfold get_rtsp_url. set (rest := host c +:+ ":" +:+ rtsp_port c +:+ rtsp_path c).
  set (pw := match find_char "@" (password c) with Some _ => _ | None => _ end).
  assert (Hpw : occurs "@" pw = (occurs "@" (password c) - 1)%nat).
  { unfold pw. destruct (find_char "@" (password c)) as [p|] eqn:E.
    - apply find_char_split in E as (a & b & -> & -> & Ha). apply occurs_0 in Ha.
      rewrite str_take_app, str_drop_add, str_drop_app, !occurs_app. cbn [str_drop occurs Ascii.eqb Bool.eqb]. rewrite Ha. lia.
    - assert (Hn : has_char "@" (password c) = false) by (unfold has_char; by rewrite E). apply occurs_0 in Hn. lia. }
  assert (Eu : "rtsp://" +:+ username c +:+ ":" +:+ pw +:+ "@" +:+ rest = ("rtsp://" +:+ username c +:+ ":" +:+ pw) +:+ "@" +:+ rest)
    by (by rewrite !append_assoc).
  rewrite Eu. destruct (has_char "@" pw) eqn:Hp.
  - assert (1 < occurs "@" (password c))%nat.
    { destruct (decide (occurs "@" pw = 0%nat)) as [E|]; [apply occurs_0 in E; congruence|lia]. }
    split; [|lia]. intros [user Hs]. exfalso.
    destruct (find_char "@" pw) as [q|] eqn:Eq; [|unfold has_char in Hp; by rewrite Eq in Hp].
    apply find_char_split in Eq as (a & b & Epw & _ & Ha). rewrite Epw in Hs.
    assert (Es : ("rtsp://" +:+ username c +:+ ":" +:+ a +:+ String "@" b) +:+ "@" +:+ rest
                 = ("rtsp://" +:+ username c +:+ ":" +:+ a) +:+ "@" +:+ (b +:+ "@" +:+ rest)) by (by rewrite !append_assoc).
    rewrite Es, split_user_at in Hs by (rewrite !has_char_app, Hu, Ha; reflexivity). injection Hs as _ Hr.
    apply (f_equal String.length) in Hr. rewrite !append_length in Hr. cbn in Hr. lia.
  - apply occurs_0 in Hp. split; [lia|]. intros _. eexists. rewrite split_user_at; [done|].
    apply occurs_0 in Hp. rewrite !has_char_app, Hu, Hp. reflexivity.
Qed.

Lemma rtsp_url_host_witness :
  exists user, split_user (get_rtsp_url (put_login "admin" "p@ss" "10.0.0.2" "554" "/live" "" "" empty_config))
    = Some (user, "10.0.0.2:554/live").
Proof.
  apply (proj2 (rtsp_url_host (put_login "admin" "p@ss" "10.0.0.2" "554" "/live" "" "" empty_config) eq_refl)). vm_compute. lia.
Defined.
