(* ===== verification/Startup.v ===== *)
(** * server.cpp, tcp_run and rtsp_run: the start of the server

    What the two threads of the server do until they wait for connections, with the answers of
    OpenSSL, libcurl, the sockets and GStreamer as arguments; both threads load the configuration. *)

From S2P Require Import Prelude Str Json Numbers Config.
From Stdlib Require Import Ascii.
From Stdlib Require String.

Local Open Scope string_scope.
Local Open Scope Z_scope.

(** ** ssl.cpp: the context *)

Definition init_openssl : bool := true.

(** The contexts that could be made: [None] is the null pointer, [Some tt] the context. *)
Definition create_ssl_context (made : bool) : option unit := if made then Some tt else None.

(** [false] is [exit(EXIT_FAILURE)]. *)
Definition configure_ssl_context (certificate key : bool) : bool :=
  if negb certificate then false else if negb key then false else true.

(** ** The process *)

(** The environment, which [setenv] changes, and the global configuration. *)
Record process := mk_process { p_env : environment; g_config : AppConfig }.

Definition load_process (env_file config_file : option string) (p : process) : res bool * process :=
  match load_all_config env_file config_file (p_env p) (g_config p) with
  | (Ok (ok, e), cfg) => (Ok ok, mk_process e cfg)
  | (Throw x, cfg) => (Throw x, mk_process (p_env p) cfg)
  end.

(** ** tcp_run *)

(** The answers of the system. *)
Record tcp_system := mk_tcp_system {
  ctx_made : bool; certificate_ok : bool; key_ok : bool; curl_ok : bool; bind_ok : bool; listen_ok : bool;
  accepted : list Z (* what [accept] returns, one call after the other *) }.

Inductive tcp_end :=
| tcp_return (code : Z)
| tcp_exit                      (* exit(EXIT_FAILURE) *)
| tcp_terminate (e : exn)       (* an exception leaves the thread *)
| tcp_serving (sockets : list Z) (* in the loop, with the sockets handed to threads *).

(** The loop: a failed [accept] is passed over. *)
Definition accept_loop (fds : list Z) : list Z := List.filter (fun new_socket => negb (new_socket <? 0)) fds.

Definition tcp_run {D} (env_file config_file : option string) (open_db : string -> res D) (sys : tcp_system)
    (p : process) : tcp_end * process :=
  match load_process env_file config_file p with
  | (Throw x, p) => (tcp_terminate x, p)
  | (Ok false, p) => (tcp_return (-1), p)
  | (Ok true, p) =>
      if negb init_openssl then (tcp_return (-1), p)
      else match create_ssl_context (ctx_made sys) with
      | None => (tcp_return (-1), p)
      | Some _ =>
          if negb (configure_ssl_context (certificate_ok sys) (key_ok sys)) then (tcp_exit, p)
          else match open_db (db_file (g_config p)) with
          | Throw x => (tcp_terminate x, p)
          | Ok _ =>
              if negb (curl_ok sys) then (tcp_return (-1), p)
              else if negb (bind_ok sys) then (tcp_return (-1), p)
              else if negb (listen_ok sys) then (tcp_return (-1), p)
              else (tcp_serving (accept_loop (accepted sys)), p)
          end
      end
  end.

(** ** rtsp_server.cpp *)

Definition CCTV_MOUNT_POINT : string := "/original".
Definition CCTV_MOUNT_POINT_ALT : string := "/retransmit".
Definition NIGHT_CCTV_MOUNT_POINT : string := "/night".

Definition pipeline_description (rtsp_url : string) : string :=
  "rtspsrc location=" +:+ rtsp_url +:+ " latency=0 ! " +:+ "rtph264depay ! " +:+ "queue ! " +:+ "h264parse ! "
  +:+ "rtph264pay name=pay0 pt=96 config-interval=1".

Definition pipeline_description2 (rtsp_url : string) : string :=
  "rtspsrc location=" +:+ rtsp_url +:+ " latency=0 ! " +:+ "rtph264depay ! " +:+ "queue ! " +:+ "h264parse ! " +:+ "avdec_h264 ! "
  +:+ "queue ! " +:+ "videobalance brightness=0.19 contrast=0.7 ! " +:+ "x264enc tune=zerolatency ! " +:+ "h264parse ! "
  +:+ "rtph264pay name=pay0 pt=96".

Record rtsp_system := mk_rtsp_system { gst_ok : bool; attach_ok : bool }.

Inductive rtsp_end :=
| rtsp_return
| rtsp_terminate (e : exn)
| rtsp_serving (mounts : gmap string string) (* the pipeline behind each mount point *).

Definition rtsp_run (env_file config_file : option string) (sys : rtsp_system) (p : process) : rtsp_end * process :=
  match load_process env_file config_file p with
  | (Throw x, p) => (rtsp_terminate x, p)
  | (Ok false, p) => (rtsp_return, p)
  | (Ok true, p) =>
      if negb (gst_ok sys) then (rtsp_return, p)
      else
        let rtsp_url := get_rtsp_url (g_config p) in
        let factory := c_str (pipeline_description rtsp_url) in
        let factory2 := c_str (pipeline_description2 rtsp_url) in
        let mounts := <[NIGHT_CCTV_MOUNT_POINT := factory2]> (<[CCTV_MOUNT_POINT_ALT := factory]> (<[CCTV_MOUNT_POINT := factory]> ∅)) in
        if negb (attach_ok sys) then (rtsp_return, p) else (rtsp_serving mounts, p)
  end.

(** ** server.cpp *)

(** The two threads, when their loads of the configuration follow one another: [rtsp_first] says
    which comes first.  Nothing in the code keeps the loads apart. *)
Definition server_main {D} (rtsp_first : bool) (env_file config_file : option string) (open_db : string -> res D) (tcp : tcp_system)
    (rtsp : rtsp_system) (p : process) : rtsp_end * tcp_end * process :=
  if rtsp_first then
    let '(r, p) := rtsp_run env_file config_file rtsp p in
    let '(t, p) := tcp_run env_file config_file open_db tcp p in (r, t, p)
  else
    let '(t, p) := tcp_run env_file config_file open_db tcp p in
    let '(r, p) := rtsp_run env_file config_file rtsp p in (r, t, p).

(** ** Lemmas *)

Definition run_env (e : environment) (lines : list string) : environment := foldl (fun e line => env_line line e) e lines.

(** A line sets one variable, whatever the environment, or nothing. *)
Lemma env_line_effect line : (exists k v, forall e, env_line line e = <[k := v]> e) \/ (forall e, env_line line e = e).
Proof.
  destruct line as [|c s]; [by right|]. cbn [env_line]. destruct (Ascii.eqb c "#"); [by right|].
  destruct (find_char "=" (String c s)) as [pos|]; [|by right]. unfold setenv. destruct (str_empty _); [by right|]. left. by eexists _, _.
Qed.

Lemma run_env_lookup lines k : (exists o, forall e, run_env e lines !! k = Some o) \/ (forall e, run_env e lines !! k = e !! k).
Proof.
  induction lines as [|line lines IH]; [by right|]. destruct IH as [[o Ho]|Hs]; [left; exists o; intros e; apply Ho|].
  destruct (env_line_effect line) as [(k' & v & He)|He].
  - destruct (decide (k' = k)) as [->|Hne].
    + left. exists v. intros e. change (run_env (env_line line e) lines !! k = Some v). rewrite Hs, He. apply lookup_insert_eq.
    + right. intros e. change (run_env (env_line line e) lines !! k = e !! k). rewrite Hs, He. by apply lookup_insert_ne.
  - right. intros e. change (run_env (env_line line e) lines !! k = e !! k). by rewrite Hs, He.
Qed.

Lemma run_env_twice e lines : run_env (run_env e lines) lines = run_env e lines.
Proof. apply map_eq. intros k. destruct (run_env_lookup lines k) as [[o Ho]|Hs]; [by rewrite !Ho|by rewrite !Hs]. Qed.

(** A load that overwrites: its result does not depend on the old values, a second one changes nothing,
    and it leaves the login alone. *)
Record overwrites {A} (load : M AppConfig A) : Prop := {
  same_result c c' : fst (load c) = fst (load c');
  twice c : snd (load (snd (load c))) = snd (load c);
  apart u p h port path db track c : snd (load (put_login u p h port path db track c)) = put_login u p h port path db track (snd (load c)) }.

(** The fields are computed one after the other. *)
Ltac overwriting := split; [intros [] []|intros []|intros ? ? ? ? ? ? ? []]; vm_compute; reflexivity.

Lemma load_settings_overwrites config : overwrites (load_settings config).
Proof.
  unfold load_settings, config_at. cbn [load_ports].
  repeat match goal with |- context [liftR ?r] => assert_fails (is_var r); let x := fresh "r" in set (x := r); clearbody x end.
  repeat match goal with r : res _ |- _ => destruct r as [?|?]; [|by overwriting] end. by overwriting.
Qed.

Lemma load_json_overwrites file : overwrites (load_json_config file).
Proof.
  destruct file as [text|]; [|by split]. unfold load_json_config. destruct (parse_stream (bytes_of text)) as [config|e].
  - destruct (load_settings_overwrites config) as [H1 H2 H3].
    assert (E : forall c, try_catch (config ← liftR (Ok config); load_settings config ;; mret true) is_std_exception (fun _ => mret false) c
      = (match fst (load_settings config c) with Ok _ => Ok true | Throw e => if is_std_exception e then Ok false else Throw e end,
         snd (load_settings config c))).
    { intros c. unfold try_catch, mbind, M_bind, liftR, mret, M_ret. destruct (load_settings config c) as [[]  c1]; [done|]. cbn.
      by destruct (is_std_exception e). }
    split; intros; rewrite !E; cbn [fst snd]; [by rewrite (H1 c c')|apply H2|apply H3].
  - split; intros; unfold try_catch, mbind, M_bind, liftR; by destruct (is_std_exception e).
Qed.

Lemma load_env_twice file e : exists ok e1 (g : AppConfig -> AppConfig),
  (forall c, load_env_variables file e c = (Ok (ok, e1), g c)) /\ (forall c, load_env_variables file e1 c = (Ok (ok, e1), g c))
  /\ ((forall c, g c = c) \/ exists u p h port path db track, forall c, g c = put_login u p h port path db track c).
Proof.
  destruct file as [text|]; [|exists false, e, (fun c : AppConfig => c); split_and!; [done|done|by left]]. unfold load_env_variables. fold (run_env e (lines_of text)).
  set (e1 := run_env e (lines_of text)). assert (E : foldl (fun e line => env_line line e) e1 (lines_of text) = e1) by apply run_env_twice.
  destruct (e1 !! "USERNAME") as [u|] eqn:E1, (e1 !! "PASSWORD") as [p|] eqn:E2, (e1 !! "HOST") as [h|] eqn:E3, (e1 !! "RTSP_PORT") as [port|] eqn:E4,
    (e1 !! "RTSP_PATH") as [path|] eqn:E5, (e1 !! "DB_FILE") as [db|] eqn:E6;
    try (exists false, e1, (fun c : AppConfig => c); split_and!; [done|intros; by rewrite E, ?E1, ?E2, ?E3, ?E4, ?E5, ?E6|by left]).
  exists true, e1, (put_login u p h port path db (default "" (e1 !! "TRACKID"))).
  split_and!; [done|intros; by rewrite E, E1, E2, E3, E4, E5, E6|]. right. by eexists _, _, _, _, _, _, _.
Qed.

Lemma overwrites_with_login {A} (load : M AppConfig A) (g : AppConfig -> AppConfig) c : overwrites load ->
  (forall c, g c = c) \/ (exists u p h port path db track, forall c, g c = put_login u p h port path db track c) ->
  snd (load (g (snd (load (g c))))) = snd (load (g c)).
Proof.
  intros [_ H2 H3] [Hg|(u & p & h & port & path & db & track & Hg)]; rewrite !Hg; [apply H2|]. by rewrite !H3, H2.
Qed.

(** A second load finds the same values. *)
Lemma load_process_twice env_file config_file p r p1 : load_process env_file config_file p = (r, p1) ->
  load_process env_file config_file p1 = (r, p1).
Proof.
  destruct p as [e c]. unfold load_process. cbn [p_env g_config].
  destruct (load_env_twice env_file e) as (ok & e1 & g & H1 & H2 & Hg). pose proof (load_json_overwrites config_file) as J.
  unfold load_all_config, mbind, M_bind. rewrite H1. pose proof (overwrites_with_login _ g c J Hg) as Ht.
  pose proof (same_result _ J (g (snd (load_json_config config_file (g c)))) (g c)) as Hr.
  destruct (load_json_config config_file (g c)) as [rj cj]. cbn [fst snd] in *.
  destruct rj as [jok|x]; intros [= <- <-]; cbn [p_env g_config]; rewrite ?H1, ?H2;
    destruct (load_json_config config_file (g cj)) as [rj' cj']; cbn [fst snd] in *; by subst.
Qed.

(** It does not matter which of the two threads of the server loads the configuration first, when
    the loads do not overlap: in both orders, and whether the files can be loaded or not, both threads
    end as they would, and the configuration is the same. *)
Theorem start_order_irrelevant {D} (env_file config_file : option string) (open_db : string -> res D) (tcp : tcp_system)
    (rtsp : rtsp_system) (p : process) :
  server_main true env_file config_file open_db tcp rtsp p = server_main false env_file config_file open_db tcp rtsp p.
Proof.
  assert (HT : forall p r p1, load_process env_file config_file p = (r, p1) ->
    tcp_run env_file config_file open_db tcp p = (fst (tcp_run env_file config_file open_db tcp p1), p1)).
  { intros q r q1 E. pose proof (load_process_twice _ _ _ _ _ E) as E1. unfold tcp_run. rewrite E, E1. by repeat case_match. }
  assert (HR : forall p r p1, load_process env_file config_file p = (r, p1) ->
    rtsp_run env_file config_file rtsp p = (fst (rtsp_run env_file config_file rtsp p1), p1)).
  { intros q r q1 E. pose proof (load_process_twice _ _ _ _ _ E) as E1. unfold rtsp_run. rewrite E, E1. by repeat case_match. }
  unfold server_main. destruct (load_process env_file config_file p) as [r p1] eqn:E. pose proof (load_process_twice _ _ _ _ _ E) as E1.
  by rewrite (HT p r p1 E), (HR p r p1 E), (HT p1 r p1 E1), (HR p1 r p1 E1).
Qed.
