(* ===== verification/Calendar.v ===== *)
(** * Dates: the library functions main_control.cpp uses

    [std::get_time] for one format, [timegm], [gmtime_r] and [strftime], on the proleptic Gregorian
    calendar, and what they are for: the date nine hours later. *)

From S2P Require Import Prelude Str.
From Stdlib Require Import Ascii.
From Stdlib Require String.

Local Open Scope string_scope.
Local Open Scope Z_scope.

(** The fields of [std::tm] that matter, with the year and the month as numbers of the calendar:
    [year] is [tm_year + 1900] and [month] is [tm_mon + 1]. *)
Record tm := mk_tm { year : Z; month : Z; mday : Z; hour : Z; minute : Z; second : Z }.

(** [std::tm tm = {}]. *)
Definition zero_tm : tm := mk_tm 1900 1 0 0 0 0.

(** ** std::get_time *)

(** At most [n] digits, the value never above [max]; the number of digits read, the value and the
    rest. *)
Fixpoint extract_digits (n : nat) (max value : Z) (count : nat) (s : string) : nat * Z * string :=
  match n, s with
  | S n, String c s' =>
      if is_digit c then
        let value := value * 10 + (code c - 48) in
        if max <? value then (count, value, s) else extract_digits n max value (S count) s'
      else (count, value, s)
  | _, _ => (count, value, s)
  end.

Definition extract_num (min max : Z) (len : nat) (s : string) : option (Z * string) :=
  let '(count, value, s') := extract_digits len max 0 0 s in
  if (0 <? count)%nat && (min <=? value) && (value <=? max) then Some (value, s') else None.

Inductive time_field :=
| field_number (min max : Z) (len : nat) (blank : bool) (set : Z -> tm -> tm)
| field_char (c : ascii).

Definition to_lower (c : ascii) : ascii :=
  if (65 <=? code c) && (code c <=? 90) then chr (code c + 32) else c.

(** The loop of [time_get::get]: an input that ends behind a number ends it without an error. *)
Fixpoint get_fields (fmt : list time_field) (s : string) (t : tm) : option tm :=
  match fmt with
  | [] => Some t
  | f :: fmt =>
      match s with
      | EmptyString => None
      | String c s' =>
          match f with
          | field_number min max len blank set =>
              match extract_num min max len (if blank && is_space c then s' else s) with
              | Some (v, rest) => if str_empty rest then Some (set v t) else get_fields fmt rest (set v t)
              | None => None
              end
          | field_char d => if Ascii.eqb (to_lower c) (to_lower d) then get_fields fmt s' t else None
          end
      end
  end.

(** [%Y-%m-%dT%H:%M:%S]. *)
Definition time_format : list time_field :=
  [field_number 0 9999 4 false (fun v t => mk_tm v (month t) (mday t) (hour t) (minute t) (second t)); field_char "-";
   field_number 1 12 2 false (fun v t => mk_tm (year t) v (mday t) (hour t) (minute t) (second t)); field_char "-";
   field_number 1 31 2 true (fun v t => mk_tm (year t) (month t) v (hour t) (minute t) (second t)); field_char "T";
   field_number 0 23 2 false (fun v t => mk_tm (year t) (month t) (mday t) v (minute t) (second t)); field_char ":";
   field_number 0 59 2 false (fun v t => mk_tm (year t) (month t) (mday t) (hour t) v (second t)); field_char ":";
   field_number 0 60 2 false (fun v t => mk_tm (year t) (month t) (mday t) (hour t) (minute t) v)].

(** [ss >> std::get_time(&tm, ...)] skips white space first. *)
Definition get_time (s : string) : option tm := get_fields time_format (skip_spaces s) zero_tm.

(** ** timegm and gmtime_r *)

(** The days from 1970-01-01 to a date; the year is counted from March. *)
Definition days (y m d : Z) : Z :=
  let y := if m <=? 2 then y - 1 else y in
  365 * y + y / 4 - y / 100 + y / 400 + (153 * ((m + 9) mod 12) + 2) / 5 + (d - 1) - 719468.

Definition timegm (t : tm) : Z :=
  86400 * days (year t) (month t) (mday t) + 3600 * hour t + 60 * minute t + second t.

Definition civil (z : Z) : Z * Z * Z :=
  let z := z + 719468 in
  let era := z / 146097 in
  let doe := z mod 146097 in
  let yoe := (doe - doe / 1460 + doe / 36524 - doe / 146096) / 365 in
  let doy := doe - (365 * yoe + yoe / 4 - yoe / 100) in
  let mp := (5 * doy + 2) / 153 in
  let m := if mp <? 10 then mp + 3 else mp - 9 in
  (yoe + 400 * era + (if m <=? 2 then 1 else 0), m, doy - (153 * mp + 2) / 5 + 1).

Definition gmtime (z : Z) : tm :=
  let '(y, m, d) := civil (z / 86400) in
  let s := z mod 86400 in
  mk_tm y m d (s / 3600) (s / 60 mod 60) (s mod 60).

(** ** strftime *)

Definition two_digits (n : Z) : string := String (digit_char (n / 10)) (String (digit_char (n mod 10)) "").

(** [%Y-%m-%dT%H:%M:%S] and a suffix. *)
Definition print_time (t : tm) (suffix : string) : string :=
  to_string (year t) +:+ "-" +:+ two_digits (month t) +:+ "-" +:+ two_digits (mday t) +:+ "T"
  +:+ two_digits (hour t) +:+ ":" +:+ two_digits (minute t) +:+ ":" +:+ two_digits (second t) +:+ suffix.

(** ** The calendar *)

Definition leap (y : Z) : bool := (y mod 4 =? 0) && (negb (y mod 100 =? 0) || (y mod 400 =? 0)).

Definition month_length (y m : Z) : Z :=
  if m =? 2 then if leap y then 29 else 28
  else if (m =? 4) || (m =? 6) || (m =? 9) || (m =? 11) then 30 else 31.

Definition valid_date (y m d : Z) : Prop := 1 <= m <= 12 /\ 1 <= d <= month_length y m.

Definition next_date (y m d : Z) : Z * Z * Z :=
  if d <? month_length y m then (y, m, d + 1) else if m <? 12 then (y, m + 1, 1) else (y + 1, 1, 1).

(** A property of all months, one by one. *)
Lemma month_cases (P : Z -> Prop) :
  P 1 -> P 2 -> P 3 -> P 4 -> P 5 -> P 6 -> P 7 -> P 8 -> P 9 -> P 10 -> P 11 -> P 12 -> forall m, 1 <= m <= 12 -> P m.
Proof.
  intros. assert (m = 1 \/ m = 2 \/ m = 3 \/ m = 4 \/ m = 5 \/ m = 6 \/ m = 7 \/ m = 8 \/ m = 9 \/ m = 10 \/ m = 11 \/ m = 12) by lia.
  naive_solver.
Qed.

(** Evaluates the comparisons of numerals. *)
Ltac months :=
  repeat match goal with
  | |- context [?a <=? 2] => let v := eval vm_compute in (a <=? 2) in change (a <=? 2) with v
  end; cbv iota.

(** [days] counts the days of the calendar from the first of January 1970. *)
Lemma days_epoch : days 1970 1 1 = 0.
Proof. reflexivity. Qed.

Lemma days_next y m d : valid_date y m d ->
  days (next_date y m d).1.1 (next_date y m d).1.2 (next_date y m d).2 = days y m d + 1.
Proof.
  intros [Hm Hd]. unfold next_date. destruct (Z.ltb_spec d (month_length y m)); cbn [fst snd]; [unfold days; lia|].
  assert (d = month_length y m) as -> by lia. clear Hd H.
  assert (Hl : leap y = true \/ leap y = false) by (destruct (leap y); auto).
  assert (Hy : if leap y then y mod 4 = 0 /\ (y mod 100 <> 0 \/ y mod 400 = 0) else y mod 4 <> 0 \/ (y mod 100 = 0 /\ y mod 400 <> 0)).
  { unfold leap. destruct (Z.eqb_spec (y mod 4) 0), (Z.eqb_spec (y mod 100) 0), (Z.eqb_spec (y mod 400) 0); cbn; lia. }
  unfold month_length. destruct Hl as [E|E]; rewrite E in *; revert m Hm; apply month_cases; cbn [Z.eqb Z.ltb Z.compare Pos.eqb Pos.compare Pos.compare_cont orb fst snd];
    unfold days; months; Z.div_mod_to_equations; lia.
Qed.

(** *** [gmtime] finds the date *)

Definition from_march (m : Z) : Z := (m + 9) mod 12.

Lemma year_of_era yoe doy : 0 <= yoe < 400 -> 0 <= doy <= 365 ->
  (doy = 365 -> (yoe + 1) mod 4 = 0 /\ ((yoe + 1) mod 100 <> 0 \/ yoe = 399)) ->
  let doe := 365 * yoe + yoe / 4 - yoe / 100 + doy in
  0 <= doe < 146097 /\ (doe - doe / 1460 + doe / 36524 - doe / 146096) / 365 = yoe.
Proof.
  intros H1 H2 H3 doe.
  assert (0 <= doe < 146097) as Hd by (unfold doe; Z.div_mod_to_equations; lia). split; [done|].
  assert (doe / 146096 = if doe =? 146096 then 1 else 0).
  { destruct (Z.eqb_spec doe 146096) as [->|]; [reflexivity|]. apply Z.div_small. lia. }
  unfold doe in *. Z.div_mod_to_equations. lia.
Qed.

(** The day of the year that begins in March, and back. *)
Lemma day_of_march_year y m d : valid_date y m d ->
  let doy := (153 * from_march m + 2) / 5 + (d - 1) in
  let y' := if m <=? 2 then y - 1 else y in
  0 <= doy <= 365 /\ (doy = 365 -> leap (y' + 1) = true)
  /\ (5 * doy + 2) / 153 = from_march m
  /\ (if from_march m <? 10 then from_march m + 3 else from_march m - 9) = m.
Proof.
  intros [Hm Hd]. assert (Hl : 1 <= d <= month_length 0 m /\ (m = 2 -> d = 29 -> leap y = true)).
  { unfold month_length in *. destruct (Z.eqb_spec m 2); [|by split]. change (leap 0) with true. destruct (leap y); (split; [lia|]); intros; [done|lia]. }
  clear Hd. revert m Hm Hl. refine (month_cases _ _ _ _ _ _ _ _ _ _ _ _ _); intros [Hd Hl]; unfold from_march; months;
    repeat match goal with |- context [(?a + 9) mod 12] => let v := eval vm_compute in ((a + 9) mod 12) in change ((a + 9) mod 12) with v end;
    repeat match goal with |- context [?a <? 10] => let v := eval vm_compute in (a <? 10) in change (a <? 10) with v end; cbv iota;
    vm_compute (month_length _ _) in Hd; (split_and!; [..|reflexivity]); rewrite ?Z.sub_add;
    try (intros; apply Hl; [reflexivity|]); Z.div_mod_to_equations; lia.
Qed.

Lemma leap_march y : leap (y + 1) = true ->
  (y mod 400 + 1) mod 4 = 0 /\ ((y mod 400 + 1) mod 100 <> 0 \/ y mod 400 = 399).
Proof.
  unfold leap. intros H. breflect. apply orb_prop in H0. destruct H0 as [H0|H0]; [apply negb_true_iff in H0|]; breflect;
    Z.div_mod_to_equations; lia.
Qed.

(** The years before a year of the calendar, by whole eras of 400 years. *)
Lemma years_split y :
  365 * y + y / 4 - y / 100 + y / 400
  = 146097 * (y / 400) + (365 * (y mod 400) + y mod 400 / 4 - y mod 400 / 100).
Proof. Z.div_mod_to_equations. lia. Qed.

Lemma civil_days y m d : valid_date y m d -> civil (days y m d) = (y, m, d).
Proof.
  intros Hv. pose proof (day_of_march_year y m d Hv) as Hx. cbn zeta in Hx. destruct Hx as (Hr & H365 & Hmp & Hm).
  unfold civil, days. fold (from_march m). set (y' := if m <=? 2 then y - 1 else y) in *.
  set (doy := (153 * from_march m + 2) / 5 + (d - 1)) in *.
  pose proof (year_of_era (y' mod 400) doy) as He. cbn zeta in He.
  destruct He as [Hdoe Hyoe]; [apply Z.mod_pos_bound; lia|done|intros E; apply leap_march; by apply H365|].
  set (doe := 365 * (y' mod 400) + y' mod 400 / 4 - y' mod 400 / 100 + doy) in *.
  assert (Ez : 365 * y' + y' / 4 - y' / 100 + y' / 400 + (153 * from_march m + 2) / 5 + (d - 1) - 719468 + 719468
               = doe + y' / 400 * 146097) by (rewrite years_split; unfold doe, doy; lia).
  rewrite Ez, Z.div_add, Z.mod_add, (Z.div_small doe), (Z.mod_small doe), Hyoe by lia. cbn [Z.add].
  assert (doe - (365 * (y' mod 400) + y' mod 400 / 4 - y' mod 400 / 100) = doy) as -> by (unfold doe; lia).
  rewrite Hmp, Hm. f_equal; [f_equal|unfold doy; lia].
  pose proof (Z.div_mod y' 400 ltac:(lia)) as E. revert E. unfold y'. destruct (m <=? 2); lia.
Qed.

(** *** Nine hours later *)

Definition valid_time (t : tm) : Prop :=
  valid_date (year t) (month t) (mday t) /\ 0 <= hour t < 24 /\ 0 <= minute t < 60 /\ 0 <= second t < 60.

Definition nine_hours_later (t : tm) : tm :=
  if hour t <? 15 then mk_tm (year t) (month t) (mday t) (hour t + 9) (minute t) (second t)
  else let '(y, m, d) := next_date (year t) (month t) (mday t) in mk_tm y m d (hour t - 15) (minute t) (second t).

Lemma month_length_pos y m : 28 <= month_length y m <= 31.
Proof. unfold month_length. repeat case_match; lia. Qed.

Lemma next_date_valid y m d : valid_date y m d ->
  valid_date (next_date y m d).1.1 (next_date y m d).1.2 (next_date y m d).2.
Proof.
  intros [Hm Hd]. unfold next_date. destruct (Z.ltb_spec d (month_length y m)), (Z.ltb_spec m 12); cbn [fst snd]; split; try lia.
  - pose proof (month_length_pos y (m + 1)). lia.
  - pose proof (month_length_pos (y + 1) 1). lia.
Qed.

Lemma gmtime_timegm t : valid_time t -> gmtime (timegm t) = t.
Proof.
  intros (Hd & Hh & Hm & Hs). unfold gmtime, timegm.
  assert ((86400 * days (year t) (month t) (mday t) + 3600 * hour t + 60 * minute t + second t) / 86400 = days (year t) (month t) (mday t)) as ->
    by (symmetry; apply (Z.div_unique _ _ _ (3600 * hour t + 60 * minute t + second t)); lia).
  assert ((86400 * days (year t) (month t) (mday t) + 3600 * hour t + 60 * minute t + second t) mod 86400
          = 3600 * hour t + 60 * minute t + second t) as ->
    by (symmetry; apply (Z.mod_unique _ _ (days (year t) (month t) (mday t))); lia).
  rewrite civil_days by done. destruct t as [y m d h mi s]. cbn in *. f_equal; Z.div_mod_to_equations; lia.
Qed.

Lemma nine_hours_valid t : valid_time t -> valid_time (nine_hours_later t).
Proof.
  intros (Hd & Hh & Hm & Hs). unfold nine_hours_later. destruct (Z.ltb_spec (hour t) 15); [by split_and!; cbn; try done; lia|].
  pose proof (next_date_valid _ _ _ Hd) as Hn. destruct (next_date _ _ _) as [[y m] d]. split; cbn; [done|lia].
Qed.

Lemma timegm_nine_hours t : valid_time t -> timegm (nine_hours_later t) = timegm t + 9 * 3600.
Proof.
  intros (Hd & _). unfold nine_hours_later, timegm. destruct (Z.ltb_spec (hour t) 15); cbn; [lia|].
  pose proof (days_next _ _ _ Hd) as Hn. destruct (next_date _ _ _) as [[y m] d]. cbn in *. lia.
Qed.

Lemma gmtime_nine_hours t : valid_time t -> gmtime (timegm t + 9 * 3600) = nine_hours_later t.
Proof. intros Ht. rewrite <- timegm_nine_hours by done. by apply gmtime_timegm, nine_hours_valid. Qed.

(** *** Reading a printed time *)

Lemma dec_value_grows s v : all_chars is_digit s = true -> 0 <= v -> v <= dec_value v s.
Proof.
  revert v. induction s as [|c s IH]; intros v; cbn [all_chars dec_value]; [lia|]. intros H Hv. breflect.
  unfold is_digit in H. breflect. specialize (IH (10 * v + (code c - 48)) H0 ltac:(lia)). lia.
Qed.

Definition stops_digits (s : string) : bool := match s with String c _ => negb (is_digit c) | EmptyString => true end.

Lemma extract_digits_ok n max ds rest : forall v count, all_chars is_digit ds = true -> (String.length ds <= n)%nat ->
  (String.length ds = n \/ stops_digits rest = true) -> 0 <= v -> dec_value v ds <= max ->
  extract_digits n max v count (ds +:+ rest) = ((count + String.length ds)%nat, dec_value v ds, rest).
Proof.
  revert n. induction ds as [|c ds IH]; intros n v count; cbn [all_chars String.length dec_value String.append]; intros Hd Hn Hs Hv Hm.
  - rewrite Nat.add_0_r. destruct n as [|n]; [done|]. destruct rest as [|d rest]; [done|]. cbn [extract_digits].
    destruct Hs as [?|Hs]; [lia|]. cbn in Hs. by destruct (is_digit d).
  - breflect. destruct n as [|n]; [lia|]. cbn [extract_digits]. rewrite H, (Z.mul_comm v 10).
    assert (0 <= 10 * v + (code c - 48)) by (unfold is_digit in H; breflect; lia).
    pose proof (dec_value_grows ds (10 * v + (code c - 48)) H0 ltac:(lia)).
    destruct (Z.ltb_spec max (10 * v + (code c - 48))); [lia|]. rewrite IH; [|done|lia|naive_solver lia|lia|lia].
    f_equal. f_equal. lia.
Qed.

Lemma extract_num_ok min max len ds rest : all_chars is_digit ds = true -> (0 < String.length ds <= len)%nat ->
  (String.length ds = len \/ stops_digits rest = true) -> min <= dec_value 0 ds <= max ->
  extract_num min max len (ds +:+ rest) = Some (dec_value 0 ds, rest).
Proof.
  intros Hd Hl Hs Hm. unfold extract_num. rewrite extract_digits_ok by (done || lia). cbn [Nat.add].
  destruct (Nat.ltb_spec 0 (String.length ds)); [|lia]. destruct (Z.leb_spec min (dec_value 0 ds)); [|lia].
  destruct (Z.leb_spec (dec_value 0 ds) max); [done|lia].
Qed.

Lemma two_digits_spec n : 0 <= n < 100 -> all_chars is_digit (two_digits n) = true /\ dec_value 0 (two_digits n) = n.
Proof.
  intros Hn. assert (0 <= n / 10 < 10) by (split; [apply Z.div_pos|apply Z.div_lt_upper_bound]; lia).
  pose proof (Z.mod_pos_bound n 10). unfold two_digits. cbn [all_chars dec_value].
  rewrite !is_digit_digit_char, !code_digit_char by lia. split; [done|]. pose proof (Z.div_mod n 10). lia.
Qed.

Lemma get_number min max len blank set fmt ds rest t : all_chars is_digit ds = true -> (0 < String.length ds <= len)%nat ->
  (String.length ds = len \/ stops_digits rest = true) -> min <= dec_value 0 ds <= max ->
  get_fields (field_number min max len blank set :: fmt) (ds +:+ rest) t
  = if str_empty rest then Some (set (dec_value 0 ds) t) else get_fields fmt rest (set (dec_value 0 ds) t).
Proof.
  intros Hd Hl Hs Hm. pose proof (extract_num_ok min max len ds rest Hd Hl Hs Hm) as He.
  destruct ds as [|c s]; [cbn in Hl; lia|]. rewrite append_cons in *. cbn [get_fields]. cbn [all_chars] in Hd. breflect.
  rewrite (digit_not_space c), andb_false_r, He by done. done.
Qed.

Lemma get_char fmt c s t : get_fields (field_char c :: fmt) (String c s) t = get_fields fmt s t.
Proof. cbn [get_fields]. by rewrite Ascii.eqb_refl. Qed.

(** A time printed with a year of at most four digits is read back, whatever follows. *)
Lemma get_time_print t rest : valid_time t -> 0 <= year t < 10000 -> get_time (print_time t rest) = Some t.
Proof.
  intros (Hd & Hh & Hmi & Hs) Hy. destruct (to_string_spec (year t) ltac:(lia)) as (Vy & Dy & Ny).
  pose proof (to_string_length (year t) 4 ltac:(cbn; lia) ltac:(lia)) as Ly.
  destruct Hd as [Hm Hd]. pose proof (month_length_pos (year t) (month t)).
  destruct (two_digits_spec (month t) ltac:(lia)) as [Dm Vm], (two_digits_spec (mday t) ltac:(lia)) as [Dd Vd],
    (two_digits_spec (hour t) ltac:(lia)) as [Dh Vh], (two_digits_spec (minute t) ltac:(lia)) as [Dmi Vmi],
    (two_digits_spec (second t) ltac:(lia)) as [Ds Vs].
  assert (Esk : skip_spaces (print_time t rest) = print_time t rest).
  { unfold print_time. destruct (to_string (year t)) as [|c s]; [done|]. cbn [all_chars] in Dy. breflect. rewrite append_cons.
    cbn [skip_spaces]. by rewrite digit_not_space. }
  unfold get_time. rewrite Esk. unfold print_time, time_format.
  assert (0 < String.length (to_string (year t)))%nat by (destruct (to_string (year t)); [done|cbn; lia]).
  rewrite get_number, Vy by (done || lia || by right). cbn [str_empty String.append]. rewrite get_char.
  do 4 (rewrite get_number by (done || (cbn; lia) || (by left) || lia); cbn [str_empty String.append]; rewrite get_char).
  rewrite get_number by (done || (cbn; lia) || (by left) || lia). rewrite Vm, Vd, Vh, Vmi, Vs. destruct t, (str_empty rest); done.
Qed.
