(* ===== verification/QrSegment.v ===== *)
(** * qrcodegen.cpp: bit buffers and segments

    [BitBuffer], the segment modes, the three automatic segment encodings (numeric, alphanumeric,
    bytes), ECI segments and the size of a list of segments at a version. *)

From S2P Require Import Prelude Str.
From Stdlib Require Import Ascii.
From Stdlib Require String.

Local Open Scope string_scope.
Local Open Scope Z_scope.
Local Open Scope list_scope.

(** ** Bit buffers *)

(** [BitBuffer], a vector of bools. *)
Definition BitBuffer : Type := list bool.

(** [(val >> i) & 1] for [i] from [n - 1] down to 0. *)
Fixpoint bits_down (n : nat) (val : Z) : list bool :=
  match n with
  | O => []
  | S n => negb (Z.land (Z.shiftr val (Z.of_nat n)) 1 =? 0) :: bits_down n val
  end.

Definition appendBits (val len : Z) (bb : BitBuffer) : res BitBuffer :=
  if (len <? 0) || (31 <? len) || negb (Z.shiftr val len =? 0) then Throw (domain_error "Value out of range")
  else Ok (bb ++ bits_down (Z.to_nat len) val).

(** ** Modes *)

Record Mode := mk_Mode { modeBits : Z; numBitsCharCount : list Z }.

Definition NUMERIC : Mode := mk_Mode 0x1 [10; 12; 14].
Definition ALPHANUMERIC : Mode := mk_Mode 0x2 [9; 11; 13].
Definition BYTE : Mode := mk_Mode 0x4 [8; 16; 16].
Definition KANJI : Mode := mk_Mode 0x8 [8; 10; 12].
Definition ECI : Mode := mk_Mode 0x7 [0; 0; 0].

Definition numCharCountBits (md : Mode) (ver : Z) : Z := numBitsCharCount md !!! Z.to_nat ((ver + 7) / 17).

(** ** Segments *)

Record QrSegment := mk_QrSegment { mode : Mode; numChars : Z; data : list bool }.

(** The constructors. *)
Definition new_QrSegment (md : Mode) (numCh : Z) (dt : list bool) : res QrSegment :=
  if numCh <? 0 then Throw (domain_error "Invalid value") else Ok (mk_QrSegment md numCh dt).

Fixpoint append_bytes (bs : list Z) (bb : BitBuffer) : res BitBuffer :=
  match bs with
  | [] => Ok bb
  | b :: bs => bb ← appendBits b 8 bb; append_bytes bs bb
  end.

Definition makeBytes (dat : list Z) : res QrSegment :=
  if INT_MAX <? Z.of_nat (length dat) then Throw (length_error "Data too long")
  else bb ← append_bytes dat []; new_QrSegment BYTE (s32 (Z.of_nat (length dat))) bb.

(** A counter of type [int]: counting beyond its range is undefined. *)
Definition increment (n : Z) : res Z := if n =? INT_MAX then Throw undefined_behavior else Ok (n + 1).

(** The loop of [makeNumeric] over a C string. *)
Fixpoint numeric_loop (digits : string) (bb : BitBuffer) (accumData accumCount charCount : Z) : res (BitBuffer * Z * Z * Z) :=
  match digits with
  | EmptyString => Ok (bb, accumData, accumCount, charCount)
  | String c digits =>
      if negb (is_digit c) then Throw (domain_error "String contains non-numeric characters")
      else
        let accumData := accumData * 10 + (code c - 48) in
        let accumCount := accumCount + 1 in
        '(bb, accumData, accumCount) ←
          (if accumCount =? 3 then bb ← appendBits (u32 accumData) 10 bb; Ok (bb, 0, 0) else Ok (bb, accumData, accumCount));
        charCount ← increment charCount;
        numeric_loop digits bb accumData accumCount charCount
  end.

Definition makeNumeric (digits : string) : res QrSegment :=
  '(bb, accumData, accumCount, charCount) ← numeric_loop digits [] 0 0 0;
  bb ← (if 0 <? accumCount then appendBits (u32 accumData) (accumCount * 3 + 1) bb else Ok bb);
  new_QrSegment NUMERIC charCount bb.

Definition ALPHANUMERIC_CHARSET : string := "0123456789ABCDEFGHIJKLMNOPQRSTUVWXYZ $%*+-./:".

(** [strchr(ALPHANUMERIC_CHARSET, c)] as the position found. *)
Definition alphanumeric_index (c : ascii) : option Z := Z.of_nat <$> find_char c ALPHANUMERIC_CHARSET.

Fixpoint alphanumeric_loop (text : string) (bb : BitBuffer) (accumData accumCount charCount : Z) : res (BitBuffer * Z * Z * Z) :=
  match text with
  | EmptyString => Ok (bb, accumData, accumCount, charCount)
  | String c text =>
      match alphanumeric_index c with
      | None => Throw (domain_error "String contains unencodable characters in alphanumeric mode")
      | Some i =>
          let accumData := accumData * 45 + i in
          let accumCount := accumCount + 1 in
          '(bb, accumData, accumCount) ←
            (if accumCount =? 2 then bb ← appendBits (u32 accumData) 11 bb; Ok (bb, 0, 0) else Ok (bb, accumData, accumCount));
          charCount ← increment charCount;
          alphanumeric_loop text bb accumData accumCount charCount
      end
  end.

Definition makeAlphanumeric (text : string) : res QrSegment :=
  '(bb, accumData, accumCount, charCount) ← alphanumeric_loop text [] 0 0 0;
  bb ← (if 0 <? accumCount then appendBits (u32 accumData) 6 bb else Ok bb);
  new_QrSegment ALPHANUMERIC charCount bb.

Definition isNumeric (text : string) : bool := all_chars is_digit text.

Definition isAlphanumeric (text : string) : bool :=
  all_chars (fun c => match alphanumeric_index c with Some _ => true | None => false end) text.

(** The text is a C string: it ends before its first zero. *)
Definition makeSegments (text : string) : res (list QrSegment) :=
  if str_empty text then Ok []
  else
    s ← (if isNumeric text then makeNumeric text
         else if isAlphanumeric text then makeAlphanumeric text
         else makeBytes (bytes_of text));
    Ok [s].

Definition makeEci (assignVal : Z) : res QrSegment :=
  if assignVal <? 0 then Throw (domain_error "ECI assignment value out of range")
  else if assignVal <? Z.shiftl 1 7 then bb ← appendBits (u32 assignVal) 8 []; new_QrSegment ECI 0 bb
  else if assignVal <? Z.shiftl 1 14 then
    bb ← appendBits 2 2 []; bb ← appendBits (u32 assignVal) 14 bb; new_QrSegment ECI 0 bb
  else if assignVal <? 1000000 then
    bb ← appendBits 6 3 []; bb ← appendBits (u32 assignVal) 21 bb; new_QrSegment ECI 0 bb
  else Throw (domain_error "ECI assignment value out of range").

(** The size of the segments at a version, or -1. *)
Fixpoint total_bits_loop (segs : list QrSegment) (ver result : Z) : Z :=
  match segs with
  | [] => result
  | seg :: segs =>
      let ccbits := numCharCountBits (mode seg) ver in
      if Z.shiftl 1 ccbits <=? numChars seg then -1
      else if INT_MAX - result <? 4 + ccbits then -1
      else
        let result := result + (4 + ccbits) in
        if INT_MAX - result <? Z.of_nat (length (data seg)) then -1
        else total_bits_loop segs ver (result + Z.of_nat (length (data seg)))
  end.

Definition getTotalBits (segs : list QrSegment) (ver : Z) : Z := total_bits_loop segs ver 0.
