(* ===== verification/QrCode.v ===== *)
(** * qrcodegen.cpp: the QR code

    Capacity tables, Reed-Solomon codes, the drawing of the function patterns and the codewords,
    masks and their penalty, the choice of version and error correction level. *)

From S2P Require Import Prelude Str QrSegment.
From Stdlib Require Import Ascii.
From Stdlib Require String.

Local Open Scope string_scope.
Local Open Scope Z_scope.
Local Open Scope list_scope.

(** [for (int i = a; i < a + n; i++)]: the values of the counter, and the loop. *)
Fixpoint count_up (a : Z) (n : nat) : list Z :=
  match n with O => [] | S n => a :: count_up (a + 1) n end.

Definition range (a b : Z) : list Z := count_up a (Z.to_nat (b - a)).

Fixpoint for_each {S A} (l : list A) (f : A -> M S unit) : M S unit :=
  match l with
  | [] => mret tt
  | a :: l => f a ;; for_each l f
  end.

(** ** Constants *)

Inductive Ecc := LOW | MEDIUM | QUARTILE | HIGH.

#[export] Instance Ecc_eq_dec : EqDecision Ecc.
Proof. solve_decision. Defined.

Definition getFormatBits (ecl : Ecc) : Z := match ecl with LOW => 1 | MEDIUM => 0 | QUARTILE => 3 | HIGH => 2 end.

Definition MIN_VERSION : Z := 1.
Definition MAX_VERSION : Z := 40.

Definition PENALTY_N1 : Z := 3.
Definition PENALTY_N2 : Z := 3.
Definition PENALTY_N3 : Z := 40.
Definition PENALTY_N4 : Z := 10.

Definition ECC_CODEWORDS_PER_BLOCK (ecl : Ecc) : list Z :=
  match ecl with
  | LOW => [-1; 7; 10; 15; 20; 26; 18; 20; 24; 30; 18; 20; 24; 26; 30; 22; 24; 28; 30; 28; 28; 28; 28; 30; 30; 26; 28; 30; 30; 30; 30; 30; 30; 30; 30; 30; 30; 30; 30; 30; 30]
  | MEDIUM => [-1; 10; 16; 26; 18; 24; 16; 18; 22; 22; 26; 30; 22; 22; 24; 24; 28; 28; 26; 26; 26; 26; 28; 28; 28; 28; 28; 28; 28; 28; 28; 28; 28; 28; 28; 28; 28; 28; 28; 28; 28]
  | QUARTILE => [-1; 13; 22; 18; 26; 18; 24; 18; 22; 20; 24; 28; 26; 24; 20; 30; 24; 28; 28; 26; 30; 28; 30; 30; 30; 30; 28; 30; 30; 30; 30; 30; 30; 30; 30; 30; 30; 30; 30; 30; 30]
  | HIGH => [-1; 17; 28; 22; 16; 22; 28; 26; 26; 24; 28; 24; 28; 22; 24; 24; 30; 28; 28; 26; 28; 30; 24; 30; 30; 30; 30; 30; 30; 30; 30; 30; 30; 30; 30; 30; 30; 30; 30; 30; 30]
  end.

Definition NUM_ERROR_CORRECTION_BLOCKS (ecl : Ecc) : list Z :=
  match ecl with
  | LOW => [-1; 1; 1; 1; 1; 1; 2; 2; 2; 2; 4; 4; 4; 4; 4; 6; 6; 6; 6; 7; 8; 8; 9; 9; 10; 12; 12; 12; 13; 14; 15; 16; 17; 18; 19; 19; 20; 21; 22; 24; 25]
  | MEDIUM => [-1; 1; 1; 1; 2; 2; 4; 4; 4; 5; 5; 5; 8; 9; 9; 10; 10; 11; 13; 14; 16; 17; 17; 18; 20; 21; 23; 25; 26; 28; 29; 31; 33; 35; 37; 38; 40; 43; 45; 47; 49]
  | QUARTILE => [-1; 1; 1; 2; 2; 4; 4; 6; 6; 8; 8; 8; 10; 12; 16; 12; 17; 16; 18; 21; 20; 23; 23; 25; 27; 29; 34; 34; 35; 38; 40; 43; 45; 48; 51; 53; 56; 59; 62; 65; 68]
  | HIGH => [-1; 1; 1; 2; 4; 4; 4; 5; 6; 8; 8; 11; 11; 16; 16; 18; 16; 19; 21; 25; 25; 25; 34; 30; 32; 35; 37; 40; 42; 45; 48; 51; 54; 57; 60; 63; 66; 70; 74; 77; 81]
  end.

Definition getBit (x i : Z) : bool := negb (Z.land (Z.shiftr x i) 1 =? 0).

(** ** Capacities *)

Definition getNumRawDataModules (ver : Z) : res Z :=
  if (ver <? MIN_VERSION) || (MAX_VERSION <? ver) then Throw (domain_error "Version number out of range")
  else
    let result := (16 * ver + 128) * ver + 64 in
    Ok (if 2 <=? ver then
          let numAlign := ver / 7 + 2 in
          let result := result - ((25 * numAlign - 10) * numAlign - 55) in
          if 7 <=? ver then result - 36 else result
        else result).

Definition eccPerBlock (ecl : Ecc) (ver : Z) : Z := ECC_CODEWORDS_PER_BLOCK ecl !!! Z.to_nat ver.
Definition numEccBlocks (ecl : Ecc) (ver : Z) : Z := NUM_ERROR_CORRECTION_BLOCKS ecl !!! Z.to_nat ver.

Definition getNumDataCodewords (ver : Z) (ecl : Ecc) : res Z :=
  raw ← getNumRawDataModules ver;
  Ok (raw / 8 - eccPerBlock ecl ver * numEccBlocks ecl ver).

(** ** Reed-Solomon codes *)

(** The loop of the multiplication, for the bits [n - 1] down to 0 of [y]. *)
Fixpoint mul_loop (n : nat) (x y z : Z) : Z :=
  match n with
  | O => z
  | S n =>
      let z := Z.lxor (Z.shiftl z 1) (Z.shiftr z 7 * 0x11D) in
      mul_loop n x y (Z.lxor z (Z.land (Z.shiftr y (Z.of_nat n)) 1 * x))
  end.

Definition reedSolomonMultiply (x y : Z) : Z := u8 (mul_loop 8 x y 0).

(** [result] times [x - root], without the term that leaves the array. *)
Fixpoint divisor_step (root : Z) (result : list Z) : list Z :=
  match result with
  | [] => []
  | a :: rest =>
      (match rest with
       | [] => reedSolomonMultiply a root
       | b :: _ => Z.lxor (reedSolomonMultiply a root) b
       end) :: divisor_step root rest
  end.

Fixpoint divisor_loop (n : nat) (root : Z) (result : list Z) : list Z :=
  match n with
  | O => result
  | S n => divisor_loop n (reedSolomonMultiply root 0x02) (divisor_step root result)
  end.

Definition reedSolomonComputeDivisor (degree : Z) : res (list Z) :=
  if (degree <? 1) || (255 <? degree) then Throw (domain_error "Degree out of range")
  else Ok (divisor_loop (Z.to_nat degree) 1 (replicate (Z.to_nat degree - 1) 0 ++ [1])).

(** The division: [result.at(0)] throws on an empty divisor. *)
Fixpoint remainder_loop (divisor : list Z) (dat result : list Z) : res (list Z) :=
  match dat with
  | [] => Ok result
  | b :: dat =>
      match result with
      | [] => Throw (out_of_range "vector::_M_range_check")
      | r :: rest =>
          let factor := Z.lxor b r in
          remainder_loop divisor dat (zip_with (fun x d => Z.lxor x (reedSolomonMultiply d factor)) (rest ++ [0]) divisor)
      end
  end.

Definition reedSolomonComputeRemainder (dat divisor : list Z) : res (list Z) :=
  remainder_loop divisor dat (replicate (length divisor) 0).

(** ** The object *)

Abbreviation grid := (list (list bool)).

Record QrCode := mk_QrCode {
  version : Z;
  size : Z;
  errorCorrectionLevel : Ecc;
  mask : Z;
  modules : grid;
  isFunction : grid }.

Definition range_check {A} : res A := Throw (out_of_range "vector::_M_range_check").

(** [g.at(y).at(x)], read and written; a negative number is out of range as a [size_t]. *)
Definition grid_at (g : grid) (x y : Z) : res bool :=
  if (x <? 0) || (y <? 0) then range_check
  else
    match g !! Z.to_nat y with
    | Some row => match row !! Z.to_nat x with Some b => Ok b | None => range_check end
    | None => range_check
    end.

Definition grid_set (g : grid) (x y : Z) (b : bool) : res grid :=
  _ ← grid_at g x y;
  Ok (alter (fun row => <[Z.to_nat x := b]> row) (Z.to_nat y) g).

Definition put_modules (g : grid) (q : QrCode) : QrCode :=
  mk_QrCode (version q) (size q) (errorCorrectionLevel q) (mask q) g (isFunction q).
Definition put_function (g : grid) (q : QrCode) : QrCode :=
  mk_QrCode (version q) (size q) (errorCorrectionLevel q) (mask q) (modules q) g.
Definition put_mask (m : Z) (q : QrCode) : QrCode :=
  mk_QrCode (version q) (size q) (errorCorrectionLevel q) m (modules q) (isFunction q).

Definition reads {A} (f : QrCode -> A) : M QrCode A := fun q => (Ok (f q), q).

Definition module (x y : Z) : M QrCode bool := fun q => (grid_at (modules q) x y, q).

Definition getModule (q : QrCode) (x y : Z) : res bool :=
  if (0 <=? x) && (x <? size q) && (0 <=? y) && (y <? size q) then grid_at (modules q) x y else Ok false.

Definition set_module (x y : Z) (b : bool) : M QrCode unit := fun q =>
  match grid_set (modules q) x y b with
  | Ok g => (Ok tt, put_modules g q)
  | Throw e => (Throw e, q)
  end.

Definition set_function (x y : Z) : M QrCode unit := fun q =>
  match grid_set (isFunction q) x y true with
  | Ok g => (Ok tt, put_function g q)
  | Throw e => (Throw e, q)
  end.

Definition setFunctionModule (x y : Z) (isDark : bool) : M QrCode unit := set_module x y isDark ;; set_function x y.

(** ** Function patterns *)

Definition drawFinderPattern (x y : Z) : M QrCode unit :=
  sz ← reads size;
  for_each (range (-4) 5) (fun dy =>
    for_each (range (-4) 5) (fun dx =>
      let dist := Z.max (Z.abs dx) (Z.abs dy) in
      let xx := x + dx in
      let yy := y + dy in
      if (0 <=? xx) && (xx <? sz) && (0 <=? yy) && (yy <? sz)
      then setFunctionModule xx yy (negb (dist =? 2) && negb (dist =? 4))
      else mret tt)).

Definition drawAlignmentPattern (x y : Z) : M QrCode unit :=
  for_each (range (-2) 3) (fun dy =>
    for_each (range (-2) 3) (fun dx =>
      setFunctionModule (x + dx) (y + dy) (negb (Z.max (Z.abs dx) (Z.abs dy) =? 1)))).

(** [rem = (rem << 1) ^ ((rem >> sh) * poly)], [n] times. *)
Definition bch_remainder (n : nat) (sh poly data : Z) : Z :=
  loop n (fun rem => Z.lxor (Z.shiftl rem 1) (Z.shiftr rem sh * poly)) data.

Definition format_bits (ecl : Ecc) (msk : Z) : Z :=
  let data := Z.lor (Z.shiftl (getFormatBits ecl) 3) msk in
  Z.lxor (Z.lor (Z.shiftl data 10) (bch_remainder 10 9 0x537 data)) 0x5412.

Definition drawFormatBits (msk : Z) : M QrCode unit :=
  ecl ← reads errorCorrectionLevel;
  sz ← reads size;
  let bits := format_bits ecl msk in
  for_each (range 0 6) (fun i => setFunctionModule 8 i (getBit bits i)) ;;
  setFunctionModule 8 7 (getBit bits 6) ;;
  setFunctionModule 8 8 (getBit bits 7) ;;
  setFunctionModule 7 8 (getBit bits 8) ;;
  for_each (range 9 15) (fun i => setFunctionModule (14 - i) 8 (getBit bits i)) ;;
  for_each (range 0 8) (fun i => setFunctionModule (sz - 1 - i) 8 (getBit bits i)) ;;
  for_each (range 8 15) (fun i => setFunctionModule 8 (sz - 15 + i) (getBit bits i)) ;;
  setFunctionModule 8 (sz - 8) true.

Definition version_bits (ver : Z) : Z := Z.lor (Z.shiftl ver 12) (bch_remainder 12 11 0x1F25 ver).

Definition drawVersion : M QrCode unit :=
  ver ← reads version;
  sz ← reads size;
  if ver <? 7 then mret tt
  else
    for_each (range 0 18) (fun i =>
      let bit := getBit (version_bits ver) i in
      let a := sz - 11 + i mod 3 in
      let b := i / 3 in
      setFunctionModule a b bit ;;
      setFunctionModule b a bit).

(** The positions are inserted at the front, from the largest down. *)
Fixpoint alignment_loop (n : nat) (pos step : Z) (result : list Z) : list Z :=
  match n with
  | O => result
  | S n => alignment_loop n (pos - step) step (pos :: result)
  end.

Definition getAlignmentPatternPositions (ver sz : Z) : list Z :=
  if ver =? 1 then []
  else
    let numAlign := ver / 7 + 2 in
    let step := if ver =? 32 then 26 else (ver * 4 + numAlign * 2 + 1) / (numAlign * 2 - 2) * 2 in
    6 :: alignment_loop (Z.to_nat (numAlign - 1)) (sz - 7) step [].

Definition drawFunctionPatterns : M QrCode unit :=
  sz ← reads size;
  ver ← reads version;
  for_each (range 0 sz) (fun i =>
    setFunctionModule 6 i (i mod 2 =? 0) ;;
    setFunctionModule i 6 (i mod 2 =? 0)) ;;
  drawFinderPattern 3 3 ;;
  drawFinderPattern (sz - 4) 3 ;;
  drawFinderPattern 3 (sz - 4) ;;
  let alignPatPos := getAlignmentPatternPositions ver sz in
  let numAlign := Z.of_nat (length alignPatPos) in
  for_each (range 0 numAlign) (fun i =>
    for_each (range 0 numAlign) (fun j =>
      if negb (((i =? 0) && (j =? 0)) || ((i =? 0) && (j =? numAlign - 1)) || ((i =? numAlign - 1) && (j =? 0)))
      then drawAlignmentPattern (alignPatPos !!! Z.to_nat i) (alignPatPos !!! Z.to_nat j)
      else mret tt)) ;;
  drawFormatBits 0 ;;
  drawVersion.

(** ** Codewords *)

(** The data split into blocks, the error correction appended to each; a short block gets a padding
    byte in between. *)
Fixpoint make_blocks (n : nat) (i k : Z) (numShortBlocks shortBlockLen blockEccLen : Z) (dat rsDiv : list Z) : res (list (list Z)) :=
  match n with
  | O => Ok []
  | S n =>
      let len := shortBlockLen - blockEccLen + (if i <? numShortBlocks then 0 else 1) in
      let block := take (Z.to_nat len) (drop (Z.to_nat k) dat) in
      ecc ← reedSolomonComputeRemainder block rsDiv;
      blocks ← make_blocks n (i + 1) (k + len) numShortBlocks shortBlockLen blockEccLen dat rsDiv;
      Ok ((block ++ (if i <? numShortBlocks then [0] else []) ++ ecc) :: blocks)
  end.

(** [blocks.at(j).at(i)] for all [j], without the padding bytes. *)
Fixpoint interleave_row (blocks : list (list Z)) (i j shortDataLen numShortBlocks : Z) : res (list Z) :=
  match blocks with
  | [] => Ok []
  | block :: blocks =>
      row ← interleave_row blocks i (j + 1) shortDataLen numShortBlocks;
      if negb (i =? shortDataLen) || (numShortBlocks <=? j) then
        match block !! Z.to_nat i with Some b => Ok (b :: row) | None => range_check end
      else Ok row
  end.

Definition addEccAndInterleave (ver : Z) (ecl : Ecc) (dat : list Z) : res (list Z) :=
  numData ← getNumDataCodewords ver ecl;
  if negb (Z.of_nat (length dat) =? numData) then Throw (invalid_argument "Invalid argument")
  else
    let numBlocks := numEccBlocks ecl ver in
    let blockEccLen := eccPerBlock ecl ver in
    raw ← getNumRawDataModules ver;
    let rawCodewords := raw / 8 in
    let numShortBlocks := numBlocks - rawCodewords mod numBlocks in
    let shortBlockLen := rawCodewords / numBlocks in
    rsDiv ← reedSolomonComputeDivisor blockEccLen;
    blocks ← make_blocks (Z.to_nat numBlocks) 0 0 numShortBlocks shortBlockLen blockEccLen dat rsDiv;
    match blocks with
    | [] => range_check
    | block0 :: _ =>
        rows ← mapM (fun i => interleave_row blocks i 0 (shortBlockLen - blockEccLen) numShortBlocks)
                 (range 0 (Z.of_nat (length block0)));
        Ok (concat rows)
    end.

(** The right columns of the column pairs: [right] goes down by two and skips column 6. *)
Fixpoint column_pairs (fuel : nat) (right : Z) : list Z :=
  match fuel with
  | O => []
  | S fuel =>
      if right <? 1 then []
      else
        let right := if right =? 6 then 5 else right in
        right :: column_pairs fuel (right - 2)
  end.

(** The coordinates in the order of the three loops. *)
Definition zigzag (sz : Z) : list (Z * Z) :=
  concat (map (fun right =>
    concat (map (fun vert =>
      map (fun j =>
        let upward := Z.land (right + 1) 2 =? 0 in
        (right - j, if upward then sz - 1 - vert else vert)) (range 0 2)) (range 0 sz)))
    (column_pairs (Z.to_nat sz) (sz - 1))).

(** The body of the loops, with the bit index [i]. *)
Fixpoint draw_bits (ps : list (Z * Z)) (dat : list Z) (i : Z) : M QrCode Z :=
  match ps with
  | [] => mret i
  | (x, y) :: ps =>
      f ← (fun q => (grid_at (isFunction q) x y, q));
      if negb f && (i <? Z.of_nat (length dat) * 8) then
        match dat !! Z.to_nat (Z.shiftr i 3) with
        | Some b => set_module x y (getBit b (7 - Z.land i 7)) ;; draw_bits ps dat (i + 1)
        | None => liftR range_check
        end
      else draw_bits ps dat i
  end.

Definition drawCodewords (dat : list Z) : M QrCode unit :=
  ver ← reads version;
  sz ← reads size;
  raw ← liftR (getNumRawDataModules ver);
  if negb (Z.of_nat (length dat) =? raw / 8) then throwM (invalid_argument "Invalid argument")
  else draw_bits (zigzag sz) dat 0 ;; mret tt.

(** ** Masks *)

Definition invert (msk x y : Z) : bool :=
  match msk with
  | 0 => (x + y) mod 2 =? 0
  | 1 => y mod 2 =? 0
  | 2 => x mod 3 =? 0
  | 3 => (x + y) mod 3 =? 0
  | 4 => (x / 3 + y / 2) mod 2 =? 0
  | 5 => (x * y) mod 2 + (x * y) mod 3 =? 0
  | 6 => ((x * y) mod 2 + (x * y) mod 3) mod 2 =? 0
  | _ => ((x + y) mod 2 + (x * y) mod 3) mod 2 =? 0
  end.

Definition applyMask (msk : Z) : M QrCode unit :=
  if (msk <? 0) || (7 <? msk) then throwM (domain_error "Mask value out of range")
  else
    sz ← reads size;
    for_each (range 0 sz) (fun y =>
      for_each (range 0 sz) (fun x =>
        m ← module x y;
        f ← (fun q => (grid_at (isFunction q) x y, q));
        set_module x y (xorb m (invert msk x y && negb f)))).

(** *** The penalty *)

Definition finderPenaltyAddHistory (sz currentRunLength : Z) (runHistory : list Z) : list Z :=
  (if runHistory !!! 0%nat =? 0 then currentRunLength + sz else currentRunLength) :: take 6 runHistory.

Definition finderPenaltyCountPatterns (runHistory : list Z) : Z :=
  let at_ k := runHistory !!! k in
  let n := at_ 1%nat in
  let core := (0 <? n) && (at_ 2%nat =? n) && (at_ 3%nat =? n * 3) && (at_ 4%nat =? n) && (at_ 5%nat =? n) in
  (if core && (n * 4 <=? at_ 0%nat) && (n <=? at_ 6%nat) then 1 else 0)
  + (if core && (n * 4 <=? at_ 6%nat) && (n <=? at_ 0%nat) then 1 else 0).

Definition finderPenaltyTerminateAndCount (sz : Z) (currentRunColor : bool) (currentRunLength : Z) (runHistory : list Z) : Z :=
  let '(len, h) :=
    if currentRunColor then (0, finderPenaltyAddHistory sz currentRunLength runHistory) else (currentRunLength, runHistory) in
  finderPenaltyCountPatterns (finderPenaltyAddHistory sz (len + sz) h).

(** One row or column: the color of the run, its length, the history and the penalty so far. *)
Fixpoint run_penalty (sz : Z) (line : list bool) (runColor : bool) (run : Z) (runHistory : list Z) (result : Z) : Z :=
  match line with
  | [] => result + finderPenaltyTerminateAndCount sz runColor run runHistory * PENALTY_N3
  | m :: line =>
      if Bool.eqb m runColor then
        let run := run + 1 in
        run_penalty sz line runColor run runHistory
          (if run =? 5 then result + PENALTY_N1 else if 5 <? run then result + 1 else result)
      else
        let h := finderPenaltyAddHistory sz run runHistory in
        run_penalty sz line m 1 h (if runColor then result else result + finderPenaltyCountPatterns h * PENALTY_N3)
  end.

Definition line_penalty (sz : Z) (line : list bool) : Z := run_penalty sz line false 0 (replicate 7 0) 0.

Definition sum (l : list Z) : Z := foldr Z.add 0 l.

(** The penalty of the balance of dark and light modules. *)
Definition balance_penalty (sz dark : Z) : Z :=
  let total := sz * sz in
  let k := (Z.abs (dark * 20 - total * 10) + total - 1) / total - 1 in
  k * PENALTY_N4.

Definition getPenaltyScore : M QrCode Z :=
  sz ← reads size;
  g ← reads modules;
  rows ← liftR (mapM (fun y => mapM (fun x => grid_at g x y) (range 0 sz)) (range 0 sz));
  columns ← liftR (mapM (fun x => mapM (fun y => grid_at g x y) (range 0 sz)) (range 0 sz));
  blocks ← liftR (mapM (fun y => mapM (fun x =>
      color ← grid_at g x y;
      a ← grid_at g (x + 1) y;
      b ← grid_at g x (y + 1);
      c ← grid_at g (x + 1) (y + 1);
      Ok (if Bool.eqb color a && Bool.eqb color b && Bool.eqb color c then PENALTY_N2 else 0))
    (range 0 (sz - 1))) (range 0 (sz - 1)));
  let dark := sum (map (fun row => Z.of_nat (length (List.filter (fun b => b) row))) g) in
  mret (sum (map (line_penalty sz) rows) + sum (map (line_penalty sz) columns) + sum (map sum blocks)
        + balance_penalty sz dark).

(** ** The constructor *)

Definition LONG_MAX : Z := 2 ^ 63 - 1.

(** The loop over the masks: each is applied, scored and undone; the first of the least penalty is kept. *)
Fixpoint choose_mask (is_ : list Z) (msk minPenalty : Z) : M QrCode Z :=
  match is_ with
  | [] => mret msk
  | i :: is_ =>
      applyMask i ;;
      drawFormatBits i ;;
      penalty ← getPenaltyScore;
      applyMask i ;;
      if penalty <? minPenalty then choose_mask is_ i penalty else choose_mask is_ msk minPenalty
  end.

Definition blank_grid (sz : Z) : grid := replicate (Z.to_nat sz) (replicate (Z.to_nat sz) false).

Definition draw_code (ecl : Ecc) (dataCodewords : list Z) (msk : Z) : M QrCode unit :=
  drawFunctionPatterns ;;
  ver ← reads version;
  allCodewords ← liftR (addEccAndInterleave ver ecl dataCodewords);
  drawCodewords allCodewords ;;
  msk ← (if msk =? -1 then choose_mask (range 0 8) msk LONG_MAX else mret msk);
  modS (put_mask msk) ;;
  applyMask msk ;;
  drawFormatBits msk ;;
  modS (put_function []).

Definition new_QrCode (ver : Z) (ecl : Ecc) (dataCodewords : list Z) (msk : Z) : res QrCode :=
  if (ver <? MIN_VERSION) || (MAX_VERSION <? ver) then Throw (domain_error "Version value out of range")
  else if (msk <? -1) || (7 <? msk) then Throw (domain_error "Mask value out of range")
  else
    let sz := ver * 4 + 17 in
    match draw_code ecl dataCodewords msk (mk_QrCode ver sz ecl 0 (blank_grid sz) (blank_grid sz)) with
    | (Ok _, q) => Ok q
    | (Throw e, _) => Throw e
    end.

(** ** Encoding *)

(** The messages of [data_too_long], a [std::length_error]. *)
Definition too_long_message (dataUsedBits dataCapacityBits : Z) : string :=
  if dataUsedBits =? -1 then "Segment too long"
  else ("Data length = " +:+ to_string dataUsedBits +:+ " bits, Max capacity = " +:+ to_string dataCapacityBits +:+ " bits")%string.

(** The least version from [ver] on that has room: the version and the number of bits used. *)
Fixpoint find_version (n : nat) (ver : Z) (segs : list QrSegment) (ecl : Ecc) : res (Z * Z) :=
  numData ← getNumDataCodewords ver ecl;
  let dataCapacityBits := numData * 8 in
  let dataUsedBits := getTotalBits segs ver in
  if negb (dataUsedBits =? -1) && (dataUsedBits <=? dataCapacityBits) then Ok (ver, dataUsedBits)
  else
    match n with
    | O => Throw (length_error (too_long_message dataUsedBits dataCapacityBits))
    | S n => find_version n (ver + 1) segs ecl
    end.

(** The highest level the data still fits in. *)
Fixpoint boost_ecl (levels : list Ecc) (ver dataUsedBits : Z) (boostEcl : bool) (ecl : Ecc) : res Ecc :=
  match levels with
  | [] => Ok ecl
  | newEcl :: levels =>
      numData ← getNumDataCodewords ver newEcl;
      boost_ecl levels ver dataUsedBits boostEcl (if boostEcl && (dataUsedBits <=? numData * 8) then newEcl else ecl)
  end.

Fixpoint concat_segments (segs : list QrSegment) (ver : Z) (bb : BitBuffer) : res BitBuffer :=
  match segs with
  | [] => Ok bb
  | seg :: segs =>
      bb ← appendBits (u32 (modeBits (mode seg))) 4 bb;
      bb ← appendBits (u32 (numChars seg)) (numCharCountBits (mode seg) ver) bb;
      concat_segments segs ver (bb ++ data seg)
  end.

(** The padding bytes 0xEC and 0x11 in turn until the capacity is reached. *)
Fixpoint pad_bytes (n : nat) (padByte : Z) (bb : BitBuffer) : res BitBuffer :=
  match n with
  | O => Ok bb
  | S n => bb ← appendBits padByte 8 bb; pad_bytes n (Z.lxor padByte (Z.lxor 0xEC 0x11)) bb
  end.

(** [dataCodewords.at(i >> 3) |= (bb.at(i) ? 1 : 0) << (7 - (i & 7))] for the eight bits of a byte, from bit [i]. *)
Fixpoint pack_byte (i : Z) (bits : list bool) (b : Z) : Z :=
  match bits with
  | [] => b
  | bit :: bits => pack_byte (i + 1) bits (Z.lor b (Z.shiftl (if bit then 1 else 0) (7 - Z.land i 7)))
  end.

Fixpoint pack_bytes (n : nat) (bb : BitBuffer) : list Z :=
  match n with
  | O => []
  | S n => pack_byte 0 (take 8 bb) 0 :: pack_bytes n (drop 8 bb)
  end.

(** Terminator, padding up to a byte, and padding bytes. *)
Definition data_codewords (capacity : Z) (bb : BitBuffer) : res (list Z) :=
  bb ← appendBits 0 (Z.min 4 (capacity - Z.of_nat (length bb))) bb;
  bb ← appendBits 0 ((8 - Z.of_nat (length bb) mod 8) mod 8) bb;
  bb ← pad_bytes (Z.to_nat ((capacity - Z.of_nat (length bb) + 7) / 8)) 0xEC bb;
  Ok (pack_bytes (length bb / 8) bb).

Definition encodeSegments (segs : list QrSegment) (ecl : Ecc) (minVersion maxVersion msk : Z) (boostEcl : bool) : res QrCode :=
  if negb ((MIN_VERSION <=? minVersion) && (minVersion <=? maxVersion) && (maxVersion <=? MAX_VERSION)) || (msk <? -1) || (7 <? msk)
  then Throw (invalid_argument "Invalid value")
  else
    '(ver, dataUsedBits) ← find_version (Z.to_nat (maxVersion - minVersion)) minVersion segs ecl;
    ecl ← boost_ecl [MEDIUM; QUARTILE; HIGH] ver dataUsedBits boostEcl ecl;
    bb ← concat_segments segs ver [];
    numData ← getNumDataCodewords ver ecl;
    dataCodewords ← data_codewords (numData * 8) bb;
    new_QrCode ver ecl dataCodewords msk.

Definition encodeText (text : string) (ecl : Ecc) : res QrCode :=
  segs ← makeSegments text;
  encodeSegments segs ecl 1 40 (-1) true.

Definition encodeBinary (dat : list Z) (ecl : Ecc) : res QrCode :=
  seg ← makeBytes dat;
  encodeSegments [seg] ecl 1 40 (-1) true.
