(* ===== verification/QrSvg.v ===== *)
(** * otp/qr_code.cpp: the QR code as an SVG image

    The object [cotp::QR_code]: its settings, the content it encodes, and the image of the code in its
    decoration, with the numbers computed and printed as doubles. *)

From S2P Require Import Prelude Str Decimal QrSegment QrCode.
From Stdlib Require Import Ascii SpecFloat.
From Stdlib Require String.

Local Open Scope string_scope.
Local Open Scope Z_scope.

(** ** Doubles *)

Definition double_mul (a b : spec_float) : spec_float := SFmul 53 1024 a b.
Definition double_div (a b : spec_float) : spec_float := SFdiv 53 1024 a b.
Definition double_of_size (n : Z) : spec_float := binary_normalize 53 1024 n 0 false.

(** The [k] digits of [n], leading zeros included. *)
Fixpoint fixed_digits (k : nat) (n : Z) (acc : string) : string :=
  match k with
  | O => acc
  | S k => fixed_digits k (n / 10) (String (digit_char (n mod 10)) acc)
  end.

(** [std::to_string] of a double: six digits behind the point, rounded to nearest. *)
Definition double_to_string (d : spec_float) : string :=
  match d with
  | S754_zero s => (if s then "-" else "") +:+ "0.000000"
  | S754_infinity s => (if s then "-" else "") +:+ "inf"
  | S754_nan => "nan"
  | S754_finite s m e =>
      let n := round_half_even (Z.pos m * 2 ^ Z.max e 0 * 10 ^ 6) (2 ^ Z.max (- e) 0) in
      (if s then "-" else "") +:+ to_string (n / 10 ^ 6) +:+ "." +:+ fixed_digits 6 (n mod 10 ^ 6) ""
  end.

(** ** The object *)

Record QR_decoration := mk_decoration {
  svg : string;
  width : spec_float;
  height : spec_float;
  deco_x : spec_float;
  deco_y : spec_float }.

Definition newline : string := String (Ascii.ascii_of_nat 10) "".
Definition tab : string := String (Ascii.ascii_of_nat 9) "".
Definition quoted (s : string) : string := quote +:+ s +:+ quote.

Definition default_decoration : QR_decoration := mk_decoration
  ("<?xml version=" +:+ quoted "1.0" +:+ " encoding=" +:+ quoted "UTF-8" +:+ "?>" +:+ newline
   +:+ "<!DOCTYPE svg PUBLIC " +:+ quoted "-//W3C//DTD SVG 1.1//EN" +:+ " "
   +:+ quoted "http://www.w3.org/Graphics/SVG/1.1/DTD/svg11.dtd" +:+ ">" +:+ newline
   +:+ "<svg xmlns=" +:+ quoted "http://www.w3.org/2000/svg" +:+ " version=" +:+ quoted "1.1"
   +:+ " viewBox=" +:+ quoted "%viewbox%" +:+ " stroke=" +:+ quoted "none" +:+ ">" +:+ newline
   +:+ tab +:+ "<rect width=" +:+ quoted "100%" +:+ " height=" +:+ quoted "100%" +:+ " fill=" +:+ quoted "#FFFFFF" +:+ "/>" +:+ newline
   +:+ tab +:+ "<g transform=" +:+ quoted "translate(%translate%)" +:+ ">" +:+ newline
   +:+ tab +:+ tab +:+ "%qr_code%" +:+ newline
   +:+ tab +:+ "</g>" +:+ newline
   +:+ "</svg>" +:+ newline)
  (double_of_size 1000) (double_of_size 1000) (double_of_size 0) (double_of_size 0).

Record QR_code := mk_QR_code {
  m_content : string;
  m_qr : option QrCode;
  m_error_correction_level : Ecc;
  m_border : Z;
  m_decoration : QR_decoration }.

Definition new_QR_code : QR_code := mk_QR_code "" None MEDIUM 4 default_decoration.

(** The content is stored before it is encoded, so it stays when encoding throws. *)
Definition set_content (value : string) : M QR_code unit := fun c =>
  let c := mk_QR_code value (m_qr c) (m_error_correction_level c) (m_border c) (m_decoration c) in
  match encodeText (c_str (m_content c)) (m_error_correction_level c) with
  | Ok q => (Ok tt, mk_QR_code value (Some q) (m_error_correction_level c) (m_border c) (m_decoration c))
  | Throw e => (Throw e, c)
  end.

Definition set_error_correction_level (value : Ecc) (c : QR_code) : QR_code :=
  mk_QR_code (m_content c) (m_qr c) value (m_border c) (m_decoration c).

Definition set_border (value : Z) : M QR_code unit := fun c =>
  if 1024 <=? value then (Throw (logic_error "border too big"), c)
  else (Ok tt, mk_QR_code (m_content c) (m_qr c) (m_error_correction_level c) value (m_decoration c)).

Definition set_decoration (value : QR_decoration) (c : QR_code) : QR_code :=
  mk_QR_code (m_content c) (m_qr c) (m_error_correction_level c) (m_border c) value.

Definition clear_decoration (c : QR_code) : QR_code := set_decoration default_decoration c.

(** ** The image *)

(** The first occurrence of [what] is replaced. *)
Definition replace (str what with_ : string) : string :=
  match find_sub what str with
  | None => str
  | Some pos => str_take pos str +:+ with_ +:+ str_drop (pos + String.length what) str
  end.

(** What is written for a module. *)
Definition module_path (border x y : Z) : string :=
  (if (x =? 0) && (y =? 0) then "" else " ")
  +:+ "M" +:+ to_string (x + border) +:+ "," +:+ to_string (y + border) +:+ "h1v1h-1z".

Definition path_row (q : QrCode) (border y : Z) : res string :=
  foldr String.append "" <$>
  mapM (fun x => m ← getModule q x y; Ok (if (m : bool) then module_path border x y else "")) (range 0 (size q)).

Definition path_text (q : option QrCode) (border : Z) : res string :=
  rows ← match q with None => Ok [] | Some q => mapM (path_row q border) (range 0 (size q)) end;
  Ok (tab +:+ "<path d=" +:+ quote +:+ foldr String.append "" rows +:+ quote +:+ " fill=" +:+ quoted "#000000" +:+ "/>").

Definition get_svg (c : QR_code) : res string :=
  let qr_size := match m_qr c with Some q => size q | None => 0 end in
  let qr_size_with_border := qr_size + 2 * m_border c in
  let scale := double_div (double_of_size qr_size_with_border) (double_of_size 1000) in
  let d := m_decoration c in
  let pair a b := double_to_string (double_mul a scale) +:+ " " +:+ double_to_string (double_mul b scale) in
  let viewbox := "0 0 " +:+ pair (width d) (height d) in
  let scale_str := double_to_string scale +:+ " " +:+ double_to_string scale in
  let translate := pair (deco_x d) (deco_y d) in
  qr_code ← path_text (m_qr c) (m_border c);
  Ok (replace (replace (replace (replace (svg d) "%viewbox%" viewbox) "%scale%" scale_str) "%translate%" translate)
        "%qr_code%" qr_code).
