(* ===== verification/QrField.v ===== *)
(** * Reed-Solomon codes of the QR generator

    The multiplication of qrcodegen.cpp is that of the field with 256 elements, and the bytes that
    [reedSolomonComputeRemainder] appends to a block make it a multiple of the generator polynomial:
    the polynomial of the whole block vanishes at the first powers of 2. *)

From S2P Require Import Prelude QrSegment QrCode.

Local Open Scope list_scope.

(** ** The field *)

(** Polynomials over the bits: product without carries, and the remainder modulo 0x11D, from the
    bit [8 + n - 1] down. *)
Definition clmul (x y : Z) : Z :=
  foldr (fun i acc => Z.lxor acc (if Z.testbit y i then Z.shiftl x i else 0)) 0 [0; 1; 2; 3; 4; 5; 6; 7].

Fixpoint reduce (n : nat) (z : Z) : Z :=
  match n with
  | O => z
  | S n => reduce n (if Z.testbit z (8 + Z.of_nat n) then Z.lxor z (Z.shiftl 0x11D (Z.of_nat n)) else z)
  end.

Definition gf_mul (x y : Z) : Z := reduce 7 (clmul x y).

Fixpoint gf_pow (r : Z) (n : nat) : Z := match n with O => 1 | S n => gf_mul (gf_pow r n) r end.

(** The value of a polynomial, its highest coefficient first. *)
Definition gf_eval (p : list Z) (r : Z) : Z := foldl (fun acc c => Z.lxor (gf_mul acc r) c) 0 p.

Lemma lxor_byte x y : is_byte x -> is_byte y -> is_byte (Z.lxor x y).
Proof. apply (lxor_pow2_range x y 8). lia. Qed.

(** Every byte is a sum of powers of two. *)
Definition byte_bits (y : Z) : list Z :=
  map (fun i => if Z.testbit y i then Z.shiftl 1 i else 0) [0; 1; 2; 3; 4; 5; 6; 7].

Lemma byte_sum y : is_byte y -> foldr Z.lxor 0 (byte_bits y) = y.
Proof.
  intros Hy. apply Z.eqb_eq. apply (forall_below 256 (fun y => foldr Z.lxor 0 (byte_bits y) =? y)); [by vm_compute|].
  unfold is_byte in Hy. lia.
Qed.

Lemma byte_ind (P : Z -> Prop) : P 0 -> Forall P [1; 2; 4; 8; 16; 32; 64; 128] -> (forall a b, is_byte a -> is_byte b -> P a -> P b -> P (Z.lxor a b)) ->
  forall y, is_byte y -> P y.
Proof.
  intros H0 H2 HX y Hy. rewrite <- (byte_sum y Hy).
  assert (HF : Forall (fun b => is_byte b /\ P b) (byte_bits y)).
  { repeat match goal with H : Forall P (_ :: _) |- _ => apply Forall_cons in H as [? ?] end.
    unfold byte_bits. cbn [map]. repeat apply Forall_cons_2; try (by apply Forall_nil_2);
      match goal with |- context [Z.testbit y ?i] => destruct (Z.testbit y i) end; by split. }
  clear Hy. enough (is_byte (foldr Z.lxor 0 (byte_bits y)) /\ P (foldr Z.lxor 0 (byte_bits y))) as [_ ?] by done.
  induction HF as [|b l [Hb HP] _ [IHb IHP]]; cbn; [done|]. split; [by apply lxor_byte|by apply HX].
Qed.

(** The product is linear and commutative. *)
Lemma lxor_if (a b : bool) t : (if xorb a b then t else 0) = Z.lxor (if a then t else 0) (if b then t else 0).
Proof. destruct a, b; cbn [xorb]; by rewrite ?Z.lxor_nilpotent, ?Z.lxor_0_r, ?Z.lxor_0_l. Qed.

Lemma lxor_swap a b c d : Z.lxor (Z.lxor a b) (Z.lxor c d) = Z.lxor (Z.lxor a c) (Z.lxor b d).
Proof. rewrite !Z.lxor_assoc. f_equal. rewrite <- !Z.lxor_assoc. f_equal. apply Z.lxor_comm. Qed.

Lemma reduce_xor n : forall a b, reduce n (Z.lxor a b) = Z.lxor (reduce n a) (reduce n b).
Proof.
  induction n as [|n IH]; intros a b; [done|]. cbn [reduce]. rewrite <- IH, Z.lxor_spec. f_equal.
  set (t := Z.shiftl 0x11D (Z.of_nat n)). set (u := Z.testbit a (8 + Z.of_nat n)). set (v := Z.testbit b (8 + Z.of_nat n)).
  assert (forall (c : bool) z, (if c then Z.lxor z t else z) = Z.lxor z (if c then t else 0)) as E by (intros [] z; by rewrite ?Z.lxor_0_r).
  rewrite !E, lxor_if. apply lxor_swap.
Qed.

Lemma clmul_xor_r x y z : clmul x (Z.lxor y z) = Z.lxor (clmul x y) (clmul x z).
Proof.
  unfold clmul. generalize [0; 1; 2; 3; 4; 5; 6; 7]. intros l. induction l as [|i l IH]; [done|]. cbn [foldr].
  rewrite IH, Z.lxor_spec, lxor_if. apply lxor_swap.
Qed.

Lemma clmul_xor_l x y z : clmul (Z.lxor x y) z = Z.lxor (clmul x z) (clmul y z).
Proof.
  unfold clmul. generalize [0; 1; 2; 3; 4; 5; 6; 7]. intros l. induction l as [|i l IH]; [done|]. cbn [foldr].
  rewrite IH, lxor_swap. f_equal. destruct (Z.testbit z i); [apply Z.shiftl_lxor|done].
Qed.

Lemma gf_mul_xor_r x y z : gf_mul x (Z.lxor y z) = Z.lxor (gf_mul x y) (gf_mul x z).
Proof. unfold gf_mul. by rewrite clmul_xor_r, reduce_xor. Qed.

Lemma gf_mul_xor_l x y z : gf_mul (Z.lxor x y) z = Z.lxor (gf_mul x z) (gf_mul y z).
Proof. unfold gf_mul. by rewrite clmul_xor_l, reduce_xor. Qed.

Lemma gf_mul_0_r x : gf_mul x 0 = 0.
Proof. done. Qed.

Lemma gf_mul_0_l x : gf_mul 0 x = 0.
Proof. unfold gf_mul, clmul. cbn [foldr]. by repeat case_match. Qed.

Definition powers : list Z := [1; 2; 4; 8; 16; 32; 64; 128].

(** The laws hold on all bytes when they hold on the powers of two. *)
Lemma powers_ind (P : Z -> Prop) : P 0 -> (forall y, In y powers -> P y) -> (forall a b, P a -> P b -> P (Z.lxor a b)) ->
  forall y, is_byte y -> P y.
Proof. intros H0 H2 HX. apply byte_ind; [done| |auto]. apply Forall_forall. intros y Hy%list_elem_of_In. by apply H2. Qed.

Definition comm_check : bool := forallb (fun x => forallb (fun y => gf_mul x y =? gf_mul y x) powers) powers.

Definition assoc_check : bool :=
  forallb (fun x => forallb (fun y => forallb (fun z => gf_mul (gf_mul x y) z =? gf_mul x (gf_mul y z)) powers) powers) powers.

Lemma comm_powers x y : In x powers -> In y powers -> gf_mul x y = gf_mul y x.
Proof.
  assert (H : comm_check = true) by (by vm_compute). unfold comm_check in H. rewrite forallb_forall in H. intros Hx Hy.
  specialize (H x Hx). rewrite forallb_forall in H. by apply Z.eqb_eq, H.
Qed.

Lemma assoc_powers x y z : In x powers -> In y powers -> In z powers -> gf_mul (gf_mul x y) z = gf_mul x (gf_mul y z).
Proof.
  assert (H : assoc_check = true) by (by vm_compute). unfold assoc_check in H. rewrite forallb_forall in H. intros Hx Hy Hz.
  specialize (H x Hx). rewrite forallb_forall in H. specialize (H y Hy). rewrite forallb_forall in H. by apply Z.eqb_eq, H.
Qed.

(** The loop doubles in the field and adds [x] for each bit of [y], so it is linear in [x]. *)
Lemma double_step z : is_byte z -> Z.lxor (Z.shiftl z 1) (Z.shiftr z 7 * 0x11D) = gf_mul z 2 /\ is_byte (gf_mul z 2).
Proof.
  intros Hz. set (P := fun z => (Z.lxor (Z.shiftl z 1) (Z.shiftr z 7 * 0x11D) =? gf_mul z 2) && (0 <=? gf_mul z 2) && (gf_mul z 2 <? 256)).
  assert (H : P z = true) by (apply (forall_below 256 P); [by vm_compute|unfold is_byte in Hz; lia]).
  unfold P in H. breflect. split; [done|]. by split.
Qed.

Lemma bit_times y n x : Z.land (Z.shiftr y (Z.of_nat n)) 1 * x = if Z.testbit y (Z.of_nat n) then x else 0.
Proof.
  change 1 with (Z.ones 1). rewrite Z.land_ones by lia. change (2 ^ 1) with 2. rewrite <- Z.bit0_mod, Z.shiftr_spec, Z.add_0_l by lia.
  destruct (Z.testbit y (Z.of_nat n)); cbn; lia.
Qed.

Lemma mul_check y : is_byte y -> forallb (fun x => reedSolomonMultiply x y =? gf_mul x y) powers = true.
Proof.
  intros Hy. apply (forall_below 256 (fun y => forallb (fun x => reedSolomonMultiply x y =? gf_mul x y) powers)); [by vm_compute|].
  unfold is_byte in Hy. lia.
Qed.

Lemma mul_powers x y : In x powers -> is_byte y -> reedSolomonMultiply x y = gf_mul x y.
Proof.
  intros Hx Hy. pose proof (proj1 (forallb_forall _ _) (mul_check y Hy) x Hx) as H.
  exact (proj1 (Z.eqb_eq _ _) H).
Qed.

#[local] Opaque gf_mul.

Lemma if_byte (c : bool) x : is_byte x -> is_byte (if c then x else 0).
Proof. by destruct c. Qed.

Lemma mul_loop_xor n y : forall x x' z z', is_byte x -> is_byte x' -> is_byte z -> is_byte z' ->
  mul_loop n (Z.lxor x x') y (Z.lxor z z') = Z.lxor (mul_loop n x y z) (mul_loop n x' y z') /\ is_byte (mul_loop n x y z).
Proof.
  induction n as [|n IH]; intros x x' z z' Hx Hx' Hz Hz'; [done|]. cbn [mul_loop]. rewrite !bit_times.
  destruct (double_step z Hz) as [-> Hd]. destruct (double_step z' Hz') as [-> Hd'].
  destruct (double_step (Z.lxor z z') (lxor_byte _ _ Hz Hz')) as [-> _]. rewrite gf_mul_xor_l.
  set (c := Z.testbit y (Z.of_nat n)).
  destruct (IH x x' (Z.lxor (gf_mul z 2) (if c then x else 0)) (Z.lxor (gf_mul z' 2) (if c then x' else 0))) as [<- Hb];
    [done|done|apply lxor_byte; [done|by apply if_byte]..|]. split; [|done].
  f_equal. rewrite lxor_swap. f_equal. by destruct c; [|rewrite Z.lxor_0_r].
Qed.

Lemma mul_xor x x' y : is_byte x -> is_byte x' -> reedSolomonMultiply (Z.lxor x x') y = Z.lxor (reedSolomonMultiply x y) (reedSolomonMultiply x' y).
Proof.
  intros Hx Hx'. unfold reedSolomonMultiply. destruct (mul_loop_xor 8 y x x' 0 0) as [E Hb]; [done..|].
  destruct (mul_loop_xor 8 y x' x 0 0) as [_ Hb']; [done..|]. change (Z.lxor 0 0) with 0 in E. rewrite E, !u8_id by (done || by apply lxor_byte). done.
Qed.

Lemma mul_zero y : reedSolomonMultiply 0 y = 0.
Proof.
  unfold reedSolomonMultiply. assert (forall n, mul_loop n 0 y 0 = 0) as ->; [|done].
  induction n as [|n IH]; [done|]. cbn [mul_loop]. rewrite Z.mul_0_r. exact IH.
Qed.

Lemma mul_is_gf x y : is_byte x -> is_byte y -> reedSolomonMultiply x y = gf_mul x y.
Proof.
  intros Hx Hy. revert x Hx. apply (byte_ind (fun x => reedSolomonMultiply x y = gf_mul x y)).
  - by rewrite mul_zero, gf_mul_0_l.
  - apply Forall_forall. intros x Hx%list_elem_of_In. by apply mul_powers.
  - intros a b Ha Hb Ea Eb. by rewrite mul_xor, gf_mul_xor_l, Ea, Eb.
Qed.

Lemma gf_mul_byte x y : is_byte x -> is_byte y -> is_byte (gf_mul x y).
Proof. intros Hx Hy. rewrite <- mul_is_gf by done. apply u8_is_byte. Qed.

Lemma gf_mul_comm x y : is_byte x -> is_byte y -> gf_mul x y = gf_mul y x.
Proof.
  intros Hx. revert y. apply powers_ind; [by rewrite gf_mul_0_l| |intros a b Ha Hb; by rewrite gf_mul_xor_r, gf_mul_xor_l, Ha, Hb].
  intros y Hy. revert x Hx. apply powers_ind; [by rewrite gf_mul_0_l| |intros a b Ha Hb; by rewrite gf_mul_xor_r, gf_mul_xor_l, Ha, Hb].
  intros x Hx. by apply comm_powers.
Qed.

Lemma gf_mul_assoc x y z : is_byte x -> is_byte y -> is_byte z -> gf_mul (gf_mul x y) z = gf_mul x (gf_mul y z).
Proof.
  intros Hx Hy. revert z. apply powers_ind; [by rewrite !gf_mul_0_r| |intros a b Ha Hb; by rewrite !gf_mul_xor_r, Ha, Hb].
  intros z Hz. revert y Hy. apply powers_ind; [by rewrite gf_mul_0_r, !gf_mul_0_l, gf_mul_0_r| |].
  2:{ intros a b Ha Hb. by rewrite gf_mul_xor_r, !gf_mul_xor_l, gf_mul_xor_r, Ha, Hb. }
  intros y Hy. revert x Hx. apply powers_ind; [by rewrite !gf_mul_0_l| |intros a b Ha Hb; by rewrite !gf_mul_xor_l, Ha, Hb].
  intros x Hx. by apply assoc_powers.
Qed.

Lemma gf_mul_1_l x : is_byte x -> gf_mul 1 x = x.
Proof.
  revert x. apply powers_ind; [done| |intros a b Ha Hb; by rewrite gf_mul_xor_r, Ha, Hb].
  intros y Hy. cbn in Hy. decompose [or False] Hy; subst; done.
Qed.

(** ** Polynomials *)

Create HintDb gf.
#[local] Hint Resolve gf_mul_byte lxor_byte : gf.
Ltac gf := eauto 6 with gf; done.

Lemma byte_0 : is_byte 0. Proof. done. Qed.
Lemma byte_1 : is_byte 1. Proof. done. Qed.
Lemma byte_2 : is_byte 2. Proof. done. Qed.
#[local] Hint Resolve byte_0 byte_1 byte_2 : gf.

Lemma gf_pow_byte r n : is_byte r -> is_byte (gf_pow r n).
Proof. intros Hr. induction n; cbn [gf_pow]; gf. Qed.
#[local] Hint Resolve gf_pow_byte : gf.

Lemma eval_byte p r : forall acc, is_byte acc -> is_byte r -> bytes_ok p -> is_byte (foldl (fun acc c => Z.lxor (gf_mul acc r) c) acc p).
Proof. induction p as [|c p IH]; intros acc Ha Hr Hp; [done|]. apply Forall_cons in Hp as [Hc Hp]. cbn [foldl]. apply IH; gf. Qed.

Lemma gf_eval_byte p r : is_byte r -> bytes_ok p -> is_byte (gf_eval p r).
Proof. intros. by apply eval_byte. Qed.
#[local] Hint Resolve gf_eval_byte : gf.

Lemma gf_mul_1_r x : is_byte x -> gf_mul x 1 = x.
Proof. intros. rewrite gf_mul_comm by gf. by apply gf_mul_1_l. Qed.

Lemma eval_from p r : forall acc, is_byte acc -> is_byte r -> bytes_ok p ->
  foldl (fun acc c => Z.lxor (gf_mul acc r) c) acc p = Z.lxor (gf_mul acc (gf_pow r (length p))) (gf_eval p r).
Proof.
  induction p as [|c p IH] using rev_ind; intros acc Ha Hr Hp.
  { cbn. by rewrite Z.lxor_0_r, gf_mul_1_r. }
  apply Forall_app in Hp as [Hp Hc]. unfold gf_eval in *. rewrite !foldl_app. cbn [foldl]. rewrite IH by done.
  rewrite length_app, Nat.add_comm. cbn [length Nat.add gf_pow]. fold (gf_eval p r).
  rewrite gf_mul_xor_l, gf_mul_assoc by gf. apply Z.lxor_assoc.
Qed.

Lemma eval_app p q r : is_byte r -> bytes_ok p -> bytes_ok q ->
  gf_eval (p ++ q) r = Z.lxor (gf_mul (gf_eval p r) (gf_pow r (length q))) (gf_eval q r).
Proof. intros Hr Hp Hq. unfold gf_eval at 1. rewrite foldl_app. fold (gf_eval p r). by apply eval_from; [apply gf_eval_byte| |]. Qed.

Lemma eval_cons c p r : is_byte r -> is_byte c -> bytes_ok p ->
  gf_eval (c :: p) r = Z.lxor (gf_mul c (gf_pow r (length p))) (gf_eval p r).
Proof. intros Hr Hc Hp. unfold gf_eval at 1. cbn [foldl]. rewrite gf_mul_0_l, Z.lxor_0_l. by apply eval_from. Qed.

Lemma eval_snoc p c r : gf_eval (p ++ [c]) r = Z.lxor (gf_mul (gf_eval p r) r) c.
Proof. unfold gf_eval. by rewrite foldl_app. Qed.

Lemma eval_xor p q r : length p = length q -> gf_eval (zip_with Z.lxor p q) r = Z.lxor (gf_eval p r) (gf_eval q r).
Proof.
  revert q. induction p as [|a p IH] using rev_ind; intros q Hl.
  { destruct q; [done|cbn in Hl; lia]. }
  destruct q as [|b q _] using rev_ind; rewrite length_app in Hl; cbn in Hl; [lia|]. rewrite length_app in Hl. cbn in Hl.
  rewrite zip_with_app by lia. cbn [zip_with]. rewrite !eval_snoc, IH, gf_mul_xor_l by lia. apply lxor_swap.
Qed.

Lemma eval_scale p f r : is_byte f -> is_byte r -> bytes_ok p -> gf_eval (map (fun d => gf_mul d f) p) r = gf_mul (gf_eval p r) f.
Proof.
  intros Hf Hr. induction p as [|a p IH] using rev_ind; intros Hp; [by rewrite gf_mul_0_l|].
  apply Forall_app in Hp as [Hp Ha%Forall_singleton]. rewrite map_app. cbn [map]. rewrite !eval_snoc, IH by done.
  rewrite gf_mul_xor_l, !gf_mul_assoc, (gf_mul_comm f r) by gf. done.
Qed.

(** ** The generator polynomial *)

Lemma divisor_step_eq root l : is_byte root -> bytes_ok l ->
  divisor_step root l = zip_with Z.lxor (map (fun a => gf_mul a root) l) (tail l ++ [0]).
Proof.
  intros Hr. induction 1 as [|a l Ha Hl IH]; [done|]. cbn [divisor_step map tail app]. rewrite mul_is_gf, IH by done.
  destruct l as [|b l]; [cbn; by rewrite Z.lxor_0_r|done].
Qed.

Lemma zip_xor_bytes p q : bytes_ok p -> bytes_ok q -> bytes_ok (zip_with Z.lxor p q).
Proof. intros Hp. revert q. induction Hp as [|a p Ha _ IH]; intros [|b q] Hq; try by constructor. apply Forall_cons in Hq as [Hb Hq]. constructor; [gf|auto]. Qed.

Lemma scale_bytes f p : is_byte f -> bytes_ok p -> bytes_ok (map (fun d => gf_mul d f) p).
Proof. intros Hf. induction 1; constructor; gf. Qed.

Lemma step_bytes root l : is_byte root -> bytes_ok l -> bytes_ok (divisor_step root l).
Proof.
  intros Hr Hl. rewrite divisor_step_eq by done. apply zip_xor_bytes; [by apply scale_bytes|]. apply Forall_app.
  split; [|by apply Forall_singleton]. destruct Hl; [done|]. done.
Qed.

Lemma step_length root l : length (divisor_step root l) = length l.
Proof. induction l as [|a l IH]; cbn; [done|]. by rewrite IH. Qed.

Lemma step_eval h t root r : is_byte root -> is_byte r -> bytes_ok (h :: t) ->
  gf_eval (divisor_step root (h :: t)) r = Z.lxor (gf_mul (gf_eval (h :: t) r) (Z.lxor r root)) (gf_mul h (gf_pow r (S (length t)))).
Proof.
  intros Hroot Hr Hl. pose proof Hl as [Hh Ht]%Forall_cons.
  rewrite divisor_step_eq by done. rewrite eval_xor by (rewrite length_app, length_map; cbn; lia).
  rewrite eval_scale by done. cbn [tail]. rewrite eval_snoc, Z.lxor_0_r, gf_mul_xor_r.
  assert (E : gf_mul (gf_eval t r) r = Z.lxor (gf_mul (gf_eval (h :: t) r) r) (gf_mul h (gf_pow r (S (length t))))).
  { rewrite eval_cons by done. cbn [gf_pow]. rewrite gf_mul_xor_l, gf_mul_assoc by gf.
    rewrite (Z.lxor_comm (gf_mul h _)), Z.lxor_assoc, Z.lxor_nilpotent. by rewrite Z.lxor_0_r. }
  rewrite E, <- Z.lxor_assoc. f_equal. apply Z.lxor_comm.
Qed.

Lemma step_shape root z low : is_byte root -> exists low',
  divisor_step root (replicate (S z) 0 ++ 1 :: low) = replicate z 0 ++ 1 :: low' /\ length low' = S (length low).
Proof.
  intros Hr. induction z as [|z IH].
  - exists (divisor_step root (1 :: low)). split; [cbn [replicate app divisor_step]; by rewrite mul_is_gf, gf_mul_0_l by gf|apply step_length].
  - destruct IH as (low' & E & Hl). exists low'. split; [|done]. cbn [replicate app divisor_step] in *.
    rewrite mul_is_gf, gf_mul_0_l in * by gf. by rewrite E.
Qed.

(** The product of [r - 2^k] for [k] below [n]. *)
Fixpoint root_product (n : nat) (r : Z) : Z :=
  match n with O => 1 | S n => gf_mul (root_product n r) (Z.lxor r (gf_pow 2 n)) end.

Lemma divisor_loop_spec n : forall k i low, (i + k = n)%nat -> (1 <= k)%nat -> length low = i ->
  bytes_ok low -> (forall r, is_byte r -> gf_eval (replicate (k - 1) 0 ++ 1 :: low) r = root_product i r) ->
  let g := divisor_loop k (gf_pow 2 i) (replicate (k - 1) 0 ++ 1 :: low) in
  length g = n /\ bytes_ok g /\ forall r, is_byte r -> Z.lxor (gf_pow r n) (gf_eval g r) = root_product n r.
Proof.
  induction k as [|k IH]; intros i low Hn Hk Hl Hb He; [lia|]. cbn [divisor_loop]. replace (S k - 1)%nat with k in * by lia.
  rewrite mul_is_gf by gf. change (gf_mul (gf_pow 2 i) 2) with (gf_pow 2 (S i)).
  assert (Hall : bytes_ok (replicate k 0 ++ 1 :: low)).
  { apply Forall_app. split; [by apply Forall_replicate|by constructor]. }
  destruct k as [|k].
  - cbn [replicate app divisor_loop] in *. split; [rewrite step_length; cbn; lia|]. split; [apply step_bytes; gf|].
    intros r Hr. rewrite step_eval, He, gf_mul_1_l by gf. replace n with (S i) by lia. rewrite Hl. cbn [root_product].
    rewrite (Z.lxor_comm (gf_mul (root_product i r) _)), <- Z.lxor_assoc, Z.lxor_nilpotent. apply Z.lxor_0_l.
  - destruct (step_shape (gf_pow 2 i) k low) as (low' & E & Hl'); [gf|].
    pose proof (step_bytes (gf_pow 2 i) _ ltac:(gf) Hall) as Hb'. rewrite E in *.
    specialize (IH (S i) low'). replace (S k - 1)%nat with k in IH by lia. apply IH; [lia|lia|lia| |].
    + apply Forall_app in Hb' as [_ Hb']. by apply Forall_cons in Hb' as [_ ?].
    + intros r Hr. rewrite <- E. cbn [replicate app] in *. rewrite step_eval, He, gf_mul_0_l, Z.lxor_0_r by gf. done.
Qed.

Lemma divisor_spec degree : 1 <= degree <= 255 -> exists g, reedSolomonComputeDivisor degree = Ok g
  /\ Z.of_nat (length g) = degree /\ bytes_ok g
  /\ forall r, is_byte r -> Z.lxor (gf_pow r (length g)) (gf_eval g r) = root_product (length g) r.
Proof.
  intros Hd. unfold reedSolomonComputeDivisor. replace ((degree <? 1) || (255 <? degree)) with false by lia.
  destruct (divisor_loop_spec (Z.to_nat degree) (Z.to_nat degree) 0 []) as (Hl & Hb & He); [lia|lia|done|constructor| |].
  - intros r Hr. cbn [root_product]. rewrite eval_snoc.
    assert (gf_eval (replicate (Z.to_nat degree - 1) 0) r = 0) as ->; [|by rewrite gf_mul_0_l].
    induction (Z.to_nat degree - 1)%nat as [|n IH]; [done|]. rewrite replicate_S_end, eval_snoc, IH, gf_mul_0_l. done.
  - cbn [gf_pow] in *. eexists. split; [done|]. split; [lia|]. split; [exact Hb|]. rewrite Hl. exact He.
Qed.

Lemma root_product_zero n j : (j < n)%nat -> root_product n (gf_pow 2 j) = 0.
Proof.
  induction n as [|n IH]; intros Hj; [lia|]. cbn [root_product]. destruct (Nat.eq_dec j n) as [->|].
  - by rewrite Z.lxor_nilpotent, gf_mul_0_r.
  - rewrite IH by lia. apply gf_mul_0_l.
Qed.

(** ** The remainder *)

Lemma bytes_snoc l b : bytes_ok l -> is_byte b -> bytes_ok (l ++ [b]).
Proof. intros Hl Hb. apply Forall_app. split; [done|]. by apply Forall_singleton. Qed.

(** One step of the division: the old remainder moved up, plus the factor times the divisor. *)
Lemma remainder_step g b r0 R : bytes_ok g -> is_byte b -> bytes_ok (r0 :: R) -> length (r0 :: R) = length g ->
  exists R', bytes_ok R' /\ length R' = length g /\ (forall dat, remainder_loop g (b :: dat) (r0 :: R) = remainder_loop g dat R')
  /\ forall r, is_byte r -> gf_eval R' r = Z.lxor (gf_mul (gf_eval R r) r) (gf_mul (gf_eval g r) (Z.lxor b r0)).
Proof.
  intros Hg Hb [Hr0 HR]%Forall_cons Hl. set (f := Z.lxor b r0). assert (Hf : is_byte f) by gf.
  exists (zip_with Z.lxor (R ++ [0]) (map (fun d => gf_mul d f) g)).
  assert (Hlen : length (R ++ [0]) = length (map (fun d => gf_mul d f) g)) by (rewrite length_app, length_map; cbn in *; lia).
  split; [apply zip_xor_bytes; [by apply bytes_snoc|by apply scale_bytes]|].
  split; [rewrite length_zip_with, Hlen, length_map; lia|]. split.
  - intros dat. cbn [remainder_loop]. fold f. f_equal. clear -Hg Hf. revert g Hg.
    induction (R ++ [0]) as [|x l IHl]; intros [|d g] Hg; try done. apply Forall_cons in Hg as [Hd Hg]. cbn. by rewrite mul_is_gf, IHl.
  - intros r Hr. by rewrite eval_xor, eval_scale, eval_snoc, Z.lxor_0_r.
Qed.

Lemma remainder_loop_spec g dat : bytes_ok g -> g <> [] -> bytes_ok dat ->
  forall R d, bytes_ok R -> bytes_ok d -> length R = length g -> exists R', remainder_loop g dat R = Ok R'
  /\ length R' = length g /\ bytes_ok R'
  /\ forall r, is_byte r -> gf_eval g r = gf_pow r (length g) -> gf_mul (gf_eval d r) (gf_pow r (length g)) = gf_eval R r ->
     gf_mul (gf_eval (d ++ dat) r) (gf_pow r (length g)) = gf_eval R' r.
Proof.
  intros Hg Hne. induction 1 as [|b dat Hb Hdat IH]; intros R d HR Hd Hl.
  { exists R. by rewrite app_nil_r. }
  destruct R as [|r0 R]; [destruct g; [done|cbn in Hl; lia]|].
  destruct (remainder_step g b r0 R Hg Hb HR Hl) as (R1 & HR1 & Hl1 & Hs & He). pose proof HR as [Hr0 HR']%Forall_cons.
  destruct (IH R1 (d ++ [b]) HR1 (bytes_snoc d b Hd Hb) Hl1) as (R' & E & Hl' & Hb' & Hv').
  exists R'. split; [by rewrite Hs|]. split; [done|]. split; [done|]. intros r Hr Hgr Hv. rewrite cons_middle, app_assoc.
  apply Hv'; [done|done|]. rewrite He, eval_snoc, Hgr, gf_mul_xor_l, gf_mul_assoc, (gf_mul_comm r) by gf.
  rewrite <- gf_mul_assoc, Hv, eval_cons by gf. rewrite gf_mul_xor_l, gf_mul_xor_r, gf_mul_assoc by gf. cbn [length] in Hl. rewrite <- Hl.
  change (gf_mul (gf_pow r (length R)) r) with (gf_pow r (S (length R))).
  rewrite (gf_mul_comm _ b), (gf_mul_comm _ r0) by gf.
  generalize (gf_mul r0 (gf_pow r (S (length R)))) (gf_mul (gf_eval R r) r) (gf_mul b (gf_pow r (S (length R)))).
  intros u v w. rewrite (Z.lxor_comm u v), Z.lxor_assoc. f_equal. apply Z.lxor_comm.
Qed.

Lemma eval_zeros n r : gf_eval (replicate n 0) r = 0.
Proof. induction n as [|n IH]; [done|]. by rewrite replicate_S_end, eval_snoc, IH, gf_mul_0_l. Qed.

Lemma remainder_spec g dat : bytes_ok g -> bytes_ok dat -> g <> [] -> exists rem, reedSolomonComputeRemainder dat g = Ok rem
  /\ length rem = length g /\ bytes_ok rem
  /\ forall r, is_byte r -> gf_eval g r = gf_pow r (length g) -> gf_eval (dat ++ rem) r = 0.
Proof.
  intros Hg Hdat Hne. destruct (remainder_loop_spec g dat Hg Hne Hdat (replicate (length g) 0) []) as (rem & E & Hl & Hb & Hv).
  - by apply Forall_replicate.
  - constructor.
  - apply length_replicate.
  - exists rem. split; [exact E|]. split; [done|]. split; [done|]. intros r Hr He.
    rewrite eval_app, Hl by done. cbn [app] in Hv. rewrite Hv by (done || by rewrite eval_zeros, gf_mul_0_l). apply Z.lxor_nilpotent.
Qed.

(** The divisor of a degree, and what it makes of every block. *)
Lemma generator_spec degree : 1 <= degree <= 255 -> exists divisor, reedSolomonComputeDivisor degree = Ok divisor
  /\ forall dat, bytes_ok dat -> exists rem, reedSolomonComputeRemainder dat divisor = Ok rem /\ Z.of_nat (length rem) = degree /\ bytes_ok rem
     /\ forall i, Z.of_nat i < degree -> gf_eval (dat ++ rem) (gf_pow 2 i) = 0.
Proof.
  intros Hd. destruct (divisor_spec degree Hd) as (g & Eg & Hl & Hb & He). exists g. split; [done|]. intros dat Hdat.
  destruct (remainder_spec g dat Hb Hdat) as (rem & Er & Hlr & Hbr & Hv); [by intros ->; cbn in Hl; lia|].
  exists rem. split; [done|]. split; [lia|]. split; [done|]. intros i Hi. apply Hv; [gf|].
  specialize (He (gf_pow 2 i) ltac:(gf)). rewrite root_product_zero in He by lia. by apply Z.lxor_eq in He.
Qed.

(** The error correction bytes the generator appends to a block make the block a Reed-Solomon
    codeword: the polynomial of the block with its remainder, over the field of 256 elements modulo
    0x11D, is zero at the first [degree] powers of 2. *)
Theorem reed_solomon_codeword (dat : list Z) (degree : Z) : bytes_ok dat -> 1 <= degree <= 255 ->
  exists divisor rem, reedSolomonComputeDivisor degree = Ok divisor /\ reedSolomonComputeRemainder dat divisor = Ok rem
  /\ Z.of_nat (length rem) = degree /\ bytes_ok rem
  /\ forall i, (Z.of_nat i < degree) -> gf_eval (dat ++ rem) (gf_pow 2 i) = 0.
Proof.
  intros Hdat Hd. destruct (generator_spec degree Hd) as (g & Eg & Hg). destruct (Hg dat Hdat) as (rem & ?). by exists g, rem.
Qed.

(** The block of the first example of the standard. *)
Lemma reed_solomon_codeword_witness :
  exists divisor rem, reedSolomonComputeDivisor 10 = Ok divisor /\ reedSolomonComputeRemainder [16; 32; 12; 86; 97; 128] divisor = Ok rem
  /\ length rem = 10%nat /\ gf_eval ([16; 32; 12; 86; 97; 128] ++ rem) (gf_pow 2 9) = 0.
Proof.
  destruct (reed_solomon_codeword [16; 32; 12; 86; 97; 128] 10) as (g & rem & E1 & E2 & Hl & _ & Hz); [|lia|].
  - repeat (apply Forall_cons_2; [done|]). apply Forall_nil_2.
  - exists g, rem. split; [done|]. split; [done|]. split; [lia|]. by apply Hz.
Defined.
