(* ===== verification/QrDraw.v ===== *)
(** * Drawing a QR code never leaves the grid

    The state of a code under construction, what each drawing operation does to its cells, and the
    areas of the function patterns.  Every [at] of qrcodegen.cpp is in range. *)

From S2P Require Import Prelude QrSegment QrCode.

Local Open Scope list_scope.

(** ** Grids *)

Definition shape (sz : Z) (g : grid) : Prop :=
  length g = Z.to_nat sz /\ Forall (fun row => length row = Z.to_nat sz) g.

Definition in_grid (sz x y : Z) : Prop := 0 <= x < sz /\ 0 <= y < sz.

Definition cell (g : grid) (x y : Z) : bool := default false (row ← g !! Z.to_nat y; row !! Z.to_nat x).

Lemma shape_lookup sz g x y : shape sz g -> in_grid sz x y -> exists row b, g !! Z.to_nat y = Some row
  /\ row !! Z.to_nat x = Some b /\ cell g x y = b.
Proof.
  intros [Hl Hr] [Hx Hy]. destruct (lookup_lt_is_Some_2 g (Z.to_nat y)) as [row Er]; [lia|].
  assert (Hrow : length row = Z.to_nat sz) by (by eapply Forall_lookup_1 in Hr).
  destruct (lookup_lt_is_Some_2 row (Z.to_nat x)) as [b Eb]; [lia|]. exists row, b. unfold cell. rewrite Er. cbn. by rewrite Eb.
Qed.

Lemma grid_at_ok sz g x y : shape sz g -> in_grid sz x y -> grid_at g x y = Ok (cell g x y).
Proof.
  intros Hs Hp. destruct (shape_lookup sz g x y Hs Hp) as (row & b & Er & Eb & ->). destruct Hp as [Hx Hy].
  unfold grid_at. replace ((x <? 0) || (y <? 0)) with false by lia. by rewrite Er, Eb.
Qed.

Lemma grid_set_ok sz g x y b : shape sz g -> in_grid sz x y -> exists g', grid_set g x y b = Ok g' /\ shape sz g'
  /\ forall x' y', in_grid sz x' y' -> cell g' x' y' = if (x' =? x) && (y' =? y) then b else cell g x' y'.
Proof.
  intros Hs Hp. eexists. unfold grid_set. rewrite (grid_at_ok sz) by done. split; [done|].
  destruct (shape_lookup sz g x y Hs Hp) as (row & c & Er & Eb & _). destruct Hs as [Hl Hr]. split.
  - split; [by rewrite length_alter|]. apply Forall_alter; [done|]. intros r ? Hlr. by rewrite length_insert.
  - intros x' y' [Hx' Hy']. destruct Hp as [Hx Hy]. unfold cell.
    destruct (Z.eqb_spec y' y) as [->|Hne]; [rewrite list_lookup_alter_eq, Er|rewrite list_lookup_alter_ne, andb_false_r by lia; done].
    cbn. destruct (Z.eqb_spec x' x) as [->|Hne]; cbn.
    + rewrite list_lookup_insert_eq; [done|]. by apply lookup_lt_Some in Eb.
    + by rewrite list_lookup_insert_ne by lia.
Qed.

Lemma grid_ext sz g h : shape sz g -> shape sz h -> (forall x y, in_grid sz x y -> cell g x y = cell h x y) -> g = h.
Proof.
  intros Hg Hh Hc. destruct Hg as [Hlg Hrg] eqn:Eg. destruct Hh as [Hlh Hrh] eqn:Eh. clear Eg Eh. apply list_eq. intros i.
  destruct (decide (i < Z.to_nat sz)%nat) as [Hi|Hi]; [|rewrite !lookup_ge_None_2 by lia; done].
  destruct (lookup_lt_is_Some_2 g i) as [r Er]; [lia|]. destruct (lookup_lt_is_Some_2 h i) as [s Es]; [lia|].
  rewrite Er, Es. f_equal. assert (Hr : length r = Z.to_nat sz) by (by eapply Forall_lookup_1 in Hrg).
  assert (Hs : length s = Z.to_nat sz) by (by eapply Forall_lookup_1 in Hrh). apply list_eq. intros k.
  destruct (decide (k < Z.to_nat sz)%nat) as [Hk|Hk]; [|rewrite !lookup_ge_None_2 by lia; done].
  specialize (Hc (Z.of_nat k) (Z.of_nat i) ltac:(unfold in_grid; lia)). unfold cell in Hc. rewrite !Nat2Z.id, Er, Es in Hc. cbn in Hc.
  destruct (lookup_lt_is_Some_2 r k) as [a Ea]; [lia|]. destruct (lookup_lt_is_Some_2 s k) as [c Ec]; [lia|].
  rewrite Ea, Ec in *. by cbn in Hc; subst.
Qed.

Lemma blank_shape sz : shape sz (blank_grid sz).
Proof. split; [apply length_replicate|]. apply Forall_replicate, length_replicate. Qed.

(** ** The state *)

Record drawing (q : QrCode) : Prop := mk_drawing {
  d_version : 1 <= version q <= 40;
  d_size : size q = version q * 4 + 17;
  d_modules : shape (size q) (modules q);
  d_function : shape (size q) (isFunction q) }.

(** What stays the same while the code is drawn. *)
Definition same_code (q q' : QrCode) : Prop :=
  version q' = version q /\ size q' = size q /\ errorCorrectionLevel q' = errorCorrectionLevel q /\ mask q' = mask q.

#[export] Instance same_code_preorder : PreOrder same_code.
Proof.
  split; [by intros q|]. intros q1 q2 q3 (? & ? & ? & ?) (? & ? & ? & ?). unfold same_code. by split_and!; etransitivity.
Qed.

Lemma set_module_ok q x y b : drawing q -> in_grid (size q) x y -> exists q', set_module x y b q = (Ok tt, q')
  /\ drawing q' /\ same_code q q' /\ isFunction q' = isFunction q
  /\ forall x' y', in_grid (size q) x' y' -> cell (modules q') x' y' = if (x' =? x) && (y' =? y) then b else cell (modules q) x' y'.
Proof.
  intros [Hv Hs Hm Hf] Hp. destruct (grid_set_ok _ _ x y b Hm Hp) as (g & E & Hg & Hc). eexists. unfold set_module. rewrite E.
  split; [done|]. by split.
Qed.

Lemma setFunctionModule_ok q x y b : drawing q -> in_grid (size q) x y -> exists q', setFunctionModule x y b q = (Ok tt, q')
  /\ drawing q' /\ same_code q q'
  /\ (forall x' y', in_grid (size q) x' y' -> cell (modules q') x' y' = if (x' =? x) && (y' =? y) then b else cell (modules q) x' y')
  /\ (forall x' y', in_grid (size q) x' y' -> cell (isFunction q') x' y' = if (x' =? x) && (y' =? y) then true else cell (isFunction q) x' y').
Proof.
  intros Hd Hp. destruct (set_module_ok q x y b Hd Hp) as (q1 & E1 & [Hv Hs Hm Hf] & Hsame & Ef & Hc).
  destruct Hsame as (? & Hsz & ? & ?). rewrite <- Hsz in Hp.
  destruct (grid_set_ok _ _ x y true Hf Hp) as (g & E & Hg & Hcf). eexists. unfold setFunctionModule, mbind, M_bind.
  rewrite E1. unfold set_function. rewrite E. split; [done|]. split; [by split|]. split; [done|]. split; [done|].
  rewrite <- Hsz, <- Ef. exact Hcf.
Qed.

(** ** Sequences of assignments *)

Definition assign_all (l : list (Z * Z * bool)) : M QrCode unit := for_each l (fun '(x, y, b) => setFunctionModule x y b).

Definition positions (l : list (Z * Z * bool)) : list (Z * Z) := l.*1.

Lemma for_each_app {S A} (l l' : list A) (f : A -> M S unit) s : for_each (l ++ l') f s = (for_each l f ;; for_each l' f) s.
Proof.
  revert s. induction l as [|a l IH]; intros s; [done|]. cbn [app for_each]. unfold mbind, M_bind in *.
  destruct (f a s) as [[]  s']; [|done]. apply IH.
Qed.

Lemma for_each_map {S A B} (g : A -> B) (l : list A) (f : B -> M S unit) s : for_each (map g l) f s = for_each l (fun a => f (g a)) s.
Proof.
  revert s. induction l as [|a l IH]; intros s; [done|]. cbn [map for_each]. unfold mbind, M_bind in *. by destruct (f (g a) s) as [[] ?].
Qed.

(** The last value assigned to a module. *)
Fixpoint assigned (l : list (Z * Z * bool)) (x y : Z) : option bool :=
  match l with
  | [] => None
  | (x', y', b) :: l =>
      match assigned l x y with
      | Some b => Some b
      | None => if (x =? x') && (y =? y') then Some b else None
      end
  end.

Definition is_assigned (l : list (Z * Z * bool)) (x y : Z) : bool := match assigned l x y with Some _ => true | None => false end.

Lemma assign_ok l : forall q, drawing q -> Forall (fun '(x, y, _) => in_grid (size q) x y) l -> exists q', assign_all l q = (Ok tt, q')
  /\ drawing q' /\ same_code q q'
  /\ (forall x y, in_grid (size q) x y -> cell (modules q') x y = default (cell (modules q) x y) (assigned l x y))
  /\ (forall x y, in_grid (size q) x y -> cell (isFunction q') x y = is_assigned l x y || cell (isFunction q) x y).
Proof.
  induction l as [|[[x y] b] l IH]; intros q Hd Hl.
  { by exists q. }
  apply Forall_cons in Hl as [Hp Hl]. destruct (setFunctionModule_ok q x y b Hd Hp) as (q1 & E1 & Hd1 & Hsame & Hc & Hcf).
  assert (Hsz : size q1 = size q) by apply Hsame. rewrite <- Hsz in Hl.
  destruct (IH q1 Hd1 Hl) as (q' & E & Hd' & Hsame' & Hm & Hf). rewrite Hsz in *. exists q'.
  split; [unfold assign_all in *; cbn [for_each]; unfold mbind, M_bind; by rewrite E1|]. split; [done|].
  split; [by transitivity q1|]. unfold is_assigned in *. cbn [assigned]. split.
  - intros x' y' Hp'. rewrite Hm by done. destruct (assigned l x' y'); [done|]. cbn. rewrite Hc by done. by destruct (_ && _).
  - intros x' y' Hp'. rewrite Hf by done. destruct (assigned l x' y'); [done|]. cbn. rewrite Hcf by done. by destruct (_ && _).
Qed.

Lemma assigned_iff l x y : is_assigned l x y = true <-> (x, y) ∈ positions l.
Proof.
  unfold is_assigned, positions. induction l as [|[[x' y'] b] l IH]; cbn [assigned fmap list_fmap fst]; [by rewrite elem_of_nil|].
  rewrite elem_of_cons, <- IH. destruct (assigned l x y); [intuition|].
  destruct (Z.eqb_spec x x') as [->|], (Z.eqb_spec y y') as [->|]; cbn; naive_solver.
Qed.

(** ** The areas of the function patterns *)

(** The centers of the alignment patterns in the standard, by version. *)
Definition alignment_table : list (list Z) :=
  [[]; []; [6; 18]; [6; 22]; [6; 26]; [6; 30]; [6; 34]; [6; 22; 38]; [6; 24; 42]; [6; 26; 46]; [6; 28; 50]; [6; 30; 54];
   [6; 32; 58]; [6; 34; 62]; [6; 26; 46; 66]; [6; 26; 48; 70]; [6; 26; 50; 74]; [6; 30; 54; 78]; [6; 30; 56; 82];
   [6; 30; 58; 86]; [6; 34; 62; 90]; [6; 28; 50; 72; 94]; [6; 26; 50; 74; 98]; [6; 30; 54; 78; 102];
   [6; 28; 54; 80; 106]; [6; 32; 58; 84; 110]; [6; 30; 58; 86; 114]; [6; 34; 62; 90; 118]; [6; 26; 50; 74; 98; 122];
   [6; 30; 54; 78; 102; 126]; [6; 26; 52; 78; 104; 130]; [6; 30; 56; 82; 108; 134]; [6; 34; 60; 86; 112; 138];
   [6; 30; 58; 86; 114; 142]; [6; 34; 62; 90; 118; 146]; [6; 30; 54; 78; 102; 126; 150]; [6; 24; 50; 76; 102; 128; 154];
   [6; 28; 54; 80; 106; 132; 158]; [6; 32; 58; 84; 110; 136; 162]; [6; 26; 54; 82; 110; 138; 166]; [6; 30; 58; 86; 114; 142; 170]].

Definition alignment_centers (ver : Z) : list Z := alignment_table !!! Z.to_nat ver.

(** The alignment patterns around a coordinate, but not those in the finder corners. *)
Definition alignment_module (centers : list Z) (x y : Z) : bool :=
  let far := default 0 (last centers) in
  existsb (fun cx => if Z.abs (x - cx) <=? 2 then
    existsb (fun cy => if Z.abs (y - cy) <=? 2 then
        negb (((cx =? 6) && (cy =? 6)) || ((cx =? 6) && (cy =? far)) || ((cx =? far) && (cy =? 6)))
      else false) centers
    else false) centers.

(** Finder patterns with their separators and the format areas, timing patterns, version areas, and
    the alignment patterns. *)
Definition pattern_at (centers : list Z) (ver x y : Z) : bool :=
  let sz := ver * 4 + 17 in
  if (x =? 6) || (y =? 6) then true
  else if y <? 9 then
    if x <? 9 then true
    else if sz - 8 <=? x then true
    else if (7 <=? ver) && (sz - 11 <=? x) && (y <? 6) then true
    else alignment_module centers x y
  else if x <? 9 then
    if sz - 8 <=? y then true
    else if (7 <=? ver) && (sz - 11 <=? y) && (x <? 6) then true
    else alignment_module centers x y
  else alignment_module centers x y.

Definition function_module (ver : Z) : Z -> Z -> bool := pattern_at (alignment_centers ver) ver.

(** ** Drawing as assignments *)

(** [m] makes the assignments [l] on a code of this version and level. *)
Definition draws (ver : Z) (ecl : Ecc) (m : M QrCode unit) (l : list (Z * Z * bool)) : Prop :=
  forall q, version q = ver -> size q = ver * 4 + 17 -> errorCorrectionLevel q = ecl -> m q = assign_all l q.

Lemma set_same x y b q : same_code q (setFunctionModule x y b q).2.
Proof.
  unfold setFunctionModule, mbind, M_bind, set_module, set_function. destruct (grid_set (modules q) x y b); [|done].
  by destruct (grid_set (isFunction (put_modules _ q)) x y true).
Qed.

Lemma assign_same l : forall q, same_code q (assign_all l q).2.
Proof.
  induction l as [|[[x y] b] l IH]; intros q; [done|]. unfold assign_all in *. cbn [for_each]. unfold mbind, M_bind.
  pose proof (set_same x y b q) as Hs. destruct (setFunctionModule x y b q) as [[] q1]; [|done]. cbn in Hs. by transitivity q1.
Qed.

Section draws.
Context (ver : Z) (ecl : Ecc).

Lemma draws_ret : draws ver ecl (mret tt) [].
Proof. by intros q. Qed.

Lemma draws_set x y b : draws ver ecl (setFunctionModule x y b) [(x, y, b)].
Proof.
  intros q _ _ _. unfold assign_all. cbn [for_each]. unfold mbind, M_bind. by destruct (setFunctionModule x y b q) as [[[]|] ?].
Qed.

Lemma draws_seq m1 m2 l1 l2 : draws ver ecl m1 l1 -> draws ver ecl m2 l2 -> draws ver ecl (m1 ;; m2) (l1 ++ l2).
Proof.
  intros H1 H2 q Hv Hs He. unfold assign_all. rewrite for_each_app. unfold mbind, M_bind. fold (assign_all l1 q).
  rewrite H1 by done. pose proof (assign_same l1 q) as (Ev & Es & Ee & _). destruct (assign_all l1 q) as [[] q1]; [|done].
  cbn in *. apply H2; congruence.
Qed.

Lemma draws_if (c : bool) m1 m2 l1 l2 : draws ver ecl m1 l1 -> draws ver ecl m2 l2 ->
  draws ver ecl (if c then m1 else m2) (if c then l1 else l2).
Proof. by destruct c. Qed.

Lemma draws_for {A} (l : list A) (f : A -> M QrCode unit) (c : A -> list (Z * Z * bool)) :
  (forall a, draws ver ecl (f a) (c a)) -> draws ver ecl (for_each l f) (concat (map c l)).
Proof. intros H. induction l as [|a l IH]; [apply draws_ret|]. cbn [for_each map concat]. by apply draws_seq. Qed.

Lemma draws_reads {A} (f : QrCode -> A) (v : A) (m : A -> M QrCode unit) l :
  (forall q, version q = ver -> size q = ver * 4 + 17 -> errorCorrectionLevel q = ecl -> f q = v) ->
  draws ver ecl (m v) l -> draws ver ecl (reads f ≫= m) l.
Proof. intros Hf Hm q Hv Hs He. unfold mbind, M_bind, reads. rewrite (Hf q) by done. by apply Hm. Qed.
End draws.

Definition finder_cells (sz x y : Z) : list (Z * Z * bool) :=
  concat (map (fun dy => concat (map (fun dx =>
    let dist := Z.max (Z.abs dx) (Z.abs dy) in
    if (0 <=? x + dx) && (x + dx <? sz) && (0 <=? y + dy) && (y + dy <? sz)
    then [(x + dx, y + dy, negb (dist =? 2) && negb (dist =? 4))] else []) (range (-4) 5))) (range (-4) 5)).

Definition alignment_cells (x y : Z) : list (Z * Z * bool) :=
  concat (map (fun dy => concat (map (fun dx =>
    [(x + dx, y + dy, negb (Z.max (Z.abs dx) (Z.abs dy) =? 1))]) (range (-2) 3))) (range (-2) 3)).

Definition format_cells (sz bits : Z) : list (Z * Z * bool) :=
  map (fun '(x, y, i) => (x, y, getBit bits i))
    [(8, 0, 0); (8, 1, 1); (8, 2, 2); (8, 3, 3); (8, 4, 4); (8, 5, 5); (8, 7, 6); (8, 8, 7); (7, 8, 8);
     (5, 8, 9); (4, 8, 10); (3, 8, 11); (2, 8, 12); (1, 8, 13); (0, 8, 14);
     (sz - 1 - 0, 8, 0); (sz - 1 - 1, 8, 1); (sz - 1 - 2, 8, 2); (sz - 1 - 3, 8, 3); (sz - 1 - 4, 8, 4); (sz - 1 - 5, 8, 5);
     (sz - 1 - 6, 8, 6); (sz - 1 - 7, 8, 7);
     (8, sz - 15 + 8, 8); (8, sz - 15 + 9, 9); (8, sz - 15 + 10, 10); (8, sz - 15 + 11, 11); (8, sz - 15 + 12, 12);
     (8, sz - 15 + 13, 13); (8, sz - 15 + 14, 14)]
  ++ [(8, sz - 8, true)].

Definition version_cells (ver sz : Z) : list (Z * Z * bool) :=
  if ver <? 7 then []
  else concat (map (fun i => let bit := getBit (version_bits ver) i in
         [(sz - 11 + i mod 3, i / 3, bit)] ++ [(i / 3, sz - 11 + i mod 3, bit)]) (range 0 18)).

Definition fixed_cells (ver : Z) : list (Z * Z * bool) :=
  let sz := ver * 4 + 17 in
  let centers := getAlignmentPatternPositions ver sz in
  let n := Z.of_nat (length centers) in
  concat (map (fun i => [(6, i, i mod 2 =? 0)] ++ [(i, 6, i mod 2 =? 0)]) (range 0 sz))
  ++ finder_cells sz 3 3 ++ finder_cells sz (sz - 4) 3 ++ finder_cells sz 3 (sz - 4)
  ++ concat (map (fun i => concat (map (fun j =>
       if negb (((i =? 0) && (j =? 0)) || ((i =? 0) && (j =? n - 1)) || ((i =? n - 1) && (j =? 0)))
       then alignment_cells (centers !!! Z.to_nat i) (centers !!! Z.to_nat j) else []) (range 0 n))) (range 0 n)).

Definition pattern_cells (ver : Z) (ecl : Ecc) : list (Z * Z * bool) :=
  fixed_cells ver ++ format_cells (ver * 4 + 17) (format_bits ecl 0) ++ version_cells ver (ver * 4 + 17).

Lemma drawFinderPattern_draws ver ecl x y : draws ver ecl (drawFinderPattern x y) (finder_cells (ver * 4 + 17) x y).
Proof.
  apply draws_reads with (ver * 4 + 17); [done|]. apply draws_for. intros dy. apply draws_for. intros dx.
  apply draws_if; [apply draws_set|apply draws_ret].
Qed.

Lemma drawAlignmentPattern_draws ver ecl x y : draws ver ecl (drawAlignmentPattern x y) (alignment_cells x y).
Proof. apply draws_for. intros dy. apply draws_for. intros dx. apply draws_set. Qed.

Lemma drawFormatBits_draws ver ecl msk : draws ver ecl (drawFormatBits msk) (format_cells (ver * 4 + 17) (format_bits ecl msk)).
Proof.
  apply draws_reads with ecl; [done|]. apply draws_reads with (ver * 4 + 17); [done|]. cbv zeta.
  set (sz := ver * 4 + 17). set (bits := format_bits ecl msk).
  assert (E : format_cells sz bits =
    concat (map (fun i => [(8, i, getBit bits i)]) (range 0 6)) ++ [(8, 7, getBit bits 6)] ++ [(8, 8, getBit bits 7)]
    ++ [(7, 8, getBit bits 8)] ++ concat (map (fun i => [(14 - i, 8, getBit bits i)]) (range 9 15))
    ++ concat (map (fun i => [(sz - 1 - i, 8, getBit bits i)]) (range 0 8))
    ++ concat (map (fun i => [(8, sz - 15 + i, getBit bits i)]) (range 8 15)) ++ [(8, sz - 8, true)]) by reflexivity.
  rewrite E. repeat first [apply draws_set | apply draws_for; intros | apply draws_seq].
Qed.

Lemma drawVersion_draws ver ecl : draws ver ecl drawVersion (version_cells ver (ver * 4 + 17)).
Proof.
  apply draws_reads with ver; [done|]. apply draws_reads with (ver * 4 + 17); [done|]. apply draws_if; [apply draws_ret|].
  apply draws_for. intros i. apply draws_seq; apply draws_set.
Qed.

Lemma drawFunctionPatterns_draws ver ecl : draws ver ecl drawFunctionPatterns (pattern_cells ver ecl).
Proof.
  apply draws_reads with (ver * 4 + 17); [done|]. apply draws_reads with ver; [done|]. unfold pattern_cells, fixed_cells. cbv zeta.
  rewrite <- !app_assoc.
  apply draws_seq; [apply draws_for; intros i; apply draws_seq; apply draws_set|].
  do 3 (apply draws_seq; [apply drawFinderPattern_draws|]).
  apply draws_seq; [|apply draws_seq; [apply drawFormatBits_draws|apply drawVersion_draws]].
  apply draws_for. intros i. apply draws_for. intros j. apply draws_if; [apply drawAlignmentPattern_draws|apply draws_ret].
Qed.

(** ** The drawn areas *)

Definition pattern_positions (ver : Z) : list (Z * Z) := positions (pattern_cells ver LOW).

Lemma format_positions sz bits bits' : positions (format_cells sz bits) = positions (format_cells sz bits').
Proof. reflexivity. Qed.

Lemma pattern_positions_eq ver ecl : positions (pattern_cells ver ecl) = pattern_positions ver.
Proof.
  unfold pattern_positions, pattern_cells, positions. by rewrite !fmap_app.
Qed.

Definition on_grid (sz : Z) (p : Z * Z) : bool := (0 <=? p.1) && (p.1 <? sz) && (0 <=? p.2) && (p.2 <? sz).

(** The format information: the modules next to the finder patterns, but for the timing patterns. *)
Definition format_module (ver x y : Z) : bool :=
  let sz := ver * 4 + 17 in
  negb (x =? 6) && negb (y =? 6) && (((x =? 8) && ((y <? 9) || (sz - 8 <=? y))) || ((y =? 8) && ((x <? 9) || (sz - 8 <=? x)))).

(** The colors of the function patterns in the standard: finder patterns with their separators, timing
    patterns, version information and alignment patterns. *)
Definition pattern_color (centers : list Z) (version_info ver x y : Z) : bool :=
  let sz := ver * 4 + 17 in
  let dist cx cy := Z.max (Z.abs (x - cx)) (Z.abs (y - cy)) in
  let finder d := negb (d =? 2) && negb (d =? 4) in
  if dist 3 3 <=? 4 then finder (dist 3 3)
  else if dist (sz - 4) 3 <=? 4 then finder (dist (sz - 4) 3)
  else if dist 3 (sz - 4) <=? 4 then finder (dist 3 (sz - 4))
  else if x =? 6 then y mod 2 =? 0
  else if y =? 6 then x mod 2 =? 0
  else if (7 <=? ver) && (sz - 11 <=? x) && (y <? 6) then Z.testbit version_info (y * 3 + (x - (sz - 11)))
  else if (7 <=? ver) && (sz - 11 <=? y) && (x <? 6) then Z.testbit version_info (x * 3 + (y - (sz - 11)))
  else existsb (fun cx => if Z.abs (x - cx) <=? 2 then
         existsb (fun cy => (Z.abs (y - cy) <=? 2) && negb (dist cx cy =? 1)) centers else false) centers.

Definition function_color (ver : Z) : Z -> Z -> bool := pattern_color (alignment_centers ver) (version_bits ver) ver.

Definition row_check (cells : list (Z * Z * bool)) (centers : list Z) (version_info ver y : Z) : bool :=
  let row := List.filter (fun '(_, y', _) => y' =? y) cells in
  forallb (fun x => match assigned row x y with
                    | None => negb (pattern_at centers ver x y)
                    | Some b => pattern_at centers ver x y && (format_module ver x y || Bool.eqb b (pattern_color centers version_info ver x y))
                    end) (range 0 (ver * 4 + 17)).

Definition free_modules (ver : Z) : list (Z * Z) :=
  let centers := alignment_centers ver in
  List.filter (fun '(x, y) => negb (pattern_at centers ver x y)) (zigzag (ver * 4 + 17)).

Lemma elem_of_count n : forall a z, z ∈ count_up a n <-> a <= z < a + Z.of_nat n.
Proof.
  induction n as [|n IH]; intros a z; cbn [count_up]; [rewrite elem_of_nil; lia|]. rewrite elem_of_cons, IH. lia.
Qed.

Lemma elem_of_range a b z : z ∈ range a b <-> a <= z < b.
Proof. unfold range. rewrite elem_of_count. lia. Qed.

Lemma forallb_range (P : Z -> bool) a b z : forallb P (range a b) = true -> a <= z < b -> P z = true.
Proof. intros H Hz. apply (proj1 (forallb_forall _ _) H). by apply list_elem_of_In, elem_of_range. Qed.

(** The assignments of the function patterns, by version: all on the grid, and exactly in the areas. *)
Lemma positions_on_grid ver : 1 <= ver < 41 -> forallb (on_grid (ver * 4 + 17)) (pattern_positions ver) = true.
Proof.
  apply (forallb_range (fun ver => forallb (on_grid (ver * 4 + 17)) (pattern_positions ver))).
  vm_cast_no_check (eq_refl true).
Qed.

Lemma positions_rows ver : 1 <= ver < 41 ->
  forallb (row_check (pattern_cells ver LOW) (alignment_centers ver) (version_bits ver) ver) (range 0 (ver * 4 + 17)) = true.
Proof.
  apply (forallb_range (fun ver => forallb (row_check (pattern_cells ver LOW) (alignment_centers ver) (version_bits ver) ver) (range 0 (ver * 4 + 17)))).
  vm_cast_no_check (eq_refl true).
Qed.

Lemma capacity_check ver : 1 <= ver < 41 ->
  match getNumRawDataModules ver with Ok raw => Z.of_nat (length (free_modules ver)) =? raw | _ => false end = true.
Proof.
  apply (forallb_range (fun ver => match getNumRawDataModules ver with Ok raw => Z.of_nat (length (free_modules ver)) =? raw | _ => false end)).
  vm_cast_no_check (eq_refl true).
Qed.

Lemma on_grid_spec sz x y : on_grid sz (x, y) = true <-> in_grid sz x y.
Proof. unfold on_grid, in_grid. cbn. lia. Qed.

Lemma assigned_row l x y : assigned (List.filter (fun '(_, y', _) => y' =? y) l) x y = assigned l x y.
Proof.
  induction l as [|[[x' y'] b] l IH]; [done|]. cbn [List.filter assigned]. destruct (Z.eqb_spec y' y) as [->|Hne]; cbn [assigned]; rewrite IH; [done|].
  destruct (Z.eqb_spec y y'); [congruence|]. rewrite andb_false_r. by destruct (assigned l x y).
Qed.

Lemma pattern_cells_spec ver x y : 1 <= ver < 41 -> in_grid (ver * 4 + 17) x y ->
  match assigned (pattern_cells ver LOW) x y with
  | None => function_module ver x y = false
  | Some b => function_module ver x y = true /\ (format_module ver x y = true \/ b = function_color ver x y)
  end.
Proof.
  intros Hv [Hx Hy]. pose proof (forallb_range _ _ _ y (positions_rows ver Hv) Hy) as H. pose proof (forallb_range _ _ _ x H Hx) as E.
  cbv beta in E. rewrite assigned_row in E. unfold function_module, function_color. destruct (assigned (pattern_cells ver LOW) x y); [|by apply negb_true_iff].
  apply andb_true_iff in E as [-> E]. split; [done|]. apply orb_true_iff in E as [?|?%eqb_prop]; [by left|by right].
Qed.

Lemma pattern_positions_spec ver x y : 1 <= ver < 41 -> in_grid (ver * 4 + 17) x y ->
  ((x, y) ∈ pattern_positions ver <-> function_module ver x y = true).
Proof.
  intros Hv Hp. unfold pattern_positions. rewrite <- assigned_iff. unfold is_assigned. pose proof (pattern_cells_spec ver x y Hv Hp) as H.
  destruct (assigned _ x y); [naive_solver|]. by rewrite H.
Qed.

Lemma pattern_cells_in ver ecl : 1 <= ver < 41 -> Forall (fun '(x, y, _) => in_grid (ver * 4 + 17) x y) (pattern_cells ver ecl).
Proof.
  intros Hv. apply Forall_forall. intros [[x y] b] Hin. apply on_grid_spec.
  apply (proj1 (forallb_forall _ _) (positions_on_grid ver Hv)). apply list_elem_of_In.
  rewrite <- (pattern_positions_eq ver ecl). unfold positions. by apply (list_elem_of_fmap_2 fst _ (x, y, b)).
Qed.

(** The function patterns mark exactly the function modules. *)
Lemma drawFunctionPatterns_ok q : drawing q -> isFunction q = blank_grid (size q) -> exists q', drawFunctionPatterns q = (Ok tt, q')
  /\ drawing q' /\ same_code q q'
  /\ (forall x y, in_grid (size q) x y -> cell (modules q') x y = default (cell (modules q) x y) (assigned (pattern_cells (version q) (errorCorrectionLevel q)) x y))
  /\ (forall x y, in_grid (size q) x y -> cell (isFunction q') x y = function_module (version q) x y).
Proof.
  intros Hd Hb. set (ver := version q). set (ecl := errorCorrectionLevel q). pose proof (d_version q Hd) as Hv. fold ver in Hv.
  assert (Hs : size q = ver * 4 + 17) by apply (d_size q Hd). pose proof (pattern_cells_in ver ecl ltac:(lia)) as Hin. rewrite <- Hs in Hin.
  destruct (assign_ok _ q Hd Hin) as (q' & E & Hd' & Hsame & Hm & Hf). exists q'.
  rewrite (drawFunctionPatterns_draws ver ecl) by done. do 4 (split; [done|]). intros x y Hp. rewrite Hf, Hb by done.
  assert (Hz : cell (blank_grid (size q)) x y = false).
  { destruct (shape_lookup _ _ _ _ (blank_shape (size q)) Hp) as (row & b & Er & Eb & ->).
    unfold blank_grid in Er. apply lookup_replicate in Er as [-> _]. by apply lookup_replicate in Eb as [-> _]. }
  rewrite Hz, orb_false_r. apply eq_iff_eq_true. rewrite assigned_iff, (pattern_positions_eq ver ecl). apply pattern_positions_spec; [lia|].
  by rewrite <- Hs.
Qed.

Lemma assigned_app l l' x y : assigned (l ++ l') x y = match assigned l' x y with Some b => Some b | None => assigned l x y end.
Proof.
  induction l as [|[[x' y'] b] l IH]; cbn [app assigned]; [by destruct (assigned l' x y)|]. rewrite IH. by destruct (assigned l' x y).
Qed.

Lemma format_cells_area ver bits x y : 1 <= ver -> is_assigned (format_cells (ver * 4 + 17) bits) x y = true -> format_module ver x y = true.
Proof.
  intros Hv H%assigned_iff. unfold positions, format_cells in H. cbn [map app fmap list_fmap fst] in H. unfold format_module.
  repeat (apply elem_of_cons in H as [[= -> ->]|H]; [lia|]). by apply elem_of_nil in H.
Qed.

(** Outside the format information the patterns do not depend on the level. *)
Lemma pattern_cells_color ver ecl x y : 1 <= ver < 41 -> in_grid (ver * 4 + 17) x y -> function_module ver x y = true -> format_module ver x y = false ->
  assigned (pattern_cells ver ecl) x y = Some (function_color ver x y).
Proof.
  intros Hv Hp Hf Hn. pose proof (pattern_cells_spec ver x y Hv Hp) as H. unfold pattern_cells in *. rewrite !assigned_app in *.
  assert (forall bits, assigned (format_cells (ver * 4 + 17) bits) x y = None) as E.
  { intros bits. pose proof (format_cells_area ver bits x y ltac:(lia)) as Ha. unfold is_assigned in Ha.
    destruct (assigned (format_cells _ bits) x y); [|done]. by rewrite Ha in Hn. }
  rewrite E in *. destruct (assigned (version_cells _ _) x y); [|destruct (assigned (fixed_cells ver) x y)]; [..|congruence];
    destruct H as [_ [?| ->]]; congruence.
Qed.
