(* ===== verification/QrPlace.v ===== *)
(** * Placing the codewords of a QR code and its mask

    [drawCodewords] puts the bits of the codewords, in order, into the modules outside the function
    patterns; masks change no function module and are their own inverses; the chosen mask is one of
    the eight of the standard. *)

From S2P Require Import Prelude QrSegment QrCode QrDraw.

Local Open Scope list_scope.

(** ** Lists of lists *)

Lemma concat_map_bind {A B} (f : A -> list B) l : concat (map f l) = l ≫= f.
Proof. induction l as [|a l IH]; [done|]. cbn. by rewrite IH. Qed.

Lemma NoDup_concat_map {A B} (f : A -> list B) l : NoDup l -> (forall a, a ∈ l -> NoDup (f a)) ->
  (forall a b x, a ∈ l -> b ∈ l -> x ∈ f a -> x ∈ f b -> a = b) -> NoDup (concat (map f l)).
Proof. intros Hl Hf Hd. rewrite concat_map_bind. by apply NoDup_bind. Qed.

Lemma elem_of_concat_map {A B} (f : A -> list B) l x : x ∈ concat (map f l) <-> exists a, a ∈ l /\ x ∈ f a.
Proof. rewrite concat_map_bind, list_elem_of_bind. naive_solver. Qed.

Lemma lookup_map {A B} (f : A -> B) l i : map f l !! i = f <$> l !! i.
Proof. apply list_lookup_fmap. Qed.

Lemma concat_lookup {A} (rows : list (list A)) (n i j : nat) : Forall (fun row => length row = n) rows -> (j < n)%nat ->
  concat rows !! (i * n + j)%nat = rows !! i ≫= fun row => row !! j.
Proof.
  intros Hrows Hj. revert i. induction Hrows as [|row rows Hr _ IH]; intros i; [done|]. cbn [concat].
  destruct i as [|i]; cbn [lookup list_lookup Nat.mul Nat.add mbind option_bind]; [by rewrite lookup_app_l by lia|].
  rewrite lookup_app_r by lia. rewrite <- IH. f_equal. lia.
Qed.

Lemma concat_length {A} (rows : list (list A)) (n : nat) : Forall (fun row => length row = n) rows -> length (concat rows) = (length rows * n)%nat.
Proof. induction 1 as [|row rows Hr _ IH]; [done|]. cbn [concat length]. rewrite length_app. lia. Qed.

Lemma NoDup_count n : forall a, NoDup (count_up a n).
Proof. induction n as [|n IH]; intros a; cbn [count_up]; [constructor|]. apply NoDup_cons. split; [|done]. rewrite elem_of_count. lia. Qed.

Lemma NoDup_range a b : NoDup (range a b).
Proof. apply NoDup_count. Qed.

(** ** The order of the modules *)

Lemma column_le fuel : forall r c, c ∈ column_pairs fuel r -> 1 <= c <= r.
Proof.
  induction fuel as [|fuel IH]; intros r c; cbn [column_pairs]; [by intros ?%elem_of_nil|].
  destruct (Z.ltb_spec r 1); [by intros ?%elem_of_nil|]. intros [->|Hc%IH]%elem_of_cons; destruct (Z.eqb_spec r 6); lia.
Qed.

Lemma columns_apart fuel : forall r a b, a ∈ column_pairs fuel r -> b ∈ column_pairs fuel r -> a = b \/ 2 <= Z.abs (a - b).
Proof.
  induction fuel as [|fuel IH]; intros r a b; cbn [column_pairs]; [by intros ?%elem_of_nil|].
  destruct (Z.ltb_spec r 1); [by intros ?%elem_of_nil|].
  intros [->|Ha]%elem_of_cons [->|Hb]%elem_of_cons; [by left|apply column_le in Hb; right; lia|apply column_le in Ha; right; lia|eauto].
Qed.

Lemma columns_NoDup fuel : forall r, NoDup (column_pairs fuel r).
Proof.
  induction fuel as [|fuel IH]; intros r; cbn [column_pairs]; [constructor|]. destruct (r <? 1); [constructor|].
  apply NoDup_cons. split; [|done]. intros ?%column_le. lia.
Qed.

Lemma zigzag_in sz x y : (x, y) ∈ zigzag sz -> in_grid sz x y.
Proof.
  intros (r & Hr%column_le & (v & Hv%elem_of_range & (j & [= -> ->] & Hj%elem_of_range)%list_elem_of_fmap)%elem_of_concat_map)%elem_of_concat_map.
  unfold in_grid. destruct (_ =? 0); lia.
Qed.

Lemma zigzag_NoDup sz : NoDup (zigzag sz).
Proof.
  apply NoDup_concat_map; [apply columns_NoDup| |].
  - intros r Hr. apply NoDup_concat_map; [apply NoDup_range| |].
    + intros v Hv. apply NoDup_fmap_2_strong; [|apply NoDup_range]. intros j k _ _ [= E]. lia.
    + intros v w [x y] _ _ (j & [= -> ->] & _)%list_elem_of_fmap (k & [= _ E] & _)%list_elem_of_fmap. destruct (_ =? 0); lia.
  - intros a b [x y] Ha Hb
      (v & _ & (j & [= Ex _] & Hj%elem_of_range)%list_elem_of_fmap)%elem_of_concat_map
      (w & _ & (k & [= Ex' _] & Hk%elem_of_range)%list_elem_of_fmap)%elem_of_concat_map.
    destruct (columns_apart _ _ a b Ha Hb); lia.
Qed.

(** ** The codewords *)

Definition bits_of (dat : list Z) : list bool := concat (map (bits_down 8) dat).

Lemma bits_down_length n v : length (bits_down n v) = n.
Proof. induction n as [|n IH]; [done|]. cbn [bits_down length]. by rewrite IH. Qed.

Lemma bits_down_lookup n v j : (j < n)%nat -> bits_down n v !! j = Some (getBit v (Z.of_nat (n - 1 - j))).
Proof.
  revert j. induction n as [|n IH]; intros j Hj; [lia|]. cbn [bits_down]. destruct j as [|j]; cbn [lookup list_lookup].
  - unfold getBit. by replace (S n - 1 - 0)%nat with n by lia.
  - rewrite IH by lia. do 3 f_equal. lia.
Qed.

Lemma bits_of_length dat : length (bits_of dat) = (8 * length dat)%nat.
Proof.
  unfold bits_of. rewrite (concat_length _ 8), length_map; [lia|]. apply Forall_fmap, Forall_true. intros. apply bits_down_length.
Qed.

Lemma bits_of_lookup dat i b : 0 <= i -> dat !! Z.to_nat (Z.shiftr i 3) = Some b ->
  bits_of dat !! Z.to_nat i = Some (getBit b (7 - Z.land i 7)).
Proof.
  intros Hi Hb. replace (Z.land i 7) with (i mod 8) by (symmetry; apply (Z.land_ones i 3); lia). rewrite Z.shiftr_div_pow2 in Hb by lia.
  change (2 ^ 3) with 8 in Hb. pose proof (Z.mod_pos_bound i 8 ltac:(lia)). pose proof (Z.div_pos i 8 Hi ltac:(lia)).
  replace (Z.to_nat i) with (Z.to_nat (i / 8) * 8 + Z.to_nat (i mod 8))%nat by (pose proof (Z.div_mod i 8 ltac:(lia)); lia).
  unfold bits_of. rewrite concat_lookup; [|apply Forall_fmap, Forall_true; intros; apply bits_down_length|lia].
  rewrite list_lookup_fmap, Hb. cbn [fmap option_fmap option_map mbind option_bind]. rewrite bits_down_lookup by lia. do 2 f_equal. lia.
Qed.

(** The modules of a list outside the function patterns. *)
Definition free_of (f : grid) (ps : list (Z * Z)) : list (Z * Z) := List.filter (fun '(x, y) => negb (cell f x y)) ps.

Definition read_cells (g : grid) (ps : list (Z * Z)) : list bool := map (fun '(x, y) => cell g x y) ps.

Lemma free_of_in f ps p : p ∈ free_of f ps -> p ∈ ps.
Proof. rewrite !list_elem_of_In. apply filter_In. Qed.

Lemma read_cells_ext g h ps : (forall x y, (x, y) ∈ ps -> cell g x y = cell h x y) -> read_cells g ps = read_cells h ps.
Proof. intros H. apply map_ext_in. intros [x y] Hp%list_elem_of_In. by apply H. Qed.

(** Cells that keep their value, and the rest of the code. *)
Definition keeps_cells (P : Z -> Z -> Prop) (q q' : QrCode) : Prop :=
  forall x y, in_grid (size q) x y -> P x y -> cell (modules q') x y = cell (modules q) x y.

Lemma draw_bits_ok dat ps : forall i q, drawing q -> Forall (fun p => in_grid (size q) p.1 p.2) ps -> NoDup ps ->
  0 <= i <= Z.of_nat (length dat) * 8 -> Z.of_nat (length dat) * 8 <= i + Z.of_nat (length (free_of (isFunction q) ps)) ->
  exists q', draw_bits ps dat i q = (Ok (Z.of_nat (length dat) * 8), q') /\ drawing q' /\ same_code q q' /\ isFunction q' = isFunction q
    /\ keeps_cells (fun x y => cell (isFunction q) x y = true \/ (x, y) ∉ ps) q q'
    /\ take (Z.to_nat (Z.of_nat (length dat) * 8 - i)) (read_cells (modules q') (free_of (isFunction q) ps)) = drop (Z.to_nat i) (bits_of dat).
Proof.
  induction ps as [|[x y] ps IH]; intros i q Hd Hin Hnd Hi Hroom.
  { cbn [free_of List.filter length] in Hroom. exists q. replace i with (Z.of_nat (length dat) * 8) by lia. split; [done|]. do 3 (split; [done|]).
    split; [done|]. cbn. rewrite take_nil, drop_ge; [done|]. rewrite bits_of_length. lia. }
  apply Forall_cons in Hin as [Hp Hin]. apply NoDup_cons in Hnd as [Hn Hnd]. cbn [fst snd] in Hp.
  cbn [draw_bits]. unfold mbind, M_bind. rewrite (grid_at_ok (size q)) by (done || apply Hd).
  unfold free_of in *. cbn [List.filter] in *. destruct (cell (isFunction q) x y) eqn:Ef; cbn [negb andb] in *.
  { destruct (IH i q Hd Hin Hnd Hi Hroom) as (q' & E & Hd' & Hs & Hf & Hk & Hr). exists q'. do 4 (split; [done|]). split; [|done].
    intros x' y' Hp' [?|Hc]; apply Hk; auto. right. by apply not_elem_of_cons in Hc as [_ ?]. }
  destruct (Z.ltb_spec i (Z.of_nat (length dat) * 8)) as [Hlt|Hge].
  2: { assert (i = Z.of_nat (length dat) * 8) as -> by lia. cbn [length] in Hroom.
    destruct (IH _ q Hd Hin Hnd Hi ltac:(lia)) as (q' & E & Hd' & Hs & Hf & Hk & Hr). exists q'. do 4 (split; [done|]). split.
    - intros x' y' Hp' [?|Hc]; apply Hk; auto. right. by apply not_elem_of_cons in Hc as [_ ?].
    - rewrite Z.sub_diag in *. done. }
  assert (Hsh : Z.shiftr i 3 = i / 8) by (rewrite Z.shiftr_div_pow2; [done|lia]).
  destruct (lookup_lt_is_Some_2 dat (Z.to_nat (Z.shiftr i 3))) as [b Eb].
  { rewrite Hsh. assert (i / 8 < Z.of_nat (length dat)) by (apply Z.div_lt_upper_bound; lia). lia. }
  rewrite Eb. destruct (set_module_ok q x y (getBit b (7 - Z.land i 7)) Hd Hp) as (q1 & E1 & Hd1 & Hs1 & Hf1 & Hc1). rewrite E1.
  assert (Hsz : size q1 = size q) by apply Hs1. cbn [length] in Hroom.
  destruct (IH (i + 1) q1 Hd1) as (q' & E & Hd' & Hs & Hf & Hk & Hr); [by rewrite Hsz|done|lia|rewrite Hf1; lia|].
  exists q'. split; [done|]. split; [done|]. split; [by transitivity q1|]. split; [by rewrite Hf|]. rewrite Hf1 in Hk, Hr. split.
  - intros x' y' Hp' Hc. rewrite Hk; [|by rewrite Hsz|].
    + rewrite Hc1 by done. destruct ((x' =? x) && (y' =? y)) eqn:Exy; [|done]. apply andb_true_iff in Exy as [->%Z.eqb_eq ->%Z.eqb_eq].
      destruct Hc as [Hc|Hc]; [congruence|]. by apply not_elem_of_cons in Hc as [? _].
    + destruct Hc as [Hc|Hc]; [by left|right]. by apply not_elem_of_cons in Hc as [_ ?].
  - rewrite (drop_S _ _ _ (bits_of_lookup dat i b ltac:(lia) Eb)).
    replace (Z.to_nat (Z.of_nat (length dat) * 8 - i)) with (S (Z.to_nat (Z.of_nat (length dat) * 8 - (i + 1)))) by lia.
    replace (S (Z.to_nat i)) with (Z.to_nat (i + 1)) by lia. rewrite <- Hr. cbn [read_cells map take]. f_equal.
    rewrite Hk; [|by rewrite Hsz|by right]. rewrite Hc1 by done. by rewrite !Z.eqb_refl.
Qed.

(** The function modules are marked. *)
Definition marked (q : QrCode) : Prop :=
  forall x y, in_grid (size q) x y -> cell (isFunction q) x y = function_module (version q) x y.

Lemma free_of_marked q : drawing q -> marked q -> free_of (isFunction q) (zigzag (size q)) = free_modules (version q).
Proof.
  intros Hd Hm. unfold free_of, free_modules. rewrite <- (d_size q Hd). apply List.filter_ext_in. intros [x y] Hp%list_elem_of_In%zigzag_in.
  by rewrite Hm.
Qed.

Lemma capacity ver raw : 1 <= ver < 41 -> getNumRawDataModules ver = Ok raw -> Z.of_nat (length (free_modules ver)) = raw.
Proof. intros Hv Hr. pose proof (capacity_check ver Hv) as H. rewrite Hr in H. by apply Z.eqb_eq. Qed.

Lemma drawCodewords_ok q dat raw : drawing q -> marked q -> getNumRawDataModules (version q) = Ok raw -> Z.of_nat (length dat) = raw / 8 ->
  exists q', drawCodewords dat q = (Ok tt, q') /\ drawing q' /\ same_code q q' /\ isFunction q' = isFunction q
    /\ keeps_cells (fun x y => function_module (version q) x y = true) q q'
    /\ take (8 * length dat) (read_cells (modules q') (free_modules (version q))) = bits_of dat.
Proof.
  intros Hd Hm Hraw Hlen. pose proof (d_version q Hd) as Hv. pose proof (capacity (version q) raw ltac:(lia) Hraw) as Hcap.
  rewrite <- (free_of_marked q Hd Hm) in *.
  destruct (draw_bits_ok dat (zigzag (size q)) 0 q Hd) as (q' & E & Hd' & Hs & Hf & Hk & Hr).
  - apply Forall_forall. intros [x y] Hp. by apply zigzag_in.
  - apply zigzag_NoDup.
  - lia.
  - pose proof (Z.mul_div_le raw 8 ltac:(lia)). lia.
  - exists q'. unfold drawCodewords, mbind, M_bind, reads, liftR. rewrite Hraw, Hlen, Z.eqb_refl. cbn [negb]. rewrite E.
    do 4 (split; [done|]). split.
    + intros x y Hp Hfm. apply Hk; [done|]. left. by rewrite Hm.
    + change (bits_of dat) with (drop (Z.to_nat 0) (bits_of dat)). rewrite <- Hr. f_equal. lia.
Qed.

(** ** Masks *)

Lemma for_each_concat {S A B} (g : A -> list B) (l : list A) (f : B -> M S unit) s :
  for_each (concat (map g l)) f s = for_each l (fun a => for_each (g a) f) s.
Proof.
  revert s. induction l as [|a l IH]; intros s; [done|]. cbn [map concat for_each]. rewrite for_each_app. unfold mbind, M_bind.
  destruct (for_each (g a) f s) as [[] s']; [apply IH|done].
Qed.

Lemma for_each_ext {S A} (l : list A) (f g : A -> M S unit) s : (forall a s, f a s = g a s) -> for_each l f s = for_each l g s.
Proof.
  intros H. revert s. induction l as [|a l IH]; intros s; [done|]. cbn [for_each]. unfold mbind, M_bind. rewrite H.
  by destruct (g a s) as [[] ?].
Qed.

(** The modules row by row. *)
Definition raster (sz : Z) : list (Z * Z) := concat (map (fun y => map (fun x => (x, y)) (range 0 sz)) (range 0 sz)).

Lemma raster_NoDup sz : NoDup (raster sz).
Proof.
  apply NoDup_concat_map; [apply NoDup_range| |].
  - intros y _. apply NoDup_fmap_2_strong; [|apply NoDup_range]. by intros ? ? _ _ [= ->].
  - by intros a b [x y] _ _ (? & [= -> ->] & _)%list_elem_of_fmap (? & [= _ ->] & _)%list_elem_of_fmap.
Qed.

Lemma elem_of_raster sz x y : (x, y) ∈ raster sz <-> in_grid sz x y.
Proof.
  unfold raster, in_grid. rewrite elem_of_concat_map. setoid_rewrite list_elem_of_fmap. setoid_rewrite elem_of_range. naive_solver.
Qed.

(** The body of [applyMask]. *)
Definition mask_module (msk x y : Z) : M QrCode unit :=
  m ← module x y;
  f ← (fun q => (grid_at (isFunction q) x y, q));
  set_module x y (xorb m (invert msk x y && negb f)).

Lemma applyMask_raster msk q : 0 <= msk <= 7 -> applyMask msk q = for_each (raster (size q)) (fun '(x, y) => mask_module msk x y) q.
Proof.
  intros Hm. unfold applyMask. replace ((msk <? 0) || (7 <? msk)) with false by lia. unfold raster. rewrite for_each_concat.
  unfold mbind at 1, M_bind at 1, reads. apply for_each_ext. intros y s. by rewrite for_each_map.
Qed.

Lemma mask_modules_ok msk ps : forall q, drawing q -> Forall (fun p => in_grid (size q) p.1 p.2) ps -> NoDup ps ->
  exists q', for_each ps (fun '(x, y) => mask_module msk x y) q = (Ok tt, q') /\ drawing q' /\ same_code q q' /\ isFunction q' = isFunction q
    /\ (forall x y, in_grid (size q) x y -> (x, y) ∉ ps -> cell (modules q') x y = cell (modules q) x y)
    /\ (forall x y, (x, y) ∈ ps -> cell (modules q') x y = xorb (cell (modules q) x y) (invert msk x y && negb (cell (isFunction q) x y))).
Proof.
  induction ps as [|[x y] ps IH]; intros q Hd Hin Hnd.
  { exists q. split_and!; try done. by intros ? ? ?%elem_of_nil. }
  apply Forall_cons in Hin as [Hp Hin]. apply NoDup_cons in Hnd as [Hn Hnd]. cbn [fst snd] in Hp. cbn [for_each].
  assert (Hstep : forall b, xorb (cell (modules q) x y) (invert msk x y && negb (cell (isFunction q) x y)) = b ->
    mask_module msk x y q = set_module x y b q).
  { intros b <-. unfold mask_module, module, mbind, M_bind. by rewrite !(grid_at_ok (size q)) by (done || apply Hd). }
  set (v := xorb _ _) in Hstep. specialize (Hstep v eq_refl). unfold mbind, M_bind. rewrite Hstep.
  destruct (set_module_ok q x y v Hd Hp) as (q1 & E1 & Hd1 & Hs1 & Hf1 & Hc1). rewrite E1. assert (Hsz : size q1 = size q) by apply Hs1.
  destruct (IH q1 Hd1) as (q' & E & Hd' & Hs & Hf & Hout & Hval); [by rewrite Hsz|done|].
  assert (Hother : forall x' y', in_grid (size q) x' y' -> (x', y') <> (x, y) -> cell (modules q1) x' y' = cell (modules q) x' y').
  { intros x' y' Hp' Hne. rewrite Hc1 by done. destruct ((x' =? x) && (y' =? y)) eqn:Exy; [|done].
    by apply andb_true_iff in Exy as [->%Z.eqb_eq ->%Z.eqb_eq]. }
  rewrite Hsz in Hout. exists q'. split; [done|]. split; [done|]. split; [by transitivity q1|]. split; [by rewrite Hf|]. split.
  - intros x' y' Hp' [Hne Hn']%not_elem_of_cons. rewrite Hout by done. by apply Hother.
  - intros x' y' [[= -> ->]|Hin']%elem_of_cons.
    + rewrite Hout by done. rewrite Hc1 by done. by rewrite !Z.eqb_refl.
    + rewrite Hval, Hf1 by done. f_equal. apply Hother; [|by intros [= -> ->]]. apply (proj1 (Forall_forall _ _) Hin (x', y') Hin').
Qed.

Lemma applyMask_ok msk q : drawing q -> 0 <= msk <= 7 ->
  exists q', applyMask msk q = (Ok tt, q') /\ drawing q' /\ same_code q q' /\ isFunction q' = isFunction q
    /\ (forall x y, in_grid (size q) x y ->
         cell (modules q') x y = xorb (cell (modules q) x y) (invert msk x y && negb (cell (isFunction q) x y))).
Proof.
  intros Hd Hm. rewrite applyMask_raster by done. destruct (mask_modules_ok msk (raster (size q)) q Hd) as (q' & E & Hd' & Hs & Hf & _ & Hval).
  - apply Forall_forall. intros [x y]. apply elem_of_raster.
  - apply raster_NoDup.
  - exists q'. do 4 (split; [done|]). intros x y Hp. by apply Hval, elem_of_raster.
Qed.

(** ** The penalty *)

Lemma mapM_ok {A B} (f : A -> res B) (g : A -> B) l : (forall a, a ∈ l -> f a = Ok (g a)) -> mapM f l = Ok (map g l).
Proof.
  induction l as [|a l IH]; intros H; [done|]. cbn. rewrite (H a) by set_solver. cbn. rewrite IH; [done|]. intros b Hb. apply H. set_solver.
Qed.

Lemma patterns_bound h : 0 <= finderPenaltyCountPatterns h <= 2.
Proof. unfold finderPenaltyCountPatterns. cbv zeta. repeat case_match; lia. Qed.

Lemma run_penalty_bound sz line : forall color run h result,
  result <= run_penalty sz line color run h result <= result + 80 * (Z.of_nat (length line) + 1).
Proof.
  unfold PENALTY_N1, PENALTY_N3. induction line as [|m line IH]; intros color run h result; cbn [run_penalty length].
  - assert (0 <= finderPenaltyTerminateAndCount sz color run h <= 2); [|unfold PENALTY_N3; lia].
    unfold finderPenaltyTerminateAndCount. destruct (if color then _ else _) as [len h']. apply patterns_bound.
  - unfold PENALTY_N1, PENALTY_N3 in *. destruct (Bool.eqb m color).
    + match goal with |- context [run_penalty _ _ _ _ _ ?r] => specialize (IH color (run + 1) h r) end.
      destruct (run + 1 =? 5), (5 <? run + 1); lia.
    + set (h' := finderPenaltyAddHistory sz run h). pose proof (patterns_bound h').
      match goal with |- context [run_penalty _ _ _ _ _ ?r] => specialize (IH m 1 h' r) end. destruct color; lia.
Qed.

Lemma sum_bound {A} (f : A -> Z) (l : list A) b : (forall a, a ∈ l -> 0 <= f a <= b) -> 0 <= sum (map f l) <= Z.of_nat (length l) * b.
Proof.
  induction l as [|a l IH]; intros H; [cbn; lia|]. cbn [map sum foldr length]. fold (sum (map f l)).
  specialize (H a ltac:(set_solver)) as Ha. specialize (IH ltac:(intros c Hc; apply H; set_solver)). lia.
Qed.

(** The balance of dark and light modules: the size is odd, so that [k] is between 0 and 9, as the code asserts. *)
Lemma balance_bound ver dark : 1 <= ver <= 40 -> 0 <= dark <= (ver * 4 + 17) * (ver * 4 + 17) -> 0 <= balance_penalty (ver * 4 + 17) dark <= 90.
Proof.
  intros Hv Hd. unfold balance_penalty, PENALTY_N4. set (sz := ver * 4 + 17) in *. set (total := sz * sz) in *. cbv zeta.
  assert (Hodd : total mod 2 = 1).
  { unfold total, sz. replace ((ver * 4 + 17) * (ver * 4 + 17)) with (1 + (ver * ver * 8 + ver * 68 + 144) * 2) by lia. apply Z_mod_plus_full. }
  assert (Ht : 0 < total) by (unfold total, sz; nia). clearbody total.
  set (d := Z.abs (dark * 20 - total * 10)). assert (Hd1 : 1 <= d <= 10 * total).
  { pose proof (Z.div_mod total 2 ltac:(lia)). unfold d. lia. }
  assert (1 <= (d + total - 1) / total) by (apply Z.div_le_lower_bound; lia).
  assert ((d + total - 1) / total < 11) by (apply Z.div_lt_upper_bound; lia). lia.
Qed.

Lemma dark_bound (g : grid) n : Forall (fun row => length row = n) g ->
  0 <= sum (map (fun row => Z.of_nat (length (List.filter (fun b => b) row))) g) <= Z.of_nat (length g) * Z.of_nat n.
Proof.
  intros Hg. apply sum_bound. intros row Hrow. pose proof (proj1 (Forall_forall _ _) Hg row Hrow) as <-. split; [lia|].
  apply Nat2Z.inj_le. apply List.filter_length_le.
Qed.

Lemma range_length a b : a <= b -> Z.of_nat (length (range a b)) = b - a.
Proof.
  intros H. unfold range. assert (E : forall n a, length (count_up a n) = n) by (induction n; intros; cbn; auto). rewrite E. lia.
Qed.

Lemma rows_ok sz g : shape sz g ->
  mapM (fun y => mapM (fun x => grid_at g x y) (range 0 sz)) (range 0 sz) = Ok (map (fun y => map (fun x => cell g x y) (range 0 sz)) (range 0 sz)).
Proof.
  intros Hg. apply mapM_ok. intros y Hy%elem_of_range. apply mapM_ok. intros x Hx%elem_of_range. by apply (grid_at_ok sz).
Qed.

Lemma columns_ok sz g : shape sz g ->
  mapM (fun x => mapM (fun y => grid_at g x y) (range 0 sz)) (range 0 sz) = Ok (map (fun x => map (fun y => cell g x y) (range 0 sz)) (range 0 sz)).
Proof.
  intros Hg. apply mapM_ok. intros x Hx%elem_of_range. apply mapM_ok. intros y Hy%elem_of_range. by apply (grid_at_ok sz).
Qed.

Definition square_penalty (g : grid) (x y : Z) : Z :=
  if Bool.eqb (cell g x y) (cell g (x + 1) y) && Bool.eqb (cell g x y) (cell g x (y + 1)) && Bool.eqb (cell g x y) (cell g (x + 1) (y + 1))
  then PENALTY_N2 else 0.

Lemma squares_ok sz g : shape sz g ->
  mapM (fun y => mapM (fun x =>
      color ← grid_at g x y;
      a ← grid_at g (x + 1) y;
      b ← grid_at g x (y + 1);
      c ← grid_at g (x + 1) (y + 1);
      Ok (if Bool.eqb color a && Bool.eqb color b && Bool.eqb color c then PENALTY_N2 else 0))
    (range 0 (sz - 1))) (range 0 (sz - 1))
  = Ok (map (fun y => map (fun x => square_penalty g x y) (range 0 (sz - 1))) (range 0 (sz - 1))).
Proof.
  intros Hg. apply mapM_ok. intros y Hy%elem_of_range. apply mapM_ok. intros x Hx%elem_of_range.
  by rewrite !(grid_at_ok sz) by (done || (unfold in_grid; lia)).
Qed.

Lemma lines_bound sz (line : Z -> list bool) : 0 <= sz -> (forall i, Z.of_nat (length (line i)) = sz) ->
  0 <= sum (map (line_penalty sz) (map line (range 0 sz))) <= sz * (80 * (sz + 1)).
Proof.
  intros Hsz Hl. pose proof (sum_bound (line_penalty sz) (map line (range 0 sz)) (80 * (sz + 1))) as H.
  rewrite length_map, range_length, Z.sub_0_r in H by done. apply H. intros l (i & -> & _)%list_elem_of_fmap.
  unfold line_penalty. pose proof (run_penalty_bound sz (line i) false 0 (replicate 7 0) 0) as Hb. rewrite Hl in Hb. lia.
Qed.

Lemma squares_bound sz g : 1 <= sz ->
  0 <= sum (map sum (map (fun y => map (fun x => square_penalty g x y) (range 0 (sz - 1))) (range 0 (sz - 1)))) <= (sz - 1) * ((sz - 1) * 3).
Proof.
  intros Hsz. rewrite map_map.
  pose proof (sum_bound (fun y => sum (map (fun x => square_penalty g x y) (range 0 (sz - 1)))) (range 0 (sz - 1)) ((sz - 1) * 3)) as H.
  rewrite range_length, Z.sub_0_r in H by lia. apply H. intros y _.
  pose proof (sum_bound (fun x => square_penalty g x y) (range 0 (sz - 1)) 3) as H'. rewrite range_length, Z.sub_0_r in H' by lia. apply H'.
  intros x _. unfold square_penalty, PENALTY_N2. case_match; lia.
Qed.

(** The penalty of a code is far below [LONG_MAX]: some mask is always chosen. *)
Lemma getPenaltyScore_ok q : drawing q -> exists p, getPenaltyScore q = (Ok p, q) /\ 0 <= p < LONG_MAX.
Proof.
  intros Hd. pose proof (d_version q Hd) as Hv. pose proof (d_size q Hd) as Hs. pose proof (d_modules q Hd) as Hm.
  eexists. unfold getPenaltyScore, mbind, M_bind, reads, liftR. rewrite rows_ok, columns_ok, squares_ok by done. split; [reflexivity|].
  set (sz := size q) in *. set (g := modules q) in *.
  assert (Hlen : Z.of_nat (length (range 0 sz)) = sz) by (rewrite range_length; lia).
  pose proof (lines_bound sz (fun y => map (fun x => cell g x y) (range 0 sz)) ltac:(lia)) as Hr.
  pose proof (lines_bound sz (fun x => map (fun y => cell g x y) (range 0 sz)) ltac:(lia)) as Hc.
  setoid_rewrite length_map in Hr. setoid_rewrite length_map in Hc. specialize (Hr (fun _ => Hlen)). specialize (Hc (fun _ => Hlen)).
  pose proof (squares_bound sz g ltac:(lia)) as Hq. destruct Hm as [Hl Hrow]. pose proof (dark_bound g _ Hrow) as Hdark. rewrite Hl in Hdark.
  rewrite !Z2Nat.id in Hdark by lia. rewrite Hs in Hdark. pose proof (balance_bound (version q) _ ltac:(lia) Hdark) as Hb. rewrite <- Hs in Hb.
  assert (sz * (80 * (sz + 1)) <= 177 * (80 * (177 + 1))) by (apply Z.mul_le_mono_nonneg; lia).
  assert ((sz - 1) * ((sz - 1) * 3) <= 176 * (176 * 3)) by (apply Z.mul_le_mono_nonneg; lia).
  change LONG_MAX with 9223372036854775807. lia.
Qed.

(** ** The choice of the mask *)

Lemma format_cells_in ver bits : 1 <= ver <= 40 -> Forall (fun '(x, y, _) => in_grid (ver * 4 + 17) x y) (format_cells (ver * 4 + 17) bits).
Proof. intros Hv. unfold format_cells, in_grid. cbn [map app]. repeat (apply Forall_cons_2; [lia|]). by apply Forall_nil_2. Qed.

Lemma format_function ver bits x y : 1 <= ver <= 40 -> in_grid (ver * 4 + 17) x y -> is_assigned (format_cells (ver * 4 + 17) bits) x y = true ->
  function_module ver x y = true.
Proof.
  intros Hv Hp Ha%assigned_iff. apply pattern_positions_spec; [lia|done|]. unfold pattern_positions, pattern_cells, positions in *.
  rewrite !fmap_app, !elem_of_app. right. left. by rewrite (format_positions _ _ bits).
Qed.

Lemma drawFormatBits_ok q msk : drawing q -> marked q -> exists q', drawFormatBits msk q = (Ok tt, q') /\ drawing q' /\ same_code q q' /\ isFunction q' = isFunction q
  /\ (forall x y, in_grid (size q) x y ->
       cell (modules q') x y = default (cell (modules q) x y) (assigned (format_cells (size q) (format_bits (errorCorrectionLevel q) msk)) x y)).
Proof.
  intros Hd Hmk. pose proof (d_version q Hd) as Hv. pose proof (d_size q Hd) as Hs. set (bits := format_bits (errorCorrectionLevel q) msk).
  destruct (assign_ok (format_cells (size q) bits) q Hd) as (q' & E & Hd' & Hsame & Hm & Hf); [rewrite Hs; by apply format_cells_in|].
  exists q'. rewrite (drawFormatBits_draws (version q) (errorCorrectionLevel q)) by done. rewrite <- Hs. do 3 (split; [done|]). split; [|done].
  destruct Hsame as (_ & Hsz & _). pose proof (d_function q' Hd') as Hsh. rewrite Hsz in Hsh.
  apply (grid_ext (size q)); [done|apply Hd|]. intros x y Hp. rewrite Hf by done.
  destruct (is_assigned _ x y) eqn:Ea; [|done]. rewrite Hmk by done. rewrite Hs in *. by rewrite (format_function _ bits).
Qed.

Lemma is_assigned_format sz bits bits' x y : is_assigned (format_cells sz bits) x y = is_assigned (format_cells sz bits') x y.
Proof. apply eq_iff_eq_true. by rewrite !assigned_iff, (format_positions sz bits bits'). Qed.

(** The codes that differ at most in the format bits. *)
Record agree (q q' : QrCode) : Prop := mk_agree {
  a_drawing : drawing q';
  a_same : same_code q q';
  a_function : isFunction q' = isFunction q;
  a_modules : keeps_cells (fun x y => is_assigned (format_cells (size q) 0) x y = false) q q' }.

Lemma agree_refl q : drawing q -> agree q q.
Proof. by split. Qed.

Lemma agree_trans q1 q2 q3 : agree q1 q2 -> agree q2 q3 -> agree q1 q3.
Proof.
  intros [Hd S F C] [Hd' S' F' C']. split; [done|by transitivity q2|by rewrite F'|]. assert (Hsz : size q2 = size q1) by apply S.
  intros x y Hp Ha. rewrite C' by (by rewrite Hsz). by apply C.
Qed.

Lemma agree_marked q q' : marked q -> agree q q' -> marked q'.
Proof. intros Hm [_ (Hv & Hs & _) F _] x y Hp. rewrite F, Hv. apply Hm. by rewrite <- Hs. Qed.

(** The code masked with [msk], with its format bits. *)
Definition try_mask (msk : Z) : M QrCode unit := applyMask msk ;; drawFormatBits msk.

Definition masked (q : QrCode) (msk x y : Z) : bool :=
  default (xorb (cell (modules q) x y) (invert msk x y && negb (cell (isFunction q) x y)))
    (assigned (format_cells (size q) (format_bits (errorCorrectionLevel q) msk)) x y).

Lemma try_mask_ok q msk : drawing q -> marked q -> 0 <= msk <= 7 -> exists q', try_mask msk q = (Ok tt, q')
  /\ drawing q' /\ same_code q q' /\ isFunction q' = isFunction q
  /\ (forall x y, in_grid (size q) x y -> cell (modules q') x y = masked q msk x y).
Proof.
  intros Hd Hmk Hm. destruct (applyMask_ok msk q Hd Hm) as (q1 & E1 & Hd1 & Hs1 & Hf1 & Hc1).
  assert (Hmk1 : marked q1) by (intros x y Hp; destruct Hs1 as (Hv & Hs & _); rewrite Hf1, Hv; apply Hmk; by rewrite <- Hs).
  destruct (drawFormatBits_ok q1 msk Hd1 Hmk1) as (q' & E & Hd' & Hs & Hf & Hc). exists q'. unfold try_mask, mbind, M_bind. rewrite E1, E.
  split; [done|]. split; [done|]. split; [by transitivity q1|]. split; [by rewrite Hf|].
  destruct Hs1 as (Hv1 & Hz1 & He1 & _). rewrite Hz1, He1 in Hc. intros x y Hp. unfold masked. by rewrite Hc, Hc1.
Qed.

(** The penalty of a mask. *)
Definition mask_penalty (q : QrCode) (msk : Z) : Z :=
  match (try_mask msk ;; getPenaltyScore) q with
  | (Ok p, _) => p
  | _ => 0
  end.

Lemma try_mask_agree q q' msk : drawing q -> marked q -> agree q q' -> 0 <= msk <= 7 -> (try_mask msk q').2 = (try_mask msk q).2.
Proof.
  intros Hd Hmk Ha Hm. destruct (try_mask_ok q msk Hd Hmk Hm) as (r & -> & Hd1 & Hs1 & Hf1 & Hc1).
  destruct (try_mask_ok q' msk (a_drawing _ _ Ha) (agree_marked _ _ Hmk Ha) Hm) as (r' & -> & Hd2 & Hs2 & Hf2 & Hc2).
  destruct Ha as [_ (Hv & Hs & He & Hk) F C]. destruct Hs1 as (Hv1 & Hz1 & He1 & Hk1), Hs2 as (Hv2 & Hz2 & He2 & Hk2). cbn.
  assert (Hcell : modules r' = modules r).
  { pose proof (d_modules r' Hd2) as Hm2. pose proof (d_modules r Hd1) as Hm1. rewrite Hz2, Hs in Hm2. rewrite Hz1 in Hm1.
    apply (grid_ext (size q)); [done|done|]. intros x y Hp. rewrite Hc1 by done. rewrite Hc2 by (by rewrite Hs). unfold masked. rewrite Hs, He, F.
    destruct (assigned _ x y) eqn:Ea; [done|]. cbn. rewrite C; [done|done|].
    rewrite (is_assigned_format _ _ (format_bits (errorCorrectionLevel q) msk)). unfold is_assigned. by rewrite Ea. }
  destruct r, r'; cbn in *. congruence.
Qed.

Lemma mask_penalty_agree q q' msk : drawing q -> marked q -> agree q q' -> 0 <= msk <= 7 -> mask_penalty q' msk = mask_penalty q msk.
Proof.
  intros Hd Hmk Ha Hm. pose proof (try_mask_agree q q' msk Hd Hmk Ha Hm) as E.
  destruct (try_mask_ok q msk Hd Hmk Hm) as (r & E1 & _).
  destruct (try_mask_ok q' msk (a_drawing _ _ Ha) (agree_marked _ _ Hmk Ha) Hm) as (r' & E2 & _).
  unfold mask_penalty, mbind, M_bind. rewrite E1, E2 in *. cbn in E. by rewrite E.
Qed.

(** One round: the mask is applied, scored and undone. *)
Lemma mask_round q msk : drawing q -> marked q -> 0 <= msk <= 7 -> exists q',
  (applyMask msk ;; drawFormatBits msk ;; penalty ← getPenaltyScore; applyMask msk ;; mret penalty) q = (Ok (mask_penalty q msk), q')
  /\ agree q q' /\ mask_penalty q msk < LONG_MAX.
Proof.
  intros Hd Hmk Hm. destruct (try_mask_ok q msk Hd Hmk Hm) as (q1 & E1 & Hd1 & Hs1 & Hf1 & Hc1).
  destruct (getPenaltyScore_ok q1 Hd1) as (p & Ep & Hp). destruct (applyMask_ok msk q1 Hd1 Hm) as (q2 & E2 & Hd2 & Hs2 & Hf2 & Hc2).
  assert (Epen : mask_penalty q msk = p) by (unfold mask_penalty, mbind, M_bind; by rewrite E1, Ep).
  unfold try_mask, mbind, M_bind in E1. exists q2. unfold mbind, M_bind. destruct (applyMask msk q) as [[[]|] q0]; [|done]. rewrite E1, Ep, E2, Epen.
  split; [done|]. split; [|lia]. split; [done|by transitivity q1|by rewrite Hf2|]. assert (Hz : size q1 = size q) by apply Hs1.
  intros x y Hp' Ha. rewrite Hc2 by (by rewrite Hz). rewrite Hc1, Hf1 by done. unfold masked.
  rewrite (is_assigned_format _ _ (format_bits (errorCorrectionLevel q) msk)) in Ha. unfold is_assigned in Ha.
  destruct (assigned _ x y); [done|]. cbn. by rewrite xorb_assoc, xorb_nilpotent, xorb_false_r.
Qed.

Lemma choose_mask_ok q is_ : drawing q -> marked q -> Forall (fun i => 0 <= i <= 7) is_ -> forall q1 msk minPenalty, agree q q1 ->
  exists m q', choose_mask is_ msk minPenalty q1 = (Ok m, q') /\ agree q q'
    /\ ((m = msk /\ forall i, i ∈ is_ -> minPenalty <= mask_penalty q i)
        \/ (m ∈ is_ /\ mask_penalty q m < minPenalty /\ forall i, i ∈ is_ -> mask_penalty q m <= mask_penalty q i)).
Proof.
  intros Hd Hmk His. induction His as [|i is_ Hi _ IH]; intros q1 msk minPenalty Ha.
  { exists msk, q1. split; [done|]. split; [done|]. left. split; [done|]. by intros ? ?%elem_of_nil. }
  destruct (mask_round q1 i (a_drawing _ _ Ha) (agree_marked _ _ Hmk Ha) Hi) as (q2 & E2 & Ha2 & _).
  rewrite (mask_penalty_agree q q1 i Hd Hmk Ha Hi) in E2.
  assert (Estep : choose_mask (i :: is_) msk minPenalty q1
    = (if mask_penalty q i <? minPenalty then choose_mask is_ i (mask_penalty q i) else choose_mask is_ msk minPenalty) q2).
  { cbn [choose_mask]. unfold mbind, M_bind in *. repeat match type of E2 with context [match ?m with (_, _) => _ end] => destruct m as [[] ?]; try done end.
    injection E2 as -> ->. by destruct (_ <? _). }
  rewrite Estep. pose proof (agree_trans _ _ _ Ha Ha2) as Ha'. destruct (Z.ltb_spec (mask_penalty q i) minPenalty) as [Hlt|Hge].
  - destruct (IH q2 i (mask_penalty q i) Ha') as (m & q' & E & Ha'' & Hres). exists m, q'. split; [done|]. split; [done|]. right.
    destruct Hres as [[-> Hmin]|(Hin & Hlt' & Hmin)]; (split; [set_solver|]); (split; [lia|]); intros j [->|Hj]%elem_of_cons; auto; lia.
  - destruct (IH q2 msk minPenalty Ha') as (m & q' & E & Ha'' & Hres). exists m, q'. split; [done|]. split; [done|].
    destruct Hres as [[-> Hmin]|(Hin & Hlt' & Hmin)]; [left; split; [done|]|right; split; [set_solver|split; [done|]]];
      intros j [->|Hj]%elem_of_cons; auto; lia.
Qed.

(** The eight masks: one of the least penalty is chosen. *)
Lemma choose_mask_least q : drawing q -> marked q -> exists m q', choose_mask (range 0 8) (-1) LONG_MAX q = (Ok m, q')
  /\ agree q q' /\ 0 <= m <= 7 /\ forall i, 0 <= i <= 7 -> mask_penalty q m <= mask_penalty q i.
Proof.
  intros Hd Hmk. destruct (choose_mask_ok q (range 0 8) Hd Hmk) with q (-1) LONG_MAX as (m & q' & E & Ha & Hres).
  - apply Forall_forall. intros i ?%elem_of_range. lia.
  - by apply agree_refl.
  - exists m, q'. split; [done|]. split; [done|]. destruct Hres as [[_ Hmin]|(Hm%elem_of_range & _ & Hmin)].
    + exfalso. specialize (Hmin 0 ltac:(apply elem_of_range; lia)). destruct (mask_round q 0 Hd Hmk ltac:(lia)) as (_ & _ & _ & ?). lia.
    + split; [lia|]. intros i Hi. apply Hmin, elem_of_range. lia.
Qed.
