(* ===== verification/QrBlocks.v ===== *)
(** * Blocks of a QR code

    [addEccAndInterleave] splits the data into blocks, appends to each its error correction and
    interleaves them.  A reader that follows the order of the standard finds the blocks again. *)

From S2P Require Import Prelude QrSegment QrCode QrField QrDraw QrPlace.

Local Open Scope list_scope.

(** ** The numbers of a version and level *)

(** The number of codewords, of blocks, of error correction codewords in a block, of data codewords in
    a short block, and of short blocks. *)
Record layout := mk_layout { total : Z; blocks : Z; ecc_len : Z; short_len : Z; short_blocks : Z }.

Definition layout_of (ver : Z) (ecl : Ecc) : layout :=
  let total := match getNumRawDataModules ver with Ok raw => raw / 8 | _ => 0 end in
  let blocks := numEccBlocks ecl ver in
  let ecc_len := eccPerBlock ecl ver in
  mk_layout total blocks ecc_len (total / blocks - ecc_len) (blocks - total mod blocks).

Definition data_len (L : layout) : Z := short_len L * blocks L + (blocks L - short_blocks L).

Definition layout_check (ecl : Ecc) (ver : Z) : bool :=
  let L := layout_of ver ecl in (1 <=? blocks L) && (1 <=? ecc_len L) && (ecc_len L <=? 30) && (1 <=? short_len L).

Lemma layout_checked ver ecl : 1 <= ver < 41 -> layout_check ecl ver = true.
Proof. apply (forallb_range (layout_check ecl)). destruct ecl; by vm_compute. Qed.

Record layout_ok (L : layout) : Prop := mk_layout_ok {
  l_blocks : 1 <= blocks L;
  l_ecc : 1 <= ecc_len L <= 30;
  l_short : 1 <= short_len L;
  l_short_blocks : 1 <= short_blocks L <= blocks L;
  l_total : data_len L + ecc_len L * blocks L = total L }.

Lemma layout_spec ver ecl : 1 <= ver < 41 -> layout_ok (layout_of ver ecl)
  /\ (exists raw, getNumRawDataModules ver = Ok raw /\ total (layout_of ver ecl) = raw / 8)
  /\ getNumDataCodewords ver ecl = Ok (data_len (layout_of ver ecl)).
Proof.
  intros Hv. pose proof (layout_checked ver ecl Hv) as H. unfold layout_check in H. breflect.
  assert (Er : exists raw, getNumRawDataModules ver = Ok raw).
  { unfold getNumRawDataModules, MIN_VERSION, MAX_VERSION. replace ((ver <? 1) || (40 <? ver)) with false by lia. eauto. }
  destruct Er as [raw Er]. unfold getNumDataCodewords, layout_of, data_len in *. rewrite Er in *. cbn in *.
  pose proof (Z.div_mod (raw / 8) (numEccBlocks ecl ver) ltac:(lia)). pose proof (Z.mod_pos_bound (raw / 8) (numEccBlocks ecl ver) ltac:(lia)).
  set (n := numEccBlocks ecl ver) in *. set (e := eccPerBlock ecl ver) in *. set (t := raw / 8) in *.
  assert (E : (t / n - e) * n + (n - (n - t mod n)) + e * n = t) by lia.
  split; [split; unfold data_len; cbn; lia|]. split; [by exists raw|]. f_equal. lia.
Qed.

(** ** Making the blocks *)

Section blocks.
Context (L : layout) (HL : layout_ok L) (g : list Z) (P : list Z -> list Z -> Prop).
Context (Hgen : forall d, bytes_ok d -> exists e, reedSolomonComputeRemainder d g = Ok e /\ Z.of_nat (length e) = ecc_len L /\ P d e).

Definition block_len (j : Z) : Z := short_len L + (if j <? short_blocks L then 0 else 1).

(** A block as the code stores it. *)
Fixpoint padded (j : Z) (ps : list (list Z * list Z)) : list (list Z) :=
  match ps with
  | [] => []
  | (d, e) :: ps => (d ++ (if j <? short_blocks L then [0] else []) ++ e) :: padded (j + 1) ps
  end.

Definition blocks_ok (j : Z) (ps : list (list Z * list Z)) : Prop :=
  forall k d e, ps !! k = Some (d, e) -> Z.of_nat (length d) = block_len (j + Z.of_nat k) /\ Z.of_nat (length e) = ecc_len L /\ P d e.

Lemma make_blocks_ok dat : bytes_ok dat -> Z.of_nat (length dat) = data_len L -> forall n j k, j + Z.of_nat n = blocks L -> 0 <= j ->
  k = j * short_len L + Z.max 0 (j - short_blocks L) ->
  exists ps, make_blocks n j k (short_blocks L) (short_len L + ecc_len L) (ecc_len L) dat g = Ok (padded j ps)
    /\ length ps = n /\ concat ps.*1 = drop (Z.to_nat k) dat /\ blocks_ok j ps.
Proof.
  intros Hb Hdat. pose proof (l_short L HL) as Hsh. pose proof (l_short_blocks L HL) as Hsb. unfold data_len in Hdat.
  induction n as [|n IH]; intros j k Hj Hj0 Hk.
  { exists []. cbn. split; [done|]. split; [done|]. split; [|intros ? ? ? [=]]. rewrite drop_ge; [done|]. nia. }
  cbn [make_blocks]. replace (short_len L + ecc_len L - ecc_len L) with (short_len L) by lia. fold (block_len j).
  assert (Hlen : 0 <= block_len j) by (unfold block_len; destruct (_ <? _); lia).
  assert (Hk' : k + block_len j = (j + 1) * short_len L + Z.max 0 (j + 1 - short_blocks L)).
  { unfold block_len. destruct (Z.ltb_spec j (short_blocks L)); nia. }
  assert (Hfit : k + block_len j <= Z.of_nat (length dat)).
  { rewrite Hk', Hdat. assert ((j + 1) * short_len L <= blocks L * short_len L) by (apply Z.mul_le_mono_nonneg_r; lia). lia. }
  set (d := take (Z.to_nat (block_len j)) (drop (Z.to_nat k) dat)).
  destruct (Hgen d) as (e & Ee & Hle & HP); [by apply Forall_take, Forall_drop|].
  destruct (IH (j + 1) (k + block_len j)) as (ps & E & Hps & Hc & Hok); [lia|lia|lia|].
  exists ((d, e) :: ps). rewrite Ee. cbn [mbind res_bind]. rewrite E. cbn [mbind res_bind padded]. split; [done|]. split; [cbn; lia|]. split.
  - cbn [fmap list_fmap concat fst]. change (list_fmap _ _ fst ps) with (ps.*1). rewrite Hc. unfold d.
    rewrite Z2Nat.inj_add, <- drop_drop by nia. apply take_drop.
  - intros i d' e' Hi. destruct i as [|i]; cbn in Hi.
    + injection Hi as <- <-. rewrite Z.add_0_r. split; [|done]. unfold d. rewrite length_take, length_drop. nia.
    + destruct (Hok i d' e' Hi) as (-> & ? & ?). split; [|done]. f_equal. lia.
Qed.

Lemma padded_length ps : forall j, length (padded j ps) = length ps.
Proof. induction ps as [|[d e] ps IH]; intros j; cbn; [done|]. by rewrite IH. Qed.

Lemma padded_lookup ps : forall j k d e, ps !! k = Some (d, e) ->
  padded j ps !! k = Some (d ++ (if j + Z.of_nat k <? short_blocks L then [0] else []) ++ e).
Proof.
  induction ps as [|[d' e'] ps IH]; intros j k d e Hk; [done|]. destruct k as [|k]; cbn in *.
  - injection Hk as -> ->. by rewrite Z.add_0_r.
  - eapply eq_trans; [exact (IH (j + 1) k d e Hk)|]. by replace (j + 1 + Z.of_nat k) with (j + Z.of_nat (S k)) by lia.
Qed.

Definition stored_len : nat := Z.to_nat (short_len L + 1 + ecc_len L).

Lemma padded_stored ps : blocks_ok 0 ps -> Forall (fun b => length b = stored_len) (padded 0 ps).
Proof.
  intros Hok. apply Forall_lookup. intros k b Hb. pose proof (lookup_lt_Some _ _ _ Hb) as Hk. rewrite padded_length in Hk.
  destruct (lookup_lt_is_Some_2 ps k Hk) as [[d e] Hde]. rewrite (padded_lookup ps 0 k d e Hde) in Hb. injection Hb as <-.
  destruct (Hok k d e Hde) as (Hd & He & _). rewrite !length_app. unfold stored_len, block_len in *. pose proof (l_ecc L HL). pose proof (l_short L HL).
  destruct (0 + Z.of_nat k <? short_blocks L); cbn [length]; lia.
Qed.

(** ** Interleaving *)

(** The row [i]: the byte [i] of every block, without the padding of the short ones. *)
Definition row (bs : list (list Z)) (i : Z) : list Z :=
  map (fun b => b !!! Z.to_nat i) (if i =? short_len L then drop (Z.to_nat (short_blocks L)) bs else bs).

Lemma interleave_row_ok bs i : Forall (fun b => length b = stored_len) bs -> 0 <= i < Z.of_nat stored_len -> forall j, 0 <= j ->
  interleave_row bs i j (short_len L) (short_blocks L)
  = Ok (map (fun b => b !!! Z.to_nat i) (if i =? short_len L then drop (Z.to_nat (short_blocks L - j)) bs else bs)).
Proof.
  intros Hbs Hi. induction Hbs as [|b bs Hb _ IH]; intros j Hj; cbn [interleave_row].
  { by destruct (i =? short_len L); rewrite ?drop_nil. }
  rewrite IH by lia. cbn [mbind res_bind]. destruct (lookup_lt_is_Some_2 b (Z.to_nat i)) as [c Ec]; [lia|]. rewrite Ec.
  pose proof (list_lookup_total_correct _ _ _ Ec) as Et. destruct (Z.eqb_spec i (short_len L)); cbn [negb orb]; [|cbn [map]; by rewrite Et].
  destruct (Z.leb_spec (short_blocks L) j).
  - replace (Z.to_nat (short_blocks L - j)) with O by lia. replace (Z.to_nat (short_blocks L - (j + 1))) with O by lia.
    rewrite !drop_0. cbn [map]. by rewrite Et.
  - replace (Z.to_nat (short_blocks L - j)) with (S (Z.to_nat (short_blocks L - (j + 1)))) by lia. done.
Qed.

Definition interleaved (bs : list (list Z)) : list Z := concat (map (row bs) (range 0 (Z.of_nat stored_len))).

Lemma rows_interleaved bs : Forall (fun b => length b = stored_len) bs ->
  mapM (fun i => interleave_row bs i 0 (short_len L) (short_blocks L)) (range 0 (Z.of_nat stored_len)) = Ok (map (row bs) (range 0 (Z.of_nat stored_len))).
Proof.
  intros Hbs. apply mapM_ok. intros i Hi%elem_of_range. rewrite interleave_row_ok by (done || lia). unfold row. by rewrite Z.sub_0_r.
Qed.
End blocks.

(** ** Reading the blocks back *)

(** The standard's order: the first data codewords of all blocks, the second, and so on, then the error
    correction in the same way. *)
Definition read_block (L : layout) (cw : list Z) (j : Z) : list Z * list Z :=
  (map (fun i => cw !!! Z.to_nat (if i =? short_len L then short_len L * blocks L + (j - short_blocks L) else i * blocks L + j))
     (range 0 (block_len L j)),
   map (fun i => cw !!! Z.to_nat (data_len L + i * blocks L + j)) (range 0 (ecc_len L))).

Definition read_blocks (L : layout) (cw : list Z) : list (list Z * list Z) := map (read_block L cw) (range 0 (blocks L)).

Lemma count_up_app a n m : count_up a (n + m) = count_up a n ++ count_up (a + Z.of_nat n) m.
Proof.
  revert a. induction n as [|n IH]; intros a; cbn [count_up Nat.add app]; [by rewrite Z.add_0_r|]. rewrite IH. do 3 f_equal. lia.
Qed.

Lemma range_split a b c : a <= b <= c -> range a c = range a b ++ range b c.
Proof.
  intros H. unfold range. replace (Z.to_nat (c - a)) with (Z.to_nat (b - a) + Z.to_nat (c - b))%nat by lia. rewrite count_up_app.
  do 2 f_equal. lia.
Qed.

Lemma range_lookup a b k : (Z.of_nat k < b - a) -> range a b !! k = Some (a + Z.of_nat k).
Proof.
  intros H. unfold range. assert (E : forall n a k, (k < n)%nat -> count_up a n !! k = Some (a + Z.of_nat k)); [|apply E; lia].
  clear. induction n as [|n IH]; intros a k Hk; [lia|]. destruct k; cbn [count_up lookup list_lookup]; [f_equal; lia|].
  rewrite IH by lia. f_equal. lia.
Qed.

Lemma map_total (l : list Z) n : n = Z.of_nat (length l) -> map (fun i => l !!! Z.to_nat i) (range 0 n) = l.
Proof.
  intros ->. apply list_eq. intros k. destruct (decide (k < length l)%nat) as [Hk|Hk].
  - rewrite lookup_map, range_lookup by lia. cbn [fmap option_fmap option_map]. rewrite Z.add_0_l, Nat2Z.id. by rewrite list_lookup_lookup_total_lt.
  - rewrite !lookup_ge_None_2; [done|lia|]. rewrite length_map. pose proof (range_length 0 (Z.of_nat (length l)) ltac:(lia)). lia.
Qed.

Section reading.
Context (L : layout) (HL : layout_ok L) (bs : list (list Z)).
Context (Hn : Z.of_nat (length bs) = blocks L) (Hbs : Forall (fun b => length b = stored_len L) bs).

Definition first_rows : list Z := concat (map (row L bs) (range 0 (short_len L))).
Definition last_rows : list Z := concat (map (row L bs) (range (short_len L + 1) (short_len L + 1 + ecc_len L))).

Lemma interleaved_split : interleaved L bs = first_rows ++ row L bs (short_len L) ++ last_rows.
Proof.
  pose proof (l_short L HL). pose proof (l_ecc L HL). unfold interleaved, stored_len. rewrite Z2Nat.id by lia.
  rewrite (range_split 0 (short_len L)), (range_split (short_len L) (short_len L + 1)) by lia. rewrite !map_app, !concat_app. do 2 f_equal.
  unfold range at 1. replace (Z.to_nat (short_len L + 1 - short_len L)) with 1%nat by lia. cbn. apply app_nil_r.
Qed.

Lemma row_full i : i <> short_len L -> row L bs i = map (fun b => b !!! Z.to_nat i) bs.
Proof. intros Hi. unfold row. by destruct (Z.eqb_spec i (short_len L)). Qed.

Lemma full_rows a b : (forall i, a <= i < b -> i <> short_len L) -> Forall (fun r => length r = length bs) (map (row L bs) (range a b)).
Proof.
  intros H. apply Forall_forall. intros r (i & -> & Hi%elem_of_range)%list_elem_of_fmap. rewrite row_full by (by apply H). apply length_map.
Qed.

Lemma full_rows_lookup a b i j bk : (forall i, a <= i < b -> i <> short_len L) -> 0 <= i < b - a -> bs !! j = Some bk ->
  concat (map (row L bs) (range a b)) !! (Z.to_nat i * length bs + j)%nat = Some (bk !!! Z.to_nat (a + i)).
Proof.
  intros H Hi Hj. rewrite concat_lookup; [|by apply full_rows|by eapply lookup_lt_Some]. rewrite lookup_map, range_lookup by lia. cbn [fmap option_fmap option_map mbind option_bind]. rewrite row_full by (apply H; lia).
  rewrite lookup_map, Hj. cbn. do 3 f_equal. lia.
Qed.

Lemma full_rows_length a b : a <= b -> (forall i, a <= i < b -> i <> short_len L) ->
  Z.of_nat (length (concat (map (row L bs) (range a b)))) = (b - a) * blocks L.
Proof.
  intros Hab H. rewrite (concat_length _ _ (full_rows a b H)), length_map, Nat2Z.inj_mul, (range_length a b Hab). by rewrite Hn.
Qed.

Lemma first_length : Z.of_nat (length first_rows) = short_len L * blocks L.
Proof. pose proof (l_short L HL). unfold first_rows. rewrite full_rows_length by lia. lia. Qed.

Lemma middle_length : Z.of_nat (length (row L bs (short_len L))) = blocks L - short_blocks L.
Proof. pose proof (l_short_blocks L HL). unfold row. rewrite Z.eqb_refl, length_map, length_drop. lia. Qed.

Lemma interleaved_length : Z.of_nat (length (interleaved L bs)) = total L.
Proof.
  pose proof (l_short L HL). pose proof (l_ecc L HL). rewrite interleaved_split, !length_app, !Nat2Z.inj_add, first_length, middle_length.
  unfold last_rows. rewrite full_rows_length by lia. rewrite <- (l_total L HL). unfold data_len. lia.
Qed.

Lemma data_lookup i j b : 0 <= i < short_len L -> bs !! j = Some b ->
  interleaved L bs !! Z.to_nat (i * blocks L + Z.of_nat j) = Some (b !!! Z.to_nat i).
Proof.
  intros Hi Hj. pose proof (l_blocks L HL). pose proof (lookup_lt_Some _ _ _ Hj).
  replace (Z.to_nat (i * blocks L + Z.of_nat j)) with (Z.to_nat i * length bs + j)%nat by nia.
  rewrite interleaved_split, lookup_app_l by (apply Nat2Z.inj_lt; rewrite first_length; nia).
  unfold first_rows. by rewrite (full_rows_lookup 0 (short_len L) i j b) by (done || lia).
Qed.

Lemma long_lookup j b : short_blocks L <= Z.of_nat j -> bs !! j = Some b ->
  interleaved L bs !! Z.to_nat (short_len L * blocks L + (Z.of_nat j - short_blocks L)) = Some (b !!! Z.to_nat (short_len L)).
Proof.
  intros Hs Hj. pose proof first_length as Hf. pose proof middle_length. pose proof (lookup_lt_Some _ _ _ Hj). pose proof (l_short_blocks L HL).
  rewrite interleaved_split, lookup_app_r, lookup_app_l by lia. unfold row. rewrite Z.eqb_refl. rewrite lookup_map, lookup_drop.
  replace (Z.to_nat (short_blocks L) + (Z.to_nat (short_len L * blocks L + (Z.of_nat j - short_blocks L)) - length first_rows))%nat with j by lia.
  by rewrite Hj.
Qed.

Lemma ecc_lookup i j b : 0 <= i < ecc_len L -> bs !! j = Some b ->
  interleaved L bs !! Z.to_nat (data_len L + i * blocks L + Z.of_nat j) = Some (b !!! Z.to_nat (short_len L + 1 + i)).
Proof.
  intros Hi Hj. pose proof first_length as Hf. pose proof middle_length as Hm. pose proof (lookup_lt_Some _ _ _ Hj). pose proof (l_short_blocks L HL).
  assert (0 <= i * blocks L) by nia. rewrite interleaved_split, !lookup_app_r by (unfold data_len; lia). unfold last_rows.
  replace (_ - _ - _)%nat with (Z.to_nat i * length bs + j)%nat by (unfold data_len; nia).
  by rewrite (full_rows_lookup _ _ i j b) by (done || lia).
Qed.
End reading.

Section roundtrip.
Context (L : layout) (HL : layout_ok L) (P : list Z -> list Z -> Prop) (ps : list (list Z * list Z)).
Context (Hn : Z.of_nat (length ps) = blocks L) (Hok : blocks_ok L P 0 ps).

Lemma read_block_padded j d e : ps !! j = Some (d, e) -> read_block L (interleaved L (padded L 0 ps)) (Z.of_nat j) = (d, e).
Proof.
  intros Hj. pose proof (l_short L HL) as Hsh. pose proof (l_ecc L HL) as Hec. destruct (Hok j d e Hj) as (Hd & He & _).
  rewrite Z.add_0_l in Hd. pose proof (padded_lookup L ps 0 j d e Hj) as Hb. rewrite Z.add_0_l in Hb.
  set (b := d ++ _) in Hb. set (bs := padded L 0 ps) in *.
  assert (Hbs : Z.of_nat (length bs) = blocks L) by (unfold bs; by rewrite padded_length).
  assert (Hdb : forall i, 0 <= i < block_len L (Z.of_nat j) -> b !!! Z.to_nat i = d !!! Z.to_nat i).
  { intros i Hi. unfold b. rewrite lookup_total_app_l; [done|lia]. }
  unfold read_block. f_equal.
  - rewrite <- (map_total d (block_len L (Z.of_nat j))) by done. apply map_ext_in. intros i Hi%list_elem_of_In%elem_of_range.
    apply list_lookup_total_correct. rewrite <- Hdb by done. destruct (Z.eqb_spec i (short_len L)) as [->|Hne].
    + apply long_lookup; try done. unfold block_len in Hi. destruct (Z.ltb_spec (Z.of_nat j) (short_blocks L)); lia.
    + apply data_lookup; try done. unfold block_len in Hi. destruct (_ <? _); lia.
  - rewrite <- (map_total e (ecc_len L)) by done. apply map_ext_in. intros i Hi%list_elem_of_In%elem_of_range.
    apply list_lookup_total_correct. rewrite (ecc_lookup L HL bs Hbs i j b Hi Hb). f_equal. unfold b, block_len in *.
    rewrite app_assoc, lookup_total_app_r; rewrite length_app; destruct (_ <? _); cbn [length]; try lia; f_equal; lia.
Qed.

Lemma read_interleaved : read_blocks L (interleaved L (padded L 0 ps)) = ps.
Proof.
  apply list_eq. intros j. unfold read_blocks. rewrite lookup_map. destruct (ps !! j) as [[d e]|] eqn:Hj.
  - pose proof (lookup_lt_Some _ _ _ Hj). rewrite range_lookup by lia. cbn [fmap option_fmap option_map]. f_equal. by apply read_block_padded.
  - apply lookup_ge_None in Hj. rewrite lookup_ge_None_2; [done|]. pose proof (range_length 0 (blocks L) ltac:(lia)). lia.
Qed.
End roundtrip.

(** A block read from a code: its error correction makes it a codeword. *)
Definition codeword (d e : list Z) : Prop :=
  bytes_ok d /\ bytes_ok e /\ forall i, (i < length e)%nat -> gf_eval (d ++ e) (gf_pow 2 i) = 0.

Lemma lookup_total_byte l i : bytes_ok l -> is_byte (l !!! i).
Proof. intros Hl. rewrite list_lookup_total_alt. destruct (l !! i) eqn:E; [by eapply Forall_lookup_1 in E|done]. Qed.

Lemma padded_bytes L ps : blocks_ok L codeword 0 ps -> Forall bytes_ok (padded L 0 ps).
Proof.
  intros Hok. apply Forall_lookup. intros k b Hb. pose proof (lookup_lt_Some _ _ _ Hb) as Hk. rewrite padded_length in Hk.
  destruct (lookup_lt_is_Some_2 ps k Hk) as [[d e] Hde]. rewrite (padded_lookup L ps 0 k d e Hde) in Hb. injection Hb as <-.
  destruct (Hok k d e Hde) as (_ & _ & Hd & He & _). apply Forall_app. split; [done|]. apply Forall_app. split; [|done].
  destruct (_ <? _); [by apply Forall_singleton|done].
Qed.

Lemma interleaved_bytes L bs : Forall bytes_ok bs -> bytes_ok (interleaved L bs).
Proof.
  intros Hbs. apply Forall_forall. intros c (i & _ & Hc)%elem_of_concat_map. unfold row in Hc.
  apply list_elem_of_fmap in Hc as (b & -> & Hb). apply lookup_total_byte. apply (proj1 (Forall_forall _ _) Hbs).
  destruct (_ =? _); [|done]. apply list_elem_of_In. apply list_elem_of_In in Hb.
  rewrite <- (take_drop (Z.to_nat (short_blocks L)) bs). apply in_or_app. by right.
Qed.

Lemma addEccAndInterleave_ok ver ecl dat : 1 <= ver < 41 -> bytes_ok dat -> Z.of_nat (length dat) = data_len (layout_of ver ecl) ->
  exists cw, addEccAndInterleave ver ecl dat = Ok cw /\ Z.of_nat (length cw) = total (layout_of ver ecl) /\ bytes_ok cw
    /\ concat (read_blocks (layout_of ver ecl) cw).*1 = dat
    /\ Forall (fun '(d, e) => Z.of_nat (length e) = eccPerBlock ecl ver /\ codeword d e) (read_blocks (layout_of ver ecl) cw).
Proof.
  intros Hv Hb Hlen. destruct (layout_spec ver ecl Hv) as (HL & (raw & Er & Et) & Ed). set (L := layout_of ver ecl) in *.
  pose proof (l_blocks L HL) as Hnb. pose proof (l_ecc L HL) as Hec. pose proof (l_short L HL) as Hsh. pose proof (l_short_blocks L HL) as Hsb.
  destruct (generator_spec (ecc_len L) ltac:(lia)) as (g & Eg & Hg).
  assert (Hgen : forall d, bytes_ok d -> exists e, reedSolomonComputeRemainder d g = Ok e /\ Z.of_nat (length e) = ecc_len L /\ codeword d e).
  { intros d Hd. destruct (Hg d Hd) as (e & E & Hle & Hbe & Hz). exists e. split; [done|]. split; [done|]. split; [done|]. split; [done|].
    intros i Hi. apply Hz. lia. }
  destruct (make_blocks_ok L HL g codeword Hgen dat Hb Hlen (Z.to_nat (blocks L)) 0 0) as (ps & Eb & Hps & Hc & Hok); [lia|lia|lia|].
  pose proof (padded_stored L HL codeword ps Hok) as Hst. assert (Hbs : Z.of_nat (length (padded L 0 ps)) = blocks L) by (rewrite padded_length; lia).
  exists (interleaved L (padded L 0 ps)). rewrite (read_interleaved L HL codeword) by (done || lia). split; [|split; [|split; [|split]]].
  - unfold addEccAndInterleave. rewrite Ed. cbn [mbind res_bind]. rewrite Hlen, Z.eqb_refl. cbn [negb]. rewrite Er. cbn [mbind res_bind].
    change (eccPerBlock ecl ver) with (ecc_len L). rewrite Eg. cbn [mbind res_bind]. rewrite <- Et.
    change (numEccBlocks ecl ver) with (blocks L). change (blocks L - total L mod blocks L) with (short_blocks L).
    replace (total L / blocks L) with (short_len L + ecc_len L) by (change (short_len L) with (total L / blocks L - ecc_len L); lia).
    rewrite Eb. cbn [mbind res_bind]. destruct (padded L 0 ps) as [|b bs] eqn:Ep; [cbn [length Z.of_nat] in Hbs; lia|].
    replace (short_len L + ecc_len L - ecc_len L) with (short_len L) by lia.
    pose proof Hst as [Hlb _]%Forall_cons. rewrite Hlb, rows_interleaved by done. done.
  - by apply interleaved_length.
  - by apply interleaved_bytes, padded_bytes.
  - exact Hc.
  - apply Forall_lookup. intros k [d e] Hk. destruct (Hok k d e Hk) as (_ & ? & ?). done.
Qed.
