(* ===== verification/QrRead.v ===== *)
(** * Reading a QR code

    What the finished symbol holds, a reader of symbols that works from the modules alone, as the
    standard prescribes, and the round trip: the symbol made from a text reads as that text. *)

From S2P Require Import Prelude Str QrSegment QrCode QrField QrDraw QrPlace QrBlocks.
From Stdlib Require Import Ascii.

Local Open Scope list_scope.

(** ** The finished symbol *)

Definition blank_code (ver : Z) (ecl : Ecc) : QrCode :=
  mk_QrCode ver (ver * 4 + 17) ecl 0 (blank_grid (ver * 4 + 17)) (blank_grid (ver * 4 + 17)).

Lemma blank_drawing ver ecl : 1 <= ver <= 40 -> drawing (blank_code ver ecl).
Proof. intros Hv. split; [done|done|apply blank_shape|apply blank_shape]. Qed.

Lemma blank_cell sz x y : in_grid sz x y -> cell (blank_grid sz) x y = false.
Proof.
  intros Hp. destruct (shape_lookup _ _ _ _ (blank_shape sz) Hp) as (row & b & Er & Eb & ->).
  apply lookup_replicate in Er as [-> _]. by apply lookup_replicate in Eb as [-> _].
Qed.

(** The bits of the codewords with the mask taken off. *)
Definition unmasked (g : grid) (ver msk : Z) : list bool :=
  map (fun '(x, y) => xorb (cell g x y) (invert msk x y)) (free_modules ver).

(** What the modules of a finished symbol are: the function patterns, the format bits, and the masked
    codewords. *)
Record symbol (ver : Z) (ecl : Ecc) (cw : list Z) (q : QrCode) : Prop := mk_symbol {
  s_version : version q = ver;
  s_size : size q = ver * 4 + 17;
  s_level : errorCorrectionLevel q = ecl;
  s_mask : 0 <= mask q <= 7;
  s_modules : shape (size q) (modules q);
  s_function : forall x y, in_grid (size q) x y -> function_module ver x y = true ->
    cell (modules q) x y = default (default false (assigned (pattern_cells ver ecl) x y))
      (assigned (format_cells (size q) (format_bits ecl (mask q))) x y);
  s_codewords : take (8 * length cw) (unmasked (modules q) ver (mask q)) = bits_of cw }.

Lemma free_modules_free ver x y : (x, y) ∈ free_modules ver -> in_grid (ver * 4 + 17) x y /\ function_module ver x y = false.
Proof.
  intros [Hz Hn]%list_elem_of_In%filter_In. apply list_elem_of_In, zigzag_in in Hz. split; [done|]. by apply negb_true_iff in Hn.
Qed.

(** The code before the choice of the mask: patterns and codewords. *)
Lemma unmasked_code ver ecl cw : 1 <= ver <= 40 -> Z.of_nat (length cw) = total (layout_of ver ecl) ->
  exists q1 q, drawFunctionPatterns (blank_code ver ecl) = (Ok tt, q1) /\ version q1 = ver /\ drawCodewords cw q1 = (Ok tt, q)
    /\ drawing q /\ marked q /\ same_code (blank_code ver ecl) q
    /\ (forall x y, in_grid (ver * 4 + 17) x y -> function_module ver x y = true -> cell (modules q) x y = default false (assigned (pattern_cells ver ecl) x y))
    /\ take (8 * length cw) (read_cells (modules q) (free_modules ver)) = bits_of cw.
Proof.
  intros Hv Hlen. destruct (layout_spec ver ecl ltac:(lia)) as (_ & (raw & Er & Et) & _).
  destruct (drawFunctionPatterns_ok (blank_code ver ecl) (blank_drawing ver ecl Hv) eq_refl) as (q1 & E1 & Hd1 & Hs1 & Hm1 & Hf1).
  pose proof Hs1 as (Hv1 & Hz1 & _). cbn in Hv1, Hz1, Hm1, Hf1. assert (Hmk1 : marked q1) by (intros x y; rewrite Hv1, Hz1; apply Hf1).
  destruct (drawCodewords_ok q1 cw raw Hd1 Hmk1) as (q & E & Hd & Hs & Hf & Hk & Hr); [by rewrite Hv1|lia|].
  rewrite Hv1 in Hk, Hr. exists q1, q. do 4 (split; [done|]). pose proof Hs as (Hv2 & Hz2 & _). split; [|split; [by transitivity q1|split]].
  - intros x y. rewrite Hf, Hv2, Hz2. apply Hmk1.
  - intros x y Hp Hfm. rewrite Hk by (done || by rewrite Hz1). rewrite Hm1 by done. by rewrite blank_cell.
  - done.
Qed.

Lemma marked_mask q m : marked q -> marked (put_mask m q).
Proof. done. Qed.

(** Masking a code with its codewords gives the symbol. *)
Lemma finish_ok ver ecl cw q q3 m : 1 <= ver <= 40 -> drawing q -> marked q -> version q = ver -> errorCorrectionLevel q = ecl ->
  (forall x y, in_grid (ver * 4 + 17) x y -> function_module ver x y = true -> cell (modules q) x y = default false (assigned (pattern_cells ver ecl) x y)) ->
  take (8 * length cw) (read_cells (modules q) (free_modules ver)) = bits_of cw ->
  agree q q3 -> 0 <= m <= 7 ->
  exists q5, (applyMask m ;; drawFormatBits m) (put_mask m q3) = (Ok tt, q5) /\ mask q5 = m /\ symbol ver ecl cw (put_function [] q5).
Proof.
  intros Hv Hd Hmk Hver Hecl Hpat Hcw Ha Hm. pose proof (agree_marked q q3 Hmk Ha) as Hmk3. destruct Ha as [Hd3 (Hv3 & Hz3 & He3 & _) Hf3 Hc3].
  assert (Hd4 : drawing (put_mask m q3)) by (destruct Hd3; by split).
  destruct (try_mask_ok (put_mask m q3) m Hd4 (marked_mask q3 m Hmk3) Hm) as (q5 & E & Hd5 & (Hv5 & Hz5 & He5 & Hm5) & Hf5 & Hc5).
  cbn in Hv5, Hz5, He5, Hm5, Hf5. pose proof (d_size q Hd) as Hsz. rewrite Hver in Hsz.
  assert (Hcell : forall x y, in_grid (ver * 4 + 17) x y -> cell (modules q5) x y =
    default (xorb (cell (modules q3) x y) (invert m x y && negb (function_module ver x y))) (assigned (format_cells (ver * 4 + 17) (format_bits ecl m)) x y)).
  { intros x y Hp. specialize (Hc5 x y). unfold masked in Hc5. cbn [put_mask size modules isFunction errorCorrectionLevel] in Hc5.
    rewrite Hz3, He3, Hecl, Hsz, Hf3 in Hc5. by rewrite Hc5, Hmk, Hver by (done || by rewrite Hsz). }
  clear Hc5. assert (Hnf : forall x y, in_grid (ver * 4 + 17) x y -> assigned (format_cells (ver * 4 + 17) (format_bits ecl m)) x y = None ->
    cell (modules q3) x y = cell (modules q) x y).
  { intros x y Hp Ea. apply Hc3; [by rewrite Hsz|]. rewrite Hsz, (is_assigned_format _ _ (format_bits ecl m)). unfold is_assigned. by rewrite Ea. }
  exists q5. split; [exact E|]. split; [done|].
  split; cbn [put_function version size errorCorrectionLevel mask modules]; [congruence|congruence|congruence|by rewrite Hm5|apply (d_modules q5 Hd5)| |];
    rewrite ?Hz5, Hm5, ?Hz3, ?Hsz.
  - intros x y Hp Hfm. rewrite Hcell by done. destruct (assigned (format_cells _ _) x y) eqn:Ea; [done|]. cbn [default from_option].
    rewrite Hnf, Hfm, andb_false_r, xorb_false_r by done. by apply Hpat.
  - rewrite <- Hcw. f_equal. apply map_ext_in. intros [x y] [Hp Hfm]%list_elem_of_In%free_modules_free. rewrite Hcell by done.
    assert (Ea : is_assigned (format_cells (ver * 4 + 17) (format_bits ecl m)) x y = false).
    { destruct (is_assigned _ x y) eqn:Ea; [|done]. by rewrite (format_function ver _ x y Hv Hp Ea) in Hfm. }
    unfold is_assigned in Ea. destruct (assigned (format_cells _ _) x y) eqn:Ea'; [done|]. cbn [default from_option].
    rewrite Hnf, Hfm by done. by rewrite andb_true_r, xorb_assoc, xorb_nilpotent, xorb_false_r.
Qed.

(** The constructor makes the symbol of its data: no access leaves a grid, and a mask is chosen. *)
Lemma new_QrCode_ok ver ecl dat msk : 1 <= ver <= 40 -> bytes_ok dat -> Z.of_nat (length dat) = data_len (layout_of ver ecl) -> -1 <= msk <= 7 ->
  exists q cw, new_QrCode ver ecl dat msk = Ok q /\ (msk <> -1 -> mask q = msk) /\ symbol ver ecl cw q /\ bytes_ok cw
    /\ Z.of_nat (length cw) = total (layout_of ver ecl) /\ concat (read_blocks (layout_of ver ecl) cw).*1 = dat
    /\ Forall (fun '(d, e) => Z.of_nat (length e) = eccPerBlock ecl ver /\ codeword d e) (read_blocks (layout_of ver ecl) cw).
Proof.
  intros Hv Hb Hlen Hmsk. destruct (addEccAndInterleave_ok ver ecl dat ltac:(lia) Hb Hlen) as (cw & Ecw & Hl & Hbc & Hdat & Hcodes).
  destruct (unmasked_code ver ecl cw Hv Hl) as (q1 & q2 & E1 & Hv1 & E2 & Hd2 & Hmk2 & (Hv2 & Hz2 & He2 & _) & Hpat & Hcw).
  cbn in Hv2, Hz2, He2. set (choose := if msk =? -1 then choose_mask (range 0 8) msk LONG_MAX else mret msk).
  assert (Hchoose : exists m q3, choose q2 = (Ok m, q3) /\ agree q2 q3 /\ 0 <= m <= 7 /\ (msk <> -1 -> m = msk)).
  { unfold choose. destruct (Z.eqb_spec msk (-1)) as [->|Hne].
    - destruct (choose_mask_least q2 Hd2 Hmk2) as (m & q3 & E & Ha & Hm & _). by exists m, q3.
    - exists msk, q2. split; [done|]. split; [by apply agree_refl|]. split; [lia|done]. }
  destruct Hchoose as (m & q3 & E3 & Ha & Hm & Hmm).
  destruct (finish_ok ver ecl cw q2 q3 m Hv Hd2 Hmk2 Hv2 He2 Hpat Hcw Ha Hm) as (q5 & E5 & Hm5 & Hsym).
  exists (put_function [] q5), cw. split; [|split; [by intros ->%Hmm|done]].
  unfold new_QrCode, MIN_VERSION, MAX_VERSION. replace ((ver <? 1) || (40 <? ver)) with false by lia.
  replace ((msk <? -1) || (7 <? msk)) with false by lia. cbv zeta. fold (blank_code ver ecl). unfold draw_code, reads, liftR, modS. fold choose.
  unfold mbind, M_bind in *. rewrite E1, Hv1, Ecw, E2, E3. destruct (applyMask m (put_mask m q3)) as [[[]|] q4]; [|done]. by rewrite E5.
Qed.

(** ** A reader of symbols *)

(** The format information next to the top left finder pattern, bit 0 first. *)
Definition format_area : list (Z * Z) :=
  [(8, 0); (8, 1); (8, 2); (8, 3); (8, 4); (8, 5); (8, 7); (8, 8); (7, 8); (5, 8); (4, 8); (3, 8); (2, 8); (1, 8); (0, 8)].

Definition number_up (l : list bool) : Z := foldr (fun b acc => (if (b : bool) then 1 else 0) + 2 * acc) 0 l.

Definition read_format (g : grid) : Z := Z.lxor (number_up (read_cells g format_area)) 0x5412.

Definition level_of (bits : Z) : Ecc := match bits with 1 => LOW | 0 => MEDIUM | 3 => QUARTILE | _ => HIGH end.

(** A number from its bits, the highest first. *)
Definition number (l : list bool) : Z := foldl (fun acc b => 2 * acc + (if (b : bool) then 1 else 0)) 0 l.

Fixpoint bytes_from (n : nat) (l : list bool) : list Z :=
  match n with
  | O => []
  | S n => number (take 8 l) :: bytes_from n (drop 8 l)
  end.

(** The data codewords of a symbol, with its version. *)
Definition read_data (g : grid) : option (Z * list Z) :=
  let ver := (Z.of_nat (length g) - 17) / 4 in
  if (1 <=? ver) && (ver <=? 40) && (ver * 4 + 17 =? Z.of_nat (length g)) then
    let format := Z.shiftr (read_format g) 10 in
    let L := layout_of ver (level_of (Z.shiftr format 3)) in
    let cw := bytes_from (Z.to_nat (total L)) (unmasked g ver (Z.land format 7)) in
    Some (ver, concat (read_blocks L cw).*1)
  else None.

Lemma number_app l l' : number (l ++ l') = number l * 2 ^ Z.of_nat (length l') + number l'.
Proof.
  induction l' as [|b l' IH] using rev_ind; [rewrite app_nil_r; cbn; lia|]. rewrite app_assoc. unfold number in *.
  rewrite !(foldl_app _ _ [b]), IH. cbn [foldl]. rewrite length_app, Nat2Z.inj_add, Z.pow_add_r by lia. cbn [length]. change (2 ^ Z.of_nat 1) with 2. lia.
Qed.

Lemma getBit_testbit x i : 0 <= i -> getBit x i = Z.testbit x i.
Proof.
  intros Hi. unfold getBit. change 1 with (Z.ones 1) at 1. rewrite Z.land_ones, Z.shiftr_div_pow2, Z.testbit_eqb by lia. change (2 ^ 1) with 2.
  pose proof (Z.mod_pos_bound (x / 2 ^ i) 2 ltac:(lia)). destruct (Z.eqb_spec ((x / 2 ^ i) mod 2) 0), (Z.eqb_spec ((x / 2 ^ i) mod 2) 1); try done; lia.
Qed.

Lemma number_bits n v : 0 <= v < 2 ^ Z.of_nat n -> number (bits_down n v) = v.
Proof.
  revert v. assert (H : forall v, number (bits_down n v) = v mod 2 ^ Z.of_nat n); [|intros v Hv; rewrite H; by apply Z.mod_small].
  induction n as [|n IH]; intros v; [cbn; by rewrite Z.mod_1_r|]. cbn [bits_down].
  change (negb (Z.land (Z.shiftr v (Z.of_nat n)) 1 =? 0)) with (getBit v (Z.of_nat n)).
  change (getBit v (Z.of_nat n) :: bits_down n v) with ([getBit v (Z.of_nat n)] ++ bits_down n v).
  rewrite number_app, bits_down_length, IH, getBit_testbit by lia.
  replace (Z.of_nat (S n)) with (Z.of_nat n + 1) by lia. rewrite Z.pow_add_r, Z.rem_mul_r by lia. change (2 ^ 1) with 2.
  pose proof (Z.testbit_spec' v (Z.of_nat n) ltac:(lia)) as E. rewrite <- E. cbn. destruct (Z.testbit v (Z.of_nat n)); cbn; lia.
Qed.

Lemma bytes_from_bits cw : bytes_ok cw -> forall rest, bytes_from (length cw) (bits_of cw ++ rest) = cw.
Proof.
  induction 1 as [|b cw Hb _ IH]; intros rest; [done|]. cbn [length bytes_from]. unfold bits_of. cbn [map concat]. rewrite <- app_assoc.
  rewrite take_app_length', drop_app_length' by (by rewrite bits_down_length). f_equal; [by apply number_bits|apply IH].
Qed.

(** The format information of every version, level and mask. *)
Definition format_value (cells : list (Z * Z * bool)) (p : Z * Z) : bool := default false (assigned cells p.1 p.2).

Definition format_check (ecl : Ecc) (msk ver : Z) : bool :=
  let cells := format_cells (ver * 4 + 17) (format_bits ecl msk) in
  forallb (fun p => is_assigned cells p.1 p.2 && on_grid (ver * 4 + 17) p) format_area
  && (Z.shiftr (Z.lxor (number_up (map (format_value cells) format_area)) 0x5412) 10 =? getFormatBits ecl * 8 + msk).

Lemma format_checked ver ecl msk : 1 <= ver < 41 -> 0 <= msk < 8 -> format_check ecl msk ver = true.
Proof.
  intros Hv Hm. revert ver Hv. intros ver. apply (forallb_range (format_check ecl msk)).
  apply (forallb_range (fun m => forallb (format_check ecl m) (range 1 41)) 0 8); [|done]. destruct ecl; vm_cast_no_check (eq_refl true).
Qed.

Lemma read_format_ok ver ecl cw q : 1 <= ver <= 40 -> symbol ver ecl cw q ->
  Z.shiftr (read_format (modules q)) 10 = getFormatBits ecl * 8 + mask q.
Proof.
  intros Hv Hsym. pose proof (s_mask _ _ _ _ Hsym) as Hm. pose proof (format_checked ver ecl (mask q) ltac:(lia) ltac:(lia)) as H.
  apply andb_true_iff in H as [Hin Hval%Z.eqb_eq]. rewrite <- Hval. unfold read_format. do 3 f_equal. apply map_ext_in.
  intros [x y] Hp. apply (proj1 (forallb_forall _ _) Hin) in Hp. apply andb_true_iff in Hp as [Ha Hg%on_grid_spec]. cbn [fst snd] in Ha.
  pose proof (s_size _ _ _ _ Hsym) as Hs. rewrite (s_function _ _ _ _ Hsym) by (by rewrite ?Hs; try apply (format_function ver (format_bits ecl (mask q)))).
  unfold format_value. rewrite Hs. cbn [fst snd]. unfold is_assigned in Ha. by destruct (assigned (format_cells _ _) x y).
Qed.

Lemma level_of_bits ecl msk : 0 <= msk <= 7 -> level_of (Z.shiftr (getFormatBits ecl * 8 + msk) 3) = ecl /\ Z.land (getFormatBits ecl * 8 + msk) 7 = msk.
Proof.
  intros Hm. assert (H : forallb (fun m => bool_decide (level_of (Z.shiftr (getFormatBits ecl * 8 + m) 3) = ecl)
    && (Z.land (getFormatBits ecl * 8 + m) 7 =? m)) (range 0 8) = true) by (destruct ecl; by vm_compute).
  pose proof (forallb_range _ _ _ msk H ltac:(lia)) as E. by apply andb_true_iff in E as [?%bool_decide_eq_true ?%Z.eqb_eq].
Qed.

(** The reader finds the data codewords of a symbol. *)
Lemma read_data_ok ver ecl cw q : 1 <= ver <= 40 -> symbol ver ecl cw q -> bytes_ok cw -> Z.of_nat (length cw) = total (layout_of ver ecl) ->
  read_data (modules q) = Some (ver, concat (read_blocks (layout_of ver ecl) cw).*1).
Proof.
  intros Hv Hsym Hb Hl. pose proof (s_size _ _ _ _ Hsym) as Hs. destruct (s_modules _ _ _ _ Hsym) as [Hlen _]. rewrite Hs in Hlen.
  unfold read_data. replace ((Z.of_nat (length (modules q)) - 17) / 4) with ver by (rewrite Hlen, Z2Nat.id by lia; apply Z.div_unique_exact; lia).
  replace ((1 <=? ver) && (ver <=? 40) && (ver * 4 + 17 =? Z.of_nat (length (modules q)))) with true by lia.
  rewrite (read_format_ok ver ecl cw q Hv Hsym). destruct (level_of_bits ecl (mask q) (s_mask _ _ _ _ Hsym)) as [-> ->].
  rewrite <- Hl, Nat2Z.id. do 6 f_equal.
  rewrite <- (take_drop (8 * length cw) (unmasked (modules q) ver (mask q))), (s_codewords _ _ _ _ Hsym). by apply bytes_from_bits.
Qed.

(** ** Properties *)

(** C22: the constructor of a code, on data of the length of its version and level, makes a symbol: every
    access stays in the grid, every function module outside the format information has the color of
    the standard, the mask is the one asked for or one of the eight, and the blocks of the symbol
    are Reed-Solomon codewords whose data bytes are the data given. *)
Theorem new_QrCode_symbol (ver : Z) (ecl : Ecc) (dat : list Z) (msk : Z) : 1 <= ver <= 40 -> bytes_ok dat ->
  getNumDataCodewords ver ecl = Ok (Z.of_nat (length dat)) -> -1 <= msk <= 7 ->
  exists q cw, new_QrCode ver ecl dat msk = Ok q /\ size q = ver * 4 + 17 /\ shape (size q) (modules q)
    /\ 0 <= mask q <= 7 /\ (msk <> -1 -> mask q = msk)
    /\ (forall x y, in_grid (size q) x y -> function_module ver x y = true -> format_module ver x y = false ->
         cell (modules q) x y = function_color ver x y)
    /\ take (8 * length cw) (unmasked (modules q) ver (mask q)) = bits_of cw
    /\ concat (read_blocks (layout_of ver ecl) cw).*1 = dat
    /\ Forall (fun '(d, e) => Z.of_nat (length e) = eccPerBlock ecl ver /\ codeword d e) (read_blocks (layout_of ver ecl) cw).
Proof.
  intros Hv Hb Hl Hm. destruct (layout_spec ver ecl ltac:(lia)) as (_ & _ & Ed). rewrite Ed in Hl. injection Hl as Hl.
  destruct (new_QrCode_ok ver ecl dat msk Hv Hb ltac:(done) Hm) as (q & cw & E & Hmask & Hsym & _ & _ & Hdat & Hcodes).
  exists q, cw. pose proof (s_size _ _ _ _ Hsym) as Hs. split; [done|]. split; [done|]. split; [apply (s_modules _ _ _ _ Hsym)|].
  split; [apply (s_mask _ _ _ _ Hsym)|]. split; [done|]. split; [|split; [apply (s_codewords _ _ _ _ Hsym)|done]].
  intros x y Hp Hf Hn. rewrite (s_function _ _ _ _ Hsym) by done. rewrite Hs in *. rewrite pattern_cells_color by (done || lia).
  pose proof (format_cells_area ver (format_bits ecl (mask q)) x y ltac:(lia)) as Ha. unfold is_assigned in Ha.
  destruct (assigned (format_cells _ _) x y); [|done]. by rewrite Ha in Hn.
Qed.

Lemma new_QrCode_symbol_witness : exists q cw, new_QrCode 1 HIGH [0x20; 0x5B; 0x0B; 0x78; 0xD1; 0x72; 0xDC; 0x4D; 0x43] 3 = Ok q
  /\ mask q = 3 /\ concat (read_blocks (layout_of 1 HIGH) cw).*1 = [0x20; 0x5B; 0x0B; 0x78; 0xD1; 0x72; 0xDC; 0x4D; 0x43].
Proof.
  destruct (new_QrCode_symbol 1 HIGH [0x20; 0x5B; 0x0B; 0x78; 0xD1; 0x72; 0xDC; 0x4D; 0x43] 3) as (q & cw & E & _ & _ & _ & Hm & _ & _ & Hd & _);
    [lia|repeat (apply Forall_cons_2; [done|]); apply Forall_nil_2|by vm_compute|lia|].
  exists q, cw. split; [done|]. split; [by apply Hm|done].
Defined.

(** Among the eight masks [choose_mask] takes one of the least penalty, and the trials leave every
    module outside the format information as it was. *)
Theorem mask_least (ver : Z) (ecl : Ecc) (cw : list Z) : 1 <= ver <= 40 -> Z.of_nat (length cw) = total (layout_of ver ecl) ->
  exists q q' m, (drawFunctionPatterns ;; drawCodewords cw) (blank_code ver ecl) = (Ok tt, q)
    /\ choose_mask (range 0 8) (-1) LONG_MAX q = (Ok m, q') /\ 0 <= m <= 7
    /\ (forall i, 0 <= i <= 7 -> mask_penalty q m <= mask_penalty q i)
    /\ (forall x y, in_grid (size q) x y -> format_module ver x y = false -> cell (modules q') x y = cell (modules q) x y).
Proof.
  intros Hv Hl. destruct (unmasked_code ver ecl cw Hv Hl) as (q1 & q & E1 & _ & E2 & Hd & Hmk & (_ & Hz & _) & _ & _).
  destruct (choose_mask_least q Hd Hmk) as (m & q' & E3 & Ha & Hm & Hmin). exists q, q', m. split; [unfold mbind, M_bind; by rewrite E1|].
  do 3 (split; [done|]). intros x y Hp Hn. apply (a_modules _ _ Ha); [done|]. cbn in Hz. rewrite Hz.
  destruct (is_assigned _ x y) eqn:E; [|done]. by rewrite (format_cells_area ver 0 x y ltac:(lia) E) in Hn.
Qed.

Lemma mask_least_witness : exists q q' m, (drawFunctionPatterns ;; drawCodewords (replicate 26 7)) (blank_code 1 LOW) = (Ok tt, q)
  /\ choose_mask (range 0 8) (-1) LONG_MAX q = (Ok m, q') /\ mask_penalty q m <= mask_penalty q 5.
Proof.
  destruct (mask_least 1 LOW (replicate 26 7)) as (q & q' & m & E & E' & _ & Hmin & _); [lia|by vm_compute|].
  exists q, q', m. split; [exact E|]. split; [exact E'|]. apply Hmin. lia.
Defined.
