(* ===== verification/QrText.v ===== *)
(** * From a text to a QR code and back

    The segments of a text, the bits of the segments, the choice of version and error correction
    level, and the theorem that the symbol of a text reads as the text. *)

From S2P Require Import Prelude Str QrSegment QrCode QrField QrDraw QrPlace QrBlocks QrRead.
From Stdlib Require Import Ascii.
From Stdlib Require String.

Local Open Scope list_scope.

(** ** Reading segments *)

(** Decimal digits: three in ten bits, then two in seven or one in four. *)
Fixpoint read_numeric (n : nat) (bits : list bool) : list Z :=
  match n with
  | O => []
  | 1%nat => [48 + number (take 4 bits)]
  | 2%nat => let v := number (take 7 bits) in [48 + v / 10; 48 + v mod 10]
  | S (S (S n)) => let v := number (take 10 bits) in 48 + v / 100 :: 48 + v / 10 mod 10 :: 48 + v mod 10 :: read_numeric n (drop 10 bits)
  end.

Definition numeric_bits (n : nat) : nat :=
  (10 * (n / 3) + match n mod 3 with O => 0 | 1 => 4 | _ => 7 end)%nat.

(** Pairs of characters in eleven bits, the last of an odd number in six. *)
Definition charset_code (i : Z) : Z := bytes_of ALPHANUMERIC_CHARSET !!! Z.to_nat i.

Fixpoint read_alphanumeric (n : nat) (bits : list bool) : list Z :=
  match n with
  | O => []
  | 1%nat => [charset_code (number (take 6 bits))]
  | S (S n) => let v := number (take 11 bits) in charset_code (v / 45) :: charset_code (v mod 45) :: read_alphanumeric n (drop 11 bits)
  end.

Definition alphanumeric_bits (n : nat) : nat := (11 * (n / 2) + 6 * (n mod 2))%nat.

(** Kanji characters in thirteen bits each, as the two bytes of their Shift JIS code. *)
Fixpoint read_kanji (n : nat) (bits : list bool) : list Z :=
  match n with
  | O => []
  | S n =>
      let v := number (take 13 bits) in
      let c := v / 192 * 256 + v mod 192 + (if v <? 31 * 192 then 0x8140 else 0xC140) in
      c / 256 :: c mod 256 :: read_kanji n (drop 13 bits)
  end.

(** Segments up to the terminator, or up to where there is no room for one. *)
Fixpoint read_segments (fuel : nat) (ver : Z) (bits : list bool) : option (list Z) :=
  match fuel with
  | O => None
  | S fuel =>
      if (length bits <? 4)%nat then Some []
      else
        let segment md (read : nat -> list bool -> list Z) (size : nat -> nat) :=
          let ccbits := Z.to_nat (numCharCountBits md ver) in
          let n := Z.to_nat (number (take ccbits (drop 4 bits))) in
          let body := drop ccbits (drop 4 bits) in
          rest ← read_segments fuel ver (drop (size n) body);
          Some (read n body ++ rest) in
        match number (take 4 bits) with
        | 0 => Some []
        | 1 => segment NUMERIC read_numeric numeric_bits
        | 2 => segment ALPHANUMERIC read_alphanumeric alphanumeric_bits
        | 4 => segment BYTE bytes_from (fun n => 8 * n)%nat
        | 8 => segment KANJI read_kanji (fun n => 13 * n)%nat
        | _ => None
        end
  end.

(** The text of a symbol. *)
Definition read_text (g : grid) : option (list Z) :=
  '(ver, dat) ← read_data g;
  read_segments (S (length dat)) ver (bits_of dat).

(** ** Writing segments *)

Lemma appendBits_ok v n bb : (n <= 31)%nat -> 0 <= v < 2 ^ Z.of_nat n -> appendBits v (Z.of_nat n) bb = Ok (bb ++ bits_down n v).
Proof.
  intros Hn Hv. unfold appendBits. rewrite Z.shiftr_div_pow2, Z.div_small by lia. cbn [Z.eqb negb].
  replace ((Z.of_nat n <? 0) || (31 <? Z.of_nat n) || false) with false by lia. by rewrite Nat2Z.id.
Qed.

Lemma take_bits n v rest : 0 <= v < 2 ^ Z.of_nat n -> number (take n (bits_down n v ++ rest)) = v.
Proof. intros Hv. rewrite take_app_length' by (by rewrite bits_down_length). by apply number_bits. Qed.

Lemma drop_bits n v rest : drop n (bits_down n v ++ rest) = rest.
Proof. by rewrite drop_app_length' by (by rewrite bits_down_length). Qed.

(** A segment of a text: what the count and the bits of the data are, and that the data reads as the text. *)
Record encodes (text : string) (md : Mode) (read : nat -> list bool -> list Z) (bits : nat -> nat) (seg : QrSegment) : Prop := mk_encodes {
  e_mode : mode seg = md;
  e_count : numChars seg = Z.of_nat (String.length text);
  e_size : length (data seg) = bits (String.length text);
  e_read : forall rest, read (String.length text) (data seg ++ rest) = bytes_of text }.

Lemma append_bytes_ok bs : bytes_ok bs -> forall bb, append_bytes bs bb = Ok (bb ++ bits_of bs).
Proof.
  induction 1 as [|b bs Hb _ IH]; intros bb; cbn [append_bytes]; [unfold bits_of; cbn; by rewrite app_nil_r|].
  rewrite (appendBits_ok b 8) by (done || lia). cbn [mbind res_bind]. rewrite IH. unfold bits_of. cbn [map concat]. by rewrite app_assoc.
Qed.


Lemma makeBytes_ok text : Z.of_nat (String.length text) <= INT_MAX ->
  exists seg, makeBytes (bytes_of text) = Ok seg /\ encodes text BYTE bytes_from (fun n => 8 * n)%nat seg.
Proof.
  intros Hl. unfold makeBytes. rewrite bytes_of_length, append_bytes_ok by apply bytes_of_ok.
  replace (INT_MAX <? Z.of_nat (String.length text)) with false by lia. cbn [mbind res_bind app]. rewrite s32_small by (unfold INT_MAX in *; lia).
  unfold new_QrSegment. replace (Z.of_nat (String.length text) <? 0) with false by lia. eexists. split; [done|]. split; cbn [mode numChars data].
  - done.
  - done.
  - by rewrite bits_of_length, bytes_of_length.
  - intros rest. rewrite <- bytes_of_length. apply bytes_from_bits, bytes_of_ok.
Qed.

Lemma increment_ok n : n < INT_MAX -> increment n = Ok (n + 1).
Proof. intros H. unfold increment. by destruct (Z.eqb_spec n INT_MAX); [lia|]. Qed.

Lemma u32_id z : 0 <= z < 2 ^ 32 -> u32 z = z.
Proof. intros H. unfold u32. by rewrite Z.mod_small. Qed.

Lemma digit_range c : is_digit c = true -> 0 <= code c - 48 <= 9.
Proof. unfold is_digit. lia. Qed.

(** The steps of the numeric loop. *)
Lemma numeric_step c text bb acc cnt cc : is_digit c = true -> cnt + 1 <> 3 -> cc < INT_MAX ->
  numeric_loop (String c text) bb acc cnt cc = numeric_loop text bb (acc * 10 + (code c - 48)) (cnt + 1) (cc + 1).
Proof.
  intros Hd Hc Hcc. cbn [numeric_loop]. rewrite Hd. cbn [negb]. destruct (Z.eqb_spec (cnt + 1) 3); [done|]. cbn [mbind res_bind].
  by rewrite increment_ok.
Qed.

Lemma numeric_flush c text bb acc cc : is_digit c = true -> 0 <= acc <= 99 -> cc < INT_MAX ->
  numeric_loop (String c text) bb acc 2 cc = numeric_loop text (bb ++ bits_down 10 (acc * 10 + (code c - 48))) 0 0 (cc + 1).
Proof.
  intros Hd Ha Hcc. pose proof (digit_range c Hd). cbn [numeric_loop]. rewrite Hd. cbn [negb]. change (2 + 1 =? 3) with true.
  rewrite u32_id, (appendBits_ok _ 10) by (cbn; lia). cbn [mbind res_bind]. by rewrite increment_ok.
Qed.

Lemma numeric_bits_three n : numeric_bits (S (S (S n))) = (10 + numeric_bits n)%nat.
Proof.
  unfold numeric_bits. replace (S (S (S n))) with (n + 1 * 3)%nat by lia. rewrite Nat.div_add, Nat.Div0.mod_add by lia. lia.
Qed.

(** What follows the loop in [makeNumeric]. *)
Definition numeric_end : BitBuffer * Z * Z * Z -> res QrSegment := fun '(bb, accumData, accumCount, charCount) =>
  bb ← (if 0 <? accumCount then appendBits (u32 accumData) (accumCount * 3 + 1) bb else Ok bb);
  new_QrSegment NUMERIC charCount bb.

Lemma digits3 a b c : 0 <= a <= 9 -> 0 <= b <= 9 -> 0 <= c <= 9 -> let v := a * 100 + b * 10 + c in
  0 <= v < 1000 /\ v / 100 = a /\ v / 10 mod 10 = b /\ v mod 10 = c.
Proof. intros Ha Hb Hc v. unfold v. split; [lia|]. split_and!; Z.div_mod_to_equations; lia. Qed.

Lemma split_base n a b : 0 <= b < n -> (a * n + b) / n = a /\ (a * n + b) mod n = b.
Proof. intros Hb. rewrite Z.add_comm, Z.div_add, Z.mod_add, Z.div_small, Z.mod_small by lia. lia. Qed.

Lemma numeric_loop_ok : forall text, isNumeric text = true -> forall bb cc, 0 <= cc -> cc + Z.of_nat (String.length text) <= INT_MAX ->
  exists payload, (numeric_loop text bb 0 0 cc ≫= numeric_end) = Ok (mk_QrSegment NUMERIC (cc + Z.of_nat (String.length text)) (bb ++ payload))
    /\ length payload = numeric_bits (String.length text)
    /\ forall rest, read_numeric (String.length text) (payload ++ rest) = bytes_of text.
Proof.
  unfold isNumeric. fix IH 1. intros text Ht bb cc Hcc Hl. destruct text as [|c1 [|c2 [|c3 text]]].
  - exists []. rewrite app_nil_r, Z.add_0_r. split; [|done]. cbn. unfold new_QrSegment. by replace (cc <? 0) with false by lia.
  - cbn in Ht. rewrite andb_true_r in Ht. pose proof (digit_range c1 Ht). exists (bits_down 4 (code c1 - 48)). cbn [String.length] in *.
    split; [|split; [done|]].
    + rewrite numeric_step by (done || lia). cbn [numeric_loop mbind res_bind numeric_end]. change (0 <? 0 + 1) with true.
      rewrite u32_id, (appendBits_ok _ 4) by (cbn; lia). cbn [mbind res_bind]. unfold new_QrSegment. by replace (cc + 1 <? 0) with false by lia.
    + intros rest. cbn [read_numeric bytes_of]. rewrite take_bits by (cbn; lia). f_equal. lia.
  - cbn in Ht. rewrite andb_true_r in Ht. apply andb_true_iff in Ht as [H1 H2]. pose proof (digit_range c1 H1). pose proof (digit_range c2 H2).
    exists (bits_down 7 ((code c1 - 48) * 10 + (code c2 - 48))). cbn [String.length] in *. split; [|split; [done|]].
    + rewrite !numeric_step by (done || lia). cbn [numeric_loop mbind res_bind numeric_end]. change (0 <? 0 + 1 + 1) with true. cbn [Z.mul Z.add].
      rewrite u32_id, (appendBits_ok _ 7) by (cbn; lia). cbn [mbind res_bind]. unfold new_QrSegment. replace (cc + 1 + 1 <? 0) with false by lia.
      do 2 f_equal. lia.
    + intros rest. cbn [read_numeric bytes_of]. rewrite take_bits by (cbn; lia).
      destruct (split_base 10 (code c1 - 48) (code c2 - 48)) as [-> ->]; [lia|]. f_equal; [|f_equal]; lia.
  - cbn [all_chars] in Ht. apply andb_true_iff in Ht as [H1 Ht]. apply andb_true_iff in Ht as [H2 Ht]. apply andb_true_iff in Ht as [H3 Ht].
    pose proof (digit_range c1 H1). pose proof (digit_range c2 H2). cbn [String.length] in *. rewrite !numeric_step by (done || lia).
    change (0 + 1 + 1) with 2. rewrite numeric_flush by (done || lia).
    replace (((0 * 10 + (code c1 - 48)) * 10 + (code c2 - 48)) * 10 + (code c3 - 48)) with ((code c1 - 48) * 100 + (code c2 - 48) * 10 + (code c3 - 48)) by lia.
    set (v := _ + _ + _). destruct (IH text Ht (bb ++ bits_down 10 v) (cc + 1 + 1 + 1)) as (payload & E & Hp & Hr); [lia|lia|].
    exists (bits_down 10 v ++ payload). split; [|split].
    + rewrite E, <- app_assoc. do 2 f_equal. lia.
    + by rewrite length_app, bits_down_length, numeric_bits_three, Hp.
    + intros rest. rewrite <- app_assoc. destruct (digits3 (code c1 - 48) (code c2 - 48) (code c3 - 48)) as (Hv & E1 & E2 & E3);
        [by apply digit_range..|]. fold v in Hv, E1, E2, E3. cbn [read_numeric bytes_of].
      rewrite take_bits, drop_bits, Hr, E1, E2, E3 by (cbn; lia). repeat f_equal; lia.
Qed.

Lemma makeNumeric_ok text : isNumeric text = true -> Z.of_nat (String.length text) <= INT_MAX ->
  exists seg, makeNumeric text = Ok seg /\ encodes text NUMERIC read_numeric numeric_bits seg.
Proof.
  intros Ht Hl. destruct (numeric_loop_ok text Ht [] 0) as (payload & E & Hp & Hr); [lia|lia|]. eexists. split; [exact E|]. by split.
Qed.

(** Alphanumeric texts. *)
Lemma index_range c i : alphanumeric_index c = Some i -> 0 <= i < 45 /\ charset_code i = code c.
Proof.
  intros H. unfold alphanumeric_index in H. apply fmap_Some in H as (k & Hk & ->). unfold charset_code. rewrite Nat2Z.id.
  assert (G : forall s k, find_char c s = Some k -> (k < String.length s)%nat /\ bytes_of s !!! k = code c).
  { induction s as [|d s IH]; intros j Hj; [done|]. cbn in Hj. destruct (Ascii.eqb_spec d c) as [->|]; [injection Hj as <-; cbn; split; [lia|done]|].
    apply fmap_Some in Hj as (j' & Hj' & ->). destruct (IH j' Hj') as [? E]. cbn. split; [lia|exact E]. }
  destruct (G _ _ Hk) as [Hlt ->]. change (String.length ALPHANUMERIC_CHARSET) with 45%nat in Hlt. lia.
Qed.

Lemma alphanumeric_step c i text bb acc cnt cc : alphanumeric_index c = Some i -> cnt + 1 <> 2 -> cc < INT_MAX ->
  alphanumeric_loop (String c text) bb acc cnt cc = alphanumeric_loop text bb (acc * 45 + i) (cnt + 1) (cc + 1).
Proof.
  intros Hi Hc Hcc. cbn [alphanumeric_loop]. rewrite Hi. destruct (Z.eqb_spec (cnt + 1) 2); [done|]. cbn [mbind res_bind]. by rewrite increment_ok.
Qed.

Lemma alphanumeric_flush c i text bb acc cc : alphanumeric_index c = Some i -> 0 <= acc < 45 -> cc < INT_MAX ->
  alphanumeric_loop (String c text) bb acc 1 cc = alphanumeric_loop text (bb ++ bits_down 11 (acc * 45 + i)) 0 0 (cc + 1).
Proof.
  intros Hi Ha Hcc. destruct (index_range c i Hi) as [? _]. cbn [alphanumeric_loop]. rewrite Hi. change (1 + 1 =? 2) with true.
  rewrite u32_id, (appendBits_ok _ 11) by (cbn; lia). cbn [mbind res_bind]. by rewrite increment_ok.
Qed.

Lemma alphanumeric_bits_two n : alphanumeric_bits (S (S n)) = (11 + alphanumeric_bits n)%nat.
Proof.
  unfold alphanumeric_bits. replace (S (S n)) with (n + 1 * 2)%nat by lia. rewrite Nat.div_add, Nat.Div0.mod_add by lia. lia.
Qed.

(** What follows the loop in [makeAlphanumeric]. *)
Definition alphanumeric_end : BitBuffer * Z * Z * Z -> res QrSegment := fun '(bb, accumData, accumCount, charCount) =>
  bb ← (if 0 <? accumCount then appendBits (u32 accumData) 6 bb else Ok bb);
  new_QrSegment ALPHANUMERIC charCount bb.

Lemma alphanumeric_char c text : isAlphanumeric (String c text) = true -> (exists i, alphanumeric_index c = Some i) /\ isAlphanumeric text = true.
Proof. unfold isAlphanumeric. cbn [all_chars]. intros [H1 H2]%andb_true_iff. split; [|done]. destruct (alphanumeric_index c); [eauto|done]. Qed.

Lemma alphanumeric_loop_ok : forall text, isAlphanumeric text = true -> forall bb cc, 0 <= cc -> cc + Z.of_nat (String.length text) <= INT_MAX ->
  exists payload, (alphanumeric_loop text bb 0 0 cc ≫= alphanumeric_end)
      = Ok (mk_QrSegment ALPHANUMERIC (cc + Z.of_nat (String.length text)) (bb ++ payload))
    /\ length payload = alphanumeric_bits (String.length text)
    /\ forall rest, read_alphanumeric (String.length text) (payload ++ rest) = bytes_of text.
Proof.
  fix IH 1. intros text Ht bb cc Hcc Hl. destruct text as [|c1 [|c2 text]].
  - exists []. rewrite app_nil_r, Z.add_0_r. split; [|done]. cbn. unfold new_QrSegment. by replace (cc <? 0) with false by lia.
  - apply alphanumeric_char in Ht as [[i Hi] _]. destruct (index_range c1 i Hi) as [Hr Hcode]. exists (bits_down 6 i). cbn [String.length] in *.
    split; [|split; [done|]].
    + rewrite (alphanumeric_step _ i) by (done || lia). cbn [alphanumeric_loop mbind res_bind alphanumeric_end]. change (0 <? 0 + 1) with true.
      rewrite u32_id, (appendBits_ok _ 6) by (cbn; lia). cbn [mbind res_bind]. unfold new_QrSegment. by replace (cc + 1 <? 0) with false by lia.
    + intros rest. cbn [read_alphanumeric bytes_of]. rewrite take_bits by (cbn; lia). by rewrite Hcode.
  - apply alphanumeric_char in Ht as [[i Hi] Ht]. apply alphanumeric_char in Ht as [[k Hk] Ht].
    destruct (index_range c1 i Hi) as [Hri Hci]. destruct (index_range c2 k Hk) as [Hrk Hck]. cbn [String.length] in *.
    rewrite (alphanumeric_step _ i) by (done || lia). change (0 + 1) with 1. rewrite (alphanumeric_flush _ k) by (done || lia).
    change (0 * 45 + i) with i. set (v := i * 45 + k).
    destruct (IH text Ht (bb ++ bits_down 11 v) (cc + 1 + 1)) as (payload & E & Hp & Hrd); [lia|lia|]. exists (bits_down 11 v ++ payload). split; [|split].
    + rewrite E, <- app_assoc. do 2 f_equal. lia.
    + by rewrite length_app, bits_down_length, alphanumeric_bits_two, Hp.
    + intros rest. rewrite <- app_assoc. cbn [read_alphanumeric bytes_of]. rewrite take_bits, drop_bits, Hrd by (unfold v; cbn; lia).
      unfold v. destruct (split_base 45 i k Hrk) as [-> ->]. by rewrite Hci, Hck.
Qed.

Lemma makeAlphanumeric_ok text : isAlphanumeric text = true -> Z.of_nat (String.length text) <= INT_MAX ->
  exists seg, makeAlphanumeric text = Ok seg /\ encodes text ALPHANUMERIC read_alphanumeric alphanumeric_bits seg.
Proof.
  intros Ht Hl. destruct (alphanumeric_loop_ok text Ht [] 0) as (payload & E & Hp & Hr); [lia|lia|]. eexists. split; [exact E|]. by split.
Qed.

(** ** The segments of a text *)

(** The modes of a text, how their data is read and how many bits it takes. *)
Inductive text_mode : Mode -> (nat -> list bool -> list Z) -> (nat -> nat) -> Prop :=
| numeric_mode : text_mode NUMERIC read_numeric numeric_bits
| alphanumeric_mode : text_mode ALPHANUMERIC read_alphanumeric alphanumeric_bits
| byte_mode : text_mode BYTE bytes_from (fun n => 8 * n)%nat.

Lemma makeSegments_ok text : Z.of_nat (String.length text) <= INT_MAX ->
  (text = EmptyString /\ makeSegments text = Ok [])
  \/ exists seg md read bits, makeSegments text = Ok [seg] /\ text_mode md read bits /\ encodes text md read bits seg.
Proof.
  intros Hl. unfold makeSegments. destruct text as [|c text]; [by left|]. right. cbn [str_empty].
  destruct (isNumeric _) eqn:En; [|destruct (isAlphanumeric _) eqn:Ea].
  - destruct (makeNumeric_ok _ En Hl) as (seg & -> & He). by eexists _, _, _, _; split; [|split; [apply numeric_mode|]].
  - destruct (makeAlphanumeric_ok _ Ea Hl) as (seg & -> & He). by eexists _, _, _, _; split; [|split; [apply alphanumeric_mode|]].
  - destruct (makeBytes_ok _ Hl) as (seg & -> & He). by eexists _, _, _, _; split; [|split; [apply byte_mode|]].
Qed.

(** ** The bits of segments *)

Definition segment_bits (ver : Z) (seg : QrSegment) : list bool :=
  bits_down 4 (modeBits (mode seg)) ++ bits_down (Z.to_nat (numCharCountBits (mode seg) ver)) (numChars seg) ++ data seg.

Definition stream (ver : Z) (segs : list QrSegment) : list bool := concat (map (segment_bits ver) segs).

Definition mode_ok (md : Mode) : Prop := 0 <= modeBits md < 16 /\ Forall (fun n => 0 <= n <= 16) (numBitsCharCount md).

Lemma count_bits_range md ver : mode_ok md -> 0 <= numCharCountBits md ver <= 16.
Proof.
  intros [_ H]. unfold numCharCountBits. rewrite list_lookup_total_alt. destruct (_ !! _) eqn:E; [exact (Forall_lookup_1 _ _ _ _ H E)|done].
Qed.

Definition segment_ok (seg : QrSegment) : Prop := mode_ok (mode seg) /\ 0 <= numChars seg.

(** The segments fit the counters of a version. *)
Definition counts_fit (ver : Z) (segs : list QrSegment) : Prop := Forall (fun seg => numChars seg < 2 ^ numCharCountBits (mode seg) ver) segs.

Lemma segment_bits_length ver seg : segment_ok seg ->
  Z.of_nat (length (segment_bits ver seg)) = 4 + numCharCountBits (mode seg) ver + Z.of_nat (length (data seg)).
Proof. intros [Hm _]. pose proof (count_bits_range (mode seg) ver Hm). unfold segment_bits. rewrite !length_app, !bits_down_length. lia. Qed.

Lemma total_bits_ok segs ver : Forall segment_ok segs -> forall r, 0 <= r <= INT_MAX ->
  total_bits_loop segs ver r <> -1 -> counts_fit ver segs /\ total_bits_loop segs ver r = r + Z.of_nat (length (stream ver segs)).
Proof.
  induction 1 as [|seg segs Hs _ IH]; intros r Hr Hu; cbn [total_bits_loop] in *; [split; [apply Forall_nil_2|cbn; lia]|].
  pose proof Hs as [Hm Hn]. pose proof (count_bits_range (mode seg) ver Hm) as Hcc. rewrite Z.shiftl_mul_pow2, Z.mul_1_l in * by lia.
  destruct (Z.leb_spec (2 ^ numCharCountBits (mode seg) ver) (numChars seg)); [done|]. destruct (Z.ltb_spec (INT_MAX - r) (4 + numCharCountBits (mode seg) ver)); [done|].
  destruct (Z.ltb_spec (INT_MAX - (r + (4 + numCharCountBits (mode seg) ver))) (Z.of_nat (length (data seg)))); [done|].
  destruct (IH (r + (4 + numCharCountBits (mode seg) ver) + Z.of_nat (length (data seg)))) as [Hf ->]; [lia|done|]. split; [by apply Forall_cons_2|].
  unfold stream. cbn [map concat]. rewrite length_app, Nat2Z.inj_add, segment_bits_length by done. lia.
Qed.

(** Conversely, what fits the counters and an [int] has its size. *)
Lemma total_bits_fit segs ver : Forall segment_ok segs -> counts_fit ver segs -> forall r, 0 <= r -> r + Z.of_nat (length (stream ver segs)) <= INT_MAX ->
  total_bits_loop segs ver r = r + Z.of_nat (length (stream ver segs)).
Proof.
  induction 1 as [|seg segs Hs _ IH]; intros Hf r Hr Hlen; [cbn; lia|]. apply Forall_cons in Hf as [Hc Hf]. unfold stream in *. cbn [map concat] in *.
  rewrite length_app, Nat2Z.inj_add, segment_bits_length in * by done. pose proof Hs as [Hm Hn]. pose proof (count_bits_range (mode seg) ver Hm).
  cbn [total_bits_loop]. rewrite Z.shiftl_mul_pow2, Z.mul_1_l by lia. replace (_ <=? numChars seg) with false by lia.
  replace (INT_MAX - r <? _) with false by lia. replace (INT_MAX - (r + _) <? _) with false by lia. rewrite IH by (done || lia). lia.
Qed.

Lemma concat_segments_ok ver segs : Forall segment_ok segs -> counts_fit ver segs -> forall bb, concat_segments segs ver bb = Ok (bb ++ stream ver segs).
Proof.
  induction 1 as [|seg segs [Hm Hn] _ IH]; intros Hf bb; cbn [concat_segments]; [unfold stream; cbn; by rewrite app_nil_r|].
  apply Forall_cons in Hf as [Hc Hf]. pose proof (count_bits_range (mode seg) ver Hm) as Hcc. destruct Hm as [Hb _].
  assert (2 ^ numCharCountBits (mode seg) ver <= 2 ^ 16) by (apply Z.pow_le_mono_r; lia).
  rewrite !u32_id by lia. rewrite (appendBits_ok _ 4) by (cbn; lia). cbn [mbind res_bind].
  replace (numCharCountBits (mode seg) ver) with (Z.of_nat (Z.to_nat (numCharCountBits (mode seg) ver))) at 1 by lia.
  rewrite appendBits_ok by (rewrite ?Z2Nat.id; lia). cbn [mbind res_bind]. rewrite IH by done. unfold stream, segment_bits. cbn [map concat].
  by rewrite <- !app_assoc.
Qed.

(** ** Padding *)

Lemma bits_down_mod n v k : bits_down n (v + k * 2 ^ Z.of_nat n) = bits_down n v.
Proof.
  assert (H : forall m, (m <= n)%nat -> bits_down m (v + k * 2 ^ Z.of_nat n) = bits_down m v); [|by apply H].
  induction m as [|m IH]; intros Hm; [done|]. cbn [bits_down]. f_equal; [|apply IH; lia]. fold (getBit (v + k * 2 ^ Z.of_nat n) (Z.of_nat m)).
  fold (getBit v (Z.of_nat m)). rewrite !getBit_testbit by lia. rewrite <- (Z.mod_pow2_bits_low _ (Z.of_nat n)) by lia.
  rewrite Z.mod_add by lia. by rewrite Z.mod_pow2_bits_low by lia.
Qed.

Lemma number_range l : 0 <= number l < 2 ^ Z.of_nat (length l).
Proof.
  induction l as [|b l IH]; [done|]. change (b :: l) with ([b] ++ l). rewrite number_app, length_app, Nat2Z.inj_add, Z.pow_add_r by lia.
  cbn [length]. change (2 ^ Z.of_nat 1) with 2. assert (0 <= number [b] <= 1) by (by destruct b). nia.
Qed.

Lemma bits_number l : bits_down (length l) (number l) = l.
Proof.
  induction l as [|b l IH]; [done|]. cbn [length bits_down]. fold (getBit (number (b :: l)) (Z.of_nat (length l))).
  pose proof (number_range l) as Hr. change (b :: l) with ([b] ++ l) at 1 2. rewrite number_app, (Z.add_comm _ (number l)), bits_down_mod, IH. f_equal.
  rewrite getBit_testbit by lia. rewrite Z.testbit_eqb, Z.div_add, Z.div_small by lia. by destruct b.
Qed.

Lemma pack_byte_number l : length l = 8%nat -> pack_byte 0 l 0 = number l.
Proof.
  intros Hl. do 8 (destruct l as [|[] l]; [done|..]); destruct l; done.
Qed.

Lemma pack_bytes_ok n : forall bb, length bb = (8 * n)%nat -> length (pack_bytes n bb) = n /\ bytes_ok (pack_bytes n bb) /\ bits_of (pack_bytes n bb) = bb.
Proof.
  induction n as [|n IH]; intros bb Hl; [destruct bb; [done|cbn in Hl; lia]|]. cbn [pack_bytes].
  assert (H8 : length (take 8 bb) = 8%nat) by (rewrite length_take; lia). rewrite pack_byte_number by done. destruct (IH (drop 8 bb)) as (E & Hb & Hbits); [rewrite length_drop; lia|].
  split; [cbn; by rewrite E|]. split.
  - apply Forall_cons_2; [|done]. pose proof (number_range (take 8 bb)) as Hr. by rewrite H8 in Hr.
  - unfold bits_of in *. cbn [map concat]. rewrite Hbits. rewrite <- H8 at 1. rewrite bits_number. apply take_drop.
Qed.

Lemma appendBits_zero n bb : 0 <= n <= 31 -> appendBits 0 n bb = Ok (bb ++ bits_down (Z.to_nat n) 0).
Proof. intros Hn. rewrite <- (Z2Nat.id n) at 1 by lia. apply appendBits_ok; lia. Qed.

Lemma pad_bytes_ok n : forall pad bb, pad = 0xEC \/ pad = 0x11 -> exists p, pad_bytes n pad bb = Ok (bb ++ p) /\ length p = (8 * n)%nat.
Proof.
  induction n as [|n IH]; intros pad bb Hp; cbn [pad_bytes]; [exists []; by rewrite app_nil_r|].
  rewrite (appendBits_ok pad 8) by (destruct Hp as [-> | ->]; cbn; lia). cbn [mbind res_bind].
  destruct (IH (Z.lxor pad (Z.lxor 0xEC 0x11)) (bb ++ bits_down 8 pad)) as (p & -> & Hl); [destruct Hp as [-> | ->]; auto|].
  exists (bits_down 8 pad ++ p). rewrite app_assoc. split; [done|]. rewrite length_app, bits_down_length. lia.
Qed.

(** Terminator and padding fill the codewords exactly. *)
Lemma data_codewords_ok n bb : 0 <= n -> Z.of_nat (length bb) <= n * 8 -> exists dat pad, data_codewords (n * 8) bb = Ok dat
  /\ Z.of_nat (length dat) = n /\ bytes_ok dat /\ bits_of dat = bb ++ bits_down (Z.to_nat (Z.min 4 (n * 8 - Z.of_nat (length bb)))) 0 ++ pad.
Proof.
  intros Hn Hl. unfold data_codewords. set (t := Z.min 4 (n * 8 - Z.of_nat (length bb))). assert (Ht : 0 <= t <= 4) by lia.
  rewrite appendBits_zero by lia. cbn [mbind res_bind]. set (bb1 := bb ++ _). assert (Hl1 : Z.of_nat (length bb1) = Z.of_nat (length bb) + t).
  { unfold bb1. rewrite length_app, bits_down_length. lia. }
  set (u := (8 - Z.of_nat (length bb1) mod 8) mod 8). assert (Hu : 0 <= u < 8 /\ (Z.of_nat (length bb1) + u) mod 8 = 0).
  { unfold u. Z.div_mod_to_equations. lia. }
  rewrite appendBits_zero by lia. cbn [mbind res_bind]. set (bb2 := bb1 ++ _). assert (Hl2 : Z.of_nat (length bb2) = Z.of_nat (length bb1) + u).
  { unfold bb2. rewrite length_app, bits_down_length. lia. }
  set (k := (n * 8 - Z.of_nat (length bb2) + 7) / 8). assert (Hk : 0 <= k /\ Z.of_nat (length bb2) + 8 * k = n * 8).
  { unfold k. destruct Hu as [? Hm]. rewrite <- Hl2 in Hm. assert (Z.of_nat (length bb1) <= n * 8) by lia. Z.div_mod_to_equations. lia. }
  destruct (pad_bytes_ok (Z.to_nat k) 0xEC bb2 (or_introl eq_refl)) as (p & -> & Hp). cbn [mbind res_bind].
  assert (Hall : length (bb2 ++ p) = (8 * Z.to_nat n)%nat) by (rewrite length_app; lia).
  replace (length (bb2 ++ p) / 8)%nat with (Z.to_nat n) by (rewrite Hall, Nat.mul_comm, Nat.div_mul; lia).
  destruct (pack_bytes_ok (Z.to_nat n) (bb2 ++ p) Hall) as (Hlen & Hb & Hbits). eexists _, (bits_down (Z.to_nat u) 0 ++ p). split; [done|].
  split; [lia|]. split; [done|]. rewrite Hbits. unfold bb2, bb1. by rewrite <- !app_assoc.
Qed.

(** ** Version and level *)

Definition capacity_bits (ver : Z) (ecl : Ecc) : Z := data_len (layout_of ver ecl) * 8.

(** The segments have a symbol of this version and level. *)
Definition fits (segs : list QrSegment) (ecl : Ecc) (ver : Z) : Prop := 0 <= getTotalBits segs ver <= capacity_bits ver ecl.

Lemma find_version_ok segs ecl : Forall segment_ok segs -> forall n ver, 1 <= ver -> ver + Z.of_nat n <= 40 ->
  (exists v, find_version n ver segs ecl = Ok (v, getTotalBits segs v) /\ ver <= v <= ver + Z.of_nat n /\ fits segs ecl v
     /\ forall w, ver <= w < v -> ~ fits segs ecl w)
  \/ (exists msg, find_version n ver segs ecl = Throw (length_error msg) /\ forall w, ver <= w <= ver + Z.of_nat n -> ~ fits segs ecl w).
Proof.
  intros Hs. assert (Hneg : forall w, getTotalBits segs w = -1 \/ 0 <= getTotalBits segs w).
  { intros w. destruct (Z.eq_dec (getTotalBits segs w) (-1)); [by left|right]. unfold getTotalBits in *.
    destruct (total_bits_ok segs w Hs 0) as [_ ->]; [unfold INT_MAX; lia|done|lia]. }
  induction n as [|n IH]; intros ver H1 H40; cbn [find_version]; destruct (layout_spec ver ecl ltac:(lia)) as (_ & _ & ->);
    cbn [mbind res_bind]; fold (capacity_bits ver ecl);
    destruct (negb (getTotalBits segs ver =? -1) && (getTotalBits segs ver <=? capacity_bits ver ecl)) eqn:Ec.
  - left. exists ver. split; [done|]. split; [lia|]. unfold fits. destruct (Hneg ver); split; try lia.
  - right. eexists. split; [done|]. intros w Hw. replace w with ver by lia. unfold fits. lia.
  - left. exists ver. split; [done|]. split; [lia|]. unfold fits. destruct (Hneg ver); split; try lia.
  - assert (Hv : ~ fits segs ecl ver) by (unfold fits; lia). destruct (IH (ver + 1)) as [(v & E & Hr & Hf & Hmin)|(msg & E & Hnone)]; [lia|lia| |].
    + left. exists v. split; [done|]. split; [lia|]. split; [done|]. intros w Hw. destruct (Z.eq_dec w ver) as [->|]; [done|]. apply Hmin. lia.
    + right. exists msg. split; [done|]. intros w Hw. destruct (Z.eq_dec w ver) as [->|]; [done|]. apply Hnone. lia.
Qed.

Definition rank (ecl : Ecc) : Z := match ecl with LOW => 0 | MEDIUM => 1 | QUARTILE => 2 | HIGH => 3 end.

(** A higher level leaves less room. *)
Lemma capacity_rank ver ecl ecl' : 1 <= ver <= 40 -> rank ecl <= rank ecl' -> capacity_bits ver ecl' <= capacity_bits ver ecl.
Proof.
  intros Hv Hr. assert (H : forallb (fun v => (capacity_bits v MEDIUM <=? capacity_bits v LOW) && (capacity_bits v QUARTILE <=? capacity_bits v MEDIUM)
    && (capacity_bits v HIGH <=? capacity_bits v QUARTILE)) (range 1 41) = true) by (by vm_compute).
  pose proof (forallb_range _ _ _ ver H ltac:(lia)) as E. apply andb_true_iff in E as [E ?%Z.leb_le]. apply andb_true_iff in E as [?%Z.leb_le ?%Z.leb_le].
  destruct ecl, ecl'; cbn in Hr; lia.
Qed.

(** With [boostEcl] the level is the highest the data fits in. *)
Lemma boost_ecl_ok ver used boost ecl : 1 <= ver <= 40 -> used <= capacity_bits ver ecl ->
  exists ecl', boost_ecl [MEDIUM; QUARTILE; HIGH] ver used boost ecl = Ok ecl' /\ used <= capacity_bits ver ecl' /\ rank ecl <= rank ecl'
    /\ (boost = false -> ecl' = ecl) /\ (boost = true -> forall e, rank ecl' < rank e -> capacity_bits ver e < used).
Proof.
  intros Hv Hu. cbn [boost_ecl]. destruct (layout_spec ver MEDIUM ltac:(lia)) as (_ & _ & ->). destruct (layout_spec ver QUARTILE ltac:(lia)) as (_ & _ & ->).
  destruct (layout_spec ver HIGH ltac:(lia)) as (_ & _ & ->). cbn [mbind res_bind]. fold (capacity_bits ver MEDIUM) (capacity_bits ver QUARTILE) (capacity_bits ver HIGH).
  pose proof (capacity_rank ver LOW MEDIUM Hv ltac:(cbn; lia)). pose proof (capacity_rank ver MEDIUM QUARTILE Hv ltac:(cbn; lia)).
  pose proof (capacity_rank ver QUARTILE HIGH Hv ltac:(cbn; lia)). eexists. split; [done|].
  destruct boost; cbn [andb]; [|split; [done|]; split; [lia|]; split; done].
  destruct (Z.leb_spec used (capacity_bits ver HIGH)), (Z.leb_spec used (capacity_bits ver QUARTILE)), (Z.leb_spec used (capacity_bits ver MEDIUM)); try lia;
    destruct ecl; cbn [rank]; try lia; (split; [lia|]); (split; [lia|]); (split; [done|]); intros _ [] He; cbn [rank] in He; lia.
Qed.

(** ** The symbol of segments *)

(** A code whose symbol holds the segments, with its version and level as they should be chosen. *)
Record holds (segs : list QrSegment) (ecl : Ecc) (minVersion : Z) (boost : bool) (q : QrCode) (dat : list Z) : Prop := mk_holds {
  h_version : minVersion <= version q;
  h_fits : fits segs ecl (version q);
  h_least : forall v, minVersion <= v < version q -> ~ fits segs ecl v;
  h_level : rank ecl <= rank (errorCorrectionLevel q);
  h_boost : boost = true -> forall e, rank (errorCorrectionLevel q) < rank e -> ~ fits segs e (version q);
  h_symbol : exists cw, symbol (version q) (errorCorrectionLevel q) cw q;
  h_read : read_data (modules q) = Some (version q, dat);
  h_bits : exists pad, bits_of dat = stream (version q) segs
    ++ bits_down (Z.to_nat (Z.min 4 (Z.of_nat (length dat) * 8 - Z.of_nat (length (stream (version q) segs))))) 0 ++ pad }.

Lemma encodeSegments_ok segs ecl minVersion maxVersion msk boost : Forall segment_ok segs -> 1 <= minVersion <= maxVersion -> maxVersion <= 40 -> -1 <= msk <= 7 ->
  (exists q dat, encodeSegments segs ecl minVersion maxVersion msk boost = Ok q /\ version q <= maxVersion /\ (msk <> -1 -> mask q = msk)
     /\ holds segs ecl minVersion boost q dat)
  \/ (exists msg, encodeSegments segs ecl minVersion maxVersion msk boost = Throw (length_error msg)
      /\ forall v, minVersion <= v <= maxVersion -> ~ fits segs ecl v).
Proof.
  intros Hs Hmin Hmax Hmsk. unfold encodeSegments, MIN_VERSION, MAX_VERSION.
  replace (negb _ || _ || _) with false by lia.
  destruct (find_version_ok segs ecl Hs (Z.to_nat (maxVersion - minVersion)) minVersion) as [(v & -> & Hv & Hf & Hleast)|(msg & -> & Hnone)]; [lia|lia| |].
  2:{ right. exists msg. split; [done|]. intros v Hv. apply Hnone. lia. }
  left. cbn [mbind res_bind]. pose proof Hf as [Hpos Hcap].
  destruct (boost_ecl_ok v (getTotalBits segs v) boost ecl ltac:(lia) Hcap) as (e & -> & Hcap' & Hrank & _ & Hbest). cbn [mbind res_bind].
  destruct (total_bits_ok segs v Hs 0) as [Hcounts Htotal]; [unfold INT_MAX; lia|unfold getTotalBits in Hpos; lia|].
  rewrite concat_segments_ok by done. cbn [mbind res_bind app]. destruct (layout_spec v e ltac:(lia)) as (HL & _ & ->). cbn [mbind res_bind].
  set (L := layout_of v e) in *. pose proof (l_short L HL). pose proof (l_blocks L HL). pose proof (l_short_blocks L HL).
  assert (Hd : 0 <= data_len L) by (unfold data_len; nia). unfold getTotalBits, capacity_bits in *. fold L in Hcap'.
  destruct (data_codewords_ok (data_len L) (stream v segs)) as (dat & pad & -> & Hlen & Hb & Hbits); [done|lia|]. cbn [mbind res_bind].
  destruct (new_QrCode_ok v e dat msk) as (q & cw & E & Hmask & Hsym & Hbc & Hlc & Hrd & _); [lia|done|done|done|].
  pose proof (s_version _ _ _ _ Hsym) as Ev. pose proof (s_level _ _ _ _ Hsym) as Ee. exists q, dat. split; [done|]. split; [lia|]. split; [done|].
  split; rewrite ?Ev, ?Ee; try done; try lia.
  - intros -> e' He [_ Hfe]. specialize (Hbest eq_refl e' He). unfold fits, capacity_bits, getTotalBits in *. lia.
  - by exists cw.
  - rewrite (read_data_ok v e cw q) by (done || lia). fold L in Hrd |- *. by rewrite Hrd.
  - exists pad. rewrite Hlen. exact Hbits.
Qed.

Lemma text_mode_ok md read bits : text_mode md read bits -> mode_ok md.
Proof. intros []; (split; [cbn; lia|]); repeat (apply Forall_cons_2; [lia|]); apply Forall_nil_2. Qed.

(** The end of the data: nothing, too little for a segment, or the terminator. *)
Lemma read_end fuel ver room pad : 0 <= room -> Z.of_nat (length (bits_down (Z.to_nat (Z.min 4 room)) 0 ++ pad)) = room ->
  read_segments (S fuel) ver (bits_down (Z.to_nat (Z.min 4 room)) 0 ++ pad) = Some [].
Proof.
  intros Hr Hl. cbn [read_segments]. destruct (Nat.ltb_spec (length (bits_down (Z.to_nat (Z.min 4 room)) 0 ++ pad)) 4); [done|].
  replace (Z.to_nat (Z.min 4 room)) with 4%nat by lia. by rewrite take_bits by done.
Qed.

(** The modes of a segment: those of a text, and Kanji. *)
Inductive segment_mode : Mode -> (nat -> list bool -> list Z) -> (nat -> nat) -> Prop :=
| of_text md read bits : text_mode md read bits -> segment_mode md read bits
| kanji_mode : segment_mode KANJI read_kanji (fun n => 13 * n)%nat.

Lemma segment_mode_ok md read bits : segment_mode md read bits -> mode_ok md.
Proof. intros []; [by eapply text_mode_ok|]. split; [cbn; lia|]. repeat (apply Forall_cons_2; [lia|]); apply Forall_nil_2. Qed.

(** A segment of [n] characters that is read as [out]. *)
Record reads_as (n : nat) (out : list Z) (seg : QrSegment) : Prop := mk_reads_as {
  r_mode : exists read bits, segment_mode (mode seg) read bits /\ length (data seg) = bits n
    /\ forall rest, read n (data seg ++ rest) = out;
  r_count : numChars seg = Z.of_nat n }.

Lemma text_reads_as text md read bits seg : text_mode md read bits -> encodes text md read bits seg ->
  reads_as (String.length text) (bytes_of text) seg.
Proof. intros Hmd [<- Ec Es Er]. split; [|done]. exists read, bits. split; [by apply of_text|done]. Qed.

Lemma reads_as_ok n out seg : reads_as n out seg -> segment_ok seg.
Proof. intros [(read & bits & Hm & _) Hc]. split; [by eapply segment_mode_ok|lia]. Qed.

(** One segment, and what follows. *)
Lemma read_segment fuel ver n out seg rest r : reads_as n out seg -> counts_fit ver [seg] ->
  read_segments fuel ver rest = Some r -> read_segments (S fuel) ver (segment_bits ver seg ++ rest) = Some (out ++ r).
Proof.
  intros [(read & bits & Hmd & Es & Er) Ec] Hc Hrest. apply Forall_cons in Hc as [Hc _]. pose proof (segment_mode_ok _ _ _ Hmd) as Hok.
  unfold segment_bits. rewrite Ec in Hc |- *. set (md := mode seg) in *.
  pose proof (count_bits_range md ver Hok) as Hcc. rewrite <- !app_assoc. set (cc := Z.to_nat (numCharCountBits md ver)).
  set (z := Z.of_nat n) in *. cbn [read_segments].
  assert (Hbound : 0 <= z < 2 ^ Z.of_nat cc) by (unfold cc; rewrite Z2Nat.id; lia).
  assert (Hbits : 0 <= modeBits md < 2 ^ Z.of_nat 4) by apply Hok.
  destruct (Nat.ltb_spec (length (bits_down 4 (modeBits md) ++ bits_down cc z ++ data seg ++ rest)) 4) as [Hlt|_];
    [rewrite length_app, bits_down_length in Hlt; lia|].
  rewrite take_bits, drop_bits by done. clearbody md.
  destruct Hmd as [md read bits []|]; cbn [modeBits NUMERIC ALPHANUMERIC BYTE KANJI]; fold cc; rewrite take_bits, drop_bits by done; unfold z;
    rewrite Nat2Z.id, Er, <- Es, drop_app_length, Hrest; done.
Qed.

Lemma segment_of_text text md read bits seg : text_mode md read bits -> encodes text md read bits seg -> segment_ok seg.
Proof. intros Hmd [Em Ec _ _]. split; [rewrite Em; by eapply text_mode_ok|lia]. Qed.

Lemma read_text_ok text ecl q dat segs : Z.of_nat (String.length text) <= INT_MAX -> makeSegments text = Ok segs -> holds segs ecl 1 true q dat ->
  read_text (modules q) = Some (bytes_of text).
Proof.
  intros Hl Hseg [_ [Hpos Hcap] _ _ _ _ Hr (pad & Hbits)]. unfold read_text. rewrite Hr. cbn [mbind option_bind].
  pose proof (bits_of_length dat) as Hlen. rewrite Hbits in Hlen |- *.
  destruct (makeSegments_ok text Hl) as [[-> E]|(seg & md & read & bits & E & Hmd & He)]; rewrite E in Hseg; injection Hseg as <-.
  - unfold stream in *. cbn [map concat app length] in *. apply read_end; [lia|]. lia.
  - assert (Hs : Forall segment_ok [seg]) by (apply Forall_singleton; by eapply segment_of_text).
    destruct (total_bits_ok [seg] (version q) Hs 0) as [Hc _]; [unfold INT_MAX; lia|unfold getTotalBits in Hpos; lia|].
    assert (Hst : stream (version q) [seg] = segment_bits (version q) seg) by (unfold stream; cbn [map concat]; apply app_nil_r). rewrite Hst in *.
    pose proof (segment_bits_length (version q) seg (proj1 (Forall_singleton _ _) Hs)) as Hsl.
    pose proof (count_bits_range (mode seg) (version q) (proj1 (proj1 (Forall_singleton _ _) Hs))).
    destruct dat as [|b dat]; [rewrite !length_app in Hlen; cbn in Hlen; lia|]. cbn [length].
    rewrite <- (app_nil_r (bytes_of text)). eapply read_segment; [by eapply text_reads_as|done|].
    rewrite length_app in Hlen. apply read_end; cbn [length] in *; lia.
Qed.

(** ** Several segments *)

Lemma count_bits_least md read bits ver : segment_mode md read bits -> 1 <= ver <= 40 -> 8 <= numCharCountBits md ver.
Proof.
  intros Hm Hv. assert (H : forallb (fun v => 8 <=? numCharCountBits md v) (range 1 41) = true) by (destruct Hm as [md read bits []|]; by vm_compute).
  pose proof (forallb_range _ _ _ ver H ltac:(lia)) as E. by apply Z.leb_le in E.
Qed.

Definition segments_read (segs : list QrSegment) (outs : list (list Z)) : Prop := Forall2 (fun seg out => exists n, reads_as n out seg) segs outs.

Lemma segments_read_ok segs outs : segments_read segs outs -> Forall segment_ok segs.
Proof. induction 1 as [|seg out segs outs [n Hr] _ IH]; [apply Forall_nil_2|]. apply Forall_cons_2; [by eapply reads_as_ok|done]. Qed.

Lemma read_many segs outs ver : segments_read segs outs -> counts_fit ver segs -> forall fuel rest r,
  read_segments fuel ver rest = Some r -> read_segments (length segs + fuel) ver (stream ver segs ++ rest) = Some (concat outs ++ r).
Proof.
  induction 1 as [|seg out segs outs [n Hr] _ IH]; intros Hc fuel rest r Hrest; [done|]. apply Forall_cons in Hc as [Hc Hcs].
  unfold stream. cbn [map concat length Nat.add]. rewrite <- !app_assoc. eapply read_segment; [done|by apply Forall_cons_2, Forall_nil_2|]. by apply IH.
Qed.

Lemma stream_length_least segs outs ver : segments_read segs outs -> 1 <= ver <= 40 -> (8 * length segs <= length (stream ver segs))%nat.
Proof.
  intros Hs Hv. induction Hs as [|seg out segs outs [n Hr] _ IH]; [done|]. unfold stream in *. cbn [map concat length]. rewrite length_app.
  pose proof (segment_bits_length ver seg (reads_as_ok _ _ _ Hr)) as Hl. destruct Hr as [(read & bits & Hm & _) _].
  pose proof (count_bits_least _ _ _ ver Hm Hv). lia.
Qed.

Lemma read_segments_text segs outs ecl minVersion boost q dat : segments_read segs outs -> 1 <= version q <= 40 -> holds segs ecl minVersion boost q dat ->
  read_text (modules q) = Some (concat outs).
Proof.
  intros Hs Hv [_ [Hpos Hcap] _ _ _ _ Hr (pad & Hbits)]. unfold read_text. rewrite Hr. cbn [mbind option_bind].
  pose proof (bits_of_length dat) as Hlen. rewrite Hbits in Hlen |- *. pose proof (segments_read_ok _ _ Hs) as Hok.
  destruct (total_bits_ok segs (version q) Hok 0) as [Hc _]; [unfold INT_MAX; lia|unfold getTotalBits in Hpos; lia|].
  pose proof (stream_length_least segs outs (version q) Hs Hv) as Hl. rewrite length_app in Hlen.
  replace (S (length dat)) with (length segs + S (length dat - length segs))%nat by lia. rewrite <- (app_nil_r (concat outs)).
  apply read_many; [done|done|]. apply read_end; lia.
Qed.

(** ** Texts *)

Lemma encodeText_ok text ecl : Z.of_nat (String.length text) <= INT_MAX ->
  exists segs, makeSegments text = Ok segs /\ Forall segment_ok segs
  /\ ((exists q dat, encodeText text ecl = Ok q /\ version q <= 40 /\ holds segs ecl 1 true q dat)
      \/ (exists msg, encodeText text ecl = Throw (length_error msg) /\ forall v, 1 <= v <= 40 -> ~ fits segs ecl v)).
Proof.
  intros Hl. assert (Hseg : exists segs, makeSegments text = Ok segs /\ Forall segment_ok segs).
  { destruct (makeSegments_ok text Hl) as [[_ E]|(seg & md & read & bits & E & Hmd & He)]; rewrite E; eexists; (split; [done|]); [apply Forall_nil_2|].
    apply Forall_singleton. by eapply segment_of_text. }
  destruct Hseg as (segs & E & Hs). exists segs. split; [done|]. split; [done|]. unfold encodeText. rewrite E. cbn [mbind res_bind].
  destruct (encodeSegments_ok segs ecl 1 40 (-1) true Hs) as [(q & dat & E' & Hv & _ & Hh)|(msg & E' & Hn)]; [lia..| |]; rewrite E'; eauto 6.
Qed.

Lemma text_bits_le md read bits n : text_mode md read bits -> (bits n <= 8 * n)%nat.
Proof.
  assert (n = 3 * (n / 3) + n mod 3)%nat as E3 by apply Nat.div_mod_eq. assert (n = 2 * (n / 2) + n mod 2)%nat as E2 by apply Nat.div_mod_eq.
  pose proof (Nat.mod_upper_bound n 2). intros []; [unfold numeric_bits|unfold alphanumeric_bits; lia|lia].
  destruct (n mod 3)%nat as [|[|k]]; lia.
Qed.

(** Short texts fit version 40 at every level. *)
Lemma short_fits text ecl segs : Z.of_nat (String.length text) <= 1273 -> makeSegments text = Ok segs -> fits segs ecl 40.
Proof.
  intros Hl E. assert (Hcap : 10208 <= capacity_bits 40 ecl) by (by destruct ecl; vm_compute).
  destruct (makeSegments_ok text) as [[_ E']|(seg & md & read & bits & E' & Hmd & He)]; [unfold INT_MAX; lia| |]; rewrite E' in E; injection E as <-.
  - unfold fits, getTotalBits. cbn [total_bits_loop]. lia.
  - pose proof (segment_of_text _ _ _ _ _ Hmd He) as Hok. destruct He as [Em Ec Es _]. pose proof (text_bits_le _ _ _ (String.length text) Hmd).
    assert (Hcc : 13 <= numCharCountBits md 40 <= 16) by (by destruct Hmd; vm_compute).
    assert (Hlen : Z.of_nat (length (stream 40 [seg])) = 4 + numCharCountBits md 40 + Z.of_nat (length (data seg))).
    { unfold stream. cbn [map concat]. rewrite app_nil_r, segment_bits_length by done. by rewrite Em. }
    unfold fits, getTotalBits. rewrite total_bits_fit; [lia|by apply Forall_singleton| |lia|unfold INT_MAX; lia].
    apply Forall_cons_2; [|apply Forall_nil_2]. rewrite Em, Ec. assert (2 ^ 13 <= 2 ^ numCharCountBits md 40) by (apply Z.pow_le_mono_r; lia). lia.
Qed.

Lemma encodeText_short text ecl : Z.of_nat (String.length text) <= 1273 -> exists q dat segs, encodeText text ecl = Ok q
  /\ makeSegments text = Ok segs /\ 1 <= version q <= 40 /\ holds segs ecl 1 true q dat.
Proof.
  intros Hl. destruct (encodeText_ok text ecl) as (segs & E & Hs & [(q & dat & Eq & Hv & Hh)|(msg & _ & Hn)]); [unfold INT_MAX; lia| |].
  - exists q, dat, segs. pose proof (h_version _ _ _ _ _ _ Hh). split; [done|]. split; [done|]. by split.
  - exfalso. apply (Hn 40); [lia|]. by apply (short_fits text).
Qed.

(** A text beyond the byte capacity of version 40 has no code. *)
Lemma encodeText_long text : isNumeric text = false -> isAlphanumeric text = false -> 2331 < Z.of_nat (String.length text) <= INT_MAX ->
  exists msg, encodeText text MEDIUM = Throw (length_error msg).
Proof.
  intros Hn Ha Hl. destruct (encodeText_ok text MEDIUM ltac:(lia)) as (segs & E & Hs & [(q & dat & _ & Hv & Hh)|(msg & Em & _)]); [|by exists msg].
  exfalso. destruct (makeBytes_ok text ltac:(lia)) as (seg & Eb & [Em Ec Es _]). unfold makeSegments in E. rewrite Hn, Ha, Eb in E.
  destruct text as [|c text]; [cbn in Hl; lia|]. cbn [str_empty mbind res_bind] in E. injection E as <-.
  pose proof (h_version _ _ _ _ _ _ Hh) as Hv1. destruct (h_fits _ _ _ _ _ _ Hh) as [Hpos Hcap]. unfold getTotalBits in *.
  destruct (total_bits_ok [seg] (version q) Hs 0) as [_ Ht]; [unfold INT_MAX; lia|lia|]. rewrite Ht in Hcap. unfold stream in Hcap. cbn [map concat] in Hcap.
  rewrite app_nil_r, segment_bits_length, Em in Hcap by (by apply Forall_cons in Hs as [? _]). rewrite Es in Hcap.
  assert (H : forallb (fun v => (capacity_bits v MEDIUM <? 18676) && ((capacity_bits v MEDIUM <? 18000) || (numCharCountBits BYTE v =? 16))) (range 1 41) = true)
    by (by vm_compute).
  pose proof (forallb_range _ _ _ (version q) H ltac:(lia)) as Hc. pose proof (count_bits_range BYTE (version q) (text_mode_ok _ _ _ byte_mode)). cbv beta in Hc. lia.
Qed.

(** A QR code made from a text reads as that text: a reader that works from the modules of the symbol
    alone, as the standard prescribes (version from the size, format information, mask, blocks, segments),
    gets the bytes of the text back; and when no symbol is made, the only exception is the
    [std::length_error] of data that fit no version. *)
Theorem qr_text_roundtrip (text : string) (ecl : Ecc) : Z.of_nat (String.length text) <= INT_MAX ->
  match encodeText text ecl with
  | Ok q => read_text (modules q) = Some (bytes_of text)
  | Throw e => (exists msg, e = length_error msg) /\ 1273 < Z.of_nat (String.length text)
  end.
Proof.
  intros Hl. destruct (encodeText_ok text ecl Hl) as (segs & E & Hs & [(q & dat & Eq & Hv & Hh)|(msg & Em & Hn)]).
  - rewrite Eq. by eapply read_text_ok.
  - rewrite Em. split; [eauto|]. destruct (Z.leb_spec (Z.of_nat (String.length text)) 1273) as [Hle|]; [|done].
    exfalso. apply (Hn 40); [lia|]. by apply (short_fits text).
Qed.

Lemma qr_text_roundtrip_witness : exists q, encodeText "otpauth://totp/cctv" MEDIUM = Ok q
  /\ read_text (modules q) = Some (bytes_of "otpauth://totp/cctv").
Proof.
  pose proof (qr_text_roundtrip "otpauth://totp/cctv" MEDIUM ltac:(vm_compute; discriminate)) as H.
  destruct (encodeText "otpauth://totp/cctv" MEDIUM) as [q|e]; [by exists q|]. exfalso. destruct H as [_ H]. cbn in H. lia.
Defined.

(** [encodeSegments] takes the least version of its range that has room for the segments at the
    level asked for, with [boostEcl] the highest level that still has room in that version, and the mask
    asked for; it throws, and only [std::length_error], exactly when no version of the range has room. *)
Theorem encodeSegments_choice (segs : list QrSegment) (ecl : Ecc) (minVersion maxVersion msk : Z) (boost : bool) :
  Forall segment_ok segs -> 1 <= minVersion <= maxVersion -> maxVersion <= 40 -> -1 <= msk <= 7 ->
  match encodeSegments segs ecl minVersion maxVersion msk boost with
  | Ok q => minVersion <= version q <= maxVersion /\ fits segs ecl (version q)
      /\ (forall v, minVersion <= v < version q -> ~ fits segs ecl v)
      /\ rank ecl <= rank (errorCorrectionLevel q)
      /\ (boost = true -> forall e, rank (errorCorrectionLevel q) < rank e -> ~ fits segs e (version q))
      /\ (msk <> -1 -> mask q = msk)
  | Throw e => (exists msg, e = length_error msg) /\ forall v, minVersion <= v <= maxVersion -> ~ fits segs ecl v
  end.
Proof.
  intros Hs Hmin Hmax Hmsk.
  destruct (encodeSegments_ok segs ecl minVersion maxVersion msk boost Hs Hmin Hmax Hmsk) as [(q & dat & E & Hv & Hm & Hh)|(msg & E & Hn)]; rewrite E.
  - destruct Hh. by split_and!.
  - split; [eauto|done].
Qed.

Lemma encodeSegments_choice_witness :
  (exists q, encodeSegments [mk_QrSegment NUMERIC 1 (bits_down 4 7)] LOW 1 40 2 true = Ok q /\ version q = 1 /\ mask q = 2)
  /\ exists msg, encodeSegments [mk_QrSegment BYTE 300 (replicate 2400 true)] HIGH 1 2 (-1) false = Throw (length_error msg).
Proof.
  split.
  - pose proof (encodeSegments_choice [mk_QrSegment NUMERIC 1 (bits_down 4 7)] LOW 1 40 2 true) as H.
    destruct (encodeSegments [mk_QrSegment NUMERIC 1 (bits_down 4 7)] LOW 1 40 2 true) as [q|e].
    + destruct H as (Hv & _ & Hl & _ & _ & Hm); [apply Forall_singleton; split; [split; [cbn; lia|]|cbn; lia]| | |lia|]; try lia.
      { cbn. repeat (apply Forall_cons_2; [lia|]). apply Forall_nil_2. }
      exists q. split; [done|]. split; [|by apply Hm]. destruct (Z.eq_dec (version q) 1); [done|]. exfalso. apply (Hl 1); [lia|]. by vm_compute.
    + exfalso. destruct H as [_ H]; [apply Forall_singleton; split; [split; [cbn; lia|]|cbn; lia]| | |lia|]; try lia.
      { cbn. repeat (apply Forall_cons_2; [lia|]). apply Forall_nil_2. }
      apply (H 1); [lia|]. by vm_compute.
  - pose proof (encodeSegments_choice [mk_QrSegment BYTE 300 (replicate 2400 true)] HIGH 1 2 (-1) false) as H.
    assert (Hs : Forall segment_ok [mk_QrSegment BYTE 300 (replicate 2400 true)]).
    { apply Forall_singleton. split; [split; [cbn; lia|]|cbn; lia]. cbn. repeat (apply Forall_cons_2; [lia|]). apply Forall_nil_2. }
    specialize (H Hs ltac:(lia) ltac:(lia) ltac:(lia)).
    destruct (encodeSegments _ HIGH 1 2 (-1) false) as [q|e]; [|destruct H as [[msg ->] _]; by exists msg]. exfalso.
    destruct H as (Hv & Hf & _). assert (version q = 1 \/ version q = 2) as [E|E] by lia; rewrite E in Hf; destruct Hf as [Hp _];
      vm_compute in Hp; by destruct Hp.
Defined.

(** C24: A symbol of several segments, of any of the four modes, reads as the texts of its segments one
    after the other, and has the mask asked for; no symbol is made exactly when the segments fit no
    version of the range. *)
Theorem qr_segments_roundtrip (segs : list QrSegment) (outs : list (list Z)) (ecl : Ecc) (minVersion maxVersion msk : Z) (boost : bool) :
  segments_read segs outs -> 1 <= minVersion <= maxVersion -> maxVersion <= 40 -> -1 <= msk <= 7 ->
  match encodeSegments segs ecl minVersion maxVersion msk boost with
  | Ok q => read_text (modules q) = Some (concat outs) /\ (msk <> -1 -> mask q = msk)
  | Throw e => (exists msg, e = length_error msg) /\ forall v, minVersion <= v <= maxVersion -> ~ fits segs ecl v
  end.
Proof.
  intros Hs Hmin Hmax Hm. pose proof (segments_read_ok _ _ Hs) as Hok.
  destruct (encodeSegments_ok segs ecl minVersion maxVersion msk boost Hok Hmin Hmax Hm) as [(q & dat & E & Hv & Hmask & Hh)|(msg & E & Hn)]; rewrite E.
  - split; [|done]. pose proof (h_version _ _ _ _ _ _ Hh). eapply read_segments_text; [done|lia|done].
  - split; [eauto|done].
Qed.

Lemma qr_segments_roundtrip_witness : exists q, encodeSegments
    [mk_QrSegment NUMERIC 2 (bits_down 7 42); mk_QrSegment ALPHANUMERIC 1 (bits_down 6 10); mk_QrSegment KANJI 1 (bits_down 13 0x0D9F)] LOW 1 40 5 true = Ok q
  /\ read_text (modules q) = Some [52; 50; 65; 0x93; 0x5F] /\ mask q = 5.
Proof.
  set (segs := [_; _; _]). pose proof (qr_segments_roundtrip segs [[52; 50]; [65]; [0x93; 0x5F]] LOW 1 40 5 true) as H.
  assert (Hs : segments_read segs [[52; 50]; [65]; [0x93; 0x5F]]).
  { repeat constructor; cbn [numChars mode data]; [exists 2%nat|exists 1%nat|exists 1%nat]; (split; [|done]); eexists _, _;
      (split; [first [apply of_text; constructor|constructor]|]); (split; [done|]); intros rest; reflexivity. }
  specialize (H Hs ltac:(lia) ltac:(lia) ltac:(lia)). destruct (encodeSegments segs LOW 1 40 5 true) as [q|e].
  - exists q. split; [done|]. split; [by apply H|]. by apply H.
  - exfalso. destruct H as [_ H]. apply (H 1); [lia|]. by vm_compute.
Defined.
