(* ===== verification/OtpUri.v ===== *)
(** * otp/otp_uri.cpp: otpauth URIs

    Percent-encoding and decoding, the parameter splitter, [OTP_URI] with its accessors, [parse] and
    [get_uri].  The signedness of [char], on which [urlencode] depends, is an argument: it is
    unsigned on the ARM boards the server runs on and signed on x86. *)

From S2P Require Import Prelude Str.
From Stdlib Require Import Ascii.
From Stdlib Require String.

Local Open Scope string_scope.
Local Open Scope Z_scope.

(** ** Percent-encoding *)

Definition h2d (c : ascii) : res Z :=
  if (48 <=? code c) && (code c <=? 57) then Ok (code c - 48)
  else if (97 <=? code c) && (code c <=? 102) then Ok (code c + 10 - 97)
  else if (65 <=? code c) && (code c <=? 70) then Ok (code c + 10 - 65)
  else Throw (logic_error "non-hex char").

(** The characters encoded besides the control characters; the first one is the double quote. *)
Definition to_test : string := String (chr 34) "<>#%@{}|\^~[]` ?&".

(** The value of a [char], signed or not. *)
Definition char_value (char_signed : bool) (c : ascii) : Z :=
  if char_signed && (128 <=? code c) then code c - 256 else code c.

(** A hexadecimal digit, lower case. *)
Definition hex_digit (d : Z) : ascii := if d <? 10 then chr (48 + d) else chr (87 + d).

(** What [urlencode] writes for one character. *)
Definition urlencode_char (char_signed : bool) (c : ascii) : string :=
  if (char_value char_signed c <? 0x20) || has_char c to_test
  then String "%" (String (hex_digit (Z.land (code c) 0xff / 16))
                     (String (hex_digit (Z.land (code c) 0xff mod 16)) ""))
  else String c "".

Fixpoint urlencode (char_signed : bool) (text : string) : string :=
  match text with
  | "" => ""
  | String c text => urlencode_char char_signed c +:+ urlencode char_signed text
  end.

Fixpoint urldecode (str : string) : res string :=
  match str with
  | "" => Ok ""
  | String c str =>
      if negb (Ascii.eqb c "%") then String c <$> urldecode str
      else match str with
           | String h (String l str) =>
               d1 ← h2d h; d2 ← h2d l;
               String (chr (Z.lor (Z.shiftl d1 4) d2)) <$> urldecode str
           | _ => Throw (logic_error "premature end")
           end
  end.

(** ** Parameters *)

(** What the loop does with the parameter found at [p]. *)
Definition get_param (p : nat) (param : string) (param_map : gmap string string)
    : res (gmap string string) :=
  match find_char_from "=" param p with
  | Some eqsign_in_param =>
      let key := str_take eqsign_in_param param in
      value ← urldecode (str_drop (eqsign_in_param + 1) param);
      match param_map !! key with
      | Some _ => Throw (logic_error "ambiguous parameter")
      | None => Ok (<[key := value]> param_map)
      end
  | None => Ok param_map
  end.

(** The [while (p < params_size)] loop of [get_params]. *)
Fixpoint get_params_loop (fuel : nat) (params : string) (p : nat)
    (param_map : gmap string string) : res (gmap string string) :=
  match fuel with
  | O => Ok param_map
  | S fuel =>
      if (p <? String.length params)%nat then
        let param :=
          match find_char_from "&" params p with
          | Some at_in_params => str_take (at_in_params - p) (str_drop p params)
          | None => str_drop p params
          end in
        param_map ← get_param p param param_map;
        get_params_loop fuel params (p + (String.length param + 1)) param_map
      else Ok param_map
  end.

(** Each round moves [p] on by at least one. *)
Definition get_params (params : string) : res (gmap string string) :=
  if str_empty params then Ok ∅
  else get_params_loop (S (String.length params)) params 0 ∅.

(** ** The URI *)

Record OTP_URI := mk_OTP_URI {
  m_type : string;
  m_account : string;
  m_secret : string;
  m_issuer : string;
  m_algorithm : string;
  m_digits : Z;
  m_counter : Z;
  m_period : Z }.

(** The default constructor. *)
Definition OTP_URI_default : OTP_URI := mk_OTP_URI "" "" "" "" "SHA1" 6 0 30.

Definition set_type (value : string) (u : OTP_URI) : OTP_URI :=
  mk_OTP_URI value (m_account u) (m_secret u) (m_issuer u) (m_algorithm u) (m_digits u) (m_counter u) (m_period u).
Definition set_account (value : string) (u : OTP_URI) : OTP_URI :=
  mk_OTP_URI (m_type u) value (m_secret u) (m_issuer u) (m_algorithm u) (m_digits u) (m_counter u) (m_period u).
Definition set_secret (value : string) (u : OTP_URI) : OTP_URI :=
  mk_OTP_URI (m_type u) (m_account u) value (m_issuer u) (m_algorithm u) (m_digits u) (m_counter u) (m_period u).
Definition set_issuer (value : string) (u : OTP_URI) : OTP_URI :=
  mk_OTP_URI (m_type u) (m_account u) (m_secret u) value (m_algorithm u) (m_digits u) (m_counter u) (m_period u).
Definition set_algorithm (value : string) (u : OTP_URI) : OTP_URI :=
  mk_OTP_URI (m_type u) (m_account u) (m_secret u) (m_issuer u) value (m_digits u) (m_counter u) (m_period u).
Definition set_digits (value : Z) (u : OTP_URI) : OTP_URI :=
  mk_OTP_URI (m_type u) (m_account u) (m_secret u) (m_issuer u) (m_algorithm u) value (m_counter u) (m_period u).
Definition set_counter (value : Z) (u : OTP_URI) : OTP_URI :=
  mk_OTP_URI (m_type u) (m_account u) (m_secret u) (m_issuer u) (m_algorithm u) (m_digits u) value (m_period u).
Definition set_period (value : Z) (u : OTP_URI) : OTP_URI :=
  mk_OTP_URI (m_type u) (m_account u) (m_secret u) (m_issuer u) (m_algorithm u) (m_digits u) (m_counter u) value.

(** The three groups of the regular expression: the scheme, then totp or hotp, then the characters
    up to the first question mark, then what dots match after it.  A dot matches anything but a line
    terminator, and the end is not anchored. *)
Fixpoint strip_prefix (pre s : string) : option string :=
  match pre, s with
  | "", _ => Some s
  | String a pre, String b s => if Ascii.eqb a b then strip_prefix pre s else None
  | String _ _, "" => None
  end.

Fixpoint dots (s : string) : string :=
  match s with
  | String c s => if (code c =? 10) || (code c =? 13) then "" else String c (dots s)
  | "" => ""
  end.

Definition match_type (s : string) : option (string * string) :=
  match strip_prefix "totp/" s with
  | Some s => Some ("totp", s)
  | None => (fun s => ("hotp", s)) <$> strip_prefix "hotp/" s
  end.

Definition match_uri (uri : string) : option (string * string * string) :=
  s ← strip_prefix "otpauth://" uri;
  '(ty, s) ← match_type s;
  q ← find_char "?" s;
  Some (ty, str_take q s, dots (str_drop (q + 1) s)).

(** [OTP_URI::parse]: the fields assigned before an exception stay assigned. *)
Definition parse (uri : string) : M OTP_URI unit :=
  match match_uri uri with
  | None => throwM (logic_error "uri not match")
  | Some (m1, m2, m3) =>
      modS (set_type m1) ;;
      label ← liftR (urldecode m2);
      match find_char ":" label with
      | None => modS (set_account label)
      | Some colon_in_label =>
          modS (set_issuer (str_take colon_in_label label)) ;;
          modS (set_account (str_drop (colon_in_label + 1) label))
      end ;;
      params ← liftR (get_params m3);
      match params !! "issuer" with
      | Some param_issuer =>
          u ← getS;
          (if negb (str_empty (m_issuer u)) && negb (String.eqb (m_issuer u) param_issuer)
           then throwM (logic_error "ambiguous issuer") else mret tt) ;;
          modS (set_issuer param_issuer)
      | None => mret tt
      end ;;
      match params !! "secret" with
      | None => throwM (logic_error "secret missing")
      | Some secret => modS (set_secret secret)
      end ;;
      match params !! "algorithm" with
      | Some a => modS (set_algorithm a)
      | None => mret tt
      end ;;
      match params !! "digits" with
      | Some d => n ← liftR (stoul d); modS (set_digits n)
      | None => mret tt
      end ;;
      match params !! "counter" with
      | Some c => n ← liftR (stoul c); modS (set_counter n)
      | None =>
          u ← getS;
          if String.eqb (m_type u) "hotp" then throwM (logic_error "missing counter") else mret tt
      end ;;
      match params !! "period" with
      | Some p => n ← liftR (stoul p); modS (set_period n)
      | None => mret tt
      end
  end.

(** The constructor from a URI. *)
Definition OTP_URI_of (uri : string) : res OTP_URI :=
  match parse uri OTP_URI_default with
  | (Ok _, u) => Ok u
  | (Throw e, _) => Throw e
  end.

Definition get_uri (char_signed : bool) (u : OTP_URI) : string :=
  if str_empty (m_issuer u) || str_empty (m_account u) || str_empty (m_type u) then ""
  else
    let cissuer := urlencode char_signed (m_issuer u) in
    let secret := urlencode char_signed (m_secret u) in
    let digest := urlencode char_signed (m_algorithm u) in
    let args := "?secret=" +:+ secret +:+ "&issuer=" +:+ cissuer +:+ "&algorithm=" +:+ digest
                +:+ "&digits=" +:+ to_string (m_digits u) in
    let args := if String.eqb (m_type u) "hotp"
                then args +:+ "&counter=" +:+ to_string (m_counter u) else args in
    let args := if String.eqb (m_type u) "totp"
                then args +:+ "&period=" +:+ to_string (m_period u) else args in
    "otpauth://" +:+ m_type u +:+ "/" +:+ cissuer +:+ ":" +:+ urlencode char_signed (m_account u) +:+ args.

(** ** Encoding and decoding *)

(** A character that may appear in the output: printable, and not one of [to_test] but [%]. *)
Definition url_safe (c : ascii) : bool :=
  (0x20 <? code c) && (Ascii.eqb c "%" || negb (has_char c to_test)).

(** The character itself, or a percent sign and two digits of its code. *)
Definition encodes (c : ascii) (s : string) : bool :=
  match s with
  | String x "" => Ascii.eqb x c && negb (Ascii.eqb x "%")
  | String x (String h (String l "")) =>
      Ascii.eqb x "%" &&
      match h2d h, h2d l with
      | Ok d1, Ok d2 => Ascii.eqb (chr (Z.lor (Z.shiftl d1 4) d2)) c
      | _, _ => false
      end
  | _ => false
  end.

Lemma urlencode_char_encodes b c : encodes c (urlencode_char b c) = true.
Proof. revert c. destruct b; apply (forall_ascii (fun c => encodes c _)); by vm_compute. Qed.

Lemma encodes_decodes c s t : encodes c s = true -> urldecode (s +:+ t) = String c <$> urldecode t.
Proof.
  destruct s as [|x [|h [|l [|]]]]; cbn [encodes]; try done; intros H; breflect.
  - destruct (Ascii.eqb_spec x c) as [->|]; [|done]. cbn. by apply negb_true_iff in H0 as ->.
  - destruct (Ascii.eqb_spec x "%") as [->|]; [|done]. cbn.
    destruct (h2d h), (h2d l); try done. cbn. by apply Ascii.eqb_eq in H0 as ->.
Qed.

Lemma urlencode_char_decodes b c t :
  urldecode (urlencode_char b c +:+ t) = String c <$> urldecode t.
Proof. apply encodes_decodes, urlencode_char_encodes. Qed.

Lemma urlencode_char_safe b c : all_chars url_safe (urlencode_char b c) = true.
Proof. revert c. destruct b; apply forall_ascii; by vm_compute. Qed.

Lemma urlencode_app b s t : urlencode b (s +:+ t) = urlencode b s +:+ urlencode b t.
Proof. induction s as [|c s IH]; cbn; [done|]. by rewrite IH, append_assoc. Qed.

Lemma urlencode_decodes b s t : urldecode (urlencode b s +:+ t) = String.append s <$> urldecode t.
Proof.
  induction s as [|c s IH]; cbn [urlencode].
  - cbn. by destruct (urldecode t).
  - rewrite append_assoc, urlencode_char_decodes, IH. by destruct (urldecode t).
Qed.

Lemma urldecode_urlencode b s : urldecode (urlencode b s) = Ok s.
Proof. rewrite <- (append_nil (urlencode b s)), urlencode_decodes. cbn. by rewrite append_nil. Qed.

Lemma urlencode_safe b s : all_chars url_safe (urlencode b s) = true.
Proof. induction s as [|c s IH]; cbn [urlencode]; [done|]. by rewrite all_chars_app, urlencode_char_safe. Qed.

(** Whether the text has an equals sign is not changed by encoding it. *)
Lemma urlencode_has_eq b s : has_char "=" (urlencode b s) = has_char "=" s.
Proof.
  induction s as [|c s IH]; cbn [urlencode]; [done|].
  rewrite has_char_app, IH, has_char_cons. f_equal.
  apply eqb_prop. revert c.
  destruct b; apply (forall_ascii (fun c => Bool.eqb (has_char "=" (urlencode_char _ c)) (Ascii.eqb c "=")));
    by vm_compute.
Qed.

Lemma urlencode_has_no b c s : url_safe c = false -> has_char c (urlencode b s) = false.
Proof. intros Hc. eapply all_chars_has_no; [done|apply urlencode_safe]. Qed.

(** ** Splitting into parameters *)

Fixpoint join_amp (params : list string) : string :=
  match params with
  | [] => ""
  | [param] => param
  | param :: params => param +:+ String "&" (join_amp params)
  end.

(** The parameters one after another, each with the position it starts at. *)
Fixpoint params_fold (p : nat) (params : list string) (param_map : gmap string string)
    : res (gmap string string) :=
  match params with
  | [] => Ok param_map
  | param :: params =>
      param_map ← get_param p param param_map;
      params_fold (p + (String.length param + 1)) params param_map
  end.

Lemma get_params_loop_end fuel params p m :
  (String.length params <= p)%nat -> get_params_loop fuel params p m = Ok m.
Proof. intros H. destruct fuel; cbn [get_params_loop]; [done|]. by destruct (Nat.ltb_spec p (String.length params)); [lia|]. Qed.

(** One round of the loop. *)
Lemma get_params_loop_step fuel params p m param rest :
  has_char "&" param = false -> str_drop p params = param +:+ String "&" rest ->
  get_params_loop (S fuel) params p m
  = m ← get_param p param m; get_params_loop fuel params (p + (String.length param + 1)) m.
Proof.
  intros Hn Hd. cbn [get_params_loop].
  pose proof (str_drop_length p params) as L. rewrite Hd, append_length in L. cbn in L.
  destruct (Nat.ltb_spec p (String.length params)); [|lia].
  rewrite (find_char_from_app _ _ _ _ _ Hn Hd), Hd.
  replace (p + String.length param - p)%nat with (String.length param) by lia.
  by rewrite str_take_app.
Qed.

Lemma get_params_loop_fold params : forall fuel p m ps,
  Forall (fun param => has_char "&" param = false) ps -> str_drop p params = join_amp ps ->
  (length ps < fuel)%nat -> get_params_loop fuel params p m = params_fold p ps m.
Proof.
  intros fuel p m ps. revert fuel p m.
  induction ps as [|param ps IH]; intros fuel p m Hn Hd Hf; (destruct fuel as [|fuel]; [lia|]).
  - apply get_params_loop_end. pose proof (str_drop_length p params). rewrite Hd in H. cbn in H. lia.
  - apply Forall_cons in Hn as [Hn1 Hn]. destruct ps as [|param' ps].
    + cbn [join_amp] in Hd. cbn [get_params_loop params_fold].
      pose proof (str_drop_length p params) as L. rewrite Hd in L.
      rewrite (find_char_from_none _ _ _ ltac:(by rewrite Hd)), Hd.
      destruct (Nat.ltb_spec p (String.length params)).
      * destruct (get_param p param m); [|done]. cbn [mbind res_bind]. by rewrite get_params_loop_end by lia.
      * destruct param; [|cbn in L; lia]. unfold get_param.
        by rewrite find_char_from_short by (cbn; lia).
    + cbn [join_amp] in Hd. rewrite (get_params_loop_step _ _ _ _ _ _ Hn1 Hd). cbn [params_fold].
      destruct (get_param p param m); [|done]. cbn [mbind res_bind]. apply IH; [done| |cbn in *; lia].
      rewrite str_drop_add, Hd, str_drop_add, str_drop_app. done.
Qed.

Lemma get_params_join ps : Forall (fun param => has_char "&" param = false) ps ->
  (length ps <= String.length (join_amp ps))%nat -> get_params (join_amp ps) = params_fold 0 ps ∅.
Proof.
  intros Hn Hl. unfold get_params. destruct (join_amp ps) as [|c s] eqn:E.
  - destruct ps as [|param ps]; [done|]. cbn in Hl. lia.
  - cbn [str_empty]. rewrite <- E in *. apply get_params_loop_fold; [done..|]. cbn. lia.
Qed.

(** The parameter at the start is read. *)
Lemma get_param_first name v x : has_char "=" name = false -> urldecode v = Ok x ->
  get_param 0 (name +:+ String "=" v) ∅ = Ok {[name := x]}.
Proof.
  intros Hn Hv. unfold get_param.
  rewrite (find_char_from_app "=" _ 0 name v Hn eq_refl). cbn [Nat.add].
  rewrite str_take_app, str_drop_add, str_drop_app. cbn [str_drop]. by rewrite Hv.
Qed.

(** A later one is skipped: the search for its equals sign starts behind it. *)
Lemma get_param_skip p name v m : (String.length name < p)%nat -> has_char "=" v = false ->
  get_param p (name +:+ String "=" v) m = Ok m.
Proof.
  intros Hp Hv. unfold get_param. rewrite find_char_from_none; [done|].
  replace p with (String.length name + S (p - String.length name - 1))%nat by lia.
  rewrite str_drop_add, str_drop_app. cbn [str_drop]. by apply has_char_drop.
Qed.

(** ** What is read back from a printed URI *)

Section printed.
Context (b : bool) (u : OTP_URI).

(** The parameters of the printed URI, with [last] the counter or the period. *)
Definition printed_params (last : string) : list string :=
  [ "secret" +:+ String "=" (urlencode b (m_secret u));
    "issuer" +:+ String "=" (urlencode b (m_issuer u));
    "algorithm" +:+ String "=" (urlencode b (m_algorithm u));
    "digits" +:+ String "=" (to_string (m_digits u)); last ].

Definition printed_label : string :=
  urlencode b (m_issuer u) +:+ String ":" (urlencode b (m_account u)).

Hypothesis digits_nonneg : 0 <= m_digits u.
Hypothesis issuer_ok : has_char "=" (m_issuer u) = false.
Hypothesis algorithm_ok : has_char "=" (m_algorithm u) = false.

Lemma no_char_digits c n : is_digit c = false -> 0 <= n -> has_char c (to_string n) = false.
Proof. intros Hc Hn. eapply all_chars_has_no; [done|]. by apply to_string_spec. Qed.

(** Of all the parameters, only the secret is read. *)
Lemma printed_params_read name n : 0 <= n -> has_char "&" name = false -> (String.length name < 20)%nat ->
  get_params (join_amp (printed_params (name +:+ String "=" (to_string n)))) = Ok {["secret" := m_secret u]}.
Proof.
  intros Hn Hname Hlen. rewrite get_params_join.
  - unfold printed_params. cbn [params_fold].
    rewrite (get_param_first "secret" _ _ eq_refl (urldecode_urlencode b (m_secret u))). cbn [mbind res_bind].
    rewrite !append_length. cbn [String.length].
    rewrite (get_param_skip _ "issuer") by (cbn [String.length]; lia || by rewrite urlencode_has_eq). cbn [mbind res_bind].
    rewrite (get_param_skip _ "algorithm") by (cbn [String.length]; lia || by rewrite urlencode_has_eq). cbn [mbind res_bind].
    rewrite (get_param_skip _ "digits") by (cbn [String.length]; lia || by rewrite no_char_digits). cbn [mbind res_bind].
    by rewrite (get_param_skip _ name) by (lia || by rewrite no_char_digits).
  - unfold printed_params. rewrite !Forall_cons. split_and!; try apply Forall_nil_2;
      rewrite has_char_app, !has_char_cons;
      rewrite ?urlencode_has_no, ?no_char_digits, ?Hname by done; done.
  - unfold printed_params. cbn [join_amp length].
    rewrite !append_length. cbn [String.length]. lia.
Qed.
End printed.

Lemma dots_id s : all_chars (fun c => negb ((code c =? 10) || (code c =? 13))) s = true -> dots s = s.
Proof.
  induction s as [|c s IH]; cbn [all_chars dots]; [done|]. intros H.
  apply andb_prop in H as [H1 H2]. apply negb_true_iff in H1 as ->. by rewrite IH.
Qed.

Lemma safe_dots s : all_chars url_safe s = true \/ all_chars is_digit s = true -> dots s = s.
Proof.
  intros H. apply dots_id. destruct H as [H|H]; (eapply all_chars_impl; [|exact H]);
    apply forall_ascii; by vm_compute.
Qed.

Lemma dots_app s t : dots s = s -> dots (s +:+ t) = s +:+ dots t.
Proof.
  induction s as [|c s IH]; cbn; [done|]. destruct ((code c =? 10) || (code c =? 13)); [done|].
  intros [= H]. by rewrite IH.
Qed.

Section read_back.
Context (b : bool) (u : OTP_URI).
Hypothesis digits_nonneg : 0 <= m_digits u.
Hypothesis issuer_ok : has_char "=" (m_issuer u) = false.
Hypothesis algorithm_ok : has_char "=" (m_algorithm u) = false.
Hypothesis issuer_label : has_char ":" (m_issuer u) = false.

Lemma dots_printed name n : 0 <= n -> dots name = name ->
  dots (join_amp (printed_params b u (name +:+ String "=" (to_string n))))
  = join_amp (printed_params b u (name +:+ String "=" (to_string n))).
Proof.
  intros Hn Hname. unfold printed_params. cbn [join_amp].
  assert (Hu : forall s, dots (urlencode b s) = urlencode b s).
  { intros s. apply safe_dots. left. apply urlencode_safe. }
  assert (Hd : forall n, 0 <= n -> dots (to_string n) = to_string n).
  { intros k Hk. apply safe_dots. right. by apply to_string_spec. }
  repeat first [ rewrite !append_assoc | rewrite dots_app by (done || apply Hu || by apply Hd)
               | rewrite append_cons | progress cbn [dots] | rewrite Hd by done
               | change (dots (String ?c ?s)) with (String c (dots s)) | f_equal ]; done.
Qed.

(** The regular expression on the printed URI. *)
Lemma match_printed ty rest : ty = "totp" \/ ty = "hotp" -> dots rest = rest ->
  match_uri ("otpauth://" +:+ ty +:+ "/" +:+ printed_label b u +:+ String "?" rest)
  = Some (ty, printed_label b u, rest).
Proof.
  intros Hty Hr. unfold match_uri.
  assert (Hl : has_char "?" (printed_label b u) = false).
  { unfold printed_label. by rewrite has_char_app, has_char_cons, !urlencode_has_no. }
  assert (Hm : match_type (ty +:+ "/" +:+ printed_label b u +:+ String "?" rest)
               = Some (ty, printed_label b u +:+ String "?" rest)) by (by destruct Hty as [->| ->]).
  change (strip_prefix "otpauth://" ("otpauth://" +:+ ?x)) with (Some x). cbn [mbind option_bind].
  rewrite Hm. cbn [mbind option_bind]. rewrite find_char_app by done. cbn [find_char].
  rewrite Ascii.eqb_refl. cbn [fmap option_fmap option_map mbind option_bind]. rewrite Nat.add_0_r.
  rewrite str_take_app, str_drop_add, str_drop_app. cbn [str_drop]. by rewrite Hr.
Qed.

Lemma printed_label_decodes : urldecode (printed_label b u) = Ok (m_issuer u +:+ String ":" (m_account u)).
Proof.
  unfold printed_label. rewrite urlencode_decodes. cbn [urldecode].
  change (negb (Ascii.eqb ":" "%")) with true. cbv iota. by rewrite urldecode_urlencode.
Qed.
(** The printed form, by type. *)
Lemma get_uri_printed ty name n :
  str_empty (m_issuer u) = false -> str_empty (m_account u) = false -> m_type u = ty ->
  (ty, name, n) = ("totp", "period", m_period u) \/ (ty, name, n) = ("hotp", "counter", m_counter u) ->
  get_uri b u = "otpauth://" +:+ ty +:+ "/" +:+ printed_label b u
    +:+ String "?" (join_amp (printed_params b u (name +:+ String "=" (to_string n)))).
Proof.
  intros Hi Ha Ht Hn. unfold get_uri, printed_label, printed_params. rewrite Hi, Ha, Ht. cbn [orb].
  destruct Hn as [[= -> -> ->]|[= -> -> ->]]; cbn [str_empty String.eqb join_amp].
  all: by repeat first [progress cbn -[urlencode to_string] | rewrite append_assoc].
Qed.
End read_back.

(** The state [parse] leaves when the secret is the only parameter that is found. *)
Lemma parse_printed b u ty rest :
  ty = "totp" \/ ty = "hotp" -> has_char ":" (m_issuer u) = false -> dots rest = rest ->
  get_params rest = Ok {["secret" := m_secret u]} ->
  OTP_URI_of ("otpauth://" +:+ ty +:+ "/" +:+ printed_label b u +:+ String "?" rest)
  = if String.eqb ty "hotp" then Throw (logic_error "missing counter")
    else Ok (mk_OTP_URI ty (m_account u) (m_secret u) (m_issuer u) "SHA1" 6 0 30).
Proof.
  intros Hty Hc Hr Hp. unfold OTP_URI_of, parse. rewrite match_printed by done.
  unfold mbind, M_bind, mret, M_ret, modS, liftR, getS, throwM. cbn [fst snd].
  rewrite printed_label_decodes, find_char_app by done. cbn [find_char].
  rewrite Ascii.eqb_refl. cbn [fmap option_fmap option_map]. rewrite Nat.add_0_r, Hp.
  rewrite str_take_app, str_drop_add, str_drop_app. cbn [str_drop].
  rewrite lookup_singleton_eq, !lookup_singleton_ne by done. cbn.
  by destruct Hty as [->| ->].
Qed.

Lemma read_back_totp b u :
  m_issuer u <> "" -> m_account u <> "" ->
  has_char ":" (m_issuer u) = false -> has_char "=" (m_issuer u) = false ->
  has_char "=" (m_algorithm u) = false -> 0 <= m_digits u -> 0 <= m_period u -> m_type u = "totp" ->
  OTP_URI_of (get_uri b u) = Ok (mk_OTP_URI "totp" (m_account u) (m_secret u) (m_issuer u) "SHA1" 6 0 30).
Proof.
  intros Hi Ha Hc He Hal Hd Hp Ht.
  assert (Hi' : str_empty (m_issuer u) = false) by (by destruct (m_issuer u)).
  assert (Ha' : str_empty (m_account u) = false) by (by destruct (m_account u)).
  rewrite (get_uri_printed _ _ "totp" "period" (m_period u)) by (done || by left).
  rewrite parse_printed; [done|by left|done|by apply dots_printed|].
  apply printed_params_read; try done. cbn. lia.
Qed.

(** Percent-encoding loses nothing and leaves nothing dangerous behind: whether [char] is
    signed or not, decoding gives the text back, and the encoded text has no control character and no
    character of the reserved list except the percent signs of its escapes. *)
Theorem urlencode_roundtrip (char_signed : bool) (text : string) :
  urldecode (urlencode char_signed text) = Ok text
  /\ all_chars url_safe (urlencode char_signed text) = true.
Proof. split; [apply urldecode_urlencode|apply urlencode_safe]. Qed.

(** Reading back a printed totp URI gives its type, account, issuer and secret; the algorithm,
    the number of digits and the period are not read, whatever they were: the result has SHA1, 6
    digits and 30 seconds.  A printed hotp URI is never read back, its counter is reported missing. *)
Theorem parse_get_uri (char_signed : bool) (u : OTP_URI) :
  m_issuer u <> "" -> m_account u <> "" ->
  has_char ":" (m_issuer u) = false -> has_char "=" (m_issuer u) = false ->
  has_char "=" (m_algorithm u) = false ->
  0 <= m_digits u -> 0 <= m_counter u -> 0 <= m_period u ->
  (m_type u = "totp" -> OTP_URI_of (get_uri char_signed u)
     = Ok (mk_OTP_URI "totp" (m_account u) (m_secret u) (m_issuer u) "SHA1" 6 0 30))
  /\ (m_type u = "hotp" ->
        OTP_URI_of (get_uri char_signed u) = Throw (logic_error "missing counter")).
Proof.
  intros Hi Ha Hc He Hal Hd Hcn Hp.
  assert (Hi' : str_empty (m_issuer u) = false) by (by destruct (m_issuer u)).
  assert (Ha' : str_empty (m_account u) = false) by (by destruct (m_account u)).
  split; intros Ht.
  - by apply read_back_totp.
  - rewrite (get_uri_printed _ _ "hotp" "counter" (m_counter u)) by (done || by right).
    rewrite parse_printed; [done|by right|done|by apply dots_printed|].
    apply printed_params_read; try done. cbn. lia.
Qed.

Lemma parse_get_uri_witness :
  let u := mk_OTP_URI "totp" "user@example" "JBSWY3DPEHPK3PXP" "CCTV server" "SHA256" 8 0 60 in
  OTP_URI_of (get_uri false u)
  = Ok (mk_OTP_URI "totp" "user@example" "JBSWY3DPEHPK3PXP" "CCTV server" "SHA1" 6 0 30).
Proof.
  intros u. apply (parse_get_uri false u); done.
Defined.
