(* ===== verification/Sha1.v ===== *)
(** * HMAC-SHA1, as an instance of the digest argument

    The program takes HMAC from OpenSSL, and the model takes it as an argument.  This file defines
    HMAC-SHA1 from FIPS 180-4 and RFC 2104, so that the theorems on codes are applied at a digest
    the server really uses, and evaluated on the published test values. *)

From S2P Require Import Prelude.

Definition rotl (x n : Z) : Z := u32 (Z.lor (Z.shiftl x n) (Z.shiftr x (32 - n))).

(** The message with a one bit, zeros and its length in bits, in blocks of 64 bytes. *)
Definition sha1_pad (m : list Z) : list Z :=
  let l := length m in
  m ++ [0x80] ++ replicate (Z.to_nat ((55 - Z.of_nat l) mod 64)) 0
    ++ map (fun k => 8 * Z.of_nat l / 2 ^ (8 * k) mod 256) [7; 6; 5; 4; 3; 2; 1; 0].

Definition be32 (bs : list Z) : Z := foldl (fun n b => 256 * n + b) 0 bs.

Fixpoint chunks (fuel n : nat) (l : list Z) : list (list Z) :=
  match fuel, l with
  | S fuel, _ :: _ => take n l :: chunks fuel n (drop n l)
  | _, _ => []
  end.

(** The message schedule, the latest word first. *)
Definition schedule_step (ws : list Z) : list Z :=
  rotl (Z.lxor (Z.lxor (ws !!! 2%nat) (ws !!! 7%nat)) (Z.lxor (ws !!! 13%nat) (ws !!! 15%nat))) 1 :: ws.

Definition schedule (block : list Z) : list Z :=
  rev (loop 64 schedule_step (rev (map be32 (chunks 16 4 block)))).

Definition round_f (t b c d : Z) : Z :=
  if t <? 20 then Z.lxor (Z.land b c) (Z.land (0xFFFFFFFF - b) d) + 0x5A827999
  else if t <? 40 then Z.lxor (Z.lxor b c) d + 0x6ED9EBA1
  else if t <? 60 then Z.lxor (Z.lxor (Z.land b c) (Z.land b d)) (Z.land c d) + 0x8F1BBCDC
  else Z.lxor (Z.lxor b c) d + 0xCA62C1D6.

Definition sha1_round (st : Z * (Z * Z * Z * Z * Z)) (w : Z) : Z * (Z * Z * Z * Z * Z) :=
  let '(t, (a, b, c, d, e)) := st in
  (t + 1, (u32 (rotl a 5 + round_f t b c d + e + w), a, rotl b 30, c, d)).

Definition sha1_block (h : Z * Z * Z * Z * Z) (block : list Z) : Z * Z * Z * Z * Z :=
  let '(h0, h1, h2, h3, h4) := h in
  let '(_, (a, b, c, d, e)) := foldl sha1_round (0, h) (schedule block) in
  (u32 (h0 + a), u32 (h1 + b), u32 (h2 + c), u32 (h3 + d), u32 (h4 + e)).

Definition word_bytes (w : Z) : list Z := map (fun k => w / 2 ^ (8 * k) mod 256) [3; 2; 1; 0].

Definition sha1 (m : list Z) : list Z :=
  let p := sha1_pad m in
  let '(a, b, c, d, e) :=
    foldl sha1_block (0x67452301, 0xEFCDAB89, 0x98BADCFE, 0x10325476, 0xC3D2E1F0)
      (chunks (length p) 64 p) in
  word_bytes a ++ word_bytes b ++ word_bytes c ++ word_bytes d ++ word_bytes e.

Definition hmac_sha1 (key m : list Z) : list Z :=
  let key := if (64 <? length key)%nat then sha1 key else key in
  let key := key ++ replicate (64 - length key) 0 in
  sha1 (map (Z.lxor 0x5c) key ++ sha1 (map (Z.lxor 0x36) key ++ m)).

Lemma word_bytes_ok w : length (word_bytes w) = 4%nat /\ bytes_ok (word_bytes w).
Proof. split; [done|]. repeat constructor; apply Z.mod_pos_bound; lia. Qed.

Lemma sha1_ok m : length (sha1 m) = 20%nat /\ bytes_ok (sha1 m).
Proof.
  unfold sha1. destruct (foldl _ _ _) as [[[[a b] c] d] e].
  split; [done|]. repeat apply Forall_app_2; apply word_bytes_ok.
Qed.

Lemma hmac_sha1_ok key m : length (hmac_sha1 key m) = 20%nat /\ bytes_ok (hmac_sha1 key m).
Proof. apply sha1_ok. Qed.

(** The digest of "abc" in FIPS 180-4. *)
Lemma sha1_abc : be32 (take 4 (sha1 [97; 98; 99])) = 0xA9993E36.
Proof. by vm_compute. Qed.
