(* ===== verification/Otp.v ===== *)
(** * otp/cotp.cpp: one-time passwords

    The class [OTP] and its subclasses [TOTP] and [HOTP]: construction, moves, the decoding of the
    secret, code generation and verification, and the URIs they build.  OpenSSL's HMAC is an argument.
    The references are RFC 4648 (Base32), RFC 4226 (HOTP) and RFC 6238 (TOTP). *)

From S2P Require Import Prelude Str OtpUri Sha1.
From Stdlib Require Import Ascii.
From Stdlib Require String.

Local Open Scope string_scope.
Local Open Scope Z_scope.

(** ** Data *)

Definition OTP_MIN_DIGITS : Z := 3.
Definition OTP_MAX_DIGITS : Z := 8.

Inductive OTP_type := T_OTP | T_TOTP | T_HOTP.

(** [OTP_algorithm_ptr]: the digest of a key and a message. *)
Definition OTP_algorithm : Type := list Z -> list Z -> res (list Z).

Record Algo_info := mk_Algo_info { name : string; algo : OTP_algorithm; bits : Z }.

Record OTP := mk_OTP {
  m_digits : Z;
  m_bits : Z;
  m_method : OTP_type;
  m_algo : OTP_algorithm;
  m_digest_algo_name : string;
  m_base32_secret : string;
  m_issuer : string;
  m_account : string }.

Record TOTP := mk_TOTP { totp_base : OTP; m_interval : Z }.
Record HOTP := mk_HOTP { hotp_base : OTP; m_counter : Z }.

Definition base32_chars : string := "ABCDEFGHIJKLMNOPQRSTUVWXYZ234567".

(** ** The algorithms *)

(** [hmac] around OpenSSL's [HMAC], which gives no result on failure. *)
Definition hmac (HMAC : string -> list Z -> list Z -> option (list Z)) (evp_md : string)
    (byte_secret byte_string : list Z) : res (list Z) :=
  match HMAC evp_md byte_secret byte_string with
  | Some hmac_result => Ok hmac_result
  | None => Throw (logic_error "hmac failed")
  end.

(** The initial [otp_algorithm_map]. *)
Definition otp_algorithm_map (HMAC : string -> list Z -> list Z -> option (list Z))
    : gmap string Algo_info :=
  list_to_map [
    ("SHA1", mk_Algo_info "SHA1" (hmac HMAC "sha1") 160);
    ("SHA256", mk_Algo_info "SHA256" (hmac HMAC "sha256") 256);
    ("SHA512", mk_Algo_info "SHA512" (hmac HMAC "sha512") 512) ].

(** [register_hmac_algo] on the map; a null function is [None]. *)
Definition register_hmac_algo (nm : string) (f : option OTP_algorithm) (nbits : Z)
    : M (gmap string Algo_info) bool :=
  match f with
  | Some f =>
      if str_empty nm || negb (nbits mod 8 =? 0)
      then throwM (logic_error "hmac algo registration failure")
      else map ← getS;
           match map !! nm with
           | None => modS (<[nm := mk_Algo_info nm f nbits]>) ;; mret true
           | Some _ => mret false
           end
  | None => throwM (logic_error "hmac algo registration failure")
  end.

(** ** Construction *)

Definition OTP_ctor (base32_secret : string) (nbits : Z) (f : option OTP_algorithm)
    (digest_algo_name : string) (digits : Z) : res OTP :=
  match f with
  | Some f =>
      if str_empty base32_secret || str_empty digest_algo_name || negb (nbits mod 8 =? 0)
         || (nbits <? 8 * (15 + 3 + 1)) || (digits <? OTP_MIN_DIGITS) || (OTP_MAX_DIGITS <? digits)
      then Throw (logic_error "otp invalid param")
      else Ok (mk_OTP digits nbits T_OTP f digest_algo_name base32_secret "" "")
  | None => Throw (logic_error "otp invalid param")
  end.

(** [otp_algorithm_map.at(algo)]. *)
Definition algo_at (map : gmap string Algo_info) (a : string) : res Algo_info :=
  match map !! a with Some i => Ok i | None => Throw (out_of_range "map::at") end.

Definition set_method (ty : OTP_type) (o : OTP) : OTP :=
  mk_OTP (m_digits o) (m_bits o) ty (m_algo o) (m_digest_algo_name o) (m_base32_secret o)
    (m_issuer o) (m_account o).
Definition set_issuer (value : string) (o : OTP) : OTP :=
  mk_OTP (m_digits o) (m_bits o) (m_method o) (m_algo o) (m_digest_algo_name o) (m_base32_secret o)
    value (m_account o).
Definition set_account (value : string) (o : OTP) : OTP :=
  mk_OTP (m_digits o) (m_bits o) (m_method o) (m_algo o) (m_digest_algo_name o) (m_base32_secret o)
    (m_issuer o) value.

(** The constructors of the subclasses, from an algorithm and from its name in the map. *)
Definition TOTP_ctor (secret : string) (nbits : Z) (f : option OTP_algorithm) (nm : string)
    (digits interval : Z) : res TOTP :=
  o ← OTP_ctor secret nbits f nm digits; Ok (mk_TOTP (set_method T_TOTP o) interval).

Definition TOTP_named (map : gmap string Algo_info) (secret a : string) (digits interval : Z)
    : res TOTP :=
  i ← algo_at map a; TOTP_ctor secret (bits i) (Some (algo i)) (name i) digits interval.

Definition HOTP_ctor (secret : string) (nbits : Z) (f : option OTP_algorithm) (nm : string)
    (digits : Z) : res HOTP :=
  o ← OTP_ctor secret nbits f nm digits; Ok (mk_HOTP (set_method T_HOTP o) 0).

Definition HOTP_named (map : gmap string Algo_info) (secret a : string) (digits : Z) : res HOTP :=
  i ← algo_at map a; HOTP_ctor secret (bits i) (Some (algo i)) (name i) digits.

(** [TOTP::create] and [HOTP::create]. *)
Definition TOTP_create (map : gmap string Algo_info) (uri : OTP_URI) : res TOTP :=
  t ← TOTP_named map (m_secret uri) (m_algorithm uri) (OtpUri.m_digits uri) (m_period uri);
  Ok (mk_TOTP (set_account (OtpUri.m_account uri) (set_issuer (OtpUri.m_issuer uri) (totp_base t)))
        (m_interval t)).

Definition HOTP_create (map : gmap string Algo_info) (uri : OTP_URI) : res HOTP :=
  h ← HOTP_named map (m_secret uri) (m_algorithm uri) (OtpUri.m_digits uri);
  Ok (mk_HOTP (set_account (OtpUri.m_account uri) (set_issuer (OtpUri.m_issuer uri) (hotp_base h)))
        (OtpUri.m_counter uri)).

(** [OTP::operator=(OTP&&)] on two different objects: (this, other) after it.  A string moved from
    is left empty, as the standard library in use does. *)
Definition OTP_move_assign (this other : OTP) : OTP * OTP :=
  ( mk_OTP (m_digits other) (m_bits other) (m_method other) (m_algo other)
      (m_digest_algo_name other) (m_base32_secret other) (m_issuer this) (m_account this),
    mk_OTP (m_digits other) (m_bits other) (m_method other) (m_algo other) "" ""
      (m_issuer other) (m_account other) ).

(** [TOTP(TOTP&&)]: the base is moved by its own constructor, and assigned once more.  [raw] is the
    new object before, with its strings empty and its other fields not initialised. *)
Definition TOTP_move (raw : TOTP) (other : TOTP) : TOTP * TOTP :=
  let '(this, rest) := OTP_move_assign (totp_base raw) (totp_base other) in
  let '(this, rest) := OTP_move_assign this rest in
  (mk_TOTP this (m_interval raw), mk_TOTP rest (m_interval other)).

Definition HOTP_move (raw : HOTP) (other : HOTP) : HOTP * HOTP :=
  let '(this, rest) := OTP_move_assign (hotp_base raw) (hotp_base other) in
  let '(this, rest) := OTP_move_assign this rest in
  (mk_HOTP this (m_counter raw), mk_HOTP rest (m_counter other)).

(** ** The key *)

(** The output vector while [byte_secret] fills it, and the accesses outside of the two buffers so
    far: undefined behaviour in C++.  A write outside is recorded and changes nothing here, a read
    outside is recorded and gives 0. *)
Inductive oob := oob_read (i : nat) | oob_write (i : nat).
Record key_state := mk_key { out_bytes : list Z; outside : list oob }.

Definition set_at (i : nat) (v : Z) (st : key_state) : key_state :=
  if (i <? length (out_bytes st))%nat then mk_key (<[i := u8 v]> (out_bytes st)) (outside st)
  else mk_key (out_bytes st) (outside st ++ [oob_write i]).

Definition or_at (i : nat) (v : Z) (st : key_state) : key_state :=
  if (i <? length (out_bytes st))%nat
  then mk_key (<[i := u8 (Z.lor (out_bytes st !!! i) v)]> (out_bytes st)) (outside st)
  else mk_key (out_bytes st) (outside st ++ [oob_write i]).

(** [m_base32_secret[j]]: the terminator may be read, what is behind it may not. *)
Definition secret_at (secret : list Z) (j : nat) (st : key_state) : Z * key_state :=
  if (j <? length secret)%nat then (secret !!! j, st)
  else if (j =? length secret)%nat then (0, st)
  else (0, mk_key (out_bytes st) (outside st ++ [oob_read j])).

(** The five bits of a character; [n] is kept for a character that is not Base32. *)
Definition base32_n (n c : Z) : Z :=
  let n := if (65 <=? c) && (c <=? 90) then c - 65 else n in
  if (50 <=? c) && (c <=? 55) then 26 + c - 50 else n.

(** The loop over the eight characters of group [i], from the given ones on: the final [n]. *)
Fixpoint secret_blocks (secret : list Z) (i : nat) (blocks : list Z) (n : Z) (st : key_state)
    : Z * key_state :=
  match blocks with
  | [] => (n, st)
  | block :: blocks =>
      let offset := 3 - (5 * block) mod 8 in
      let octet := Z.to_nat (block * 5 / 8) in
      let '(c, st) := secret_at secret (i * 8 + Z.to_nat block) st in
      let n := base32_n n c in
      if n <? 0 then (Z.of_nat octet, st)
      else
        let st := or_at (i * 5 + octet)
                    (if 0 <? - offset then Z.shiftr n (- offset) else Z.shiftl n offset) st in
        let st :=
          if offset <? 0
          then set_at (i * 5 + octet + 1)
                 (if 0 <? - (8 + offset) then Z.shiftr n (- (8 + offset)) else Z.shiftl n (8 + offset)) st
          else st in
        secret_blocks secret i blocks n st
  end.

(** The loop over the groups. *)
Fixpoint secret_groups (fuel : nat) (secret : list Z) (i : nat) (st : key_state) : key_state :=
  match fuel with
  | O => st
  | S fuel =>
      let st := set_at (i * 5) 0 st in
      let '(n, st) := secret_blocks secret i [0; 1; 2; 3; 4; 5; 6; 7] (-1) st in
      if n <? 5 then st else secret_groups fuel secret (S i) st
  end.

(** [OTP::byte_secret].  A group whose first character is past the end of the secret ends the loop,
    so one group more than the secret has is enough. *)
Definition byte_secret (base32_secret : string) : key_state :=
  let secret := bytes_of base32_secret in
  secret_groups (length secret / 8 + 2) secret 0 (mk_key (replicate (length secret * 5 / 8) 0) []).

(** [OTP::to_bytes]: the four low bytes, big-endian, behind four zeros. *)
Definition to_bytes (value : Z) : list Z :=
  snd (foldl (fun '(value, out) i => (Z.shiftr value 8, <[i := Z.land value 0xff]> out))
         (value, replicate 8 0) [7%nat; 6%nat; 5%nat; 4%nat]).

(** [OTP::random_base32], [rands] the successive values of [rand()]. *)
Definition random_base32 (len : Z) (rands : nat -> Z) : string :=
  let len := if 0 <? len then len else 16 in
  string_of (map (fun i => bytes_of base32_chars !!! Z.to_nat (rands i mod 32)) (List.seq 0 (Z.to_nat len))).

(** ** Codes *)

(** [while (s.size() < m_digits) s = "0" + s]. *)
Fixpoint pad_zeros (fuel : nat) (digits : Z) (s : string) : string :=
  match fuel with
  | O => s
  | S fuel =>
      if Z.of_nat (String.length s) <? digits then pad_zeros fuel digits (String "0" s) else s
  end.

Definition pad (digits : Z) (s : string) : string := pad_zeros (Z.to_nat digits) digits s.

(** The 31 bits of the digest at the offset its last byte gives. *)
Definition truncate (v_hmac : list Z) : Z :=
  let offset := Z.to_nat (Z.land (v_hmac !!! (length v_hmac - 1)%nat) 0xF) in
  Z.lor (Z.lor (Z.lor
    (Z.shiftl (Z.land (v_hmac !!! offset) 0x7F) 24)
    (Z.shiftl (Z.land (v_hmac !!! (offset + 1)%nat) 0xFF) 16))
    (Z.shiftl (Z.land (v_hmac !!! (offset + 2)%nat) 0xFF) 8))
    (Z.land (v_hmac !!! (offset + 3)%nat) 0xFF).

Definition generate (o : OTP) (input : Z) : res string :=
  let v_byte_string := to_bytes input in
  let v_byte_secret := out_bytes (byte_secret (m_base32_secret o)) in
  v_hmac ← m_algo o v_byte_secret v_byte_string;
  if negb (Z.of_nat (length v_hmac) =? m_bits o / 8) then Throw (logic_error "hmac size mismatch")
  else
    let code := truncate v_hmac mod 10 ^ m_digits o in
    Ok (pad (m_digits o) (to_string code)).

(** ** TOTP *)

(** [int timecode(uint64_t)]; the intervals here are not zero. *)
Definition timecode (t : TOTP) (for_time : Z) : Z := s32 (for_time / m_interval t).

(** [timecode] is converted to 64 bits and the offset added modulo [2 ^ 64]. *)
Definition code_at (t : TOTP) (for_time counter_offset : Z) : res string :=
  generate (totp_base t) (u64 (u64 (timecode t for_time) + counter_offset)).

Definition compare (t : TOTP) (key : string) (increment for_time : Z) : res bool :=
  time_str ← code_at t for_time increment; Ok (String.eqb key time_str).

(** The window loop [for (int i = -valid_window; i < (int)valid_window; i++)]. *)
Fixpoint verify_window (t : TOTP) (key : string) (for_time : Z) (steps : list Z) : res bool :=
  match steps with
  | [] => Ok false
  | i :: steps =>
      found ← compare t key (u64 i) for_time;
      if (found : bool) then Ok true else verify_window t key for_time steps
  end.

(** The integers from [a] up to [b], [b] not included. *)
Definition range (a b : Z) : list Z := map (fun k => a + Z.of_nat k) (List.seq 0 (Z.to_nat (b - a))).

Definition verify (t : TOTP) (key : string) (for_time valid_window : Z) : res bool :=
  if 0 <? valid_window
  then verify_window t key for_time (range (s32 (- valid_window)) (s32 valid_window))
  else compare t key 0 for_time.

(** [verify(uint64_t, ...)]. *)
Definition verify_int (t : TOTP) (key for_time valid_window : Z) : res bool :=
  verify t (pad (m_digits (totp_base t)) (to_string key)) for_time valid_window.

Definition valid_until (t : TOTP) (for_time valid_window : Z) : Z :=
  u32 (u64 (u64 (for_time / m_interval t + 1 + valid_window) * m_interval t)).

Definition seconds_to_next_code (t : TOTP) (for_time : Z) : Z :=
  u32 (m_interval t - for_time mod m_interval t).

(** ** HOTP *)

Definition hotp_code_at (h : HOTP) (counter : Z) : res string := generate (hotp_base h) counter.
Definition hotp_code (h : HOTP) : res string := generate (hotp_base h) (m_counter h).

Definition hotp_compare (h : HOTP) (key : string) : res bool :=
  c ← hotp_code_at h (m_counter h); Ok (String.eqb key c).

Definition hotp_verify (h : HOTP) (key : string) : res bool := hotp_compare h key.

(** [verify(uint64_t)]: the number is not padded. *)
Definition hotp_verify_int (h : HOTP) (key : Z) : res bool := hotp_compare h (to_string key).

(** ** URIs *)

Definition build_uri (char_signed : bool) (o : OTP) (otp_type : string)
    (additional_args : gmap string string) : res string :=
  let uri := OTP_URI_default in
  let uri := set_type otp_type uri in
  let uri := OtpUri.set_account (m_account o) uri in
  let uri := set_secret (m_base32_secret o) uri in
  let uri := OtpUri.set_issuer (m_issuer o) uri in
  let uri := set_algorithm (m_digest_algo_name o) uri in
  let uri := set_digits (m_digits o) uri in
  uri ← match additional_args !! "counter" with
        | Some c => n ← stoul c; Ok (set_counter n uri)
        | None => Ok uri
        end;
  uri ← match additional_args !! "period" with
        | Some p => n ← stoul p; Ok (set_counter n uri)
        | None => Ok uri
        end;
  Ok (get_uri char_signed uri).

Definition totp_build_uri (char_signed : bool) (t : TOTP) : res string :=
  build_uri char_signed (totp_base t) "totp" {["period" := to_string (m_interval t)]}.

Definition hotp_build_uri (char_signed : bool) (h : HOTP) : res string :=
  build_uri char_signed (hotp_base h) "hotp" {["counter" := to_string (m_counter h)]}.

(** ** References: Base32, HOTP and TOTP *)

(** The value of a Base32 character. *)
Definition base32_value (c : Z) : option Z :=
  if (65 <=? c) && (c <=? 90) then Some (c - 65)
  else if (50 <=? c) && (c <=? 55) then Some (c - 24) else None.

Fixpoint base32_values (cs : list Z) : option (list Z) :=
  match cs with
  | [] => Some []
  | c :: cs => v ← base32_value c; vs ← base32_values cs; Some (v :: vs)
  end.

(** The five bytes of a group of eight values, the most significant first. *)
Definition base32_group (vs : list Z) : list Z :=
  let n := foldl (fun n v => 32 * n + v) 0 vs in
  [n / 2 ^ 32; n / 2 ^ 24 mod 256; n / 2 ^ 16 mod 256; n / 2 ^ 8 mod 256; n mod 256].

(** A well-formed secret: groups of eight characters of the alphabet, given by their values. *)
Definition is_group (vs : list Z) : Prop := length vs = 8%nat /\ Forall (fun v => 0 <= v < 32) vs.

Definition base32_decode (groups : list (list Z)) : list Z := concat (map base32_group groups).

(** The character of a value, and the secret made of groups of values. *)
Definition base32_char (v : Z) : Z := if v <? 26 then 65 + v else 24 + v.
Definition secret_of (groups : list (list Z)) : string := string_of (map base32_char (concat groups)).

(** RFC 4226: the counter as eight bytes, dynamic truncation, and the low decimal digits. *)
Definition counter_bytes (c : Z) : list Z :=
  map (fun k => c / 2 ^ (8 * k) mod 256) [7; 6; 5; 4; 3; 2; 1; 0].

Definition dynamic_truncation (hs : list Z) : Z :=
  let o := Z.to_nat (List.last hs 0 mod 16) in
  match take 4 (drop o hs) with
  | [b0; b1; b2; b3] => b0 mod 128 * 2 ^ 24 + b1 * 2 ^ 16 + b2 * 2 ^ 8 + b3
  | _ => 0
  end.

Fixpoint fixed_digits (d : nat) (n : Z) : string :=
  match d with
  | O => ""
  | S d => fixed_digits d (n / 10) +:+ String (digit_char (n mod 10)) ""
  end.

Definition rfc4226 (mac : list Z -> list Z -> list Z) (key : list Z) (counter : Z) (digits : nat)
    : string :=
  fixed_digits digits (dynamic_truncation (mac key (counter_bytes counter)) mod 10 ^ Z.of_nat digits).

Definition rfc6238 (mac : list Z -> list Z -> list Z) (key : list Z) (interval : Z) (digits : nat)
    (unix_time : Z) : string :=
  rfc4226 mac key (unix_time / interval) digits.

(** ** The key: lemmas *)

Lemma base32_n_char n v : 0 <= v < 32 -> base32_n n (base32_char v) = v.
Proof.
  intros Hv. unfold base32_n, base32_char. destruct (Z.ltb_spec v 26).
  - destruct (Z.leb_spec 65 (65 + v)), (Z.leb_spec (65 + v) 90), (Z.leb_spec 50 (65 + v)),
      (Z.leb_spec (65 + v) 55); cbn; lia.
  - destruct (Z.leb_spec 65 (24 + v)), (Z.leb_spec (24 + v) 90), (Z.leb_spec 50 (24 + v)),
      (Z.leb_spec (24 + v) 55); cbn; lia.
Qed.

(** Writing behind a prefix of the vector. *)
Lemma set_at_app pre l k v es : (k < length l)%nat ->
  set_at (length pre + k) v (mk_key (pre ++ l) es) = mk_key (pre ++ <[k := u8 v]> l) es.
Proof.
  intros Hk. unfold set_at. cbn [out_bytes outside]. rewrite length_app.
  destruct (Nat.ltb_spec (length pre + k) (length pre + length l)); [|lia].
  by rewrite insert_app_r.
Qed.

Lemma or_at_app pre l k v es : (k < length l)%nat ->
  or_at (length pre + k) v (mk_key (pre ++ l) es)
  = mk_key (pre ++ <[k := u8 (Z.lor (l !!! k) v)]> l) es.
Proof.
  intros Hk. unfold or_at. cbn [out_bytes outside]. rewrite length_app.
  destruct (Nat.ltb_spec (length pre + k) (length pre + length l)); [|lia].
  rewrite insert_app_r. by rewrite lookup_total_app_r, Nat.add_comm, Nat.add_sub by lia.
Qed.

(** The bytes of a group, from the values that make up each of them. *)
Lemma group_byte_0 a b : 0 <= a < 32 -> 0 <= b < 32 ->
  u8 (Z.lor (u8 (Z.lor 0 (Z.shiftl a 3))) (Z.shiftr b 2)) = 8 * a + b / 4.
Proof. intros Ha Hb. check_below2 32%nat a b. Qed.

Lemma group_byte_1 a b c : 0 <= a < 32 -> 0 <= b < 32 -> 0 <= c < 32 ->
  u8 (Z.lor (u8 (Z.lor (u8 (Z.shiftl a 6)) (Z.shiftl b 1))) (Z.shiftr c 4)) = 64 * (a mod 4) + 2 * b + c / 16.
Proof. intros Ha Hb Hc. check_below3 32%nat a b c. Qed.

Lemma group_byte_2 a b : 0 <= a < 32 -> 0 <= b < 32 ->
  u8 (Z.lor (u8 (Z.shiftl a 4)) (Z.shiftr b 1)) = 16 * (a mod 16) + b / 2.
Proof. intros Ha Hb. check_below2 32%nat a b. Qed.

Lemma group_byte_3 a b c : 0 <= a < 32 -> 0 <= b < 32 -> 0 <= c < 32 ->
  u8 (Z.lor (u8 (Z.lor (u8 (Z.shiftl a 7)) (Z.shiftl b 2))) (Z.shiftr c 3)) = 128 * (a mod 2) + 4 * b + c / 8.
Proof. intros Ha Hb Hc. check_below3 32%nat a b c. Qed.

Lemma group_byte_4 a b : 0 <= a < 32 -> 0 <= b < 32 ->
  u8 (Z.lor (u8 (Z.shiftl a 5)) (Z.shiftl b 0)) = 32 * (a mod 8) + b.
Proof. intros Ha Hb. check_below2 32%nat a b. Qed.

(** What one character of value [v] does to the vector. *)
Definition put (i : nat) (offset : Z) (octet : nat) (v : Z) (st : key_state) : key_state :=
  let st := or_at (i * 5 + octet)
              (if 0 <? - offset then Z.shiftr v (- offset) else Z.shiftl v offset) st in
  if offset <? 0
  then set_at (i * 5 + octet + 1)
         (if 0 <? - (8 + offset) then Z.shiftr v (- (8 + offset)) else Z.shiftl v (8 + offset)) st
  else st.

Lemma secret_block_step secret i block blocks n st v :
  0 <= v < 32 -> (forall st, secret_at secret (i * 8 + Z.to_nat block) st = (base32_char v, st)) ->
  secret_blocks secret i (block :: blocks) n st
  = secret_blocks secret i blocks v
      (put i (3 - (5 * block) mod 8) (Z.to_nat (block * 5 / 8)) v st).
Proof.
  intros Hv Hc. cbn [secret_blocks]. rewrite Hc, base32_n_char by done.
  destruct (Z.ltb_spec v 0); [lia|done].
Qed.

(** The eight positions in a group. *)
Lemma put_or i octet v pre l es (k : Z) : 0 <= k -> length pre = (i * 5)%nat -> (octet < length l)%nat ->
  put i k octet v (mk_key (pre ++ l) es) = mk_key (pre ++ <[octet := u8 (Z.lor (l !!! octet) (Z.shiftl v k))]> l) es.
Proof.
  intros Hk Hp Hl. unfold put. destruct (Z.ltb_spec 0 (- k)); [lia|].
  destruct (Z.ltb_spec k 0); [lia|]. by rewrite <- Hp, or_at_app.
Qed.

Lemma put_split i octet v pre l es (k : Z) : 0 < k <= 8 -> length pre = (i * 5)%nat ->
  (S octet < length l)%nat ->
  put i (- k) octet v (mk_key (pre ++ l) es)
  = mk_key (pre ++ <[S octet := u8 (Z.shiftl v (8 - k))]>
                     (<[octet := u8 (Z.lor (l !!! octet) (Z.shiftr v k))]> l)) es.
Proof.
  intros Hk Hp Hl. unfold put. rewrite Z.opp_involutive.
  destruct (Z.ltb_spec 0 k); [|lia]. destruct (Z.ltb_spec (- k) 0); [|lia].
  destruct (Z.ltb_spec 0 (- (8 + - k))); [lia|]. rewrite <- Hp, or_at_app by lia.
  rewrite <- Nat.add_assoc, Nat.add_1_r, set_at_app by (rewrite length_insert; lia).
  by replace (8 + - k) with (8 - k) by lia.
Qed.

Lemma base32_group_bytes v0 v1 v2 v3 v4 v5 v6 v7 :
  0 <= v0 < 32 -> 0 <= v1 < 32 -> 0 <= v2 < 32 -> 0 <= v3 < 32 ->
  0 <= v4 < 32 -> 0 <= v5 < 32 -> 0 <= v6 < 32 -> 0 <= v7 < 32 ->
  base32_group [v0; v1; v2; v3; v4; v5; v6; v7]
  = [8 * v0 + v1 / 4; 64 * (v1 mod 4) + 2 * v2 + v3 / 16; 16 * (v3 mod 16) + v4 / 2;
     128 * (v4 mod 2) + 4 * v5 + v6 / 8; 32 * (v6 mod 8) + v7].
Proof.
  intros. unfold base32_group. cbn [foldl].
  do 5 (apply (f_equal2 cons); [Z.to_euclidean_division_equations; lia|]). done.
Qed.

(** Eight characters of the alphabet at group [i] put their five bytes in place; the loop goes on
    with the value of the last one. *)
Lemma secret_blocks_group secret i pre post v0 v1 v2 v3 v4 v5 v6 v7 es :
  Forall (fun v => 0 <= v < 32) [v0; v1; v2; v3; v4; v5; v6; v7] ->
  (forall k v, [v0; v1; v2; v3; v4; v5; v6; v7] !! k = Some v ->
     secret !! (i * 8 + k)%nat = Some (base32_char v)) ->
  length pre = (i * 5)%nat ->
  secret_blocks secret i [0; 1; 2; 3; 4; 5; 6; 7] (-1) (mk_key (pre ++ [0; 0; 0; 0; 0] ++ post) es)
  = (v7, mk_key (pre ++ base32_group [v0; v1; v2; v3; v4; v5; v6; v7] ++ post) es).
Proof.
  intros Hv Hd Hl. rewrite !Forall_cons in Hv. destruct Hv as (H0 & H1 & H2 & H3 & H4 & H5 & H6 & H7 & _).
  assert (Hc : forall k v, [v0; v1; v2; v3; v4; v5; v6; v7] !! k = Some v ->
    forall st, secret_at secret (i * 8 + k) st = (base32_char v, st)).
  { intros k v Hk st. specialize (Hd k v Hk). unfold secret_at. apply lookup_lt_Some in Hd as Hlt.
    destruct (Nat.ltb_spec (i * 8 + k) (length secret)); [|lia]. f_equal.
    by apply list_lookup_total_correct. }
  rewrite (secret_block_step _ _ 0 _ _ _ v0 H0 (Hc 0%nat v0 eq_refl)).
  change (put i (3 - (5 * 0) mod 8) (Z.to_nat (0 * 5 / 8))) with (put i (3) 0).
  rewrite (put_or i 0 v0 pre _ _ 3) by (lia || done || rewrite ?length_insert; cbn; lia).
  rewrite (secret_block_step _ _ 1 _ _ _ v1 H1 (Hc 1%nat v1 eq_refl)).
  change (put i (3 - (5 * 1) mod 8) (Z.to_nat (1 * 5 / 8))) with (put i (Z.opp 2) 0).
  rewrite (put_split i 0 v1 pre _ _ 2) by (lia || done || rewrite ?length_insert; cbn; lia).
  rewrite (secret_block_step _ _ 2 _ _ _ v2 H2 (Hc 2%nat v2 eq_refl)).
  change (put i (3 - (5 * 2) mod 8) (Z.to_nat (2 * 5 / 8))) with (put i (1) 1).
  rewrite (put_or i 1 v2 pre _ _ 1) by (lia || done || rewrite ?length_insert; cbn; lia).
  rewrite (secret_block_step _ _ 3 _ _ _ v3 H3 (Hc 3%nat v3 eq_refl)).
  change (put i (3 - (5 * 3) mod 8) (Z.to_nat (3 * 5 / 8))) with (put i (Z.opp 4) 1).
  rewrite (put_split i 1 v3 pre _ _ 4) by (lia || done || rewrite ?length_insert; cbn; lia).
  rewrite (secret_block_step _ _ 4 _ _ _ v4 H4 (Hc 4%nat v4 eq_refl)).
  change (put i (3 - (5 * 4) mod 8) (Z.to_nat (4 * 5 / 8))) with (put i (Z.opp 1) 2).
  rewrite (put_split i 2 v4 pre _ _ 1) by (lia || done || rewrite ?length_insert; cbn; lia).
  rewrite (secret_block_step _ _ 5 _ _ _ v5 H5 (Hc 5%nat v5 eq_refl)).
  change (put i (3 - (5 * 5) mod 8) (Z.to_nat (5 * 5 / 8))) with (put i (2) 3).
  rewrite (put_or i 3 v5 pre _ _ 2) by (lia || done || rewrite ?length_insert; cbn; lia).
  rewrite (secret_block_step _ _ 6 _ _ _ v6 H6 (Hc 6%nat v6 eq_refl)).
  change (put i (3 - (5 * 6) mod 8) (Z.to_nat (6 * 5 / 8))) with (put i (Z.opp 3) 3).
  rewrite (put_split i 3 v6 pre _ _ 3) by (lia || done || rewrite ?length_insert; cbn; lia).
  rewrite (secret_block_step _ _ 7 _ _ _ v7 H7 (Hc 7%nat v7 eq_refl)).
  change (put i (3 - (5 * 7) mod 8) (Z.to_nat (7 * 5 / 8))) with (put i (0) 4).
  rewrite (put_or i 4 v7 pre _ _ 0) by (lia || done || rewrite ?length_insert; cbn; lia).
  cbn [secret_blocks].
  rewrite base32_group_bytes by done. do 3 f_equal.
  cbn [app insert list_insert lookup_total list_lookup_total].
  by rewrite group_byte_0, group_byte_1, group_byte_2, group_byte_3, group_byte_4 by done.
Qed.

(** The key the loop computes: it stops behind a group whose last character is one of A to E, and
    leaves the rest zero.  When no group does, it writes one byte past the end of the vector. *)
Fixpoint key_of (groups : list (list Z)) : list Z :=
  match groups with
  | [] => []
  | g :: gs =>
      base32_group g ++ (if List.last g 0 <? 5 then replicate (5 * length gs) 0 else key_of gs)
  end.

Fixpoint key_outside (i : nat) (groups : list (list Z)) : list oob :=
  match groups with
  | [] => [oob_write (i * 5)]
  | g :: gs => if List.last g 0 <? 5 then [] else key_outside (S i) gs
  end.

Lemma secret_groups_end secret i fuel pre es :
  length pre = (i * 5)%nat -> length secret = (i * 8)%nat ->
  secret_groups (S fuel) secret i (mk_key pre es) = mk_key pre (es ++ [oob_write (i * 5)]).
Proof.
  intros Hp Hs. cbn [secret_groups]. unfold set_at at 1. cbn [out_bytes outside].
  destruct (Nat.ltb_spec (i * 5) (length pre)); [lia|].
  cbn [secret_blocks]. unfold secret_at at 1. change (Z.to_nat 0) with 0%nat. rewrite Nat.add_0_r, Hs.
  by rewrite Nat.ltb_irrefl, Nat.eqb_refl.
Qed.

Lemma secret_groups_spec gs : forall secret i fuel pre es,
  Forall is_group gs -> length pre = (i * 5)%nat ->
  length secret = (i * 8 + 8 * length gs)%nat ->
  (forall k c, map base32_char (concat gs) !! k = Some c -> secret !! (i * 8 + k)%nat = Some c) ->
  (length gs < fuel)%nat ->
  secret_groups fuel secret i (mk_key (pre ++ replicate (5 * length gs) 0) es)
  = mk_key (pre ++ key_of gs) (es ++ key_outside i gs).
Proof.
  induction gs as [|g gs IH]; intros secret i fuel pre es Hg Hp Hs Hc Hf; (destruct fuel as [|fuel]; [cbn in Hf; lia|]).
  { cbn [length Nat.mul replicate key_of key_outside] in *. rewrite !app_nil_r.
    apply secret_groups_end; [done|lia]. }
  apply Forall_cons in Hg as [[Hl Hv] Hg].
  destruct g as [|v0 [|v1 [|v2 [|v3 [|v4 [|v5 [|v6 [|v7 [|]]]]]]]]]; try discriminate Hl.
  cbn [length] in *. replace (5 * S (length gs))%nat with (5 + 5 * length gs)%nat by lia.
  rewrite replicate_add. cbn [secret_groups]. rewrite <- Hp.
  rewrite <- (Nat.add_0_r (length pre)), set_at_app by (cbn; lia).
  change (<[0%nat := u8 0]> (replicate 5 0 ++ replicate (5 * length gs) 0)%list)
    with ([0; 0; 0; 0; 0] ++ replicate (5 * length gs) 0)%list.
  rewrite (secret_blocks_group _ _ _ _ v0 v1 v2 v3 v4 v5 v6 v7); [|done| |done].
  2: { intros k v Hk. apply Hc. cbn [concat]. rewrite map_app.
       apply lookup_app_l_Some. change (map base32_char ?l) with (base32_char <$> l).
       by rewrite list_lookup_fmap, Hk. }
  cbn [key_of key_outside List.last]. destruct (Z.ltb_spec v7 5); [by rewrite app_nil_r|].
  rewrite (app_assoc pre), IH; [by rewrite <- !app_assoc|done| |lia| |lia].
  - rewrite length_app, Hp. unfold base32_group. cbn. lia.
  - intros k c Hk. replace (S i * 8 + k)%nat with (i * 8 + (8 + k))%nat by lia. apply Hc.
    cbn [concat]. rewrite map_app, lookup_app_r by (cbn; lia). cbn [map length].
    by replace (8 + k - 8)%nat with k by lia.
Qed.

Lemma secret_of_bytes groups : Forall is_group groups ->
  bytes_of (secret_of groups) = map base32_char (concat groups)
  /\ length (map base32_char (concat groups)) = (8 * length groups)%nat.
Proof.
  intros Hg. split.
  - unfold secret_of. apply bytes_of_string_of.
    apply Forall_fmap, Forall_concat. eapply Forall_impl; [exact Hg|]. intros g [_ Hv].
    eapply Forall_impl; [exact Hv|]. intros v Hr. cbv beta in Hr. change (is_byte (base32_char v)). unfold is_byte, base32_char.
    destruct (Z.ltb_spec v 26); lia.
  - rewrite length_map. induction Hg as [|g gs [Hl _] _ IH]; [done|].
    cbn [concat length]. rewrite length_app, IH, Hl. lia.
Qed.

(** What [byte_secret] does on a well-formed secret. *)
Lemma byte_secret_groups groups : Forall is_group groups ->
  byte_secret (secret_of groups) = mk_key (key_of groups) (key_outside 0 groups).
Proof.
  intros Hg. destruct (secret_of_bytes groups Hg) as [E L]. unfold byte_secret. rewrite E, L.
  replace (8 * length groups * 5 / 8)%nat with (5 * length groups)%nat
    by (rewrite (Nat.mul_comm 8), <- Nat.mul_assoc, (Nat.mul_comm 8), Nat.mul_assoc, Nat.div_mul; lia).
  rewrite (Nat.mul_comm 8), Nat.div_mul by lia.
  apply (secret_groups_spec groups _ 0 _ []); [done|done|rewrite L; lia|done|lia].
Qed.

(** No group but the last one ends in one of the letters A to E. *)
Fixpoint no_early_stop (groups : list (list Z)) : bool :=
  match groups with
  | [] | [_] => true
  | g :: gs => (5 <=? List.last g 0) && no_early_stop gs
  end.

Lemma key_of_decode groups : no_early_stop groups = true -> key_of groups = base32_decode groups.
Proof.
  unfold base32_decode. induction groups as [|g gs IH]; [done|]. cbn [key_of map concat].
  destruct gs as [|g' gs]; cbn [no_early_stop]; intros H.
  - cbn. by destruct (List.last g 0 <? 5).
  - apply andb_prop in H as [H1 H2]. rewrite IH by done. destruct (Z.ltb_spec (List.last g 0) 5); [lia|done].
Qed.

(** ** Codes: lemmas *)

Lemma to_bytes_counter v : 0 <= v -> to_bytes v = counter_bytes (v mod 2 ^ 32).
Proof.
  intros Hv. unfold to_bytes. cbn [foldl snd replicate insert list_insert].
  unfold counter_bytes. cbn [map]. change 0xff with (Z.ones 8). rewrite !Z.land_ones, !Z.shiftr_div_pow2 by lia.
  do 8 (apply (f_equal2 cons); [Z.to_euclidean_division_equations; lia|]). done.
Qed.

(** The four bytes put together by shifts. *)
Lemma truncate_sum a b c d : is_byte a -> is_byte b -> is_byte c -> is_byte d ->
  Z.lor (Z.lor (Z.lor (Z.shiftl (Z.land a 0x7F) 24) (Z.shiftl (Z.land b 0xFF) 16))
    (Z.shiftl (Z.land c 0xFF) 8)) (Z.land d 0xFF)
  = a mod 128 * 2 ^ 24 + b * 2 ^ 16 + c * 2 ^ 8 + d.
Proof.
  unfold is_byte. intros Ha Hb Hc Hd. change 0x7F with (Z.ones 7). change 0xFF with (Z.ones 8).
  rewrite !Z.land_ones by lia. rewrite (Z.mod_small b), (Z.mod_small c), (Z.mod_small d) by lia.
  change (2 ^ 7) with 128. assert (Hm : 0 <= a mod 128 < 128) by (apply Z.mod_pos_bound; lia).
  rewrite (lor_shiftl_add (a mod 128) (Z.shiftl b 16) 24) by (rewrite ?Z.shiftl_mul_pow2; lia).
  replace (a mod 128 * 2 ^ 24 + Z.shiftl b 16) with (Z.shiftl (a mod 128 * 2 ^ 8 + b) 16)
    by (rewrite !Z.shiftl_mul_pow2; lia).
  rewrite (lor_shiftl_add _ (Z.shiftl c 8) 16) by (rewrite ?Z.shiftl_mul_pow2; lia).
  match goal with |- Z.lor ?e d = _ =>
    replace e with (Z.shiftl ((a mod 128 * 2 ^ 8 + b) * 2 ^ 8 + c) 8)
      by (rewrite !Z.shiftl_mul_pow2; lia) end.
  rewrite lor_shiftl_add by lia. lia.
Qed.

Lemma take4_drop (l : list Z) o : (o + 4 <= length l)%nat ->
  take 4 (drop o l) = [l !!! o; l !!! (o + 1)%nat; l !!! (o + 2)%nat; l !!! (o + 3)%nat].
Proof.
  revert o. induction l as [|x l IH]; intros o Hl; cbn in Hl; [lia|]. destruct o as [|o].
  - destruct l as [|y [|z [|t l]]]; cbn in *; [lia..|done].
  - cbn [drop]. rewrite IH by lia. done.
Qed.

Lemma last_total (l : list Z) : l <> [] -> List.last l 0 = l !!! (length l - 1)%nat.
Proof.
  induction l as [|x [|y l] IH]; [done|done|]. intros _.
  change (List.last (x :: y :: l) 0) with (List.last (y :: l) 0). rewrite IH by done.
  cbn [length]. by replace (S (S (length l)) - 1)%nat with (S (S (length l) - 1)) by lia.
Qed.

Lemma bytes_total (l : list Z) i : bytes_ok l -> (i < length l)%nat -> is_byte (l !!! i).
Proof. intros H Hi. apply Forall_lookup_total_1; done. Qed.

(** No access of the truncation is outside of a digest of at least 19 bytes. *)
Lemma truncate_dt hs : bytes_ok hs -> (19 <= length hs)%nat -> truncate hs = dynamic_truncation hs.
Proof.
  intros Hb Hl. assert (Hne : hs <> []) by (intros ->; cbn in Hl; lia).
  unfold truncate, dynamic_truncation. rewrite last_total by done.
  change 0xF with (Z.ones 4). rewrite Z.land_ones by lia. change (2 ^ 4) with 16.
  set (m := (hs !!! (length hs - 1)%nat) mod 16).
  assert (Hm : 0 <= m < 16) by (apply Z.mod_pos_bound; lia).
  rewrite take4_drop by lia. apply truncate_sum; apply bytes_total; done || lia.
Qed.

Lemma dec_value_app acc s t : dec_value acc (s +:+ t) = dec_value (dec_value acc s) t.
Proof. revert acc. induction s as [|c s IH]; intros acc; [done|]. cbn. apply IH. Qed.

Lemma fixed_digits_spec d n : 0 <= n < 10 ^ Z.of_nat d ->
  String.length (fixed_digits d n) = d /\ all_chars is_digit (fixed_digits d n) = true
  /\ dec_value 0 (fixed_digits d n) = n.
Proof.
  revert n. induction d as [|d IH]; intros n Hn; cbn [fixed_digits].
  - cbn in *. repeat split; lia.
  - rewrite Nat2Z.inj_succ, Z.pow_succ_r in Hn by lia.
    destruct (IH (n / 10)) as (I1 & I2 & I3).
    { split; [apply Z.div_pos; lia|apply Z.div_lt_upper_bound; lia]. }
    assert (Hm : 0 <= n mod 10 < 10) by (apply Z.mod_pos_bound; lia).
    rewrite append_length, all_chars_app, dec_value_app, I1, I2, I3. cbn [String.length all_chars dec_value].
    rewrite is_digit_digit_char, code_digit_char by done. repeat split; [lia|].
    Z.to_euclidean_division_equations; lia.
Qed.

(** A string of digits is determined by its length and its value. *)
Lemma dec_value_bound acc s : all_chars is_digit s = true ->
  acc * 10 ^ Z.of_nat (String.length s) <= dec_value acc s
  < (acc + 1) * 10 ^ Z.of_nat (String.length s).
Proof.
  revert acc. induction s as [|c s IH]; intros acc H; cbn [dec_value String.length]; [cbn; lia|].
  cbn [all_chars] in H. apply andb_prop in H as [Hc Hs]. unfold is_digit in Hc.
  specialize (IH (10 * acc + (code c - 48)) Hs). rewrite Nat2Z.inj_succ, Z.pow_succ_r by lia.
  assert (0 < 10 ^ Z.of_nat (String.length s)) by (apply Z.pow_pos_nonneg; lia). nia.
Qed.

Lemma code_inj c d : code c = code d -> c = d.
Proof.
  unfold code. intros H. apply N2Z.inj in H. rewrite <- (ascii_N_embedding c), H. apply ascii_N_embedding.
Qed.

Lemma digits_unique s : forall t acc, String.length s = String.length t ->
  all_chars is_digit s = true -> all_chars is_digit t = true ->
  dec_value acc s = dec_value acc t -> s = t.
Proof.
  induction s as [|c s IH]; intros [|d t] acc Hl Hs Ht Hv; try done. cbn in Hl. injection Hl as Hl.
  cbn [all_chars dec_value] in *. apply andb_prop in Hs as [Hc Hs], Ht as [Hd Ht].
  pose proof (dec_value_bound (10 * acc + (code c - 48)) s Hs) as B1.
  pose proof (dec_value_bound (10 * acc + (code d - 48)) t Ht) as B2. rewrite <- Hl in B2.
  assert (0 < 10 ^ Z.of_nat (String.length s)) by (apply Z.pow_pos_nonneg; lia).
  assert (code c = code d) as E by nia. apply code_inj in E as ->. f_equal. by eapply IH.
Qed.

Lemma pad_zeros_spec fuel digits s : all_chars is_digit s = true ->
  Z.of_nat (String.length s) <= digits <= Z.of_nat (String.length s + fuel) ->
  all_chars is_digit (pad_zeros fuel digits s) = true
  /\ Z.of_nat (String.length (pad_zeros fuel digits s)) = digits
  /\ dec_value 0 (pad_zeros fuel digits s) = dec_value 0 s.
Proof.
  revert s. induction fuel as [|fuel IH]; intros s Hs Hl; cbn [pad_zeros]; [split_and!; done || lia|].
  destruct (Z.ltb_spec (Z.of_nat (String.length s)) digits); [|split_and!; done || lia].
  destruct (IH (String "0" s)) as (I1 & I2 & I3); [done|cbn [String.length]; lia|].
  split_and!; [done..|]. rewrite I3. done.
Qed.

(** Padding does not change the value, whatever the length. *)
Lemma pad_value digits n : 0 <= n -> dec_value 0 (pad digits (to_string n)) = n.
Proof.
  intros Hn. rewrite <- (proj1 (to_string_spec n Hn)) at 2. unfold pad. generalize (to_string n).
  induction (Z.to_nat digits) as [|fuel IH]; intros s; cbn [pad_zeros]; [done|].
  destruct (Z.of_nat (String.length s) <? digits); [|done]. by rewrite IH.
Qed.

(** Padding the decimal notation gives the fixed number of digits. *)
Lemma pad_fixed d n : (0 < d)%nat -> 0 <= n < 10 ^ Z.of_nat d ->
  pad (Z.of_nat d) (to_string n) = fixed_digits d n.
Proof.
  intros Hd Hn. destruct (fixed_digits_spec d n Hn) as (F1 & F2 & F3).
  destruct (to_string_spec n) as (T1 & T2 & T3); [lia|]. pose proof (to_string_length n d Hn Hd).
  destruct (pad_zeros_spec (Z.to_nat (Z.of_nat d)) (Z.of_nat d) (to_string n)) as (P1 & P2 & P3); [done|lia|].
  unfold pad. apply (digits_unique _ _ 0); [lia|done|done|congruence].
Qed.

(** What is assumed of a digest function: it does not fail, and returns [nbits / 8] bytes. *)
Definition digest_ok (f : OTP_algorithm) (mac : list Z -> list Z -> list Z) (nbits : Z) : Prop :=
  forall k m, f k m = Ok (mac k m) /\ Z.of_nat (length (mac k m)) = nbits / 8 /\ bytes_ok (mac k m).

(** An object as the constructors leave it. *)
Definition otp_ok (o : OTP) : Prop :=
  OTP_MIN_DIGITS <= m_digits o <= OTP_MAX_DIGITS /\ 8 * 19 <= m_bits o /\ m_base32_secret o <> "".

Lemma OTP_ctor_ok secret nbits f nm digits o : OTP_ctor secret nbits f nm digits = Ok o ->
  otp_ok o /\ m_digits o = digits /\ m_bits o = nbits /\ Some (m_algo o) = f
  /\ m_base32_secret o = secret /\ m_digest_algo_name o = nm.
Proof.
  unfold OTP_ctor, otp_ok. destruct f as [f|]; [|done].
  destruct (_ || _) eqn:E; [done|]. intros [= <-]. breflect. cbn.
  split_and!; try done; try lia. by destruct secret.
Qed.

Section codes.
Context (mac : list Z -> list Z -> list Z) (o : OTP).
Hypothesis mac_ok : digest_ok (m_algo o) mac (m_bits o).
Hypothesis object_ok : otp_ok o.

(** The number behind a code, for the key the program computes. *)
Definition code_value (input : Z) : Z :=
  dynamic_truncation (mac (out_bytes (byte_secret (m_base32_secret o))) (counter_bytes (input mod 2 ^ 32)))
  mod 10 ^ m_digits o.

Lemma code_value_range input : 0 <= code_value input < 10 ^ Z.of_nat (Z.to_nat (m_digits o)).
Proof.
  destruct object_ok as ([Hd _] & _). unfold OTP_MIN_DIGITS in Hd. rewrite Z2Nat.id by lia.
  apply Z.mod_pos_bound. apply Z.pow_pos_nonneg; lia.
Qed.

Lemma generate_code input : 0 <= input ->
  generate o input = Ok (fixed_digits (Z.to_nat (m_digits o)) (code_value input)).
Proof.
  intros Hi. pose proof (code_value_range input) as Hr. destruct object_ok as ([Hd1 Hd2] & Hb & _).
  unfold OTP_MIN_DIGITS, OTP_MAX_DIGITS in *. unfold generate. rewrite to_bytes_counter by done.
  destruct (mac_ok (out_bytes (byte_secret (m_base32_secret o))) (counter_bytes (input mod 2 ^ 32)))
    as (-> & Hl & Hbytes). cbn [mbind res_bind]. rewrite Hl, Z.eqb_refl. cbn [negb].
  rewrite truncate_dt; [|done|]. 2: { Z.to_euclidean_division_equations; lia. }
  fold (code_value input). f_equal. rewrite <- pad_fixed by (done || lia). by rewrite Z2Nat.id by lia.
Qed.

(** A number typed by the user is padded to the code it stands for. *)
Lemma pad_code key input : 0 <= key ->
  String.eqb (pad (m_digits o) (to_string key)) (fixed_digits (Z.to_nat (m_digits o)) (code_value input))
  = (key =? code_value input).
Proof.
  intros Hk. pose proof (code_value_range input) as Hr. destruct object_ok as ([Hd1 Hd2] & _).
  unfold OTP_MIN_DIGITS, OTP_MAX_DIGITS in *.
  destruct (Z.eqb_spec key (code_value input)) as [->|Hne].
  - rewrite <- (Z2Nat.id (m_digits o)) at 1 by lia. rewrite pad_fixed by (done || lia).
    apply String.eqb_refl.
  - apply String.eqb_neq. intros E. apply Hne. apply (f_equal (dec_value 0)) in E.
    destruct (fixed_digits_spec _ _ Hr) as (_ & _ & F). rewrite F in E. rewrite <- E. symmetry.
    by apply pad_value.
Qed.
End codes.

Lemma code_value_decode mac o groups input :
  Forall is_group groups -> no_early_stop groups = true -> m_base32_secret o = secret_of groups ->
  0 <= input < 2 ^ 32 ->
  code_value mac o input
  = dynamic_truncation (mac (base32_decode groups) (counter_bytes input)) mod 10 ^ m_digits o.
Proof.
  intros Hg He Hs Hi. unfold code_value. rewrite Hs, byte_secret_groups by done. cbn [out_bytes].
  by rewrite key_of_decode, (Z.mod_small input).
Qed.

(** C9: for a secret of whole Base32 groups in which no group but the last ends in a letter A to E,
    and a counter below [2 ^ 32], [generate] returns the code of RFC 4226: HMAC of the decoded
    secret, dynamic truncation, exactly [m_digits] decimal digits.  The object is any one the
    constructor accepts, the digest any function that returns the announced number of bytes. *)
Theorem generate_rfc4226 (mac : list Z -> list Z -> list Z) (f : OTP_algorithm) (nm : string)
    (nbits digits input : Z) (groups : list (list Z)) (o : OTP) :
  digest_ok f mac nbits -> Forall is_group groups -> no_early_stop groups = true ->
  OTP_ctor (secret_of groups) nbits (Some f) nm digits = Ok o -> 0 <= input < 2 ^ 32 ->
  generate o input = Ok (rfc4226 mac (base32_decode groups) input (Z.to_nat digits)).
Proof.
  intros Hm Hg He Ho Hi. destruct (OTP_ctor_ok _ _ _ _ _ _ Ho) as (Hok & Hd & Hb & [= Ha] & Hs & _).
  rewrite (generate_code mac); [|by rewrite Ha, Hb|done|lia].
  rewrite (code_value_decode _ _ groups) by done. unfold rfc4226. rewrite Hd.
  destruct Hok as ([Hd' _] & _). unfold OTP_MIN_DIGITS in Hd'. by rewrite Z2Nat.id by lia.
Qed.

(** The secret and the first code of the test values of RFC 4226. *)
Definition rfc_groups : list (list Z) :=
  [[6; 4; 25; 3; 6; 13; 1; 21]; [6; 24; 27; 19; 16; 14; 9; 16];
   [6; 4; 25; 3; 6; 13; 1; 21]; [6; 24; 27; 19; 16; 14; 9; 16]].

Definition sha1_algo : OTP_algorithm := fun k m => Ok (hmac_sha1 k m).

Lemma sha1_algo_ok : digest_ok sha1_algo hmac_sha1 160.
Proof. intros k m. destruct (hmac_sha1_ok k m) as [Hl Hb]. split_and!; [done|by rewrite Hl|done]. Qed.

Lemma rfc_groups_ok : Forall is_group rfc_groups.
Proof. repeat constructor; cbn; lia. Qed.

Lemma generate_rfc4226_witness :
  let o := mk_OTP 6 160 T_OTP sha1_algo "SHA1" "GEZDGNBVGY3TQOJQGEZDGNBVGY3TQOJQ" "" "" in
  generate o 1 = Ok (rfc4226 hmac_sha1 (base32_decode rfc_groups) 1 6)
  /\ rfc4226 hmac_sha1 (base32_decode rfc_groups) 1 6 = "287082".
Proof.
  intros o. split; [|by vm_compute]. change 6%nat with (Z.to_nat 6).
  apply (generate_rfc4226 hmac_sha1 sha1_algo "SHA1" 160 6 1 rfc_groups o);
    [apply sha1_algo_ok|apply rfc_groups_ok|done|reflexivity|lia].
Defined.

(** ** TOTP: lemmas *)

Lemma timecode_id t time : 0 < m_interval t -> 0 <= time -> time / m_interval t < 2 ^ 31 ->
  timecode t time = time / m_interval t.
Proof.
  intros Hi Ht Hb. unfold timecode, s32. assert (0 <= time / m_interval t) by (apply Z.div_pos; lia).
  rewrite Z.mod_small; lia.
Qed.

(** The counter of an offset in the window, positive or negative. *)
Lemma window_counter t time i : 0 < m_interval t -> 0 <= time -> time / m_interval t < 2 ^ 31 ->
  0 <= time / m_interval t + i < 2 ^ 64 -> u64 (u64 (timecode t time) + u64 i) = time / m_interval t + i.
Proof.
  intros Hi Ht Hb Hr. rewrite timecode_id by done. unfold u64.
  rewrite <- Z.add_mod by lia. by apply Z.mod_small.
Qed.

Section totp.
Context (mac : list Z -> list Z -> list Z) (t : TOTP).
Hypothesis mac_ok : digest_ok (m_algo (totp_base t)) mac (m_bits (totp_base t)).
Hypothesis object_ok : otp_ok (totp_base t).
Hypothesis interval_pos : 0 < m_interval t.

Definition code_string (counter : Z) : string :=
  fixed_digits (Z.to_nat (m_digits (totp_base t))) (code_value mac (totp_base t) counter).

Lemma compare_code key time i : 0 <= time -> time / m_interval t < 2 ^ 31 ->
  0 <= time / m_interval t + i < 2 ^ 64 ->
  compare t key (u64 i) time = Ok (String.eqb key (code_string (time / m_interval t + i))).
Proof.
  intros Ht Hb Hr. unfold compare, code_at. rewrite window_counter by done.
  by rewrite (generate_code mac) by (done || lia).
Qed.

Lemma verify_window_exists key time steps : 0 <= time -> time / m_interval t < 2 ^ 31 ->
  Forall (fun i => 0 <= time / m_interval t + i < 2 ^ 64) steps ->
  verify_window t key time steps
  = Ok (existsb (fun i => String.eqb key (code_string (time / m_interval t + i))) steps).
Proof.
  intros Ht Hb. induction steps as [|i steps IH]; intros Hr; [done|]. apply Forall_cons in Hr as [Hi Hr].
  cbn [verify_window existsb]. rewrite compare_code by done. cbn [mbind res_bind].
  destruct (String.eqb _ _); [done|]. by apply IH.
Qed.

Lemma range_In a b i : In i (range a b) <-> a <= i < b.
Proof.
  unfold range. rewrite in_map_iff. split.
  - intros (k & <- & Hk). apply in_seq in Hk. lia.
  - intros H. exists (Z.to_nat (i - a)). split; [lia|]. apply in_seq. lia.
Qed.

Lemma verify_exists key time w : 0 <= time -> 0 < w < 2 ^ 31 -> w <= time / m_interval t ->
  time / m_interval t < 2 ^ 31 ->
  verify t key time w
  = Ok (existsb (fun i => String.eqb key (code_string (time / m_interval t + i))) (range (- w) w)).
Proof.
  intros Ht Hw Hlo Hhi. unfold verify. destruct (Z.ltb_spec 0 w); [|lia].
  rewrite !s32_small by lia. apply verify_window_exists; [done..|].
  apply Forall_forall. intros i Hi%list_elem_of_In%range_In. lia.
Qed.
End totp.

Lemma TOTP_named_ok map secret a digits interval t : TOTP_named map secret a digits interval = Ok t ->
  exists i, map !! a = Some i /\ otp_ok (totp_base t) /\ m_digits (totp_base t) = digits
    /\ m_bits (totp_base t) = bits i /\ m_algo (totp_base t) = algo i
    /\ m_base32_secret (totp_base t) = secret /\ m_interval t = interval.
Proof.
  unfold TOTP_named, algo_at, TOTP_ctor. destruct (map !! a) as [i|]; [|done]. cbn [mbind res_bind].
  destruct (OTP_ctor _ _ _ _ _) as [o|] eqn:E; [|done]. cbn. intros [= <-].
  destruct (OTP_ctor_ok _ _ _ _ _ _ E) as (H1 & H2 & H3 & [= H4] & H5 & _). exists i. cbn. done.
Qed.

Lemma algo_sha1 HMAC : otp_algorithm_map HMAC !! "SHA1" = Some (mk_Algo_info "SHA1" (hmac HMAC "sha1") 160).
Proof. done. Qed.


Definition rfc_totp : TOTP :=
  mk_TOTP (mk_OTP 6 160 T_TOTP (hmac (fun _ k m => Some (hmac_sha1 k m)) "sha1") "SHA1"
    "GEZDGNBVGY3TQOJQGEZDGNBVGY3TQOJQ" "" "") 30.


Lemma valid_until_counter t for_time w time : 0 < m_interval t -> 0 <= for_time -> 0 <= w ->
  (for_time / m_interval t + 1 + w) * m_interval t < 2 ^ 32 -> time < valid_until t for_time w ->
  time / m_interval t <= for_time / m_interval t + w.
Proof.
  intros Hi Hf Hw Hmax. assert (0 <= for_time / m_interval t) by (apply Z.div_pos; lia).
  unfold valid_until, u32, u64. set (q := for_time / m_interval t) in *.
  rewrite (Z.mod_small (q + 1 + w)) by nia. rewrite Z.mod_small by (rewrite Z.mod_small; nia).
  rewrite Z.mod_small by nia. intros Hlt.
  assert (time / m_interval t < q + 1 + w) by (apply Z.div_lt_upper_bound; nia). lia.
Qed.

(** With a window [w] above 0, [verify] accepts exactly the codes of the counters from [w]
    before the current one up to [w - 1] after it, and so the code of [for_time] stays accepted
    from [for_time] until [valid_until], as that function announces. *)
Theorem verify_window_codes (mac : list Z -> list Z -> list Z) (t : TOTP) (w : Z) :
  digest_ok (m_algo (totp_base t)) mac (m_bits (totp_base t)) -> otp_ok (totp_base t) ->
  0 < m_interval t -> 0 < w < 2 ^ 31 ->
  (forall key time, 0 <= time -> w <= time / m_interval t < 2 ^ 31 ->
     (verify t key time w = Ok true <->
      exists c, time / m_interval t - w <= c < time / m_interval t + w /\ generate (totp_base t) c = Ok key))
  /\ (forall key for_time time, code_at t for_time 0 = Ok key ->
        w <= for_time / m_interval t -> (for_time / m_interval t + 1 + w) * m_interval t < 2 ^ 32 ->
        0 <= for_time <= time -> time < valid_until t for_time w -> time / m_interval t < 2 ^ 31 ->
        verify t key time w = Ok true).
Proof.
  intros Hm Ho Hi Hw.
  assert (Hiff : forall key time, 0 <= time -> w <= time / m_interval t < 2 ^ 31 ->
     (verify t key time w = Ok true <->
      exists c, time / m_interval t - w <= c < time / m_interval t + w /\ generate (totp_base t) c = Ok key)).
  { intros key time Ht Hr. rewrite (verify_exists mac) by (done || lia). split.
    - intros [= (i & Hin & E)%existsb_exists]. apply range_In in Hin. exists (time / m_interval t + i).
      split; [lia|]. rewrite (generate_code mac) by (done || lia). by apply String.eqb_eq in E as ->.
    - intros (c & Hc & E). f_equal. apply existsb_exists. exists (c - time / m_interval t).
      split; [apply range_In; lia|]. rewrite (generate_code mac) in E by (done || lia).
      injection E as <-. replace (time / m_interval t + (c - time / m_interval t)) with c by lia.
      apply String.eqb_refl. }
  split; [exact Hiff|]. intros key for_time time Hc Hlo Hmax Ht Hu Hb.
  assert (Hmono : for_time / m_interval t <= time / m_interval t) by (apply Z.div_le_mono; lia).
  apply Hiff; [lia|lia|]. exists (for_time / m_interval t). split.
  - apply valid_until_counter in Hu; lia.
  - unfold code_at in Hc. change 0 with (u64 0) in Hc. by rewrite window_counter, Z.add_0_r in Hc by lia.
Qed.

(** The code of 1111111109 is accepted 30 seconds later with a window of one. *)
Lemma verify_window_codes_witness :
  code_at rfc_totp 1111111109 0 = Ok "081804" /\ verify rfc_totp "081804" 1111111139 1 = Ok true.
Proof.
  split; [by vm_compute|].
  apply (proj2 (verify_window_codes hmac_sha1 rfc_totp 1 ltac:(intros k m;
    destruct (hmac_sha1_ok k m) as [Hl Hb]; split_and!; [done|by cbn [m_bits rfc_totp totp_base]; rewrite Hl|done])
    ltac:(split_and!; done) ltac:(done) ltac:(done)) "081804" 1111111109 1111111139);
    first [by vm_compute | split; by vm_compute].
Defined.

(** ** Where the key goes wrong *)

Lemma key_of_stop pre g gs : Forall (fun g => 5 <= List.last g 0) pre -> List.last g 0 < 5 ->
  key_of (pre ++ g :: gs) = (base32_decode (pre ++ [g]) ++ replicate (5 * length gs) 0)%list
  /\ forall i, key_outside i (pre ++ g :: gs) = [].
Proof.
  intros Hp Hg. unfold base32_decode. induction Hp as [|h pre Hh Hp [IH1 IH2]]; cbn [app key_of key_outside map concat].
  - destruct (Z.ltb_spec (List.last g 0) 5); [|lia]. by rewrite app_nil_r.
  - destruct (Z.ltb_spec (List.last h 0) 5); [lia|]. split; [by rewrite IH1, <- app_assoc|done].
Qed.

Lemma base32_decode_app gs gs' : base32_decode (gs ++ gs') = (base32_decode gs ++ base32_decode gs')%list.
Proof. unfold base32_decode. by rewrite map_app, concat_app. Qed.

Lemma base32_group_zero g : is_group g -> base32_group g = replicate 5 0 -> Forall (fun v => v = 0) g.
Proof.
  intros [Hl Hv] E. destruct g as [|v0 [|v1 [|v2 [|v3 [|v4 [|v5 [|v6 [|v7 [|]]]]]]]]]; try discriminate Hl.
  rewrite !Forall_cons in Hv. destruct Hv as (H0 & H1 & H2 & H3 & H4 & H5 & H6 & H7 & _).
  rewrite base32_group_bytes in E by done. injection E as E0 E1 E2 E3 E4.
  rewrite !Forall_cons. split_and!; [..|by apply Forall_nil_2];
    Z.to_euclidean_division_equations; lia.
Qed.

Lemma base32_decode_zero gs : Forall is_group gs -> base32_decode gs = replicate (5 * length gs) 0 ->
  Forall (fun v => v = 0) (concat gs).
Proof.
  unfold base32_decode. induction 1 as [|g gs Hg Hgs IH]; cbn [map concat length]; intros E; [done|].
  replace (5 * S (length gs))%nat with (5 + 5 * length gs)%nat in E by lia. rewrite replicate_add in E.
  apply app_inj_1 in E as [E1 E2]; [|done]. apply Forall_app. split; [by apply base32_group_zero|by apply IH].
Qed.

(** The loop of [byte_secret] takes the value of the last character of a group for its end mark:
    behind the first group that ends in a letter A to E the key is filled with zeros.  Unless all the
    characters behind it are A, the key differs from the decoded secret, and so from the key of the
    authenticator that reads the same secret. *)
Theorem byte_secret_stops_early (pre gs : list (list Z)) (g : list Z) :
  Forall is_group (pre ++ g :: gs) -> Forall (fun g => 5 <= List.last g 0) pre -> List.last g 0 < 5 ->
  out_bytes (byte_secret (secret_of (pre ++ g :: gs)))
    = (base32_decode (pre ++ [g]) ++ replicate (5 * length gs) 0)%list
  /\ (Exists (fun v => v <> 0) (concat gs) ->
      out_bytes (byte_secret (secret_of (pre ++ g :: gs))) <> base32_decode (pre ++ g :: gs)).
Proof.
  intros Hg Hp Hl. rewrite byte_secret_groups by done. cbn [out_bytes].
  destruct (key_of_stop pre g gs Hp Hl) as [-> _]. split; [done|]. intros Hex E.
  replace (base32_decode (pre ++ g :: gs)) with (base32_decode (pre ++ [g]) ++ base32_decode gs)%list in E
    by (by rewrite <- base32_decode_app, <- app_assoc).
  apply app_inv_head in E. apply Forall_app in Hg as [_ [_ Hg]%Forall_cons].
  symmetry in E. apply base32_decode_zero in E; [|done].
  apply Exists_exists in Hex as (v & Hin & Hne). by apply (proj1 (Forall_forall _ _) E v) in Hin.
Qed.

(** The secret JBSWY3DE JBSWY3DP: the last five bytes of the key are lost. *)
Lemma byte_secret_stops_early_witness :
  secret_of ([] ++ [9; 1; 18; 22; 24; 27; 3; 4] :: [[9; 1; 18; 22; 24; 27; 3; 15]]) = "JBSWY3DEJBSWY3DP"
  /\ out_bytes (byte_secret (secret_of ([] ++ [9; 1; 18; 22; 24; 27; 3; 4] :: [[9; 1; 18; 22; 24; 27; 3; 15]])))
     <> base32_decode ([] ++ [9; 1; 18; 22; 24; 27; 3; 4] :: [[9; 1; 18; 22; 24; 27; 3; 15]]).
Proof.
  split; [by vm_compute|].
  apply (byte_secret_stops_early [] [[9; 1; 18; 22; 24; 27; 3; 15]] [9; 1; 18; 22; 24; 27; 3; 4]).
  - repeat constructor; cbn; lia.
  - done.
  - done.
  - by constructor.
Defined.

(** ** URIs and moves *)

Lemma totp_build_uri_eq b o k : 0 <= k < 2 ^ 64 ->
  totp_build_uri b (mk_TOTP o k)
  = Ok (get_uri b (mk_OTP_URI "totp" (m_account o) (m_base32_secret o) (m_issuer o)
          (m_digest_algo_name o) (m_digits o) 0 30)).
Proof.
  intros Hk. unfold totp_build_uri, build_uri. cbn [m_interval totp_base].
  rewrite (lookup_singleton_ne "period" "counter"), (lookup_singleton_eq "period") by done.
  cbn [mbind res_bind]. by rewrite stoul_to_string.
Qed.

(** The URI of a TOTP does not tell its interval: [build_uri] stores the period in the counter
    field, so any two intervals give the same URI, and it announces 30 seconds. *)
Theorem totp_uri_ignores_interval (char_signed : bool) (o : OTP) (i j : Z) :
  0 <= i < 2 ^ 64 -> 0 <= j < 2 ^ 64 ->
  totp_build_uri char_signed (mk_TOTP o i) = totp_build_uri char_signed (mk_TOTP o j)
  /\ totp_build_uri char_signed (mk_TOTP o i)
     = Ok (get_uri char_signed (mk_OTP_URI "totp" (m_account o) (m_base32_secret o) (m_issuer o)
             (m_digest_algo_name o) (m_digits o) 0 30)).
Proof. intros Hi Hj. by rewrite !totp_build_uri_eq. Qed.

Lemma totp_uri_ignores_interval_witness :
  totp_build_uri false (mk_TOTP (totp_base rfc_totp) 30) = totp_build_uri false (mk_TOTP (totp_base rfc_totp) 60).
Proof. apply (totp_uri_ignores_interval false (totp_base rfc_totp) 30 60); lia. Defined.

(** A moved object has lost the secret, the name of its digest, the issuer and the account. *)
Lemma TOTP_move_loses_secret raw other :
  m_base32_secret (totp_base (fst (TOTP_move raw other))) = ""
  /\ m_digest_algo_name (totp_base (fst (TOTP_move raw other))) = ""
  /\ m_issuer (totp_base (fst (TOTP_move raw other))) = m_issuer (totp_base raw)
  /\ m_interval (fst (TOTP_move raw other)) = m_interval raw.
Proof. done. Qed.

(** The secret made at registration: sixteen characters, two whole groups. *)
Lemma random_base32_groups rands : exists g1 g2,
  is_group g1 /\ is_group g2 /\ random_base32 16 rands = secret_of [g1; g2].
Proof.
  set (v i := rands i mod 32). exists (map v (List.seq 0 8)), (map v (List.seq 8 8)).
  assert (Hv : forall l, Forall (fun x => 0 <= x < 32) (map v l)).
  { intros l. apply Forall_forall. intros x [k [<- _]]%list_elem_of_In%in_map_iff.
    apply Z.mod_pos_bound. lia. }
  split_and!; [split; [done|apply Hv]..|].
  unfold random_base32, secret_of. f_equal. cbn [concat]. rewrite app_nil_r, <- map_app, map_map.
  change (List.seq 0 8 ++ List.seq 8 8)%list with (List.seq 0 16).
  apply map_ext. intros k. unfold v. apply Z.eqb_eq.
  pose proof (Z.mod_pos_bound (rands k) 32 ltac:(lia)) as Hr. revert Hr. generalize (rands k mod 32).
  apply (forall_below 32 (fun x => (bytes_of base32_chars !!! Z.to_nat x) =? base32_char x)). by vm_compute.
Qed.
