(* ===== verification/Show.v ===== *)
(** * What the classes print

    [printNowTimeKST] of utils.cpp, the printing of one-time passwords and URIs in cotp.cpp and
    otp_uri.cpp, and the calls of cotp.cpp that read the clock.  The clock is an argument. *)

From S2P Require Import Prelude Str Calendar OtpUri Otp.
From Stdlib Require Import Ascii.
From Stdlib Require String.

Local Open Scope string_scope.
Local Open Scope Z_scope.

Definition endl : string := String (Ascii.ascii_of_nat 10) "".

(** ** The time of the log *)

(** [%Y-%m-%d %H:%M:%S]. *)
Definition put_time (t : tm) : string :=
  to_string (year t) +:+ "-" +:+ two_digits (month t) +:+ "-" +:+ two_digits (mday t) +:+ " "
  +:+ two_digits (hour t) +:+ ":" +:+ two_digits (minute t) +:+ ":" +:+ two_digits (second t).

(** [setfill('0') << setw(3)]. *)
Definition three_wide (n : Z) : string :=
  let s := int_string n in
  if (String.length s <? 3)%nat then pad_zeros 3 3 s else s.

(** The system clock counts nanoseconds; its conversions cut off towards zero. *)
Definition printNowTimeKST (now : Z) : string :=
  let now_c := Z.quot now (10 ^ 9) in
  let milliseconds := Z.rem (Z.quot now (10 ^ 6)) 1000 in
  let kst_now_c := now_c + 9 * 60 * 60 in
  endl +:+ "[" +:+ put_time (gmtime kst_now_c) +:+ "." +:+ three_wide milliseconds +:+ " KST]" +:+ endl.

(** ** One-time passwords *)

(** [to_string(std::vector<char>)]: every byte as two hexadecimal digits and a blank. *)
Definition hex_digit (n : Z) : ascii := if n <? 10 then chr (48 + n) else chr (87 + n).
Definition hex_byte (b : Z) : string := String (hex_digit (Z.land b 0xff / 16)) (String (hex_digit (Z.land b 0xff mod 16)) " ").
Definition hex_string (bytes : list Z) : string := foldr (fun b s => hex_byte b +:+ s) "" bytes.

Definition show (label value : string) : string := label +:+ ": " +:+ value +:+ endl.

Definition OTP_print (o : OTP) : string :=
  show "digits" (to_string (Otp.m_digits o)) +:+ show "bits" (to_string (m_bits o)) +:+ show "digest" (m_digest_algo_name o)
  +:+ show "base32 secret" (m_base32_secret o) +:+ show "issuer" (Otp.m_issuer o) +:+ show "account" (Otp.m_account o).

Definition TOTP_print (t : TOTP) : string :=
  show "type" "TOTP" +:+ OTP_print (totp_base t) +:+ show "interval" (to_string (m_interval t)).

Definition HOTP_print (h : HOTP) : string :=
  show "type" "HOTP" +:+ OTP_print (hotp_base h) +:+ show "counter" (to_string (Otp.m_counter h)).

Definition OTP_URI_print (u : OTP_URI) : string :=
  show "type" (m_type u) +:+ show "account" (OtpUri.m_account u) +:+ show "secret" (m_secret u) +:+ show "issuer" (OtpUri.m_issuer u)
  +:+ show "algorithm" (m_algorithm u) +:+ show "digits" (to_string (OtpUri.m_digits u)) +:+ show "counter" (to_string (OtpUri.m_counter u))
  +:+ show "period" (to_string (m_period u)).

(** ** The calls that read the clock *)

Definition code_now (now : Z) (t : TOTP) : res string := generate (totp_base t) (u64 (timecode t now)).
Definition verify_now (now : Z) (t : TOTP) (key : string) (valid_window : Z) : res bool := verify t key now valid_window.
Definition verify_int_now (now : Z) (t : TOTP) (key valid_window : Z) : res bool := verify_int t key now valid_window.
Definition seconds_to_next_code_now (now : Z) (t : TOTP) : Z := seconds_to_next_code t now.
Definition compare_int (t : TOTP) (key increment for_time : Z) : res bool := Otp.compare t (to_string key) increment for_time.
Definition hotp_set_counter (value : Z) (h : HOTP) : HOTP := mk_HOTP (hotp_base h) value.
Definition hotp_compare_int (h : HOTP) (key : Z) : res bool := hotp_compare h (to_string key).

(** ** The log shows Korean time *)

(** The time printed in front of the messages of the log is the time of the clock, in milliseconds,
    on the calendar of a place nine hours ahead of UTC. *)
Theorem log_time_korean (t : tm) (ms ns : Z) : valid_time t -> 0 <= timegm t -> 0 <= ms < 1000 -> 0 <= ns < 10 ^ 6 ->
  printNowTimeKST (timegm t * 10 ^ 9 + ms * 10 ^ 6 + ns)
  = endl +:+ "[" +:+ put_time (nine_hours_later t) +:+ "." +:+ fixed_digits 3 ms +:+ " KST]" +:+ endl.
Proof.
  intros Ht H0 Hms Hns. unfold printNowTimeKST.
  assert (Z.quot (timegm t * 10 ^ 9 + ms * 10 ^ 6 + ns) (10 ^ 9) = timegm t) as -> by (rewrite Z.quot_div_nonneg by lia; Z.div_mod_to_equations; lia).
  assert (Z.quot (timegm t * 10 ^ 9 + ms * 10 ^ 6 + ns) (10 ^ 6) = timegm t * 1000 + ms) as ->
    by (rewrite Z.quot_div_nonneg by lia; Z.div_mod_to_equations; lia).
  rewrite Z.rem_mod_nonneg by lia. assert ((timegm t * 1000 + ms) mod 1000 = ms) as -> by (Z.div_mod_to_equations; lia).
  change (9 * 60 * 60) with (9 * 3600). rewrite gmtime_nine_hours by done. do 4 f_equal.
  pose proof (forall_below 1000 (fun n => String.eqb (three_wide n) (fixed_digits 3 n)) eq_refl ms Hms) as H. cbv beta in H.
  apply String.eqb_eq in H. by rewrite H.
Qed.

Lemma log_time_korean_witness :
  printNowTimeKST 1735657445007000123
  = endl +:+ "[" +:+ "2025-01-01 00:04:05" +:+ "." +:+ "007" +:+ " KST]" +:+ endl.
Proof.
  apply (log_time_korean (mk_tm 2024 12 31 15 4 5) 7 123); [|vm_compute; discriminate|lia..].
  repeat split; cbn; lia.
Defined.

(** ** A code on the clock *)

(** The code shown is accepted for as long as [seconds_to_next_code] says, and with that second the
    next one is in force: up to then the same code is shown and [verify] answers yes, and then the
    counter is one more. *)
Theorem code_valid_until_next (t : TOTP) (now later : Z) (c : string) :
  0 <= now -> 0 < m_interval t < 2 ^ 32 -> later / m_interval t < 2 ^ 31 -> now <= later -> code_now now t = Ok c ->
  (later < now + seconds_to_next_code_now now t -> verify_now later t c 0 = Ok true /\ code_now later t = Ok c)
  /\ (later = now + seconds_to_next_code_now now t -> timecode t later = timecode t now + 1).
Proof.
  intros H0 Hi Hl Hle Hc. unfold seconds_to_next_code_now, seconds_to_next_code.
  pose proof (Z.mod_pos_bound now (m_interval t) ltac:(lia)) as Hb. pose proof (Z.div_mod now (m_interval t) ltac:(lia)) as Hd.
  assert (0 <= now / m_interval t <= later / m_interval t) as Hq by (split; [apply Z.div_pos|apply Z.div_le_mono]; lia).
  assert (u32 (m_interval t - now mod m_interval t) = m_interval t - now mod m_interval t) as -> by (unfold u32; apply Z.mod_small; lia).
  split; intros H.
  - assert (later / m_interval t = now / m_interval t) as E by (symmetry; apply (Z.div_unique _ _ _ (later - m_interval t * (now / m_interval t))); lia).
    assert (code_now later t = Ok c) as Hs by (unfold code_now, timecode in *; by rewrite E). split; [|done].
    unfold verify_now, verify. cbn [Z.ltb Z.compare]. unfold Otp.compare, code_at. rewrite Z.add_0_r. unfold code_now in Hs.
    assert (u64 (u64 (timecode t later)) = u64 (timecode t later)) as -> by (unfold u64; by rewrite Z.mod_mod by lia).
    rewrite Hs. cbn. by rewrite String.eqb_refl.
  - assert (later / m_interval t = now / m_interval t + 1) as E by (symmetry; apply (Z.div_unique _ _ _ 0); lia).
    unfold timecode. rewrite E. rewrite E in Hl. rewrite !s32_small by lia. done.
Qed.

Lemma code_valid_until_next_witness :
  verify_now 1111111109 rfc_totp "081804" 0 = Ok true /\ timecode rfc_totp 1111111110 = timecode rfc_totp 1111111095 + 1.
Proof.
  destruct (code_valid_until_next rfc_totp 1111111095 1111111109 "081804") as [H _]; [lia|vm_compute; split; reflexivity|vm_compute; reflexivity|lia|vm_compute; reflexivity|].
  destruct (code_valid_until_next rfc_totp 1111111095 1111111110 "081804") as [_ H']; [lia|vm_compute; split; reflexivity|vm_compute; reflexivity|lia|vm_compute; reflexivity|].
  split; [apply H; vm_compute; reflexivity|apply H'; vm_compute; reflexivity].
Defined.

(** ** Reading what was printed *)

Definition read_hex_digit (c : ascii) : Z := if code c <? 58 then code c - 48 else code c - 87.
Fixpoint read_hex (s : string) : list Z :=
  match s with
  | String a (String b (String _ s)) => 16 * read_hex_digit a + read_hex_digit b :: read_hex s
  | _ => []
  end.

(** The hexadecimal dump shows the bytes, as unsigned numbers. *)
Lemma hex_string_read bytes : read_hex (hex_string bytes) = map u8 bytes.
Proof.
  induction bytes as [|b bytes IH]; [done|]. unfold hex_string in *. cbn [foldr map].
  change (read_hex (hex_byte b +:+ ?s)) with (16 * read_hex_digit (hex_digit (Z.land b 0xff / 16)) + read_hex_digit (hex_digit (Z.land b 0xff mod 16)) :: read_hex s).
  rewrite IH. f_equal. change 0xff with (Z.ones 8). rewrite Z.land_ones by lia. fold (u8 b). pose proof (u8_range b) as Hr.
  pose proof (forall_below 256 (fun n => 16 * read_hex_digit (hex_digit (n / 16)) + read_hex_digit (hex_digit (n mod 16)) =? n) eq_refl (u8 b)) as H.
  cbv beta in H. apply Z.eqb_eq, H. exact Hr.
Qed.

Definition one_line (s : string) : bool := negb (has_char (Ascii.ascii_of_nat 10) s).

Lemma line_inj v : forall v' r r', one_line v = true -> one_line v' = true -> v +:+ endl +:+ r = v' +:+ endl +:+ r' -> v = v' /\ r = r'.
Proof.
  unfold one_line. induction v as [|c v IH]; intros [|c' v'] r r'; rewrite ?has_char_cons; cbn.
  - by intros _ _ [= ->].
  - intros _ H [= <- _]. done.
  - intros H _ [= -> _]. done.
  - intros H H' [= <- E]. destruct (Ascii.eqb c _); [done|]. destruct (IH v' r r') as [-> ->]; [done..|]. done.
Qed.

Lemma show_inj label v v' r r' : one_line v = true -> one_line v' = true -> show label v +:+ r = show label v' +:+ r' -> v = v' /\ r = r'.
Proof.
  intros H H'. unfold show. rewrite !append_assoc. intros E. apply line_inj; try done.
  revert E. induction label as [|c label IH]; cbn; [by intros [= E]|]. intros [= E]. by apply IH.
Qed.

Lemma number_line n : 0 <= n -> one_line (to_string n) = true.
Proof.
  intros H. unfold one_line. rewrite (all_chars_has_no is_digit); [done|reflexivity|]. by apply to_string_spec.
Qed.

Lemma to_string_inj n m : 0 <= n -> 0 <= m -> to_string n = to_string m -> n = m.
Proof.
  intros Hn Hm E. rewrite <- (proj1 (to_string_spec n Hn)), <- (proj1 (to_string_spec m Hm)). by rewrite E.
Qed.

(** A URI that is printed shows all of its fields: two URIs without line breaks that print alike are equal. *)
Lemma OTP_URI_print_inj u u' :
  let fields u := [m_type u; OtpUri.m_account u; m_secret u; OtpUri.m_issuer u; m_algorithm u] in
  let numbers u := [OtpUri.m_digits u; OtpUri.m_counter u; m_period u] in
  Forall (fun s => one_line s = true) (fields u ++ fields u')%list -> Forall (fun n => 0 <= n) (numbers u ++ numbers u')%list ->
  OTP_URI_print u = OTP_URI_print u' -> u = u'.
Proof.
  destruct u as [ty acc sec iss alg dig cnt per], u' as [ty' acc' sec' iss' alg' dig' cnt' per']. cbn [m_type OtpUri.m_account m_secret OtpUri.m_issuer m_algorithm
    OtpUri.m_digits OtpUri.m_counter m_period app]. intros Hf Hn. repeat match goal with H : Forall _ (_ :: _) |- _ => apply Forall_cons_1 in H as [? H] end.
  unfold OTP_URI_print. cbn [m_type OtpUri.m_account m_secret OtpUri.m_issuer m_algorithm OtpUri.m_digits OtpUri.m_counter m_period].
  rewrite <- (append_nil (show "period" (to_string per))), <- (append_nil (show "period" (to_string per'))). intros E.
  repeat match type of E with show _ _ +:+ _ = _ => apply show_inj in E as [? E]; [|by try apply number_line..] end.
  f_equal; try done; by apply to_string_inj.
Qed.
