(* ===== verification/Hash.v ===== *)
(** * hash.cpp: password hashes and recovery codes

    libsodium is an interface: the two functions the program calls, and what their documentation
    promises.  The random numbers of the salts and of the codes are arguments. *)

From S2P Require Import Prelude Str.
From Stdlib Require Import Ascii.
From Stdlib Require String.

Local Open Scope string_scope.
Local Open Scope Z_scope.

(** [crypto_pwhash_str] draws a salt and fails only for lack of memory ([None]);
    [crypto_pwhash_str_verify] returns 0 when the password matches. *)
Class Pwhash := {
  crypto_pwhash_str : Z -> string -> option string;
  crypto_pwhash_str_verify : string -> string -> Z }.

(** The documented promises: a hash verifies the password it was made from, and is not empty. *)
Class PwhashLaws `{Pwhash} := {
  pwhash_verify salt p h : crypto_pwhash_str salt p = Some h -> crypto_pwhash_str_verify h p = 0;
  pwhash_nonempty salt p h : crypto_pwhash_str salt p = Some h -> h <> "" }.

Section hash.
Context `{Pwhash}.

Definition hash_password (salt : Z) (password : string) : res string :=
  match crypto_pwhash_str salt password with
  | None => Throw (runtime_error "비밀번호 해싱 실패")
  | Some hashed_password => Ok hashed_password
  end.

Definition verify_password (hashed_password password : string) : bool :=
  crypto_pwhash_str_verify hashed_password password =? 0.

(** The salts are drawn one after another. *)
Fixpoint hash_recovery_codes (salts : nat -> Z) (codes : list string) : res (list string) :=
  match codes with
  | [] => Ok []
  | code :: codes =>
      h ← hash_password (salts 0%nat) code;
      hs ← hash_recovery_codes (fun i => salts (S i)) codes;
      Ok (h :: hs)
  end.
End hash.

Definition alphanum : string := "0123456789ABCDEFGHIJKLMNOPQRSTUVWXYZabcdefghijklmnopqrstuvwxyz".

(** [alphanum[dis(gen)]], [picks] the successive values of [dis(gen)]. *)
Definition recovery_code (picks : nat -> Z) : string :=
  string_of (map (fun j => bytes_of alphanum !!! Z.to_nat (picks j)) (List.seq 0 10)).

Definition generate_recovery_codes (picks : nat -> Z) : list string :=
  map (fun i => recovery_code (fun j => picks (10 * i + j)%nat)) (List.seq 0 5).

(** ** Lemmas *)

Definition is_alphanum (c : ascii) : bool := has_char c alphanum.

Lemma string_of_length bs : String.length (string_of bs) = length bs.
Proof. induction bs as [|b bs IH]; cbn; [done|]. by rewrite IH. Qed.

(** Each code has ten letters and digits. *)
Lemma recovery_code_shape picks : (forall i, 0 <= picks i <= 61) ->
  String.length (recovery_code picks) = 10%nat /\ all_chars is_alphanum (recovery_code picks) = true.
Proof.
  intros Hp. unfold recovery_code. rewrite string_of_length, length_map, length_seq. split; [done|].
  induction (List.seq 0 10) as [|j js IH]; cbn [map string_of all_chars]; [done|]. rewrite IH, andb_true_r.
  apply (forall_below 62 (fun z => is_alphanum (chr (bytes_of alphanum !!! Z.to_nat z)))); [by vm_compute|].
  specialize (Hp j). lia.
Qed.

Lemma generate_recovery_codes_shape picks : (forall i, 0 <= picks i <= 61) ->
  length (generate_recovery_codes picks) = 5%nat
  /\ Forall (fun c => String.length c = 10%nat /\ all_chars is_alphanum c = true)
       (generate_recovery_codes picks).
Proof.
  intros Hp. split; [done|]. apply Forall_forall. intros c [i [<- _]]%list_elem_of_In%in_map_iff.
  apply recovery_code_shape. intros j. apply Hp.
Qed.

Section laws.
Context `{PwhashLaws}.

Lemma hash_password_verifies salt p h : hash_password salt p = Ok h -> verify_password h p = true.
Proof.
  unfold hash_password, verify_password. destruct (crypto_pwhash_str salt p) eqn:E; [|done].
  intros [= ->]. by rewrite (pwhash_verify salt p h E).
Qed.

(** Every code verifies against its hash, in order. *)
Lemma hash_recovery_codes_verify codes : forall salts hs, hash_recovery_codes salts codes = Ok hs ->
  Forall2 (fun h c => verify_password h c = true /\ h <> "") hs codes.
Proof.
  induction codes as [|c codes IH]; intros salts hs; cbn [hash_recovery_codes]; [intros [= <-]; constructor|].
  destruct (hash_password (salts 0%nat) c) as [h|] eqn:E; [|done]. cbn [mbind res_bind].
  destruct (hash_recovery_codes _ codes) as [hs'|] eqn:E'; [|done]. cbn. intros [= <-].
  constructor; [|by eapply IH]. split; [by eapply hash_password_verifies|].
  unfold hash_password in E. destruct (crypto_pwhash_str _ _) eqn:E2; [|done]. injection E as ->.
  by eapply pwhash_nonempty.
Qed.
End laws.
