(* ===== verification/Ssl.v ===== *)
(** * ssl.cpp: sending and receiving whole buffers

    [recvAll] and [sendAll] over a connection whose calls may deliver or take any part of a buffer,
    or ask to be repeated.  The set-up of the context is in [Startup]. *)

From S2P Require Import Prelude.

(** What a call of [SSL_read] finds: bytes, a request to call again ([SSL_ERROR_WANT_READ] or
    [WANT_WRITE]), or an error.  The end of the list is a closed connection. *)
Inductive rd_event := rd_data (bs : list Z) | rd_retry | rd_fail.

(** What a call of [SSL_write] does: it takes [S n] bytes, or as many as there are if fewer, asks to
    be called again, or fails.  Behind the end of the list everything is taken at once. *)
Inductive wr_event := wr_take (n : nat) | wr_retry | wr_fail.

Record ssl := mk_ssl {
  incoming : list rd_event;
  outcomes : list wr_event;
  sent : list Z }.

(** ** The count of a call *)

(** [SSL_read] and [SSL_write] take the count as an [int]: the [size_t] that is passed is converted.
    A call with a negative count fails; the model takes a count of 0, whose treatment OpenSSL leaves
    open, for a failure too. *)
Definition num (len : nat) : Z := s32 (Z.of_nat len).

(** ** recvAll *)

(** The loop with [len] bytes to go: the bytes received, or [None] for [false].  A call takes at
    most [num len] bytes of the next record.  If that is less than [len], the bytes to go behind the
    call are a multiple of 2^32, and the count of the next call is 0. *)
Fixpoint recv_loop (evs : list rd_event) (len : nat) (acc : list Z) : option (list Z) * list rd_event :=
  match len with
  | O => (Some acc, evs)
  | S _ =>
      if num len <=? 0 then (None, evs)
      else
        match evs with
        | [] => (None, [])
        | rd_fail :: evs => (None, evs)
        | rd_retry :: evs => recv_loop evs len acc
        | rd_data [] :: evs => recv_loop evs len acc
        | rd_data bs :: evs =>
            let n := Z.to_nat (num len) in
            if (length bs <=? n)%nat then recv_loop evs (len - length bs) (acc ++ bs)
            else (if (n =? len)%nat then Some (acc ++ take n bs) else None, rd_data (drop n bs) :: evs)
        end
  end.

Definition recvAll (s : ssl) (len : nat) : option (list Z) * ssl :=
  let '(r, evs) := recv_loop (incoming s) len [] in (r, mk_ssl evs (outcomes s) (sent s)).

(** ** sendAll *)

(** The loop with the rest of the buffer: [true] when all of it was taken.  Behind the end of the
    list a call takes its whole count, and here too nothing but a multiple of 2^32 can be left. *)
Fixpoint send_loop (evs : list wr_event) (buffer : list Z) (out : list Z)
    : bool * list wr_event * list Z :=
  match buffer with
  | [] => (true, evs, out)
  | _ =>
      if num (length buffer) <=? 0 then (false, evs, out)
      else
        let count := Z.to_nat (num (length buffer)) in
        match evs with
        | [] => ((count =? length buffer)%nat, [], out ++ take count buffer)
        | wr_fail :: evs => (false, evs, out)
        | wr_retry :: evs => send_loop evs buffer out
        | wr_take n :: evs =>
            let n := Nat.min (S n) count in send_loop evs (drop n buffer) (out ++ take n buffer)
        end
  end.

(** The number of bytes sent, or -1. *)
Definition sendAll (s : ssl) (buffer : list Z) : Z * ssl :=
  let '(ok, evs, out) := send_loop (outcomes s) buffer (sent s) in
  (if (ok : bool) then Z.of_nat (length buffer) else -1, mk_ssl (incoming s) evs out).

(** ** Lemmas *)

(** The bytes that arrive before the first error. *)
Fixpoint arriving (evs : list rd_event) : list Z :=
  match evs with
  | rd_data bs :: evs => bs ++ arriving evs
  | rd_retry :: evs => arriving evs
  | _ => []
  end.

Lemma num_small len : Z.of_nat len < 2 ^ 31 -> num len = Z.of_nat len.
Proof. intros H. apply s32_small. lia. Qed.

Lemma num_big len : 2 ^ 31 <= Z.of_nat len < 2 ^ 32 -> num len < 0.
Proof. intros H. unfold num, s32. Z.to_euclidean_division_equations. lia. Qed.

Lemma num_le len : num len <= Z.of_nat len.
Proof. unfold num, s32. Z.to_euclidean_division_equations. lia. Qed.

(** What is received is the beginning of what arrives, whatever the count. *)
Lemma recv_loop_sound evs : forall len acc r evs', recv_loop evs len acc = (Some r, evs') ->
  (len <= length (arriving evs))%nat /\ r = acc ++ take len (arriving evs) /\ arriving evs' = drop len (arriving evs).
Proof.
  induction evs as [|ev evs IH]; intros len acc r evs'.
  { destruct len; cbn [recv_loop]; [intros [= <- <-]; by rewrite app_nil_r|]. by destruct (num _ <=? 0). }
  destruct len as [|len]; [cbn [recv_loop]; intros [= <- <-]; rewrite app_nil_r; split; [lia|done]|].
  cbn [recv_loop]. destruct (num (S len) <=? 0); [done|]. destruct ev as [bs| |]; [|apply IH|done]. destruct bs as [|b bs]; [apply IH|].
  set (l := b :: bs) in *. set (n := Z.to_nat (num (S len))). cbn [arriving]. rewrite length_app.
  destruct (Nat.leb_spec (length l) n) as [Hle|Hgt].
  - intros E. apply IH in E as (Hl & -> & ->). destruct (Nat.le_gt_cases (length l) (S len)) as [Hs|Hs].
    + rewrite take_app, drop_app, <- app_assoc, (take_ge l), (drop_ge l) by lia. split; [lia|done].
    + exfalso. pose proof (num_le (S len)). lia.
  - destruct (Nat.eqb_spec n (S len)) as [En|]; [|done]. intros [= <- <-]. rewrite En in *.
    split; [lia|]. rewrite take_app_le, drop_app_le by lia. done.
Qed.

(** Counts that are an [int] are received as soon as they have arrived; larger ones never. *)
Lemma recv_loop_complete evs : forall len acc, Z.of_nat len < 2 ^ 31 -> (len <= length (arriving evs))%nat ->
  exists r evs', recv_loop evs len acc = (Some r, evs').
Proof.
  induction evs as [|ev evs IH]; intros [|len] acc Hs Hl; [by eexists _, _|cbn in Hl; lia|by eexists _, _|].
  cbn [recv_loop]. rewrite num_small by done. destruct (Z.leb_spec (Z.of_nat (S len)) 0); [lia|]. rewrite Nat2Z.id.
  destruct ev as [[|b bs]| |]; [by apply IH| |by apply IH|cbn in Hl; lia]. cbn [arriving] in Hl. rewrite length_app in Hl.
  destruct (Nat.leb_spec (length (b :: bs)) (S len)); [apply IH; lia|]. rewrite Nat.eqb_refl. by eexists _, _.
Qed.

Lemma recv_loop_big evs len acc : 2 ^ 31 <= Z.of_nat len < 2 ^ 32 -> recv_loop evs len acc = (None, evs).
Proof.
  intros H. pose proof (num_big len H) as Hn. destruct len as [|len]; [lia|].
  destruct evs; cbn [recv_loop]; by destruct (Z.leb_spec (num (S len)) 0); [|lia].
Qed.

(** A buffer of an [int]'s size is sent when no write fails, and a larger one never. *)
Lemma send_loop_no_fail evs buffer out : Z.of_nat (length buffer) < 2 ^ 31 -> Forall (fun ev => ev <> wr_fail) evs ->
  exists evs', send_loop evs buffer out = (true, evs', out ++ buffer) /\ Forall (fun ev => ev <> wr_fail) evs'.
Proof.
  intros Hb Hf. revert buffer out Hb. induction Hf as [|ev evs Hev Hevs IH]; intros buffer out Hb;
    (destruct buffer as [|b buffer]; [cbn [send_loop]; rewrite app_nil_r; eexists; split; [done|by constructor]|]);
    cbn [send_loop]; rewrite num_small by done; destruct (Z.leb_spec (Z.of_nat (length (b :: buffer))) 0); try (cbn in *; lia); rewrite Nat2Z.id.
  { exists []. rewrite Nat.eqb_refl, firstn_all. done. }
  destruct ev as [n| |]; [|by apply IH|done]. set (k := Nat.min _ _).
  destruct (IH (drop k (b :: buffer)) (out ++ take k (b :: buffer))) as (evs' & -> & Hf'); [rewrite length_drop; lia|].
  exists evs'. by rewrite <- app_assoc, take_drop.
Qed.

Lemma send_loop_big evs buffer out : 2 ^ 31 <= Z.of_nat (length buffer) < 2 ^ 32 -> send_loop evs buffer out = (false, evs, out).
Proof.
  intros H. pose proof (num_big _ H) as Hn. destruct buffer as [|b buffer]; [cbn in H; lia|].
  destruct evs; cbn [send_loop]; by destruct (Z.leb_spec (num (length (b :: buffer))) 0); [|lia].
Qed.
