(* ===== verification/Db.v ===== *)
(** * db_management.cpp: the database functions

    Every function of the file, over an interface to SQLite (the class [Sqlite]) whose calls take the
    statement texts of the program.  What the statements mean is the class [SqliteLaws] of [DbSpec]. *)

From S2P Require Import Prelude Str Json Hash.
From Stdlib Require Import Ascii Sorting.Permutation Sorting.Sorted.
From Stdlib Require String.

Local Open Scope string_scope.
Local Open Scope Z_scope.

(** ** Structures *)

Record Detection := mk_Detection { imageBlob : list Z; timestamp : string }.

Record CrossLine := mk_CrossLine {
  index : Z; x1 : Z; y1 : Z; x2 : Z; y2 : Z; name : string; mode : string }.

Record BaseLine := mk_BaseLine {
  base_index : Z; matrixNum1 : Z; base_x1 : Z; base_y1 : Z;
  matrixNum2 : Z; base_x2 : Z; base_y2 : Z }.

Record VerticalLineEquation := mk_Vertical { vert_index : Z; vert_a : double; vert_b : double }.

Record Account := mk_Account { id : string; passwd : string; otp_secret : string; use_otp : bool }.

Record RecoveryCode := mk_RecoveryCode { code_id : string; code_hash : string; used : Z }.

(** ** The engine *)

Inductive value :=
| VNull
| VInt (z : Z)
| VReal (d : double)
| VText (s : string)
| VBlob (bs : list Z).

(** A row: the values by column name, in the order of the columns. *)
Definition row : Type := list (string * value).

(** [sql_exec] is [Statement::exec] on a prepared statement with its bound values, and returns the
    number of rows changed; [sql_query] gives the rows [executeStep] delivers and the exception that
    ends them, if any; the last three are [SQLite::Transaction]. *)
Class Sqlite (D : Type) := {
  sql_exec : string -> list value -> D -> res Z * D;
  sql_query : string -> list value -> D -> list row * option exn;
  sql_begin : D -> res unit * D;
  sql_commit : D -> res unit * D;
  sql_rollback : D -> D;
  sql_real_text : double -> string }.

(** ** Columns *)

(** The integer a text begins with, 0 if there is none. *)
Definition text_int (s : string) : Z :=
  match skip_spaces s with
  | String "-" s' => - dec_value 0 (take_digits s')
  | String "+" s' => dec_value 0 (take_digits s')
  | s' => dec_value 0 (take_digits s')
  end.

(** [getColumn(name)], [getInt()], [getString()] and [getBlob()]. *)
Fixpoint col (r : row) (nm : string) : res value :=
  match r with
  | [] => Throw (sqlite_error "no such column")
  | (c, v) :: r => if String.eqb c nm then Ok v else col r nm
  end.

Definition value_int (v : value) : Z :=
  match v with
  | VNull => 0
  | VInt z => s32 z
  | VReal d => match int_of_double d with Ok z => z | Throw _ => 0 end
  | VText s => s32 (text_int s)
  | VBlob bs => s32 (text_int (string_of bs))
  end.

(** ** The tables *)

(** The texts of the six [create_table] functions. *)
Definition sql_detections : string :=
  "CREATE TABLE IF NOT EXISTS detections (id INTEGER PRIMARY KEY AUTOINCREMENT, image BLOB, timestamp DATETIME DEFAULT CURRENT_TIMESTAMP NOT NULL)".

Definition sql_lines : string :=
  "CREATE TABLE IF NOT EXISTS lines (indexNum INTEGER PRIMARY KEY NOT NULL, x1 INTEGER NOT NULL , y1 INTEGER NOT NULL , x2 INTEGER NOT NULL , y2 INTEGER NOT NULL , name TEXT NOT NULL UNIQUE , mode TEXT )".

Definition sql_baseLines : string :=
  "CREATE TABLE IF NOT EXISTS baseLines (indexNum INTEGER PRIMARY KEY, matrixNum1 INTEGER NOT NULL, x1 INTEGER NOT NULL, y1 INTEGER NOT NULL, matrixNum2 INTEGER NOT NULL, x2 INTEGER NOT NULL, y2 INTEGER NOT NULL)".

Definition sql_verticalLineEquations : string :=
  "CREATE TABLE IF NOT EXISTS verticalLineEquations (indexNum INTEGER PRIMARY KEY, a REAL NOT NULL, b REAL NOT NULL)".

Definition sql_accounts : string :=
  "CREATE TABLE IF NOT EXISTS accounts (id TEXT PRIMARY KEY, passwd TEXT NOT NULL, otp_secret TEXT, use_otp INTEGER DEFAULT 0)".

Definition sql_recovery_codes : string :=
  "CREATE TABLE IF NOT EXISTS recovery_codes (id TEXT NOT NULL, code TEXT NOT NULL, used INTEGER DEFAULT 0, FOREIGN KEY(id) REFERENCES accounts(id))".

Section functions.
Context {D : Type} `{Sqlite D} `{Pwhash}.

Definition value_string (v : value) : string :=
  match v with
  | VNull => ""
  | VInt z => if z <? 0 then String "-" (to_string (- z)) else to_string z
  | VReal d => sql_real_text d
  | VText s => s
  | VBlob bs => string_of bs
  end.

Definition value_blob (v : value) : list Z :=
  match v with
  | VNull => []
  | VBlob bs => bs
  | v => bytes_of (value_string v)
  end.

(** [query.getColumn(nm)] as an integer, as a string, as a blob. *)
Definition col_int (r : row) (nm : string) : res Z := value_int <$> col r nm.
Definition col_string (r : row) (nm : string) : res string := value_string <$> col r nm.
Definition col_blob (r : row) (nm : string) : res (list Z) := value_blob <$> col r nm.

(** The loop [while (query.executeStep()) v.push_back(...)] inside its [try]: what was collected
    before an exception is kept. *)
Fixpoint collect {A} (f : row -> res A) (rows : list row) : list A :=
  match rows with
  | [] => []
  | r :: rows => match f r with Ok a => a :: collect f rows | Throw _ => [] end
  end.

Definition select_rows {A} (sql : string) (args : list value) (f : row -> res A) : M D (list A) :=
  d ← getS; mret (collect f (fst (sql_query sql args d))).

(** [try { query.exec(); return true; } catch (exception) { return false; }]. *)
Definition exec_flag (sql : string) (args : list value) : M D bool :=
  try_catch (sql_exec sql args ;; mret true) is_std_exception (fun _ => mret false).

(** The same with [if (changes == 0) return false]. *)
Definition exec_changes (sql : string) (args : list value) : M D bool :=
  try_catch (changes ← sql_exec sql args; mret (negb (changes =? 0)))
    is_std_exception (fun _ => mret false).

(** [db.exec(sql)]; an exception is not caught. *)
Definition db_exec (sql : string) : M D unit := sql_exec sql [] ;; mret tt.

(** ** detections *)

Definition create_table_detections : M D unit := db_exec sql_detections.

Definition insert_data_detections (detection : Detection) : M D bool :=
  exec_flag "INSERT INTO detections (image, timestamp) VALUES (?, ?)"
    [VBlob (imageBlob detection); VText (timestamp detection)].

Definition select_data_for_timestamp_range_detections (startTimestamp endTimestamp : string)
    : M D (list Detection) :=
  select_rows "SELECT * FROM detections WHERE timestamp BETWEEN ? AND ? ORDER BY timestamp"
    [VText startTimestamp; VText endTimestamp]
    (fun r => image ← col_blob r "image"; ts ← col_string r "timestamp"; Ok (mk_Detection image ts)).

Definition delete_all_data_detections : M D unit :=
  try_catch (sql_exec "DELETE FROM detections" [] ;; mret tt) is_std_exception (fun _ => mret tt).

(** ** lines *)

Definition create_table_lines : M D unit := db_exec sql_lines.

Definition insert_data_lines (l : CrossLine) : M D bool :=
  exec_flag "INSERT INTO lines (indexNum, x1, y1, x2, y2, name, mode) VALUES (?, ?, ?, ?, ?, ?, ?)"
    [VInt (index l); VInt (x1 l); VInt (y1 l); VInt (x2 l); VInt (y2 l); VText (name l); VText (mode l)].

Definition read_line (r : row) : res CrossLine :=
  i ← col_int r "indexNum"; a ← col_int r "x1"; b ← col_int r "y1"; c ← col_int r "x2"; d ← col_int r "y2";
  n ← col_string r "name"; m ← col_string r "mode";
  Ok (mk_CrossLine i a b c d n m).

Definition select_all_data_lines : M D (list CrossLine) :=
  select_rows "SELECT * FROM lines ORDER BY name" [] read_line.

Definition delete_data_lines (indexNum : Z) : M D bool :=
  exec_changes "DELETE FROM lines WHERE indexNum = ?" [VInt indexNum].

Definition delete_all_data_lines : M D bool := exec_changes "DELETE FROM lines" [].

(** ** baseLines *)

Definition create_table_baseLines : M D unit := db_exec sql_baseLines.

Definition read_baseLine (r : row) : res BaseLine :=
  i ← col_int r "indexNum"; m1 ← col_int r "matrixNum1"; a ← col_int r "x1"; b ← col_int r "y1";
  m2 ← col_int r "matrixNum2"; c ← col_int r "x2"; d ← col_int r "y2";
  Ok (mk_BaseLine i m1 a b m2 c d).

Definition select_all_data_baseLines : M D (list BaseLine) :=
  select_rows "SELECT * FROM baseLines" [] read_baseLine.

Definition insert_data_baseLines (b : BaseLine) : M D bool :=
  exec_flag "INSERT INTO baseLines (indexNum, matrixNum1, x1, y1, matrixNum2, x2, y2) VALUES (?, ?, ?, ?, ?, ?, ?)"
    [VInt (base_index b); VInt (matrixNum1 b); VInt (base_x1 b); VInt (base_y1 b);
     VInt (matrixNum2 b); VInt (base_x2 b); VInt (base_y2 b)].

Definition update_data_baseLines (b : BaseLine) : M D bool :=
  exec_flag "UPDATE baseLines SET matrixNum1 = ?, matrixNum2 = ? WHERE indexNum = ?"
    [VInt (matrixNum1 b); VInt (matrixNum2 b); VInt (base_index b)].

Definition delete_all_data_baseLines : M D bool := exec_changes "DELETE FROM baselines" [].

(** ** verticalLineEquations *)

Definition create_table_verticalLineEquations : M D unit := db_exec sql_verticalLineEquations.

(** [exec] on a query throws when there is a row, and [getColumn] throws when there is none. *)
Definition exec_select (sql : string) (args : list value) : M D unit :=
  d ← getS;
  match sql_query sql args d with
  | (_, Some e) => throwM e
  | (_ :: _, None) => throwM (sqlite_error "exec() does not expect results. Use executeStep.")
  | ([], None) => mret tt
  end.

Definition getColumn_without_row {A} : M D A := throwM (sqlite_error "No row to get a column from.").

(** [uninit] is what the local variable happens to hold. *)
Definition select_data_verticalLineEquations (uninit : VerticalLineEquation) (idx : Z)
    : M D VerticalLineEquation :=
  try_catch
    (exec_select "SELECT * FROM verticalLineEquations WHERE index = ?" [VInt idx] ;;
     getColumn_without_row)
    is_std_exception (fun _ => mret uninit).

Definition insert_data_verticalLineEquations (v : VerticalLineEquation) : M D bool :=
  exec_flag "INSERT INTO verticalLineEquations (indexNum, a, b) VALUES (?, ?, ?)"
    [VInt (vert_index v); VReal (vert_a v); VReal (vert_b v)].

Definition delete_all_data_verticalLineEquations : M D bool :=
  exec_changes "DELETE FROM verticalLineEquations" [].

(** ** accounts *)

Definition create_table_accounts : M D unit := db_exec sql_accounts.

Definition insert_data_accounts (a : Account) : M D bool :=
  exec_flag "INSERT INTO accounts (id, passwd, otp_secret, use_otp) VALUES (?, ?, ?, ?)"
    [VText (id a); VText (passwd a); VText (otp_secret a); VInt (if use_otp a then 1 else 0)].

(** [getColumn(i)] by position. *)
Definition col_nth (r : row) (i : nat) : res value :=
  match r !! i with Some (_, v) => Ok v | None => Throw (sqlite_error "Column index out of range.") end.

Definition read_account (r : row) : res Account :=
  i ← col_nth r 0; p ← col_nth r 1; s ← col_nth r 2; u ← col_nth r 3;
  Ok (mk_Account (value_string i) (value_string p) (value_string s) (value_int u =? 1)).

Definition get_account_by_id (i : string) : M D (option Account) :=
  d ← getS;
  match sql_query "SELECT id, passwd, otp_secret, use_otp FROM accounts WHERE id = ?" [VText i] d with
  | (r :: _, _) => match read_account r with Ok a => mret (Some a) | Throw _ => mret None end
  | ([], _) => mret None
  end.

(** [getColumn] is called without [executeStep] before it. *)
Definition select_data_accounts (i p : string) : M D (option Account) :=
  if str_empty i || str_empty p then mret None
  else try_catch (Some <$> getColumn_without_row) is_std_exception (fun _ => mret None).

Definition store_otp_secret (i secret : string) : M D bool :=
  exec_flag "UPDATE accounts SET otp_secret = ? WHERE id = ?" [VText secret; VText i].

(** ** recovery_codes *)

Definition create_table_recovery_codes : M D unit := db_exec sql_recovery_codes.

Fixpoint insert_codes (i : string) (codes : list string) : M D unit :=
  match codes with
  | [] => mret tt
  | c :: codes =>
      sql_exec "INSERT INTO recovery_codes (id, code) VALUES (?, ?)" [VText i; VText c] ;;
      insert_codes i codes
  end.

(** [SQLite::Transaction] around a body: its destructor rolls back what was not committed. *)
Definition with_transaction (body : M D unit) : M D unit := fun d =>
  match sql_begin d with
  | (Throw e, d) => (Throw e, d)
  | (Ok _, d) =>
      match body d with
      | (Throw e, d) => (Throw e, sql_rollback d)
      | (Ok _, d) =>
          match sql_commit d with
          | (Throw e, d) => (Throw e, sql_rollback d)
          | (Ok _, d) => (Ok tt, d)
          end
      end
  end.

Definition store_recovery_codes (i : string) (codes : list string) : M D bool :=
  try_catch (with_transaction (insert_codes i codes) ;; mret true) is_std_exception (fun _ => mret false).

Definition get_hashed_recovery_codes (i : string) : M D (list string) :=
  select_rows "SELECT code FROM recovery_codes WHERE id = ? AND used = 0" [VText i]
    (fun r => value_string <$> col_nth r 0).

Definition verify_recovery_code (i input : string) : M D bool :=
  hashed_codes ← get_hashed_recovery_codes i;
  mret (existsb (fun hashed => verify_password hashed input) hashed_codes).

Definition invalidate_recovery_code (i input_code : string) : M D bool :=
  try_catch
    (hashed_codes ← get_hashed_recovery_codes i;
     let matched_hash := default "" (List.find (fun h => verify_password h input_code) hashed_codes) in
     if str_empty matched_hash then mret false
     else changes ← sql_exec "UPDATE recovery_codes SET used = 1 WHERE id = ? AND code = ?"
                      [VText i; VText matched_hash];
          mret (0 <? changes))
    is_std_exception (fun _ => mret false).
End functions.
