(* ===== verification/Control.v ===== *)
(** * main_control.cpp: the monitor

    The program that watches the camera's metadata stream, follows the vehicles, and switches the
    displays of the boards on when a person crosses a line towards an approaching vehicle.  The global
    variables and the local ones of [metadata_thread] are the state; the output of ffmpeg, the clock,
    the serial ports and the database other programs write to are arguments. *)

From S2P Require Import Prelude Str Regex BoardControl Decimal Json Numbers Config Calendar Hash Db.
From Stdlib Require Import Ascii SpecFloat.
From Stdlib Require String.

Local Open Scope string_scope.
Local Open Scope Z_scope.

Record Point := mk_Point { px : spec_float; py : spec_float }.

Record Line := mk_Line { line_start : Point; line_end : Point; line_mode : string; line_name : string }.

(** ** The boards *)

Definition board_info : list (Z * string) :=
  [(1, "/dev/ttyAMA0"); (2, "/dev/ttyAMA2"); (3, "/dev/ttyAMA1"); (4, "/dev/ttyAMA3")].

Fixpoint find_port (info : list (Z * string)) (board_id : Z) : string :=
  match info with
  | [] => ""
  | (id, port) :: info => if id =? board_id then port else find_port info board_id
  end.

Definition get_uart_port_for_board (board_id : Z) : string := find_port board_info board_id.

(** What a call of [control_board] does: nothing for an unknown board; it ends the process when the
    port cannot be opened; otherwise the exchange on the port and whether it was acknowledged. *)
Inductive board_result :=
| board_unknown
| board_exit (port : string)
| board_done (port : string) (ok : bool) (events : list port_event).

(** The ports that can be opened, and the bytes heard on them during the attempts. *)
Record ports := mk_ports { can_open : string -> bool; hears : list (list (option Z)) }.

Definition control_board (board_id cmd : Z) (p : ports) : board_result :=
  let port := get_uart_port_for_board board_id in
  if str_empty port then board_unknown
  else if negb (can_open p port) then board_exit port
  else
    let '(ok, events) :=
      if cmd =? CMD_LCD_ON then send_lcd_on_with_ack board_id 3 500 (hears p)
      else if cmd =? CMD_LCD_OFF then send_lcd_off_with_ack board_id 3 500 (hears p)
      else (false, []) in
    board_done port ok events.

(** The steps of the thread of an alert; the capture runs in a thread of its own. *)
Inductive async_step :=
| async_board (r : board_result)
| async_capture (utc_time_str : string).

Definition control_board_async (board_id : Z) (utc_time_str : string) (on off : ports) : list async_step :=
  match control_board board_id 0x01 on with
  | board_exit port => [async_board (board_exit port)]
  | r => [async_board r; async_capture utc_time_str; async_board (control_board board_id 0x02 off)]
  end.

(** ** The state *)

Record globals := mk_globals {
  base_line_pairs : list (Z * Point * Z * Point);
  dot_center : Point;
  rule_lines : gmap string Line;
  vehicle_trajectory_history : gmap Z (list Point) }.

Definition zero_point : Point := mk_Point zero_float zero_float.
Definition initial_globals : globals := mk_globals [] zero_point ∅ ∅.

Definition set_pairs l (g : globals) := mk_globals l (dot_center g) (rule_lines g) (vehicle_trajectory_history g).
Definition set_center p (g : globals) := mk_globals (base_line_pairs g) p (rule_lines g) (vehicle_trajectory_history g).
Definition set_rules m (g : globals) := mk_globals (base_line_pairs g) (dot_center g) m (vehicle_trajectory_history g).
Definition set_vehicles m (g : globals) := mk_globals (base_line_pairs g) (dot_center g) (rule_lines g) m.

(** ** Geometry *)

Definition epsilon : double := S754_finite false 5902958103587057 (-69).

(** [None] for [return false], which leaves the output alone. *)
Definition calculate_intersection (a1 a2 b1 b2 : Point) : option Point :=
  let A1 := fsub (py a2) (py a1) in
  let B1 := fsub (px a1) (px a2) in
  let C1 := fadd (fmul A1 (px a1)) (fmul B1 (py a1)) in
  let A2 := fsub (py b2) (py b1) in
  let B2 := fsub (px b1) (px b2) in
  let C2 := fadd (fmul A2 (px b1)) (fmul B2 (py b1)) in
  let det := fsub (fmul A1 B2) (fmul A2 B1) in
  if SFltb (double_of_float (SFabs det)) epsilon then None
  else Some (mk_Point (fdiv (fsub (fmul B2 C1) (fmul B1 C2)) det) (fdiv (fsub (fmul A1 C2) (fmul A2 C1)) det)).

Definition minus_two : spec_float := float_of_int (-2).

Definition compute_cosine_similarity (a b : Point) : spec_float :=
  let dot := fadd (fmul (px a) (px b)) (fmul (py a) (py b)) in
  let mag_a := fsqrt (fadd (fmul (px a) (px a)) (fmul (py a) (py a))) in
  let mag_b := fsqrt (fadd (fmul (px b) (px b)) (fmul (py b) (py b))) in
  if SFeqb mag_a zero_float || SFeqb mag_b zero_float then minus_two else fdiv dot (fmul mag_a mag_b).

(** ** The database *)

(** [query.getColumn(k)]. *)
Definition col_at (r : row) (k : nat) : res value :=
  match r !! k with Some (_, v) => Ok v | None => Throw (sqlite_error "column index out of range") end.

Definition sql_create_detections : string :=
  "CREATE TABLE IF NOT EXISTS detections (id INTEGER PRIMARY KEY AUTOINCREMENT, image BLOB, timestamp DATETIME NOT NULL)".

Section database.
Context {D : Type} `{Sqlite D}.

Definition create_detections_table : M D unit := db_exec sql_create_detections.

Definition insert_data (image_data : list Z) (timestamp : string) : M D unit :=
  try_catch
    (sql_exec "INSERT INTO detections (image, timestamp) VALUES (?, ?)" [VBlob image_data; VText timestamp] ;; mret tt)
    is_std_exception (fun _ => mret tt).

(** The columns of a point, scaled. *)
Definition point_at (scx scy : spec_float) (r : row) (k : nat) : res Point :=
  x ← value_int <$> col_at r k;
  y ← value_int <$> col_at r (S k);
  Ok (mk_Point (fmul (float_of_int x) scx) (fmul (float_of_int y) scy)).

Definition dot_pair (scx scy : spec_float) (r : row) : res (Z * Point * Z * Point) :=
  id1 ← value_int <$> col_at r 0;
  p1 ← point_at scx scy r 1;
  id2 ← value_int <$> col_at r 3;
  p2 ← point_at scx scy r 4;
  Ok (id1, p1, id2, p2).

Definition rule_line (scx scy : spec_float) (r : row) : res Line :=
  s ← point_at scx scy r 0;
  e ← point_at scx scy r 2;
  nm ← value_string <$> col_at r 4;
  md ← value_string <$> col_at r 5;
  Ok (mk_Line s e md nm).

(** The loop [while (query.executeStep())] with an action for each row: it ends with an exception of
    the action, or of the query behind the last row. *)
Fixpoint for_rows (rows : list row) (err : option exn) (f : row -> M globals unit) : M globals unit :=
  match rows with
  | [] => match err with None => mret tt | Some e => throwM e end
  | r :: rows => f r ;; for_rows rows err f
  end.

Definition half (a b : spec_float) : spec_float := fdiv (fadd a b) (float_of_int 2).
Definition middle (a b : Point) : Point := mk_Point (half (px a) (px b)) (half (py a) (py b)).

(** The center of the displays, from the first two pairs. *)
Definition compute_center (pairs : list (Z * Point * Z * Point)) (old : Point) : Point :=
  match pairs with
  | (_, p1, _, p2) :: (_, q1, _, q2) :: _ =>
      match calculate_intersection p1 p2 q1 q2 with Some inter => inter | None => middle p1 p2 end
  | [(_, p1, _, p2)] => middle p1 p2
  | [] => old
  end.

Definition load_dots_and_center (cfg : AppConfig) (d : D) : M globals unit :=
  let scx := fdiv (scale_x cfg) (base_x cfg) in
  let scy := fdiv (scale_y cfg) (base_y cfg) in
  modS (set_pairs []) ;;
  try_catch
    (let '(rows, err) := sql_query "SELECT matrixNum1, x1, y1, matrixNum2, x2, y2 FROM baseLines" [] d in
     for_rows rows err (fun r => p ← liftR (dot_pair scx scy r); modS (fun g => set_pairs (base_line_pairs g ++ [p])%list g)) ;;
     modS (fun g => set_center (compute_center (base_line_pairs g) (dot_center g)) g))
    is_std_exception (fun _ => mret tt).

(** The lines of an earlier load stay. *)
Definition load_rule_lines (cfg : AppConfig) (d : D) : M globals unit :=
  let scx := fdiv (scale_x cfg) (base_x cfg) in
  let scy := fdiv (scale_y cfg) (base_y cfg) in
  try_catch
    (let '(rows, err) := sql_query "SELECT x1, y1, x2, y2, name, mode FROM lines LIMIT 8" [] d in
     for_rows rows err (fun r => l ← liftR (rule_line scx scy r); modS (fun g => set_rules (<[line_name l := l]> (rule_lines g)) g)))
    is_std_exception (fun _ => mret tt).

(** ** Capture *)

Definition capture_command (cfg : AppConfig) : string :=
  "ffmpeg -i " +:+ get_rtsp_url cfg +:+ " -vframes 1 -c:v mjpeg -f image2pipe - 2>/dev/null".

(** [popen]: the bytes a command writes, [None] when it cannot be started. *)
Definition capture_screen_and_save (cfg : AppConfig) (popen : string -> option (list Z)) (utc_time_str : string) : M D unit :=
  if str_empty utc_time_str then mret tt
  else match get_time utc_time_str with
  | None => mret tt
  | Some tm =>
      let time_utc := timegm tm in
      if time_utc =? -1 then mret tt
      else
        let kst_timestamp_str := print_time (gmtime (time_utc + 9 * 3600)) "KST" in
        match popen (c_str (capture_command cfg)) with
        | None => mret tt
        | Some [] => mret tt
        | Some image_data => insert_data image_data kst_timestamp_str
        end
  end.
End database.

(** ** The expressions *)

Definition not_gt (c : ascii) : bool := negb (Ascii.eqb c ">").
Definition not_lt (c : ascii) : bool := negb (Ascii.eqb c "<").
Definition not_quote (c : ascii) : bool := negb (code c =? 34).
Definition any_char (c : ascii) : bool := true.
Definition digit_or_dot (c : ascii) : bool := is_digit c || (code c =? 46).

(** The text of an attribute up to the opening quote of its value. *)
Definition attr_open (s : string) : string := s +:+ "=" +:+ quote.
Definition simple_item (nm : string) : string :=
  attr_open "<tt:SimpleItem Name" +:+ nm +:+ quote +:+ attr_open " Value".
Definition item_close : string := quote +:+ "/>".

Definition topic_regex : re :=
  rseq [lit "<wsnt:Topic"; RStar false not_gt; lit ">"; RGroup 1 (RStar false not_lt); lit "</wsnt:Topic>"].
Definition id_regex : re := rseq [lit (simple_item "ObjectId"); RGroup 1 (rplus is_digit); lit item_close].
Definition rule_regex : re := rseq [lit (simple_item "RuleName"); RGroup 1 (rplus not_quote); lit item_close].
Definition state_regex : re := lit (simple_item "State" +:+ "true" +:+ quote).

Definition type_regex_from (before : list re) (n : nat) : re :=
  rseq (before ++ [lit "<tt:Type"; RStar false not_gt; lit ">"; RGroup n (RStar false not_lt); lit "</tt:Type>"])%list.
Definition type_regex : re := type_regex_from [] 1.

(** The text the id is put into; the callers pass digits. *)
Definition human_regex (object_id : string) : re :=
  type_regex_from [lit (attr_open "<tt:Object ObjectId" +:+ object_id +:+ quote); RStar true any_char] 1.

Definition object_block_regex : re :=
  rseq [lit (attr_open "<tt:Object ObjectId"); RGroup 1 (rplus is_digit); lit (quote +:+ ">");
        RGroup 2 (RStar true any_char); lit "</tt:Object>"].
Definition cog_regex : re :=
  rseq [lit "<tt:CenterOfGravity"; RStar false not_gt; lit (attr_open "x"); RGroup 1 (rplus digit_or_dot);
        lit (quote +:+ attr_open " y"); RGroup 2 (rplus digit_or_dot); lit quote].
Definition utc_regex : re :=
  rseq [lit "<tt:Frame"; RStar false not_gt; lit (attr_open "UtcTime"); RGroup 1 (rplus not_quote); lit quote;
        RStar false not_gt; lit ">"].

Definition contains (l s : string) : bool := match find_sub l s with Some _ => true | None => false end.

Definition contains_frame_block (block : string) : bool :=
  contains "<tt:VideoAnalytics>" block && contains "<tt:Frame" block.

(** The id and the rule of an event; [None] for [return false]. *)
Definition is_linecrossing_event (event_block : string) : option (string * string) :=
  match regex_search topic_regex event_block with
  | Some (topic, _) =>
      if contains "LineCrossing" (group topic 1) then
        match regex_search id_regex event_block, regex_search rule_regex event_block, regex_search state_regex event_block with
        | Some (i, _), Some (r, _), Some _ => Some (group i 1, group r 1)
        | _, _, _ => None
        end
      else None
  | None => None
  end.

Definition is_human (block object_id : string) : bool :=
  match regex_search (human_regex object_id) block with
  | Some (m, _) => String.eqb (group m 1) "Human"
  | None => false
  end.

(** ** Vehicles *)

(** [history.push_back(cog)], with the oldest position dropped when there are too many; the [int] is
    compared as an unsigned number. *)
Definition push_position (history_size : Z) (history : list Point) (cog : Point) : list Point :=
  let history := (history ++ [cog])%list in
  if u64 history_size <? Z.of_nat (length history) then tail history else history.

(** What one object of a frame is: a vehicle with its position, or something else. *)
Definition vehicle_at (object_content : string) : res (option Point) :=
  match regex_search type_regex object_content with
  | None => Ok None
  | Some (m, _) =>
      if String.eqb (group m 1) "Vehicle" || String.eqb (group m 1) "Vehical" then
        match regex_search cog_regex object_content with
        | None => Ok None
        | Some (m, _) => x ← stof (group m 1); y ← stof (group m 2); Ok (Some (mk_Point x y))
        end
      else Ok None
  end.

(** The loop over the objects of a frame; the result is the set of vehicles seen. *)
Fixpoint track_objects (cfg : AppConfig) (ms : list caps) (seen : gset Z) : M globals (gset Z) :=
  match ms with
  | [] => mret seen
  | m :: ms =>
      id ← liftR (stoi (group m 1));
      cog ← liftR (vehicle_at (group m 2));
      match cog with
      | None => track_objects cfg ms seen
      | Some cog =>
          modS (fun g => set_vehicles (<[id := push_position (history_size cfg)
                  (default [] (vehicle_trajectory_history g !! id)) cog]> (vehicle_trajectory_history g)) g) ;;
          track_objects cfg ms ({[id]} ∪ seen)
      end
  end.

Definition id_text (id : Z) : string := attr_open "<tt:Object ObjectId" +:+ int_string id +:+ quote.
Definition found_in_cache (frame_cache : list string) (id : Z) : bool := existsb (contains (id_text id)) frame_cache.

Definition update_vehicle_positions (cfg : AppConfig) (frame_block : string) (frame_cache : list string) : M globals unit :=
  seen ← track_objects cfg (regex_iterator object_block_regex frame_block) ∅;
  modS (fun g => set_vehicles (filter (fun '(id, _) => id ∈ seen \/ found_in_cache frame_cache id = true)
                                (vehicle_trajectory_history g)) g).

(** ** Risk *)

Definition FLT_MAX : spec_float := S754_finite false 16777215 104.

(** [pow(dx, 2) + pow(dy, 2)] in double precision, assigned to a float. *)
Definition dist_sq (a b : Point) : spec_float :=
  float_of_double (SFadd 53 1024 (square (fsub (px a) (px b))) (square (fsub (py a) (py b)))).

(** The closest display so far, the board opposite to it, and the squared distance; the local
    variable is not initialised, which [None] stands for. *)
Definition closer (pos : Point) (id : Z) (p : Point) (opposite : Z) (best : option Point * Z * spec_float)
    : option Point * Z * spec_float :=
  let d := dist_sq pos p in
  if SFltb d best.2 then (Some p, opposite, d) else best.

Fixpoint closest_dot (pos : Point) (pairs : list (Z * Point * Z * Point)) (best : option Point * Z * spec_float)
    : option Point * Z * spec_float :=
  match pairs with
  | [] => best
  | (id1, p1, id2, p2) :: pairs => closest_dot pos pairs (closer pos id2 p2 id1 (closer pos id1 p1 id2 best))
  end.

Definition distance (a b : Point) : spec_float := hypotf (fsub (px a) (px b)) (fsub (py a) (py b)).

(** The body of the loop over the vehicles: the board to switch on, if any. *)
Definition assess_vehicle (cfg : AppConfig) (g : globals) (line_vector : Point) (history : list Point) : res (option Z) :=
  match history, last history with
  | oldest_pos :: _ :: _, Some newest_pos =>
      match closest_dot oldest_pos (base_line_pairs g) (None, -1, FLT_MAX) with
      | (None, _, _) => Throw undefined_behavior
      | (Some closest, board_id, _) =>
          let dist_old := distance oldest_pos (dot_center g) in
          let dist_new := distance newest_pos (dot_center g) in
          if SFltb (fsub dist_old (dist_threshold cfg)) dist_new then Ok None
          else
            let vehicle_vector := mk_Point (fsub (px (dot_center g)) (px closest)) (fsub (py (dot_center g)) (py closest)) in
            let similarity := compute_cosine_similarity vehicle_vector line_vector in
            if SFleb (parallelism_threshold cfg) (SFabs similarity) then Ok (Some board_id) else Ok None
      end
  | _, _ => Ok None
  end.

(** The vehicles in the order of the table, with the boards to switch on. *)
Fixpoint assess_all (cfg : AppConfig) (g : globals) (line_vector : Point) (vs : list (Z * list Point)) : res (list (Z * Z)) :=
  match vs with
  | [] => Ok []
  | (vehicle_id, history) :: vs =>
      r ← assess_vehicle cfg g line_vector history;
      rest ← assess_all cfg g line_vector vs;
      Ok (match r with Some board_id => (vehicle_id, board_id) :: rest | None => rest end)
  end.

(** The alerts raised: vehicle and board of each thread started. *)
Definition analyze_risk_and_alert (cfg : AppConfig) (g : globals) (rule_name : string) : res (list (Z * Z)) :=
  match rule_lines g !! rule_name with
  | None => Ok []
  | Some crossed_line =>
      let line_vector := mk_Point (fsub (px (line_end crossed_line)) (px (line_start crossed_line)))
                                  (fsub (py (line_end crossed_line)) (py (line_start crossed_line))) in
      assess_all cfg g line_vector (map_to_list (vehicle_trajectory_history g))
  end.

(** ** The stream *)

Record monitor := mk_monitor {
  m_globals : globals;
  xml_buffer : string;
  frame_cache : list string;
  last_reload : Z;
  alerts : list (Z * Z * string) }.

Definition set_xml x (m : monitor) := mk_monitor (m_globals m) x (frame_cache m) (last_reload m) (alerts m).
Definition set_cache l (m : monitor) := mk_monitor (m_globals m) (xml_buffer m) l (last_reload m) (alerts m).
Definition set_reload t (m : monitor) := mk_monitor (m_globals m) (xml_buffer m) (frame_cache m) t (alerts m).
Definition add_alerts l (m : monitor) := mk_monitor (m_globals m) (xml_buffer m) (frame_cache m) (last_reload m) (alerts m ++ l)%list.
Definition on_globals {A} (f : M globals A) : M monitor A := fun m =>
  let '(r, g) := f (m_globals m) in (r, mk_monitor g (xml_buffer m) (frame_cache m) (last_reload m) (alerts m)).

(** [fgets]: up to a newline, and at most [n] characters. *)
Fixpoint fgets (n : nat) (s : string) : string * string :=
  match n, s with
  | S n, String c s' =>
      if Ascii.eqb c newline then (String c "", s')
      else let '(l, rest) := fgets n s' in (String c l, rest)
  | _, _ => ("", s)
  end.

Definition BUFFER_SIZE : nat := Z.to_nat 8192.

(** What the successive calls of [fgets] return: each takes at least one character. *)
Fixpoint fgets_all (fuel : nat) (s : string) : list string :=
  match fuel, s with
  | S fuel, String _ _ => let '(l, rest) := fgets (BUFFER_SIZE - 1) s in l :: fgets_all fuel rest
  | _, _ => []
  end.

(** The newest frame in which the object is a person, and the time of that frame. *)
Fixpoint find_human (frames : list string) (object_id : string) : option string :=
  match frames with
  | [] => None
  | f :: frames =>
      if is_human f object_id then
        Some (match regex_search utc_regex f with Some (m, _) => group m 1 | None => "" end)
      else find_human frames object_id
  end.

Definition handle_frame (cfg : AppConfig) (block : string) : M monitor unit :=
  if contains_frame_block block then
    m ← getS;
    let cache := (frame_cache m ++ [block])%list in
    let cache := if frame_cache_size cfg <? Z.of_nat (length cache) then tail cache else cache in
    modS (set_cache cache) ;;
    on_globals (update_vehicle_positions cfg block cache)
  else mret tt.

Definition handle_event (cfg : AppConfig) (block : string) : M monitor unit :=
  match is_linecrossing_event block with
  | None => mret tt
  | Some (object_id, rule_name) =>
      m ← getS;
      match find_human (rev (frame_cache m)) object_id with
      | None => mret tt
      | Some utc_time_str =>
          _ ← liftR (stoi object_id);
          started ← liftR (analyze_risk_and_alert cfg (m_globals m) rule_name);
          modS (add_alerts (map (fun a => (a, utc_time_str)) started))
      end
  end.

Section thread.
Context {D : Type} `{Sqlite D}.

Definition reload_interval : Z := 30 * 10 ^ 9.

(** The body of the loop: [now] is the clock, in nanoseconds, and [d] the database as it is then. *)
Definition monitor_step (cfg : AppConfig) (buffer : string) (now : Z) (d : D) : M monitor unit :=
  modS (fun m => set_xml (xml_buffer m +:+ c_str buffer) m) ;;
  m ← getS;
  (if reload_interval <? now - last_reload m then
     on_globals (load_dots_and_center cfg d) ;;
     on_globals (load_rule_lines cfg d) ;;
     modS (set_reload now)
   else mret tt) ;;
  m ← getS;
  if contains "</tt:MetadataStream>" (xml_buffer m) then
    let block := xml_buffer m in
    modS (set_xml "") ;;
    handle_frame cfg block ;;
    handle_event cfg block
  else mret tt.

Fixpoint monitor_loop (cfg : AppConfig) (clock : nat -> Z) (db_at : nat -> D) (k : nat) (lines : list string) : M monitor unit :=
  match lines with
  | [] => mret tt
  | l :: lines => monitor_step cfg l (clock k) (db_at k) ;; monitor_loop cfg clock db_at (S k) lines
  end.

Definition stream_command (cfg : AppConfig) : string :=
  "ffmpeg -i " +:+ get_rtsp_url cfg +:+ " -map 0:1 -f data - 2>/dev/null".

(** [popen] gives what ffmpeg writes until it ends. *)
Definition metadata_thread (cfg : AppConfig) (popen : string -> option string) (clock : nat -> Z) (db_at : nat -> D)
    (g : globals) : res unit * monitor :=
  let m := mk_monitor g "" [] (clock 0%nat) [] in
  match popen (c_str (stream_command cfg)) with
  | None => (Ok tt, m)
  | Some output => monitor_loop cfg clock db_at 1 (fgets_all (String.length output) output) m
  end.

(** The exit code; a [Throw] is undefined behaviour.  [open_db] is the constructor of the database,
    and [db_at] what other programs have made of it when a line is read. *)
Definition main (env_file config_file : option string) (e : environment) (open_db : string -> res D)
    (popen : string -> option string) (clock : nat -> Z) (db_at : D -> nat -> D) : res Z :=
  match load_all_config env_file config_file e empty_config with
  | (Ok (true, _), cfg) =>
      match open_db (db_file cfg) with
      | Throw e => if is_std_exception e then Ok 1 else Throw e
      | Ok d =>
          match create_detections_table d with
          | (Throw e, _) => if is_std_exception e then Ok 1 else Throw e
          | (Ok _, d) =>
              match (load_dots_and_center cfg d ;; load_rule_lines cfg d) initial_globals with
              | (Throw e, _) => if is_std_exception e then Ok 1 else Throw e
              | (Ok _, g) =>
                  match metadata_thread cfg popen clock (db_at d) g with
                  | (Ok _, _) => Ok 0
                  | (Throw e, _) => if is_std_exception e then Ok 1 else Throw e
                  end
              end
          end
      end
  | (Ok (false, _), _) => Ok 1
  | (Throw e, _) => Throw e
  end.
End thread.
