(* ===== verification/Sql.v ===== *)
(** * Tables as SQL declares them

    What the CREATE TABLE statements of the program say: the columns with their types and constraints,
    read from the text that is sent to the database; the affinity of a column, which decides what becomes
    of a value stored in it; and the rows an INSERT is refused for. *)

From S2P Require Import Prelude Str Json Db.
From Stdlib Require Import Ascii Floats.SpecFloat.
From Stdlib Require String.

Local Open Scope string_scope.
Local Open Scope Z_scope.

(** ** Declarations *)

Record column := mk_column {
  c_name : string;
  c_type : string;
  c_primary : bool;
  c_unique : bool;
  c_notnull : bool;
  c_default : option string }.

(** The tables by name, in the order of their creation. *)
Definition schema : Type := list (string * list column).

(** *** Reading a declaration *)

(** The words of a text, between spaces. *)
Fixpoint words (s : string) : list string :=
  match s with
  | EmptyString => []
  | String c s' =>
      if is_space c then words s'
      else match s' with
           | EmptyString => [String c EmptyString]
           | String d _ =>
               if is_space d then String c EmptyString :: words s'
               else match words s' with w :: ws => String c w :: ws | [] => [] end
           end
  end.

(** The parts of a list in parentheses, from behind the opening one: the commas at depth 0 separate
    them, and nothing follows the closing parenthesis. *)
Fixpoint items (depth : nat) (s : string) : option (list string) :=
  match s with
  | EmptyString => None
  | String c s =>
      if Ascii.eqb c ")" && (depth =? 0)%nat then if str_empty (skip_spaces s) then Some [EmptyString] else None
      else if Ascii.eqb c "," && (depth =? 0)%nat then its ← items depth s; Some (EmptyString :: its)
      else
        let depth := if Ascii.eqb c "(" then S depth else if Ascii.eqb c ")" then pred depth else depth in
        its ← items depth s;
        match its with i :: its => Some (String c i :: its) | [] => None end
  end.

(** The constraints behind the type of a column. *)
Fixpoint constraints (ws : list string) (c : column) : option column :=
  match ws with
  | [] => Some c
  | w :: ws =>
      if String.eqb w "AUTOINCREMENT" then constraints ws c
      else if String.eqb w "UNIQUE" then
        constraints ws (mk_column (c_name c) (c_type c) (c_primary c) true (c_notnull c) (c_default c))
      else
        match ws with
        | [] => None
        | v :: ws =>
            if String.eqb w "PRIMARY" && String.eqb v "KEY" then
              constraints ws (mk_column (c_name c) (c_type c) true (c_unique c) (c_notnull c) (c_default c))
            else if String.eqb w "NOT" && String.eqb v "NULL" then
              constraints ws (mk_column (c_name c) (c_type c) (c_primary c) (c_unique c) true (c_default c))
            else if String.eqb w "DEFAULT" then
              constraints ws (mk_column (c_name c) (c_type c) (c_primary c) (c_unique c) (c_notnull c) (Some v))
            else None
        end
  end.

(** A part of the list: a column, or a foreign key, which SQLite does not enforce unless a connection
    asks for it (none does).  Other constraints of a table are not read. *)
Definition declaration (item : string) : option (list column) :=
  match words item with
  | w :: ws =>
      if String.eqb w "FOREIGN" then Some []
      else if existsb (String.eqb w) ["PRIMARY"; "UNIQUE"; "CHECK"; "CONSTRAINT"] then None
      else match ws with
           | ty :: ws => c ← constraints ws (mk_column w ty false false false None); Some [c]
           | [] => None
           end
  | [] => None
  end.

Definition create_prefix : string := "CREATE TABLE IF NOT EXISTS ".

(** [CREATE TABLE IF NOT EXISTS name (...)]: the name and the columns. *)
Definition parse_create (sql : string) : option (string * list column) :=
  if negb (prefixb create_prefix sql) then None
  else
    let s := str_drop (String.length create_prefix) sql in
    p ← find_char "(" s;
    match words (str_take p s) with
    | [nm] =>
        its ← items 0 (str_drop (S p) s);
        cols ← mapM declaration its;
        Some (nm, concat cols)
    | _ => None
    end.

(** *** Looking up *)

(** Names are compared without regard to case. *)
Definition lower_char (c : ascii) : ascii := if (65 <=? code c) && (code c <=? 90) then chr (code c + 32) else c.
Fixpoint lower (s : string) : string :=
  match s with EmptyString => EmptyString | String c s => String (lower_char c) (lower s) end.
Definition same_name (a b : string) : bool := String.eqb (lower a) (lower b).

Definition find_table (sch : schema) (nm : string) : option (list column) :=
  snd <$> List.find (fun t => same_name (fst t) nm) sch.
Definition find_column (cols : list column) (nm : string) : option column :=
  List.find (fun c => same_name (c_name c) nm) cols.

(** [IF NOT EXISTS]: a table that is there is left as it is. *)
Definition create_table (sch : schema) (nm : string) (cols : list column) : schema :=
  match find_table sch nm with Some _ => sch | None => (sch ++ [(nm, cols)])%list end.

(** The tables after these statements. *)
Definition create_all (sch : schema) (sqls : list string) : schema :=
  foldl (fun sch sql => match parse_create sql with Some (nm, cols) => create_table sch nm cols | None => sch end) sch sqls.

(** ** Values in columns *)

Inductive affinity := A_integer | A_text | A_blob | A_real | A_numeric.

(** The affinity of a declared type, by the first rule that applies. *)
Definition affinity_of (ty : string) : affinity :=
  let has s := match find_sub s (lower ty) with Some _ => true | None => false end in
  if has "int" then A_integer
  else if has "char" || has "clob" || has "text" then A_text
  else if has "blob" then A_blob
  else if has "real" || has "floa" || has "doub" then A_real
  else A_numeric.

(** A text that may be taken for a number. *)
Definition numeric_char (c : ascii) : bool := is_digit c || is_space c || has_char c "+-.eE".
Definition numeric_text (s : string) : bool := negb (str_empty s) && all_chars numeric_char s.

(** NaN is stored as NULL. *)
Definition is_null (v : value) : bool := match v with VNull | VReal S754_nan => true | _ => false end.

(** The values a column stores, and compares, as they are. *)
Definition fits (a : affinity) (v : value) : bool :=
  match v, a with
  | VNull, _ | VBlob _, _ | _, A_blob => true
  | VInt _, (A_integer | A_numeric) => true
  | VReal _, A_real => true
  | VText _, A_text => true
  | VText s, _ => negb (numeric_text s)
  | _, _ => false
  end.

(** Columns and their values. *)
Definition cells : Type := list (string * value).

Definition cell (r : cells) (nm : string) : option value := snd <$> List.find (fun x => same_name (fst x) nm) r.

(** A value for a column of the table that is stored as it is, or refused for being NULL. *)
Definition cell_ok (cols : list column) (x : string * value) : bool :=
  match find_column cols (fst x) with
  | Some c => fits (affinity_of (c_type c)) (snd x) && (negb (is_null (snd x)) || c_notnull c)
  | None => false
  end.

(** A default that is a whole number. *)
Definition default_int (c : column) : option Z :=
  s ← c_default c; if negb (str_empty s) && all_chars is_digit s then Some (dec_value 0 s) else None.

(** What an INSERT leaves out is an INTEGER PRIMARY KEY, for which SQLite chooses a number, or has a number as
    its default. *)
Definition left_out_ok (cols : list column) (r : cells) : bool :=
  forallb (fun c =>
    match cell r (c_name c) with
    | Some _ => true
    | None =>
        same_name (c_type c) "INTEGER" && c_primary c || match default_int c with Some _ => true | None => false end
    end) cols.

(** Equal values; NULL equals nothing. *)
Definition same_value (v w : value) : bool :=
  match v, w with
  | VInt a, VInt b => a =? b
  | VText a, VText b => String.eqb a b
  | VReal a, VReal b => SFeqb a b
  | VBlob a, VBlob b => bool_decide (a = b)
  | _, _ => false
  end.

(** Another row has this value in the column. *)
Definition taken (rows : list cells) (nm : string) (v : value) : bool :=
  existsb (fun r => match cell r nm with Some w => same_value w v | None => false end) rows.

(** The row breaks a constraint: NULL where there must not be one, or a value of a PRIMARY KEY or UNIQUE
    column that is taken. *)
Definition refused (cols : list column) (rows : list cells) (r : cells) : bool :=
  existsb (fun c =>
    match cell r (c_name c) with
    | Some v => c_notnull c && is_null v || (c_primary c || c_unique c) && taken rows (c_name c) v
    | None => false
    end) cols.
