(* ===== verification/DbSpec.v ===== *)
(** * What the database promises, and what the database functions make of it

    The tables as lists of the program's structures, with the declarations they were created with; the
    meaning of each statement and query of db_management.cpp on them; the laws of an engine ([SqliteLaws])
    with transactions and with failures at any call; the instance [Memory], whose calls can be made to
    fail; and the theorems of the database functions: atomicity, one-time recovery codes, accounts and
    lines. *)

From S2P Require Import Prelude Str Json Hash Db Control Sql.
From stdpp Require Import sorting.
From Stdlib Require Import Ascii Floats.SpecFloat Sorting.Permutation Sorting.Sorted.
From Stdlib Require String.

Local Open Scope string_scope.
Local Open Scope Z_scope.

#[export] Instance double_eq_dec : EqDecision double.
Proof. solve_decision. Defined.

Record tables := mk_tables {
  t_schema : schema;
  t_detections : list Detection;
  t_lines : list CrossLine;
  t_baseLines : list BaseLine;
  t_verticals : list VerticalLineEquation;
  t_accounts : list Account;
  t_codes : list RecoveryCode }.

Definition with_schema sch (t : tables) := mk_tables sch (t_detections t) (t_lines t) (t_baseLines t) (t_verticals t) (t_accounts t) (t_codes t).
Definition with_detections l (t : tables) := mk_tables (t_schema t) l (t_lines t) (t_baseLines t) (t_verticals t) (t_accounts t) (t_codes t).
Definition with_lines l (t : tables) := mk_tables (t_schema t) (t_detections t) l (t_baseLines t) (t_verticals t) (t_accounts t) (t_codes t).
Definition with_baseLines l (t : tables) := mk_tables (t_schema t) (t_detections t) (t_lines t) l (t_verticals t) (t_accounts t) (t_codes t).
Definition with_verticals l (t : tables) := mk_tables (t_schema t) (t_detections t) (t_lines t) (t_baseLines t) l (t_accounts t) (t_codes t).
Definition with_accounts l (t : tables) := mk_tables (t_schema t) (t_detections t) (t_lines t) (t_baseLines t) (t_verticals t) l (t_codes t).
Definition with_codes l (t : tables) := mk_tables (t_schema t) (t_detections t) (t_lines t) (t_baseLines t) (t_verticals t) (t_accounts t) l.

(** A new database file. *)
Definition no_tables : tables := mk_tables [] [] [] [] [] [] [].

(** The rows of the structures. *)
Definition detection_row (d : Detection) : row := [("image", VBlob (imageBlob d)); ("timestamp", VText (timestamp d))].
Definition line_row (l : CrossLine) : row :=
  [("indexNum", VInt (index l)); ("x1", VInt (x1 l)); ("y1", VInt (y1 l)); ("x2", VInt (x2 l));
   ("y2", VInt (y2 l)); ("name", VText (name l)); ("mode", VText (mode l))].
Definition base_row (b : BaseLine) : row :=
  [("indexNum", VInt (base_index b)); ("matrixNum1", VInt (matrixNum1 b)); ("x1", VInt (base_x1 b));
   ("y1", VInt (base_y1 b)); ("matrixNum2", VInt (matrixNum2 b)); ("x2", VInt (base_x2 b));
   ("y2", VInt (base_y2 b))].
Definition vertical_row (v : VerticalLineEquation) : row :=
  [("indexNum", VInt (vert_index v)); ("a", VReal (vert_a v)); ("b", VReal (vert_b v))].
Definition account_row (a : Account) : row :=
  [("id", VText (id a)); ("passwd", VText (passwd a)); ("otp_secret", VText (otp_secret a));
   ("use_otp", VInt (if use_otp a then 1 else 0))].
Definition recovery_row (r : RecoveryCode) : row :=
  [("id", VText (code_id r)); ("code", VText (code_hash r)); ("used", VInt (used r))].

(** ** Statements *)

Inductive stmt :=
| InsDetection (d : Detection)
| DelDetections
| InsLine (l : CrossLine)
| DelLine (i : Z)
| DelLines
| InsBase (b : BaseLine)
| UpdBase (m1 m2 i : Z)
| DelBases
| InsVertical (v : VerticalLineEquation)
| DelVerticals
| InsAccount (a : Account)
| SetSecret (secret i : string)
| InsCode (i c : string)
| UseCode (i c : string).

Definition stmt_text (s : stmt) : string :=
  match s with
  | InsDetection _ => "INSERT INTO detections (image, timestamp) VALUES (?, ?)"
  | DelDetections => "DELETE FROM detections"
  | InsLine _ => "INSERT INTO lines (indexNum, x1, y1, x2, y2, name, mode) VALUES (?, ?, ?, ?, ?, ?, ?)"
  | DelLine _ => "DELETE FROM lines WHERE indexNum = ?"
  | DelLines => "DELETE FROM lines"
  | InsBase _ => "INSERT INTO baseLines (indexNum, matrixNum1, x1, y1, matrixNum2, x2, y2) VALUES (?, ?, ?, ?, ?, ?, ?)"
  | UpdBase _ _ _ => "UPDATE baseLines SET matrixNum1 = ?, matrixNum2 = ? WHERE indexNum = ?"
  | DelBases => "DELETE FROM baselines"
  | InsVertical _ => "INSERT INTO verticalLineEquations (indexNum, a, b) VALUES (?, ?, ?)"
  | DelVerticals => "DELETE FROM verticalLineEquations"
  | InsAccount _ => "INSERT INTO accounts (id, passwd, otp_secret, use_otp) VALUES (?, ?, ?, ?)"
  | SetSecret _ _ => "UPDATE accounts SET otp_secret = ? WHERE id = ?"
  | InsCode _ _ => "INSERT INTO recovery_codes (id, code) VALUES (?, ?)"
  | UseCode _ _ => "UPDATE recovery_codes SET used = 1 WHERE id = ? AND code = ?"
  end.

Definition stmt_args (s : stmt) : list value :=
  match s with
  | InsDetection d => [VBlob (imageBlob d); VText (timestamp d)]
  | InsLine l => [VInt (index l); VInt (x1 l); VInt (y1 l); VInt (x2 l); VInt (y2 l); VText (name l); VText (mode l)]
  | DelLine i => [VInt i]
  | InsBase b => [VInt (base_index b); VInt (matrixNum1 b); VInt (base_x1 b); VInt (base_y1 b);
                  VInt (matrixNum2 b); VInt (base_x2 b); VInt (base_y2 b)]
  | UpdBase m1 m2 i => [VInt m1; VInt m2; VInt i]
  | InsVertical v => [VInt (vert_index v); VReal (vert_a v); VReal (vert_b v)]
  | InsAccount a => [VText (id a); VText (passwd a); VText (otp_secret a); VInt (if use_otp a then 1 else 0)]
  | SetSecret secret i => [VText secret; VText i]
  | InsCode i c | UseCode i c => [VText i; VText c]
  | _ => []
  end.

(** The table a statement names, and the columns it gives a value or compares with one. *)
Definition stmt_table (s : stmt) : string :=
  match s with
  | InsDetection _ | DelDetections => "detections"
  | InsLine _ | DelLine _ | DelLines => "lines"
  | InsBase _ | UpdBase _ _ _ => "baseLines"
  | DelBases => "baselines"
  | InsVertical _ | DelVerticals => "verticalLineEquations"
  | InsAccount _ | SetSecret _ _ => "accounts"
  | InsCode _ _ | UseCode _ _ => "recovery_codes"
  end.

Definition stmt_cells (s : stmt) : cells :=
  match s with
  | InsDetection d => detection_row d
  | InsLine l => line_row l
  | DelLine i => [("indexNum", VInt i)]
  | InsBase b => base_row b
  | UpdBase m1 m2 i => [("matrixNum1", VInt m1); ("matrixNum2", VInt m2); ("indexNum", VInt i)]
  | InsVertical v => vertical_row v
  | InsAccount a => account_row a
  | SetSecret secret i => [("otp_secret", VText secret); ("id", VText i)]
  | InsCode i c => [("id", VText i); ("code", VText c)]
  | UseCode i c => [("used", VInt 1); ("id", VText i); ("code", VText c)]
  | _ => []
  end.

Definition is_insert (s : stmt) : bool :=
  match s with InsDetection _ | InsLine _ | InsBase _ | InsVertical _ | InsAccount _ | InsCode _ _ => true | _ => false end.

(** The columns an UPDATE sets. *)
Definition stmt_sets (s : stmt) : list string :=
  match s with
  | UpdBase _ _ _ => ["matrixNum1"; "matrixNum2"]
  | SetSecret _ _ => ["otp_secret"]
  | UseCode _ _ => ["used"]
  | _ => []
  end.

(** The statements the laws speak about, on tables with these declarations: the table is there, the values
    go into its columns as they are, an INSERT leaves out only what has a value without it, and an UPDATE
    sets no PRIMARY KEY or UNIQUE column. *)
Definition accepts (sch : schema) (s : stmt) : bool :=
  match find_table sch (stmt_table s) with
  | None => false
  | Some cols =>
      forallb (cell_ok cols) (stmt_cells s)
      && (negb (is_insert s) || left_out_ok cols (stmt_cells s))
      && forallb (fun nm => match find_column cols nm with Some c => negb (c_primary c || c_unique c) | None => false end) (stmt_sets s)
  end.

(** The number of rows of a list that satisfy a condition. *)
Definition count {A} (p : A -> bool) (l : list A) : Z := Z.of_nat (length (List.filter p l)).

Definition update_if {A} (p : A -> bool) (f : A -> A) (l : list A) : list A :=
  map (fun x => if p x then f x else x) l.

(** The effect of a statement: rows changed and tables after it, or [None] for a row that the declaration
    of the table refuses. *)
Definition stmt_sem (s : stmt) (t : tables) : option (Z * tables) :=
  cols ← find_table (t_schema t) (stmt_table s);
  let insert rows t' := if refused cols rows (stmt_cells s) then None else Some (1, t') in
  match s with
  | InsDetection d => insert (map detection_row (t_detections t)) (with_detections (t_detections t ++ [d])%list t)
  | DelDetections => Some (Z.of_nat (length (t_detections t)), with_detections [] t)
  | InsLine l => insert (map line_row (t_lines t)) (with_lines (t_lines t ++ [l])%list t)
  | DelLine i =>
      Some (count (fun l => index l =? i) (t_lines t),
            with_lines (List.filter (fun l => negb (index l =? i)) (t_lines t)) t)
  | DelLines => Some (Z.of_nat (length (t_lines t)), with_lines [] t)
  | InsBase b => insert (map base_row (t_baseLines t)) (with_baseLines (t_baseLines t ++ [b])%list t)
  | UpdBase m1 m2 i =>
      Some (count (fun b => base_index b =? i) (t_baseLines t),
            with_baseLines (update_if (fun b => base_index b =? i)
              (fun b => mk_BaseLine (base_index b) m1 (base_x1 b) (base_y1 b) m2 (base_x2 b) (base_y2 b))
              (t_baseLines t)) t)
  | DelBases => Some (Z.of_nat (length (t_baseLines t)), with_baseLines [] t)
  | InsVertical v => insert (map vertical_row (t_verticals t)) (with_verticals (t_verticals t ++ [v])%list t)
  | DelVerticals => Some (Z.of_nat (length (t_verticals t)), with_verticals [] t)
  | InsAccount a => insert (map account_row (t_accounts t)) (with_accounts (t_accounts t ++ [a])%list t)
  | SetSecret secret i =>
      Some (count (fun a => String.eqb (id a) i) (t_accounts t),
            with_accounts (update_if (fun a => String.eqb (id a) i)
              (fun a => mk_Account (id a) (passwd a) secret (use_otp a)) (t_accounts t)) t)
  | InsCode i c =>
      u ← find_column cols "used" ≫= default_int;
      insert (map recovery_row (t_codes t)) (with_codes (t_codes t ++ [mk_RecoveryCode i c u])%list t)
  | UseCode i c =>
      let p r := String.eqb (code_id r) i && String.eqb (code_hash r) c in
      Some (count p (t_codes t),
            with_codes (update_if p (fun r => mk_RecoveryCode (code_id r) (code_hash r) 1) (t_codes t)) t)
  end.

(** ** Queries *)

Inductive query :=
| QDetections (a b : string)
| QLines
| QBases
| QDots
| QRules
| QAccount (i : string)
| QCodes (i : string).

Definition query_text (q : query) : string :=
  match q with
  | QDetections _ _ => "SELECT * FROM detections WHERE timestamp BETWEEN ? AND ? ORDER BY timestamp"
  | QLines => "SELECT * FROM lines ORDER BY name"
  | QBases => "SELECT * FROM baseLines"
  | QDots => "SELECT matrixNum1, x1, y1, matrixNum2, x2, y2 FROM baseLines"
  | QRules => "SELECT x1, y1, x2, y2, name, mode FROM lines LIMIT 8"
  | QAccount _ => "SELECT id, passwd, otp_secret, use_otp FROM accounts WHERE id = ?"
  | QCodes _ => "SELECT code FROM recovery_codes WHERE id = ? AND used = 0"
  end.

Definition query_args (q : query) : list value :=
  match q with
  | QDetections a b => [VText a; VText b]
  | QAccount i | QCodes i => [VText i]
  | _ => []
  end.

(** The rows of the queries that name columns. *)
Definition dots_row (b : BaseLine) : row :=
  [("matrixNum1", VInt (matrixNum1 b)); ("x1", VInt (base_x1 b)); ("y1", VInt (base_y1 b));
   ("matrixNum2", VInt (matrixNum2 b)); ("x2", VInt (base_x2 b)); ("y2", VInt (base_y2 b))].
Definition rule_row (l : CrossLine) : row :=
  [("x1", VInt (x1 l)); ("y1", VInt (y1 l)); ("x2", VInt (x2 l)); ("y2", VInt (y2 l));
   ("name", VText (name l)); ("mode", VText (mode l))].
Definition code_row (r : RecoveryCode) : row := [("code", VText (code_hash r))].

Definition str_le (s t : string) : bool := match String.compare s t with Gt => false | _ => true end.

(** [rows] is an answer to the query: the order is the one asked for, and otherwise left open. *)
Definition query_spec (q : query) (t : tables) (rows : list row) : Prop :=
  match q with
  | QDetections a b =>
      exists ds, Forall2 (fun r d => exists i, r = [("id", VInt i); ("image", VBlob (imageBlob d));
                                                  ("timestamp", VText (timestamp d))]) rows ds
        /\ Permutation ds (List.filter (fun d => str_le a (timestamp d) && str_le (timestamp d) b) (t_detections t))
        /\ Sorted (fun d d' => str_le (timestamp d) (timestamp d')) ds
  | QLines => exists ls, rows = map line_row ls /\ Permutation ls (t_lines t)
                /\ Sorted (fun l l' => str_le (name l) (name l')) ls
  | QBases => exists bs, rows = map base_row bs /\ Permutation bs (t_baseLines t)
  | QDots => exists bs, rows = map dots_row bs /\ Permutation bs (t_baseLines t)
  | QRules => exists ls rest, rows = map rule_row ls /\ Permutation (ls ++ rest) (t_lines t)
                /\ length ls = Nat.min 8 (length (t_lines t))
  | QAccount i => Permutation rows (map account_row (List.filter (fun a => String.eqb (id a) i) (t_accounts t)))
  | QCodes i => exists cs, rows = map code_row cs
                  /\ Permutation cs (List.filter (fun r => String.eqb (code_id r) i && (used r =? 0)) (t_codes t))
  end.

(** The table of a query, the columns it reads (all of them, in order, for a star), and the values it
    compares columns with. *)
Definition query_table (q : query) : string :=
  match q with
  | QDetections _ _ => "detections"
  | QLines | QRules => "lines"
  | QBases | QDots => "baseLines"
  | QAccount _ => "accounts"
  | QCodes _ => "recovery_codes"
  end.

Definition query_star (q : query) : option (list string) :=
  match q with
  | QDetections _ _ => Some ["id"; "image"; "timestamp"]
  | QLines => Some ["indexNum"; "x1"; "y1"; "x2"; "y2"; "name"; "mode"]
  | QBases => Some ["indexNum"; "matrixNum1"; "x1"; "y1"; "matrixNum2"; "x2"; "y2"]
  | _ => None
  end.

Definition query_columns (q : query) : list string :=
  match q with
  | QDots => ["matrixNum1"; "x1"; "y1"; "matrixNum2"; "x2"; "y2"]
  | QRules => ["x1"; "y1"; "x2"; "y2"; "name"; "mode"]
  | QAccount _ => ["id"; "passwd"; "otp_secret"; "use_otp"]
  | QCodes _ => ["code"]
  | _ => []
  end.

Definition query_cells (q : query) : cells :=
  match q with
  | QDetections a b => [("timestamp", VText a); ("timestamp", VText b)]
  | QAccount i => [("id", VText i)]
  | QCodes i => [("id", VText i); ("used", VInt 0)]
  | _ => []
  end.

(** The queries the laws speak about. *)
Definition query_accepts (sch : schema) (q : query) : bool :=
  match find_table sch (query_table q) with
  | None => false
  | Some cols =>
      forallb (cell_ok cols) (query_cells q)
      && forallb (fun nm => match find_column cols nm with Some _ => true | None => false end) (query_columns q)
      && match query_star q with Some names => bool_decide (map c_name cols = names) | None => true end
  end.

(** ** The laws of an engine *)

(** What a failing call leaves: everything as it was, or, inside a transaction, what the tables held when it
    began: for some errors SQLite rolls back by itself. *)
Definition kept (v : tables) (p : option tables) (v' : tables) (p' : option tables) : Prop :=
  (v' = v /\ p' = p) \/ (p = Some v' /\ p' = None).

(** [view] is what the tables hold, [pending] what they held when the open transaction began, [None] when none
    is open, and [io_ok] says that I/O does not fail.  A transaction does not begin inside another one, and
    there is nothing to commit without one; a ROLLBACK without a transaction fails, and the destructor of
    [SQLite::Transaction] ignores that. *)
Class SqliteLaws (D : Type) `{Sqlite D} := {
  view : D -> tables;
  pending : D -> option tables;
  io_ok : D -> Prop;
  exec_sound s d : accepts (t_schema (view d)) s = true ->
    match sql_exec (stmt_text s) (stmt_args s) d with
    | (Ok n, d') => stmt_sem s (view d) = Some (n, view d') /\ pending d' = pending d
    | (Throw e, d') => kept (view d) (pending d) (view d') (pending d') /\ is_std_exception e = true
    end;
  exec_live s d : accepts (t_schema (view d)) s = true -> io_ok d ->
    io_ok (snd (sql_exec (stmt_text s) (stmt_args s) d))
    /\ (stmt_sem s (view d) <> None -> exists n, fst (sql_exec (stmt_text s) (stmt_args s) d) = Ok n);
  create_sound sql nm cols d : parse_create sql = Some (nm, cols) ->
    match sql_exec sql [] d with
    | (Ok _, d') => view d' = with_schema (create_table (t_schema (view d)) nm cols) (view d) /\ pending d' = pending d
    | (Throw e, d') => kept (view d) (pending d) (view d') (pending d') /\ is_std_exception e = true
    end;
  create_live sql nm cols d : parse_create sql = Some (nm, cols) -> io_ok d ->
    io_ok (snd (sql_exec sql [] d)) /\ exists n, fst (sql_exec sql [] d) = Ok n;
  query_sound q d : query_accepts (t_schema (view d)) q = true ->
    snd (sql_query (query_text q) (query_args q) d) = None ->
    query_spec q (view d) (fst (sql_query (query_text q) (query_args q) d));
  query_live q d : query_accepts (t_schema (view d)) q = true -> io_ok d ->
    snd (sql_query (query_text q) (query_args q) d) = None;
  query_throws sql args d e : snd (sql_query sql args d) = Some e -> is_std_exception e = true;
  begin_sound d : match sql_begin d with
    | (Ok _, d') => pending d = None /\ view d' = view d /\ pending d' = Some (view d)
    | (Throw e, d') => view d' = view d /\ pending d' = pending d /\ is_std_exception e = true
    end;
  begin_live d : io_ok d -> pending d = None -> exists d', sql_begin d = (Ok tt, d') /\ io_ok d';
  commit_sound d : match sql_commit d with
    | (Ok _, d') => pending d <> None /\ view d' = view d /\ pending d' = None
    | (Throw e, d') => kept (view d) (pending d) (view d') (pending d') /\ is_std_exception e = true
    end;
  commit_live d : io_ok d -> pending d <> None -> exists d', sql_commit d = (Ok tt, d') /\ io_ok d';
  rollback_sound d : view (sql_rollback d) = default (view d) (pending d) /\ pending (sql_rollback d) = None }.

(** ** The program's tables *)

(** The tables the server creates, and those there are when the metadata program created its own first. *)
Definition program_tables : list string :=
  [sql_detections; sql_lines; sql_baseLines; sql_verticalLineEquations; sql_accounts; sql_recovery_codes].
Definition program_schema : schema := Eval vm_compute in create_all [] program_tables.
Definition control_schema : schema := Eval vm_compute in create_all [] (sql_create_detections :: program_tables).

Definition created (sch : schema) : Prop := sch = program_schema \/ sch = control_schema.

(** What the laws leave open on them: a time that SQLite takes for a number, since a DATETIME column has
    numeric affinity. *)
Definition stmt_ok (s : stmt) : bool :=
  match s with InsDetection d => negb (numeric_text (timestamp d)) | _ => true end.
Definition query_ok (q : query) : bool :=
  match q with QDetections a b => negb (numeric_text a) && negb (numeric_text b) | _ => true end.

Lemma accepts_created sch s : created sch -> stmt_ok s = true -> accepts sch s = true.
Proof.
  intros [-> | ->] Hs; destruct s as [d| | | | | | | |[i [| | |] [| | |]]| | | | |]; try (vm_compute; reflexivity);
    cbn [stmt_ok] in Hs; lazy -[numeric_text timestamp]; apply negb_true_iff in Hs; by rewrite Hs.
Qed.

Lemma query_accepts_created sch q : created sch -> query_ok q = true -> query_accepts sch q = true.
Proof.
  intros [-> | ->] Hq; destruct q as [a b| | | | | |]; try (vm_compute; reflexivity);
    cbn [query_ok] in Hq; lazy -[numeric_text]; apply andb_true_iff in Hq as [Ha%negb_true_iff Hb%negb_true_iff]; by rewrite Ha, Hb.
Qed.

(** The statements on these tables, with the constraints written out. *)
Definition is_nan (x : double) : bool := match x with S754_nan => true | _ => false end.

Definition stmt_effect (s : stmt) (t : tables) : option (Z * tables) :=
  match s with
  | InsDetection d => Some (1, with_detections (t_detections t ++ [d])%list t)
  | DelDetections => Some (Z.of_nat (length (t_detections t)), with_detections [] t)
  | InsLine l =>
      if existsb (fun l' => (index l' =? index l) || String.eqb (name l') (name l)) (t_lines t) then None
      else Some (1, with_lines (t_lines t ++ [l])%list t)
  | DelLine i =>
      Some (count (fun l => index l =? i) (t_lines t),
            with_lines (List.filter (fun l => negb (index l =? i)) (t_lines t)) t)
  | DelLines => Some (Z.of_nat (length (t_lines t)), with_lines [] t)
  | InsBase b =>
      if existsb (fun b' => base_index b' =? base_index b) (t_baseLines t) then None
      else Some (1, with_baseLines (t_baseLines t ++ [b])%list t)
  | UpdBase m1 m2 i =>
      Some (count (fun b => base_index b =? i) (t_baseLines t),
            with_baseLines (update_if (fun b => base_index b =? i)
              (fun b => mk_BaseLine (base_index b) m1 (base_x1 b) (base_y1 b) m2 (base_x2 b) (base_y2 b))
              (t_baseLines t)) t)
  | DelBases => Some (Z.of_nat (length (t_baseLines t)), with_baseLines [] t)
  | InsVertical v =>
      if existsb (fun v' => vert_index v' =? vert_index v) (t_verticals t) || is_nan (vert_a v) || is_nan (vert_b v) then None
      else Some (1, with_verticals (t_verticals t ++ [v])%list t)
  | DelVerticals => Some (Z.of_nat (length (t_verticals t)), with_verticals [] t)
  | InsAccount a =>
      if existsb (fun a' => String.eqb (id a') (id a)) (t_accounts t) then None
      else Some (1, with_accounts (t_accounts t ++ [a])%list t)
  | SetSecret secret i =>
      Some (count (fun a => String.eqb (id a) i) (t_accounts t),
            with_accounts (update_if (fun a => String.eqb (id a) i)
              (fun a => mk_Account (id a) (passwd a) secret (use_otp a)) (t_accounts t)) t)
  | InsCode i c => Some (1, with_codes (t_codes t ++ [mk_RecoveryCode i c 0])%list t)
  | UseCode i c =>
      let p r := String.eqb (code_id r) i && String.eqb (code_hash r) c in
      Some (count p (t_codes t),
            with_codes (update_if p (fun r => mk_RecoveryCode (code_id r) (code_hash r) 1) (t_codes t)) t)
  end.

Lemma existsb_map {A B} (f : A -> B) (p : B -> bool) l : existsb p (map f l) = existsb (fun x => p (f x)) l.
Proof. induction l as [|x l IH]; cbn; [done|]. by rewrite IH. Qed.

Lemma existsb_or {A} (p q : A -> bool) l : existsb p l || existsb q l = existsb (fun x => p x || q x) l.
Proof. induction l as [|x l IH]; cbn; [done|]. rewrite <- IH. by destruct (p x), (q x), (existsb p l). Qed.

Lemma taken_map {A} (f : A -> row) (p : A -> bool) l nm v :
  (forall x, match cell (f x) nm with Some w => same_value w v | None => false end = p x) -> taken (map f l) nm v = existsb p l.
Proof. intros H. unfold taken. rewrite existsb_map. induction l as [|x l IH]; cbn; [done|]. by rewrite H, IH. Qed.

(** The constraints the declarations come to. *)
Lemma refused_line sch cols l ls : created sch -> find_table sch "lines" = Some cols ->
  refused cols (map line_row ls) (line_row l) = existsb (fun l' => (index l' =? index l) || String.eqb (name l') (name l)) ls.
Proof.
  intros [-> | ->] E; vm_compute in E; injection E as <-; rewrite <- existsb_or;
    rewrite <- (taken_map line_row (fun l' => index l' =? index l) ls "indexNum" (VInt (index l))) by done;
    rewrite <- (taken_map line_row (fun l' => String.eqb (name l') (name l)) ls "name" (VText (name l))) by done;
    rewrite <- (orb_false_r (taken _ "name" _)); reflexivity.
Qed.

Lemma refused_base sch cols b bs : created sch -> find_table sch "baseLines" = Some cols ->
  refused cols (map base_row bs) (base_row b) = existsb (fun b' => base_index b' =? base_index b) bs.
Proof.
  intros [-> | ->] E; vm_compute in E; injection E as <-;
    rewrite <- (taken_map base_row (fun b' => base_index b' =? base_index b) bs "indexNum" (VInt (base_index b))) by done; apply orb_false_r.
Qed.

Lemma refused_vertical sch cols v vs : created sch -> find_table sch "verticalLineEquations" = Some cols ->
  refused cols (map vertical_row vs) (vertical_row v)
  = existsb (fun v' => vert_index v' =? vert_index v) vs || is_nan (vert_a v) || is_nan (vert_b v).
Proof.
  intros [-> | ->] E; vm_compute in E; injection E as <-;
    rewrite <- (taken_map vertical_row (fun v' => vert_index v' =? vert_index v) vs "indexNum" (VInt (vert_index v))) by done;
    rewrite <- orb_assoc; destruct v as [i [| | |] [| | |]]; reflexivity.
Qed.

Lemma refused_account sch cols a l : created sch -> find_table sch "accounts" = Some cols ->
  refused cols (map account_row l) (account_row a) = existsb (fun a' => String.eqb (id a') (id a)) l.
Proof.
  intros [-> | ->] E; vm_compute in E; injection E as <-;
    rewrite <- (taken_map account_row (fun a' => String.eqb (id a') (id a)) l "id" (VText (id a))) by done; apply orb_false_r.
Qed.

Lemma stmt_sem_effect s t : created (t_schema t) -> stmt_sem s t = stmt_effect s t.
Proof.
  intros Hc. unfold stmt_sem.
  assert (exists cols, find_table (t_schema t) (stmt_table s) = Some cols) as [cols E].
  { destruct Hc as [-> | ->]; destruct s; eexists; vm_compute; reflexivity. }
  rewrite E. cbn [mbind option_bind]. destruct s; cbn [stmt_table stmt_cells] in *; cbv zeta; try done.
  - replace (refused _ _ _) with false; [done|]. destruct Hc as [Hc|Hc]; rewrite Hc in E; vm_compute in E; injection E as <-; reflexivity.
  - by rewrite (refused_line (t_schema t)).
  - by rewrite (refused_base (t_schema t)).
  - by rewrite (refused_vertical (t_schema t)).
  - by rewrite (refused_account (t_schema t)).
  - destruct Hc as [Hc|Hc]; rewrite Hc in E; vm_compute in E; injection E as <-; reflexivity.
Qed.

(** ** An engine in memory *)

Module Memory.
(** What becomes of a call: it works, it fails, or it fails and takes the open transaction back. *)
Inductive fault := f_ok | f_error | f_rollback.

(** The tables, the tables when the open transaction began, what becomes of the next calls (behind the end
    of the list they work), and whether reading fails. *)
Record store := mk_store { now : tables; begun : option tables; faults : list fault; unreadable : bool }.

Definition set_tables (t : tables) (d : store) : store := mk_store t (begun d) (faults d) (unreadable d).
Definition set_begun (b : option tables) (d : store) : store := mk_store (now d) b (faults d) (unreadable d).
Definition set_faults (fs : list fault) (d : store) : store := mk_store (now d) (begun d) fs (unreadable d).

Definition roll_back (d : store) : store := set_begun None (set_tables (default (now d) (begun d)) d).

(** A call that works, unless it is to fail. *)
Definition call {A} (f : store -> res A * store) (d : store) : res A * store :=
  match faults d with
  | [] => f d
  | f_ok :: fs => f (set_faults fs d)
  | f_error :: fs => (Throw (sqlite_error "disk I/O error"), set_faults fs d)
  | f_rollback :: fs => (Throw (sqlite_error "database or disk is full"), roll_back (set_faults fs d))
  end.

Definition decode_stmt (sql : string) (args : list value) : option stmt :=
  match args with
  | [] =>
      if String.eqb sql "DELETE FROM detections" then Some DelDetections
      else if String.eqb sql "DELETE FROM lines" then Some DelLines
      else if String.eqb sql "DELETE FROM baselines" then Some DelBases
      else if String.eqb sql "DELETE FROM verticalLineEquations" then Some DelVerticals
      else None
  | [VInt i] => if String.eqb sql (stmt_text (DelLine i)) then Some (DelLine i) else None
  | [VBlob im; VText ts] =>
      let d := mk_Detection im ts in if String.eqb sql (stmt_text (InsDetection d)) then Some (InsDetection d) else None
  | [VText a; VText b] =>
      if String.eqb sql (stmt_text (SetSecret a b)) then Some (SetSecret a b)
      else if String.eqb sql (stmt_text (InsCode a b)) then Some (InsCode a b)
      else if String.eqb sql (stmt_text (UseCode a b)) then Some (UseCode a b) else None
  | [VInt a; VInt b; VInt c] => if String.eqb sql (stmt_text (UpdBase a b c)) then Some (UpdBase a b c) else None
  | [VInt i; VReal a; VReal b] =>
      let v := mk_Vertical i a b in if String.eqb sql (stmt_text (InsVertical v)) then Some (InsVertical v) else None
  | [VText i; VText p; VText s; VInt u] =>
      let a := mk_Account i p s (u =? 1) in if String.eqb sql (stmt_text (InsAccount a)) then Some (InsAccount a) else None
  | [VInt i; VInt a; VInt b; VInt c; VInt d; VText n; VText m] =>
      let l := mk_CrossLine i a b c d n m in if String.eqb sql (stmt_text (InsLine l)) then Some (InsLine l) else None
  | [VInt i; VInt m1; VInt a; VInt b; VInt m2; VInt c; VInt d] =>
      let l := mk_BaseLine i m1 a b m2 c d in if String.eqb sql (stmt_text (InsBase l)) then Some (InsBase l) else None
  | _ => None
  end.

Lemma decode_stmt_text s : decode_stmt (stmt_text s) (stmt_args s) = Some s.
Proof.
  destruct s; try reflexivity;
    match goal with x : _ |- _ => destruct x; try reflexivity end.
  match goal with b : bool |- _ => destruct b; reflexivity end.
Qed.

Definition exec (sql : string) (args : list value) : store -> res Z * store := call (fun d =>
  match decode_stmt sql args, parse_create sql with
  | Some s, _ =>
      match stmt_sem s (now d) with
      | Some (n, t) => (Ok n, set_tables t d)
      | None => (Throw (sqlite_error "constraint failed"), d)
      end
  | None, Some (nm, cols) => (Ok 0, set_tables (with_schema (create_table (t_schema (now d)) nm cols) (now d)) d)
  | None, None => (Throw (sqlite_error "syntax error"), d)
  end).

Definition line_le (l l' : CrossLine) : Prop := str_le (name l) (name l').
Definition detection_le (d d' : Detection) : Prop := str_le (timestamp d) (timestamp d').

#[global] Instance line_le_dec l l' : Decision (line_le l l').
Proof. unfold line_le. apply _. Defined.
#[global] Instance detection_le_dec d d' : Decision (detection_le d d').
Proof. unfold detection_le. apply _. Defined.

Lemma str_le_total s t : str_le s t \/ str_le t s.
Proof.
  unfold str_le. rewrite (String.compare_antisym t s). destruct (String.compare s t); cbn; auto.
Qed.

#[global] Instance line_le_total : Total line_le.
Proof. intros l l'. apply str_le_total. Qed.
#[global] Instance detection_le_total : Total detection_le.
Proof. intros d d'. apply str_le_total. Qed.

Definition answer (q : query) (t : tables) : list row :=
  match q with
  | QDetections a b =>
      imap (fun i d => [("id", VInt (Z.of_nat i)); ("image", VBlob (imageBlob d)); ("timestamp", VText (timestamp d))])
        (merge_sort detection_le (List.filter (fun d => str_le a (timestamp d) && str_le (timestamp d) b) (t_detections t)))
  | QLines => map line_row (merge_sort line_le (t_lines t))
  | QBases => map base_row (t_baseLines t)
  | QDots => map dots_row (t_baseLines t)
  | QRules => map rule_row (take 8 (t_lines t))
  | QAccount i => map account_row (List.filter (fun a => String.eqb (id a) i) (t_accounts t))
  | QCodes i => map code_row (List.filter (fun r => String.eqb (code_id r) i && (used r =? 0)) (t_codes t))
  end.

Definition decode_query (sql : string) (args : list value) : option query :=
  match args with
  | [] => if String.eqb sql (query_text QLines) then Some QLines
          else if String.eqb sql (query_text QBases) then Some QBases
          else if String.eqb sql (query_text QDots) then Some QDots
          else if String.eqb sql (query_text QRules) then Some QRules else None
  | [VText i] => if String.eqb sql (query_text (QAccount i)) then Some (QAccount i)
                 else if String.eqb sql (query_text (QCodes i)) then Some (QCodes i) else None
  | [VText a; VText b] => if String.eqb sql (query_text (QDetections a b)) then Some (QDetections a b) else None
  | _ => None
  end.

Lemma decode_query_text q : decode_query (query_text q) (query_args q) = Some q.
Proof. by destruct q. Qed.

Definition run_query (sql : string) (args : list value) (d : store) : list row * option exn :=
  match decode_query sql args with
  | Some q =>
      if unreadable d then ([], Some (sqlite_error "disk I/O error"))
      else match find_table (t_schema (now d)) (query_table q) with
           | Some _ => (answer q (now d), None)
           | None => ([], Some (sqlite_error "no such table"))
           end
  | None => ([], Some (sqlite_error "syntax error"))
  end.

Definition begin_transaction (d : store) : res unit * store :=
  match begun d with
  | Some _ => (Throw (sqlite_error "cannot start a transaction within a transaction"), d)
  | None => call (fun d => (Ok tt, set_begun (Some (now d)) d)) d
  end.

Definition commit : store -> res unit * store := call (fun d =>
  match begun d with
  | Some _ => (Ok tt, set_begun None d)
  | None => (Throw (sqlite_error "cannot commit - no transaction is active"), d)
  end).

#[global] Instance engine : Sqlite store := {
  sql_exec := exec;
  sql_query := run_query;
  sql_begin := begin_transaction;
  sql_commit := commit;
  sql_rollback := roll_back;
  sql_real_text _ := "" }.

Lemma imap_Forall2 {A B} (R : B -> A -> Prop) (f : nat -> A -> B) (l : list A) :
  (forall i x, R (f i x) x) -> Forall2 R (imap f l) l.
Proof.
  revert f. induction l as [|x l IH]; intros f Hf; [constructor|]. rewrite imap_cons. constructor; [done|].
  apply IH. intros i y. apply Hf.
Qed.

Lemma answer_ok q t : query_spec q t (answer q t).
Proof.
  destruct q; cbn [query_spec answer].
  - eexists. split; [apply imap_Forall2; intros; by eexists|].
    split; [apply merge_sort_Permutation|apply (Sorted_merge_sort detection_le)].
  - eexists. split; [done|]. split; [apply merge_sort_Permutation|apply (Sorted_merge_sort line_le)].
  - by eexists.
  - by eexists.
  - exists (take 8 (t_lines t)), (drop 8 (t_lines t)). split_and!; [done|by rewrite take_drop|apply length_take].
  - done.
  - by eexists.
Qed.

(** What a call does, from what its body does. *)
Lemma call_sound {A} (f : store -> res A * store) d (P : tables -> option tables -> A -> store -> Prop) :
  (forall fs, match f (set_faults fs d) with
   | (Ok a, d') => P (now d) (begun d) a d'
   | (Throw e, d') => kept (now d) (begun d) (now d') (begun d') /\ is_std_exception e = true
   end) ->
  match call f d with
  | (Ok a, d') => P (now d) (begun d) a d'
  | (Throw e, d') => kept (now d) (begun d) (now d') (begun d') /\ is_std_exception e = true
  end.
Proof.
  intros H. destruct d as [t b fs u]. unfold call. cbn [faults]. destruct fs as [|[] fs]; [apply (H [])|apply (H fs)|split; [by left|done]|].
  split; [|done]. destruct b as [t'|]; [by right|by left].
Qed.

Definition working (d : store) : Prop := faults d = [] /\ unreadable d = false.

Lemma call_working {A} (f : store -> res A * store) d : working d -> call f d = f d.
Proof. intros [E _]. unfold call. by rewrite E. Qed.

Lemma exec_stmt s : exec (stmt_text s) (stmt_args s) = call (fun d =>
  match stmt_sem s (now d) with Some (n, t) => (Ok n, set_tables t d) | None => (Throw (sqlite_error "constraint failed"), d) end).
Proof. unfold exec. by rewrite decode_stmt_text. Qed.

Lemma create_not_stmt sql nm cols : parse_create sql = Some (nm, cols) -> decode_stmt sql [] = None.
Proof.
  intros E. cbn [decode_stmt]. repeat (match goal with |- context [String.eqb sql ?t] => destruct (String.eqb_spec sql t) as [->|_] end;
    [vm_compute in E; discriminate E|]). done.
Qed.

Lemma exec_create sql nm cols : parse_create sql = Some (nm, cols) -> exec sql [] =
  call (fun d => (Ok 0, set_tables (with_schema (create_table (t_schema (now d)) nm cols) (now d)) d)).
Proof. intros E. unfold exec. by rewrite (create_not_stmt _ _ _ E), E. Qed.

#[global] Instance laws : SqliteLaws store.
Proof.
  refine {| view := now; pending := begun; io_ok := working |}; cbn [sql_exec sql_query sql_begin sql_commit sql_rollback engine].
  - intros s d _. rewrite exec_stmt. apply (call_sound _ d (fun t b n d' => stmt_sem s t = Some (n, now d') /\ begun d' = b)).
    intros fs. cbn [now set_faults]. destruct (stmt_sem s (now d)) as [[n t]|]; [done|]. split; [by left|done].
  - intros s d _ Hw. rewrite exec_stmt, call_working by done. destruct (stmt_sem s (now d)) as [[n t]|]; cbn [fst snd]; [split; [done|by eexists]|by split].
  - intros sql nm cols d E. rewrite (exec_create _ _ _ E).
    by apply (call_sound _ d (fun t b n d' => now d' = with_schema (create_table (t_schema t) nm cols) t /\ begun d' = b)).
  - intros sql nm cols d E Hw. rewrite (exec_create _ _ _ E), call_working by done. split; [done|by eexists].
  - intros q d _. unfold run_query. rewrite decode_query_text. destruct (unreadable d); [done|].
    destruct (find_table _ _); [|done]. intros _. apply answer_ok.
  - intros q d Ha [_ Hr]. unfold run_query. rewrite decode_query_text, Hr. unfold query_accepts in Ha. by destruct (find_table _ _).
  - intros sql args d e. unfold run_query. destruct (decode_query sql args); [|by intros [= <-]].
    destruct (unreadable d); [by intros [= <-]|]. destruct (find_table _ _); [done|]. by intros [= <-].
  - intros d. unfold begin_transaction. destruct (begun d) as [t|] eqn:E; [done|]. unfold call. destruct (faults d) as [|[] fs]; cbn; rewrite ?E; done.
  - intros d Hw E. unfold begin_transaction. rewrite E, call_working by done. by eexists.
  - intros d. unfold commit. apply (call_sound _ d (fun t b _ d' => b <> None /\ now d' = t /\ begun d' = None)).
    intros fs. cbn [begun set_faults]. destruct (begun d) eqn:E; [by split_and!|]. split; [by left; split|done].
  - intros d Hw Hb. unfold commit. rewrite call_working by done. destruct (begun d); [by eexists|done].
  - intros d. done.
Defined.

(** A new file, and one with the program's tables. *)
Definition blank : store := mk_store no_tables None [] false.
Definition empty : store := mk_store (with_schema program_schema no_tables) None [] false.
End Memory.

(** ** The constraints *)

Definition int_range (z : Z) : Prop := - 2 ^ 31 <= z < 2 ^ 31.

Definition line_ok (l : CrossLine) : Prop :=
  int_range (index l) /\ int_range (x1 l) /\ int_range (y1 l) /\ int_range (x2 l) /\ int_range (y2 l).
Definition base_ok (b : BaseLine) : Prop :=
  int_range (base_index b) /\ int_range (matrixNum1 b) /\ int_range (base_x1 b) /\ int_range (base_y1 b)
  /\ int_range (matrixNum2 b) /\ int_range (base_x2 b) /\ int_range (base_y2 b).

(** The keys are unique, the names of lines too, and every number is an [int]. *)
Record tables_wf (t : tables) : Prop := {
  wf_line_index : NoDup (map index (t_lines t));
  wf_line_name : NoDup (map name (t_lines t));
  wf_line_ok : Forall line_ok (t_lines t);
  wf_base_index : NoDup (map base_index (t_baseLines t));
  wf_base_ok : Forall base_ok (t_baseLines t);
  wf_vertical_index : NoDup (map vert_index (t_verticals t));
  wf_account_id : NoDup (map id (t_accounts t)) }.

(** The numbers a statement brings are the [int]s of the program. *)
Definition stmt_ints (s : stmt) : Prop :=
  match s with
  | InsLine l => line_ok l
  | InsBase b => base_ok b
  | UpdBase m1 m2 _ => int_range m1 /\ int_range m2
  | _ => True
  end.

Lemma NoDup_snoc_existsb {A B} (f : A -> B) (p : A -> bool) l x :
  (forall y, f y = f x -> p y = true) -> existsb p l = false -> NoDup (map f l) -> NoDup (map f (l ++ [x])).
Proof.
  intros Hp He Hn. rewrite map_app. apply NoDup_app. split; [done|]. split; [|apply NoDup_singleton].
  intros b Hb Hx. apply list_elem_of_singleton in Hx as ->.
  apply list_elem_of_In, in_map_iff in Hb as (y & Hy & Hin).
  assert (existsb p l = true) as E by (apply existsb_exists; exists y; split; [done|by apply Hp]). congruence.
Qed.

Lemma NoDup_map_filter {A B} (f : A -> B) (p : A -> bool) l : NoDup (map f l) -> NoDup (map f (List.filter p l)).
Proof.
  induction l as [|x l IH]; cbn; [done|]. intros [Hx Hl]%NoDup_cons. destruct (p x); [|by apply IH]. cbn.
  apply NoDup_cons. split; [|by apply IH]. intros Hin. apply Hx.
  apply list_elem_of_In, in_map_iff in Hin as (y & Hy & [Hin _]%filter_In).
  apply list_elem_of_In, in_map_iff. by exists y.
Qed.

Lemma map_update_if {A B} (g : A -> B) (p : A -> bool) (f : A -> A) l :
  (forall x, g (f x) = g x) -> map g (update_if p f l) = map g l.
Proof. intros H. unfold update_if. rewrite map_map. apply map_ext. intros x. by destruct (p x). Qed.

Lemma Forall_update_if {A} (P : A -> Prop) (p : A -> bool) (f : A -> A) l :
  (forall x, P x -> P (f x)) -> Forall P l -> Forall P (update_if p f l).
Proof.
  intros H Hl. unfold update_if. induction Hl as [|x l Hx _ IH]; cbn; [done|].
  constructor; [|done]. destruct (p x); auto.
Qed.

(** Every statement keeps the constraints, and the declarations. *)
Lemma stmt_effect_wf s t n t' : stmt_ints s -> stmt_effect s t = Some (n, t') -> tables_wf t -> tables_wf t'.
Proof.
  intros Hi E [W1 W2 W3 W4 W5 W6 W7].
  destruct s; cbn in E; repeat case_match; simplify_eq; constructor; cbn in *; try done; try apply NoDup_nil_2;
    try (by apply NoDup_map_filter); try (by rewrite map_update_if).
  - eapply NoDup_snoc_existsb; [|done|done]. intros y E. cbn. by rewrite E, Z.eqb_refl.
  - eapply NoDup_snoc_existsb; [|done|done]. intros y E. cbn. by rewrite E, String.eqb_refl, orb_true_r.
  - apply Forall_app. by split; [|apply Forall_singleton].
  - apply Forall_forall. intros x [Hin _]%list_elem_of_In%filter_In. rewrite Forall_forall in W3.
    by apply W3, list_elem_of_In.
  - eapply NoDup_snoc_existsb; [|done|done]. intros y E. cbn. by rewrite E, Z.eqb_refl.
  - apply Forall_app. by split; [|apply Forall_singleton].
  - apply Forall_update_if; [|done]. intros b. unfold base_ok. cbn. naive_solver.
  - match goal with H : _ || _ || _ = false |- _ => apply orb_false_iff in H as [[H _]%orb_false_iff _] end.
    eapply NoDup_snoc_existsb; [|done|done]. intros y E. cbn. by rewrite E, Z.eqb_refl.
  - eapply NoDup_snoc_existsb; [|done|done]. intros y E. cbn. by rewrite E, String.eqb_refl.
Qed.

Lemma stmt_effect_schema s t n t' : stmt_effect s t = Some (n, t') -> t_schema t' = t_schema t.
Proof. destruct s; cbn; repeat case_match; intros E; by simplify_eq. Qed.

Lemma filter_none {A} (p : A -> bool) l :
  (forall x, In x l -> p x = false) -> List.filter p l = [].
Proof.
  induction l as [|x l IH]; cbn; [done|]. intros Hp. rewrite (Hp x) by (by left). apply IH. intros y Hy. apply Hp. by right.
Qed.

(** ** The functions over an engine with the laws *)

Section engine.
Context {D : Type} `{SL : SqliteLaws D} {PW : Pwhash}.

(** A database that works: I/O does not fail, no transaction is open, and the program's tables are there. *)
Definition healthy (d : D) : Prop := io_ok d /\ pending d = None /\ created (t_schema (view d)).

Lemma healthy_ok d s : healthy d -> stmt_ok s = true -> accepts (t_schema (view d)) s = true.
Proof. intros (_ & _ & Hc). by apply accepts_created. Qed.

(** A statement on a working database has its effect, or is refused. *)
Lemma exec_spec s d : stmt_ok s = true -> healthy d ->
  exists r d', sql_exec (stmt_text s) (stmt_args s) d = (r, d') /\ healthy d' /\
  match r with
  | Ok n => stmt_effect s (view d) = Some (n, view d')
  | Throw e => stmt_effect s (view d) = None /\ view d' = view d /\ is_std_exception e = true
  end.
Proof.
  intros Hs Hh. pose proof (healthy_ok d s Hh Hs) as Ha. destruct Hh as (Hi & Hp & Hc).
  pose proof (exec_sound s d Ha) as Hx. destruct (exec_live s d Ha Hi) as [Hi' Hl].
  rewrite (stmt_sem_effect s _ Hc) in *. destruct (sql_exec _ _ d) as [[n|e] d'] eqn:E; eexists _, d'; (split; [done|]); cbn [fst snd] in *.
  - destruct Hx as [Hx Hp']. split; [|done]. split_and!; [done|congruence|]. by rewrite (stmt_effect_schema _ _ _ _ Hx).
  - destruct Hx as [[[Hv Hp']|[Hp' _]] He]; [|congruence]. split; [split_and!; [done|congruence|by rewrite Hv]|].
    split; [|done]. destruct (stmt_effect s (view d)) as [[n t]|]; [|done]. by destruct Hl as [n' Hn].
Qed.

Lemma exec_flag_spec s d : stmt_ok s = true -> healthy d -> exists b d',
  exec_flag (stmt_text s) (stmt_args s) d = (Ok b, d') /\ healthy d'
  /\ if (b : bool) then exists n, stmt_effect s (view d) = Some (n, view d') else stmt_effect s (view d) = None /\ view d' = view d.
Proof.
  intros Hs Hh. unfold exec_flag, try_catch, mbind, M_bind, mret, M_ret.
  destruct (exec_spec s d Hs Hh) as ([n|e] & d' & -> & Hh' & Hx).
  - exists true, d'. split_and!; [done|done|by eexists].
  - destruct Hx as (Hn & Hv & ->). by exists false, d'.
Qed.

Lemma exec_changes_spec s d : stmt_ok s = true -> healthy d -> exists b d',
  exec_changes (stmt_text s) (stmt_args s) d = (Ok b, d') /\ healthy d'
  /\ ((exists n, stmt_effect s (view d) = Some (n, view d') /\ b = negb (n =? 0))
      \/ (stmt_effect s (view d) = None /\ view d' = view d /\ b = false)).
Proof.
  intros Hs Hh. unfold exec_changes, try_catch, mbind, M_bind, mret, M_ret.
  destruct (exec_spec s d Hs Hh) as ([n|e] & d' & -> & Hh' & Hx).
  - exists (negb (n =? 0)), d'. split_and!; [done|done|]. left. by exists n.
  - destruct Hx as (Hn & Hv & ->). exists false, d'. split_and!; [done|done|by right].
Qed.

(** *** Transactions *)

Definition new_codes (i : string) (codes : list string) : list RecoveryCode :=
  map (fun c => mk_RecoveryCode i c 0) codes.

(** What a failed call inside a transaction leaves to be taken back, if anything. *)
Definition to_undo (t : tables) (d : D) : Prop := pending d = Some t \/ (pending d = None /\ view d = t).

Lemma kept_to_undo t (d d' : D) : pending d = Some t -> kept (view d) (pending d) (view d') (pending d') -> to_undo t d'.
Proof. intros Hp [[Hv Hp']|[Hp' Hn]]; [left; congruence|right; split; congruence]. Qed.

Lemma rollback_undoes t d : to_undo t d -> view (sql_rollback d) = t /\ pending (sql_rollback d) = None.
Proof. intros Hu. destruct (rollback_sound d) as [Hv Hn]. split; [|done]. rewrite Hv. by destruct Hu as [->|[-> <-]]. Qed.

Lemma insert_codes_spec i codes t : forall d, created (t_schema (view d)) -> pending d = Some t ->
  match insert_codes i codes d with
  | (Ok _, d') => view d' = with_codes (t_codes (view d) ++ new_codes i codes)%list (view d) /\ pending d' = Some t
  | (Throw e, d') => to_undo t d' /\ is_std_exception e = true
  end.
Proof.
  induction codes as [|c codes IH]; intros d Hc Hp; cbn [insert_codes].
  - cbn. rewrite app_nil_r. by destruct (view d).
  - unfold mbind, M_bind. pose proof (exec_sound (InsCode i c) d (accepts_created _ (InsCode i c) Hc eq_refl)) as Hx.
    rewrite stmt_sem_effect in Hx by done. cbn [stmt_text stmt_args] in Hx. destruct (sql_exec _ _ d) as [[n|e] d1].
    2: { destruct Hx as [Hk He]. split; [by eapply kept_to_undo|done]. }
    destruct Hx as [[= _ Hv] Hp1]. rewrite Hp in Hp1. specialize (IH d1). rewrite <- Hv in IH. specialize (IH Hc Hp1).
    destruct (insert_codes i codes d1) as [[[]|e] d2]; [|done]. destruct IH as [-> ?]. split; [|done]. cbn. by rewrite <- app_assoc.
Qed.

Lemma insert_codes_live i codes : forall d, created (t_schema (view d)) -> io_ok d -> exists d',
  insert_codes i codes d = (Ok tt, d') /\ io_ok d'.
Proof.
  induction codes as [|c codes IH]; intros d Hc Hi; cbn [insert_codes]; [by eexists|].
  pose proof (accepts_created _ (InsCode i c) Hc eq_refl) as Ha.
  destruct (exec_live (InsCode i c) d Ha Hi) as [Hi' Hok]. pose proof (exec_sound (InsCode i c) d Ha) as Hx.
  rewrite stmt_sem_effect in Hok, Hx by done. destruct (Hok ltac:(done)) as [n En].
  unfold mbind, M_bind. cbn [stmt_text stmt_args] in *. destruct (sql_exec _ _ d) as [r d1]. cbn [fst snd] in *. subst r.
  destruct Hx as [[= _ Hv] _]. apply IH; [|done]. by rewrite <- Hv.
Qed.

(** *** Queries *)

Lemma collect_map {A B} (f : row -> res A) (g : B -> row) (h : B -> A) bs :
  Forall (fun b => f (g b) = Ok (h b)) bs -> collect f (map g bs) = map h bs.
Proof. induction 1 as [|b bs Hb _ IH]; cbn; [done|]. by rewrite Hb, IH. Qed.

Lemma read_line_row l : line_ok l -> read_line (line_row l) = Ok l.
Proof.
  intros (H1 & H2 & H3 & H4 & H5). unfold read_line, line_row, col_int, col_string. cbn.
  rewrite !s32_small by done. by destruct l.
Qed.

Lemma read_base_row b : base_ok b -> read_baseLine (base_row b) = Ok b.
Proof.
  intros (H1 & H2 & H3 & H4 & H5 & H6 & H7). unfold read_baseLine, base_row, col_int. cbn.
  rewrite !s32_small by done. by destruct b.
Qed.

Lemma read_account_row a : read_account (account_row a) = Ok a.
Proof. by destruct a as [? ? ? []]. Qed.

(** A query on a working database is answered. *)
Lemma query_spec_ok q d : query_ok q = true -> healthy d ->
  query_spec q (view d) (fst (sql_query (query_text q) (query_args q) d)).
Proof.
  intros Hq (Hi & _ & Hc). pose proof (query_accepts_created _ q Hc Hq) as Ha. by apply query_sound, query_live.
Qed.

Lemma select_lines_spec d : healthy d -> tables_wf (view d) -> exists ls,
  select_all_data_lines d = (Ok ls, d) /\ Permutation ls (t_lines (view d))
  /\ Sorted (fun l l' => str_le (name l) (name l')) ls.
Proof.
  intros Hh Hw. pose proof (query_spec_ok QLines d eq_refl Hh) as (ls & E & Hp & Hs).
  exists ls. split; [|done]. unfold select_all_data_lines, select_rows, mbind, M_bind, getS, mret, M_ret.
  cbn [query_text query_args] in E. rewrite E, (collect_map _ _ (fun l => l)), map_id; [done|].
  eapply Forall_impl; [rewrite Hp; apply (wf_line_ok _ Hw)|]. intros l. apply read_line_row.
Qed.

Lemma select_baseLines_spec d : healthy d -> tables_wf (view d) -> exists bs,
  select_all_data_baseLines d = (Ok bs, d) /\ Permutation bs (t_baseLines (view d)).
Proof.
  intros Hh Hw. pose proof (query_spec_ok QBases d eq_refl Hh) as (bs & E & Hp).
  exists bs. split; [|done]. unfold select_all_data_baseLines, select_rows, mbind, M_bind, getS, mret, M_ret.
  cbn [query_text query_args] in E. rewrite E, (collect_map _ _ (fun b => b)), map_id; [done|].
  eapply Forall_impl; [rewrite Hp; apply (wf_base_ok _ Hw)|]. intros b. apply read_base_row.
Qed.

Lemma NoDup_filter_key {A} (f : A -> string) l a : NoDup (map f l) -> In a l ->
  List.filter (fun x => String.eqb (f x) (f a)) l = [a].
Proof.
  induction l as [|x l IH]; [done|]. cbn [map List.filter]. intros [Hx Hl]%NoDup_cons [->|Hin].
  - rewrite String.eqb_refl. f_equal. clear IH. induction l as [|y l IH]; [done|]. cbn [map List.filter] in *.
    apply not_elem_of_cons in Hx as [Hne Hx]. apply NoDup_cons in Hl as [_ Hl].
    destruct (String.eqb_spec (f y) (f a)); [congruence|]. by apply IH.
  - destruct (String.eqb_spec (f x) (f a)) as [E|]; [|by apply IH].
    exfalso. apply Hx. rewrite E. apply list_elem_of_In. by apply in_map.
Qed.

(** The account of an id, for every id. *)
Lemma get_account_spec d i : healthy d -> tables_wf (view d) ->
  get_account_by_id i d = (Ok (List.find (fun a => String.eqb (id a) i) (t_accounts (view d))), d).
Proof.
  intros Hh Hw. pose proof (query_spec_ok (QAccount i) d eq_refl Hh) as Hp.
  cbn [query_text query_args query_spec] in Hp. unfold get_account_by_id, mbind, M_bind, getS, mret, M_ret.
  destruct (sql_query _ _ d) as [rows err]. cbn [fst] in Hp.
  destruct (List.find _ _) as [a|] eqn:E.
  - apply find_some in E as [Hin Ha%String.eqb_eq]. subst i.
    rewrite (NoDup_filter_key id) in Hp by (done || apply (wf_account_id _ Hw)).
    apply Permutation_sym, Permutation_length_1_inv in Hp as ->. by rewrite read_account_row.
  - replace (List.filter _ _) with (@nil Account) in Hp.
    + by apply Permutation_sym, Permutation_nil in Hp as ->.
    + symmetry. apply filter_none. intros a Ha. by apply (find_none _ _ E) in Ha.
Qed.

(** The unused hashes of an id. *)
Definition unused (t : tables) (i : string) : list string :=
  map code_hash (List.filter (fun r => String.eqb (code_id r) i && (used r =? 0)) (t_codes t)).

Lemma get_codes_spec d i : healthy d -> exists hs,
  get_hashed_recovery_codes i d = (Ok hs, d) /\ Permutation hs (unused (view d) i).
Proof.
  intros Hh. pose proof (query_spec_ok (QCodes i) d eq_refl Hh) as (cs & E & Hp).
  exists (map code_hash cs). split; [|by apply Permutation_map].
  unfold get_hashed_recovery_codes, select_rows, mbind, M_bind, getS, mret, M_ret.
  cbn [query_text query_args] in E. rewrite E, (collect_map _ _ code_hash); [done|].
  by apply Forall_true.
Qed.
End engine.

Section properties.
Context {D : Type} `{SL : SqliteLaws D} {PW : Pwhash}.

Lemma store_codes_spec i codes d : created (t_schema (view d)) -> exists b d',
  store_recovery_codes i codes d = (Ok b, d')
  /\ view d' = (if b then with_codes (t_codes (view d) ++ new_codes i codes)%list (view d) else view d)
  /\ (b = true -> pending d = None) /\ (pending d = None -> pending d' = None)
  /\ (healthy d -> b = true /\ healthy d').
Proof.
  intros Hc. unfold store_recovery_codes, try_catch, with_transaction, mbind, M_bind, mret, M_ret.
  pose proof (begin_sound d) as Hb. pose proof (begin_live d) as Hbl. destruct (sql_begin d) as [[[]|e] d1].
  2: { destruct Hb as (Hv & Hp & ->). eexists false, d1. split_and!; [done..|congruence|].
       intros (Hi & Hn & _). by destruct (Hbl Hi Hn) as (? & ? & _). }
  destruct Hb as (Hn & Hv1 & Hp1). rewrite <- Hv1 in Hc.
  assert (Hlive : healthy d -> exists d2 d3, insert_codes i codes d1 = (Ok tt, d2) /\ sql_commit d2 = (Ok tt, d3) /\ io_ok d3).
  { intros (Hi & _). destruct (Hbl Hi Hn) as (d1' & [= <-] & Hi1). destruct (insert_codes_live i codes d1 Hc Hi1) as (d2 & E2 & Hi2).
    pose proof (insert_codes_spec i codes _ d1 Hc Hp1) as Hx. rewrite E2 in Hx.
    destruct (commit_live d2 Hi2) as (d3 & E3 & Hi3); [by rewrite (proj2 Hx)|]. by exists d2, d3. }
  pose proof (insert_codes_spec i codes _ d1 Hc Hp1) as Hi. destruct (insert_codes i codes d1) as [[[]|e] d2].
  2: { destruct Hi as [[Hv Hp]%rollback_undoes ->]. eexists false, _. split_and!; [done..|]. intros (? & ? & ? & _)%Hlive. done. }
  destruct Hi as [Hv2 Hp2]. pose proof (commit_sound d2) as Hx. destruct (sql_commit d2) as [[[]|e] d3] eqn:E3.
  - destruct Hx as (_ & Hv3 & Hp3). eexists true, d3. split; [done|]. rewrite Hv3, Hv2, Hv1. split_and!; [done..|].
    intros Hh. destruct (Hlive Hh) as (d2' & d3' & [= <-] & E & Hi3). rewrite E3 in E. injection E as <-. split; [done|].
    split_and!; [done..|]. rewrite Hv3, Hv2. exact Hc.
  - destruct Hx as [[Hv Hp]%(kept_to_undo _ _ _ Hp2)%rollback_undoes ->]. eexists false, _. split_and!; [done..|].
    intros (d2' & d3' & [= <-] & E & _)%Hlive. by rewrite E3 in E.
Qed.

(** The invalidation, once the hashes are read. *)
Lemma invalidate_unfold i input d hs : get_hashed_recovery_codes i d = (Ok hs, d) ->
  let h := default "" (List.find (fun h => verify_password h input) hs) in
  invalidate_recovery_code i input d
  = if str_empty h then (Ok false, d)
    else match sql_exec (stmt_text (UseCode i h)) (stmt_args (UseCode i h)) d with
         | (Ok n, d') => (Ok (0 <? n), d')
         | (Throw e, d') => if is_std_exception e then (Ok false, d') else (Throw e, d')
         end.
Proof.
  intros E h. unfold invalidate_recovery_code, try_catch, mbind, M_bind at 1. rewrite E. fold h.
  destruct (str_empty h); [done|]. cbn [stmt_text stmt_args]. unfold M_bind, mret, M_ret.
  by destruct (sql_exec _ _ d) as [[n|e] d'].
Qed.

Lemma get_codes_returns i d : exists hs, get_hashed_recovery_codes i d = (Ok hs, d).
Proof. by eexists. Qed.
End properties.

(** A toy password hash: the text behind a mark. *)
#[local] Instance toy_pwhash : Pwhash := {
  crypto_pwhash_str _ p := Some (String "#" p);
  crypto_pwhash_str_verify h p := if String.eqb h (String "#" p) then 0 else -1 }.

Lemma memory_healthy (d : Memory.store) : Memory.faults d = [] -> Memory.unreadable d = false -> Memory.begun d = None ->
  t_schema (Memory.now d) = program_schema -> healthy d.
Proof. intros. split_and!; [by split|done|by left]. Qed.

Lemma empty_healthy : healthy Memory.empty.
Proof. by apply memory_healthy. Qed.

Lemma tables_wf_empty : tables_wf (view Memory.empty).
Proof. constructor; cbn; try apply NoDup_nil_2; done. Qed.

(** C13: storing the recovery codes of an account is atomic: on the program's tables, whatever call fails, BEGIN,
    any of the INSERTs or COMMIT, and whether or not SQLite takes the transaction back by itself, either all
    codes are stored, unused, and the function returns [true], or the tables are as before and it returns
    [false].  Inside another transaction nothing is stored, no transaction is left open, and on a working
    database the codes are stored. *)
Theorem store_recovery_codes_atomic {D} `{SL : SqliteLaws D} (i : string) (codes : list string) (d : D) :
  created (t_schema (view d)) ->
  exists b d', store_recovery_codes i codes d = (Ok b, d')
  /\ view d' = (if b then with_codes (t_codes (view d) ++ new_codes i codes)%list (view d) else view d)
  /\ (b = true -> pending d = None) /\ (pending d = None -> pending d' = None)
  /\ (healthy d -> b = true /\ healthy d').
Proof. apply store_codes_spec. Qed.

(** Two codes: stored when every call works; refused with nothing stored when BEGIN, the second INSERT or COMMIT
    fails, when SQLite takes the transaction back at the second INSERT or at COMMIT, and inside a transaction. *)
Lemma store_recovery_codes_atomic_witness :
  let store d := store_recovery_codes "kim" ["#1"; "#2"] d in
  let failing fs := Memory.set_faults fs Memory.empty in
  let inside := Memory.set_begun (Some no_tables) Memory.empty in
  (fst (store Memory.empty) = Ok true /\ length (t_codes (view (snd (store Memory.empty)))) = 2%nat)
  /\ Forall (fun d => fst (store d) = Ok false /\ view (snd (store d)) = view d)
       [failing [Memory.f_error]; failing [Memory.f_ok; Memory.f_ok; Memory.f_error];
        failing [Memory.f_ok; Memory.f_ok; Memory.f_rollback]; failing [Memory.f_ok; Memory.f_ok; Memory.f_ok; Memory.f_error];
        failing [Memory.f_ok; Memory.f_ok; Memory.f_ok; Memory.f_rollback]; inside].
Proof.
  intros store failing inside.
  assert (H : forall d, Memory.now d = Memory.now Memory.empty -> exists b d', store d = (Ok b, d')
    /\ view d' = (if b then with_codes (t_codes (view d) ++ new_codes "kim" ["#1"; "#2"])%list (view d) else view d)).
  { intros d E. destruct (store_recovery_codes_atomic "kim" ["#1"; "#2"] d) as (b & d' & E1 & E2 & _); [left; exact (f_equal t_schema E)|by exists b, d']. }
  split.
  - destruct (H Memory.empty eq_refl) as (b & d' & E & Hv). assert (Hb : fst (store Memory.empty) = Ok true) by (by vm_compute).
    rewrite E in *. cbn [fst snd] in *. injection Hb as ->. by rewrite Hv.
  - repeat constructor;
      match goal with |- fst (store ?d) = _ => by vm_compute
      | |- view (snd (store ?d)) = view _ => destruct (H d eq_refl) as (b & d' & E & Hv);
          assert (Hb : fst (store d) = Ok false) by (by vm_compute); rewrite E in *; cbn [fst snd] in *; injection Hb as ->; exact Hv end.
Defined.

(** ** Recovery codes *)

Section recovery.
Context {D : Type} `{SL : SqliteLaws D} {PW : Pwhash}.

Lemma existsb_perm {A} (p : A -> bool) l l' : Permutation l l' -> existsb p l = existsb p l'.
Proof.
  induction 1; cbn; try congruence. by rewrite !orb_assoc, (orb_comm (p y)).
Qed.

Lemma verify_recovery_spec d i c : healthy d ->
  verify_recovery_code i c d = (Ok (existsb (fun h => verify_password h c) (unused (view d) i)), d).
Proof.
  intros Hh. destruct (get_codes_spec d i Hh) as (hs & E & Hp).
  unfold verify_recovery_code, mbind, M_bind, mret, M_ret. rewrite E.
  by rewrite (existsb_perm _ _ _ Hp).
Qed.

(** Marking a hash takes it, and nothing else, off the unused ones. *)
Lemma unused_after_use t n t' i h j : stmt_effect (UseCode i h) t = Some (n, t') ->
  unused t' j = if String.eqb i j then List.filter (fun h' => negb (String.eqb h' h)) (unused t j) else unused t j.
Proof.
  intros [= _ <-]. unfold unused, update_if. cbn [with_codes t_codes].
  induction (t_codes t) as [|r rs IH]; cbn; [by destruct (String.eqb i j)|].
  destruct (String.eqb_spec (code_id r) i) as [E1|E1], (String.eqb_spec (code_hash r) h) as [E2|E2]; cbn;
    destruct (String.eqb_spec (code_id r) j) as [E3|E3]; cbn; try done;
    destruct (String.eqb_spec i j) as [E4|E4]; subst; try done; destruct (used r =? 0); cbn; rewrite ?IH; try done.
  - by rewrite String.eqb_refl.
  - by destruct (String.eqb_spec (code_hash r) h).
Qed.

Lemma count_use_pos t n t' i h : stmt_effect (UseCode i h) t = Some (n, t') -> In h (unused t i) -> 0 < n.
Proof.
  intros [= <- _] Hin. unfold count. apply in_map_iff in Hin as (r & Hr & [Hin Hp]%filter_In).
  apply andb_prop in Hp as [Hp _].
  assert (In r (List.filter (fun r => String.eqb (code_id r) i && String.eqb (code_hash r) h) (t_codes t))) as Hf.
  { apply filter_In. split; [done|]. by rewrite Hp, Hr, String.eqb_refl. }
  destruct (List.filter _ _) as [|x l]; [done|]. cbn. lia.
Qed.

(** What a matching code does: it is accepted, marked, and no unused hash verifies it any more. *)
Lemma code_consumed (d : D) (i c h : string) :
  healthy d -> h <> "" -> In h (unused (view d) i) -> verify_password h c = true ->
  (forall h', In h' (unused (view d) i) -> verify_password h' c = true -> h' = h) ->
  exists d', verify_recovery_code i c d = (Ok true, d) /\ invalidate_recovery_code i c d = (Ok true, d')
  /\ healthy d' /\ existsb (fun h => verify_password h c) (unused (view d') i) = false
  /\ unused (view d') i = List.filter (fun h' => negb (String.eqb h' h)) (unused (view d) i)
  /\ (forall j, j <> i -> unused (view d') j = unused (view d) j).
Proof.
  intros Hh Hne Hin Hv Huniq. destruct (get_codes_spec d i Hh) as (hs & E & Hp).
  assert (Hf : List.find (fun h => verify_password h c) hs = Some h).
  { destruct (List.find _ hs) as [h'|] eqn:F.
    - apply find_some in F as [Hin' Hv']. f_equal. apply Huniq; [|done]. by rewrite <- Hp.
    - rewrite <- Hp in Hin. apply (find_none _ _ F) in Hin. congruence. }
  pose proof (invalidate_unfold i c d hs E) as Hi. rewrite Hf in Hi. cbn [default] in Hi.
  destruct (exec_spec (UseCode i h) d eq_refl Hh) as ([n|e] & d' & Ex & Hh' & Hx); [|by destruct Hx]. change (Datatypes.id h) with h in Hi. rewrite Ex in Hi.
  pose proof (count_use_pos _ _ _ _ _ Hx Hin) as Hn. apply Z.ltb_lt in Hn. exists d'.
  assert (Hu : unused (view d') i = List.filter (fun h' => negb (String.eqb h' h)) (unused (view d) i)).
  { rewrite (unused_after_use _ _ _ _ _ i Hx). by rewrite String.eqb_refl. }
  split_and!; [| |done| |done|].
  - rewrite verify_recovery_spec by done. do 2 f_equal. apply existsb_exists. by exists h.
  - rewrite Hi, Hn. by destruct h.
  - rewrite Hu. apply not_true_is_false.
    intros (h' & [Hin' Hne']%filter_In & Hv')%existsb_exists.
    rewrite (Huniq h' Hin' Hv'), String.eqb_refl in Hne'. done.
  - intros j Hj. rewrite (unused_after_use _ _ _ _ _ j Hx). by destruct (String.eqb_spec i j); [congruence|].
Qed.
End recovery.

(** A recovery code works once: if one unused hash of the account verifies the code, then the
    code is accepted, invalidating it succeeds, and from then on the same code is refused; the other
    unused codes of this and of every other account stay as they are. *)
Theorem recovery_code_works_once {D} `{SL : SqliteLaws D} {PW : Pwhash} (d : D) (i c h : string) :
  healthy d -> h <> "" -> In h (unused (view d) i) -> verify_password h c = true ->
  (forall h', In h' (unused (view d) i) -> verify_password h' c = true -> h' = h) ->
  exists d', verify_recovery_code i c d = (Ok true, d) /\ invalidate_recovery_code i c d = (Ok true, d')
  /\ verify_recovery_code i c d' = (Ok false, d')
  /\ unused (view d') i = List.filter (fun h' => negb (String.eqb h' h)) (unused (view d) i)
  /\ (forall j, j <> i -> unused (view d') j = unused (view d) j).
Proof.
  intros Hh Hne Hin Hv Hu. destruct (code_consumed d i c h Hh Hne Hin Hv Hu) as (d' & E1 & E2 & Hh' & Hx & H1 & H2).
  exists d'. split_and!; try done. by rewrite verify_recovery_spec, Hx.
Qed.

Definition one_code : Memory.store :=
  snd (store_recovery_codes "kim" ["#abcdefghij"; "#0123456789"] Memory.empty).

Lemma recovery_code_works_once_witness :
  exists d', verify_recovery_code "kim" "abcdefghij" one_code = (Ok true, one_code)
  /\ invalidate_recovery_code "kim" "abcdefghij" one_code = (Ok true, d')
  /\ verify_recovery_code "kim" "abcdefghij" d' = (Ok false, d').
Proof.
  destruct (recovery_code_works_once one_code "kim" "abcdefghij" "#abcdefghij") as (d' & H1 & H2 & H3 & _).
  - apply memory_healthy; vm_compute; reflexivity.
  - done.
  - vm_compute. by left.
  - by vm_compute.
  - intros h' [<-|[<-|[]]] E; [done|]. by vm_compute in E.
  - by exists d'.
Defined.

(** ** Accounts and lines *)

Lemma find_app_new {A} (p : A -> bool) l x :
  List.find p (l ++ [x]) = match List.find p l with Some y => Some y | None => if p x then Some x else None end.
Proof. induction l as [|y l IH]; cbn; [done|]. by destruct (p y). Qed.

Lemma find_existsb {A} (p : A -> bool) l : List.find p l = None <-> existsb p l = false.
Proof. induction l as [|y l IH]; cbn; [done|]. by destruct (p y). Qed.

(** On a working database an account is stored exactly when its id is new; it is then found by
    its id with its hash, secret and flag.  An account whose id is taken changes nothing: the old one
    is still found.  Looking up any other id gives what it gave before. *)
Theorem account_insert_lookup {D} `{SL : SqliteLaws D} (a : Account) (d : D) :
  healthy d -> tables_wf (view d) -> exists b d', insert_data_accounts a d = (Ok b, d')
  /\ (b = true <-> fst (get_account_by_id (id a) d) = Ok None)
  /\ (b = true -> fst (get_account_by_id (id a) d') = Ok (Some a))
  /\ (b = false -> fst (get_account_by_id (id a) d') = fst (get_account_by_id (id a) d))
  /\ (forall i, i <> id a -> fst (get_account_by_id i d') = fst (get_account_by_id i d)).
Proof.
  intros Hh Hw. destruct (exec_flag_spec (InsAccount a) d eq_refl Hh) as (b & d' & E & Hh' & Hv).
  exists b, d'. split; [done|].
  assert (Hw' : tables_wf (view d')).
  { destruct b; [|by rewrite (proj2 Hv)]. destruct Hv as [n Hn]. by apply (stmt_effect_wf (InsAccount a) (view d) n). }
  cbn [stmt_effect] in Hv.
  assert (G : forall i, fst (get_account_by_id i d) = Ok (List.find (fun a' => String.eqb (id a') i) (t_accounts (view d)))).
  { intros i. by rewrite get_account_spec. }
  assert (G' : forall i, fst (get_account_by_id i d') = Ok (List.find (fun a' => String.eqb (id a') i) (t_accounts (view d')))).
  { intros i. by rewrite get_account_spec. }
  rewrite !G, !G'. destruct (existsb _ _) eqn:X.
  - destruct b; [by destruct Hv|]. destruct Hv as [_ Hv]. rewrite Hv.
    split_and!; [|done|done|intros i _; by rewrite G, G', Hv].
    split; [done|]. intros [= F%find_existsb]. congruence.
  - destruct b; [|by destruct Hv]. destruct Hv as [n [= _ Hv]]. rewrite <- Hv. cbn [with_accounts t_accounts].
    apply find_existsb in X. split_and!.
    + split; [by rewrite X|done].
    + intros _. by rewrite find_app_new, X, String.eqb_refl.
    + done.
    + intros i Hi. rewrite G, G', <- Hv. cbn [with_accounts t_accounts]. rewrite find_app_new.
      destruct (List.find (fun a' => String.eqb (id a') i) _); [done|]. by destruct (String.eqb_spec (id a) i); [congruence|].
Qed.

Lemma account_insert_lookup_witness :
  exists d', insert_data_accounts (mk_Account "kim" "#pw" "JBSWY3DP" true) Memory.empty = (Ok true, d')
  /\ fst (get_account_by_id "kim" d') = Ok (Some (mk_Account "kim" "#pw" "JBSWY3DP" true)).
Proof.
  destruct (account_insert_lookup (SL := Memory.laws) (mk_Account "kim" "#pw" "JBSWY3DP" true) Memory.empty empty_healthy tables_wf_empty)
    as (b & d' & H1 & H2 & H3 & _).
  assert (b = true) as -> by (apply H2; by vm_compute). exists d'. split; [done|by apply H3].
Defined.

(** On a working database a line is stored exactly when its number and its name are both new,
    and reading all lines then returns each stored line once, unchanged, in the order of the names. *)
Theorem line_insert_select {D} `{SL : SqliteLaws D} (l : CrossLine) (d : D) :
  healthy d -> tables_wf (view d) -> line_ok l ->
  exists b d' ls, insert_data_lines l d = (Ok b, d')
  /\ (b = true <-> forall l', In l' (t_lines (view d)) -> index l' <> index l /\ name l' <> name l)
  /\ select_all_data_lines d' = (Ok ls, d')
  /\ Permutation ls (if b then l :: t_lines (view d) else t_lines (view d))
  /\ Sorted (fun l l' => str_le (name l) (name l')) ls.
Proof.
  intros Hh Hw Hok. destruct (exec_flag_spec (InsLine l) d eq_refl Hh) as (b & d' & E & Hh' & Hv). exists b, d'.
  assert (Hb : b = true <-> stmt_effect (InsLine l) (view d) <> None).
  { destruct b; [destruct Hv as [n ->]|destruct Hv as [-> _]]; done. }
  assert (Hw' : tables_wf (view d')).
  { destruct b; [|by rewrite (proj2 Hv)]. destruct Hv as [n Hn]. by apply (stmt_effect_wf (InsLine l) (view d) n). }
  destruct (select_lines_spec d' Hh' Hw') as (ls & S1 & S2 & S3). exists ls.
  split_and!; [done| |done| |done].
  - rewrite Hb. cbn [stmt_effect]. split.
    + destruct (existsb _ _) eqn:X; [done|]. intros _ l' Hin.
      assert (F := proj2 (not_true_iff_false _) X). split; intros E'; apply F, existsb_exists; exists l'; split; try done.
      * by rewrite E', Z.eqb_refl.
      * by rewrite E', String.eqb_refl, orb_true_r.
    + intros F. destruct (existsb _ _) eqn:X; [|done]. apply existsb_exists in X as (l' & Hin & [X|X]%orb_prop).
      * apply Z.eqb_eq in X. by destruct (F l' Hin).
      * apply String.eqb_eq in X. by destruct (F l' Hin).
  - destruct b; [|by rewrite <- (proj2 Hv)]. destruct Hv as [n Hv]. cbn [stmt_effect] in Hv.
    destruct (existsb _ _); [done|]. injection Hv as _ Hv. rewrite S2, <- Hv. cbn. by rewrite Permutation_app_comm.
Qed.

Lemma line_insert_select_witness :
  exists d' ls, insert_data_lines (mk_CrossLine 1 0 0 10 10 "gate" "Right") Memory.empty = (Ok true, d')
  /\ select_all_data_lines d' = (Ok ls, d').
Proof.
  destruct (line_insert_select (SL := Memory.laws) (mk_CrossLine 1 0 0 10 10 "gate" "Right") Memory.empty empty_healthy tables_wf_empty)
    as (b & d' & ls & H1 & H2 & H3 & _).
  - unfold line_ok, int_range. cbn. lia.
  - assert (b = true) as -> by (by apply H2). by exists d', ls.
Defined.

(** Two lookups never find anything. *)
Lemma select_vertical_never {D} `{SL : SqliteLaws D} uninit idx (d : D) : select_data_verticalLineEquations uninit idx d = (Ok uninit, d).
Proof.
  unfold select_data_verticalLineEquations, exec_select, try_catch, mbind, M_bind, getS, throwM, mret, M_ret.
  pose proof (query_throws "SELECT * FROM verticalLineEquations WHERE index = ?" [VInt idx] d) as Hq.
  destruct (sql_query _ _ d) as [[|r rows] [e|]]; try done; by rewrite (Hq e eq_refl).
Qed.

Lemma select_account_never {D} `{SL : SqliteLaws D} i p (d : D) : select_data_accounts i p d = (Ok None, d).
Proof. unfold select_data_accounts. by destruct (str_empty i || str_empty p). Qed.

(** Whatever the database holds, the vertical line equation returned is the uninitialised variable, and no
    account is ever returned for an id and password. *)
Theorem lookups_never_find {D} `{SL : SqliteLaws D} (uninit : VerticalLineEquation) (idx : Z) (i p : string) (d : D) :
  select_data_verticalLineEquations uninit idx d = (Ok uninit, d)
  /\ select_data_accounts i p d = (Ok None, d).
Proof. split; [apply select_vertical_never|apply select_account_never]. Qed.
