(* ===== verification/OtpManager.v ===== *)
(** * otp/otp_manager.cpp and otp/otp_factory.cpp

    The table of the users' one-time passwords, and the factory that makes an object from a URI. *)

From S2P Require Import QrSvg.
From S2P Require Import Prelude Str OtpUri Sha1 Otp.
From Stdlib Require Import Ascii.
From Stdlib Require String.

Local Open Scope string_scope.
Local Open Scope Z_scope.

(** ** OTPManager *)

Record OTPManager := mk_OTPManager {
  user_otps : gmap string TOTP;
  user_secrets : gmap string string }.

Definition empty_manager : OTPManager := mk_OTPManager ∅ ∅.

Section manager.
(** The digest table of the OTP classes, and the signedness of [char]. *)
Context (map : gmap string Algo_info) (char_signed : bool).

(** [totp->set_account(id); totp->set_issuer("OTP Console Program")]. *)
Definition label_totp (i : string) (t : TOTP) : TOTP :=
  mk_TOTP (set_issuer "OTP Console Program" (set_account i (totp_base t))) (m_interval t).

Definition put_user (i : string) (t : TOTP) (secret : string) (m : OTPManager) : OTPManager :=
  mk_OTPManager (<[i := t]> (user_otps m)) (<[i := secret]> (user_secrets m)).

Definition generate_otp_uri (rands : nat -> Z) (i : string) : M OTPManager string :=
  let secret := random_base32 16 rands in
  totp ← liftR (TOTP_named map secret "SHA1" 6 30);
  let totp := label_totp i totp in
  uri ← liftR (totp_build_uri char_signed totp);
  modS (put_user i totp secret) ;;
  mret uri.

Definition verify_otp (m : OTPManager) (i : string) (otp time : Z) : res bool :=
  match user_otps m !! i with
  | Some t => verify_int t (u64 otp) time 0
  | None => Ok false
  end.

Definition generate_qr_code_svg (otp_uri : string) : res string :=
  match set_content otp_uri new_QR_code with
  | (Ok _, qr) => get_svg qr
  | (Throw e, _) => Throw e
  end.

Definition get_secret (m : OTPManager) (i : string) : string := default "" (user_secrets m !! i).

Definition register_otp (i secret : string) : M OTPManager unit :=
  if str_empty secret then mret tt
  else totp ← liftR (TOTP_named map secret "SHA1" 6 30);
       modS (put_user i (label_totp i totp) secret).
End manager.

(** ** OTP_factory *)

Inductive OTP_ptr := ptr_totp (t : TOTP) | ptr_hotp (h : HOTP).

Definition creators : Type := gmap string (OTP_URI -> res OTP_ptr).

Definition register_named (nm : string) (creator : OTP_URI -> res OTP_ptr) : M creators unit :=
  m_creators ← getS;
  match m_creators !! nm with
  | Some _ => throwM (logic_error "factory: already registered")
  | None => modS (<[nm := creator]>)
  end.

Definition get_creator (m_creators : creators) (nm : string) : res (OTP_URI -> res OTP_ptr) :=
  match m_creators !! nm with
  | Some c => Ok c
  | None => Throw (logic_error "factory: creator not found")
  end.

Definition factory_create (m_creators : creators) (uri : string) : res OTP_ptr :=
  otp_uri ← OTP_URI_of uri;
  creator ← get_creator m_creators (m_type otp_uri);
  creator otp_uri.

(** The registrations of [init_lib]. *)
Definition init_lib (map : gmap string Algo_info) : M creators unit :=
  register_named "hotp" (fun u => ptr_hotp <$> HOTP_create map u) ;;
  register_named "totp" (fun u => ptr_totp <$> TOTP_create map u).

(** ** Lemmas *)

Section lemmas.
Context (map : gmap string Algo_info) (char_signed : bool).

Lemma TOTP_named_label secret i t : TOTP_named map secret "SHA1" 6 30 = Ok t ->
  exists a, map !! "SHA1" = Some a
  /\ label_totp i t = mk_TOTP (mk_OTP 6 (bits a) T_TOTP (algo a) (name a) secret "OTP Console Program" i) 30.
Proof.
  unfold TOTP_named, algo_at, TOTP_ctor, OTP_ctor. destruct (map !! "SHA1") as [a|]; [|done].
  cbn [mbind res_bind]. destruct (_ || _); [done|]. cbn. intros [= <-]. by exists a.
Qed.

Lemma generate_otp_uri_spec rands i m uri m' :
  generate_otp_uri map char_signed rands i m = (Ok uri, m') ->
  exists t, TOTP_named map (random_base32 16 rands) "SHA1" 6 30 = Ok t
  /\ totp_build_uri char_signed (label_totp i t) = Ok uri
  /\ m' = put_user i (label_totp i t) (random_base32 16 rands) m.
Proof.
  unfold generate_otp_uri, mbind, M_bind, liftR, modS, mret, M_ret.
  destruct (TOTP_named map _ "SHA1" 6 30) as [t|]; [|done].
  destruct (totp_build_uri _ _) as [u|] eqn:E; [|done]. intros [= <- <-]. by exists t.
Qed.

(** What the table holds behind a registration, and the URI shown to the user. *)
Lemma registered_uri secret i t a : map !! "SHA1" = Some a ->
  label_totp i t = mk_TOTP (mk_OTP 6 (bits a) T_TOTP (algo a) (name a) secret "OTP Console Program" i) 30 ->
  totp_build_uri char_signed (label_totp i t)
  = Ok (get_uri char_signed (mk_OTP_URI "totp" i secret "OTP Console Program" (name a) 6 0 30)).
Proof. intros _ ->. by apply totp_build_uri_eq. Qed.
End lemmas.

(** The factory after [init_lib]. *)
Definition factory (map : gmap string Algo_info) : creators := snd (init_lib map ∅).

Lemma factory_totp map : factory map !! "totp" = Some (fun u => ptr_totp <$> TOTP_create map u).
Proof. reflexivity. Qed.

Definition sha1_map : gmap string Algo_info := otp_algorithm_map (fun _ k m => Some (hmac_sha1 k m)).

Section registration.
Context (HMAC : string -> list Z -> list Z -> option (list Z)) (char_signed : bool).

(** With the program's table of digests, any secret that is not empty is accepted. *)
Lemma TOTP_named_sha1 secret : secret <> "" -> exists t, TOTP_named (otp_algorithm_map HMAC) secret "SHA1" 6 30 = Ok t.
Proof.
  intros Hs. unfold TOTP_named, algo_at. rewrite algo_sha1. cbn [mbind res_bind bits algo Otp.name].
  unfold TOTP_ctor, OTP_ctor. destruct secret as [|c secret]; [done|]. by eexists.
Qed.

Lemma random_secret_nonempty rands : random_base32 16 rands <> "".
Proof. intros E. apply (f_equal str_empty) in E. by vm_compute in E. Qed.

(** A registration never throws. *)
Lemma generate_otp_uri_returns rands i m :
  exists uri m', generate_otp_uri (otp_algorithm_map HMAC) char_signed rands i m = (Ok uri, m').
Proof.
  destruct (TOTP_named_sha1 _ (random_secret_nonempty rands)) as [t Ht].
  destruct (TOTP_named_label _ _ i _ Ht) as (a & Ha & Hl).
  unfold generate_otp_uri, mbind, M_bind, liftR, modS, mret, M_ret. rewrite Ht, (registered_uri _ _ _ _ _ _ Ha Hl).
  by do 2 eexists.
Qed.

(** The factory reads a registration's URI back as the object in the table. *)
Lemma registration_read_back rands i uri m m' :
  i <> "" -> generate_otp_uri (otp_algorithm_map HMAC) char_signed rands i m = (Ok uri, m') ->
  exists t, user_otps m' !! i = Some t /\ get_secret m' i = m_base32_secret (totp_base t)
  /\ factory_create (factory (otp_algorithm_map HMAC)) uri = Ok (ptr_totp t).
Proof.
  intros Hi Hg. destruct (generate_otp_uri_spec _ _ _ _ _ _ _ Hg) as (t & Ht & Hu & ->).
  destruct (TOTP_named_label _ _ i _ Ht) as (a & Ha & Hl).
  exists (label_totp i t). unfold get_secret. cbn [put_user user_otps user_secrets].
  rewrite !lookup_insert_eq. split; [done|]. split; [by rewrite Hl|].
  rewrite (registered_uri _ _ _ _ _ _ Ha Hl) in Hu. injection Hu as <-.
  rewrite algo_sha1 in Ha. injection Ha as <-.
  unfold factory_create. rewrite read_back_totp by done. cbn [mbind res_bind m_type].
  unfold get_creator. rewrite factory_totp. cbn [mbind res_bind]. unfold TOTP_create.
  cbn [m_secret m_algorithm OtpUri.m_digits m_period OtpUri.m_issuer OtpUri.m_account]. rewrite Ht.
  done.
Qed.
End registration.

(** The URI shown at registration carries all the server keeps: the factory makes from it
    exactly the object the table holds for the user (same secret, digest, digits, interval, issuer,
    account), for every non-empty id and all random numbers. *)
Theorem registration_uri_roundtrip (HMAC : string -> list Z -> list Z -> option (list Z))
    (char_signed : bool) (rands : nat -> Z) (i uri : string) (m m' : OTPManager) :
  let map := otp_algorithm_map HMAC in
  i <> "" -> generate_otp_uri map char_signed rands i m = (Ok uri, m') ->
  exists t, user_otps m' !! i = Some t /\ get_secret m' i = m_base32_secret (totp_base t)
  /\ factory_create (factory map) uri = Ok (ptr_totp t).
Proof. intros map. apply registration_read_back. Qed.

Lemma registration_uri_roundtrip_witness :
  exists uri m' t, generate_otp_uri sha1_map false (fun k => 7 * Z.of_nat k) "kim@site" empty_manager = (Ok uri, m')
  /\ user_otps m' !! "kim@site" = Some t /\ factory_create (factory sha1_map) uri = Ok (ptr_totp t).
Proof.
  destruct (generate_otp_uri sha1_map false (fun k => 7 * Z.of_nat k) "kim@site" empty_manager) as [[uri|e] m'] eqn:E.
  - destruct (registration_uri_roundtrip (fun _ k m => Some (hmac_sha1 k m)) false (fun k => 7 * Z.of_nat k)
      "kim@site" uri empty_manager m' ltac:(done) E) as (t & H1 & _ & H2). by exists uri, m', t.
  - exfalso. apply (f_equal (fun r => match fst r with Ok _ => true | _ => false end)) in E. by vm_compute in E.
Defined.

(** The stored secret is enough: registering it again, as a login does after a restart, gives
    the user the same object as the registration did, and so the same codes at every time. *)
Theorem register_otp_restores (HMAC : string -> list Z -> list Z -> option (list Z))
    (char_signed : bool) (rands : nat -> Z) (i uri : string) (m m' other : OTPManager) :
  let map := otp_algorithm_map HMAC in
  generate_otp_uri map char_signed rands i m = (Ok uri, m') ->
  exists r, register_otp map i (get_secret m' i) other = (Ok tt, r)
  /\ user_otps r !! i = user_otps m' !! i
  /\ (forall otp time, verify_otp r i otp time = verify_otp m' i otp time)
  /\ (forall j, j <> i -> user_otps r !! j = user_otps other !! j).
Proof.
  intros map Hg. destruct (generate_otp_uri_spec _ _ _ _ _ _ _ Hg) as (t & Ht & Hu & ->).
  unfold get_secret. cbn [put_user user_otps user_secrets]. rewrite lookup_insert_eq.
  change (default "" (Some (random_base32 16 rands))) with (random_base32 16 rands).
  unfold register_otp, mbind, M_bind, liftR, modS.
  destruct (str_empty (random_base32 16 rands)) eqn:Es; [by vm_compute in Es|]. rewrite Ht.
  eexists. split; [done|]. cbn [put_user user_otps]. rewrite !lookup_insert_eq. split; [done|].
  split; [intros otp time; unfold verify_otp; cbn [put_user user_otps]; by rewrite !lookup_insert_eq|].
  intros j Hj. by rewrite lookup_insert_ne.
Qed.

Lemma register_otp_restores_witness :
  exists uri m' r, generate_otp_uri sha1_map false (fun k => 7 * Z.of_nat k) "kim" empty_manager = (Ok uri, m')
  /\ register_otp sha1_map "kim" (get_secret m' "kim") empty_manager = (Ok tt, r)
  /\ user_otps r !! "kim" = user_otps m' !! "kim".
Proof.
  destruct (generate_otp_uri sha1_map false (fun k => 7 * Z.of_nat k) "kim" empty_manager) as [[uri|e] m'] eqn:E.
  - destruct (register_otp_restores (fun _ k m => Some (hmac_sha1 k m)) false (fun k => 7 * Z.of_nat k)
      "kim" uri empty_manager m' empty_manager E) as (r & H1 & H2 & _). by exists uri, m', r.
  - exfalso. apply (f_equal (fun r => match fst r with Ok _ => true | _ => false end)) in E. by vm_compute in E.
Defined.
