(* ===== verification/Console.v ===== *)
(** * test_client/otp_console: the console program

    Accounts, one-time passwords and recovery codes in memory, and the dialogue on [std::cin].  Random
    numbers, the clock and the files that can be written are arguments. *)

From S2P Require Import QrSvg.
From S2P Require Import Prelude Str Numbers Stream OtpUri Sha1 Otp Hash OtpManager.
From Stdlib Require Import Ascii.
From Stdlib Require String.

Local Open Scope string_scope.
Local Open Scope Z_scope.

(** ** UserManager *)

Record User := mk_User { user_password : string; recovery_codes : list string }.

Definition UserManager : Type := gmap string User.

Definition sign_up (i pw : string) : M UserManager bool :=
  users ← getS;
  match users !! i with
  | Some _ => mret false
  | None => modS <[i := mk_User pw []]> ;; mret true
  end.

Definition log_in (users : UserManager) (i pw : string) : bool :=
  match users !! i with
  | Some u => String.eqb (user_password u) pw
  | None => false
  end.

(** [users[id]] makes an account where there is none. *)
Definition generate_recovery_codes (picks : nat -> Z) (i : string) : M UserManager (list string) :=
  let codes := map (fun k => recovery_code (fun j => picks (10 * k + j)%nat)) (List.seq 0 5) in
  modS (fun users => <[i := mk_User (user_password (default (mk_User "" []) (users !! i))) codes]> users) ;;
  mret codes.

(** [std::find] and [erase]: the first occurrence. *)
Fixpoint erase_code (codes : list string) (code : string) : option (list string) :=
  match codes with
  | [] => None
  | c :: codes => if String.eqb c code then Some codes else cons c <$> erase_code codes code
  end.

Definition verify_recovery_code (i code : string) : M UserManager bool :=
  users ← getS;
  match users !! i with
  | None => mret false
  | Some u =>
      match erase_code (recovery_codes u) code with
      | None => mret false
      | Some codes => modS <[i := mk_User (user_password u) codes]> ;; mret true
      end
  end.

(** ** OTPManager *)

Section otp.
Context (algos : gmap string Algo_info) (char_signed : bool).

Definition generate_otp_uri (rands : nat -> Z) (i : string) : M (gmap string TOTP) string :=
  let secret := random_base32 16 rands in
  totp ← liftR (TOTP_named algos secret "SHA1" 6 30);
  let totp := label_totp i totp in
  uri ← liftR (totp_build_uri char_signed totp);
  modS <[i := totp]> ;;
  mret uri.

Definition verify_otp (user_otps : gmap string TOTP) (i : string) (otp time : Z) : res bool :=
  match user_otps !! i with
  | Some t => verify_int t (u64 otp) time 1
  | None => Ok false
  end.

(** The files written; the image is made only when the file can be opened. *)
Definition generate_qr_code (can_write : string -> bool) (i otp_uri : string) : M (gmap string string) string :=
  let filename := i +:+ "_qr_code.svg" in
  match set_content otp_uri new_QR_code with
  | (Throw e, _) => throwM e
  | (Ok _, qr) =>
      if can_write filename then svg ← liftR (get_svg qr); modS <[filename := svg]> ;; mret filename
      else mret filename
  end.

(** ** The dialogue *)

Record console := mk_console {
  c_in : cin; c_users : UserManager; c_otps : gmap string TOTP; c_files : gmap string string }.

Definition on_in {A} (f : cin -> A * cin) : M console A := fun c =>
  let '(a, i) := f (c_in c) in (Ok a, mk_console i (c_users c) (c_otps c) (c_files c)).
Definition on_users {A} (m : M UserManager A) : M console A := fun c =>
  let '(r, u) := m (c_users c) in (r, mk_console (c_in c) u (c_otps c) (c_files c)).
Definition on_otps {A} (m : M (gmap string TOTP) A) : M console A := fun c =>
  let '(r, o) := m (c_otps c) in (r, mk_console (c_in c) (c_users c) o (c_files c)).
Definition on_files {A} (m : M (gmap string string) A) : M console A := fun c =>
  let '(r, f) := m (c_files c) in (r, mk_console (c_in c) (c_users c) (c_otps c) f).

(** The surroundings of a turn. *)
Record console_env := mk_console_env {
  c_time : Z; c_rands : nat -> Z; c_picks : nat -> Z; c_can_write : string -> bool }.

(** What a turn reports. *)
Inductive report :=
| signed_up (uri file : string) (codes : list string)
| sign_up_failed
| otp_checked (ok : bool)
| recovery_checked (ok : bool)
| login_failed
| exited
| invalid_option.

Definition sign_up_turn (e : console_env) : M console report :=
  i ← on_in (read_word "");
  pw ← on_in (read_word "");
  ok ← on_users (sign_up i pw);
  if (ok : bool) then
    uri ← on_otps (generate_otp_uri (c_rands e) i);
    file ← on_files (generate_qr_code (c_can_write e) i uri);
    codes ← on_users (generate_recovery_codes (c_picks e) i);
    mret (signed_up uri file codes)
  else mret sign_up_failed.

(** [input[0]] of an empty string is the final zero. *)
Definition first_is_digit (input : string) : bool :=
  match input with String c _ => is_digit c | EmptyString => false end.

Definition second_step (e : console_env) (i input : string) : M console report :=
  if first_is_digit input then
    otp ← liftR (stoi input);
    c ← getS;
    ok ← liftR (verify_otp (c_otps c) i otp (c_time e));
    mret (otp_checked ok)
  else
    ok ← on_users (verify_recovery_code i input);
    mret (recovery_checked ok).

Definition log_in_turn (e : console_env) : M console report :=
  i ← on_in (read_word "");
  pw ← on_in (read_word "");
  c ← getS;
  if log_in (c_users c) i pw then
    input ← on_in (read_word "");
    second_step e i input
  else mret login_failed.

(** [choice] is not initialized: reading it after an extraction that left it alone is undefined. *)
Definition turn (e : console_env) : M console report :=
  choice ← on_in read_int;
  match choice with
  | None => throwM undefined_behavior
  | Some 1 => sign_up_turn e
  | Some 2 => log_in_turn e
  | Some 3 => mret exited
  | Some _ => mret invalid_option
  end.

(** The reports of the turns, and how the program ends: [Ok tt] is [return 0]. *)
Fixpoint console_main (fuel : nat) (envs : nat -> console_env) (c : console) : list report * option (res unit) * console :=
  match fuel with
  | O => ([], None, c)
  | S fuel =>
      match turn (envs 0%nat) c with
      | (Throw e, c) => ([], Some (Throw e), c)
      | (Ok exited, c) => ([exited], Some (Ok tt), c)
      | (Ok r, c) => let '(rs, o, c) := console_main fuel (fun k => envs (S k)) c in (r :: rs, o, c)
      end
  end.
End otp.

(** ** Lemmas *)

Lemma erase_code_in codes code : code ∈ codes -> exists a b, codes = (a ++ code :: b)%list /\ code ∉ a /\ erase_code codes code = Some (a ++ b)%list.
Proof.
  induction codes as [|c codes IH]; [by intros ?%elem_of_nil|]. intros Hin. cbn [erase_code]. destruct (String.eqb_spec c code) as [->|Hne].
  - exists [], codes. split_and!; [done|apply not_elem_of_nil|done].
  - apply elem_of_cons in Hin as [?|Hin]; [done|]. destruct (IH Hin) as (a & b & -> & Ha & ->). exists (c :: a), b.
    split_and!; [done|by apply not_elem_of_cons|done].
Qed.

Lemma erase_code_none codes code : code ∉ codes -> erase_code codes code = None.
Proof.
  induction codes as [|c codes IH]; [done|]. intros [Hne Hin]%not_elem_of_cons. cbn [erase_code].
  destruct (String.eqb_spec c code); [by subst|]. by rewrite IH.
Qed.

Section turns.
Context (algos : gmap string Algo_info) (char_signed : bool).

(** An input that starts with a digit is taken for a one-time password, and changes nothing. *)
Lemma second_step_digit e i input c : first_is_digit input = true ->
  exists r, second_step e i input c = (r, c) /\ forall b, r <> Ok (recovery_checked b).
Proof.
  intros Hd. unfold second_step. rewrite Hd. unfold mbind, M_bind, liftR, getS.
  destruct (stoi input); [|by eexists]. destruct (verify_otp _ _ _ _); by eexists.
Qed.

Lemma second_step_code e i input c u codes : first_is_digit input = false -> c_users c !! i = Some u ->
  erase_code (recovery_codes u) input = codes ->
  second_step e i input c = match codes with
    | Some codes => (Ok (recovery_checked true), mk_console (c_in c) (<[i := mk_User (user_password u) codes]> (c_users c)) (c_otps c) (c_files c))
    | None => (Ok (recovery_checked false), c)
    end.
Proof.
  intros Hd Hu He. unfold second_step. rewrite Hd. unfold mbind, M_bind, on_users, verify_recovery_code, mbind, M_bind, getS, modS.
  rewrite Hu, He. destruct codes; [done|]. by destruct c.
Qed.

End turns.

(** In the console program a recovery code that starts with a digit cannot be used: the input is
    taken for a one-time password, or ends the program when its digits do not fit an [int], and the
    code stays stored.  Any other recovery code is accepted, and if it was issued once, it is accepted
    once. *)
Theorem console_recovery_code (e e' : console_env) (c : console) (i code : string) (u : User) :
  c_users c !! i = Some u -> code ∈ recovery_codes u ->
  if first_is_digit code then exists r, second_step e i code c = (r, c) /\ forall b, r <> Ok (recovery_checked b)
  else exists c' a b, second_step e i code c = (Ok (recovery_checked true), c')
    /\ recovery_codes u = (a ++ code :: b)%list /\ c_users c' = <[i := mk_User (user_password u) (a ++ b)]> (c_users c)
    /\ (NoDup (recovery_codes u) -> second_step e' i code c' = (Ok (recovery_checked false), c')).
Proof.
  intros Hu Hin. destruct (first_is_digit code) eqn:Hd; [by apply second_step_digit|].
  destruct (erase_code_in _ _ Hin) as (a & b & Ec & Ha & Ee). eexists _, a, b.
  split; [by apply (second_step_code e i code c u _ Hd Hu Ee)|]. split; [done|]. split; [done|]. intros Hnd. rewrite Ec in Hnd.
  apply NoDup_app in Hnd as (_ & _ & [Hb _]%NoDup_cons).
  apply (second_step_code e' i code _ (mk_User (user_password u) (a ++ b)%list) None Hd); [by apply lookup_insert_eq|].
  apply erase_code_none. cbn [recovery_codes]. rewrite elem_of_app. tauto.
Qed.

Definition kim_console (codes : list string) : console := mk_console (mk_cin "" false) {["kim" := mk_User "pw" codes]} ∅ ∅.

Lemma console_recovery_code_witness :
  (exists r, second_step (mk_console_env 0 (fun _ => 0) (fun _ => 0) (fun _ => true)) "kim" "7abcdefghi" (kim_console ["7abcdefghi"; "Kbcdefghij"])
     = (r, kim_console ["7abcdefghi"; "Kbcdefghij"]))
  /\ exists c', second_step (mk_console_env 0 (fun _ => 0) (fun _ => 0) (fun _ => true)) "kim" "Kbcdefghij" (kim_console ["7abcdefghi"; "Kbcdefghij"])
     = (Ok (recovery_checked true), c').
Proof.
  split.
  - destruct (console_recovery_code (mk_console_env 0 (fun _ => 0) (fun _ => 0) (fun _ => true)) (mk_console_env 0 (fun _ => 0) (fun _ => 0) (fun _ => true))
      (kim_console ["7abcdefghi"; "Kbcdefghij"]) "kim" "7abcdefghi" (mk_User "pw" ["7abcdefghi"; "Kbcdefghij"]) eq_refl (list_elem_of_here _ _)) as (r & E & _).
    exists r. exact E.
  - destruct (console_recovery_code (mk_console_env 0 (fun _ => 0) (fun _ => 0) (fun _ => true)) (mk_console_env 0 (fun _ => 0) (fun _ => 0) (fun _ => true))
      (kim_console ["7abcdefghi"; "Kbcdefghij"]) "kim" "Kbcdefghij" (mk_User "pw" ["7abcdefghi"; "Kbcdefghij"]) eq_refl
      (list_elem_of_further _ _ _ (list_elem_of_here _ _))) as (c' & _ & _ & E & _).
    exists c'. exact E.
Defined.

(** ** The end of the program *)

(** A computation that reads the input, and never puts anything back. *)
Class Reads {A} (m : M console A) : Prop := reads c : (turns_left (c_in (snd (m c))) <= turns_left (c_in c))%nat.

Section reads.
Context (algos : gmap string Algo_info) (char_signed : bool).

#[local] Instance reads_ret {A} (a : A) : Reads (mret a).
Proof. by intros c. Qed.
#[local] Instance reads_lift {A} (r : res A) : Reads (liftR r).
Proof. by intros c. Qed.
#[local] Instance reads_get : Reads getS.
Proof. by intros c. Qed.
#[local] Instance reads_users {A} (m : M UserManager A) : Reads (on_users m).
Proof. intros c. unfold on_users. by destruct (m (c_users c)). Qed.
#[local] Instance reads_otps {A} (m : M (gmap string TOTP) A) : Reads (on_otps m).
Proof. intros c. unfold on_otps. by destruct (m (c_otps c)). Qed.
#[local] Instance reads_files {A} (m : M (gmap string string) A) : Reads (on_files m).
Proof. intros c. unfold on_files. by destruct (m (c_files c)). Qed.
#[local] Instance reads_word w : Reads (on_in (read_word w)).
Proof. intros c. unfold on_in. pose proof (read_word_left w (c_in c)) as H. by destruct (read_word w (c_in c)). Qed.
#[local] Instance reads_bind {A B} (m : M console A) (f : A -> M console B) : Reads m -> (forall a, Reads (f a)) -> Reads (m ≫= f).
Proof.
  intros Hm Hf c. unfold mbind, M_bind. pose proof (Hm c) as H1. destruct (m c) as [[a|e] c1]; [|done].
  pose proof (Hf a c1). cbn in H1. lia.
Qed.
#[local] Instance reads_if {A} (b : bool) (m1 m2 : M console A) : Reads m1 -> Reads m2 -> Reads (if b then m1 else m2).
Proof. by destruct b. Qed.

#[local] Instance reads_second e i input : Reads (second_step e i input).
Proof. unfold second_step. apply _. Qed.
#[local] Instance reads_sign_up e : Reads (sign_up_turn algos char_signed e).
Proof. unfold sign_up_turn. apply _. Qed.
#[local] Instance reads_log_in e : Reads (log_in_turn e).
Proof. unfold log_in_turn. apply _. Qed.

Lemma turn_left e c r c' : turn algos char_signed e c = (Ok r, c') -> (turns_left (c_in c') < turns_left (c_in c))%nat.
Proof.
  unfold turn. unfold mbind at 1, M_bind at 1, on_in at 1. destruct (read_int (c_in c)) as [[z|] i'] eqn:E; [|done].
  apply read_int_left in E. set (c1 := mk_console i' _ _ _).
  assert (HR : forall A (m : M console A) r, Reads m -> m c1 = (r, c') -> (turns_left (c_in c') < turns_left (c_in c))%nat).
  { intros A m r' Hm Em. pose proof (Hm c1) as Hl. rewrite Em in Hl. cbn in Hl. lia. }
  repeat match goal with |- context [match ?x with _ => _ end] => is_var x; destruct x end; apply HR; apply _.
Qed.

Lemma console_main_ends fuel : forall envs c, (turns_left (c_in c) <= fuel)%nat ->
  exists rs r c', console_main algos char_signed fuel envs c = (rs, Some r, c') /\ (r = Ok tt <-> last rs = Some exited).
Proof.
  induction fuel as [|fuel IH]; intros envs c Hf; [unfold turns_left in Hf; destruct (failed (c_in c)); lia|]. cbn [console_main].
  destruct (turn algos char_signed (envs 0%nat) c) as [[rep|e] c1] eqn:E; [|by eexists _, _, _].
  pose proof (turn_left _ _ _ _ E) as Hl. destruct (IH (fun k => envs (S k)) c1 ltac:(lia)) as (rs & r & c' & E1 & Hr).
  destruct rep; try (by eexists _, _, _); rewrite E1; eexists _, r, c'; (split; [done|]); rewrite last_cons, Hr;
    by destruct (last rs).
Qed.
End reads.

(** The console program ends on every input, after at most two turns more than the input has
    characters: with [return 0] exactly when option 3 was chosen last, and otherwise by an exception
    or by reading the uninitialized [choice], as at the end of the input. *)
Theorem console_ends (algos : gmap string Algo_info) (char_signed : bool) (envs : nat -> console_env) (input : string) :
  exists rs r c', console_main algos char_signed (2 + String.length input) envs (mk_console (mk_cin input false) ∅ ∅ ∅) = (rs, Some r, c')
  /\ (r = Ok tt <-> last rs = Some exited).
Proof. by apply console_main_ends. Qed.
