(* ===== verification/QrImage.v ===== *)
(** * The image of a QR code

    A reader of the images [QR_code::get_svg] makes: it collects the squares of the path, takes them as
    the dark modules of a symbol and reads the symbol.  The image made for a URI reads as the URI. *)

From S2P Require Import OtpUri Sha1 Otp OtpManager.
From S2P Require Import Prelude Str Decimal QrSegment QrCode QrSvg QrField QrDraw QrPlace QrBlocks QrRead QrText.
From Stdlib Require Import Ascii SpecFloat.
From Stdlib Require String.

Local Open Scope string_scope.
Local Open Scope Z_scope.

(** ** Reading an image *)

(** The text behind a literal. *)
Definition expect (l s : string) : option string := if prefixb l s then Some (str_drop (String.length l) s) else None.

Definition read_number (s : string) : Z * string :=
  let ds := take_digits s in (dec_value 0 ds, str_drop (String.length ds) s).

(** The squares [Mx,yh1v1h-1z] of a path up to the closing quote. *)
Fixpoint read_squares (fuel : nat) (s : string) : option (list (Z * Z)) :=
  match fuel with
  | O => None
  | S fuel =>
      if prefixb quote s then Some []
      else
        s ← expect "M" (if prefixb " " s then str_drop 1 s else s);
        let '(x, s) := read_number s in
        s ← expect "," s;
        let '(y, s) := read_number s in
        s ← expect "h1v1h-1z" s;
        squares ← read_squares fuel s;
        Some ((x, y) :: squares)
  end.

(** The grid around the squares: as wide as they reach. *)
Definition grid_of (squares : list (Z * Z)) : grid :=
  let x0 := foldr Z.min (default 0 (head squares.*1)) squares.*1 in
  let y0 := foldr Z.min (default 0 (head squares.*2)) squares.*2 in
  let sz := foldr Z.max 0 squares.*1 - x0 + 1 in
  map (fun y => map (fun x => existsb (fun '(a, b) => (a =? x0 + x) && (b =? y0 + y)) squares) (range 0 sz)) (range 0 sz).

Definition path_start : string := "<path d=" +:+ quote.

Definition read_svg (s : string) : option (list Z) :=
  pos ← find_sub path_start s;
  squares ← read_squares (S (String.length s)) (str_drop (pos + String.length path_start) s);
  read_text (grid_of squares).

(** ** Looking for a text *)

(** A text without the first character of the pattern is passed over. *)
Lemma find_sub_skip c l s t : has_char c s = false -> find_sub (String c l) (s +:+ t) = (fun k => String.length s + k)%nat <$> find_sub (String c l) t.
Proof.
  induction s as [|d s IH]; intros H; [cbn [String.append String.length]; by destruct (find_sub _ t)|]. rewrite has_char_cons in H.
  apply orb_false_iff in H as [Hd Hs]. rewrite append_cons. cbn [find_sub prefixb]. rewrite Hd. cbn [andb]. rewrite IH by done.
  by destruct (find_sub (String c l) t).
Qed.

Lemma prefixb_self l t : prefixb l (l +:+ t) = true.
Proof. induction l as [|c l IH]; [done|]. rewrite append_cons. cbn. by rewrite Ascii.eqb_refl. Qed.

Lemma find_sub_here l t : find_sub l (l +:+ t) = Some 0%nat.
Proof. pose proof (prefixb_self l t) as H. destruct (l +:+ t); cbn [find_sub]; by rewrite H. Qed.

Lemma replace_at s t what with_ : find_sub what (s +:+ what +:+ t) = Some (String.length s) -> replace (s +:+ what +:+ t) what with_ = s +:+ with_ +:+ t.
Proof. intros H. unfold replace. by rewrite H, str_take_app, str_drop_add, str_drop_app, str_drop_app. Qed.

Lemma digits_no_char c s : is_digit c = false -> all_chars is_digit s = true -> has_char c s = false.
Proof.
  intros Hc. induction s as [|d s IH]; [done|]. cbn [all_chars]. intros [Hd Hs]%andb_true_iff. rewrite has_char_cons, IH by done.
  destruct (Ascii.eqb_spec d c) as [->|]; [congruence|done].
Qed.

Lemma digit_char_digit d : 0 <= d < 10 -> is_digit (digit_char d) = true.
Proof. intros H. unfold is_digit. rewrite code_digit_char by done. lia. Qed.

Lemma fixed_digits_no_char c k : is_digit c = false -> forall n acc, has_char c acc = false -> has_char c (fixed_digits k n acc) = false.
Proof.
  intros Hc. induction k as [|k IH]; intros n acc Ha; [done|]. apply IH. rewrite has_char_cons, Ha, orb_false_r.
  pose proof (digit_char_digit (n mod 10) ltac:(apply Z.mod_pos_bound; lia)). destruct (Ascii.eqb_spec (digit_char (n mod 10)) c); congruence.
Qed.

Lemma round_half_even_nonneg a b : 0 <= a -> 0 < b -> 0 <= round_half_even a b.
Proof. intros Ha Hb. unfold round_half_even. pose proof (Z.div_pos a b Ha Hb). repeat case_match; lia. Qed.

(** The number of a double has no character but digits, sign, point and the letters of infinity and nan. *)
Lemma double_no_char c d : is_digit c = false -> has_char c "-.infa" = false -> has_char c (double_to_string d) = false.
Proof.
  intros Hd Hc. repeat rewrite has_char_cons in Hc. repeat (apply orb_false_iff in Hc as [? Hc]).
  assert (Hz : Ascii.eqb "0" c = false) by (destruct (Ascii.eqb_spec "0" c) as [<-|]; done).
  destruct d as [s|s| |s m e]; cbn [double_to_string].
  - rewrite has_char_app, orb_false_iff. split; [destruct s; [by rewrite has_char_cons, orb_false_iff|done]|]. rewrite !has_char_cons, Hz. by repeat (apply orb_false_iff; split).
  - rewrite has_char_app, orb_false_iff. split; [destruct s; [by rewrite has_char_cons, orb_false_iff|done]|]. rewrite !has_char_cons. by repeat (apply orb_false_iff; split).
  - rewrite !has_char_cons. by repeat (apply orb_false_iff; split).
  - set (n := round_half_even _ _). assert (Hn : 0 <= n).
    { apply round_half_even_nonneg; [|apply Z.pow_pos_nonneg; lia]. pose proof (Z.pow_nonneg 2 (Z.max e 0) ltac:(lia)). pose proof (Z.pow_nonneg 10 6 ltac:(lia)). nia. }
    rewrite !has_char_app, !orb_false_iff. split_and!.
    + destruct s; [|done]. by rewrite has_char_cons, orb_false_iff.
    + apply digits_no_char; [done|]. apply to_string_spec. by apply Z.div_pos.
    + by rewrite has_char_cons, orb_false_iff.
    + by apply fixed_digits_no_char.
Qed.

(** ** The decoration *)

(** A pattern is looked for behind [s]. *)
Definition skips (l s : string) : Prop := forall t, find_sub l (s +:+ t) = (fun k => String.length s + k)%nat <$> find_sub l t.

Lemma skips_app l s s' : skips l s -> skips l s' -> skips l (s +:+ s').
Proof.
  intros H H' t. rewrite append_assoc, H, H', append_length. destruct (find_sub l t); [|done]. cbn. f_equal. lia.
Qed.

Lemma skips_char c l s : has_char c s = false -> skips (String c l) s.
Proof. intros H t. by apply find_sub_skip. Qed.

Lemma replace_skips what s t with_ : skips what s -> replace (s +:+ what +:+ t) what with_ = s +:+ with_ +:+ t.
Proof. intros H. apply replace_at. rewrite H, find_sub_here. cbn. f_equal. lia. Qed.

Lemma replace_absent what s with_ : find_sub what s = None -> replace s what with_ = s.
Proof. intros H. unfold replace. by rewrite H. Qed.

(** The text of the default decoration between its patterns. *)
Definition svg_head : string := Eval vm_compute in default "" ((fun n => str_take n (svg default_decoration)) <$> find_sub "%viewbox%" (svg default_decoration)).
Definition svg_tail : string := Eval vm_compute in str_drop (String.length svg_head + 9) (svg default_decoration).
Definition svg_middle : string := Eval vm_compute in default "" ((fun n => str_take n svg_tail) <$> find_sub "%translate%" svg_tail).
Definition svg_tail' : string := Eval vm_compute in str_drop (String.length svg_middle + 11) svg_tail.
Definition svg_before : string := Eval vm_compute in default "" ((fun n => str_take n svg_tail') <$> find_sub "%qr_code%" svg_tail').
Definition svg_after : string := Eval vm_compute in str_drop (String.length svg_before + 9) svg_tail'.

Lemma svg_default : svg default_decoration
  = svg_head +:+ "%viewbox%" +:+ svg_middle +:+ "%translate%" +:+ svg_before +:+ "%qr_code%" +:+ svg_after.
Proof. by vm_compute. Qed.

Ltac skip_text := intros t; cbn -[Nat.add]; by destruct (find_sub _ t).

Lemma skip_viewbox : skips "%viewbox%" svg_head.
Proof. by apply skips_char. Qed.

Lemma skip_head l : skips (String "%" l) svg_head.
Proof. by apply skips_char. Qed.

Lemma skip_middle_scale : skips "%scale%" (svg_middle +:+ "%translate%" +:+ svg_before +:+ "%qr_code%" +:+ svg_after).
Proof. skip_text. Qed.

Lemma skip_middle_translate : skips "%translate%" svg_middle.
Proof. skip_text. Qed.

Lemma skip_middle_code : skips "%qr_code%" svg_middle.
Proof. skip_text. Qed.

Lemma skip_before l : skips (String "%" l) svg_before.
Proof. by apply skips_char. Qed.

Lemma skip_head_path : skips path_start svg_head.
Proof. skip_text. Qed.

Lemma skip_middle_path : skips path_start svg_middle.
Proof. skip_text. Qed.

Lemma skip_before_path : skips path_start svg_before.
Proof. skip_text. Qed.

(** ** The image *)

Definition number_text (c : ascii) : Prop := is_digit c = false /\ has_char c "-.infa" = false /\ Ascii.eqb " " c = false.

Definition pair_text (a b : spec_float) : string := double_to_string a +:+ " " +:+ double_to_string b.

Lemma pair_no_char c a b : number_text c -> has_char c (pair_text a b) = false.
Proof.
  intros (Hd & Hc & Hs). unfold pair_text. rewrite !has_char_app, !double_no_char, orb_false_l, orb_false_r by done. by rewrite has_char_cons, Hs.
Qed.

Lemma viewbox_no_char c a b : number_text c -> has_char c ("0 0 " +:+ pair_text a b) = false.
Proof.
  intros H. rewrite has_char_app, pair_no_char, orb_false_r by done. destruct H as (Hd & _ & Hs). rewrite !has_char_cons, Hs.
  destruct (Ascii.eqb_spec "0" c) as [<-|]; done.
Qed.

(** The replacements put the numbers and the path in the places of the decoration. *)
Lemma decorated (viewbox scale translate path : string) : has_char "%" viewbox = false -> has_char "%" translate = false ->
  replace (replace (replace (replace (svg default_decoration) "%viewbox%" viewbox) "%scale%" scale) "%translate%" translate) "%qr_code%" path
  = svg_head +:+ viewbox +:+ svg_middle +:+ translate +:+ svg_before +:+ path +:+ svg_after.
Proof.
  intros Hv Ht. rewrite svg_default, replace_skips by apply skip_head. rewrite (replace_absent "%scale%").
  2:{ rewrite (skip_head "scale%"), (skips_char "%" "scale%" viewbox Hv). rewrite <- (append_nil svg_after).
      rewrite <- !append_assoc, !append_assoc. pose proof (skip_middle_scale "") as E. rewrite !append_assoc in E. by rewrite E. }
  assert (E : forall u, svg_head +:+ viewbox +:+ svg_middle +:+ u = (svg_head +:+ viewbox +:+ svg_middle) +:+ u) by (intros; by rewrite !append_assoc).
  rewrite E, replace_skips by (repeat apply skips_app; [apply skip_head|by apply skips_char|apply skip_middle_translate]).
  set (h := svg_head +:+ viewbox +:+ svg_middle).
  assert (E' : forall u, h +:+ translate +:+ svg_before +:+ u = (h +:+ translate +:+ svg_before) +:+ u) by (intros; by rewrite !append_assoc).
  rewrite E', replace_skips.
  - unfold h. by rewrite !append_assoc.
  - repeat apply skips_app; [apply skip_head|by apply skips_char|apply skip_middle_code|by apply skips_char|apply skip_before].
Qed.

(** *** The path *)

Lemma take_digits_app ds s : all_chars is_digit ds = true -> match s with String c _ => is_digit c | EmptyString => false end = false ->
  take_digits (ds +:+ s) = ds.
Proof.
  intros Hd Hs. induction ds as [|c ds IH].
  - cbn [String.append]. destruct s as [|c s]; [done|]. cbn. by rewrite Hs.
  - cbn [all_chars] in Hd. apply andb_true_iff in Hd as [Hc Hd]. rewrite append_cons. cbn [take_digits]. by rewrite Hc, IH.
Qed.

Lemma read_number_ok n s : 0 <= n -> match s with String c _ => is_digit c | EmptyString => false end = false -> read_number (to_string n +:+ s) = (n, s).
Proof.
  intros Hn Hs. destruct (to_string_spec n Hn) as (Hv & Hd & _). unfold read_number. rewrite take_digits_app, Hv, str_drop_app by done. done.
Qed.

Definition square (p : Z * Z) : string := "M" +:+ to_string p.1 +:+ "," +:+ to_string p.2 +:+ "h1v1h-1z".

Lemma expect_ok l s : expect l (l +:+ s) = Some s.
Proof. unfold expect. by rewrite prefixb_self, str_drop_app. Qed.

Lemma read_square fuel (sp : bool) p s : 0 <= p.1 -> 0 <= p.2 ->
  read_squares (S fuel) ((if sp then " " else "") +:+ square p +:+ s) = (fun l => p :: l) <$> read_squares fuel s.
Proof.
  intros Hx Hy. unfold square. rewrite !append_assoc. cbn [read_squares].
  assert (Hq : prefixb quote ((if sp then " " else "") +:+ "M" +:+ to_string p.1 +:+ "," +:+ to_string p.2 +:+ "h1v1h-1z" +:+ s) = false) by (by destruct sp).
  rewrite Hq. assert (Hs : forall u, (if prefixb " " ((if sp then " " else "") +:+ "M" +:+ u) then str_drop 1 ((if sp then " " else "") +:+ "M" +:+ u)
    else (if sp then " " else "") +:+ "M" +:+ u) = "M" +:+ u) by (by destruct sp).
  rewrite Hs, expect_ok. cbn [mbind option_bind]. rewrite read_number_ok by done. rewrite expect_ok. cbn [mbind option_bind].
  rewrite read_number_ok by done. rewrite expect_ok. cbn [mbind option_bind]. destruct p. by destruct (read_squares fuel s).
Qed.

(** A list of squares, each behind a space or not. *)
Definition squares_text (l : list (bool * (Z * Z))) : string := foldr (fun '(sp, p) s => (if (sp : bool) then " " else "") +:+ square p +:+ s) "" l.

Lemma read_squares_ok l : Forall (fun p => 0 <= p.2.1 /\ 0 <= p.2.2) l -> forall fuel s, (length l < fuel)%nat ->
  read_squares fuel (squares_text l +:+ quote +:+ s) = Some l.*2.
Proof.
  induction 1 as [|[sp p] l [Hx Hy] _ IH]; intros fuel s Hf; (destruct fuel as [|fuel]; [lia|]); [done|].
  unfold squares_text. cbn [foldr]. fold (squares_text l). cbn [snd] in Hx, Hy. rewrite !append_assoc, read_square by done. cbn [length] in Hf.
  by rewrite IH by lia.
Qed.

Lemma squares_text_length l : (length l <= String.length (squares_text l))%nat.
Proof. induction l as [|[sp p] l IH]; [done|]. unfold squares_text in *. cbn [foldr length]. unfold square at 1. rewrite !append_length. cbn [String.length]. lia. Qed.

(** The dark modules in the order of the image, and the squares they become. *)
Definition dark_modules (q : QrCode) : list (Z * Z) := List.filter (fun '(x, y) => cell (modules q) x y) (raster (size q)).

Definition squares_of (q : QrCode) (border : Z) : list (bool * (Z * Z)) :=
  map (fun '(x, y) => (negb ((x =? 0) && (y =? 0)), (x + border, y + border))) (dark_modules q).

Lemma squares_text_app l l' : squares_text (l ++ l') = squares_text l +:+ squares_text l'.
Proof.
  unfold squares_text. induction l as [|[sp p] l IH]; [done|]. cbn [app foldr]. rewrite IH. by rewrite !append_assoc.
Qed.

Definition square_of (q : QrCode) (border x y : Z) : list (bool * (Z * Z)) :=
  map (fun '(x, y) => (negb ((x =? 0) && (y =? 0)), (x + border, y + border))) (List.filter (fun '(x, y) => cell (modules q) x y) [(x, y)]).

Lemma module_text q border x y : (if cell (modules q) x y then module_path border x y else "") = squares_text (square_of q border x y).
Proof.
  unfold square_of, module_path, square. cbn [List.filter]. destruct (cell (modules q) x y); [|done]. cbn [map squares_text foldr].
  unfold square. cbn [fst snd]. rewrite append_nil. by destruct ((x =? 0) && (y =? 0)).
Qed.

Lemma filter_concat {A} (f : A -> bool) (ls : list (list A)) : List.filter f (concat ls) = concat (map (List.filter f) ls).
Proof. induction ls as [|l ls IH]; [done|]. cbn [concat map]. by rewrite List.filter_app, IH. Qed.

(** The text of the rows is the text of the squares. *)
Lemma path_rows q border : shape (size q) (modules q) -> 
  exists rows, mapM (path_row q border) (range 0 (size q)) = Ok rows /\ foldr String.append "" rows = squares_text (squares_of q border).
Proof.
  intros Hs. set (line := fun y => squares_text (concat (map (fun x => square_of q border x y) (range 0 (size q))))).
  assert (Htext : forall (f : Z -> list (bool * (Z * Z))) l, foldr String.append "" (map (fun a => squares_text (f a)) l) = squares_text (concat (map f l))).
  { intros f l. induction l as [|a l IH]; [done|]. cbn [map foldr concat]. by rewrite IH, squares_text_app. }
  exists (map line (range 0 (size q))). split.
  - apply mapM_ok. intros y Hy%elem_of_range. unfold path_row.
    rewrite (mapM_ok _ (fun x => squares_text (square_of q border x y))); [cbn; f_equal; apply Htext|].
    intros x Hx%elem_of_range. unfold getModule. replace ((0 <=? x) && (x <? size q) && (0 <=? y) && (y <? size q)) with true by lia.
    rewrite (grid_at_ok (size q)) by (done || (unfold in_grid; lia)). cbn [mbind res_bind]. by rewrite module_text.
  - unfold line. rewrite Htext. f_equal. unfold squares_of, dark_modules, raster. rewrite filter_concat, concat_map, !map_map. f_equal. apply map_ext. intros y.
    induction (range 0 (size q)) as [|x l IH]; [done|]. cbn [map concat]. rewrite IH. unfold square_of. cbn [List.filter].
    by destruct (cell (modules q) x y).
Qed.

(** *** The grid *)

Lemma foldr_min d l b : d >= b -> Forall (fun x => b <= x) l -> b ∈ l -> foldr Z.min d l = b.
Proof.
  intros Hd. assert (Hge : forall l, Forall (fun x => b <= x) l -> b <= foldr Z.min d l) by (induction 1; cbn; lia).
  induction 1 as [|x l Hx Hl IH]; [by intros ?%elem_of_nil|]. intros [<-|Hin]%elem_of_cons; cbn; [specialize (Hge l Hl); lia|]. rewrite IH by done. lia.
Qed.

Lemma foldr_max d l b : d <= b -> Forall (fun x => x <= b) l -> b ∈ l -> foldr Z.max d l = b.
Proof.
  intros Hd. assert (Hle : forall l, Forall (fun x => x <= b) l -> foldr Z.max d l <= b) by (induction 1; cbn; lia).
  induction 1 as [|x l Hx Hl IH]; [by intros ?%elem_of_nil|]. intros [<-|Hin]%elem_of_cons; cbn; [specialize (Hle l Hl); lia|]. rewrite IH by done. lia.
Qed.

Definition tabulate (sz : Z) (f : Z -> Z -> bool) : grid := map (fun y => map (fun x => f x y) (range 0 sz)) (range 0 sz).

Lemma tabulate_shape sz f : 0 <= sz -> shape sz (tabulate sz f).
Proof.
  intros Hz. pose proof (range_length 0 sz Hz) as Hl. split; [unfold tabulate; rewrite length_map; lia|]. apply Forall_fmap, Forall_true.
  intros y. cbn. rewrite length_map. lia.
Qed.

Lemma tabulate_cell sz f x y : in_grid sz x y -> cell (tabulate sz f) x y = f x y.
Proof.
  intros [Hx Hy]. unfold cell, tabulate. rewrite lookup_map, range_lookup by lia. cbn [fmap option_fmap option_map mbind option_bind].
  rewrite lookup_map, range_lookup by lia. cbn [fmap option_fmap option_map default from_option]. by rewrite !Z.add_0_l, !Z2Nat.id by lia.
Qed.

Lemma elem_of_dark q x y : (x, y) ∈ dark_modules q <-> in_grid (size q) x y /\ cell (modules q) x y = true.
Proof. unfold dark_modules. rewrite list_elem_of_In, filter_In, <- list_elem_of_In. by rewrite elem_of_raster. Qed.

(** A code with three dark corners, as the finder patterns make them, is the grid of its squares. *)
Lemma grid_of_squares q border : 0 <= border -> shape (size q) (modules q) -> 0 < size q -> cell (modules q) 0 0 = true ->
  cell (modules q) (size q - 1) 0 = true -> grid_of (squares_of q border).*2 = modules q.
Proof.
  intros Hb Hs Hz H00 H10. set (S := (squares_of q border).*2).
  assert (HS : forall a b, (a, b) ∈ S <-> (a - border, b - border) ∈ dark_modules q).
  { intros a b. unfold S, squares_of. rewrite !list_elem_of_fmap. split.
    - intros ([sp [a' b']] & [= -> ->] & ([x y] & [= -> -> ->] & Hin)%list_elem_of_fmap). by replace (x + border - border, y + border - border) with (x, y) by (f_equal; lia).
    - intros Hin. exists (negb ((a - border =? 0) && (b - border =? 0)), (a, b)). split; [done|]. apply list_elem_of_fmap. exists (a - border, b - border).
      split; [|done]. do 3 f_equal; lia. }
  assert (Hrange : forall a b, (a, b) ∈ S -> border <= a <= border + size q - 1 /\ border <= b).
  { intros a b [[Hx Hy] _]%HS%elem_of_dark. lia. }
  assert (Hmem : forall x y, in_grid (size q) x y -> cell (modules q) x y = true -> (x + border, y + border) ∈ S).
  { intros x y Hp Hc. apply HS, elem_of_dark. by replace (x + border - border) with x by lia; replace (y + border - border) with y by lia. }
  pose proof (Hmem 0 0 ltac:(unfold in_grid; lia) H00) as M00. pose proof (Hmem (size q - 1) 0 ltac:(unfold in_grid; lia) H10) as M10.
  assert (F1 : forall P, (forall a b, (a, b) ∈ S -> P a) -> Forall P S.*1) by (intros P H; apply Forall_fmap, Forall_forall; intros [a b]; apply H).
  assert (F2 : forall P, (forall a b, (a, b) ∈ S -> P b) -> Forall P S.*2) by (intros P H; apply Forall_fmap, Forall_forall; intros [a b]; apply H).
  assert (E1 : forall d, d >= border -> foldr Z.min d S.*1 = border).
  { intros d Hd. apply foldr_min; [done|apply F1; intros a b Hab; by apply Hrange in Hab as [? _]; lia|]. apply list_elem_of_fmap. by exists (0 + border, 0 + border). }
  assert (E2 : forall d, d >= border -> foldr Z.min d S.*2 = border).
  { intros d Hd. apply foldr_min; [done|apply F2; intros a b Hab; by apply Hrange in Hab as [_ ?]|]. apply list_elem_of_fmap. by exists (0 + border, 0 + border). }
  assert (E3 : foldr Z.max 0 S.*1 = size q - 1 + border).
  { apply foldr_max; [lia|apply F1; intros a b Hab; apply Hrange in Hab as [? _]; lia|]. apply list_elem_of_fmap. by exists (size q - 1 + border, 0 + border). }
  assert (Hh : forall P, (forall a b, (a, b) ∈ S -> P a b) -> exists a b, head S.*1 = Some a /\ head S.*2 = Some b /\ P a b).
  { intros P H. destruct S as [|[a b] S']; [by apply elem_of_nil in M00|]. exists a, b. split; [done|]. split; [done|]. apply H. by left. }
  destruct (Hh (fun a b => border <= a /\ border <= b)) as (a & b & Ha & Hb' & Hab); [intros a b Hab%Hrange; lia|]. unfold grid_of. rewrite Ha, Hb'. cbn [default from_option id]. rewrite E1, E2, E3 by lia.
  replace (size q - 1 + border - border + 1) with (size q) by lia. apply (grid_ext (size q)); [by apply tabulate_shape; lia|done|].
  intros x y Hp. rewrite (tabulate_cell (size q) (fun x y => existsb (fun '(a, b) => (a =? border + x) && (b =? border + y)) S)) by done.
  apply eq_iff_eq_true. rewrite existsb_exists. split.
  - intros ([u v] & Hin%list_elem_of_In & [->%Z.eqb_eq ->%Z.eqb_eq]%andb_true_iff). apply HS, elem_of_dark in Hin as [_ Hc].
    by replace (border + x - border) with x in Hc by lia; replace (border + y - border) with y in Hc by lia.
  - intros Hc. exists (x + border, y + border). split; [by apply list_elem_of_In, Hmem|]. apply andb_true_iff. split; apply Z.eqb_eq; lia.
Qed.

(** ** The image of a URI *)

Lemma corners ver : 1 <= ver < 41 ->
  forallb (fun '(x, y) => function_module ver x y && negb (format_module ver x y) && function_color ver x y) [(0, 0); (ver * 4 + 16, 0)] = true.
Proof.
  apply (forallb_range (fun ver => forallb (fun '(x, y) => function_module ver x y && negb (format_module ver x y) && function_color ver x y)
    [(0, 0); (ver * 4 + 16, 0)])). by vm_compute.
Qed.

Lemma symbol_corners ver ecl cw q : 1 <= ver <= 40 -> symbol ver ecl cw q -> cell (modules q) 0 0 = true /\ cell (modules q) (size q - 1) 0 = true.
Proof.
  intros Hv Hsym. pose proof (s_size _ _ _ _ Hsym) as Hs. pose proof (proj1 (forallb_forall _ _) (corners ver ltac:(lia))) as H.
  pose proof (H (0, 0) (or_introl eq_refl)) as H1. pose proof (H (ver * 4 + 16, 0) (or_intror (or_introl eq_refl))) as H2.
  assert (G : forall x y, in_grid (ver * 4 + 17) x y -> function_module ver x y && negb (format_module ver x y) && function_color ver x y = true -> cell (modules q) x y = true).
  { intros x y Hp [[Hf Hn%negb_true_iff]%andb_true_iff Hc]%andb_true_iff. rewrite (s_function _ _ _ _ Hsym) by (by rewrite ?Hs).
    rewrite Hs, pattern_cells_color by (done || lia). pose proof (format_cells_area ver (format_bits ecl (mask q)) x y ltac:(lia)) as Ha.
    unfold is_assigned in Ha. destruct (assigned (format_cells _ _) x y); [by rewrite Ha in Hn|done]. }
  rewrite Hs. replace (ver * 4 + 17 - 1) with (ver * 4 + 16) by lia. split; apply G; [|exact H1| |exact H2]; unfold in_grid; lia.
Qed.

Lemma read_svg_ok ver ecl cw q content : 1 <= ver <= 40 -> symbol ver ecl cw q ->
  exists s, get_svg (mk_QR_code content (Some q) MEDIUM 4 default_decoration) = Ok s /\ read_svg s = read_text (modules q).
Proof.
  intros Hv Hsym. destruct (path_rows q 4 (s_modules _ _ _ _ Hsym)) as (rows & Er & Et). unfold get_svg. cbn [m_qr m_border m_decoration].
  unfold path_text. rewrite Er. cbn [mbind res_bind]. rewrite Et. set (l := squares_of q 4).
  set (scale := double_div _ _). fold (pair_text (double_mul (width default_decoration) scale) (double_mul (height default_decoration) scale)).
  fold (pair_text (double_mul (deco_x default_decoration) scale) (double_mul (deco_y default_decoration) scale)).
  assert (Hpct : number_text "%") by done. assert (Hlt : number_text "<") by done.
  eexists. split; [done|]. rewrite decorated by (by apply viewbox_no_char || by apply pair_no_char).
  set (vb := "0 0 " +:+ pair_text _ _). set (tr := pair_text (double_mul (deco_x _) _) _). set (tail := " fill=" +:+ quoted "#000000" +:+ "/>").
  assert (Hvb : skips path_start vb) by (apply skips_char; by apply viewbox_no_char).
  assert (Htr : skips path_start tr) by (apply skips_char; by apply pair_no_char). clearbody vb tr.
  set (pre := svg_head +:+ vb +:+ svg_middle +:+ tr +:+ svg_before +:+ tab).
  assert (E : forall u, svg_head +:+ vb +:+ svg_middle +:+ tr +:+ svg_before +:+ (tab +:+ "<path d=" +:+ quote +:+ u) = pre +:+ path_start +:+ u).
  { intros u. unfold pre, path_start. by rewrite !append_assoc. }
  assert (Hskip : skips path_start pre).
  { unfold pre. do 5 (apply skips_app; [first [apply skip_head_path|apply skip_middle_path|apply skip_before_path|done]|]). by apply skips_char. }
  rewrite !append_assoc. rewrite E. unfold read_svg. clearbody pre.
  rewrite Hskip, find_sub_here. cbn [fmap option_fmap option_map mbind option_bind]. rewrite Nat.add_0_r, str_drop_add, !str_drop_app.
  pose proof (s_size _ _ _ _ Hsym) as Hs. destruct (symbol_corners ver ecl cw q Hv Hsym) as [H00 H10].
  rewrite read_squares_ok.
  - cbn [mbind option_bind]. unfold l. by rewrite grid_of_squares by (done || lia || apply (s_modules _ _ _ _ Hsym)).
  - apply Forall_fmap, Forall_forall. intros [x y] [[Hx Hy] _]%elem_of_dark. cbn. lia.
  - rewrite !append_length. pose proof (squares_text_length l). lia.
Qed.

Lemma c_str_length s : (String.length (c_str s) <= String.length s)%nat.
Proof. induction s as [|c s IH]; [done|]. cbn. destruct (code c =? 0); cbn; lia. Qed.

Lemma generate_svg_ok (uri : string) : Z.of_nat (String.length uri) <= INT_MAX ->
  match generate_qr_code_svg uri with
  | Ok s => read_svg s = Some (bytes_of (c_str uri))
  | Throw e => (exists msg, e = length_error msg) /\ 1273 < Z.of_nat (String.length uri)
  end.
Proof.
  intros Hl. pose proof (c_str_length uri) as Hc. unfold generate_qr_code_svg, set_content. cbn [m_content m_error_correction_level new_QR_code].
  destruct (encodeText_ok (c_str uri) MEDIUM ltac:(lia)) as (segs & E & Hs & [(q & dat & Eq & Hv & Hh)|(msg & Em & Hn)]).
  - rewrite Eq. cbn [m_border m_decoration m_error_correction_level m_qr m_content new_QR_code]. destruct (h_symbol _ _ _ _ _ _ Hh) as [cw Hsym]. pose proof (h_version _ _ _ _ _ _ Hh).
    destruct (read_svg_ok (version q) _ cw q uri ltac:(lia) Hsym) as (s & -> & ->). apply (read_text_ok (c_str uri) MEDIUM q dat segs); [lia|done|done].
  - rewrite Em. split; [eauto|]. destruct (Z.leb_spec (Z.of_nat (String.length (c_str uri))) 1273) as [Hle|]; [|lia].
    exfalso. apply (Hn 40); [lia|]. by apply (short_fits (c_str uri)).
Qed.

(** C7: the image [generate_qr_code_svg] makes for a URI, when its squares are taken as the dark modules of a
    QR symbol and the symbol is read as the standard prescribes, gives the bytes of the URI up to a
    zero byte; a URI of at most 1273 bytes always has an image, and a longer one may only throw
    [std::length_error]. *)
Theorem qr_image_roundtrip (uri : string) : Z.of_nat (String.length uri) <= INT_MAX ->
  match generate_qr_code_svg uri with
  | Ok s => read_svg s = Some (bytes_of (c_str uri))
  | Throw e => (exists msg, e = length_error msg) /\ 1273 < Z.of_nat (String.length uri)
  end.
Proof. apply generate_svg_ok. Qed.

Lemma qr_image_roundtrip_witness : exists s, generate_qr_code_svg "otpauth://totp/a?secret=GEZDGNBV" = Ok s
  /\ read_svg s = Some (bytes_of "otpauth://totp/a?secret=GEZDGNBV").
Proof.
  pose proof (qr_image_roundtrip "otpauth://totp/a?secret=GEZDGNBV" ltac:(vm_compute; discriminate)) as H.
  destruct (generate_qr_code_svg "otpauth://totp/a?secret=GEZDGNBV") as [s|e]; [by exists s|].
  exfalso. destruct H as [_ H]. cbn in H. lia.
Defined.

(** ** The image of a registration *)

Lemma urlencode_length sg s : (String.length (urlencode sg s) <= 3 * String.length s)%nat.
Proof.
  induction s as [|c s IH]; [done|]. cbn [urlencode]. rewrite append_length. unfold urlencode_char. destruct (_ || _); cbn [String.length]; lia.
Qed.

Abbreviation no_zero := (all_chars (fun c => negb (code c =? 0))).

Lemma hex_digit_no_zero d : 0 <= d < 16 -> (code (hex_digit d) =? 0) = false.
Proof. intros Hd. apply negb_true_iff. by apply (forall_below 16 (fun d => negb (code (hex_digit d) =? 0))). Qed.

Lemma urlencode_no_zero sg s : no_zero (urlencode sg s) = true.
Proof.
  induction s as [|c s IH]; [done|]. cbn [urlencode]. rewrite all_chars_app, IH, andb_true_r. unfold urlencode_char.
  destruct (_ || _) eqn:E; cbn [all_chars].
  - change 0xff with (Z.ones 8). rewrite Z.land_ones by lia. change (2 ^ 8) with 256. pose proof (Z.mod_pos_bound (code c) 256 ltac:(lia)).
    rewrite !hex_digit_no_zero; [done|apply Z.mod_pos_bound; lia|]. split; [apply Z.div_pos; lia|apply Z.div_lt_upper_bound; lia].
  - apply orb_false_iff in E as [E _]. unfold char_value in E. rewrite andb_true_r. apply negb_true_iff. destruct (sg && (128 <=? code c)); lia.
Qed.

Lemma digits_no_zero s : all_chars is_digit s = true -> no_zero s = true.
Proof.
  induction s as [|c s IH]; [done|]. cbn [all_chars]. intros [Hc Hs]%andb_true_iff. rewrite IH by done. unfold is_digit in Hc. lia.
Qed.

(** The URI of a registration: no zero byte, and at most three bytes for each of the id. *)
Lemma registration_text HMAC sg rands i m uri m' : generate_otp_uri (otp_algorithm_map HMAC) sg rands i m = (Ok uri, m') ->
  no_zero uri = true /\ (String.length uri <= 160 + 3 * String.length i)%nat.
Proof.
  intros Hg. destruct (generate_otp_uri_spec _ _ _ _ _ _ _ Hg) as (t & Ht & Hu & _). destruct (TOTP_named_label _ _ i _ Ht) as (a & Ha & Hl).
  rewrite (registered_uri _ _ _ _ _ _ Ha Hl) in Hu. injection Hu as <-. rewrite algo_sha1 in Ha. injection Ha as <-. cbn [Otp.name].
  unfold get_uri. cbn [OtpUri.m_issuer OtpUri.m_account m_type m_secret m_algorithm OtpUri.m_digits m_period]. destruct (_ || _); [split; [done|cbn; lia]|].
  change (String.eqb "totp" "hotp") with false. change (String.eqb "totp" "totp") with true. cbn match.
  set (secret := random_base32 16 rands). assert (Hsec : String.length secret = 16%nat) by (unfold secret; by vm_compute).
  pose proof (urlencode_length sg secret). pose proof (urlencode_length sg i).
  assert (Hsha : (String.length (urlencode sg "SHA1") = 4)%nat) by (by destruct sg).
  assert (Hiss : (String.length (urlencode sg "OTP Console Program") = 23)%nat) by (by destruct sg).
  split.
  - rewrite !all_chars_app, !urlencode_no_zero. done.
  - rewrite !append_length, Hiss, Hsha. cbn [String.length] in *. change (String.length (to_string 6)) with 1%nat. change (String.length (to_string 30)) with 2%nat. lia.
Qed.

(** The image of a registration's URI reads as the URI. *)
Lemma registration_image HMAC sg rands i m uri m' : generate_otp_uri (otp_algorithm_map HMAC) sg rands i m = (Ok uri, m') ->
  (String.length i <= 370)%nat -> exists s, generate_qr_code_svg uri = Ok s /\ read_svg s = Some (bytes_of uri).
Proof.
  intros Hg Hi. destruct (registration_text _ _ _ _ _ _ _ Hg) as [Hz Hl]. pose proof (generate_svg_ok uri ltac:(unfold INT_MAX; lia)) as H.
  destruct (generate_qr_code_svg uri) as [s|e]; [|destruct H as [_ H]; lia]. exists s. split; [done|]. by rewrite c_str_id in H.
Qed.

Lemma urlencode_longer sg s : (String.length s <= String.length (urlencode sg s))%nat.
Proof.
  induction s as [|c s IH]; [done|]. cbn [urlencode]. rewrite append_length. unfold urlencode_char. destruct (_ || _); cbn [String.length]; lia.
Qed.

(** The URI of a long id has no image. *)
Lemma registration_too_long HMAC sg rands i m uri m' : generate_otp_uri (otp_algorithm_map HMAC) sg rands i m = (Ok uri, m') ->
  2331 < Z.of_nat (String.length i) <= 2 ^ 29 -> exists msg, generate_qr_code_svg uri = Throw (length_error msg).
Proof.
  intros Hg Hi. destruct (registration_text _ _ _ _ _ _ _ Hg) as [Hz Hl].
  destruct (generate_otp_uri_spec _ _ _ _ _ _ _ Hg) as (t & Ht & Hu & _). destruct (TOTP_named_label _ _ i _ Ht) as (a & Ha & Hlab).
  rewrite (registered_uri _ _ _ _ _ _ Ha Hlab) in Hu. injection Hu as Hu. unfold get_uri in Hu.
  cbn [OtpUri.m_issuer OtpUri.m_account m_type m_secret m_algorithm OtpUri.m_digits m_period str_empty orb] in Hu.
  destruct (str_empty i) eqn:Ei; [destruct i; [cbn in Hi; lia|done]|]. cbn [orb] in Hu. pose proof (urlencode_longer sg i) as Hlong.
  assert (Hlen : (String.length i <= String.length uri)%nat) by (rewrite <- Hu, !append_length; lia).
  assert (Hhead : exists rest, uri = String "o" rest) by (rewrite <- Hu; by eexists). destruct Hhead as [rest Er].
  destruct (encodeText_long uri) as [msg Em]; [by rewrite Er|by rewrite Er|unfold INT_MAX; lia|]. exists msg.
  unfold generate_qr_code_svg, set_content. cbn [m_content m_error_correction_level new_QR_code]. rewrite c_str_id by done. by rewrite Em.
Qed.
