(* ===== verification/QrDemo.v ===== *)
(** * QR-Code-generator/QrCodeGeneratorDemo.cpp: the demonstration program

    The whole program: the symbols it makes, from texts and from segments put together by hand, the image
    of the first, and what it prints.  A reader of printed symbols shows that each of them holds the text
    it was made from. *)

From S2P Require Import OtpUri Sha1 Otp OtpManager.
From S2P Require Import Prelude Str Decimal QrSegment QrCode QrSvg QrField QrDraw QrPlace QrBlocks QrRead QrText QrImage.
From Stdlib Require Import Ascii SpecFloat.
From Stdlib Require String.

Local Open Scope string_scope.
Local Open Scope Z_scope.

(** ** The texts *)

Definition hello : string := "Hello, world!".
Definition pi_digits : string := "314159265358979323846264338327950288419716939937510".
Definition dollar : string := "DOLLAR-AMOUNT:$39.87 PERCENTAGE:100.00% OPERATIONS:+-*/".
Definition unicode : string := string_of
  [ 0xE3; 0x81; 0x93; 0xE3; 0x82; 0x93; 0xE3; 0x81; 0xAB; 0xE3; 0x81; 0xA1; 0x77; 0x61; 0xE3; 0x80; 0x81; 0xE4; 0xB8; 0x96; 0xE7; 0x95; 0x8C; 0xEF;
    0xBC; 0x81; 0x20; 0xCE; 0xB1; 0xCE; 0xB2; 0xCE; 0xB3; 0xCE; 0xB4 ].
Definition alice : string :=
  "Alice was beginning to get very tired of sitting by her sister on the bank, and of having nothing to do: once " +:+
  "or twice she had peeped into the book her sister was reading, but it had no pictures or conversations in it, '" +:+
  "and what is the use of a book,' thought Alice 'without pictures or conversations?' So she was considering in h" +:+
  "er own mind (as well as she could, for the hot day made her feel very sleepy and stupid), whether the pleasure" +:+
  " of making a daisy-chain would be worth the trouble of getting up and picking the daisies, when suddenly a Whi" +:+
  "te Rabbit with pink eyes ran close by her.".
Definition silver0 : string := "THE SQUARE ROOT OF 2 IS 1.".
Definition silver1 : string := "41421356237309504880168872420969807856967187537694807317667973799".
Definition golden0 : string := string_of
  [ 0x47; 0x6F; 0x6C; 0x64; 0x65; 0x6E; 0x20; 0x72; 0x61; 0x74; 0x69; 0x6F; 0x20; 0xCF; 0x86; 0x20; 0x3D; 0x20; 0x31; 0x2E ].
Definition golden1 : string := "6180339887498948482045868343656381177203091798057628621354486227052604628189024497072072041893911374".
Definition golden2 : string := "......".
Definition madoka : string := string_of
  [ 0xE3; 0x80; 0x8C; 0xE9; 0xAD; 0x94; 0xE6; 0xB3; 0x95; 0xE5; 0xB0; 0x91; 0xE5; 0xA5; 0xB3; 0xE3; 0x81; 0xBE; 0xE3; 0x81; 0xA9; 0xE3; 0x81; 0x8B;
    0xE2; 0x98; 0x86; 0xE3; 0x83; 0x9E; 0xE3; 0x82; 0xAE; 0xE3; 0x82; 0xAB; 0xE3; 0x80; 0x8D; 0xE3; 0x81; 0xA3; 0xE3; 0x81; 0xA6; 0xE3; 0x80; 0x81;
    0xE3; 0x80; 0x80; 0xD0; 0x98; 0xD0; 0x90; 0xD0; 0x98; 0xE3; 0x80; 0x80; 0xEF; 0xBD; 0x84; 0xEF; 0xBD; 0x85; 0xEF; 0xBD; 0x93; 0xEF; 0xBD; 0x95;
    0xE3; 0x80; 0x80; 0xCE; 0xBA; 0xCE; 0xB1; 0xEF; 0xBC; 0x9F ].
Definition kanjiChars : list Z :=
  [ 0x0035; 0x1002; 0x0FC0; 0x0AED; 0x0AD7; 0x015C; 0x0147; 0x0129; 0x0059; 0x01BD;
    0x018D; 0x018A; 0x0036; 0x0141; 0x0144; 0x0001; 0x0000; 0x0249; 0x0240; 0x0249;
    0x0000; 0x0104; 0x0105; 0x0113; 0x0115; 0x0000; 0x0208; 0x01FF; 0x0008 ].
Definition nayuki : string := "https://www.nayuki.io/".
Definition chinese : string := string_of
  [ 0xE7; 0xB6; 0xAD; 0xE5; 0x9F; 0xBA; 0xE7; 0x99; 0xBE; 0xE7; 0xA7; 0x91; 0xEF; 0xBC; 0x88; 0x57; 0x69; 0x6B; 0x69; 0x70; 0x65; 0x64; 0x69; 0x61;
    0xEF; 0xBC; 0x8C; 0xE8; 0x81; 0x86; 0xE8; 0x81; 0xBD; 0x69; 0x2F; 0xCB; 0x8C; 0x77; 0xC9; 0xAA; 0x6B; 0xE1; 0xB5; 0xBB; 0xCB; 0x88; 0x70; 0x69;
    0xCB; 0x90; 0x64; 0x69; 0x2E; 0xC9; 0x99; 0x2F; 0xEF; 0xBC; 0x89; 0xE6; 0x98; 0xAF; 0xE4; 0xB8; 0x80; 0xE5; 0x80; 0x8B; 0xE8; 0x87; 0xAA; 0xE7;
    0x94; 0xB1; 0xE5; 0x85; 0xA7; 0xE5; 0xAE; 0xB9; 0xE3; 0x80; 0x81; 0xE5; 0x85; 0xAC; 0xE9; 0x96; 0x8B; 0xE7; 0xB7; 0xA8; 0xE8; 0xBC; 0xAF; 0xE4;
    0xB8; 0x94; 0xE5; 0xA4; 0x9A; 0xE8; 0xAA; 0x9E; 0xE8; 0xA8; 0x80; 0xE7; 0x9A; 0x84; 0xE7; 0xB6; 0xB2; 0xE8; 0xB7; 0xAF; 0xE7; 0x99; 0xBE; 0xE7;
    0xA7; 0x91; 0xE5; 0x85; 0xA8; 0xE6; 0x9B; 0xB8; 0xE5; 0x8D; 0x94; 0xE4; 0xBD; 0x9C; 0xE8; 0xA8; 0x88; 0xE7; 0x95; 0xAB ].

(** ** Utilities *)

(** What is written for the modules of one row, and for a symbol; [std::endl] is a newline. *)
Definition print_row (qr : QrCode) (y : Z) : res string :=
  foldr String.append newline <$>
  mapM (fun x => m ← getModule qr x y; Ok (if (m : bool) then "##" else "  ")) (range (-4) (size qr + 4)).

Definition print_text (qr : QrCode) : res string :=
  foldr String.append newline <$> mapM (print_row qr) (range (-4) (size qr + 4)).

(** The program writes to standard output: the state is what it has written. *)
Definition write (s : string) : M string unit := modS (fun out => out +:+ s).

Definition printQr (qr : QrCode) : M string unit := s ← liftR (print_text qr); write s.

(** The image up to the sizes, from there to the path, and behind it. *)
Definition svg_open : string :=
  "<?xml version=" +:+ quoted "1.0" +:+ " encoding=" +:+ quoted "UTF-8" +:+ "?>" +:+ newline
  +:+ "<!DOCTYPE svg PUBLIC " +:+ quoted "-//W3C//DTD SVG 1.1//EN" +:+ " "
  +:+ quoted "http://www.w3.org/Graphics/SVG/1.1/DTD/svg11.dtd" +:+ ">" +:+ newline
  +:+ "<svg xmlns=" +:+ quoted "http://www.w3.org/2000/svg" +:+ " version=" +:+ quoted "1.1" +:+ " viewBox=" +:+ quote +:+ "0 0 ".
Definition svg_frame : string :=
  quote +:+ " stroke=" +:+ quoted "none" +:+ ">" +:+ newline
  +:+ tab +:+ "<rect width=" +:+ quoted "100%" +:+ " height=" +:+ quoted "100%" +:+ " fill=" +:+ quoted "#FFFFFF" +:+ "/>" +:+ newline
  +:+ tab.
Definition svg_close : string := " fill=" +:+ quoted "#000000" +:+ "/>" +:+ newline +:+ "</svg>" +:+ newline.

Definition toSvgString (qr : QrCode) (border : Z) : res string :=
  if border <? 0 then Throw (domain_error "Border must be non-negative")
  else if (INT_MAX / 2 <? border) || (INT_MAX - size qr <? border * 2) then Throw (runtime_error "Border too large")
  else
    rows ← mapM (path_row qr border) (range 0 (size qr));
    Ok (svg_open +:+ to_string (size qr + border * 2) +:+ " " +:+ to_string (size qr + border * 2) +:+ svg_frame
      +:+ "<path d=" +:+ quote +:+ foldr String.append "" rows +:+ quote +:+ svg_close).

(** ** The demonstrations *)

(** A symbol of a text, printed. *)
Definition show_text (text : string) (ecl : Ecc) : M string unit := qr ← liftR (encodeText (c_str text) ecl); printQr qr.

Definition doBasicDemo : M string unit :=
  qr ← liftR (encodeText hello LOW);
  printQr qr ;;
  svg ← liftR (toSvgString qr 4);
  write (svg +:+ newline).

Definition doVarietyDemo : M string unit :=
  show_text pi_digits MEDIUM ;;
  show_text dollar HIGH ;;
  show_text unicode QUARTILE ;;
  show_text alice HIGH.

(** Segments put together, printed; the defaults of [encodeSegments] are all versions, the automatic mask
    and the boosted level. *)
Definition show_segments (segs : res (list QrSegment)) (ecl : Ecc) (msk : Z) : M string unit :=
  segs ← liftR segs;
  qr ← liftR (encodeSegments segs ecl MIN_VERSION MAX_VERSION msk true);
  printQr qr.

(** The loop of [bb.appendBits(c, 13)]. *)
Fixpoint append_kanji (cs : list Z) (bb : BitBuffer) : res BitBuffer :=
  match cs with
  | [] => Ok bb
  | c :: cs => bb ← appendBits (u32 c) 13 bb; append_kanji cs bb
  end.

Definition silver_segments : res (list QrSegment) :=
  a ← makeAlphanumeric silver0; n ← makeNumeric silver1; Ok [a; n].

Definition golden_segments : res (list QrSegment) :=
  b ← makeBytes (bytes_of golden0); n ← makeNumeric golden1; a ← makeAlphanumeric golden2; Ok [b; n; a].

Definition kanji_segments : res (list QrSegment) :=
  bb ← append_kanji kanjiChars [];
  seg ← new_QrSegment KANJI (s32 (Z.of_nat (length kanjiChars))) bb;
  Ok [seg].

Definition doSegmentDemo : M string unit :=
  show_text (silver0 +:+ silver1) LOW ;;
  show_segments silver_segments LOW (-1) ;;
  show_text (golden0 +:+ golden1 +:+ golden2) LOW ;;
  show_segments golden_segments LOW (-1) ;;
  show_text madoka LOW ;;
  show_segments kanji_segments LOW (-1).

Definition doMaskDemo : M string unit :=
  show_segments (makeSegments nayuki) HIGH (-1) ;;
  show_segments (makeSegments nayuki) HIGH 3 ;;
  show_segments (makeSegments chinese) MEDIUM 0 ;;
  show_segments (makeSegments chinese) MEDIUM 1 ;;
  show_segments (makeSegments chinese) MEDIUM 5 ;;
  show_segments (makeSegments chinese) MEDIUM 7.

(** The value returned is [EXIT_SUCCESS]. *)
Definition demo_main : M string Z :=
  doBasicDemo ;; doVarietyDemo ;; doSegmentDemo ;; doMaskDemo ;; mret 0.

(** ** Reading what was printed *)

(** A row of pairs of characters up to its newline, and the text behind it. *)
Fixpoint read_row (s : string) : list bool * string :=
  match s with
  | EmptyString => ([], "")
  | String a s =>
      if Ascii.eqb a (Ascii.ascii_of_nat 10) then ([], s)
      else
        match s with
        | EmptyString => ([], "")
        | String _ s => let '(row, rest) := read_row s in (Ascii.eqb a "#" :: row, rest)
        end
  end.

(** Rows up to an empty one. *)
Fixpoint read_rows (fuel : nat) (s : string) : list (list bool) :=
  match fuel with
  | O => []
  | S fuel => match read_row s with ([], _) => [] | (row, rest) => row :: read_rows fuel rest end
  end.

(** Without four at either end. *)
Definition inner {A} (l : list A) : list A := take (length l - 8) (drop 4 l).

Definition read_print (s : string) : option (list Z) := read_text (map inner (inner (read_rows (String.length s) s))).

(** ** Printing and reading *)

(** The module at a place that may be outside of the symbol. *)
Definition shown_module (q : QrCode) (x y : Z) : bool :=
  (0 <=? x) && (x <? size q) && (0 <=? y) && (y <? size q) && cell (modules q) x y.

Definition row_text (row : list bool) : string := foldr String.append newline (map (fun b : bool => if b then "##" else "  ") row).

Lemma getModule_shown q x y : shape (size q) (modules q) -> getModule q x y = Ok (shown_module q x y).
Proof.
  intros Hs. unfold getModule, shown_module. destruct ((0 <=? x) && (x <? size q) && (0 <=? y) && (y <? size q)) eqn:E; [|done].
  rewrite (grid_at_ok (size q)) by (done || (unfold in_grid; lia)). done.
Qed.

Lemma print_text_ok q : shape (size q) (modules q) -> print_text q
  = Ok (foldr String.append newline (map (fun y => row_text (map (fun x => shown_module q x y) (range (-4) (size q + 4)))) (range (-4) (size q + 4)))).
Proof.
  intros Hs. unfold print_text. erewrite mapM_ok; [done|]. intros y _. unfold print_row.
  rewrite (mapM_ok _ (fun x => if shown_module q x y then "##" else "  ")).
  - unfold row_text. by rewrite map_map.
  - intros x _. by rewrite getModule_shown.
Qed.

Lemma read_row_text row rest : read_row (row_text row +:+ rest) = (row, rest).
Proof.
  unfold row_text. induction row as [|b row IH]; [done|]. cbn [map foldr]. rewrite append_assoc. destruct b; cbn [String.append read_row];
    (destruct (Ascii.eqb _ _) eqn:E; [by vm_compute in E|]); cbn [read_row] in *; by rewrite IH.
Qed.

Lemma read_rows_text rows rest : Forall (fun row => row <> []) rows -> forall fuel, (length rows < fuel)%nat ->
  read_rows fuel (foldr String.append newline (map row_text rows) +:+ rest) = rows.
Proof.
  induction 1 as [|row rows Hr _ IH]; intros fuel Hf; (destruct fuel as [|fuel]; [lia|]); cbn [map foldr]; [done|].
  cbn [read_rows]. rewrite append_assoc, read_row_text. destruct row; [done|]. cbn [length] in Hf. by rewrite IH by lia.
Qed.

Lemma inner_map {A B} (f : A -> B) l : inner (map f l) = map f (inner l).
Proof. unfold inner. by rewrite length_map, skipn_map, firstn_map. Qed.

Lemma inner_range n : 0 <= n -> inner (range (-4) (n + 4)) = range 0 n.
Proof.
  intros Hn. pose proof (range_length 0 n Hn) as H1. pose proof (range_length (-4) (n + 4) ltac:(lia)) as H2. unfold inner.
  replace (length (range (-4) (n + 4)) - 8)%nat with (length (range 0 n)) by lia.
  rewrite (range_split (-4) 0 (n + 4)), (range_split 0 n (n + 4)) by lia. change (range (-4) 0) with [-4; -3; -2; -1]. cbn [app skipn].
  by apply take_app_length.
Qed.

Lemma row_text_length row : (1 <= String.length (row_text row))%nat.
Proof. unfold row_text. induction row as [|b row IH]; [done|]. cbn [map foldr]. rewrite append_length. destruct b; cbn [String.length]; lia. Qed.

Lemma rows_text_length rows : (length rows < String.length (foldr String.append newline (map row_text rows)))%nat.
Proof. induction rows as [|row rows IH]; [cbn; lia|]. cbn [map foldr length]. rewrite append_length. pose proof (row_text_length row). lia. Qed.

(** What is printed for a symbol reads as the symbol does. *)
Lemma print_roundtrip q : shape (size q) (modules q) -> 0 < size q -> exists s, print_text q = Ok s /\ read_print s = read_text (modules q).
Proof.
  intros Hs Hz. set (r := range (-4) (size q + 4)). set (rows := map (fun y => map (fun x => shown_module q x y) r) r).
  exists (foldr String.append newline (map row_text rows)). split; [rewrite print_text_ok by done; unfold rows; by rewrite map_map|].
  unfold read_print. set (s := foldr String.append newline (map row_text rows)).
  assert (E : read_rows (String.length s) s = rows).
  { unfold s. rewrite <- (append_nil (foldr String.append newline (map row_text rows))) at 2. apply read_rows_text; [|apply rows_text_length].
    unfold rows. apply Forall_fmap, Forall_true. intros y. cbn. pose proof (range_length (-4) (size q + 4) ltac:(lia)) as Hl. fold r in Hl.
    intros E0. apply (f_equal length) in E0. rewrite length_map in E0. cbn [length] in E0. lia. }
  rewrite E. f_equal. assert (Hr : inner r = range 0 (size q)) by (unfold r; by rewrite inner_range by lia). unfold rows. rewrite inner_map, Hr, map_map.
  erewrite map_ext by (intros y; by rewrite inner_map, Hr).
  apply (grid_ext (size q)); [by apply (tabulate_shape (size q) (shown_module q)); lia|done|].
  intros x y Hp. rewrite (tabulate_cell (size q) (shown_module q)) by done. unfold shown_module. destruct Hp. by replace ((0 <=? x) && (x <? size q) && (0 <=? y) && (y <? size q)) with true by lia.
Qed.

(** ** The program *)

(** What was printed for a text, with the mask asked for. *)
Definition shown (text : list Z) (msk : Z) (s : string) : Prop :=
  exists q, print_text q = Ok s /\ read_print s = Some text /\ (msk <> -1 -> mask q = msk).

Lemma symbol_shown segs ecl minVersion boost q dat text msk : holds segs ecl minVersion boost q dat -> 1 <= version q ->
  read_text (modules q) = Some text -> (msk <> -1 -> mask q = msk) ->
  forall out, exists s, printQr q out = (Ok tt, out +:+ s) /\ shown text msk s.
Proof.
  intros Hh Hv Hr Hm out. destruct (h_symbol _ _ _ _ _ _ Hh) as [cw Hsym]. pose proof (s_size _ _ _ _ Hsym) as Hs.
  destruct (print_roundtrip q (s_modules _ _ _ _ Hsym) ltac:(lia)) as (s & E & Hp). exists s. unfold printQr, mbind, M_bind, liftR. rewrite E.
  split; [done|]. exists q. by rewrite Hp.
Qed.

Lemma show_segments_ok segs l outs ecl msk : segs = Ok l -> segments_read l outs -> fits l ecl 40 -> -1 <= msk <= 7 ->
  forall out, exists s, show_segments segs ecl msk out = (Ok tt, out +:+ s) /\ shown (concat outs) msk s.
Proof.
  intros -> Hr Hf Hm out. unfold show_segments, mbind, M_bind, liftR. pose proof (segments_read_ok _ _ Hr) as Hok.
  destruct (encodeSegments_ok l ecl 1 40 msk true Hok) as [(q & dat & E & Hv & Hmask & Hh)|(msg & _ & Hn)]; [lia..| |].
  - unfold MIN_VERSION, MAX_VERSION. rewrite E. pose proof (h_version _ _ _ _ _ _ Hh). eapply symbol_shown; [done|lia| |done].
    eapply read_segments_text; [done|lia|done].
  - exfalso. apply (Hn 40); [lia|done].
Qed.

Lemma makeSegments_read text : Z.of_nat (String.length text) <= INT_MAX -> exists l outs, makeSegments text = Ok l /\ segments_read l outs /\ concat outs = bytes_of text.
Proof.
  intros Hl. destruct (makeSegments_ok text Hl) as [[-> E]|(seg & md & read & bits & E & Hmd & He)].
  - exists [], []. split; [done|]. split; [constructor|done].
  - exists [seg], [bytes_of text]. split; [done|]. split; [|cbn; by rewrite app_nil_r]. constructor; [|constructor]. eexists. by eapply text_reads_as.
Qed.

Lemma show_short_segments text ecl msk : Z.of_nat (String.length text) <= 1273 -> -1 <= msk <= 7 ->
  forall out, exists s, show_segments (makeSegments text) ecl msk out = (Ok tt, out +:+ s) /\ shown (bytes_of text) msk s.
Proof.
  intros Hl Hm out. destruct (makeSegments_read text) as (l & outs & E & Hr & <-); [unfold INT_MAX; lia|].
  eapply show_segments_ok; [done|done|by apply (short_fits text)|done].
Qed.

Lemma show_text_ok text ecl : c_str text = text -> Z.of_nat (String.length text) <= 1273 ->
  forall out, exists s, show_text text ecl out = (Ok tt, out +:+ s) /\ shown (bytes_of text) (-1) s.
Proof.
  intros Hc Hl out. destruct (show_short_segments text ecl (-1) Hl ltac:(lia) out) as (s & E & Hs). exists s. split; [|done]. rewrite <- E.
  unfold show_text, show_segments, encodeText. rewrite Hc. unfold mbind, M_bind, liftR. by destruct (makeSegments text).
Qed.

(** The image that is printed behind the first symbol. *)
Lemma toSvgString_read ver ecl cw q : 1 <= ver <= 40 -> symbol ver ecl cw q ->
  exists s, toSvgString q 4 = Ok s /\ forall rest, read_svg (s +:+ rest) = read_text (modules q).
Proof.
  intros Hv Hsym. pose proof (s_size _ _ _ _ Hsym) as Hs. destruct (symbol_corners ver ecl cw q Hv Hsym) as [H00 H10].
  destruct (path_rows q 4 (s_modules _ _ _ _ Hsym)) as (rows & Er & Et). unfold toSvgString. change (4 <? 0) with false. cbv iota.
  replace ((INT_MAX / 2 <? 4) || (INT_MAX - size q <? 4 * 2)) with false by (change (INT_MAX / 2) with 1073741823; unfold INT_MAX; lia).
  rewrite Er. cbn [mbind res_bind]. rewrite Et. set (l := squares_of q 4). eexists. split; [done|]. intros rest. rewrite !append_assoc.
  set (n := to_string (size q + 4 * 2)). assert (Hn : has_char "<" n = false) by (apply digits_no_char; [done|]; apply to_string_spec; lia). clearbody n.
  set (pre := svg_open +:+ n +:+ " " +:+ n +:+ svg_frame).
  assert (E : forall u, svg_open +:+ n +:+ " " +:+ n +:+ svg_frame +:+ "<path d=" +:+ quote +:+ u = pre +:+ path_start +:+ u)
    by (intros u; unfold pre, path_start; by rewrite !append_assoc).
  assert (Hskip : skips path_start pre).
  { unfold pre. apply skips_app; [skip_text|]. do 3 (apply skips_app; [by apply skips_char|]). skip_text. }
  rewrite E. unfold read_svg. clearbody pre.
  rewrite Hskip, find_sub_here. cbn [fmap option_fmap option_map mbind option_bind]. rewrite Nat.add_0_r, str_drop_add, !str_drop_app.
  rewrite read_squares_ok.
  - cbn [mbind option_bind]. unfold l. by rewrite grid_of_squares by (done || lia || apply (s_modules _ _ _ _ Hsym)).
  - apply Forall_fmap, Forall_forall. intros [x y] [[Hx Hy] _]%elem_of_dark. cbn. lia.
  - rewrite !append_length. pose proof (squares_text_length l). lia.
Qed.

(** Kanji characters. *)
Definition shift_jis (v : Z) : list Z :=
  let c := v / 192 * 256 + v mod 192 + (if v <? 31 * 192 then 0x8140 else 0xC140) in [c / 256; c mod 256].

Lemma append_kanji_ok cs : Forall (fun c => 0 <= c < 2 ^ 13) cs -> forall bb, append_kanji cs bb = Ok (bb ++ concat (map (bits_down 13) cs))%list.
Proof.
  induction 1 as [|c cs Hc _ IH]; intros bb; cbn [append_kanji map concat]; [by rewrite app_nil_r|].
  rewrite u32_id by lia. rewrite (appendBits_ok c 13) by (done || lia). cbn [mbind res_bind]. rewrite IH. by rewrite <- app_assoc.
Qed.

Lemma read_kanji_ok cs : Forall (fun c => 0 <= c < 2 ^ 13) cs -> forall rest,
  read_kanji (length cs) (concat (map (bits_down 13) cs) ++ rest)%list = concat (map shift_jis cs).
Proof.
  induction 1 as [|c cs Hc _ IH]; intros rest; [done|]. cbn [length map concat read_kanji]. rewrite <- app_assoc, take_bits, drop_bits by done.
  by rewrite IH.
Qed.

Lemma kanji_reads cs : Forall (fun c => 0 <= c < 2 ^ 13) cs ->
  reads_as (length cs) (concat (map shift_jis cs)) (mk_QrSegment KANJI (Z.of_nat (length cs)) (concat (map (bits_down 13) cs))).
Proof.
  intros Hc. split; [|done]. exists read_kanji, (fun n => 13 * n)%nat. split; [apply kanji_mode|]. split; [|by apply read_kanji_ok].
  clear Hc. cbn [data]. induction cs as [|c cs IH]; [done|]. cbn [map concat length]. rewrite length_app, bits_down_length, IH. lia.
Qed.

Lemma kanji_segments_ok : exists l, kanji_segments = Ok l /\ segments_read l [concat (map shift_jis kanjiChars)].
Proof.
  assert (Hc : Forall (fun c => 0 <= c < 2 ^ 13) kanjiChars) by (unfold kanjiChars; repeat (apply Forall_cons_2; [lia|]); apply Forall_nil_2).
  unfold kanji_segments. rewrite append_kanji_ok by done. eexists. split; [reflexivity|]. constructor; [|constructor]. eexists. by apply kanji_reads.
Qed.

Lemma silver_segments_ok : exists l, silver_segments = Ok l /\ segments_read l [bytes_of silver0; bytes_of silver1].
Proof.
  unfold silver_segments. destruct (makeAlphanumeric_ok silver0) as (a & -> & Ha); [by vm_compute..|].
  destruct (makeNumeric_ok silver1) as (n & -> & Hn); [by vm_compute..|]. eexists. split; [done|].
  constructor; [eexists; eapply text_reads_as; [|done]; constructor|]. constructor; [eexists; eapply text_reads_as; [|done]; constructor|constructor].
Qed.

Lemma golden_segments_ok : exists l, golden_segments = Ok l /\ segments_read l [bytes_of golden0; bytes_of golden1; bytes_of golden2].
Proof.
  unfold golden_segments. destruct (makeBytes_ok golden0) as (b & -> & Hb); [by vm_compute|].
  destruct (makeNumeric_ok golden1) as (n & -> & Hn); [by vm_compute..|]. destruct (makeAlphanumeric_ok golden2) as (a & -> & Ha); [by vm_compute..|].
  eexists. split; [done|]. do 3 (constructor; [eexists; eapply text_reads_as; [|done]; constructor|]). constructor.
Qed.

Definition segments_fit (segs : res (list QrSegment)) (ecl : Ecc) : bool :=
  match segs with
  | Ok l => (0 <=? getTotalBits l 40) && (getTotalBits l 40 <=? capacity_bits 40 ecl)
  | Throw _ => false
  end.

Lemma segments_fit_ok segs l ecl : segments_fit segs ecl = true -> segs = Ok l -> fits l ecl 40.
Proof. intros H ->. unfold segments_fit in H. unfold fits. lia. Qed.

(** A program part that prints symbols of these texts, with these masks. *)
Definition prints (m : M string unit) (texts : list (list Z * Z)) : Prop := forall out, exists ss,
  m out = (Ok tt, out +:+ foldr String.append "" ss) /\ Forall2 (fun t s => shown t.1 t.2 s) texts ss.

Lemma prints_one m text msk : (forall out, exists s, m out = (Ok tt, out +:+ s) /\ shown text msk s) -> prints m [(text, msk)].
Proof. intros H out. destruct (H out) as (s & E & Hs). exists [s]. cbn. rewrite append_nil. split; [done|]. by repeat constructor. Qed.

Lemma prints_seq m m' l l' : prints m l -> prints m' l' -> prints (m ;; m') (l ++ l')%list.
Proof.
  intros H H' out. destruct (H out) as (ss & E & Hs). destruct (H' (out +:+ foldr String.append "" ss)) as (ss' & E' & Hs'). exists (ss ++ ss')%list.
  split; [|by apply Forall2_app]. unfold mbind, M_bind. rewrite E, E', append_assoc.
  assert (foldr String.append "" (ss ++ ss')%list = foldr String.append "" ss +:+ foldr String.append "" ss') as ->; [|done].
  clear. induction ss as [|s ss IH]; [done|]. cbn [app foldr]. by rewrite append_assoc, IH.
Qed.

(** A text that a C string can hold and that fits every level. *)
Definition short (text : string) : bool := String.eqb (c_str text) text && (Z.of_nat (String.length text) <=? 1273).

Lemma prints_text text ecl : short text = true -> prints (show_text text ecl) [(bytes_of text, -1)].
Proof. unfold short. intros [Hc%String.eqb_eq Hl]%andb_true_iff. apply prints_one, show_text_ok; [done|lia]. Qed.

Lemma prints_segments text ecl msk : short text = true -> -1 <= msk <= 7 -> prints (show_segments (makeSegments text) ecl msk) [(bytes_of text, msk)].
Proof. unfold short. intros [_ Hl]%andb_true_iff Hm. apply prints_one, show_short_segments; [lia|done]. Qed.

Lemma prints_built segs l outs ecl : segs = Ok l -> segments_read l outs -> segments_fit segs ecl = true ->
  prints (show_segments segs ecl (-1)) [(concat outs, -1)].
Proof. intros E Hr Hf. apply prints_one. eapply show_segments_ok; [done|done|by eapply segments_fit_ok|lia]. Qed.

(** What the program shows, behind its first symbol and image. *)
Definition variety_texts : list (list Z * Z) :=
  [ (bytes_of pi_digits, -1); (bytes_of dollar, -1); (bytes_of unicode, -1); (bytes_of alice, -1) ].
Definition segment_texts : list (list Z * Z) :=
  [ (bytes_of (silver0 +:+ silver1), -1); (concat [bytes_of silver0; bytes_of silver1], -1);
    (bytes_of (golden0 +:+ golden1 +:+ golden2), -1); (concat [bytes_of golden0; bytes_of golden1; bytes_of golden2], -1);
    (bytes_of madoka, -1); (concat [concat (map shift_jis kanjiChars)], -1) ].
Definition mask_texts : list (list Z * Z) :=
  [ (bytes_of nayuki, -1); (bytes_of nayuki, 3); (bytes_of chinese, 0); (bytes_of chinese, 1); (bytes_of chinese, 5); (bytes_of chinese, 7) ].

Ltac by_value := vm_cast_no_check (eq_refl true).

Lemma variety_prints : prints doVarietyDemo variety_texts.
Proof.
  refine (prints_seq _ _ [_] _ (prints_text pi_digits MEDIUM _) _); [by_value|].
  refine (prints_seq _ _ [_] _ (prints_text dollar HIGH _) _); [by_value|].
  refine (prints_seq _ _ [_] _ (prints_text unicode QUARTILE _) _); [by_value|].
  refine (prints_text alice HIGH _). by_value.
Qed.

Lemma segment_prints : prints doSegmentDemo segment_texts.
Proof.
  destruct silver_segments_ok as (ls & Es & Hs). destruct golden_segments_ok as (lg & Eg & Hg). destruct kanji_segments_ok as (lk & Ek & Hk).
  refine (prints_seq _ _ [_] _ (prints_text (silver0 +:+ silver1) LOW _) _); [by_value|].
  refine (prints_seq _ _ [_] _ (prints_built silver_segments ls _ LOW Es Hs _) _); [by_value|].
  refine (prints_seq _ _ [_] _ (prints_text (golden0 +:+ golden1 +:+ golden2) LOW _) _); [by_value|].
  refine (prints_seq _ _ [_] _ (prints_built golden_segments lg _ LOW Eg Hg _) _); [by_value|].
  refine (prints_seq _ _ [_] _ (prints_text madoka LOW _) _); [by_value|].
  refine (prints_built kanji_segments lk _ LOW Ek Hk _). by_value.
Qed.

Lemma mask_prints : prints doMaskDemo mask_texts.
Proof.
  refine (prints_seq _ _ [_] _ (prints_segments nayuki HIGH (-1) _ _) _); [by_value|lia|].
  refine (prints_seq _ _ [_] _ (prints_segments nayuki HIGH 3 _ _) _); [by_value|lia|].
  refine (prints_seq _ _ [_] _ (prints_segments chinese MEDIUM 0 _ _) _); [by_value|lia|].
  refine (prints_seq _ _ [_] _ (prints_segments chinese MEDIUM 1 _ _) _); [by_value|lia|].
  refine (prints_seq _ _ [_] _ (prints_segments chinese MEDIUM 5 _ _) _); [by_value|lia|].
  refine (prints_segments chinese MEDIUM 7 _ _); [by_value|lia].
Qed.

Lemma seq_return {S} (m1 m2 m3 : M S unit) s s' : (m1 ;; m2 ;; m3) s = (Ok tt, s') -> (m1 ;; m2 ;; m3 ;; mret 0) s = (Ok 0, s').
Proof.
  unfold mbind, M_bind. destruct (m1 s) as [[[]|e] s1]; [|done]. destruct (m2 s1) as [[[]|e] s2]; [|done].
  destruct (m3 s2) as [[[]|e] s3]; [|done]. by intros [= ->].
Qed.

(** The demonstration program ends with success, and everything it prints is readable: its first
    symbol and the image behind it read as the greeting, and the sixteen symbols that follow read as the
    texts they were made from, digits, letters, UTF-8, segments put together by hand and Kanji, the last
    five with the masks that were forced. *)
Theorem demo_prints_readable (out : string) : exists first image ss,
  demo_main out = (Ok 0, out +:+ first +:+ image +:+ newline +:+ foldr String.append "" ss)
  /\ shown (bytes_of hello) (-1) first /\ read_svg image = Some (bytes_of hello)
  /\ Forall2 (fun t s => shown t.1 t.2 s) (variety_texts ++ segment_texts ++ mask_texts)%list ss.
Proof.
  destruct (encodeText_short hello LOW ltac:(vm_compute; discriminate)) as (q & dat & segs & Eq & Eseg & Hv & Hh).
  assert (Hr : read_text (modules q) = Some (bytes_of hello)) by (eapply read_text_ok; [by vm_compute|done|done]).
  destruct (symbol_shown _ _ _ _ _ _ (bytes_of hello) (-1) Hh ltac:(lia) Hr (fun H => match H eq_refl with end) out) as (first & Ef & Hf).
  destruct (h_symbol _ _ _ _ _ _ Hh) as [cw Hsym]. destruct (toSvgString_read _ _ _ q Hv Hsym) as (image & Ei & Hi).
  set (out1 := out +:+ first +:+ image +:+ newline).
  destruct (prints_seq _ _ _ _ variety_prints (prints_seq _ _ _ _ segment_prints mask_prints) out1) as (ss & E & Hs).
  exists first, image, ss. split; [|split; [done|split; [|exact Hs]]].
  - unfold demo_main. assert (Eb : doBasicDemo out = (Ok tt, out1)).
    { unfold doBasicDemo. unfold mbind, M_bind, liftR. rewrite Eq, Ef, Ei. unfold write, modS, out1. by rewrite !append_assoc. }
    apply seq_return in E. unfold mbind at 1, M_bind at 1. rewrite Eb. unfold out1 in E at 2. rewrite !append_assoc in E. exact E.
  - specialize (Hi ""). by rewrite append_nil, Hr in Hi.
Qed.
