(* ===== verification/Handlers.v ===== *)
(** * request_handlers.cpp: the request handlers

    Every handler that answers a request, as a computation on the state of the server: the database,
    the table of one-time passwords, the connection and the calls made to the camera.  The camera's
    answers are arguments. *)

From S2P Require Import Prelude Str Utils Json JsonText OtpUri Otp Hash Ssl Db OtpManager.
From Stdlib Require Import Ascii.
From Stdlib Require String.

Local Open Scope string_scope.
Local Open Scope Z_scope.

(** The calls of curl_camera.cpp that change the camera. *)
Inductive camera_call := cam_put (l : CrossLine) | cam_delete (i : Z).

Record world (D : Type) := mk_world {
  w_db : D;
  w_otp : OTPManager;
  w_ssl : ssl;
  w_camera : list camera_call }.
Arguments mk_world {D} w_db w_otp w_ssl w_camera.
Arguments w_db {D} w.
Arguments w_otp {D} w.
Arguments w_ssl {D} w.
Arguments w_camera {D} w.

(** What one request finds outside of the server: the time, the random numbers, and the text
    [getLines()] returns. *)
Record env := mk_env {
  env_time : Z;
  env_rands : nat -> Z;
  env_salts : nat -> Z;
  env_picks : nat -> Z;
  env_lines : string }.

Section handlers.
Context {D : Type} `{Sqlite D} `{Pwhash}.
Context (algos : gmap string Algo_info) (char_signed : bool).

(** A computation on one part of the state. *)
Definition on_db {A} (m : M D A) : M (world D) A := fun w =>
  let '(r, d) := m (w_db w) in (r, mk_world d (w_otp w) (w_ssl w) (w_camera w)).
Definition on_otp {A} (m : M OTPManager A) : M (world D) A := fun w =>
  let '(r, o) := m (w_otp w) in (r, mk_world (w_db w) o (w_ssl w) (w_camera w)).
Definition camera (c : camera_call) : M (world D) unit := fun w =>
  (Ok tt, mk_world (w_db w) (w_otp w) (w_ssl w) (w_camera w ++ [c])%list).

(** [sendAll]; its result is not used by the callers. *)
Definition send_all (buffer : list Z) : M (world D) unit := fun w =>
  (Ok tt, mk_world (w_db w) (w_otp w) (snd (sendAll (w_ssl w) buffer)) (w_camera w)).

(** [htonl] of a 32-bit number: its bytes, the most significant first. *)
Definition net32 (n : Z) : list Z := map (fun k => u32 n / 2 ^ (8 * k) mod 256) [3; 2; 1; 0].

Definition send_json_response (response : json) : M (world D) unit :=
  json_string ← liftR (dump_string response);
  let res_len := u32 (Z.of_nat (String.length json_string)) in
  send_all (net32 res_len) ;;
  send_all (take (Z.to_nat res_len) (bytes_of json_string)).

(** [received_json["data"].value(key, default)]. *)
Definition data_value {A} (get : json -> res A) (j : json) (key : string) (def : A) : M (world D) A :=
  liftR (data ← json_at j "data"; json_value get data key def).

(** ** Detections and lines *)

Definition detection_json (x : Detection) : json :=
  make_obj [("image", JString (base64_encode (imageBlob x))); ("timestamp", JString (timestamp x))].

Definition handle_detection_request (j : json) : M (world D) unit :=
  start_ts ← data_value get_string j "start_timestamp" "";
  end_ts ← data_value get_string j "end_timestamp" "";
  detections ← on_db (select_data_for_timestamp_range_detections start_ts end_ts);
  send_json_response (make_obj [("request_id", JInt 10); ("data", JArray (map detection_json detections))]) ;;
  send_json_response (make_obj [("request_id", JInt 1); ("result", JString "ok")]).

Definition line_json (l : CrossLine) : json :=
  make_obj [("index", JInt (index l)); ("x1", JInt (x1 l)); ("y1", JInt (y1 l)); ("x2", JInt (x2 l));
            ("y2", JInt (y2 l)); ("name", JString (Db.name l)); ("mode", JString (mode l))].

Definition flag (b : bool) : json := JInt (if b then 1 else 0).

Definition handle_line_insert_request (j : json) : M (world D) unit :=
  idx ← data_value get_int j "index" (-1);
  a1 ← data_value get_int j "x1" (-1);
  b1 ← data_value get_int j "y1" (-1);
  a2 ← data_value get_int j "x2" (-1);
  b2 ← data_value get_int j "y2" (-1);
  nm ← data_value get_string j "name" "name1";
  md ← data_value get_string j "mode" "BothDirections";
  camera_type ← liftR (json_value get_string j "camera_type" "CCTV");
  let curlCrossLine := mk_CrossLine idx (s32 (a1 * 4)) (s32 (b1 * 4)) (s32 (a2 * 4)) (s32 (b2 * 4)) nm md in
  let insertCrossLine := mk_CrossLine idx a1 b1 a2 b2 nm md in
  mappingSuccess ← on_db (insert_data_lines insertCrossLine);
  if String.eqb camera_type "CCTV" then
    camera (cam_put curlCrossLine) ;;
    send_json_response (make_obj [("request_id", JInt 11); ("mapping_success", flag mappingSuccess)])
  else
    dbLines ← on_db select_all_data_lines;
    send_json_response (make_obj [("request_id", JInt 18); ("data", JArray (map line_json dbLines))]).

(** [item[key]] as a type, and [item["lineCoordinates"][k][key]]. *)
Definition field {A} (get : json -> res A) (item : json) (key : string) : res A :=
  v ← json_at item key; get v.
Definition coordinate (item : json) (k : nat) (key : string) : res Z :=
  cs ← json_at item "lineCoordinates"; p ← json_nth cs k; field get_int p key.

(** One element of the camera's list of lines. *)
Definition read_http_line (item : json) : res CrossLine :=
  i ← field get_int item "index";
  n ← field get_string item "name";
  m ← field get_string item "mode";
  a1 ← coordinate item 0 "x";
  b1 ← coordinate item 0 "y";
  a2 ← coordinate item 1 "x";
  b2 ← coordinate item 1 "y";
  Ok (mk_CrossLine i a1 b1 a2 b2 n m).

Fixpoint read_all {A} (f : json -> res A) (items : list json) : res (list A) :=
  match items with
  | [] => Ok []
  | item :: items => a ← f item; l ← read_all f items; Ok (a :: l)
  end.

(** [json::parse(getLines())] and the loop over [j["lineCrossing"][0]["line"]]. *)
Definition camera_items (e : env) : res (list json) :=
  j ← parse_string (env_lines e);
  crossing ← json_at_mut j "lineCrossing";
  first ← json_nth_mut crossing 0;
  json_items <$> json_at_mut first "line".

(** The stored lines that are on the camera, by the camera's order. *)
Definition real_lines (httpLines dbLines : list CrossLine) : list CrossLine :=
  concat (map (fun h => List.filter (fun d => index h =? index d) dbLines) httpLines).

Fixpoint insert_all (ls : list CrossLine) : M D unit :=
  match ls with
  | [] => mret tt
  | l :: ls => insert_data_lines l ;; insert_all ls
  end.

Definition handle_line_select_all_request (e : env) (j : json) : M (world D) unit :=
  items ← liftR (camera_items e);
  httpLines ← liftR (read_all read_http_line items);
  dbLines ← on_db select_all_data_lines;
  let realLines := real_lines httpLines dbLines in
  on_db delete_all_data_lines ;;
  on_db (insert_all realLines) ;;
  send_json_response (make_obj [("request_id", JInt 12); ("data", JArray (map line_json realLines))]).

Fixpoint camera_delete_all (indexs : list Z) : M (world D) unit :=
  match indexs with
  | [] => mret tt
  | i :: indexs => camera (cam_delete i) ;; camera_delete_all indexs
  end.

Definition handle_line_delete_all_request (e : env) (j : json) : M (world D) unit :=
  items ← liftR (camera_items e);
  indexs ← liftR (read_all (fun item => field get_int item "index") items);
  camera_delete_all indexs ;;
  s1 ← on_db delete_all_data_lines;
  s2 ← on_db delete_all_data_baseLines;
  s3 ← on_db delete_all_data_verticalLineEquations;
  let deleteSuccess := true && s1 && s2 && s3 in
  send_json_response (make_obj [("request_id", JInt 13); ("delete_success", flag deleteSuccess)]).

(** ** Base lines and vertical lines *)

Definition handle_baseline_insert_request (j : json) : M (world D) unit :=
  idx ← data_value get_int j "index" (-1);
  m1 ← data_value get_int j "matrixNum1" (-1);
  a1 ← data_value get_int j "x1" (-1);
  b1 ← data_value get_int j "y1" (-1);
  m2 ← data_value get_int j "matrixNum2" (-1);
  a2 ← data_value get_int j "x2" (-1);
  b2 ← data_value get_int j "y2" (-1);
  let baseLine := mk_BaseLine idx m1 a1 b1 m2 a2 b2 in
  insertSuccess ← on_db (insert_data_baseLines baseLine);
  updateSuccess ← on_db (update_data_baseLines baseLine);
  send_json_response (make_obj [("request_id", JInt 14); ("insert_success", flag insertSuccess);
                                ("update_success", flag updateSuccess)]).

Definition handle_vertical_line_insert_request (j : json) : M (world D) unit :=
  idx ← data_value get_int j "index" (-1);
  a ← data_value get_double j "a" (double_of_int (-1));
  b ← data_value get_double j "b" (double_of_int (-1));
  insertSuccess ← on_db (insert_data_verticalLineEquations (mk_Vertical idx a b));
  send_json_response (make_obj [("request_id", JInt 14); ("insert_success", flag insertSuccess)]).

Definition baseline_json (b : BaseLine) : json :=
  make_obj [("index", JInt (base_index b)); ("matrixNum1", JInt (matrixNum1 b)); ("x1", JInt (base_x1 b));
            ("y1", JInt (base_y1 b)); ("matrixNum2", JInt (matrixNum2 b)); ("x2", JInt (base_x2 b));
            ("y2", JInt (base_y2 b))].

Definition handle_baseline_select_all_request (j : json) : M (world D) unit :=
  baseLines ← on_db select_all_data_baseLines;
  send_json_response (make_obj [("request_id", JInt 16); ("data", JArray (map baseline_json baseLines))]).

(** ** Login *)

(** What is answered to the first step. *)
Definition step1_response (success : bool) (account : option Account) : json :=
  make_obj ([("request_id", JInt 19); ("step1_success", flag success)] ++
    (if success then
       match account with
       | Some acc =>
           [("requires_otp", flag (use_otp acc));
            ("message", JString (if use_otp acc
               then "ID/PW 검증 완료. OTP 또는 복구 코드를 입력하세요."
               else "ID/PW 검증 완료. 바로 로그인 가능합니다."))]
       | None => []
       end
     else []))%list.

(** The branch taken on the account that was found. *)
Definition check_password (i pw : string) (account : option Account) : M (world D) bool :=
  match account with
  | None => mret false
  | Some acc =>
      if verify_password (passwd acc) pw then
        (if negb (str_empty (otp_secret acc)) then on_otp (register_otp algos i (otp_secret acc)) else mret tt) ;;
        mret true
      else mret false
  end.

Definition handle_login_step1_request (j : json) : M (world D) unit :=
  i ← data_value get_string j "id" "";
  pw ← data_value get_string j "passwd" "";
  if str_empty i || str_empty pw then mret tt
  else
    account ← on_db (get_account_by_id i);
    step1Success ← check_password i pw account;
    send_json_response (step1_response step1Success account).

(** The [try] block of the second step: (finalLoginSuccess, is_recovery_code). *)
Definition step2_check (e : env) (i input : string) : M (world D) (bool * bool) :=
  let is_numeric := negb (str_empty input) && all_chars is_digit input in
  if is_numeric && (String.length input =? 6)%nat then
    w ← getS;
    ok ← liftR (verify_otp (w_otp w) i (dec_value 0 input) (env_time e));
    mret (ok, false)
  else
    ok ← on_db (verify_recovery_code i input);
    if (ok : bool) then on_db (invalidate_recovery_code i input) ;; mret (true, true)
    else mret (false, false).

Definition step2_response (success recovery : bool) : json :=
  make_obj [("request_id", JInt 23); ("final_login_success", flag success);
    ("message", JString (if success then
        if recovery then "복구 코드로 로그인 성공. 해당 복구 코드는 무효화되었습니다."
        else "OTP 검증 성공. 로그인 완료."
      else "OTP 또는 복구 코드가 올바르지 않습니다."))].

Definition handle_login_step2_request (e : env) (j : json) : M (world D) unit :=
  i ← data_value get_string j "id" "";
  input ← data_value get_string j "input" "";
  r ← try_catch (step2_check e i input) is_std_exception (fun _ => mret (false, false));
  send_json_response (step2_response (fst r) (snd r)).

(** ** Registration *)

(** The [try] block of the registration: (signUpSuccess, qr_code_svg, otp_uri, recovery_codes).  The
    first salt is for the password, the others for the codes. *)
Definition sign_up (e : env) (i pw : string) (otp : bool) : M (world D) (bool * string * string * list string) :=
  hashed_passwd ← liftR (hash_password (env_salts e 0%nat) pw);
  made ← (if otp then
            uri ← on_otp (generate_otp_uri algos char_signed (env_rands e) i);
            w ← getS;
            svg ← liftR (generate_qr_code_svg uri);
            mret (svg, uri, get_secret (w_otp w) i, generate_recovery_codes (env_picks e))
          else mret ("", "", "", []));
  let '(svg, uri, secret, recovery_codes) := made in
  signUpSuccess ← on_db (insert_data_accounts (mk_Account i hashed_passwd secret otp));
  (if signUpSuccess && otp then
     on_db (store_otp_secret i secret) ;;
     hashed_codes ← liftR (hash_recovery_codes (fun k => env_salts e (S k)) recovery_codes);
     on_db (store_recovery_codes i hashed_codes) ;;
     mret tt
   else mret tt) ;;
  mret (signUpSuccess, svg, uri, recovery_codes).

Definition signup_response (success otp : bool) (svg uri : string) (codes : list string) : json :=
  make_obj ([("request_id", JInt 20); ("sign_up_success", flag success)] ++
    (if success && otp then
       [("qr_code_svg", JString svg); ("otp_uri", JString uri); ("recovery_codes", JArray (map JString codes))]
     else []))%list.

Definition handle_signup_request (e : env) (j : json) : M (world D) unit :=
  i ← data_value get_string j "id" "";
  pw ← data_value get_string j "passwd" "";
  otp ← data_value get_bool j "use_otp" true;
  r ← try_catch (sign_up e i pw otp) is_runtime_error (fun _ => mret (false, "", "", []));
  let '(success, svg, uri, codes) := r in
  send_json_response (signup_response success otp svg uri codes).
End handlers.
