(* ===== verification/Camera.v ===== *)
(** * curl_camera.cpp: the requests to the camera

    The three HTTP requests the server sends to the camera, and the text they return.  libcurl is an
    interface: whether a handle can be made, and what a request delivers to the write callback. *)

From S2P Require Import Prelude Str Json JsonText JsonSpec OtpUri Otp Hash Ssl Db OtpManager Handlers Config.
From Stdlib Require Import Ascii.
From Stdlib Require String.

Local Open Scope string_scope.
Local Open Scope Z_scope.

(** The options of a handle when it is performed; [None] is the default method, GET. *)
Record http_request := mk_request {
  req_url : string;
  req_method : option string;
  req_userpwd : string;
  req_verify : bool;
  req_headers : list string;
  req_body : option string }.

(** The pieces of the response body go to the callback one after the other, also when the transfer
    fails behind them. *)
Class Curl (C : Type) := {
  curl_easy_init : C -> bool;
  curl_easy_perform : http_request -> C -> list string * C }.

Definition WriteCallback (contents response_buffer : string) : string := response_buffer +:+ contents.

(** The headers all requests have. *)
Definition camera_headers (cfg : AppConfig) : list string :=
  ["Accept: application/json"; "Content-Type: application/json"; c_str ("Cookie: TRACKID=" +:+ trackid cfg);
   c_str ("Origin: https://" +:+ host cfg);
   c_str ("Referer: https://" +:+ host cfg +:+ "/home/setup/opensdk/html/WiseAI/index.html")].

Definition camera_request (cfg : AppConfig) (url : string) (method body : option string) : http_request :=
  mk_request (c_str url) method (c_str (username cfg +:+ ":" +:+ password cfg)) false (camera_headers cfg) body.

Definition linecrossing_url (cfg : AppConfig) : string :=
  "https://" +:+ host cfg +:+ "/opensdk/WiseAI/configuration/linecrossing".

Section requests.
Context {C : Type} `{Curl C}.

(** The request of a function and its response, inside its [try]: [return NULL] makes a string of a
    null pointer, which throws inside the block, and every exception leaves the response empty. *)
Definition with_curl (make : res http_request) : M C string :=
  try_catch
    (c ← getS;
     if curl_easy_init c then
       req ← liftR make;
       c ← getS;
       let '(chunks, c) := curl_easy_perform req c in
       putS c ;; mret (foldl (fun b x => WriteCallback x b) "" chunks)
     else throwM (logic_error "basic_string: construction from null is not valid"))
    is_std_exception (fun _ => mret "").

Definition getLines (cfg : AppConfig) : M C string :=
  with_curl (Ok (camera_request cfg (linecrossing_url cfg) None None)).

(** The JSON value [putLines] sends. *)
Definition point_json (x y : Z) : json := make_obj [("x", JInt x); ("y", JInt y)].
Definition camera_line_json (crossLine : CrossLine) : json :=
  make_obj
    [("index", JInt (index crossLine));
     ("lineCoordinates", JArray [point_json (x1 crossLine) (y1 crossLine); point_json (x2 crossLine) (y2 crossLine)]);
     ("mode", JString (mode crossLine)); ("name", JString (name crossLine));
     ("objectTypeFilter", JArray (map JString ["Person"; "Vehicle.Bicycle"; "Vehicle.Car"; "Vehicle.Motorcycle"; "Vehicle.Bus"; "Vehicle.Truck"]))].
Definition put_json (crossLine : CrossLine) : json :=
  make_obj [("channel", JInt 0); ("enable", JBool true); ("line", JArray [camera_line_json crossLine])].

Definition putLines (cfg : AppConfig) (crossLine : CrossLine) : M C string :=
  with_curl
    (insert_json_string ← dump_string (put_json crossLine);
     Ok (camera_request cfg (linecrossing_url cfg) (Some "PUT") (Some insert_json_string))).

Definition delete_url (cfg : AppConfig) (i : Z) : string :=
  "https://" +:+ host cfg +:+ "/opensdk/WiseAI/configuration/linecrossing/line?channel=0&index=" +:+ int_string i.

Definition deleteLines (cfg : AppConfig) (i : Z) : M C string :=
  with_curl (Ok (camera_request cfg (delete_url cfg i) (Some "DELETE") None)).

(** The calls a handler makes, carried out. *)
Definition run_camera_call (cfg : AppConfig) (c : camera_call) : M C string :=
  match c with cam_put l => putLines cfg l | cam_delete i => deleteLines cfg i end.

Fixpoint run_camera_calls (cfg : AppConfig) (cs : list camera_call) : M C unit :=
  match cs with
  | [] => mret tt
  | c :: cs => run_camera_call cfg c ;; run_camera_calls cfg cs
  end.
End requests.

(** ** What the camera is sent *)

Definition int_fits (z : Z) : Prop := - 2 ^ 31 <= z <= INT_MAX.

(** A line as a handler makes it: numbers of type [int], names that are valid UTF-8. *)
Definition line_fits (l : CrossLine) : Prop :=
  Forall int_fits [index l; x1 l; y1 l; x2 l; y2 l] /\ valid_utf8 (name l) = true /\ valid_utf8 (mode l) = true.

Lemma put_json_fields l : put_json l
  = JObject [("channel", JInt 0); ("enable", JBool true);
     ("line", JArray [JObject
       [("index", JInt (index l));
        ("lineCoordinates", JArray [JObject [("x", JInt (x1 l)); ("y", JInt (y1 l))]; JObject [("x", JInt (x2 l)); ("y", JInt (y2 l))]]);
        ("mode", JString (mode l)); ("name", JString (name l));
        ("objectTypeFilter", JArray (map JString ["Person"; "Vehicle.Bicycle"; "Vehicle.Car"; "Vehicle.Motorcycle"; "Vehicle.Bus"; "Vehicle.Truck"]))]])].
Proof. reflexivity. Qed.

Lemma put_json_wf l : line_fits l -> wf_json (put_json l) = true.
Proof.
  intros (Hi & Hn & Hm). rewrite !Forall_cons in Hi. destruct Hi as (I1 & I2 & I3 & I4 & I5 & _).
  assert (Hi : forall z, int_fits z -> (- 2 ^ 63 <=? z) && (z <? 2 ^ 64) = true) by (unfold int_fits, INT_MAX; intros; lia).
  rewrite put_json_fields. cbn [wf_json forallb map].
  rewrite Hn, Hm, (Hi _ I1), (Hi _ I2), (Hi _ I3), (Hi _ I4), (Hi _ I5). by vm_compute.
Qed.

Lemma int_fits_s32 z : int_fits z -> s32 z = z.
Proof. unfold int_fits, INT_MAX, s32. intros. rewrite Z.mod_small; lia. Qed.

Lemma with_curl_ok {C} `{Curl C} req (c : C) : curl_easy_init c = true ->
  with_curl (Ok req) c = (let '(chunks, c') := curl_easy_perform req c in (Ok (foldl (fun b x => WriteCallback x b) "" chunks), c')).
Proof.
  intros Hc. unfold with_curl, try_catch, mbind, M_bind, getS. rewrite Hc. unfold liftR.
  by destruct (curl_easy_perform req c).
Qed.

(** [putLines] makes exactly one request, a PUT to the address of the configured host with the
    configured login, and its body is a JSON text from which the program's own reader of camera lines
    gets the line back. *)
Theorem put_line_roundtrip {C} `{Curl C} (cfg : AppConfig) (l : CrossLine) (c : C) :
  line_fits l -> curl_easy_init c = true ->
  exists body j item,
    let req := camera_request cfg (linecrossing_url cfg) (Some "PUT") (Some body) in
    putLines cfg l c = (Ok (foldl (fun b x => WriteCallback x b) "" (fst (curl_easy_perform req c))), snd (curl_easy_perform req c))
    /\ parse_string body = Ok j /\ json_at j "line" = Ok (JArray [item]) /\ read_http_line item = Ok l.
Proof.
  intros Hl Hc. destruct (dump_parse (put_json l) (put_json_wf l Hl)) as (body & Ed & Ep).
  exists body, (put_json l). eexists. split_and!; [|exact Ep|reflexivity|].
  - unfold putLines. rewrite Ed. cbn [mbind res_bind]. rewrite with_curl_ok by done. by destruct (curl_easy_perform _ c).
  - destruct Hl as (Hi & _ & _). rewrite !Forall_cons in Hi. destruct Hi as (I1 & I2 & I3 & I4 & I5 & _).
    transitivity (Ok (mk_CrossLine (s32 (index l)) (s32 (x1 l)) (s32 (y1 l)) (s32 (x2 l)) (s32 (y2 l)) (name l) (mode l)));
      [reflexivity|]. rewrite !int_fits_s32 by done. by destruct l.
Qed.

(** A camera that answers every request with two pieces of text and remembers the requests. *)
#[local] Instance recorder : Curl (list http_request) := {
  curl_easy_init _ := true;
  curl_easy_perform req reqs := (["{"; "}"], reqs ++ [req])%list }.

Lemma put_line_roundtrip_witness :
  exists body, fst (putLines empty_config (mk_CrossLine 1 0 0 400 400 "gate" "Both") []) = Ok "{}"
  /\ option_map req_body (last (snd (putLines empty_config (mk_CrossLine 1 0 0 400 400 "gate" "Both") []))) = Some (Some body).
Proof.
  destruct (put_line_roundtrip empty_config (mk_CrossLine 1 0 0 400 400 "gate" "Both") []) as (body & j & item & E & _).
  - split_and!; [|done|done]. repeat constructor; unfold int_fits, INT_MAX; cbn; lia.
  - done.
  - exists body. rewrite E. split; reflexivity.
Defined.
