(* ===== verification/Bbox.v ===== *)
(** * metadata_parser.cpp: bounding boxes

    The boxes found in the camera's metadata stream, the buffer they wait in, and their delivery to
    a client.  Times are in nanoseconds of the steady clock.  The clock, the flag [parser_running] as
    the parser reads it and the output of ffmpeg are arguments. *)

From S2P Require Import Prelude JsonOps Config Str Json JsonText Regex Decimal Numbers Ssl Handlers.
From stdpp Require Import sorting.
From Stdlib Require Import Ascii SpecFloat.
From Stdlib Require String.

Local Open Scope string_scope.
Local Open Scope Z_scope.

Record ServerBBox := mk_box {
  object_id : Z;
  type : string;
  confidence : spec_float;
  left : Z;
  top : Z;
  right : Z;
  bottom : Z }.

Record TimestampedBBox := mk_item { stamp : Z; bboxes : list ServerBBox }.

Definition bbox_buffer_delay_ms : Z := 2000.
Definition bbox_send_interval_ms : Z := 50.

(** ** The buffer *)

(** [duration_cast<milliseconds>(now - t).count()]. *)
Definition age_ms (now t : Z) : Z := Z.quot (now - t) 1000000.

Fixpoint drop_old (now : Z) (b : list TimestampedBBox) : list TimestampedBBox :=
  match b with
  | oldest :: b' => if 10000 <? age_ms now (stamp oldest) then drop_old now b' else b
  | [] => []
  end.

Fixpoint trim (b : list TimestampedBBox) : list TimestampedBBox :=
  match b with
  | _ :: b' => if (50 <? length b)%nat then trim b' else b
  | [] => []
  end.

(** The clock is read for the new item and again for the ages. *)
Definition update_bbox_buffer (t now : Z) (new_bboxes : list ServerBBox) (b : list TimestampedBBox)
    : list TimestampedBBox :=
  trim (drop_old now (b ++ [mk_item t new_bboxes])%list).

Definition clear_bbox_buffer (b : list TimestampedBBox) : list TimestampedBBox := [].

(** The part of [send_bboxes_to_client] under the lock: the boxes to send, the number of items
    processed, and the buffer. *)
Definition take_due (now : Z) (b : list TimestampedBBox) : list ServerBBox * Z * list TimestampedBBox :=
  match b with
  | oldest :: b' =>
      if bbox_buffer_delay_ms <=? age_ms now (stamp oldest) then (bboxes oldest, 1, b') else ([], 0, b)
  | [] => ([], 0, [])
  end.

Definition box_json (box : ServerBBox) : json :=
  make_obj [("id", JInt (object_id box)); ("type", JString (type box));
            ("confidence", JFloat (double_of_float (confidence box))); ("x", JInt (left box)); ("y", JInt (top box));
            ("width", JInt (s32 (right box - left box))); ("height", JInt (s32 (bottom box - top box)))].

Definition bbox_response (boxes : list ServerBBox) (buffer_size processed_count : Z) : json :=
  make_obj [("response_id", JInt 200); ("bboxes", JArray (map box_json boxes));
            ("buffer_info", make_obj [("buffer_size", JInt buffer_size); ("processed_count", JInt processed_count)])].

(** [parseServerBBoxes], the reader of such boxes in the header file. *)
Definition parse_box (value : json) : res ServerBBox :=
  object_id ← (v ← at_key value "object_id"; get_int v);
  type ← (v ← at_key value "type"; get_string v);
  confidence ← (v ← at_key value "confidence"; get_float v);
  left ← (v ← at_key value "left"; get_int v);
  top ← (v ← at_key value "top"; get_int v);
  right ← (v ← at_key value "right"; get_int v);
  bottom ← (v ← at_key value "bottom"; get_int v);
  Ok (mk_box object_id type confidence left top right bottom).

Fixpoint parse_boxes (values : list json) : res (list ServerBBox) :=
  match values with [] => Ok [] | v :: values => b ← parse_box v; bs ← parse_boxes values; Ok (b :: bs) end.

Definition parseServerBBoxes (bboxArray : json) : res (list ServerBBox) := parse_boxes (json_items bboxArray).

(** The message is sent in two calls; the second is not made when the first fails. *)
Definition send_bboxes_to_client (now : Z) : M (list TimestampedBBox * ssl) bool := fun '(b, s) =>
  let '(bboxes_to_send, processed_count, b') := take_due now b in
  match bboxes_to_send with
  | [] => (Ok true, (b', s))
  | _ =>
      match dump_string (bbox_response bboxes_to_send (Z.of_nat (length b)) processed_count) with
      | Throw e => (Throw e, (b', s))
      | Ok json_str =>
          let res_len := u32 (Z.of_nat (String.length json_str)) in
          let '(r1, s1) := sendAll s (net32 res_len) in
          if r1 =? -1 then (Ok false, (b', s1))
          else
            let '(r2, s2) := sendAll s1 (take (Z.to_nat res_len) (bytes_of json_str)) in
            (Ok (negb (r2 =? -1)), (b', s2))
      end
  end.

(** ** Numbers of the metadata *)

(** [static_cast<int>(stof(s))]. *)
Definition stof_int (s : string) : res Z := v ← stof s; int_of_double v.

(** ** The expressions *)

Definition quoted (n : nat) (r : re) (after : string) : list re := [RGroup n r; lit after].

(** [\d+\.?\d*] *)
Definition decimal : re := rseq [rplus is_digit; ROpt (fun c => code c =? 46); RStar false is_digit].

Definition attr (nm : string) : string := nm +:+ "=" +:+ quote.

Definition object_open : string := attr "<tt:Object ObjectId".
Definition box_open : string := attr "<tt:BoundingBox left".
Definition object_close : string := "</tt:Object>".
Definition id_end : string := quote +:+ ">".
Definition to_top : string := quote +:+ attr " top".
Definition to_right : string := quote +:+ attr " right".
Definition to_bottom : string := quote +:+ attr " bottom".
Definition box_end : string := quote +:+ "/>".

Definition object_regex : re :=
  RSeq (lit object_open) (rseq
   (quoted 1 (rplus is_digit) id_end ++ [RStar true not_eol; lit box_open] ++
    quoted 2 decimal to_top ++ quoted 3 decimal to_right ++ quoted 4 decimal to_bottom ++
    quoted 5 decimal box_end ++
    [RGroup 6 (RStar true not_eol); lit object_close])%list).

Definition class_open : string := "<tt:ClassCandidate>".

Definition class_regex : re :=
  RSeq (lit class_open) (rseq
   ([RStar false is_space; lit "<tt:Type>"] ++ quoted 1 (rplus is_word) "</tt:Type>" ++
    [RStar false is_space; lit "<tt:Likelihood>"] ++
    quoted 2 (rplus (fun c => is_digit c || (code c =? 46))) "</tt:Likelihood>")%list).

(** ** The parser *)

(** The type and the confidence. *)
Definition parse_class (inner_content : string) : res (string * spec_float) :=
  match regex_search class_regex inner_content with
  | Some (cs, _) => f ← stof (group cs 2); Ok (group cs 1, f)
  | None => Ok ("Unknown", S754_zero false)
  end.

(** One iteration of the loop over the matches. *)
Definition parse_object (cs : caps) : res ServerBBox :=
  i ← stoi (group cs 1);
  l ← stof_int (group cs 2);
  t ← stof_int (group cs 3);
  r ← stof_int (group cs 4);
  b ← stof_int (group cs 5);
  '(ty, conf) ← parse_class (group cs 6);
  Ok (mk_box i ty conf l t r b).

Fixpoint parse_objects (ms : list caps) : res (list ServerBBox) :=
  match ms with
  | [] => Ok []
  | cs :: ms => box ← parse_object cs; boxes ← parse_objects ms; Ok (box :: boxes)
  end.

Definition parse_packet (packet : string) : res (list ServerBBox) :=
  parse_objects (regex_iterator object_regex packet).

Definition stream_close : string := "</tt:MetadataStream>".

Record parser := mk_parser {
  xml_buffer : string;
  bbox_buffer : list TimestampedBBox;
  latest_bboxes : list ServerBBox;
  reads : nat }.

Section parsing.
(** [parser_running] and the clock, at the n-th time one of them is read. *)
Context (running : nat -> bool) (clock : nat -> Z).

Definition read_at {A} (f : nat -> A) : M parser A := fun p =>
  (Ok (f (reads p)), mk_parser (xml_buffer p) (bbox_buffer p) (latest_bboxes p) (S (reads p))).

Definition set_xml (x : string) : M parser unit :=
  modS (fun p => mk_parser x (bbox_buffer p) (latest_bboxes p) (reads p)).

(** The end of the loop body: the boxes go to the buffer and to [latest_bboxes]. *)
Definition add_boxes (boxes : list ServerBBox) : M parser unit :=
  t ← read_at clock;
  now ← read_at clock;
  modS (fun p => mk_parser (xml_buffer p) (update_bbox_buffer t now boxes (bbox_buffer p)) boxes (reads p)).

(** The inner loop: the packets that are complete. *)
Fixpoint packet_loop (fuel : nat) : M parser unit :=
  match fuel with
  | O => mret tt
  | S fuel =>
      r ← read_at running;
      if (r : bool) then
        p ← getS;
        match find_sub stream_close (xml_buffer p) with
        | None => mret tt
        | Some end_pos =>
            let packet := str_take end_pos (xml_buffer p) in
            set_xml (str_drop (end_pos + String.length stream_close) (xml_buffer p)) ;;
            parsed_boxes ← liftR (parse_packet packet);
            add_boxes parsed_boxes ;;
            packet_loop fuel
        end
      else mret tt
  end.

(** The outer loop over what [fread] returns ([xml_buffer += buffer] takes the bytes up to the first zero); the end of the list is the end of the stream.  A packet
    takes at least the closing tag off the text, so its length bounds the inner loop. *)
Fixpoint read_loop (chunks : list string) : M parser unit :=
  r ← read_at running;
  if (r : bool) then
    match chunks with
    | [] => mret tt
    | chunk :: chunks =>
        (if str_empty chunk then mret tt
         else
           p ← getS;
           let xml := xml_buffer p +:+ c_str chunk in
           set_xml xml ;;
           packet_loop (S (String.length xml))) ;;
        read_loop chunks
    end
  else mret tt.

(** [config_ok] is the result of [load_all_config], [pipe] what [popen] gives. *)
Definition parse_metadata (config_ok : bool) (pipe : option (list string)) : M parser unit :=
  r ← read_at running;
  if (r : bool) && config_ok then
    match pipe with
    | None => mret tt
    | Some chunks => set_xml "" ;; read_loop chunks
    end
  else mret tt.
End parsing.

Definition start_metadata_parser (parser_running : bool) : bool := true.
Definition stop_metadata_parser (parser_running : bool) : bool := false.

(** ** The expressions on well-formed metadata *)

(** An object as the camera writes it: the texts of its parts. *)
Record object_text := mk_object_text {
  o_before : string;
  o_id : string;
  o_gap : string;
  o_left : string;
  o_top : string;
  o_right : string;
  o_bottom : string;
  o_inner : string }.

Definition object_body (o : object_text) : string :=
  object_open +:+ o_id o +:+ id_end +:+ o_gap o +:+ box_open +:+ o_left o +:+ to_top +:+ o_top o +:+ to_right +:+
  o_right o +:+ to_bottom +:+ o_bottom o +:+ box_end +:+ o_inner o +:+ object_close.

(** An integer or a decimal number. *)
Definition decimal_text (d : string) : Prop := exists i f, d = i +:+ f /\ all_chars is_digit i = true /\ i <> ""
  /\ (f = "" \/ exists f', f = String "." f' /\ all_chars is_digit f' = true).

Record object_ok (o : object_text) : Prop := {
  ok_before : clean object_open (o_before o) = true;
  ok_id : all_chars is_digit (o_id o) = true;
  ok_id_ne : o_id o <> "";
  ok_gap : all_chars not_eol (o_gap o) = true;
  ok_gap_clean : clean box_open (o_gap o) = true;
  ok_left : decimal_text (o_left o);
  ok_top : decimal_text (o_top o);
  ok_right : decimal_text (o_right o);
  ok_bottom : decimal_text (o_bottom o);
  ok_inner : all_chars not_eol (o_inner o) = true;
  ok_inner_clean : clean object_close (o_inner o) = true }.

(** The groups of an object. *)
Definition object_caps (o : object_text) : caps :=
  [(6%nat, o_inner o); (5%nat, o_bottom o); (4%nat, o_right o); (3%nat, o_top o); (2%nat, o_left o); (1%nat, o_id o)].

Section objects.
Context {R : Type}.
Implicit Types k : string -> caps -> option R.

Lemma rmatch_decimal n d s cs k r : decimal_text d -> stops is_digit s = true -> stops (fun c => code c =? 46) s = true ->
  k s ((n, d) :: cs) = Some r -> rmatch (RGroup n decimal) (d +:+ s) cs k = Some r.
Proof.
  intros (i & f & -> & Hi & Hne & Hf) H1 H2 Hk. rewrite append_assoc. apply rmatch_group_decimal; try done.
  destruct Hf as [->|(f' & -> & Hf)]; [by left|right]. by exists "."%char, f'.
Qed.

End objects.

Lemma match_object o s : object_ok o -> match_here object_regex (object_body o +:+ s) = Some (object_caps o, s).
Proof.
  intros [_ Hi Hne Hg Hgc Hl Ht Hr Hb Hn Hnc]. unfold match_here, object_regex, object_body.
  rewrite !append_assoc, rmatch_seq, rmatch_lit.
  unfold quoted. cbn [app rseq]. rewrite rmatch_seq. apply rmatch_group_plus; [done|done|done|].
  rewrite rmatch_seq, rmatch_lit, rmatch_seq.
  apply (star_lazy_gap _ box_open); [done|by apply clean_absent|by intros s' Hs'; apply rmatch_lit_none|].
  rewrite rmatch_seq, rmatch_lit.
  do 4 (rewrite rmatch_seq; apply rmatch_decimal; [done|done|done|]; rewrite rmatch_seq, rmatch_lit).
  rewrite rmatch_seq. apply (rmatch_group_lazy _ _ object_close); [done|by apply clean_absent| |].
  - intros s' cs' Hs'. rewrite rmatch_seq. by apply rmatch_lit_none.
  - by rewrite rmatch_seq, rmatch_lit.
Qed.

(** All objects of a packet are found, in order, and nothing else. *)
Fixpoint packet_text (os : list object_text) (tail : string) : string :=
  match os with
  | [] => tail
  | o :: os => o_before o +:+ object_body o +:+ packet_text os tail
  end.

Lemma search_object o s : object_ok o -> regex_search object_regex (o_before o +:+ object_body o +:+ s) = Some (object_caps o, s).
Proof.
  intros Ho. unfold object_regex. rewrite regex_search_gap; [by apply regex_search_here, match_object|].
  unfold object_body. rewrite !append_assoc. by apply clean_absent, Ho.
Qed.

Lemma search_tail tail : absent object_open tail "" = true -> regex_search object_regex tail = None.
Proof.
  intros Ht. rewrite <- (append_nil tail). unfold object_regex. rewrite regex_search_gap by done. done.
Qed.

Lemma matches_packet os tail : Forall object_ok os -> absent object_open tail "" = true -> forall fuel,
  (length os < fuel)%nat -> matches fuel object_regex (packet_text os tail) = map object_caps os.
Proof.
  intros Hos Ht. induction Hos as [|o os Ho _ IH]; intros [|fuel] Hf; cbn in Hf; try lia; cbn [matches packet_text map].
  - by rewrite search_tail.
  - rewrite search_object by done. f_equal. apply IH. lia.
Qed.

Lemma packet_text_length os tail : (length os <= String.length (packet_text os tail))%nat.
Proof.
  induction os as [|o os IH]; cbn [length packet_text]; [lia|]. rewrite !append_length.
  unfold object_body. rewrite append_length. cbn [object_open attr String.append String.length]. lia.
Qed.

(** The class of an object, inside of its inner text. *)
Record class_text := mk_class_text {
  k_before : string;
  k_ws1 : string;
  k_type : string;
  k_ws2 : string;
  k_likelihood : string;
  k_after : string }.

Definition digit_or_dot (c : ascii) : bool := is_digit c || (code c =? 46).

Definition class_string (k : class_text) : string :=
  k_before k +:+ class_open +:+ k_ws1 k +:+ "<tt:Type>" +:+ k_type k +:+ "</tt:Type>" +:+ k_ws2 k +:+
  "<tt:Likelihood>" +:+ k_likelihood k +:+ "</tt:Likelihood>" +:+ k_after k.

Record class_ok (k : class_text) : Prop := {
  ok_class_before : clean class_open (k_before k) = true;
  ok_ws1 : all_chars is_space (k_ws1 k) = true;
  ok_type : all_chars is_word (k_type k) = true;
  ok_type_ne : k_type k <> "";
  ok_ws2 : all_chars is_space (k_ws2 k) = true;
  ok_likelihood : all_chars digit_or_dot (k_likelihood k) = true;
  ok_likelihood_ne : k_likelihood k <> "" }.

Lemma parse_class_text k : class_ok k ->
  parse_class (class_string k) = (f ← stof (k_likelihood k); Ok (k_type k, f)).
Proof.
  intros [Hb H1 Ht Htn H2 Hl Hln]. unfold parse_class, class_string, class_regex.
  rewrite regex_search_gap by (by apply clean_absent).
  rewrite (regex_search_here _ _ ([(2%nat, k_likelihood k); (1%nat, k_type k)], k_after k)); [done|].
  unfold match_here. rewrite rmatch_seq, rmatch_lit. unfold quoted. cbn [app rseq].
  rewrite rmatch_seq. apply star_greedy_all; [done|done|]. rewrite rmatch_seq, rmatch_lit, rmatch_seq.
  apply rmatch_group_plus; [done|done|done|]. rewrite rmatch_seq, rmatch_lit, rmatch_seq.
  apply star_greedy_all; [done|done|]. rewrite rmatch_seq, rmatch_lit, rmatch_seq.
  apply rmatch_group_plus; [done|done|done|]. by rewrite rmatch_seq, rmatch_lit.
Qed.

(** An object with its class, and the box it stands for: each number is the one of the text. *)
Definition with_class (o : object_text) (k : class_text) : object_text :=
  mk_object_text (o_before o) (o_id o) (o_gap o) (o_left o) (o_top o) (o_right o) (o_bottom o) (class_string k).

Definition object_box (ok : object_text * class_text) : res ServerBBox :=
  let '(o, k) := ok in
  i ← stoi (o_id o); l ← stof_int (o_left o); t ← stof_int (o_top o); r ← stof_int (o_right o);
  b ← stof_int (o_bottom o); f ← stof (k_likelihood k); Ok (mk_box i (k_type k) f l t r b).

Fixpoint all_ok {A B} (f : A -> res B) (l : list A) : res (list B) :=
  match l with
  | [] => Ok []
  | a :: l => b ← f a; bs ← all_ok f l; Ok (b :: bs)
  end.

Lemma parse_object_caps o k : class_ok k -> parse_object (object_caps (with_class o k)) = object_box (o, k).
Proof.
  intros Hk. unfold parse_object, object_box, object_caps, with_class. cbn [group Nat.eqb o_inner o_bottom o_right o_top o_left o_id].
  rewrite parse_class_text by done. unfold mbind, res_bind.
  by destruct (stoi _), (stof_int (o_left o)), (stof_int (o_top o)), (stof_int (o_right o)), (stof_int (o_bottom o)), (stof (k_likelihood k)).
Qed.

(** A packet of metadata gives exactly its objects, in order, each with the id, the four
    coordinates, the type and the likelihood written in it, whatever stands around and between them;
    and when one of these numbers is out of range the whole packet is given up with the exception of
    that number (which leaves the parser thread, and so ends the process). *)
Theorem parse_packet_objects (os : list (object_text * class_text)) (tail : string) :
  Forall (fun ok => class_ok (snd ok) /\ object_ok (with_class (fst ok) (snd ok))) os ->
  absent object_open tail "" = true ->
  parse_packet (packet_text (map (fun ok => with_class (fst ok) (snd ok)) os) tail) = all_ok object_box os.
Proof.
  intros Hos Ht. unfold parse_packet, regex_iterator. rewrite matches_packet; [| |done|].
  - induction Hos as [|[o k] os [Hk Ho] _ IH]; [done|]. cbn [map parse_objects all_ok fst snd].
    by rewrite parse_object_caps, IH.
  - apply Forall_map. eapply Forall_impl; [done|]. by intros ok [_ Ho].
  - match goal with |- (length ?l < _)%nat => pose proof (packet_text_length l tail) end. lia.
Qed.

Definition some_object : object_text * class_text :=
  (mk_object_text "<tt:Frame>" "12" "<tt:Appearance><tt:Shape>" "1.5" "20" "300.25" "4000." "",
   mk_class_text "<tt:Class>" " " "Human" "" "0.75" "</tt:ClassCandidate></tt:Class>").

Lemma parse_packet_objects_witness :
  parse_packet (packet_text [with_class (fst some_object) (snd some_object); with_class (fst some_object) (snd some_object)]
    "</tt:Frame>")
  = Ok (let box := mk_box 12 "Human" (S754_finite false 12582912 (-24)) 1 20 300 4000 in [box; box]).
Proof.
  transitivity (all_ok object_box [some_object; some_object]); [|by vm_compute].
  apply (parse_packet_objects [some_object; some_object] "</tt:Frame>").
  - assert (H : class_ok (snd some_object) /\ object_ok (with_class (fst some_object) (snd some_object))); [|apply Forall_cons_2; [exact H|apply Forall_cons_2; [exact H|constructor]]].
    split; constructor; try (by vm_compute).
    + by exists "1", ".5"; split_and!; [..|right; exists "5"].
    + by exists "20", ""; split_and!; [..|left].
    + by exists "300", ".25"; split_and!; [..|right; exists "25"].
    + by exists "4000", "."; split_and!; [..|right; exists ""].
  - by vm_compute.
Defined.

(** ** The stream in chunks *)

(** The complete packets of a text, and the rest. *)
Fixpoint split_stream (fuel : nat) (s : string) : list string * string :=
  match fuel with
  | O => ([], s)
  | S fuel =>
      match find_sub stream_close s with
      | None => ([], s)
      | Some e =>
          let '(ps, r) := split_stream fuel (str_drop (e + String.length stream_close) s) in
          (str_take e s :: ps, r)
      end
  end.

Definition split_packets (s : string) : list string * string := split_stream (S (String.length s)) s.

Lemma str_drop_app_le n s t : (n <= String.length s)%nat -> str_drop n (s +:+ t) = str_drop n s +:+ t.
Proof. revert s. induction n as [|n IH]; intros [|c s] Hn; cbn in Hn; try (done || lia). rewrite append_cons. cbn. apply IH. lia. Qed.

Lemma str_take_app_le n s t : (n <= String.length s)%nat -> str_take n (s +:+ t) = str_take n s.
Proof. revert s. induction n as [|n IH]; intros [|c s] Hn; cbn in Hn; try (done || lia). rewrite append_cons. cbn. by rewrite IH by lia. Qed.

(** Splitting does not depend on the fuel, and may be done piece by piece. *)
Lemma split_stream_fuel f : forall f' s, (String.length s < f)%nat -> (String.length s < f')%nat ->
  split_stream f s = split_stream f' s.
Proof.
  induction f as [|f IH]; intros [|f'] s Hf Hf'; try lia. cbn [split_stream].
  destruct (find_sub stream_close s) as [e|] eqn:E; [|done]. apply find_sub_bound in E.
  rewrite (IH f'); [done|..]; rewrite str_drop_length; cbn [stream_close String.length] in *; lia.
Qed.

Lemma split_packets_eq s : split_packets s =
  match find_sub stream_close s with
  | None => ([], s)
  | Some e => let '(ps, r) := split_packets (str_drop (e + String.length stream_close) s) in (str_take e s :: ps, r)
  end.
Proof.
  unfold split_packets at 1. cbn [split_stream]. destruct (find_sub stream_close s) as [e|] eqn:E; [|done].
  apply find_sub_bound in E. unfold split_packets.
  erewrite split_stream_fuel; [done|..]; rewrite ?str_drop_length; cbn [stream_close String.length] in *; lia.
Qed.

Lemma split_packets_app s t : split_packets (s +:+ t) =
  let '(ps, r) := split_packets s in let '(qs, r') := split_packets (r +:+ t) in ((ps ++ qs)%list, r').
Proof.
  remember (String.length s) as n eqn:Hn. revert s Hn. induction n as [n IH] using lt_wf_ind. intros s ->.
  rewrite (split_packets_eq s). destruct (find_sub stream_close s) as [e|] eqn:E.
  - rewrite split_packets_eq, (find_sub_app _ _ _ _ E). apply find_sub_bound in E.
    rewrite str_drop_app_le, str_take_app_le by lia.
    rewrite (IH (String.length (str_drop (e + String.length stream_close) s))); [| |done].
    + destruct (split_packets (str_drop _ s)) as [ps r]. by destruct (split_packets (r +:+ t)).
    + rewrite str_drop_length. cbn [stream_close String.length] in *. lia.
  - by destruct (split_packets (s +:+ t)).
Qed.

(** The buffer after packets whose boxes were added at the given times. *)
Definition add_all (b : list TimestampedBBox) (added : list (Z * Z * list ServerBBox)) : list TimestampedBBox :=
  foldl (fun b '(t, now, boxes) => update_bbox_buffer t now boxes b) b added.

Section stream.
Context (clock : nat -> Z).

(** The packets were added, in order, each at a time of the clock. *)
Definition added_from (p p' : parser) (boxes : list (list ServerBBox)) : Prop :=
  exists added, map snd added = boxes
  /\ Forall (fun '(t, now, _) => exists n, t = clock n /\ now = clock (S n)) added
  /\ bbox_buffer p' = add_all (bbox_buffer p) added
  /\ latest_bboxes p' = default (latest_bboxes p) (last boxes).

Lemma added_app p p1 p2 b1 b2 : added_from p p1 b1 -> added_from p1 p2 b2 -> added_from p p2 (b1 ++ b2)%list.
Proof.
  intros (a1 & M1 & F1 & B1 & L1) (a2 & M2 & F2 & B2 & L2). exists (a1 ++ a2)%list. split_and!.
  - by rewrite map_app, M1, M2.
  - by apply Forall_app.
  - rewrite B2, B1. unfold add_all. by rewrite foldl_app.
  - rewrite L2, L1, last_app. by destruct (last b2).
Qed.

Lemma all_ok_app {A B} (f : A -> res B) l l' : all_ok f (l ++ l') = (a ← all_ok f l; b ← all_ok f l'; Ok (a ++ b)%list).
Proof.
  induction l as [|x l IH]; cbn; [by destruct (all_ok f l')|]. destruct (f x); [|done]. cbn. rewrite IH.
  destruct (all_ok f l); [|done]. cbn. by destruct (all_ok f l').
Qed.

Lemma packet_loop_run fuel : forall p boxes, (String.length (xml_buffer p) < fuel)%nat ->
  all_ok parse_packet (fst (split_packets (xml_buffer p))) = Ok boxes ->
  exists p', packet_loop (fun _ => true) clock fuel p = (Ok tt, p')
  /\ xml_buffer p' = snd (split_packets (xml_buffer p)) /\ added_from p p' boxes.
Proof.
  induction fuel as [|fuel IH]; intros p boxes Hf Hb; [lia|]. cbn [packet_loop].
  unfold mbind, M_bind, read_at, getS. cbn [xml_buffer]. rewrite split_packets_eq in *.
  destruct (find_sub stream_close (xml_buffer p)) as [e|] eqn:E.
  2: { cbn in Hb. injection Hb as <-. eexists. split; [done|]. split; [done|]. by exists []. }
  apply find_sub_bound in E. set (rest := str_drop _ (xml_buffer p)) in *. unfold set_xml, modS, liftR.
  cbn [bbox_buffer latest_bboxes reads].
  destruct (split_packets rest) as [ps r] eqn:Es. cbn [fst snd all_ok] in *.
  destruct (parse_packet (str_take e (xml_buffer p))) as [bs|]; [|done]. cbn [mbind res_bind] in Hb.
  destruct (all_ok parse_packet ps) as [bss|] eqn:Eb; [|done]. cbn in Hb. injection Hb as <-.
  unfold add_boxes, mbind, M_bind, read_at, modS. cbn [xml_buffer bbox_buffer latest_bboxes reads].
  match goal with |- context [packet_loop _ _ _ ?q] => destruct (IH q bss) as (p' & E' & X' & A') end.
  - cbn [xml_buffer]. subst rest. rewrite str_drop_length. cbn [stream_close String.length] in *. lia.
  - cbn [xml_buffer]. by rewrite Es.
  - exists p'. split; [done|]. cbn [xml_buffer] in X'. rewrite Es in X'. split; [done|].
    change (bs :: bss) with ([bs] ++ bss)%list. eapply added_app; [|done].
    eexists [(_, _, bs)]. cbn. split; [done|]. split; [|done]. constructor; [|done]. by eexists.
Qed.

Definition join (chunks : list string) : string := foldr String.append "" chunks.

Lemma split_rest s : split_packets (snd (split_packets s)) = ([], snd (split_packets s)).
Proof.
  remember (String.length s) as n eqn:Hn. revert s Hn. induction n as [n IH] using lt_wf_ind. intros s ->.
  rewrite (split_packets_eq s). destruct (find_sub stream_close s) as [e|] eqn:E.
  - apply find_sub_bound in E. specialize (IH (String.length (str_drop (e + String.length stream_close) s))).
    rewrite str_drop_length in IH. cbn [stream_close String.length] in *.
    specialize (IH ltac:(lia) _ ltac:(by rewrite str_drop_length)). cbn [stream_close String.length] in IH.
    by destruct (split_packets (str_drop _ s)).
  - cbn [snd]. by rewrite split_packets_eq, E.
Qed.

Lemma read_loop_run chunks : Forall (fun s => all_chars (fun c => negb (code c =? 0)) s = true) chunks ->
  forall p boxes, split_packets (xml_buffer p) = ([], xml_buffer p) ->
  all_ok parse_packet (fst (split_packets (xml_buffer p +:+ join chunks))) = Ok boxes ->
  exists p', read_loop (fun _ => true) clock chunks p = (Ok tt, p')
  /\ xml_buffer p' = snd (split_packets (xml_buffer p +:+ join chunks)) /\ added_from p p' boxes.
Proof.
  induction 1 as [|c chunks Hc _ IH]; intros p boxes Hi Hb; cbn [read_loop join foldr] in *;
    unfold mbind, M_bind, read_at; cbn [xml_buffer bbox_buffer latest_bboxes reads].
  { rewrite append_nil in *. rewrite Hi in *. cbn in Hb. injection Hb as <-. eexists. split; [done|]. split; [done|]. by exists []. }
  fold (join chunks) in *. destruct (str_empty c) eqn:Ec.
  { destruct c; [|done]. unfold mret, M_ret.
    match goal with |- context [read_loop _ _ _ ?q] => destruct (IH q boxes Hi Hb) as (p' & E' & X' & A') end.
    by exists p'. }
  unfold getS, set_xml, modS. cbn [xml_buffer bbox_buffer latest_bboxes reads]. rewrite c_str_id by done.
  rewrite <- append_assoc, split_packets_app in Hb. rewrite <- append_assoc, split_packets_app.
  destruct (split_packets (xml_buffer p +:+ c)) as [ps r] eqn:Es.
  destruct (split_packets (r +:+ join chunks)) as [qs r'] eqn:Eq. cbn [fst snd] in *. rewrite all_ok_app in Hb.
  destruct (all_ok parse_packet ps) as [b1|] eqn:E1; [|done]. cbn [mbind res_bind] in Hb.
  destruct (all_ok parse_packet qs) as [b2|] eqn:E2; [|done]. cbn in Hb. injection Hb as <-.
  match goal with |- context [packet_loop _ _ ?f ?q] =>
    destruct (packet_loop_run f q b1 ltac:(cbn; lia) ltac:(cbn [xml_buffer]; by rewrite Es)) as (p1 & -> & X1 & A1) end.
  cbn [xml_buffer] in X1. rewrite Es in X1. cbn in X1. pose proof (split_rest (xml_buffer p +:+ c)) as Hr. rewrite Es in Hr. cbn in Hr.
  destruct (IH p1 b2) as (p2 & -> & X2 & A2); [by rewrite X1|by rewrite X1, Eq|].
  rewrite X1, Eq in X2. exists p2. split; [done|]. split; [done|]. by eapply added_app.
Qed.
End stream.

(** C34: however the stream of metadata is cut into reads, each complete packet is parsed exactly
    once and in order: its boxes enter the buffer at a time of the clock, the last ones become
    [latest_bboxes], and the text behind the last complete packet is kept.  (No read holds a zero
    byte, and no number of the packets is out of range.) *)
Theorem parse_metadata_chunks (clock : nat -> Z) (chunks : list string) (p : parser) (boxes : list (list ServerBBox)) :
  Forall (fun s => all_chars (fun c => negb (code c =? 0)) s = true) chunks ->
  all_ok parse_packet (fst (split_packets (join chunks))) = Ok boxes ->
  exists p', parse_metadata (fun _ => true) clock true (Some chunks) p = (Ok tt, p')
  /\ xml_buffer p' = snd (split_packets (join chunks)) /\ added_from clock p p' boxes.
Proof.
  intros Hc Hb. unfold parse_metadata, mbind, M_bind, read_at, set_xml, modS. cbn [andb xml_buffer bbox_buffer latest_bboxes reads].
  match goal with |- context [read_loop _ _ _ ?q] => destruct (read_loop_run clock chunks Hc q boxes) as (p' & E & X & A); [done|done|] end.
  by exists p'.
Qed.

(** Two packets, the first with one object, cut inside of a tag. *)
Lemma parse_metadata_chunks_witness :
  let text := packet_text [with_class (fst some_object) (snd some_object)] "" +:+ stream_close +:+ "<a/>" +:+ stream_close +:+ "<b" in
  exists p', parse_metadata (fun _ => true) (fun n => Z.of_nat n) true
      (Some [str_take 300 text; ""; str_drop 300 text]) (mk_parser "" [] [] 0) = (Ok tt, p')
  /\ xml_buffer p' = "<b" /\ map (fun i => length (bboxes i)) (bbox_buffer p') = [1; 0]%nat.
Proof.
  intros text. set (box := mk_box 12 "Human" (S754_finite false 12582912 (-24)) 1 20 300 4000).
  destruct (parse_metadata_chunks (fun n => Z.of_nat n) [str_take 300 text; ""; str_drop 300 text] (mk_parser "" [] [] 0)
    [[box]; []]) as (p' & E & X & _).
  - repeat constructor; by vm_compute.
  - by vm_compute.
  - exists p'. split; [exact E|]. split; [rewrite X; by vm_compute|].
    apply (f_equal (fun x => map (fun i => length (bboxes i)) (bbox_buffer (snd x)))) in E. cbn [snd] in E. rewrite <- E. by vm_compute.
Defined.

Local Open Scope list_scope.
Local Open Scope Z_scope.

(** ** The buffer *)

Definition lastn {A} (n : nat) (l : list A) : list A := drop (length l - n) l.

Lemma trim_lastn b : trim b = lastn 50 b.
Proof.
  unfold lastn. induction b as [|x b IH]; [done|]. cbn [trim length].
  destruct (Nat.ltb_spec 50 (S (length b))) as [Hl|Hl].
  - rewrite IH. replace (S (length b) - 50)%nat with (S (length b - 50)) by lia. done.
  - by replace (S (length b) - 50)%nat with 0%nat by lia.
Qed.

Lemma age_mono now t t' : t <= t' -> age_ms now t' <= age_ms now t.
Proof. intros Ht. unfold age_ms. apply Z.quot_le_mono; lia. Qed.

Lemma age_delay now t : bbox_buffer_delay_ms <= age_ms now t -> t + 2000000000 <= now.
Proof.
  intros Ha. destruct (Z.le_gt_cases (t + 2000000000) now) as [|Hlt]; [done|].
  pose proof (Z.quot_le_mono (now - t) 1999999999 1000000 ltac:(lia) ltac:(lia)) as Hq.
  change (1999999999 ÷ 1000000) with 1999 in Hq. unfold age_ms, bbox_buffer_delay_ms in Ha. lia.
Qed.

Definition fresh (now : Z) (i : TimestampedBBox) : bool := age_ms now (stamp i) <=? 10000.

Lemma filter_all {A} (p : A -> bool) l : Forall (fun x => p x = true) l -> List.filter p l = l.
Proof. induction 1 as [|x l Hx _ IH]; cbn; [done|]. by rewrite Hx, IH. Qed.

Lemma drop_old_filter now b : StronglySorted (fun i j => stamp i <= stamp j) b ->
  drop_old now b = List.filter (fresh now) b.
Proof.
  induction 1 as [|i b Hs IH Hi]; [done|]. cbn [drop_old List.filter]. unfold fresh at 1.
  destruct (Z.ltb_spec 10000 (age_ms now (stamp i))) as [H|H], (Z.leb_spec (age_ms now (stamp i)) 10000); try lia; [done|].
  rewrite filter_all; [done|]. eapply Forall_impl; [done|]. intros j Hj. unfold fresh. apply Z.leb_le.
  pose proof (age_mono now _ _ Hj). lia.
Qed.

(** Adding boxes keeps exactly the last 50 of the items at most ten seconds old, the new one
    among them; so no item is lost while fewer than 50 wait and none is older than ten seconds. *)
Theorem update_bbox_buffer_keeps (t now : Z) (boxes : list ServerBBox) (b : list TimestampedBBox) :
  StronglySorted (fun i j => stamp i <= stamp j) (b ++ [mk_item t boxes]) ->
  update_bbox_buffer t now boxes b = lastn 50 (List.filter (fresh now) (b ++ [mk_item t boxes]))
  /\ (t <= now <= t + 10000000000 -> last (update_bbox_buffer t now boxes b) = Some (mk_item t boxes))
  /\ (Forall (fun i => fresh now i = true) (b ++ [mk_item t boxes]) -> (length b < 50)%nat ->
      update_bbox_buffer t now boxes b = b ++ [mk_item t boxes])%list.
Proof.
  intros Hs. unfold update_bbox_buffer. rewrite trim_lastn, drop_old_filter by done. split; [done|]. split.
  - intros Ht. rewrite List.filter_app. cbn [List.filter].
    assert (fresh now (mk_item t boxes) = true) as ->.
    { unfold fresh, age_ms. cbn [stamp]. apply Z.leb_le. apply Z.quot_le_upper_bound; lia. }
    unfold lastn. rewrite length_app. cbn [length]. rewrite drop_app_le by lia. apply last_snoc.
  - intros Hf Hl. rewrite filter_all by done. unfold lastn. rewrite length_app. cbn [length].
    by replace (length b + 1 - 50)%nat with 0%nat by lia.
Qed.

Lemma update_bbox_buffer_keeps_witness :
  update_bbox_buffer 3000000000 3000000000 [] [mk_item 1 []; mk_item 2 []]
  = [mk_item 1 []; mk_item 2 []; mk_item 3000000000 []].
Proof.
  apply (update_bbox_buffer_keeps 3000000000 3000000000 [] [mk_item 1 []; mk_item 2 []]).
  - repeat constructor; cbn; lia.
  - repeat constructor; by vm_compute.
  - cbn. lia.
Defined.

(** ** Delivery *)

Inductive bbox_op := op_update (t now : Z) (boxes : list ServerBBox) | op_send (now : Z) | op_clear.

(** The buffer, and what was delivered when. *)
Fixpoint run_ops (ops : list bbox_op) (b : list TimestampedBBox) : list TimestampedBBox * list (Z * list ServerBBox) :=
  match ops with
  | [] => (b, [])
  | op_update t now boxes :: ops => run_ops ops (update_bbox_buffer t now boxes b)
  | op_send now :: ops =>
      let '(boxes, n, b) := take_due now b in
      let '(b, out) := run_ops ops b in
      (b, if n =? 0 then out else (now, boxes) :: out)
  | op_clear :: ops => run_ops ops (clear_bbox_buffer b)
  end.

Fixpoint pushed (ops : list bbox_op) : list TimestampedBBox :=
  match ops with
  | [] => []
  | op_update t _ boxes :: ops => mk_item t boxes :: pushed ops
  | _ :: ops => pushed ops
  end.

Lemma drop_old_suffix now b : suffix (drop_old now b) b.
Proof. induction b as [|i b IH]; cbn; [done|]. destruct (_ <? _); [by apply suffix_cons_r|done]. Qed.

Lemma update_suffix t now boxes b : suffix (update_bbox_buffer t now boxes b) (b ++ [mk_item t boxes]).
Proof.
  unfold update_bbox_buffer. rewrite trim_lastn. transitivity (drop_old now (b ++ [mk_item t boxes])); [|apply drop_old_suffix].
  unfold lastn. apply suffix_drop.
Qed.

Lemma update_length t now boxes b : (length (update_bbox_buffer t now boxes b) <= 50)%nat.
Proof. unfold update_bbox_buffer. rewrite trim_lastn. unfold lastn. rewrite length_drop. lia. Qed.

Lemma suffix_sublist {A} (l k : list A) : suffix l k -> sublist l k.
Proof. intros [l' ->]. by apply sublist_inserts_l. Qed.

(** C14: whatever the order of parser, sender and clean-up: what is delivered was put into the buffer
    before, in the same order, each item at most once and not before its two seconds of delay; and
    never more than 50 items wait. *)
Theorem bbox_delivery (ops : list bbox_op) (b : list TimestampedBBox) (out : list (Z * list ServerBBox)) :
  run_ops ops [] = (b, out) -> (length b <= 50)%nat
  /\ exists items, sublist (items ++ b) (pushed ops)
     /\ Forall2 (fun '(now, boxes) i => bboxes i = boxes /\ stamp i + 2000000000 <= now) out items.
Proof.
  intros E. enough (H : forall b0, (length b0 <= 50)%nat -> run_ops ops b0 = (b, out) -> (length b <= 50)%nat
    /\ exists items, sublist (items ++ b) (b0 ++ pushed ops)
      /\ Forall2 (fun '(now, boxes) i => bboxes i = boxes /\ stamp i + 2000000000 <= now) out items).
  { apply (H [] ltac:(cbn; lia) E). }
  clear E. revert b out. induction ops as [|[t now boxes|now|] ops IH]; intros b out b0 Hl; cbn [run_ops pushed].
  - intros [= <- <-]. split; [done|]. exists []. by rewrite app_nil_r.
  - intros E. destruct (IH _ _ _ (update_length t now boxes b0) E) as (Hb & items & Hs & Hf). split; [done|].
    exists items. split; [|done]. rewrite Hs. change (mk_item t boxes :: pushed ops) with ([mk_item t boxes] ++ pushed ops)%list.
    rewrite app_assoc. apply sublist_app; [|done]. apply suffix_sublist, update_suffix.
  - unfold take_due. destruct b0 as [|i b0].
    { destruct (run_ops ops []) as [b' o'] eqn:E. intros [= <- <-]. by apply (IH _ _ [] Hl). }
    destruct (Z.leb_spec bbox_buffer_delay_ms (age_ms now (stamp i))) as [Ha|Ha].
    2: { destruct (run_ops ops (i :: b0)) as [b' o'] eqn:E. intros [= <- <-]. by apply (IH _ _ (i :: b0) Hl). }
    destruct (run_ops ops b0) as [b' o'] eqn:E. intros [= <- <-].
    destruct (IH _ _ b0 ltac:(cbn in Hl; lia) E) as (Hb & items & Hs & Hf). split; [done|].
    exists (i :: items). split; [by apply sublist_skip|]. constructor; [|done]. split; [done|]. by apply age_delay.
  - intros E. destruct (IH _ _ [] ltac:(cbn; lia) E) as (Hb & items & Hs & Hf). split; [done|]. exists items. split; [|done].
    rewrite Hs. by apply sublist_inserts_l.
Qed.

Lemma bbox_delivery_witness :
  let ops := [op_update 1 1 []; op_send 5; op_update 7 7 []; op_send 2000000001; op_send 2000000002] in
  snd (run_ops ops []) = [(2000000001, [])] /\ (length (fst (run_ops ops [])) <= 50)%nat.
Proof.
  intros ops. split; [by vm_compute|].
  apply (bbox_delivery ops (fst (run_ops ops [])) (snd (run_ops ops []))). by destruct (run_ops ops []).
Defined.

(** ** The reader of boxes in the header *)

(** [parseServerBBoxes] does not read the boxes that the server sends: it looks for other keys, and throws for every list
    but the empty one.  Boxes written with the keys it looks for are read back. *)
Theorem boxes_sent_not_read (box : ServerBBox) (boxes : list ServerBBox) :
  parseServerBBoxes (JArray (map box_json (box :: boxes))) = Throw (json_out_of_range 403) /\
  parseServerBBoxes (make_obj [("b", make_obj [("object_id", JInt 7); ("type", JString (type box)); ("confidence", JFloat (S754_zero false)); ("left", JInt 1);
    ("top", JInt 2); ("right", JInt 3); ("bottom", JInt 4)])]) = Ok [mk_box 7 (type box) (S754_zero false) 1 2 3 4].
Proof. done. Qed.
