(* ===== verification/TcpServer.v ===== *)
(** * tcp_server.cpp: messages, routing and the life of a connection

    Framed messages, the dispatch on [request_id], the two requests that start and stop the bounding
    box threads, the clean-up and the loop of [handle_client].  An exception the loop does not catch
    leaves the thread function and so ends the process. *)

From S2P Require Import Prelude Str Utils Json JsonText JsonSpec JsonWf OtpUri Otp Hash Ssl Db OtpManager Handlers Bbox.
From Stdlib Require Import Ascii.
From Stdlib Require String.

Local Open Scope string_scope.
Local Open Scope Z_scope.

(** ** Threads of a connection *)

(** The variables of [handle_client], and the flag [parser_running] and the buffer of boxes, which all
    connections share. *)
Record conn := mk_conn {
  bbox_push_enabled : bool;
  push_joinable : bool;
  metadata_joinable : bool;
  parser_running : bool;
  shared_buffer : list TimestampedBBox }.

Definition new_conn (running : bool) (b : list TimestampedBBox) : conn := mk_conn false false false running b.

(** Assigning to a joinable [std::thread] ends the process. *)
Definition thread_assign (joinable : bool) : res bool :=
  if joinable then Throw (logic_error "std::terminate") else Ok true.

Definition handle_bbox_start_request (c : conn) : res conn :=
  if bbox_push_enabled c then Ok c
  else
    m ← thread_assign (metadata_joinable c);
    p ← thread_assign (push_joinable c);
    Ok (mk_conn true p m (start_metadata_parser (parser_running c)) (shared_buffer c)).

(** [join] returns when the thread function does: the push thread ends when its flag is cleared, the
    metadata thread when [parser_running] is, or when its stream ends; the read the thread may be in
    when the flag is cleared is taken to return.  [None] is a [join] that waits
    on a thread nobody stops; [stream_ends] tells whether the stream ends by itself. *)
Definition join_metadata (stream_ends : bool) (c : conn) : option conn :=
  if metadata_joinable c && parser_running c && negb stream_ends then None
  else Some (mk_conn (bbox_push_enabled c) (push_joinable c) false (parser_running c) (shared_buffer c)).

Definition join_push (c : conn) : option conn :=
  if push_joinable c && bbox_push_enabled c then None
  else Some (mk_conn (bbox_push_enabled c) false (metadata_joinable c) (parser_running c) (shared_buffer c)).

Definition set_push (b : bool) (c : conn) : conn :=
  mk_conn b (push_joinable c) (metadata_joinable c) (parser_running c) (shared_buffer c).
Definition set_running (b : bool) (c : conn) : conn :=
  mk_conn (bbox_push_enabled c) (push_joinable c) (metadata_joinable c) b (shared_buffer c).
Definition clear_buffer (c : conn) : conn :=
  mk_conn (bbox_push_enabled c) (push_joinable c) (metadata_joinable c) (parser_running c) (clear_bbox_buffer (shared_buffer c)).

Definition handle_bbox_stop_request (stream_ends : bool) (c : conn) : option conn :=
  if bbox_push_enabled c then
    c ← join_push (set_push false c);
    c ← join_metadata stream_ends (set_running (stop_metadata_parser (parser_running c)) c);
    Some (clear_buffer c)
  else Some c.

Definition cleanup_client_connection (stream_ends : bool) (c : conn) : option conn :=
  c ← join_push (set_push false c);
  join_metadata stream_ends c.

(** ** Messages *)

(** [ntohl] of the four bytes read. *)
Definition of_net32 (bs : list Z) : Z := foldl (fun n b => 256 * n + b) 0 bs.

Section server.
Context {D : Type} `{Sqlite D} `{Pwhash}.
Context (algos : gmap string Algo_info) (char_signed : bool).

(** [Ok None] is [false]. *)
Definition receive_json_message (s : ssl) : res (option json) * ssl :=
  match recvAll s 4 with
  | (None, s) => (Ok None, s)
  | (Some net_len, s) =>
      let json_len := of_net32 net_len in
      if json_len =? 0 then (Ok None, s)
      else
        match recvAll s (Z.to_nat json_len) with
        | (None, s) => (Ok None, s)
        | (Some json_buffer, s) => (Some <$> parse_string (string_of json_buffer), s)
        end
  end.

Definition initialize_database_tables : M D unit :=
  create_table_detections ;; create_table_lines ;; create_table_baseLines ;;
  create_table_verticalLineEquations ;; create_table_accounts ;; create_table_recovery_codes.

(** The state a connection works on. *)
Definition state : Type := world D * conn.

Definition on_world {A} (m : M (world D) A) : M state A := fun st =>
  let '(r, w) := m (fst st) in (r, (w, snd st)).

Definition on_conn (r : conn -> res conn) : M state unit := fun st =>
  match r (snd st) with
  | Ok c => (Ok tt, (fst st, c))
  | Throw e => (Throw e, st)
  end.

(** The stop request in the dispatch: its [join]s return, as [stop_returns] below shows. *)
Definition stop_request (c : conn) : res conn := Ok (default c (handle_bbox_stop_request false c)).

Definition route_request (e : env) (j : json) : M state unit :=
  request_id ← liftR (json_value get_int j "request_id" (-1));
  match request_id with
  | 1 => on_world (handle_detection_request j)
  | 2 => on_world (handle_line_insert_request j)
  | 3 => on_world (handle_line_select_all_request e j)
  | 4 => on_world (handle_line_delete_all_request e j)
  | 5 => on_world (handle_baseline_insert_request j)
  | 6 => on_world (handle_vertical_line_insert_request j)
  | 7 => on_world (handle_baseline_select_all_request j)
  | 8 => on_world (handle_login_step1_request algos j)
  | 9 => on_world (handle_signup_request algos char_signed e j)
  | 22 => on_world (handle_login_step2_request e j)
  | 31 => on_conn handle_bbox_start_request
  | 32 => on_conn stop_request
  | _ => mret tt
  end.

(** ** The loop *)

(** The [try] block: the log, whose text may throw, and the dispatch. *)
Definition handle_message (e : env) (received_json : json) : M state unit :=
  _ ← liftR (dump_pretty 2 received_json 0);
  route_request e received_json.

(** How [handle_client] ends: after its clean-up, by an exception nobody catches, or not at all,
    waiting in the clean-up for the metadata thread.  [Running] is left only when the fuel is used up. *)
Inductive outcome := Closed | Terminated (e : exn) | Waiting | Running.

(** [envs] gives the surroundings of each request. *)
Fixpoint client_loop (fuel : nat) (envs : nat -> env) (st : state) : outcome * state :=
  match fuel with
  | O => (Running, st)
  | S fuel =>
      let '(w, c) := st in
      let '(r, s) := receive_json_message (w_ssl w) in
      let st := (mk_world (w_db w) (w_otp w) s (w_camera w), c) in
      match r with
      | Throw e => (Terminated e, st)
      | Ok None => (Closed, st)
      | Ok (Some j) =>
          match try_catch (handle_message (envs 0%nat) j) is_json_parse_error (fun _ => mret tt) st with
          | (Ok _, st) => client_loop fuel (fun k => envs (S k)) st
          | (Throw e, st) => (Terminated e, st)
          end
      end
  end.

(** The loop and the clean-up.  Every message takes at least five bytes of what arrives. *)
Definition serve (envs : nat -> env) (stream_ends : bool) (st : state) : outcome * state :=
  match client_loop (S (length (arriving (incoming (w_ssl (fst st)))))) envs st with
  | (Closed, (w, c)) =>
      match cleanup_client_connection stream_ends c with
      | Some c => (Closed, (w, c))
      | None => (Waiting, (w, c))
      end
  | r => r
  end.

(** What OpenSSL answers when the connection is set up: [SSL_new], [SSL_accept]. *)
Record handshake := mk_handshake { ssl_new : bool; ssl_accept : bool }.

(** [None] is the null pointer. *)
Definition setup_ssl_connection (h : handshake) (s : ssl) : option ssl :=
  if negb (ssl_new h) then None
  else if negb (ssl_accept h) then None
  else Some s.

Definition handle_client (h : handshake) (envs : nat -> env) (stream_ends : bool) (running : bool) (b : list TimestampedBBox)
    (w : world D) : outcome * state :=
  match setup_ssl_connection h (w_ssl w) with
  | None => (Closed, (w, new_conn running b))
  | Some _ =>
      let '(r, w) := on_db initialize_database_tables w in
      match r with
      | Throw e => (Terminated e, (w, new_conn running b))
      | Ok _ => serve envs stream_ends (w, new_conn running b)
      end
  end.
End server.

(** ** Threads: lemmas *)

Lemma stop_returns b c : exists c', handle_bbox_stop_request b c = Some c'.
Proof.
  unfold handle_bbox_stop_request. destruct (bbox_push_enabled c); [|by eexists].
  unfold join_push. cbn. rewrite andb_false_r. cbn. unfold join_metadata. cbn. rewrite andb_false_r. by eexists.
Qed.

(** Both threads exist exactly while the flag is set, and then the parser runs. *)
Definition conn_ok (c : conn) : Prop :=
  push_joinable c = bbox_push_enabled c /\ metadata_joinable c = bbox_push_enabled c
  /\ (bbox_push_enabled c = true -> parser_running c = true).

Inductive conn_request := start | stop.

#[export] Instance conn_request_eq_dec : EqDecision conn_request.
Proof. solve_decision. Defined.

Definition conn_step (r : conn_request) (c : conn) : res conn :=
  match r with start => handle_bbox_start_request c | stop => stop_request c end.

Lemma conn_step_ok r c : conn_ok c -> exists c', conn_step r c = Ok c' /\ conn_ok c'
  /\ bbox_push_enabled c' = match r with start => true | stop => false end.
Proof.
  unfold conn_ok. destruct c as [e p m g bf]. cbn. intros (-> & -> & Hg).
  destruct r, e; cbn; eexists; split_and!; auto.
Qed.

Fixpoint run_conn (rs : list conn_request) (c : conn) : res conn :=
  match rs with [] => Ok c | r :: rs => c ← conn_step r c; run_conn rs c end.

Lemma run_conn_ok rs : forall c, conn_ok c -> exists c', run_conn rs c = Ok c' /\ conn_ok c'
  /\ bbox_push_enabled c' = match last rs with Some start => true | Some stop => false | None => bbox_push_enabled c end.
Proof.
  induction rs as [|r rs IH]; intros c Hc; cbn [run_conn]; [by exists c|].
  destruct (conn_step_ok r c Hc) as (c1 & -> & H1 & E1). cbn [mbind res_bind].
  destruct (IH c1 H1) as (c2 & -> & H2 & E2). exists c2. split_and!; [done..|]. rewrite E2, E1.
  rewrite last_cons. by destruct (last rs), r.
Qed.

(** C33: on one connection, whatever sequence of start and stop requests is made, no thread object is
    overwritten while its thread runs (which would end the process), and both threads exist exactly
    when the last request was a start. *)
Theorem bbox_threads_safe (running : bool) (b : list TimestampedBBox) (rs : list conn_request) :
  exists c, run_conn rs (new_conn running b) = Ok c
  /\ push_joinable c = bool_decide (last rs = Some start)
  /\ metadata_joinable c = bool_decide (last rs = Some start).
Proof.
  destruct (run_conn_ok rs (new_conn running b)) as (c & E & (Hp & Hm & _) & He); [done|]. exists c. split; [done|].
  rewrite Hp, Hm, He. by destruct (last rs) as [[]|].
Qed.

(** A client that started the bounding boxes and goes away without stopping them leaves its
    handler thread waiting, while the stream lasts and no other client stops the parser: the clean-up
    clears the push flag but not [parser_running], and joins the metadata thread. *)
Theorem cleanup_waits_for_parser (running : bool) (b : list TimestampedBBox) (rs : list conn_request) (c : conn) :
  last rs = Some start -> run_conn rs (new_conn running b) = Ok c ->
  cleanup_client_connection false c = None.
Proof.
  intros Hl Hr. destruct (run_conn_ok rs (new_conn running b)) as (c' & E & (H1 & H2 & H3) & He); [done|].
  rewrite Hr in E. injection E as <-. rewrite Hl in He. destruct c as [e p m g bf]. cbn in *. subst.
  by rewrite H3.
Qed.

Lemma cleanup_waits_for_parser_witness :
  cleanup_client_connection false (mk_conn true true true true []) = None.
Proof. by apply (cleanup_waits_for_parser false [] [start]). Defined.

(** ** Several connections *)

(** The connections with what they share. *)
Definition share (c c' : conn) : conn :=
  mk_conn (bbox_push_enabled c') (push_joinable c') (metadata_joinable c') (parser_running c) (shared_buffer c).

(** Connection [i] makes a request; all see what it did to the shared variables. *)
Definition clients_step (i : nat) (r : conn_request) (cs : list conn) : res (list conn) :=
  match cs !! i with
  | None => Ok cs
  | Some c => c' ← conn_step r c; Ok (<[i := c']> (share c' <$> cs))
  end.

(** The stop request of one client silences all others: their push threads stay on, but the one
    parser has stopped and the buffer is empty, and a new start request of theirs changes nothing,
    since their flag is still set. *)
Theorem stop_silences_others (cs : list conn) (i j : nat) (ci cj : conn) :
  cs !! i = Some ci -> cs !! j = Some cj -> i <> j ->
  bbox_push_enabled ci = true -> bbox_push_enabled cj = true ->
  exists cs' c, clients_step i stop cs = Ok cs' /\ cs' !! j = Some c
  /\ bbox_push_enabled c = true /\ parser_running c = false /\ shared_buffer c = []
  /\ handle_bbox_start_request c = Ok c.
Proof.
  intros Hi Hj Hne Ei Ej. unfold clients_step. rewrite Hi. destruct ci as [e p m g bf]. cbn in Ei. subst e.
  cbn [conn_step]. unfold stop_request, handle_bbox_stop_request, join_push, join_metadata. cbn.
  destruct p, m; cbn;
    eexists _, (mk_conn (bbox_push_enabled cj) (push_joinable cj) (metadata_joinable cj) false []); (split; [done|]);
    (rewrite list_lookup_insert_ne by done); rewrite list_lookup_fmap, Hj; cbn; split_and!; try done;
    unfold handle_bbox_start_request; cbn; by rewrite Ej.
Qed.

Lemma stop_silences_others_witness :
  let c := mk_conn true true true true [mk_item 1 []] in
  exists cs' c', clients_step 0 stop [c; c] = Ok cs' /\ cs' !! 1%nat = Some c'
  /\ bbox_push_enabled c' = true /\ parser_running c' = false.
Proof.
  intros c. destruct (stop_silences_others [c; c] 0 1 c c) as (cs' & c' & H1 & H2 & H3 & H4 & _); try done.
  by exists cs', c'.
Defined.

(** ** Messages: lemmas *)

(** The log never throws: what was parsed can be written. *)
Lemma handle_parsed {D} `{Sqlite D} `{Pwhash} algos char_signed e text j st : parse_string text = Ok j ->
  handle_message (D := D) algos char_signed e j st = route_request algos char_signed e j st.
Proof.
  intros Hj. destruct (dump_pretty_ok j (parse_ok _ _ Hj) 2 0) as [t E]. unfold handle_message, mbind, M_bind, liftR. by rewrite E.
Qed.

Lemma receive_parsed s j s' : receive_json_message s = (Ok (Some j), s') -> exists text, parse_string text = Ok j.
Proof.
  unfold receive_json_message. destruct (recvAll s 4) as [[l|] s1]; [|done]. destruct (of_net32 l =? 0); [done|].
  destruct (recvAll s1 _) as [[b|] s2]; [|done]. destruct (parse_string (string_of b)) eqn:E; [|done]. intros [= <- _]. by eexists.
Qed.

Lemma net32_length n : length (net32 n) = 4%nat.
Proof. done. Qed.

Lemma of_net32_net32 n : 0 <= n < 2 ^ 32 -> of_net32 (net32 n) = n.
Proof.
  intros Hn. unfold of_net32, net32, u32. cbn [map foldl]. rewrite (Z.mod_small n) by done.
  Z.to_euclidean_division_equations; lia.
Qed.

Lemma recvAll_sound s len r s' : recvAll s len = (Some r, s') ->
  (len <= length (arriving (incoming s)))%nat /\ r = take len (arriving (incoming s))
  /\ arriving (incoming s') = drop len (arriving (incoming s)) /\ outcomes s' = outcomes s /\ sent s' = sent s.
Proof.
  unfold recvAll. destruct (recv_loop (incoming s) len []) as [r' evs] eqn:E. intros [= -> <-].
  apply recv_loop_sound in E as (Hl & -> & Ha). by split_and!.
Qed.

Lemma recvAll_prefix s pre rest : Z.of_nat (length pre) < 2 ^ 31 -> arriving (incoming s) = (pre ++ rest)%list ->
  exists s', recvAll s (length pre) = (Some pre, s') /\ arriving (incoming s') = rest
  /\ outcomes s' = outcomes s /\ sent s' = sent s.
Proof.
  intros Hp E. destruct (recvAll s (length pre)) as [[r|] s'] eqn:Er.
  - apply recvAll_sound in Er as (_ & -> & Ha & Ho). rewrite E, take_app_length. rewrite E, drop_app_length in Ha. by exists s'.
  - exfalso. unfold recvAll in Er. destruct (recv_loop_complete (incoming s) (length pre) [] Hp) as (r & evs & E'); [rewrite E, length_app; lia|].
    by rewrite E' in Er.
Qed.

Section messages.
Context {D : Type} `{SQ : Sqlite D} {PW : Pwhash}.
Context (algos : gmap string Algo_info) (char_signed : bool).

(** A whole frame is read, however it is cut into pieces. *)
Lemma receive_frame s body rest : (0 < length body)%nat -> Z.of_nat (length body) < 2 ^ 31 ->
  arriving (incoming s) = (net32 (Z.of_nat (length body)) ++ body ++ rest)%list ->
  exists s', receive_json_message s = (Some <$> parse_string (string_of body), s')
  /\ arriving (incoming s') = rest.
Proof.
  intros Hpos Hmax E. unfold receive_json_message.
  destruct (recvAll_prefix s (net32 _) _ eq_refl E) as (s1 & H1 & E1 & _). rewrite net32_length in H1. rewrite H1.
  rewrite of_net32_net32 by lia. destruct (Z.eqb_spec (Z.of_nat (length body)) 0); [lia|].
  destruct (recvAll_prefix s1 _ _ Hmax E1) as (s2 & H2 & E2 & _). rewrite Nat2Z.id, H2. by exists s2.
Qed.

Lemma sendAll_no_fail s buffer : Z.of_nat (length buffer) < 2 ^ 31 -> Forall (fun ev => ev <> wr_fail) (outcomes s) ->
  exists s', sendAll s buffer = (Z.of_nat (length buffer), s') /\ sent s' = (sent s ++ buffer)%list
  /\ incoming s' = incoming s /\ Forall (fun ev => ev <> wr_fail) (outcomes s').
Proof.
  intros Hb Hf. unfold sendAll. destruct (send_loop_no_fail (outcomes s) buffer (sent s) Hb Hf) as (evs' & -> & Hf').
  by eexists.
Qed.

(** What a response puts on the connection. *)
Lemma send_json_response_world (w : world D) j text : dump_string j = Ok text ->
  Z.of_nat (String.length text) < 2 ^ 31 -> Forall (fun ev => ev <> wr_fail) (outcomes (w_ssl w)) ->
  exists s, send_json_response j w = (Ok tt, mk_world (w_db w) (w_otp w) s (w_camera w))
  /\ sent s = (sent (w_ssl w) ++ net32 (Z.of_nat (String.length text)) ++ bytes_of text)%list
  /\ incoming s = incoming (w_ssl w) /\ Forall (fun ev => ev <> wr_fail) (outcomes s).
Proof.
  intros Hd Hl Hf. unfold send_json_response, mbind, M_bind, liftR, send_all. rewrite Hd.
  assert (Hu : u32 (Z.of_nat (String.length text)) = Z.of_nat (String.length text)) by (apply Z.mod_small; lia).
  rewrite Hu, Nat2Z.id, <- bytes_of_length, firstn_all, bytes_of_length. cbn [w_ssl].
  destruct (sendAll_no_fail (w_ssl w) (net32 (Z.of_nat (String.length text))) ltac:(done) Hf) as (s1 & E1 & S1 & I1 & F1).
  rewrite E1. cbn [snd]. destruct (sendAll_no_fail s1 (bytes_of text) ltac:(by rewrite bytes_of_length) F1) as (s2 & E2 & S2 & I2 & F2).
  rewrite E2. exists s2. split; [done|]. cbn [snd]. rewrite S2, S1, <- app_assoc. split; [done|]. split; [congruence|done].
Qed.

Lemma send_json_response_frame (w : world D) j text : dump_string j = Ok text ->
  Z.of_nat (String.length text) < 2 ^ 31 -> Forall (fun ev => ev <> wr_fail) (outcomes (w_ssl w)) ->
  exists w', send_json_response j w = (Ok tt, w')
  /\ sent (w_ssl w') = (sent (w_ssl w) ++ net32 (Z.of_nat (String.length text)) ++ bytes_of text)%list
  /\ incoming (w_ssl w') = incoming (w_ssl w).
Proof.
  intros Hd Hl Hf. destruct (send_json_response_world w j text Hd Hl Hf) as (s & E & Hs & Hi & _). by eexists.
Qed.
End messages.

(** What one side sends as a response, the other side receives as that value: if no write fails
    and the text has less than 2^31 bytes, then however the writes are cut up or repeated, and however
    the bytes arrive, in whatever pieces and with whatever retries, reading takes exactly the frame and
    gives back the same JSON value; the bytes behind it are left for the next message. *)
Theorem message_roundtrip {D} (w : world D) (j : json) (peer : ssl) (rest : list Z) :
  wf_json j = true -> (forall text, dump_string j = Ok text -> Z.of_nat (String.length text) < 2 ^ 31) ->
  Forall (fun ev => ev <> wr_fail) (outcomes (w_ssl w)) ->
  exists w' frame, send_json_response j w = (Ok tt, w')
  /\ sent (w_ssl w') = (sent (w_ssl w) ++ frame)%list
  /\ (arriving (incoming peer) = (frame ++ rest)%list ->
      exists peer', receive_json_message peer = (Ok (Some j), peer') /\ arriving (incoming peer') = rest).
Proof.
  intros Hw Hlen Hf. destruct (dump_parse j Hw) as (text & Hd & Hp). specialize (Hlen text Hd).
  assert (Hpos : (0 < String.length text)%nat) by (destruct text; [discriminate Hp|cbn; lia]).
  destruct (send_json_response_frame w j text Hd Hlen Hf) as (w' & E & S & _).
  eexists w', _. split; [done|]. split; [done|]. rewrite <- app_assoc. intros Ha.
  rewrite <- (bytes_of_length text) in Ha, Hpos, Hlen.
  destruct (receive_frame peer (bytes_of text) rest Hpos Hlen Ha) as (p' & -> & Hr).
  rewrite string_of_bytes_of, Hp. by exists p'.
Qed.

Lemma message_roundtrip_witness :
  let w := mk_world tt empty_manager (mk_ssl [] [wr_take 1; wr_retry; wr_take 0] []) [] in
  let peer := mk_ssl [rd_data [0; 0]; rd_retry; rd_data [0; 2; 123]; rd_data [125; 7]] [] [] in
  exists w' peer', send_json_response (JObject []) w = (Ok tt, w')
  /\ sent (w_ssl w') = [0; 0; 0; 2; 123; 125]
  /\ receive_json_message peer = (Ok (Some (JObject [])), peer') /\ arriving (incoming peer') = [7].
Proof.
  intros w peer.
  destruct (message_roundtrip w (JObject []) peer [7]) as (w' & frame & E & S & R);
    [done|by intros text [= <-]|by repeat constructor|].
  assert (Hs : sent (w_ssl (snd (send_json_response (JObject []) w))) = [0; 0; 0; 2; 123; 125]) by (by vm_compute).
  rewrite E in Hs. cbn [snd] in Hs. rewrite S in Hs. cbn in Hs. subst frame.
  destruct (R eq_refl) as (peer' & Hp & Ha). exists w', peer'. by rewrite S.
Defined.

(** ** What the requests leave alone *)

(** The world with something else still to arrive. *)
Definition set_incoming {D} (evs : list rd_event) (w : world D) : world D :=
  mk_world (w_db w) (w_otp w) (mk_ssl evs (outcomes (w_ssl w)) (sent (w_ssl w))) (w_camera w).

(** A computation that does not look at what arrives on the connection. *)
Class Blind {D A} (m : M (world D) A) : Prop :=
  blind evs w : m (set_incoming evs w) = let '(r, w') := m w in (r, set_incoming evs w').

Section blind.
Context {D : Type} `{SQ : Sqlite D} {PW : Pwhash}.
Context (algos : gmap string Algo_info) (char_signed : bool).

#[local] Opaque dump_string parse_string make_obj.
#[local] Typeclasses Opaque dump_string parse_string make_obj.

#[local] Instance blind_ret {A} (a : A) : Blind (D := D) (mret a).
Proof. by intros evs w. Qed.
#[local] Instance blind_lift {A} (r : res A) : Blind (D := D) (liftR r).
Proof. by intros evs w. Qed.
#[local] Instance blind_db {A} (m : M D A) : Blind (on_db m).
Proof. intros evs w. unfold on_db. cbn. by destruct (m (w_db w)). Qed.
#[local] Instance blind_otp {A} (m : M OTPManager A) : Blind (D := D) (on_otp m).
Proof. intros evs w. unfold on_otp. cbn. by destruct (m (w_otp w)). Qed.
#[local] Instance blind_camera c : Blind (D := D) (camera c).
Proof. by intros evs w. Qed.
#[local] Instance blind_data {A} (get : json -> res A) j k def : Blind (D := D) (data_value get j k def).
Proof. by intros evs w. Qed.
#[local] Instance blind_send bs : Blind (D := D) (send_all bs).
Proof.
  intros evs w. unfold send_all, sendAll. cbn [w_ssl set_incoming outcomes sent].
  by destruct (send_loop (outcomes (w_ssl w)) bs (sent (w_ssl w))) as [[ok evs1] out].
Qed.

#[local] Instance blind_bind {A B} (m : M (world D) A) (f : A -> M (world D) B) :
  Blind m -> (forall a, Blind (f a)) -> Blind (m ≫= f).
Proof.
  intros Hm Hf evs w. unfold mbind, M_bind. rewrite (Hm evs w). destruct (m w) as [[a|e] w1]; [|done]. apply (Hf a).
Qed.

(** The state is read, but not what arrives. *)
Lemma blind_get {A} (f : world D -> M (world D) A) :
  (forall evs w, f (set_incoming evs w) = f w) -> (forall w, Blind (f w)) -> Blind (getS ≫= f).
Proof. intros He Hf evs w. unfold mbind, M_bind, getS. rewrite He. apply (Hf w). Qed.

#[local] Instance blind_try {A} (m : M (world D) A) p h :
  Blind m -> (forall e, Blind (h e)) -> Blind (try_catch m p h).
Proof.
  intros Hm Hh evs w. unfold try_catch. rewrite (Hm evs w). destruct (m w) as [[a|e] w1]; [done|].
  destruct (p e); [|done]. apply (Hh e).
Qed.

#[local] Instance blind_if {A} (b : bool) (m1 m2 : M (world D) A) :
  Blind m1 -> Blind m2 -> Blind (if b then m1 else m2).
Proof. by destruct b. Qed.

#[local] Instance blind_response j : Blind (D := D) (send_json_response j).
Proof. unfold send_json_response. apply _. Qed.

#[local] Instance blind_camera_all is_ : Blind (D := D) (camera_delete_all is_).
Proof. induction is_; cbn [camera_delete_all]; apply _. Qed.

#[local] Instance blind_password i pw acc : Blind (D := D) (check_password algos i pw acc).
Proof. destruct acc; cbn [check_password]; apply _. Qed.

#[local] Instance blind_sign_up e i pw otp : Blind (D := D) (sign_up algos char_signed e i pw otp).
Proof.
  unfold sign_up. apply blind_bind; [apply _|]. intros h. apply blind_bind.
  - apply blind_if; [|apply _]. apply blind_bind; [apply _|]. intros uri. apply blind_get; [done|]. apply _.
  - intros [[[svg uri] secret] codes]. apply _.
Qed.

#[local] Instance blind_step2 e i input : Blind (D := D) (step2_check e i input).
Proof. unfold step2_check. apply blind_if; [apply blind_get; [done|apply _]|apply _]. Qed.

Lemma on_world_blind {A} (m : M (world D) A) evs w c : Blind m ->
  on_world m (set_incoming evs w, c) = let '(r, (w', c')) := on_world m (w, c) in (r, (set_incoming evs w', c')).
Proof. intros Hm. unfold on_world. cbn [fst snd]. rewrite (Hm evs w). by destruct (m w). Qed.

(** No request that is routed looks at what arrives on the connection. *)
Lemma route_blind e j evs w c :
  route_request algos char_signed e j (set_incoming evs w, c)
  = let '(r, (w', c')) := route_request algos char_signed e j (w, c) in (r, (set_incoming evs w', c')).
Proof.
  assert (HC : forall r, on_conn r (set_incoming evs w, c)
    = let '(r, (w', c')) := on_conn (D := D) r (w, c) in (r, (set_incoming evs w', c'))).
  { intros r. unfold on_conn. cbn. by destruct (r c). }
  unfold route_request. unfold mbind at 1 2, M_bind at 1 2, liftR at 1 2.
  destruct (json_value get_int j "request_id" (-1)) as [z|]; [|done].
  repeat match goal with |- context [match ?x with _ => _ end] => is_var x; destruct x end;
    try done; first [apply HC | apply on_world_blind].
  all: unfold handle_detection_request, handle_line_insert_request, handle_line_select_all_request,
    handle_line_delete_all_request, handle_baseline_insert_request, handle_vertical_line_insert_request,
    handle_baseline_select_all_request, handle_login_step1_request, handle_login_step2_request,
    handle_signup_request; try apply _.
  all: repeat (apply blind_bind; [apply _|intros ?]); try (destruct_and?; repeat case_match; apply _).
Qed.
End blind.

(** ** The loop *)

Lemma recvAll_shrinks s len r s' : recvAll s len = (Some r, s') ->
  (length (arriving (incoming s')) + len = length (arriving (incoming s)))%nat.
Proof.
  intros (Hl & _ & -> & _)%recvAll_sound. rewrite length_drop. lia.
Qed.

Lemma receive_shrinks s j s' : receive_json_message s = (Ok (Some j), s') ->
  (length (arriving (incoming s')) < length (arriving (incoming s)))%nat.
Proof.
  unfold receive_json_message. destruct (recvAll s 4) as [[l|] s1] eqn:E1; [|done].
  destruct (of_net32 l =? 0); [done|]. destruct (recvAll s1 _) as [[b|] s2] eqn:E2; [|done].
  intros [= _ <-]. apply recvAll_shrinks in E1, E2. lia.
Qed.

Section loop.
Context {D : Type} `{SQ : Sqlite D} {PW : Pwhash}.
Context (algos : gmap string Algo_info) (char_signed : bool).

Lemma try_route_blind e j evs w c :
  let route := try_catch (route_request algos char_signed e j) is_json_parse_error (fun _ => mret tt) in
  route (set_incoming evs w, c) = let '(r, (w', c')) := route (w, c) in (r, (set_incoming evs w', c')).
Proof.
  cbv zeta. unfold try_catch. rewrite route_blind.
  destruct (route_request algos char_signed e j (w, c)) as [[] [w' c']]; [done|]. by destruct (is_json_parse_error _).
Qed.

Lemma try_route_keeps e j st :
  incoming (w_ssl (fst (snd (try_catch (route_request algos char_signed e j) is_json_parse_error
    (fun _ => mret tt) st)))) = incoming (w_ssl (fst st)).
Proof.
  destruct st as [w c]. pose proof (try_route_blind e j (incoming (w_ssl w)) w c) as Hb. cbv zeta in Hb.
  replace (set_incoming (incoming (w_ssl w)) w) with w in Hb by (by destruct w as [? ? [] ?]).
  destruct (try_catch (route_request algos char_signed e j) is_json_parse_error (fun _ => mret tt) (w, c)) as [r [w' c']].
  injection Hb as Hw. cbn [fst snd]. by rewrite Hw.
Qed.

Lemma try_handle_parsed e text j st : parse_string text = Ok j ->
  try_catch (handle_message algos char_signed e j) is_json_parse_error (fun _ => mret tt) st
  = try_catch (route_request algos char_signed e j) is_json_parse_error (fun _ => mret tt) st.
Proof. intros Hj. unfold try_catch. by rewrite (handle_parsed algos char_signed e text j st Hj). Qed.

Lemma client_loop_ends fuel : forall envs st,
  (length (arriving (incoming (w_ssl (fst st)))) < fuel)%nat ->
  fst (client_loop algos char_signed fuel envs st) <> Running.
Proof.
  induction fuel as [|fuel IH]; intros envs [w c] Hf; [lia|]. cbn [client_loop fst] in *.
  destruct (receive_json_message (w_ssl w)) as [[[j|]|e] s] eqn:E; [|done..].
  destruct (receive_parsed _ _ _ E) as [text Hj]. apply receive_shrinks in E. set (st := (mk_world _ _ s _, c)).
  pose proof (try_route_keeps (envs 0%nat) j st) as Hk. rewrite (try_handle_parsed (envs 0%nat) text j st Hj).
  destruct (try_catch (route_request algos char_signed (envs 0%nat) j) is_json_parse_error
    (fun _ => mret tt) st) as [[[]|e] st']; [|done]. apply IH. cbn [snd] in Hk. rewrite Hk. cbn. lia.
Qed.

(** The loop on a connection whose first message is not handled without an exception. *)
Lemma client_loop_first fuel envs w c body rest : (0 < length body)%nat -> Z.of_nat (length body) < 2 ^ 31 ->
  arriving (incoming (w_ssl w)) = (net32 (Z.of_nat (length body)) ++ body ++ rest)%list ->
  forall e, parse_string (string_of body) = Throw e
    \/ (exists j, parse_string (string_of body) = Ok j /\ is_json_parse_error e = false
        /\ forall st, fst (route_request algos char_signed (envs 0%nat) j st) = Throw e) ->
  fst (client_loop algos char_signed (S fuel) envs (w, c)) = Terminated e.
Proof.
  intros Hp Hm Ha e He. destruct (receive_frame (w_ssl w) body rest Hp Hm Ha) as (s' & E & _).
  cbn [client_loop]. rewrite E. destruct He as [->|(j & Hj & He & Hr)]; [done|]. rewrite Hj. cbn [fmap res_fmap].
  rewrite (try_handle_parsed (envs 0%nat) _ j _ Hj). unfold try_catch. set (st := (mk_world _ _ s' _, c)). specialize (Hr st).
  destruct (route_request _ _ _ _ st) as [r st']. cbn in Hr. subst r. by rewrite He.
Qed.
End loop.

(** The loop of a connection always ends: with any requests, any answers and any exceptions, it
    leaves the loop when the bytes that arrive are used up, at the latest. *)
Theorem handle_client_ends {D} `{SQ : Sqlite D} {PW : Pwhash} (algos : gmap string Algo_info)
    (char_signed : bool) (h : handshake) (envs : nat -> env) (stream_ends running : bool) (b : list TimestampedBBox)
    (w : world D) :
  fst (handle_client algos char_signed h envs stream_ends running b w) <> Running.
Proof.
  unfold handle_client. destruct (setup_ssl_connection h (w_ssl w)); [|done]. destruct (on_db _ w) as [[[]|e] w']; [|done]. unfold serve.
  match goal with |- context [client_loop ?a ?b ?f ?es ?st] =>
    pose proof (client_loop_ends a b f es st) as H; destruct (client_loop a b f es st) as [o [w2 c2]] end.
  specialize (H ltac:(cbn; lia)). destruct o; try done. by destruct (cleanup_client_connection _ _).
Qed.

Lemma not_object_request j : (forall fields, j <> JObject fields) ->
  json_value get_int j "request_id" (-1) = Throw (json_type_error 306).
Proof. destruct j as [|fields| | | | | |]; try done. intros H. by destruct (H fields). Qed.

(** One message ends the whole server: if the body of a frame is not JSON, or is a JSON value
    that is not an object, the exception is not caught by the loop (the text is parsed outside of its
    [try], and only parse errors are caught inside), leaves the thread and terminates the process. *)
Theorem bad_message_terminates {D} `{SQ : Sqlite D} {PW : Pwhash} (algos : gmap string Algo_info)
    (char_signed : bool) (envs : nat -> env) (stream_ends : bool) (w : world D) (c : conn)
    (body rest : list Z) :
  (0 < length body)%nat -> Z.of_nat (length body) < 2 ^ 31 ->
  arriving (incoming (w_ssl w)) = (net32 (Z.of_nat (length body)) ++ body ++ rest)%list ->
  (forall e, parse_string (string_of body) = Throw e ->
     fst (serve algos char_signed envs stream_ends (w, c)) = Terminated e)
  /\ (forall j, parse_string (string_of body) = Ok j -> (forall fields, j <> JObject fields) ->
     fst (serve algos char_signed envs stream_ends (w, c)) = Terminated (json_type_error 306)).
Proof.
  intros Hp Hm Ha.
  assert (HT : forall e, fst (client_loop algos char_signed (S (length (arriving (incoming (w_ssl w))))) envs (w, c))
    = Terminated e -> fst (serve algos char_signed envs stream_ends (w, c)) = Terminated e).
  { intros e He. unfold serve. cbn [fst] in *. destruct (client_loop _ _ _ _ _) as [o [w2 c2]]. cbn in He. by subst. }
  split.
  - intros e He. apply HT. eapply client_loop_first; [done..|]. by left.
  - intros j Hj Hno. apply HT. eapply client_loop_first; [done..|]. right. exists j. split_and!; [done..|].
    intros st. unfold route_request, mbind, M_bind, liftR. by rewrite not_object_request.
Qed.


#[local] Instance toy_sqlite : Sqlite unit := {
  sql_exec _ _ d := (Ok 0, d);
  sql_query _ _ _ := ([], None);
  sql_begin d := (Ok tt, d);
  sql_commit d := (Ok tt, d);
  sql_rollback d := d;
  sql_real_text _ := "" }.

#[local] Instance toy_pwhash : Pwhash := {
  crypto_pwhash_str _ p := Some (String "#" p);
  crypto_pwhash_str_verify h p := if String.eqb h (String "#" p) then 0 else -1 }.

Lemma bad_message_terminates_witness :
  let w evs := mk_world tt empty_manager (mk_ssl evs [] []) [] in
  fst (serve ∅ false (fun _ => mk_env 0 (fun _ => 0) (fun _ => 0) (fun _ => 0) "") true
    (w [rd_data [0; 0; 0; 1; 88]], new_conn false [])) = Terminated json_parse_error
  /\ fst (serve ∅ false (fun _ => mk_env 0 (fun _ => 0) (fun _ => 0) (fun _ => 0) "") true
    (w [rd_data [0; 0; 0; 4; 110; 117; 108; 108]], new_conn false [])) = Terminated (json_type_error 306).
Proof.
  intros w. split.
  - apply (proj1 (bad_message_terminates ∅ false _ true (w [rd_data [0; 0; 0; 1; 88]]) (new_conn false [])
      [88] [] ltac:(cbn; lia) ltac:(done) ltac:(done))). by vm_compute.
  - apply (proj2 (bad_message_terminates ∅ false _ true (w [rd_data [0; 0; 0; 4; 110; 117; 108; 108]]) (new_conn false [])
      [110; 117; 108; 108] [] ltac:(cbn; lia) ltac:(done) ltac:(done)) JNull); [by vm_compute|done].
Defined.
