(* ===== verification/DbStore.v ===== *)
(** * The database functions as a store

    What db_management.cpp promises to the rest of the program: finite maps of lines, base lines, vertical
    lines and accounts by their keys, a list of detections and the unused recovery codes.  Every function of
    the file, on the tables that [initialize_database_tables] creates, implements it. *)

From S2P Require Import Prelude Str Json Hash Db Sql DbSpec TcpServer.
From stdpp Require Import gmap strings.
From Stdlib Require Import Ascii Floats.SpecFloat Sorting.Permutation Sorting.Sorted.
From Stdlib Require String.

Local Open Scope string_scope.
Local Open Scope Z_scope.

(** ** The store *)

Record contents := mk_contents {
  s_detections : list Detection;
  s_lines : gmap Z CrossLine;
  s_bases : gmap Z BaseLine;
  s_verticals : gmap Z VerticalLineEquation;
  s_accounts : gmap string Account;
  s_codes : list (string * string) }.

Definition set_detections x (s : contents) := mk_contents x (s_lines s) (s_bases s) (s_verticals s) (s_accounts s) (s_codes s).
Definition set_lines x (s : contents) := mk_contents (s_detections s) x (s_bases s) (s_verticals s) (s_accounts s) (s_codes s).
Definition set_bases x (s : contents) := mk_contents (s_detections s) (s_lines s) x (s_verticals s) (s_accounts s) (s_codes s).
Definition set_verticals x (s : contents) := mk_contents (s_detections s) (s_lines s) (s_bases s) x (s_accounts s) (s_codes s).
Definition set_accounts x (s : contents) := mk_contents (s_detections s) (s_lines s) (s_bases s) (s_verticals s) x (s_codes s).
Definition set_codes x (s : contents) := mk_contents (s_detections s) (s_lines s) (s_bases s) (s_verticals s) (s_accounts s) x.

(** The values of a map. *)
Definition values {K A} `{Countable K} (m : gmap K A) : list A := (map_to_list m).*2.

(** The unused codes of an account. *)
Definition codes_of (s : contents) (i : string) : list string := (List.filter (fun r => String.eqb r.1 i) (s_codes s)).*2.

(** ** The calls *)

Inductive db_call :=
| c_insert_detection (x : Detection) | c_select_detections (a b : string) | c_delete_detections
| c_insert_line (l : CrossLine) | c_select_lines | c_delete_line (i : Z) | c_delete_lines
| c_insert_base (b : BaseLine) | c_select_bases | c_update_base (b : BaseLine) | c_delete_bases
| c_insert_vertical (v : VerticalLineEquation) | c_select_vertical (i : Z) | c_delete_verticals
| c_insert_account (a : Account) | c_get_account (i : string) | c_select_account (i p : string) | c_store_secret (i secret : string)
| c_store_codes (i : string) (codes : list string) | c_get_codes (i : string) | c_verify_code (i input : string)
| c_invalidate (i input : string).

Inductive db_answer :=
| a_done | a_flag (b : bool) | a_detections (l : list Detection) | a_lines (l : list CrossLine) | a_bases (l : list BaseLine)
| a_vertical (v : VerticalLineEquation) | a_account (a : option Account) | a_codes (l : list string).

(** The arguments the promise covers: the numbers are [int]s, as in the program, and a time is no text that
    SQLite would take for a number. *)
Definition call_ok (c : db_call) : Prop :=
  match c with
  | c_insert_detection x => numeric_text (timestamp x) = false
  | c_select_detections a b => numeric_text a = false /\ numeric_text b = false
  | c_insert_line l => line_ok l
  | c_insert_base b | c_update_base b => base_ok b
  | _ => True
  end.

Section calls.
Context {D : Type} `{Sqlite D} {PW : Pwhash} (uninit : VerticalLineEquation).

Definition run_call (c : db_call) : M D db_answer :=
  match c with
  | c_insert_detection x => a_flag <$> insert_data_detections x
  | c_select_detections a b => a_detections <$> select_data_for_timestamp_range_detections a b
  | c_delete_detections => delete_all_data_detections ;; mret a_done
  | c_insert_line l => a_flag <$> insert_data_lines l
  | c_select_lines => a_lines <$> select_all_data_lines
  | c_delete_line i => a_flag <$> delete_data_lines i
  | c_delete_lines => a_flag <$> delete_all_data_lines
  | c_insert_base b => a_flag <$> insert_data_baseLines b
  | c_select_bases => a_bases <$> select_all_data_baseLines
  | c_update_base b => a_flag <$> update_data_baseLines b
  | c_delete_bases => a_flag <$> delete_all_data_baseLines
  | c_insert_vertical v => a_flag <$> insert_data_verticalLineEquations v
  | c_select_vertical i => a_vertical <$> select_data_verticalLineEquations uninit i
  | c_delete_verticals => a_flag <$> delete_all_data_verticalLineEquations
  | c_insert_account a => a_flag <$> insert_data_accounts a
  | c_get_account i => a_account <$> get_account_by_id i
  | c_select_account i p => a_account <$> select_data_accounts i p
  | c_store_secret i secret => a_flag <$> store_otp_secret i secret
  | c_store_codes i codes => a_flag <$> store_recovery_codes i codes
  | c_get_codes i => a_codes <$> get_hashed_recovery_codes i
  | c_verify_code i input => a_flag <$> verify_recovery_code i input
  | c_invalidate i input => a_flag <$> invalidate_recovery_code i input
  end.

Fixpoint run_calls (cs : list db_call) : M D (list db_answer) :=
  match cs with
  | [] => mret []
  | c :: cs => a ← run_call c; answers ← run_calls cs; mret (a :: answers)
  end.

(** ** What the calls promise *)

Definition line_free (l : CrossLine) (s : contents) : Prop :=
  s_lines s !! index l = None /\ map_Forall (fun _ l' => name l' <> name l) (s_lines s).

(** [s] before the call, the answer, and [s'] after it.  No call finds a vertical line, or an account by its
    password; and for [c_invalidate] a matching hash that is the empty text counts as none. *)
Definition spec_call (c : db_call) (s : contents) (a : db_answer) (s' : contents) : Prop :=
  match c with
  | c_insert_detection x => a = a_flag true /\ s' = set_detections (s_detections s ++ [x])%list s
  | c_select_detections lo hi =>
      s' = s /\ exists l, a = a_detections l /\ Sorted (fun d d' => str_le (timestamp d) (timestamp d')) l
      /\ Permutation l (List.filter (fun d => str_le lo (timestamp d) && str_le (timestamp d) hi) (s_detections s))
  | c_delete_detections => a = a_done /\ s' = set_detections [] s
  | c_insert_line l =>
      (line_free l s /\ a = a_flag true /\ s' = set_lines (<[index l := l]> (s_lines s)) s)
      \/ (~ line_free l s /\ a = a_flag false /\ s' = s)
  | c_select_lines =>
      s' = s /\ exists l, a = a_lines l /\ Sorted (fun x y => str_le (name x) (name y)) l /\ Permutation l (values (s_lines s))
  | c_delete_line i => a = a_flag (bool_decide (is_Some (s_lines s !! i))) /\ s' = set_lines (delete i (s_lines s)) s
  | c_delete_lines => a = a_flag (bool_decide (s_lines s <> ∅)) /\ s' = set_lines ∅ s
  | c_insert_base b =>
      match s_bases s !! base_index b with
      | None => a = a_flag true /\ s' = set_bases (<[base_index b := b]> (s_bases s)) s
      | Some _ => a = a_flag false /\ s' = s
      end
  | c_select_bases => s' = s /\ exists l, a = a_bases l /\ Permutation l (values (s_bases s))
  | c_update_base b =>
      a = a_flag true
      /\ s' = set_bases (alter (fun b' => mk_BaseLine (base_index b') (matrixNum1 b) (base_x1 b') (base_y1 b') (matrixNum2 b) (base_x2 b') (base_y2 b'))
                (base_index b) (s_bases s)) s
  | c_delete_bases => a = a_flag (bool_decide (s_bases s <> ∅)) /\ s' = set_bases ∅ s
  | c_insert_vertical v =>
      match s_verticals s !! vert_index v, is_nan (vert_a v) || is_nan (vert_b v) with
      | None, false => a = a_flag true /\ s' = set_verticals (<[vert_index v := v]> (s_verticals s)) s
      | _, _ => a = a_flag false /\ s' = s
      end
  | c_select_vertical _ => a = a_vertical uninit /\ s' = s
  | c_delete_verticals => a = a_flag (bool_decide (s_verticals s <> ∅)) /\ s' = set_verticals ∅ s
  | c_insert_account x =>
      match s_accounts s !! id x with
      | None => a = a_flag true /\ s' = set_accounts (<[id x := x]> (s_accounts s)) s
      | Some _ => a = a_flag false /\ s' = s
      end
  | c_get_account i => a = a_account (s_accounts s !! i) /\ s' = s
  | c_select_account _ _ => a = a_account None /\ s' = s
  | c_store_secret i secret =>
      a = a_flag true /\ s' = set_accounts (alter (fun x => mk_Account (id x) (passwd x) secret (use_otp x)) i (s_accounts s)) s
  | c_store_codes i codes => a = a_flag true /\ s' = set_codes (s_codes s ++ map (fun c => (i, c)) codes)%list s
  | c_get_codes i => s' = s /\ exists l, a = a_codes l /\ Permutation l (codes_of s i)
  | c_verify_code i input => a = a_flag (existsb (fun h => verify_password h input) (codes_of s i)) /\ s' = s
  | c_invalidate i input =>
      (exists h, In h (codes_of s i) /\ verify_password h input = true /\ h <> "" /\ a = a_flag true
        /\ s' = set_codes (List.filter (fun r => negb (String.eqb r.1 i && String.eqb r.2 h)) (s_codes s)) s)
      \/ (a = a_flag false /\ s' = s
          /\ ((forall h, In h (codes_of s i) -> verify_password h input = false) \/ (In "" (codes_of s i) /\ verify_password "" input = true)))
  end.

(** The calls one after the other. *)
Inductive spec_run : list db_call -> contents -> list db_answer -> contents -> Prop :=
| spec_nil s : spec_run [] s [] s
| spec_cons c cs s a s' answers s'' : spec_call c s a s' -> spec_run cs s' answers s'' -> spec_run (c :: cs) s (a :: answers) s''.
End calls.

(** ** Rows by their keys *)

Section keyed.
Context {A K : Type} `{Countable K} (key : A -> K) (eqb : K -> K -> bool) (eqb_spec : forall x y, reflect (x = y) (eqb x y)).

Definition by_key (l : list A) : gmap K A := list_to_map (map (fun x => (key x, x)) l).

Lemma by_key_fst l : (map (fun x => (key x, x)) l).*1 = map key l.
Proof. induction l as [|x l IH]; cbn; [done|]. by rewrite IH. Qed.

Lemma by_key_free l k : by_key l !! k = None <-> existsb (fun x => eqb (key x) k) l = false.
Proof.
  unfold by_key. rewrite <- not_elem_of_list_to_map, by_key_fst. rewrite <- not_true_iff_false, existsb_exists, list_elem_of_In, in_map_iff. split; intros Hn.
  - intros (x & Hin & Hx). apply Hn. exists x. split; [|done]. by destruct (eqb_spec (key x) k).
  - intros (x & <- & Hin). apply Hn. exists x. split; [done|]. by destruct (eqb_spec (key x) (key x)).
Qed.

Lemma by_key_snoc l x : existsb (fun y => eqb (key y) (key x)) l = false -> by_key (l ++ [x]) = <[key x := x]> (by_key l).
Proof.
  intros Hn%by_key_free. unfold by_key in *. rewrite map_app. cbn [map]. apply list_to_map_snoc. by apply not_elem_of_list_to_map.
Qed.

Lemma by_key_remove l k : by_key (List.filter (fun x => negb (eqb (key x) k)) l) = delete k (by_key l).
Proof.
  unfold by_key. induction l as [|x l IH]; cbn; [by rewrite delete_empty|]. destruct (eqb_spec (key x) k) as [->|Hk]; cbn.
  - by rewrite IH, delete_insert_eq.
  - by rewrite IH, delete_insert_ne.
Qed.

Lemma by_key_update l k (f : A -> A) : (forall x, key (f x) = key x) ->
  by_key (update_if (fun x => eqb (key x) k) f l) = alter f k (by_key l).
Proof.
  intros Hf. unfold by_key, update_if. induction l as [|x l IH]; cbn; [by rewrite alter_empty|]. rewrite IH.
  destruct (eqb_spec (key x) k) as [Hk|Hk]; apply map_eq; intros k'.
  - rewrite Hf, Hk. destruct (decide (k' = k)) as [->|Hne]; [by rewrite lookup_alter_eq, !lookup_insert_eq|].
    by rewrite lookup_alter_ne, !lookup_insert_ne, lookup_alter_ne.
  - destruct (decide (k' = key x)) as [->|Hne]; [by rewrite lookup_alter_ne, !lookup_insert_eq by done|].
    rewrite lookup_insert_ne by done. destruct (decide (k' = k)) as [->|Hne']; [by rewrite !lookup_alter_eq, lookup_insert_ne|].
    by rewrite !lookup_alter_ne, lookup_insert_ne.
Qed.

Lemma by_key_values l : NoDup (map key l) -> Permutation (values (by_key l)) l.
Proof.
  intros Hn. unfold values, by_key. rewrite map_to_list_to_map by (by rewrite by_key_fst).
  clear Hn. induction l as [|x l IH]; cbn; [done|]. by constructor.
Qed.

Lemma by_key_find l k : by_key l !! k = List.find (fun x => eqb (key x) k) l.
Proof.
  unfold by_key. induction l as [|x l IH]; cbn; [apply lookup_empty|]. destruct (eqb_spec (key x) k) as [->|Hk]; [apply lookup_insert_eq|].
  by rewrite lookup_insert_ne.
Qed.

Lemma by_key_lookup l k x : NoDup (map key l) -> (by_key l !! k = Some x <-> In x l /\ key x = k).
Proof.
  intros Hn. unfold by_key. rewrite <- elem_of_list_to_map by (by rewrite by_key_fst). rewrite list_elem_of_In, in_map_iff. split.
  - by intros (y & [= <- <-] & Hin).
  - intros [Hin <-]. by exists x.
Qed.

Lemma by_key_empty l : by_key l <> ∅ <-> l <> [].
Proof.
  unfold by_key. destruct l as [|x l]; [done|]. split; [done|]. intros _. apply insert_non_empty.
Qed.

Lemma count_nonzero l k : negb (count (fun x => eqb (key x) k) l =? 0) = bool_decide (is_Some (by_key l !! k)).
Proof.
  rewrite by_key_find. unfold count. induction l as [|x l IH]; [done|]. cbn [List.filter List.find].
  destruct (eqb (key x) k); [|done]. rewrite bool_decide_eq_true_2 by (by eexists). cbn [length]. destruct (Z.eqb_spec (Z.of_nat (S (length (List.filter (fun x => eqb (key x) k) l)))) 0); [lia|done].
Qed.

Lemma length_nonzero (l : list A) : negb (Z.of_nat (length l) =? 0) = bool_decide (by_key l <> ∅).
Proof.
  symmetry. destruct l as [|x l].
  - apply bool_decide_eq_false_2. intros Hn. by apply Hn.
  - rewrite bool_decide_eq_true_2 by (by apply by_key_empty). cbn [length]. by destruct (Z.eqb_spec (Z.of_nat (S (length l))) 0); [lia|].
Qed.
End keyed.

(** ** The tables as a store *)

Definition abs (t : tables) : contents :=
  mk_contents (t_detections t) (by_key index (t_lines t)) (by_key base_index (t_baseLines t)) (by_key vert_index (t_verticals t))
    (by_key id (t_accounts t)) (map (fun r => (code_id r, code_hash r)) (List.filter (fun r => used r =? 0) (t_codes t))).

Lemma codes_of_abs t i : codes_of (abs t) i = unused t i.
Proof.
  unfold codes_of, unused. cbn [abs s_codes]. induction (t_codes t) as [|r rs IH]; [done|]. cbn [List.filter].
  destruct (used r =? 0); cbn [map List.filter fst]; destruct (String.eqb (code_id r) i); cbn; by rewrite ?IH.
Qed.

Lemma abs_new_codes t i codes :
  abs (with_codes (t_codes t ++ new_codes i codes)%list t) = set_codes (s_codes (abs t) ++ map (fun c => (i, c)) codes)%list (abs t).
Proof.
  unfold abs, set_codes. cbn. f_equal. rewrite List.filter_app, map_app. f_equal. unfold new_codes. induction codes as [|c codes IH]; [done|]. cbn. by rewrite IH.
Qed.

Lemma abs_use_code t n t' i h : stmt_effect (UseCode i h) t = Some (n, t') ->
  abs t' = set_codes (List.filter (fun r => negb (String.eqb r.1 i && String.eqb r.2 h)) (s_codes (abs t))) (abs t).
Proof.
  intros [= _ <-]. unfold abs, set_codes. cbn. f_equal. unfold update_if.
  induction (t_codes t) as [|r rs IH]; [done|]. cbn [map List.filter].
  destruct (String.eqb (code_id r) i && String.eqb (code_hash r) h) eqn:E; cbn; destruct (used r =? 0); cbn; rewrite ?E; cbn; by rewrite ?IH.
Qed.

Lemma line_free_abs l t : NoDup (map index (t_lines t)) -> line_free l (abs t)
  <-> existsb (fun l' => (index l' =? index l) || String.eqb (name l') (name l)) (t_lines t) = false.
Proof.
  intros Hd. unfold line_free. cbn [abs s_lines]. rewrite <- existsb_or, orb_false_iff, (by_key_free index Z.eqb Z.eqb_spec).
  split; intros [Hi Hn]; (split; [done|]).
  - apply not_true_is_false. intros (l' & Hin & E%String.eqb_eq)%existsb_exists.
    apply (Hn (index l') l'); [by apply (by_key_lookup index)|done].
  - intros k l' [Hin _]%(by_key_lookup index) E; [|done]. apply not_true_iff_false in Hn. apply Hn, existsb_exists.
    exists l'. split; [done|]. by apply String.eqb_eq.
Qed.

Section refinement.
Context {D : Type} `{SL : SqliteLaws D} {PW : Pwhash} (uninit : VerticalLineEquation).

(** The call returns, keeps the invariant, and does what the store promises. *)
Definition refines (c : db_call) (d : D) : Prop := exists a d',
  run_call uninit c d = (Ok a, d') /\ healthy d' /\ tables_wf (view d') /\ spec_call uninit c (abs (view d)) a (abs (view d')).

Lemma refines_flag s c d : healthy d -> tables_wf (view d) -> stmt_ok s = true -> stmt_ints s ->
  run_call uninit c = a_flag <$> exec_flag (stmt_text s) (stmt_args s) ->
  match stmt_effect s (view d) with
  | Some (_, t) => spec_call uninit c (abs (view d)) (a_flag true) (abs t)
  | None => spec_call uninit c (abs (view d)) (a_flag false) (abs (view d))
  end -> refines c d.
Proof.
  intros Hh Hw Hs Hi Hr Hx. destruct (exec_flag_spec s d Hs Hh) as (b & d' & E & Hh' & Hv). exists (a_flag b), d'.
  rewrite Hr. unfold fmap, M_fmap. rewrite E. split; [done|]. split; [done|]. destruct b.
  - destruct Hv as [n Hv]. rewrite Hv in Hx. split; [by eapply stmt_effect_wf|done].
  - destruct Hv as [Hn ->]. by rewrite Hn in Hx.
Qed.

Lemma refines_changes s c d n t : healthy d -> tables_wf (view d) -> stmt_ok s = true -> stmt_ints s ->
  run_call uninit c = a_flag <$> exec_changes (stmt_text s) (stmt_args s) ->
  stmt_effect s (view d) = Some (n, t) -> spec_call uninit c (abs (view d)) (a_flag (negb (n =? 0))) (abs t) -> refines c d.
Proof.
  intros Hh Hw Hs Hi Hr He Hx. destruct (exec_changes_spec s d Hs Hh) as (b & d' & E & Hh' & [(n' & Hv & ->)|[Hv _]]); [|congruence].
  rewrite He in Hv. injection Hv as <- ->. eexists _, d'. rewrite Hr. unfold fmap, M_fmap. rewrite E. split; [done|].
  split; [done|]. split; [by eapply stmt_effect_wf|done].
Qed.

Lemma refines_read {A} c d (m : M D A) (f : A -> db_answer) (a : A) : healthy d -> tables_wf (view d) ->
  run_call uninit c = f <$> m -> m d = (Ok a, d) -> spec_call uninit c (abs (view d)) (f a) (abs (view d)) -> refines c d.
Proof. intros Hh Hw Hr E Hx. exists (f a), d. rewrite Hr. unfold fmap, M_fmap. by rewrite E. Qed.

(** *** Detections *)

Lemma select_detections_spec a b d : numeric_text a = false -> numeric_text b = false -> healthy d -> exists ds,
  select_data_for_timestamp_range_detections a b d = (Ok ds, d)
  /\ Permutation ds (List.filter (fun x => str_le a (timestamp x) && str_le (timestamp x) b) (t_detections (view d)))
  /\ Sorted (fun x y => str_le (timestamp x) (timestamp y)) ds.
Proof.
  intros Ha Hb Hh. destruct (query_spec_ok (QDetections a b) d) as (ds & HF & Hp & Hs); [by cbn; rewrite Ha, Hb|done|].
  exists ds. split; [|done]. unfold select_data_for_timestamp_range_detections, select_rows, mbind, M_bind, getS, mret, M_ret.
  cbn [query_text query_args] in HF. do 2 f_equal. clear -HF. induction HF as [|r x rows ds [i ->] _ IH]; [done|]. cbn. by rewrite IH; destruct x.
Qed.

Lemma refines_delete_detections d : healthy d -> tables_wf (view d) -> refines c_delete_detections d.
Proof.
  intros Hh Hw. destruct (exec_spec DelDetections d eq_refl Hh) as ([n|e] & d' & E & Hh' & Hv); [|by destruct Hv].
  eexists _, d'. cbn [run_call]. unfold delete_all_data_detections, try_catch, mbind, M_bind, mret, M_ret. cbn [stmt_text stmt_args] in E. rewrite E.
  split; [done|]. split; [done|]. split; [by apply (stmt_effect_wf DelDetections (view d) n)|]. by injection Hv as _ <-.
Qed.

(** *** Recovery codes *)

Lemma refines_invalidate i input d : healthy d -> tables_wf (view d) -> refines (c_invalidate i input) d.
Proof.
  intros Hh Hw. destruct (get_codes_spec d i Hh) as (hs & E & Hp).
  pose proof (invalidate_unfold i input d hs E) as Hi. cbv zeta in Hi. unfold refines. cbn [run_call spec_call]. unfold fmap, M_fmap.
  rewrite Hi, codes_of_abs. destruct (List.find _ hs) as [h|] eqn:F.
  - apply find_some in F as [Hin Hv]. rewrite Hp in Hin. change (default "" (Some h)) with h. destruct h as [|ch h].
    { exists (a_flag false), d. split_and!; [done..|]. right. split_and!; [done..|]. by right. }
    destruct (exec_spec (UseCode i (String ch h)) d eq_refl Hh) as ([n|e] & d' & Ex & Hh' & Hx); [|by destruct Hx]. rewrite Ex. cbn [str_empty].
    pose proof (count_use_pos _ _ _ _ _ Hx Hin) as Hn. exists (a_flag true), d'. split; [by destruct (Z.ltb_spec 0 n); [|lia]|].
    split; [done|]. split; [by apply (stmt_effect_wf (UseCode i (String ch h)) (view d) n)|]. left. exists (String ch h). split_and!; [done..|]. by eapply abs_use_code.
  - exists (a_flag false), d. split_and!; [done..|]. right. split_and!; [done..|]. left. intros h Hin. rewrite <- Hp in Hin.
    by apply (find_none _ _ F) in Hin.
Qed.

Lemma refines_store_codes i codes d : healthy d -> tables_wf (view d) -> refines (c_store_codes i codes) d.
Proof.
  intros Hh Hw. destruct (store_codes_spec i codes d) as (b & d' & E & Hv & _ & _ & Hl); [by destruct Hh as (_ & _ & ?)|].
  destruct (Hl Hh) as [-> Hh']. exists (a_flag true), d'. cbn [run_call spec_call]. unfold fmap, M_fmap. rewrite E. split; [done|]. split; [done|].
  split; [rewrite Hv; by destruct Hw|]. split; [done|]. by rewrite Hv, abs_new_codes.
Qed.
(** *** Every call *)

Lemma call_refines c d : healthy d -> tables_wf (view d) -> call_ok c -> refines c d.
Proof.
  intros Hh Hw Hok. destruct c; cbn [call_ok] in Hok.
  - apply (refines_flag (InsDetection x)); [done|done|cbn; by rewrite Hok|done|done|done].
  - destruct Hok as [Ha Hb]. destruct (select_detections_spec a b d Ha Hb Hh) as (ds & E & Hp & Hs).
    eapply refines_read; [done|done|reflexivity|exact E|]. split; [done|]. by exists ds.
  - by apply refines_delete_detections.
  - apply (refines_flag (InsLine l)); [done..|]. cbn [stmt_effect spec_call]. pose proof (line_free_abs l _ (wf_line_index _ Hw)) as Hf.
    destruct (existsb _ _) eqn:E; [right|left]; (split; [by rewrite Hf|]); [done|]. split; [done|]. unfold abs, set_lines. cbn. f_equal.
    rewrite <- existsb_or in E. apply orb_false_iff in E as [E _]. by apply (by_key_snoc index Z.eqb Z.eqb_spec).
  - destruct (select_lines_spec d Hh Hw) as (ls & E & Hp & Hs). eapply refines_read; [done|done|reflexivity|exact E|].
    split; [done|]. exists ls. split_and!; [done..|]. cbn. by rewrite (by_key_values index _ (wf_line_index _ Hw)).
  - eapply (refines_changes (DelLine i)); [done..|]. rewrite (count_nonzero index Z.eqb Z.eqb_spec). split; [done|]. unfold abs, set_lines. cbn. f_equal.
    apply (by_key_remove index Z.eqb Z.eqb_spec).
  - eapply (refines_changes DelLines); [done..|]. rewrite (length_nonzero index). by split.
  - apply (refines_flag (InsBase b)); [done..|]. cbn [stmt_effect spec_call]. destruct (existsb _ _) eqn:E.
    + destruct (s_bases _ !! _) eqn:L; [done|]. apply (by_key_free base_index Z.eqb Z.eqb_spec) in L. congruence.
    + pose proof E as L. apply (by_key_free base_index Z.eqb Z.eqb_spec) in L. cbn [abs s_bases]. rewrite L. split; [done|].
      unfold abs, set_bases. cbn. f_equal. by apply (by_key_snoc base_index Z.eqb Z.eqb_spec).
  - destruct (select_baseLines_spec d Hh Hw) as (bs & E & Hp). eapply refines_read; [done|done|reflexivity|exact E|].
    split; [done|]. exists bs. split; [done|]. cbn. by rewrite (by_key_values base_index _ (wf_base_index _ Hw)).
  - apply (refines_flag (UpdBase (matrixNum1 b) (matrixNum2 b) (base_index b))); [done|done|done|by destruct Hok as (_ & ? & _ & _ & ? & _)|done|].
    split; [done|]. unfold abs, set_bases. cbn. f_equal. by apply (by_key_update base_index Z.eqb Z.eqb_spec).
  - eapply (refines_changes DelBases); [done..|]. rewrite (length_nonzero base_index). by split.
  - apply (refines_flag (InsVertical v)); [done..|]. cbn [stmt_effect spec_call]. rewrite <- orb_assoc. destruct (existsb _ _) eqn:E; cbn [orb].
    + destruct (s_verticals _ !! _) eqn:L; [done|]. apply (by_key_free vert_index Z.eqb Z.eqb_spec) in L. congruence.
    + pose proof E as L. apply (by_key_free vert_index Z.eqb Z.eqb_spec) in L. cbn [abs s_verticals]. rewrite L. destruct (_ || _); [done|]. split; [done|].
      unfold abs, set_verticals. cbn. f_equal. by apply (by_key_snoc vert_index Z.eqb Z.eqb_spec).
  - eapply refines_read; [done|done|reflexivity|apply select_vertical_never|done].
  - eapply (refines_changes DelVerticals); [done..|]. rewrite (length_nonzero vert_index). by split.
  - apply (refines_flag (InsAccount a)); [done..|]. cbn [stmt_effect spec_call]. destruct (existsb _ _) eqn:E.
    + destruct (s_accounts _ !! _) eqn:L; [done|]. apply (by_key_free id String.eqb String.eqb_spec) in L. congruence.
    + pose proof E as L. apply (by_key_free id String.eqb String.eqb_spec) in L. cbn [abs s_accounts]. rewrite L. split; [done|].
      unfold abs, set_accounts. cbn. f_equal. by apply (by_key_snoc id String.eqb String.eqb_spec).
  - eapply refines_read; [done|done|reflexivity|exact (get_account_spec d i Hh Hw)|]. split; [|done]. f_equal. symmetry.
    apply (by_key_find id String.eqb String.eqb_spec).
  - eapply refines_read; [done|done|reflexivity|apply select_account_never|done].
  - apply (refines_flag (SetSecret secret i)); [done..|]. split; [done|]. unfold abs, set_accounts. cbn. f_equal.
    by apply (by_key_update id String.eqb String.eqb_spec).
  - by apply refines_store_codes.
  - destruct (get_codes_spec d i Hh) as (hs & E & Hp). eapply refines_read; [done|done|reflexivity|exact E|]. split; [done|]. exists hs.
    by rewrite codes_of_abs.
  - eapply refines_read; [done|done|reflexivity|exact (verify_recovery_spec d i input Hh)|]. cbn [spec_call]. by rewrite codes_of_abs.
  - by apply refines_invalidate.
Qed.

Lemma calls_refine cs : Forall call_ok cs -> forall d, healthy d -> tables_wf (view d) -> exists answers d',
  run_calls uninit cs d = (Ok answers, d') /\ healthy d' /\ tables_wf (view d') /\ spec_run uninit cs (abs (view d)) answers (abs (view d')).
Proof.
  induction 1 as [|c cs Hc _ IH]; intros d Hh Hw; [exists [], d; split_and!; [done..|constructor]|].
  destruct (call_refines c d Hh Hw Hc) as (a & d1 & E1 & Hh1 & Hw1 & S1). destruct (IH d1 Hh1 Hw1) as (answers & d2 & E2 & Hh2 & Hw2 & S2).
  exists (a :: answers), d2. cbn [run_calls]. unfold mbind, M_bind. rewrite E1, E2. split_and!; [done..|]. by econstructor.
Qed.

(** *** The tables are created *)

Lemma create_step sql (d : D) : parse_create sql <> None -> io_ok d -> pending d = None -> exists d',
  db_exec sql d = (Ok tt, d') /\ io_ok d' /\ pending d' = None /\ view d' = with_schema (create_all (t_schema (view d)) [sql]) (view d).
Proof.
  intros Hs Hi Hp. cbn [create_all foldl]. destruct (parse_create sql) as [[nm cols]|] eqn:E; [|done].
  destruct (create_live sql nm cols d E Hi) as [Hi' [n Hn]]. pose proof (create_sound sql nm cols d E) as Hx.
  unfold db_exec, mbind, M_bind, mret, M_ret. destruct (sql_exec sql [] d) as [r d']. cbn [fst snd] in *. subst r. destruct Hx as [Hv Hp'].
  exists d'. split_and!; [done|done|congruence|done].
Qed.

Lemma initialize_spec (d : D) : io_ok d -> pending d = None -> exists d',
  initialize_database_tables d = (Ok tt, d') /\ io_ok d' /\ pending d' = None
  /\ view d' = with_schema (create_all (t_schema (view d)) program_tables) (view d).
Proof.
  intros Hi Hp. unfold initialize_database_tables, create_table_detections, create_table_lines, create_table_baseLines,
    create_table_verticalLineEquations, create_table_accounts, create_table_recovery_codes, mbind, M_bind.
  destruct (create_step sql_detections d) as (d1 & -> & I1 & P1 & V1); [by vm_compute|done..|].
  destruct (create_step sql_lines d1) as (d2 & -> & I2 & P2 & V2); [by vm_compute|done..|].
  destruct (create_step sql_baseLines d2) as (d3 & -> & I3 & P3 & V3); [by vm_compute|done..|].
  destruct (create_step sql_verticalLineEquations d3) as (d4 & -> & I4 & P4 & V4); [by vm_compute|done..|].
  destruct (create_step sql_accounts d4) as (d5 & -> & I5 & P5 & V5); [by vm_compute|done..|].
  destruct (create_step sql_recovery_codes d5) as (d6 & -> & I6 & P6 & V6); [by vm_compute|done..|].
  exists d6. split_and!; [done..|]. rewrite V6, V5, V4, V3, V2, V1. reflexivity.
Qed.
End refinement.

(** C31: the database functions implement the store: on a working engine, on a new file or one with some or all of
    the program's tables, creating the tables succeeds and changes no row, and from then on every sequence of
    calls returns what the store of maps promises, and leaves what it promises.  A line is stored exactly when its
    number and its name are new, and base lines, vertical lines and accounts when their keys are (a vertical line
    also has to have two numbers); what was stored is read back unchanged, lines in the order of their names and
    detections in the order of their times; updates and deletions change what has the given key and nothing else;
    and a recovery code that was invalidated is gone.  Numbers are [int]s and times no texts that SQLite takes for
    numbers ([call_ok]). *)
Theorem database_refines_store {D} `{SL : SqliteLaws D} {PW : Pwhash} (uninit : VerticalLineEquation) (calls : list db_call) (d : D) :
  io_ok d -> pending d = None -> created (create_all (t_schema (view d)) program_tables) -> tables_wf (view d) -> Forall call_ok calls ->
  exists d1 answers d2, initialize_database_tables d = (Ok tt, d1) /\ abs (view d1) = abs (view d)
  /\ run_calls uninit calls d1 = (Ok answers, d2) /\ spec_run uninit calls (abs (view d)) answers (abs (view d2)).
Proof.
  intros Hi Hp Hc Hw Hok. destruct (initialize_spec d Hi Hp) as (d1 & E1 & I1 & P1 & V1).
  assert (Hh1 : healthy d1) by (split_and!; [done|done|by rewrite V1]).
  assert (Hw1 : tables_wf (view d1)) by (rewrite V1; by destruct Hw).
  destruct (calls_refine uninit calls Hok d1 Hh1 Hw1) as (answers & d2 & E2 & _ & _ & S2).
  exists d1, answers, d2. assert (Ha : abs (view d1) = abs (view d)) by (by rewrite V1). rewrite <- Ha. done.
Qed.

#[local] Instance toy_pwhash : Pwhash := {
  crypto_pwhash_str _ p := Some (String "#" p);
  crypto_pwhash_str_verify h p := if String.eqb h (String "#" p) then 0 else -1 }.

(** On a new file: of two lines of the same name the first is stored, and a used recovery code is refused. *)
Definition gate_calls : list db_call :=
  [ c_insert_line (mk_CrossLine 7 0 0 10 10 "gate" "Right"); c_insert_line (mk_CrossLine 8 5 5 15 15 "gate" "Left");
    c_select_lines; c_store_codes "kim" ["#code"]; c_verify_code "kim" "code"; c_invalidate "kim" "code"; c_verify_code "kim" "code" ].

Definition gate_answers : list db_answer :=
  [ a_flag true; a_flag false; a_lines [mk_CrossLine 7 0 0 10 10 "gate" "Right"]; a_flag true; a_flag true; a_flag true; a_flag false ].

Lemma database_refines_store_witness :
  let uninit := mk_Vertical 0 S754_nan S754_nan in
  exists d1 d2, initialize_database_tables Memory.blank = (Ok tt, d1) /\ run_calls uninit gate_calls d1 = (Ok gate_answers, d2)
  /\ spec_run uninit gate_calls (abs no_tables) gate_answers (abs (view d2)).
Proof.
  intros uninit. destruct (database_refines_store uninit gate_calls Memory.blank) as (d1 & answers & d2 & E1 & _ & E2 & S2).
  - done.
  - reflexivity.
  - left. vm_compute. reflexivity.
  - constructor; cbn; try apply NoDup_nil_2; done.
  - repeat constructor; cbn; unfold int_range; lia.
  - assert (Hd : d1 = snd (initialize_database_tables Memory.blank)) by (by rewrite E1).
    assert (Ha : fst (run_calls uninit gate_calls (snd (initialize_database_tables Memory.blank))) = Ok gate_answers) by (vm_compute; reflexivity).
    rewrite <- Hd, E2 in Ha. injection Ha as ->. exists d1, d2. split; [exact E1|]. split; [exact E2|exact S2].
Defined.
