(* ===== verification/HandlersSpec.v ===== *)
(** * What the request handlers do

    Functional theorems of the account handlers (login in two steps, registration) and of the line
    handlers, against the laws of the database and of the password hash.  A handler that answers is
    described by the response it sends and the state in which it sends it. *)

From S2P Require Import QrImage.
From S2P Require Import Prelude Str Utils Json JsonText OtpUri Sha1 Otp Hash Ssl Db DbSpec OtpManager Handlers.
From Stdlib Require Import Ascii Sorting.Permutation.
From Stdlib Require String.

Local Open Scope string_scope.
Local Open Scope Z_scope.
#[local] Opaque dump_string parse_string.

(** The state with another database, or another table of one-time passwords. *)
Definition put_db {D} (d : D) (w : world D) : world D := mk_world d (w_otp w) (w_ssl w) (w_camera w).
Definition put_otp {D} (m : OTPManager) (w : world D) : world D := mk_world (w_db w) m (w_ssl w) (w_camera w).

(** The fields of a request: [data] is the object under its key. *)
Definition request_data (j data : json) : Prop := json_at j "data" = Ok data.

Section accounts.
Context {D : Type} `{SL : SqliteLaws D} {PW : Pwhash}.
Context (HMAC : string -> list Z -> list Z -> option (list Z)) (char_signed : bool).

Lemma on_db_eq {A} (m : M D A) w r d : m (w_db w) = (r, d) -> on_db m w = (r, put_db d w).
Proof. intros E. unfold on_db. by rewrite E. Qed.

Lemma on_otp_eq {A} (m : M OTPManager A) (w : world D) r o : m (w_otp w) = (r, o) -> on_otp m w = (r, put_otp o w).
Proof. intros E. unfold on_otp. by rewrite E. Qed.

Lemma data_value_eq {A} (get : json -> res A) j data k def v (w : world D) :
  request_data j data -> json_value get data k def = Ok v -> data_value get j k def w = (Ok v, w).
Proof. intros Hd Hv. unfold data_value, liftR. rewrite Hd. cbn [mbind res_bind]. by rewrite Hv. Qed.

Lemma bind_eq {A B} (m : M (world D) A) (f : A -> M (world D) B) w a w' :
  m w = (Ok a, w') -> (m ≫= f) w = f a w'.
Proof. intros E. unfold mbind, M_bind. by rewrite E. Qed.

Lemma liftR_eq {A} (r : res A) a (w : world D) : r = Ok a -> liftR r w = (Ok a, w).
Proof. by intros ->. Qed.

Lemma bind_throw {A B} (m : M (world D) A) (f : A -> M (world D) B) w e w' :
  m w = (Throw e, w') -> (m ≫= f) w = (Throw e, w').
Proof. intros E. unfold mbind, M_bind. by rewrite E. Qed.

Lemma register_otp_eq i secret m : secret <> "" -> exists t,
  TOTP_named (otp_algorithm_map HMAC) secret "SHA1" 6 30 = Ok t
  /\ register_otp (otp_algorithm_map HMAC) i secret m = (Ok tt, put_user i (label_totp i t) secret m).
Proof.
  intros Hs. destruct (TOTP_named_sha1 HMAC secret Hs) as [t Ht]. exists t. split; [done|].
  unfold register_otp, mbind, M_bind, liftR, modS. rewrite Ht. by destruct secret.
Qed.

Lemma str_empty_false s : s <> "" -> str_empty s = false.
Proof. by destruct s. Qed.

(** The account check, for every account. *)
Lemma check_password_eq i pw acc (w : world D) :
  let ok := match acc with Some a => verify_password (passwd a) pw | None => false end in
  exists m', check_password (otp_algorithm_map HMAC) i pw acc w = (Ok ok, put_otp m' w)
  /\ (ok = false -> m' = w_otp w)
  /\ (forall a, acc = Some a -> ok = true -> otp_secret a <> "" -> exists t,
        TOTP_named (otp_algorithm_map HMAC) (otp_secret a) "SHA1" 6 30 = Ok t
        /\ m' = put_user i (label_totp i t) (otp_secret a) (w_otp w)).
Proof.
  intros ok. destruct acc as [a|]; cbn [check_password].
  2: { exists (w_otp w). by destruct w. }
  unfold ok. destruct (verify_password (passwd a) pw) eqn:V.
  2: { exists (w_otp w). split; [by destruct w|]. done. }
  destruct (str_empty (otp_secret a)) eqn:Es; cbn [negb].
  - exists (w_otp w). split; [by destruct w|]. split; [done|]. intros a' [= <-] _ Hne. by rewrite str_empty_false in Es.
  - assert (Hne : otp_secret a <> "") by (by intros E; rewrite E in Es).
    destruct (register_otp_eq i (otp_secret a) (w_otp w) Hne) as (t & Ht & Hr).
    eexists. split; [rewrite (bind_eq _ _ _ _ _ (on_otp_eq _ _ _ _ Hr)); done|]. split; [done|].
    intros a' [= <-] _ _. by exists t.
Qed.
End accounts.

Lemma login_step1_spec {D} `{SL : SqliteLaws D} {PW : Pwhash}
    (HMAC : string -> list Z -> list Z -> option (list Z)) (w : world D) (j data : json) (i pw : string) :
  healthy (w_db w) -> tables_wf (view (w_db w)) -> request_data j data ->
  json_value get_string data "id" "" = Ok i -> json_value get_string data "passwd" "" = Ok pw ->
  i <> "" -> pw <> "" ->
  let acc := List.find (fun a => String.eqb (id a) i) (t_accounts (view (w_db w))) in
  let ok := match acc with Some a => verify_password (passwd a) pw | None => false end in
  exists m', handle_login_step1_request (otp_algorithm_map HMAC) j w
    = send_json_response (step1_response ok acc) (put_otp m' w)
  /\ (ok = false -> m' = w_otp w)
  /\ (forall a, acc = Some a -> ok = true -> otp_secret a <> "" -> exists t,
        TOTP_named (otp_algorithm_map HMAC) (otp_secret a) "SHA1" 6 30 = Ok t
        /\ m' = put_user i (label_totp i t) (otp_secret a) (w_otp w)).
Proof.
  intros Hh Hw Hd Hi Hpw Hni Hnp acc ok.
  destruct (check_password_eq HMAC i pw acc w) as (m' & E & H1 & H2). exists m'. split; [|by split].
  unfold handle_login_step1_request.
  rewrite (bind_eq _ _ _ _ _ (data_value_eq _ _ _ _ _ _ _ Hd Hi)), (bind_eq _ _ _ _ _ (data_value_eq _ _ _ _ _ _ _ Hd Hpw)).
  rewrite !str_empty_false by done. cbn [orb].
  rewrite (bind_eq _ _ _ _ _ (on_db_eq _ _ _ _ (get_account_spec (w_db w) i Hh Hw))). fold acc.
  replace (put_db (w_db w) w) with w by (by destruct w). by rewrite (bind_eq _ _ _ _ _ E).
Qed.

(** C10: the first step of a login succeeds exactly when the account exists and the password verifies
    against its stored hash; the answer says so, and whether a second step is required.  On success the
    stored secret is loaded for the user; on failure no one-time password changes.  The database is
    never changed. *)
Theorem login_step1_correct {D} `{SL : SqliteLaws D} {PW : Pwhash}
    (HMAC : string -> list Z -> list Z -> option (list Z)) (w : world D) (j data : json) (i pw : string) :
  healthy (w_db w) -> tables_wf (view (w_db w)) -> request_data j data ->
  json_value get_string data "id" "" = Ok i -> json_value get_string data "passwd" "" = Ok pw ->
  i <> "" -> pw <> "" ->
  let acc := List.find (fun a => String.eqb (id a) i) (t_accounts (view (w_db w))) in
  let ok := match acc with Some a => verify_password (passwd a) pw | None => false end in
  exists m', handle_login_step1_request (otp_algorithm_map HMAC) j w
    = send_json_response (step1_response ok acc) (put_otp m' w)
  /\ (ok = false -> m' = w_otp w)
  /\ (forall a, acc = Some a -> ok = true -> otp_secret a <> "" -> exists t,
        TOTP_named (otp_algorithm_map HMAC) (otp_secret a) "SHA1" 6 30 = Ok t
        /\ m' = put_user i (label_totp i t) (otp_secret a) (w_otp w)).
Proof. apply login_step1_spec. Qed.

(** ** Concrete states *)

(** A toy password hash: the text behind a mark. *)
#[local] Instance toy_pwhash : Pwhash := {
  crypto_pwhash_str _ p := Some (String "#" p);
  crypto_pwhash_str_verify h p := if String.eqb h (String "#" p) then 0 else -1 }.

#[local] Instance toy_pwhash_laws : PwhashLaws.
Proof.
  split; intros salt p h; cbn; intros [= <-]; [|done]. by rewrite String.eqb_refl.
Qed.


Definition kim_db : Memory.store :=
  snd (store_recovery_codes "kim" ["#abcdefghij"; "#0123456789"]
    (snd (insert_data_accounts (mk_Account "kim" "#pw" "JBSWY3DPEHPK3PXP" true) Memory.empty))).

Definition kim_world : world Memory.store := mk_world kim_db empty_manager (mk_ssl [] [] []) [].

Definition hmac1 : string -> list Z -> list Z -> option (list Z) := fun _ k m => Some (hmac_sha1 k m).

Definition login_data (key i v : string) : json := make_obj [("id", JString i); (key, JString v)].
Definition request (data : json) : json := make_obj [("data", data)].

Lemma kim_healthy : healthy kim_db.
Proof. apply memory_healthy; vm_compute; reflexivity. Qed.

Lemma kim_wf : tables_wf (view (SqliteLaws := Memory.laws) kim_db).
Proof. constructor; cbn; repeat constructor; set_solver. Qed.

Lemma login_step1_correct_witness :
  exists m' t, handle_login_step1_request (otp_algorithm_map hmac1) (request (login_data "passwd" "kim" "pw")) kim_world
    = send_json_response (step1_response true (Some (mk_Account "kim" "#pw" "JBSWY3DPEHPK3PXP" true))) (put_otp m' kim_world)
  /\ m' = put_user "kim" (label_totp "kim" t) "JBSWY3DPEHPK3PXP" empty_manager.
Proof.
  destruct (login_step1_correct (SL := Memory.laws) hmac1 kim_world (request (login_data "passwd" "kim" "pw"))
    (login_data "passwd" "kim" "pw") "kim" "pw" kim_healthy kim_wf
    eq_refl eq_refl eq_refl ltac:(done) ltac:(done)) as (m' & E & _ & H).
  destruct (H _ eq_refl eq_refl ltac:(done)) as (t & _ & Hm). exists m', t. split; [exact E|exact Hm].
Defined.

(** ** The second step *)

Section step2.
Context {D : Type} `{SL : SqliteLaws D} {PW : Pwhash}.

(** The input that is taken for a one-time password. *)
Definition six_digits (input : string) : bool :=
  negb (str_empty input) && all_chars is_digit input && (String.length input =? 6)%nat.

Lemma put_db_id (w : world D) : put_db (w_db w) w = w.
Proof. by destruct w. Qed.

Lemma step2_open e j data i input (w : world D) : request_data j data ->
  json_value get_string data "id" "" = Ok i -> json_value get_string data "input" "" = Ok input ->
  handle_login_step2_request e j w
  = (r ← try_catch (step2_check e i input) is_std_exception (fun _ => mret (false, false));
     send_json_response (step2_response (fst r) (snd r))) w.
Proof.
  intros Hd Hi Hn. unfold handle_login_step2_request.
  rewrite (bind_eq _ _ _ _ _ (data_value_eq _ _ _ _ _ _ _ Hd Hi)).
  by rewrite (bind_eq _ _ _ _ _ (data_value_eq _ _ _ _ _ _ _ Hd Hn)).
Qed.

Lemma step2_otp e i input (w : world D) : six_digits input = true ->
  step2_check e i input w
  = match verify_otp (w_otp w) i (dec_value 0 input) (env_time e) with
    | Ok b => (Ok (b, false), w)
    | Throw x => (Throw x, w)
    end.
Proof.
  intros H6. unfold step2_check. fold (six_digits input). rewrite H6.
  unfold mbind, M_bind, getS, liftR, mret, M_ret. by destruct (verify_otp _ _ _ _).
Qed.

(** The recovery branch when no unused code matches, and when one does. *)
Lemma step2_no_code e i input (w : world D) : healthy (w_db w) -> six_digits input = false ->
  existsb (fun h => verify_password h input) (unused (view (w_db w)) i) = false ->
  step2_check e i input w = (Ok (false, false), w).
Proof.
  intros Hh H6 Hx. unfold step2_check. fold (six_digits input). rewrite H6.
  pose proof (verify_recovery_spec (w_db w) i input Hh) as E. rewrite Hx in E.
  rewrite (bind_eq _ _ _ _ _ (on_db_eq _ _ _ _ E)). by rewrite put_db_id.
Qed.

Lemma step2_code e i input (w : world D) b d' : six_digits input = false ->
  verify_recovery_code i input (w_db w) = (Ok true, w_db w) ->
  invalidate_recovery_code i input (w_db w) = (Ok b, d') ->
  step2_check e i input w = (Ok (true, true), put_db d' w).
Proof.
  intros H6 E1 E2. unfold step2_check. fold (six_digits input). rewrite H6.
  rewrite (bind_eq _ _ _ _ _ (on_db_eq _ _ _ _ E1)). cbv iota. rewrite put_db_id.
  by rewrite (bind_eq _ _ _ _ _ (on_db_eq _ _ _ _ E2)).
Qed.

Lemma catch_ok {A} (m : M (world D) A) p h w a w' : m w = (Ok a, w') -> try_catch m p h w = (Ok a, w').
Proof. intros E. unfold try_catch. by rewrite E. Qed.
End step2.

(** In the second step six digits are taken for a one-time password and are checked with
    [verify_otp] alone: the answer is success exactly when it returns true, and neither the database
    nor the table of one-time passwords changes (so the same digits work again within their
    interval).  A user with no one-time password in the table, as after a restart of the server, is
    refused. *)
Theorem login_step2_otp {D} `{SL : SqliteLaws D} {PW : Pwhash} (w : world D) (e : env) (j data : json)
    (i input : string) :
  request_data j data -> json_value get_string data "id" "" = Ok i -> json_value get_string data "input" "" = Ok input ->
  six_digits input = true ->
  (forall b, verify_otp (w_otp w) i (dec_value 0 input) (env_time e) = Ok b ->
     handle_login_step2_request e j w = send_json_response (step2_response b false) w)
  /\ (user_otps (w_otp w) !! i = None -> handle_login_step2_request e j w = send_json_response (step2_response false false) w).
Proof.
  intros Hd Hi Hn H6. rewrite (step2_open _ _ _ _ _ _ Hd Hi Hn).
  assert (HB : forall b, verify_otp (w_otp w) i (dec_value 0 input) (env_time e) = Ok b ->
    (r ← try_catch (step2_check e i input) is_std_exception (fun _ => mret (false, false));
     send_json_response (step2_response (fst r) (snd r))) w = send_json_response (step2_response b false) w).
  { intros b E. pose proof (step2_otp e i input w H6) as E2. rewrite E in E2.
    by rewrite (bind_eq _ _ _ _ _ (catch_ok _ _ _ _ _ _ E2)). }
  split; [exact HB|]. intros Hu. apply HB. unfold verify_otp. by rewrite Hu.
Qed.

Lemma login_step2_otp_witness :
  handle_login_step2_request (mk_env 0 (fun _ => 0) (fun _ => 0) (fun _ => 0) "")
    (request (login_data "input" "kim" "123456")) kim_world
  = send_json_response (step2_response false false) kim_world.
Proof.
  apply (login_step2_otp (SL := Memory.laws) kim_world (mk_env 0 (fun _ => 0) (fun _ => 0) (fun _ => 0) "")
    (request (login_data "input" "kim" "123456")) (login_data "input" "kim" "123456") "kim" "123456"); done.
Defined.

(** C11: a recovery code alone logs its account in, once, whatever the first step answered or even
    without one: the first request with a code that an unused hash verifies is answered with success,
    and then the same request is answered with failure; the other codes stay usable. *)
Theorem login_step2_recovery_once {D} `{SL : SqliteLaws D} {PW : Pwhash} (w : world D) (e e' : env) (j data : json)
    (i input h : string) :
  request_data j data -> json_value get_string data "id" "" = Ok i -> json_value get_string data "input" "" = Ok input ->
  six_digits input = false -> healthy (w_db w) ->
  h <> "" -> In h (unused (view (w_db w)) i) -> verify_password h input = true ->
  (forall h', In h' (unused (view (w_db w)) i) -> verify_password h' input = true -> h' = h) ->
  exists d', handle_login_step2_request e j w = send_json_response (step2_response true true) (put_db d' w)
  /\ unused (view d') i = List.filter (fun h' => negb (String.eqb h' h)) (unused (view (w_db w)) i)
  /\ (forall w', w_db w' = d' ->
        handle_login_step2_request e' j w' = send_json_response (step2_response false false) w').
Proof.
  intros Hd Hi Hn H6 Hh Hne Hin Hv Hu.
  destruct (code_consumed (w_db w) i input h Hh Hne Hin Hv Hu) as (d' & E1 & E2 & Hh' & Hx & Hun & _).
  exists d'. split_and!; [|done|].
  - rewrite (step2_open _ _ _ _ _ _ Hd Hi Hn).
    by rewrite (bind_eq _ _ _ _ _ (catch_ok _ _ _ _ _ _ (step2_code e i input w true d' H6 E1 E2))).
  - intros w' <-. rewrite (step2_open _ _ _ _ _ _ Hd Hi Hn).
    by rewrite (bind_eq _ _ _ _ _ (catch_ok _ _ _ _ _ _ (step2_no_code e' i input w' Hh' H6 Hx))).
Qed.

Lemma login_step2_recovery_once_witness :
  let e := mk_env 0 (fun _ => 0) (fun _ => 0) (fun _ => 0) "" in
  let j := request (login_data "input" "kim" "abcdefghij") in
  exists d', handle_login_step2_request e j kim_world = send_json_response (step2_response true true) (put_db d' kim_world)
  /\ handle_login_step2_request e j (put_db d' kim_world)
     = send_json_response (step2_response false false) (put_db d' kim_world).
Proof.
  intros e j. destruct (login_step2_recovery_once (SL := Memory.laws) kim_world e e j (login_data "input" "kim" "abcdefghij")
    "kim" "abcdefghij" "#abcdefghij" eq_refl eq_refl eq_refl eq_refl kim_healthy ltac:(done) ltac:(by left) eq_refl) as (d' & E1 & _ & E2).
  - intros h' [<-|[<-|[]]] E; [done|]. by vm_compute in E.
  - exists d'. split; [exact E1|by apply E2].
Defined.

(** ** Registration *)

Section signup.
Context {D : Type} `{SL : SqliteLaws D} {PW : Pwhash}.
Context (HMAC : string -> list Z -> list Z -> option (list Z)) (char_signed : bool).
Notation algos := (otp_algorithm_map HMAC).

(** The calls up to the insertion of the account. *)
Lemma sign_up_start e i pw w hp uri m' svg :
  hash_password (env_salts e 0%nat) pw = Ok hp ->
  generate_otp_uri algos char_signed (env_rands e) i (w_otp w) = (Ok uri, m') -> generate_qr_code_svg uri = Ok svg ->
  sign_up algos char_signed e i pw true w
  = (signUpSuccess ← on_db (insert_data_accounts (mk_Account i hp (get_secret m' i) true));
     (if (signUpSuccess && true)%bool then
        on_db (store_otp_secret i (get_secret m' i)) ;;
        hashed_codes ← liftR (hash_recovery_codes (fun k => env_salts e (S k)) (generate_recovery_codes (env_picks e)));
        on_db (store_recovery_codes i hashed_codes) ;;
        mret tt
      else mret tt) ;;
     mret (signUpSuccess, svg, uri, generate_recovery_codes (env_picks e))) (put_otp m' w).
Proof.
  intros Hp Hg Hq. unfold sign_up. generalize (generate_recovery_codes (env_picks e)) as codes. intros codes.
  rewrite (bind_eq _ _ _ _ _ (liftR_eq _ _ w Hp)).
  match goal with |- (?m ≫= ?k) w = _ =>
    rewrite (bind_eq m k w (svg, uri, get_secret m' i, codes) (put_otp m' w)) end; [reflexivity|].
  rewrite (bind_eq _ _ _ _ _ (on_otp_eq _ _ _ _ Hg)).
  rewrite (bind_eq getS _ _ _ _ eq_refl). by rewrite (bind_eq _ _ _ _ _ (liftR_eq _ _ (put_otp m' w) Hq)).
Qed.

Lemma sign_up_new e i pw w hp uri m' svg d1 b2 d2 hs b3 d3 :
  hash_password (env_salts e 0%nat) pw = Ok hp ->
  generate_otp_uri algos char_signed (env_rands e) i (w_otp w) = (Ok uri, m') -> generate_qr_code_svg uri = Ok svg ->
  insert_data_accounts (mk_Account i hp (get_secret m' i) true) (w_db w) = (Ok true, d1) ->
  store_otp_secret i (get_secret m' i) d1 = (Ok b2, d2) ->
  hash_recovery_codes (fun k => env_salts e (S k)) (generate_recovery_codes (env_picks e)) = Ok hs ->
  store_recovery_codes i hs d2 = (Ok b3, d3) ->
  sign_up algos char_signed e i pw true w
  = (Ok (true, svg, uri, generate_recovery_codes (env_picks e)), put_db d3 (put_otp m' w)).
Proof.
  intros Hp Hg Hq H1 H2 H3 H4. rewrite (sign_up_start _ _ _ _ _ _ _ _ Hp Hg Hq).
  rewrite (bind_eq _ _ _ _ _ (on_db_eq _ (put_otp m' w) _ _ H1)). cbn [andb].
  unfold mbind, M_bind, liftR, mret, M_ret, on_db. cbn [put_db put_otp w_db]. rewrite H2. cbn [w_db]. rewrite H3. cbn [w_db]. by rewrite H4.
Qed.

Lemma sign_up_taken e i pw w hp uri m' svg d1 :
  hash_password (env_salts e 0%nat) pw = Ok hp ->
  generate_otp_uri algos char_signed (env_rands e) i (w_otp w) = (Ok uri, m') -> generate_qr_code_svg uri = Ok svg ->
  insert_data_accounts (mk_Account i hp (get_secret m' i) true) (w_db w) = (Ok false, d1) ->
  sign_up algos char_signed e i pw true w
  = (Ok (false, svg, uri, generate_recovery_codes (env_picks e)), put_db d1 (put_otp m' w)).
Proof.
  intros Hp Hg Hq H1. rewrite (sign_up_start _ _ _ _ _ _ _ _ Hp Hg Hq).
  by rewrite (bind_eq _ _ _ _ _ (on_db_eq _ (put_otp m' w) _ _ H1)).
Qed.

Lemma signup_open e j data i pw otp r w' (w : world D) : request_data j data ->
  json_value get_string data "id" "" = Ok i -> json_value get_string data "passwd" "" = Ok pw ->
  json_value get_bool data "use_otp" true = Ok otp ->
  sign_up algos char_signed e i pw otp w = (Ok r, w') ->
  handle_signup_request algos char_signed e j w
  = (let '(success, svg, uri, codes) := r in send_json_response (signup_response success otp svg uri codes) w').
Proof.
  intros Hd Hi Hp Ho E. unfold handle_signup_request.
  rewrite (bind_eq _ _ _ _ _ (data_value_eq _ _ _ _ _ _ _ Hd Hi)).
  rewrite (bind_eq _ _ _ _ _ (data_value_eq _ _ _ _ _ _ _ Hd Hp)).
  rewrite (bind_eq _ _ _ _ _ (data_value_eq _ _ _ _ _ _ _ Hd Ho)).
  rewrite (bind_eq _ _ _ _ _ (catch_ok _ _ _ _ _ _ E)). by destruct r as [[[success svg] uri] codes].
Qed.

(** The account insertion on a working database. *)
Lemma insert_account_new a d : healthy d -> List.find (fun a' => String.eqb (id a') (id a)) (t_accounts (view d)) = None ->
  exists d', insert_data_accounts a d = (Ok true, d') /\ healthy d'
  /\ view d' = with_accounts (t_accounts (view d) ++ [a])%list (view d) /\ (tables_wf (view d) -> tables_wf (view d')).
Proof.
  intros Hh Hf%find_existsb. destruct (exec_flag_spec (InsAccount a) d eq_refl Hh) as (b & d' & E & Hh' & Hv).
  destruct b; [|cbn in Hv; rewrite Hf in Hv; by destruct Hv]. destruct Hv as [n Hv]. exists d'. split_and!; [exact E|done| |].
  - cbn in Hv. rewrite Hf in Hv. by injection Hv as _ ->.
  - by apply (stmt_effect_wf (InsAccount a) _ _ _ I Hv).
Qed.

Lemma insert_account_taken a d a' : healthy d ->
  List.find (fun a' => String.eqb (id a') (id a)) (t_accounts (view d)) = Some a' ->
  exists d', insert_data_accounts a d = (Ok false, d') /\ healthy d' /\ view d' = view d.
Proof.
  intros Hh Hf. destruct (exec_flag_spec (InsAccount a) d eq_refl Hh) as (b & d' & E & Hh' & Hv). cbn [stmt_effect] in Hv.
  destruct (existsb _ _) eqn:X; [|apply find_existsb in X; congruence].
  destruct b; [by destruct Hv|]. destruct Hv as [_ Hv]. by exists d'.
Qed.

(** Writing the secret again. *)
Lemma store_secret_spec i secret d : healthy d -> exists d', store_otp_secret i secret d = (Ok true, d') /\ healthy d'
  /\ view d' = with_accounts (update_if (fun a => String.eqb (id a) i)
       (fun a => mk_Account (id a) (passwd a) secret (use_otp a)) (t_accounts (view d))) (view d)
  /\ (tables_wf (view d) -> tables_wf (view d')).
Proof.
  intros Hh. destruct (exec_flag_spec (SetSecret secret i) d eq_refl Hh) as (b & d' & E & Hh' & Hv).
  destruct b; [|by destruct Hv]. destruct Hv as [n Hv]. exists d'. split_and!; [exact E|done| |].
  - by injection Hv as _ ->.
  - by apply (stmt_effect_wf (SetSecret secret i) _ _ _ I Hv).
Qed.
End signup.

Lemma find_update_if {A} (p q : A -> bool) (f : A -> A) l : (forall x, p (f x) = p x) ->
  List.find p (update_if q f l) = (fun x => if q x then f x else x) <$> List.find p l.
Proof.
  intros Hp. unfold update_if. induction l as [|x l IH]; [done|]. cbn [map List.find].
  replace (p (if q x then f x else x)) with (p x) by (by destruct (q x); rewrite ?Hp). by destruct (p x).
Qed.

Lemma unused_new_codes t i hs :
  unused (with_codes (t_codes t ++ new_codes i hs)%list t) i = (unused t i ++ hs)%list.
Proof.
  unfold unused. cbn [with_codes t_codes]. rewrite List.filter_app, map_app. f_equal. unfold new_codes.
  induction hs as [|h hs IH]; [done|]. cbn. rewrite String.eqb_refl. cbn. by rewrite IH.
Qed.

Lemma hash_recovery_codes_returns `{Pwhash} codes : (forall salt p, crypto_pwhash_str salt p <> None) ->
  forall salts, exists hs, hash_recovery_codes salts codes = Ok hs.
Proof.
  intros Hm. induction codes as [|c codes IH]; intros salts; cbn [hash_recovery_codes]; [by eexists|].
  unfold hash_password. specialize (Hm (salts 0%nat) c). destruct (crypto_pwhash_str _ _); [|done].
  cbn [mbind res_bind]. destruct (IH (fun i => salts (S i))) as [hs ->]. by eexists.
Qed.

(** C12: registering a new id of at most 370 bytes with a one-time password, on a working database and
    with memory for the hashes, is answered with success, the QR code, its URI and the recovery codes.
    Afterwards the account is found with a hash that verifies the password and with the secret the
    server uses; a phone that scans the QR code reads the URI, and gets from it the server's one-time
    password; and the account's unused hashes are
    those it had (none, for an id never used) and one that verifies each recovery code sent. *)
Theorem signup_new_account {D} `{SL : SqliteLaws D} `{PL : PwhashLaws}
    (HMAC : string -> list Z -> list Z -> option (list Z)) (char_signed : bool) (w : world D) (e : env)
    (j data : json) (i pw : string) :
  let map := otp_algorithm_map HMAC in
  healthy (w_db w) -> tables_wf (view (w_db w)) -> (forall salt p, crypto_pwhash_str salt p <> None) ->
  (String.length i <= 370)%nat ->
  request_data j data ->
  json_value get_string data "id" "" = Ok i -> json_value get_string data "passwd" "" = Ok pw ->
  json_value get_bool data "use_otp" true = Ok true -> i <> "" ->
  fst (get_account_by_id i (w_db w)) = Ok None ->
  let codes := generate_recovery_codes (env_picks e) in
  exists w1 svg uri a t hs,
    handle_signup_request map char_signed e j w = send_json_response (signup_response true true svg uri codes) w1
    /\ fst (get_account_by_id i (w_db w1)) = Ok (Some a) /\ verify_password (passwd a) pw = true /\ use_otp a = true
    /\ user_otps (w_otp w1) !! i = Some t /\ otp_secret a = m_base32_secret (totp_base t)
    /\ read_svg svg = Some (bytes_of uri) /\ factory_create (factory map) uri = Ok (ptr_totp t)
    /\ unused (view (w_db w1)) i = (unused (view (w_db w)) i ++ hs)%list
    /\ Forall2 (fun h c => verify_password h c = true /\ h <> "") hs codes.
Proof.
  intros map Hh Hw Hm Hq Hd Hi Hp Ho Hne Hnew codes. subst map. rewrite get_account_spec in Hnew by done. injection Hnew as Hnew.
  destruct (hash_password (env_salts e 0%nat) pw) as [hp|] eqn:Ehp.
  2: { unfold hash_password in Ehp. specialize (Hm (env_salts e 0%nat) pw). by destruct (crypto_pwhash_str _ pw). }
  destruct (generate_otp_uri_returns HMAC char_signed (env_rands e) i (w_otp w)) as (uri & m' & Eg).
  destruct (registration_read_back _ _ _ _ _ _ _ Hne Eg) as (t & Ht & Hs & Hf). destruct (registration_image _ _ _ _ _ _ _ Eg Hq) as (svg & Esvg & Hrd).
  set (a := mk_Account i hp (get_secret m' i) true).
  destruct (insert_account_new a (w_db w) Hh Hnew) as (d1 & E1 & Hh1 & V1 & W1).
  destruct (store_secret_spec i (get_secret m' i) d1 Hh1) as (d2 & E2 & Hh2 & V2 & W2).
  destruct (hash_recovery_codes_returns codes Hm (fun k => env_salts e (S k))) as [hs Ehs].
  destruct (store_codes_spec i hs d2) as (b3 & d3 & E3 & V3 & _ & _ & L3); [by destruct Hh2 as (_ & _ & ?)|]. destruct (L3 Hh2) as [-> Hh3].
  assert (Ha : List.find (fun a => String.eqb (id a) i) (t_accounts (view d2)) = Some a).
  { rewrite V2, V1. cbn [with_accounts t_accounts]. rewrite find_update_if by done. rewrite find_app_new, Hnew.
    cbn [id a]. rewrite String.eqb_refl. cbn. by rewrite String.eqb_refl. }
  assert (Hw3 : tables_wf (view d3)).
  { rewrite V3. by destruct (W2 (W1 Hw)). }
  exists (put_db d3 (put_otp m' w)), svg, uri, a, t, hs. split.
  { by rewrite (signup_open _ _ _ _ _ _ _ _ _ _ _ Hd Hi Hp Ho
      (sign_up_new _ _ _ _ _ _ _ _ _ _ _ _ _ _ _ _ Ehp Eg Esvg E1 E2 Ehs E3)). }
  cbn [put_db put_otp w_db w_otp]. rewrite get_account_spec by done. rewrite V3.
  split_and!; try done; [by cbn; rewrite Ha|by eapply hash_password_verifies| |by eapply hash_recovery_codes_verify].
  rewrite unused_new_codes, V2, V1. done.
Qed.

Definition some_env : env := mk_env 1700000000 (fun k => 7 * Z.of_nat k) Z.of_nat (fun k => Z.of_nat (k mod 62)) "".

Definition signup_data (i pw : string) : json :=
  make_obj [("id", JString i); ("passwd", JString pw); ("use_otp", JBool true)].

Definition empty_world : world Memory.store := mk_world Memory.empty empty_manager (mk_ssl [] [] []) [].

Lemma signup_new_account_witness :
  exists w1 svg uri a hs,
    handle_signup_request (otp_algorithm_map hmac1) false some_env (request (signup_data "kim" "pw")) empty_world
    = send_json_response (signup_response true true svg uri (generate_recovery_codes (env_picks some_env))) w1
  /\ fst (get_account_by_id "kim" (w_db w1)) = Ok (Some a) /\ verify_password (passwd a) "pw" = true
  /\ unused (view (SqliteLaws := Memory.laws) (w_db w1)) "kim" = hs /\ length hs = 5%nat.
Proof.
  destruct (signup_new_account (SL := Memory.laws) hmac1 false empty_world some_env (request (signup_data "kim" "pw"))
    (signup_data "kim" "pw") "kim" "pw") as (w1 & svg & uri & a & t & hs & E & A1 & A2 & _ & _ & _ & _ & _ & U & F);
    [exact empty_healthy|apply tables_wf_empty|discriminate|cbn; lia|reflexivity..|discriminate|reflexivity|].
  exists w1, svg, uri, a, hs. split; [exact E|]. split; [exact A1|]. split; [exact A2|]. split; [exact U|].
  by apply Forall2_length in F as ->.
Defined.

(** Registering an id that is taken is answered with failure and leaves every table as it was,
    but the table of one-time passwords already holds a new secret for the owner of the id: until the
    next first login step loads the stored one, the owner's codes are checked against a secret shown
    to nobody. *)
Theorem signup_taken_replaces_otp {D} `{SL : SqliteLaws D} {PW : Pwhash}
    (HMAC : string -> list Z -> list Z -> option (list Z)) (char_signed : bool) (w : world D) (e : env)
    (j data : json) (i pw : string) (a : Account) :
  let map := otp_algorithm_map HMAC in
  healthy (w_db w) -> tables_wf (view (w_db w)) -> (forall salt p, crypto_pwhash_str salt p <> None) ->
  (String.length i <= 370)%nat ->
  request_data j data ->
  json_value get_string data "id" "" = Ok i -> json_value get_string data "passwd" "" = Ok pw ->
  json_value get_bool data "use_otp" true = Ok true ->
  fst (get_account_by_id i (w_db w)) = Ok (Some a) ->
  exists w1 svg uri codes t,
    handle_signup_request map char_signed e j w = send_json_response (signup_response false true svg uri codes) w1
    /\ signup_response false true svg uri codes = make_obj [("request_id", JInt 20); ("sign_up_success", JInt 0)]
    /\ view (w_db w1) = view (w_db w)
    /\ user_otps (w_otp w1) !! i = Some t /\ m_base32_secret (totp_base t) = random_base32 16 (env_rands e).
Proof.
  intros map Hh Hw Hm Hq Hd Hi Hp Ho Ha. subst map. rewrite get_account_spec in Ha by done. injection Ha as Ha.
  destruct (hash_password (env_salts e 0%nat) pw) as [hp|] eqn:Ehp.
  2: { unfold hash_password in Ehp. specialize (Hm (env_salts e 0%nat) pw). by destruct (crypto_pwhash_str _ pw). }
  destruct (generate_otp_uri_returns HMAC char_signed (env_rands e) i (w_otp w)) as (uri & m' & Eg).
  destruct (registration_image _ _ _ _ _ _ _ Eg Hq) as (svg & Esvg & _).
  destruct (insert_account_taken (mk_Account i hp (get_secret m' i) true) (w_db w) a Hh Ha) as (d1 & E1 & _ & V1).
  destruct (generate_otp_uri_spec _ _ _ _ _ _ _ Eg) as (t & Ht & _ & ->).
  destruct (TOTP_named_label _ _ i _ Ht) as (al & _ & Hl).
  eexists (put_db d1 (put_otp _ w)), svg, uri, _, (label_totp i t). split.
  { by rewrite (signup_open _ _ _ _ _ _ _ _ _ _ _ Hd Hi Hp Ho (sign_up_taken _ _ _ _ _ _ _ _ _ _ _ Ehp Eg Esvg E1)). }
  cbn [put_db put_otp w_db w_otp put_user user_otps]. rewrite lookup_insert_eq. split_and!; try done. by rewrite Hl.
Qed.

Lemma signup_taken_replaces_otp_witness :
  exists w1 svg uri codes t,
    handle_signup_request (otp_algorithm_map hmac1) false some_env (request (signup_data "kim" "x")) kim_world
    = send_json_response (signup_response false true svg uri codes) w1
  /\ user_otps (w_otp w1) !! "kim" = Some t /\ m_base32_secret (totp_base t) <> "JBSWY3DPEHPK3PXP".
Proof.
  destruct (signup_taken_replaces_otp (SL := Memory.laws) hmac1 false kim_world some_env (request (signup_data "kim" "x"))
    (signup_data "kim" "x") "kim" "x" (mk_Account "kim" "#pw" "JBSWY3DPEHPK3PXP" true))
    as (w1 & svg & uri & codes & t & E & _ & _ & Ht & Hs);
    [exact kim_healthy|apply kim_wf|discriminate|cbn; lia|reflexivity..|].
  exists w1, svg, uri, codes, t. split; [exact E|]. split; [exact Ht|]. rewrite Hs. by vm_compute.
Defined.

(** ** Lines *)

Section lines.
Context {D : Type} `{SL : SqliteLaws D}.

Lemma delete_all_spec s d : stmt_ok s = true -> stmt_effect s (view d) <> None -> healthy d -> exists n d',
  exec_changes (stmt_text s) (stmt_args s) d = (Ok (negb (n =? 0)), d') /\ healthy d'
  /\ stmt_effect s (view d) = Some (n, view d').
Proof.
  intros Hs Hn Hh. destruct (exec_changes_spec s d Hs Hh) as (b & d' & E & Hh' & [(n & Hv & ->)|[? _]]); [|done]. by exists n, d'.
Qed.

Lemma camera_delete_all_eq indexs : forall w : world D,
  camera_delete_all indexs w = (Ok tt, mk_world (w_db w) (w_otp w) (w_ssl w) (w_camera w ++ map cam_delete indexs)%list).
Proof.
  induction indexs as [|i indexs IH]; intros w; cbn [camera_delete_all].
  - cbn. rewrite app_nil_r. by destruct w.
  - unfold mbind, M_bind, camera. rewrite IH. cbn. by rewrite <- app_assoc.
Qed.

Lemma insert_line_new l d : healthy d ->
  existsb (fun l' => (index l' =? index l) || String.eqb (Db.name l') (Db.name l)) (t_lines (view d)) = false ->
  exists d', insert_data_lines l d = (Ok true, d') /\ healthy d'
  /\ view d' = with_lines (t_lines (view d) ++ [l])%list (view d).
Proof.
  intros Hh Hx. destruct (exec_flag_spec (InsLine l) d eq_refl Hh) as (b & d' & E & Hh' & Hv). cbn [stmt_effect] in Hv. rewrite Hx in Hv.
  destruct b; [|by destruct Hv]. destruct Hv as [n [= _ Hv]]. exists d'. split; [exact E|]. by rewrite Hv.
Qed.

Lemma insert_fresh (l : CrossLine) rest ls : NoDup (map index (rest ++ l :: ls)) -> NoDup (map Db.name (rest ++ l :: ls)) ->
  existsb (fun l' => (index l' =? index l) || String.eqb (Db.name l') (Db.name l)) rest = false.
Proof.
  intros Hi Hn. apply not_true_is_false. intros (l' & Hin & Hx)%existsb_exists.
  rewrite map_app in Hi, Hn. apply NoDup_app in Hi as (_ & Hi & _). apply NoDup_app in Hn as (_ & Hn & _).
  apply orb_prop in Hx as [Hx%Z.eqb_eq|Hx%String.eqb_eq].
  - apply (Hi (index l)); [apply list_elem_of_In; rewrite <- Hx; by apply in_map|cbn; set_solver].
  - apply (Hn (Db.name l)); [apply list_elem_of_In; rewrite <- Hx; by apply in_map|cbn; set_solver].
Qed.

(** Inserting lines whose numbers and names are all distinct and new. *)
Lemma insert_all_new ls : forall d, healthy d ->
  NoDup (map index (t_lines (view d) ++ ls)) -> NoDup (map Db.name (t_lines (view d) ++ ls)) ->
  exists d', insert_all ls d = (Ok tt, d') /\ healthy d' /\ view d' = with_lines (t_lines (view d) ++ ls)%list (view d).
Proof.
  induction ls as [|l ls IH]; intros d Hh Hi Hn; cbn [insert_all].
  { exists d. rewrite app_nil_r. split; [done|]. split; [done|]. by destruct (view d). }
  destruct (insert_line_new l d Hh) as (d1 & E1 & Hh1 & V1); [by eapply insert_fresh|].
  destruct (IH d1 Hh1) as (d2 & E2 & Hh2 & V2).
  1,2: rewrite V1; cbn [with_lines t_lines]; by rewrite <- app_assoc.
  exists d2. split; [|split; [done|]].
  - unfold mbind, M_bind. by rewrite E1.
  - rewrite V2, V1. cbn. by rewrite <- app_assoc.
Qed.
End lines.

(** The lines whose number is one of the given ones. *)
Definition on_camera (indexs : list Z) (ls : list CrossLine) : list CrossLine :=
  List.filter (fun l => existsb (fun i => i =? index l) indexs) ls.

Lemma filter_split {A} (p q : A -> bool) l : (forall x, p x = true -> q x = false) ->
  Permutation (List.filter p l ++ List.filter q l) (List.filter (fun x => p x || q x) l).
Proof.
  intros Hd. induction l as [|x l IH]; [done|]. cbn. specialize (Hd x). destruct (p x), (q x); cbn; try done.
  - by discriminate Hd.
  - by rewrite IH.
  - by rewrite <- Permutation_middle, IH.
Qed.

Lemma filter_perm {A} (p : A -> bool) l l' : Permutation l l' -> Permutation (List.filter p l) (List.filter p l').
Proof.
  induction 1 as [|x l l' _ IH|x y l|l l' l'' _ IH1 _ IH2]; cbn; [done| | |by rewrite IH1].
  - destruct (p x); [by rewrite IH|done].
  - destruct (p x), (p y); [constructor|done..].
Qed.

Lemma real_lines_perm httpLines ls : NoDup (map index httpLines) ->
  Permutation (real_lines httpLines ls) (on_camera (map index httpLines) ls).
Proof.
  unfold on_camera, real_lines. induction httpLines as [|h hs IH]; cbn [map concat].
  - intros _. by rewrite filter_none.
  - intros [Hx Hn]%NoDup_cons. rewrite (IH Hn). cbn [existsb].
    apply (filter_split (fun l => index h =? index l) (fun l => existsb (fun i => i =? index l) (map index hs))).
    intros l Hl%Z.eqb_eq. apply not_true_is_false. intros (i & Hin & Hi%Z.eqb_eq)%existsb_exists.
    apply Hx. rewrite Hl, <- Hi. by apply list_elem_of_In.
Qed.

Definition is_nil {A} (l : list A) : bool := match l with [] => true | _ => false end.

Lemma length_zero {A} (l : list A) : (Z.of_nat (length l) =? 0) = is_nil l.
Proof. by destruct l. Qed.

(** Deleting all lines asks the camera to delete each of its lines, in order, and empties the
    three tables of lines, always; but it is answered with success only when none of the three was
    empty before. *)
Theorem line_delete_all_answer {D} `{SL : SqliteLaws D} (w : world D) (e : env) (j : json)
    (items : list json) (indexs : list Z) :
  healthy (w_db w) -> camera_items e = Ok items ->
  read_all (fun item => field get_int item "index") items = Ok indexs ->
  let t := view (w_db w) in
  let success := negb (is_nil (t_lines t)) && negb (is_nil (t_baseLines t)) && negb (is_nil (t_verticals t)) in
  exists w1, handle_line_delete_all_request e j w
    = send_json_response (make_obj [("request_id", JInt 13); ("delete_success", flag success)]) w1
  /\ view (w_db w1) = with_verticals [] (with_baseLines [] (with_lines [] t))
  /\ w_camera w1 = (w_camera w ++ map cam_delete indexs)%list.
Proof.
  intros Hh Hc Hr t success. unfold handle_line_delete_all_request.
  rewrite (bind_eq _ _ _ _ _ (liftR_eq _ _ w Hc)), (bind_eq _ _ _ _ _ (liftR_eq _ _ w Hr)).
  rewrite (bind_eq _ _ _ _ _ (camera_delete_all_eq indexs w)).
  destruct (delete_all_spec DelLines (w_db w) eq_refl ltac:(done) Hh) as (n1 & d1 & E1 & Hh1 & V1).
  destruct (delete_all_spec DelBases d1 eq_refl ltac:(done) Hh1) as (n2 & d2 & E2 & Hh2 & V2).
  destruct (delete_all_spec DelVerticals d2 eq_refl ltac:(done) Hh2) as (n3 & d3 & E3 & Hh3 & V3).
  cbn [stmt_effect] in V1, V2, V3. injection V1 as <- V1. injection V2 as <- V2. injection V3 as <- V3.
  match goal with |- context [mk_world ?d ?o ?s ?c] => set (w0 := mk_world d o s c) end.
  rewrite (bind_eq _ _ _ _ _ (on_db_eq delete_all_data_lines w0 _ _ E1)).
  rewrite (bind_eq _ _ _ _ _ (on_db_eq delete_all_data_baseLines (put_db d1 w0) _ _ E2)).
  rewrite (bind_eq _ _ _ _ _ (on_db_eq delete_all_data_verticalLineEquations (put_db d2 (put_db d1 w0)) _ _ E3)).
  exists (put_db d3 w0). split; [|split; [|done]].
  - rewrite <- V2, <- V1, !length_zero. reflexivity.
  - cbn [put_db w_db]. by rewrite <- V3, <- V2, <- V1.
Qed.

(** The camera's answer with one line, number 1. *)
Definition gate_item : json :=
  make_obj [("index", JInt 1); ("name", JString "gate"); ("mode", JString "Right");
    ("lineCoordinates", JArray [make_obj [("x", JInt 0); ("y", JInt 0)]; make_obj [("x", JInt 9); ("y", JInt 9)]])].

Definition gate_text : string :=
  match dump_string (make_obj [("lineCrossing", JArray [make_obj [("line", JArray [gate_item])]])]) with
  | Ok s => s
  | Throw _ => ""
  end.

Definition gate_env : env := mk_env 0 (fun _ => 0) (fun _ => 0) (fun _ => 0) gate_text.

Definition gate_db : Memory.store :=
  snd (insert_data_lines (mk_CrossLine 2 5 5 6 6 "door" "Left")
    (snd (insert_data_lines (mk_CrossLine 1 0 0 9 9 "gate" "Right") Memory.empty))).

Definition gate_world : world Memory.store := mk_world gate_db empty_manager (mk_ssl [] [] []) [].

Lemma gate_healthy : healthy gate_db.
Proof. apply memory_healthy; vm_compute; reflexivity. Qed.

(** Two lines and no base line: all are deleted, and the answer says the deletion failed. *)
Lemma line_delete_all_answer_witness :
  exists w1, handle_line_delete_all_request gate_env JNull gate_world
    = send_json_response (make_obj [("request_id", JInt 13); ("delete_success", JInt 0)]) w1
  /\ t_lines (view (SqliteLaws := Memory.laws) (w_db w1)) = [] /\ w_camera w1 = [cam_delete 1].
Proof.
  destruct (line_delete_all_answer (SL := Memory.laws) gate_world gate_env JNull [gate_item] [1] gate_healthy
    ltac:(vm_compute; reflexivity) eq_refl) as (w1 & E & V & C). exists w1. split; [exact E|]. split; [by rewrite V|exact C].
Defined.

(** Reading all lines drops the stored lines the camera does not have: with distinct numbers on
    the camera, the table afterwards holds exactly the stored lines whose number is on the camera,
    with their stored names, modes and coordinates, and the answer lists exactly these. *)
Theorem line_select_all_keeps_camera {D} `{SL : SqliteLaws D} (w : world D) (e : env) (j : json)
    (items : list json) (httpLines : list CrossLine) :
  healthy (w_db w) -> tables_wf (view (w_db w)) -> camera_items e = Ok items ->
  read_all read_http_line items = Ok httpLines -> NoDup (map index httpLines) ->
  exists w1 ls, handle_line_select_all_request e j w
    = send_json_response (make_obj [("request_id", JInt 12); ("data", JArray (map line_json ls))]) w1
  /\ view (w_db w1) = with_lines ls (view (w_db w))
  /\ Permutation ls (on_camera (map index httpLines) (t_lines (view (w_db w)))).
Proof.
  intros Hh Hw Hc Hr Hn. unfold handle_line_select_all_request.
  rewrite (bind_eq _ _ _ _ _ (liftR_eq _ _ w Hc)), (bind_eq _ _ _ _ _ (liftR_eq _ _ w Hr)).
  destruct (select_lines_spec (w_db w) Hh Hw) as (db & E0 & Hp & _).
  rewrite (bind_eq _ _ _ _ _ (on_db_eq _ w _ _ E0)). cbv zeta. set (ls := real_lines httpLines db).
  assert (Hl : Permutation ls (on_camera (map index httpLines) (t_lines (view (w_db w))))).
  { unfold ls. rewrite real_lines_perm by done. unfold on_camera. by apply filter_perm. }
  destruct (delete_all_spec DelLines (w_db w) eq_refl ltac:(done) Hh) as (n1 & d1 & E1 & Hh1 & V1).
  cbn [stmt_effect] in V1. injection V1 as <- V1.
  destruct (insert_all_new ls d1 Hh1) as (d2 & E2 & Hh2 & V2).
  1,2: rewrite <- V1; cbn [with_lines t_lines app]; rewrite Hl; apply NoDup_map_filter; apply Hw.
  rewrite (bind_eq _ _ _ _ _ (on_db_eq delete_all_data_lines (put_db (w_db w) w) _ _ E1)).
  rewrite (bind_eq _ _ _ _ _ (on_db_eq (insert_all ls) (put_db d1 (put_db (w_db w) w)) _ _ E2)).
  eexists _, ls. split; [done|]. split; [|done]. cbn [put_db w_db]. rewrite V2, <- V1. done.
Qed.

Lemma line_select_all_keeps_camera_witness :
  exists w1 ls, handle_line_select_all_request gate_env JNull gate_world
    = send_json_response (make_obj [("request_id", JInt 12); ("data", JArray (map line_json ls))]) w1
  /\ t_lines (view (SqliteLaws := Memory.laws) (w_db w1)) = ls /\ ls = [mk_CrossLine 1 0 0 9 9 "gate" "Right"].
Proof.
  destruct (line_select_all_keeps_camera (SL := Memory.laws) gate_world gate_env JNull [gate_item]
    [mk_CrossLine 1 0 0 9 9 "gate" "Right"] gate_healthy) as (w1 & ls & E & V & P).
  - constructor; cbn; repeat constructor; unfold line_ok, int_range; cbn; try lia; set_solver.
  - vm_compute. reflexivity.
  - reflexivity.
  - repeat constructor; set_solver.
  - exists w1, ls. split; [exact E|]. split; [by rewrite V|]. by apply Permutation_sym, Permutation_length_1_inv in P.
Defined.
