(* ===== verification/ServerSpec.v ===== *)
(** * What a connection does with whole requests

    Theorems that compose the connection loop of tcp_server.cpp with the handlers of
    request_handlers.cpp. *)

From S2P Require Import QrImage.
From S2P Require Import Prelude Str Utils Json JsonText OtpUri Sha1 Otp Hash Ssl Db DbSpec OtpManager Handlers Bbox TcpServer HandlersSpec.
From Stdlib Require Import Ascii.
From Stdlib Require String.

Local Open Scope string_scope.
Local Open Scope Z_scope.
#[local] Opaque dump_string parse_string generate_qr_code_svg generate_recovery_codes.

(** ** Registration of a long id *)

Section long_id.
Context {D : Type} `{SQ : Sqlite D} {PW : Pwhash}.
Context (HMAC : string -> list Z -> list Z -> option (list Z)) (char_signed : bool).
Notation algos := (otp_algorithm_map HMAC).

Lemma otp_uri_same rands i m m2 : fst (generate_otp_uri algos char_signed rands i m) = fst (generate_otp_uri algos char_signed rands i m2).
Proof.
  unfold generate_otp_uri, mbind, M_bind, liftR, modS. destruct (TOTP_named _ _ _ _ _); [|done]. by destruct (totp_build_uri _ _).
Qed.

(** The exception is the same in every state. *)
Lemma sign_up_too_long e i pw : (forall salt p, crypto_pwhash_str salt p <> None) -> 2331 < Z.of_nat (String.length i) <= 2 ^ 29 ->
  exists msg, forall w : world D, fst (sign_up algos char_signed e i pw true w) = Throw (length_error msg).
Proof.
  intros Hm Hi. destruct (generate_otp_uri_returns HMAC char_signed (env_rands e) i empty_manager) as (uri & m0 & E0).
  destruct (registration_too_long _ _ _ _ _ _ _ E0 Hi) as [msg Emsg]. exists msg. intros w. unfold sign_up.
  destruct (hash_password (env_salts e 0%nat) pw) as [hp|] eqn:Ehp.
  2: { unfold hash_password in Ehp. specialize (Hm (env_salts e 0%nat) pw). by destruct (crypto_pwhash_str _ pw). }
  unfold mbind, M_bind, liftR, getS, on_otp. pose proof (otp_uri_same (env_rands e) i empty_manager (w_otp w)) as E. rewrite E0 in E. cbn [fst] in E.
  destruct (generate_otp_uri algos char_signed (env_rands e) i (w_otp w)) as [r m1] eqn:Eg. cbn [fst] in E. subst r. by rewrite Emsg.
Qed.

Lemma signup_too_long e j data i pw : (forall salt p, crypto_pwhash_str salt p <> None) -> 2331 < Z.of_nat (String.length i) <= 2 ^ 29 ->
  request_data j data -> json_value get_string data "id" "" = Ok i -> json_value get_string data "passwd" "" = Ok pw ->
  json_value get_bool data "use_otp" true = Ok true ->
  exists msg, forall w : world D, fst (handle_signup_request algos char_signed e j w) = Throw (length_error msg).
Proof.
  intros Hm Hi Hd Hid Hpw Ho. destruct (sign_up_too_long e i pw Hm Hi) as [msg Hmsg]. exists msg. intros w. unfold handle_signup_request.
  rewrite (bind_eq _ _ _ _ _ (data_value_eq _ _ _ _ _ _ _ Hd Hid)). rewrite (bind_eq _ _ _ _ _ (data_value_eq _ _ _ _ _ _ _ Hd Hpw)).
  rewrite (bind_eq _ _ _ _ _ (data_value_eq _ _ _ _ _ _ _ Hd Ho)). specialize (Hmsg w). unfold mbind, M_bind, try_catch.
  destruct (sign_up _ _ e i pw true w) as [r w1]. cbn in Hmsg. by subst r.
Qed.
End long_id.

(** A registration with a one-time password and an id of more than 2331 bytes ends the whole server: its
    URI fits no QR code, [encodeText] throws [std::length_error], which is a [std::logic_error], and
    the handler catches only [std::runtime_error], the loop only parse errors. *)
Theorem long_id_terminates {D} `{SQ : Sqlite D} {PW : Pwhash} (HMAC : string -> list Z -> list Z -> option (list Z))
    (char_signed : bool) (envs : nat -> env) (stream_ends : bool) (w : world D) (c : conn) (body rest : list Z) (j data : json) (i pw : string) :
  (forall salt p, crypto_pwhash_str salt p <> None) ->
  (0 < length body)%nat -> Z.of_nat (length body) < 2 ^ 31 ->
  arriving (incoming (w_ssl w)) = (net32 (Z.of_nat (length body)) ++ body ++ rest)%list ->
  parse_string (string_of body) = Ok j -> json_value get_int j "request_id" (-1) = Ok 9 ->
  request_data j data -> json_value get_string data "id" "" = Ok i -> json_value get_string data "passwd" "" = Ok pw ->
  json_value get_bool data "use_otp" true = Ok true -> 2331 < Z.of_nat (String.length i) <= 2 ^ 29 ->
  exists msg, fst (serve (otp_algorithm_map HMAC) char_signed envs stream_ends (w, c)) = Terminated (length_error msg).
Proof.
  intros Hm Hp Hl Ha Hj Hr Hd Hid Hpw Ho Hi.
  destruct (signup_too_long HMAC char_signed (envs 0%nat) j data i pw Hm Hi Hd Hid Hpw Ho) as [msg Hmsg]. exists msg.
  assert (HT : fst (client_loop (otp_algorithm_map HMAC) char_signed (S (length (arriving (incoming (w_ssl w))))) envs (w, c)) = Terminated (length_error msg)).
  { eapply client_loop_first; [done..|]. right. exists j. split_and!; [done..|]. intros [w1 c1].
    unfold route_request, mbind, M_bind, liftR. rewrite Hr. unfold on_world. cbn [fst]. specialize (Hmsg w1).
    by destruct (handle_signup_request _ _ _ _ w1). }
  unfold serve. cbn [fst] in *. destruct (client_loop _ _ _ _ _) as [o [w2 c2]]. cbn in HT. by subst.
Qed.

#[local] Instance toy_sqlite : Sqlite unit := {
  sql_exec _ _ d := (Ok 0, d);
  sql_query _ _ _ := ([], None);
  sql_begin d := (Ok tt, d);
  sql_commit d := (Ok tt, d);
  sql_rollback d := d;
  sql_real_text _ := "" }.

#[local] Instance toy_pwhash : Pwhash := {
  crypto_pwhash_str _ p := Some (String "#" p);
  crypto_pwhash_str_verify h p := if String.eqb h (String "#" p) then 0 else -1 }.

Definition long_id : string := string_of (replicate 2332 97).

Definition long_request : json := make_obj [("request_id", JInt 9); ("data", make_obj [("id", JString long_id); ("passwd", JString "pw")])].

Definition long_text : string :=
  let q s := quote +:+ s +:+ quote in
  "{" +:+ q "data" +:+ ":{" +:+ q "id" +:+ ":" +:+ q long_id +:+ "," +:+ q "passwd" +:+ ":" +:+ q "pw" +:+ "}," +:+ q "request_id" +:+ ":9}".

Lemma long_text_parses : parse_string (string_of (bytes_of long_text)) = Ok long_request.
Proof. vm_cast_no_check (eq_refl (Ok long_request)). Qed.

Lemma long_id_length : String.length long_id = 2332%nat.
Proof. vm_cast_no_check (eq_refl 2332%nat). Qed.

Lemma long_text_length : length (bytes_of long_text) = 2379%nat.
Proof. vm_cast_no_check (eq_refl 2379%nat). Qed.

Lemma long_id_terminates_witness :
  exists msg, fst (serve (D := unit) (otp_algorithm_map (fun _ k m => Some (hmac_sha1 k m))) false
    (fun _ => mk_env 0 (fun _ => 0) (fun _ => 0) (fun _ => 0) "") true
    (mk_world tt empty_manager (mk_ssl [rd_data (net32 (Z.of_nat (length (bytes_of long_text))) ++ bytes_of long_text)%list] [] []) [], new_conn false []))
  = Terminated (length_error msg).
Proof.
  apply (long_id_terminates _ false _ true _ (new_conn false []) (bytes_of long_text) [] long_request
    (make_obj [("id", JString long_id); ("passwd", JString "pw")]) long_id "pw").
  - intros salt p. discriminate.
  - rewrite long_text_length. lia.
  - rewrite long_text_length. lia.
  - cbn [w_ssl incoming arriving]. by rewrite app_nil_r.
  - apply long_text_parses.
  - vm_compute. reflexivity.
  - vm_compute. reflexivity.
  - vm_compute. reflexivity.
  - vm_compute. reflexivity.
  - vm_compute. reflexivity.
  - rewrite long_id_length. lia.
Defined.

(** ** The connection as a sequence of requests *)

(** The server without the wire: the requests one after the other, on a state in which nothing arrives. *)
Section session.
Context {D : Type} `{SQ : Sqlite D} {PW : Pwhash}.
Context (algos : gmap string Algo_info) (char_signed : bool).

Fixpoint session (envs : nat -> env) (requests : list json) (st : state) : outcome * state (D := D) :=
  match requests with
  | [] => (Closed, st)
  | j :: requests =>
      match try_catch (route_request algos char_signed (envs 0%nat) j) is_json_parse_error (fun _ => mret tt) st with
      | (Ok _, st) => session (fun k => envs (S k)) requests st
      | (Throw e, st) => (Terminated e, st)
      end
  end.

(** The connection as the requests see it. *)
Definition seen (st : state (D := D)) : state := (set_incoming [] (fst st), snd st).

Definition framed (body : list Z) : list Z := (net32 (Z.of_nat (length body)) ++ body)%list.

(** A body a client may send for a request. *)
Definition carries (body : list Z) (j : json) : Prop :=
  (0 < length body)%nat /\ Z.of_nat (length body) < 2 ^ 31 /\ parse_string (string_of body) = Ok j.

(** What the server closes the connection on: less than a whole frame, a frame of length 0, or one whose
    length is no [int], which [SSL_read] refuses, whatever follows. *)
Definition cut_off (rest : list Z) : Prop :=
  (length rest < 4)%nat \/ of_net32 (take 4 rest) = 0 \/ 2 ^ 31 <= of_net32 (take 4 rest) < 2 ^ 32
  \/ Z.of_nat (length rest) < 4 + of_net32 (take 4 rest).

Lemma recvAll_out s len : outcomes (snd (recvAll s len)) = outcomes s /\ sent (snd (recvAll s len)) = sent s.
Proof. unfold recvAll. by destruct (recv_loop _ _ _). Qed.

Lemma receive_out s : outcomes (snd (receive_json_message s)) = outcomes s /\ sent (snd (receive_json_message s)) = sent s.
Proof.
  unfold receive_json_message. destruct (recvAll_out s 4) as [E1 E2]. destruct (recvAll s 4) as [[l|] s1]; [|done].
  destruct (of_net32 l =? 0); [done|]. cbn [snd] in *. rewrite <- E1, <- E2.
  destruct (recvAll_out s1 (Z.to_nat (of_net32 l))). by destruct (recvAll s1 _) as [[b|] s2].
Qed.

Lemma recvAll_short s len : (length (arriving (incoming s)) < len)%nat -> fst (recvAll s len) = None.
Proof.
  intros Hl. destruct (recvAll s len) as [[r|] s'] eqn:E; [|done]. apply recvAll_sound in E as [? _]. lia.
Qed.

Lemma recvAll_big s len : 2 ^ 31 <= Z.of_nat len < 2 ^ 32 -> fst (recvAll s len) = None.
Proof. intros H. unfold recvAll. by rewrite recv_loop_big. Qed.

Lemma receive_cut_off s : cut_off (arriving (incoming s)) -> fst (receive_json_message s) = Ok None.
Proof.
  intros Hc. unfold receive_json_message. destruct (Nat.lt_ge_cases (length (arriving (incoming s))) 4) as [Hs|Hs].
  { apply recvAll_short in Hs. by destruct (recvAll s 4) as [r s1]; cbn in Hs; subst. }
  destruct (recvAll_prefix s (take 4 (arriving (incoming s))) (drop 4 (arriving (incoming s)))) as (s1 & E & Ha & _); [rewrite length_take; lia|by rewrite take_drop|].
  rewrite length_take_le in E by done. rewrite E. destruct (Z.eqb_spec (of_net32 (take 4 (arriving (incoming s)))) 0) as [|Hz]; [done|].
  destruct Hc as [Hc|[Hc|[Hc|Hc]]]; [lia|done| |].
  { assert (Hl : fst (recvAll s1 (Z.to_nat (of_net32 (take 4 (arriving (incoming s)))))) = None) by (apply recvAll_big; lia).
    by destruct (recvAll s1 _) as [r s2]; cbn in Hl; subst. }
  assert (Hl : (length (arriving (incoming s1)) < Z.to_nat (of_net32 (take 4 (arriving (incoming s)))))%nat).
  { rewrite Ha, length_drop. lia. }
  apply recvAll_short in Hl. by destruct (recvAll s1 _) as [r s2]; cbn in Hl; subst.
Qed.

Lemma loop_session bodies requests rest : Forall2 carries bodies requests -> cut_off rest -> forall fuel envs w c,
  (length bodies < fuel)%nat -> arriving (incoming (w_ssl w)) = (concat (map framed bodies) ++ rest)%list ->
  let '(o, st) := client_loop algos char_signed fuel envs (w, c) in (o, seen st) = session envs requests (seen (w, c)).
Proof.
  intros HF Hc. induction HF as [|body j bodies requests (Hp & Hm & Hj) _ IH]; intros [|fuel] envs w c Hf Ha; cbn [length] in Hf; try lia;
    cbn [client_loop session]; destruct (receive_out (w_ssl w)) as [Ho Hs].
  - cbn in Ha. pose proof (receive_cut_off (w_ssl w)) as Hr. rewrite Ha in Hr. specialize (Hr Hc).
    destruct (receive_json_message (w_ssl w)) as [r s']. cbn in Hr, Ho, Hs. subst r. unfold seen, set_incoming. cbn. by rewrite Ho, Hs.
  - cbn [map concat] in Ha. unfold framed at 1 in Ha. rewrite <- !app_assoc in Ha.
    destruct (receive_frame (w_ssl w) body _ Hp Hm Ha) as (s' & E & Ha'). rewrite E in Ho, Hs |- *. rewrite Hj. cbn [fmap res_fmap snd] in *.
    set (w' := mk_world (w_db w) (w_otp w) s' (w_camera w)). rewrite (try_handle_parsed algos char_signed (envs 0%nat) _ j (w', c) Hj).
    assert (seen (w, c) = seen (w', c)) as -> by (unfold seen, set_incoming; cbn; by rewrite Ho, Hs).
    pose proof (try_route_blind algos char_signed (envs 0%nat) j [] w' c) as Hb. cbv zeta in Hb.
    pose proof (try_route_keeps algos char_signed (envs 0%nat) j (w', c)) as Hk.
    change (seen (w', c)) with (set_incoming [] w', c). rewrite Hb.
    destruct (try_catch (route_request algos char_signed (envs 0%nat) j) is_json_parse_error (fun _ => mret tt) (w', c)) as [[u|e] [w1 c1]]; [|done].
    apply (IH fuel (fun k => envs (S k)) w1 c1); [lia|]. cbn in Hk. by rewrite Hk.
Qed.

Lemma frames_length bodies requests : Forall2 carries bodies requests -> (length bodies <= length (concat (map framed bodies)))%nat.
Proof.
  induction 1 as [|body j bodies requests _ _ IH]; cbn [map concat length]; [lia|].
  unfold framed at 1. rewrite !length_app, net32_length. lia.
Qed.
End session.

(** C2: the connection loop implements the server that is handed its requests one by one: for any
    requests, in any encoding as JSON of less than 2^31 bytes, sent as frames, cut into reads in any way
    and mixed with renegotiations, then cut off anywhere or followed by a frame that is empty or has 2^31
    bytes or more, the loop ends as that server does, with the same database, the same one-time passwords,
    the same calls to the camera and the same bytes sent. *)
Theorem connection_refines_session {D} `{SQ : Sqlite D} {PW : Pwhash} (algos : gmap string Algo_info) (char_signed : bool)
    (envs : nat -> env) (bodies : list (list Z)) (requests : list json) (rest : list Z) (w : world D) (c : conn) :
  Forall2 carries bodies requests -> cut_off rest ->
  arriving (incoming (w_ssl w)) = (concat (map framed bodies) ++ rest)%list ->
  let '(o, st) := client_loop algos char_signed (S (length (arriving (incoming (w_ssl w))))) envs (w, c) in
  (o, seen st) = session algos char_signed envs requests (seen (w, c)).
Proof.
  intros HF Hc Ha. apply (loop_session algos char_signed bodies requests rest HF Hc); [|done].
  rewrite Ha, length_app. pose proof (frames_length _ _ HF). lia.
Qed.

Definition start_text : list Z := bytes_of ("{" +:+ quote +:+ "request_id" +:+ quote +:+ ":31}").
Definition start_json : json := make_obj [("request_id", JInt 31)].

Lemma connection_refines_session_witness :
  let f := framed start_text in
  let w := mk_world tt empty_manager (mk_ssl [rd_data (take 3 f); rd_retry; rd_data (drop 3 f ++ [0; 0])%list; rd_fail] [] []) [] in
  let '(o, st) := client_loop ∅ false (S (length (arriving (incoming (w_ssl w))))) (fun _ => mk_env 0 (fun _ => 0) (fun _ => 0) (fun _ => 0) "")
    (w, new_conn false []) in
  (o, seen st) = (Closed, (set_incoming [] w, mk_conn true true true true [])).
Proof.
  intros f w.
  pose proof (connection_refines_session ∅ false (fun _ => mk_env 0 (fun _ => 0) (fun _ => 0) (fun _ => 0) "") [start_text] [start_json] [0; 0]
    w (new_conn false [])) as H.
  assert (HF : Forall2 carries [start_text] [start_json]).
  { constructor; [|constructor]. split; [vm_compute; lia|]. split; [reflexivity|]. vm_compute. reflexivity. }
  specialize (H HF ltac:(left; vm_compute; lia) eq_refl).
  destruct (client_loop _ _ _ _ (w, new_conn false [])) as [o st]. rewrite H. vm_compute. reflexivity.
Defined.
