(* ===== verification/Threads.v ===== *)
(** * The server's threads

    Every connection has a thread of its own, and the threads share the database, the table of
    one-time passwords and the camera.  A handler gives way only between the blocks that hold
    [db_mutex]: here each handler of request_handlers.cpp is cut into the stretches between these
    points, and the stretches of all connections run in any order.  [alone_request] checks the cuts
    against [Handlers]. *)

From S2P Require Import Prelude Str Utils Json JsonText OtpUri Otp Hash Ssl Db DbSpec OtpManager Handlers Bbox TcpServer HandlersSpec.
From Stdlib Require Import Ascii Sorting.Permutation.
From Stdlib Require String.

Local Open Scope string_scope.
Local Open Scope Z_scope.
#[local] Opaque dump_string parse_string generate_qr_code_svg generate_recovery_codes.

(** ** Threads *)

(** What a stretch works on that other threads work on too: nothing (the request, the own connection,
    a call to the camera), the database while it holds [db_mutex], or the table of one-time passwords,
    which no lock protects. *)
Inductive access := local | locked | otp_read | otp_write.

Inductive thread (D : Type) :=
| Finished
| Stretch (a : access) (m : world D -> res (thread D) * world D).
Arguments Finished {D}.
Arguments Stretch {D} a m.

(** A stretch and what follows it. *)
Definition stretch {D A} (a : access) (m : M (world D) A) (k : A -> thread D) : thread D := Stretch a (k <$> m).

(** The thread with nobody else running. *)
Fixpoint alone {D} (t : thread D) (w : world D) : res unit * world D :=
  match t with
  | Finished => (Ok tt, w)
  | Stretch _ m =>
      match m w with
      | (Ok t, w) => alone t w
      | (Throw e, w) => (Throw e, w)
      end
  end.

Section handlers.
Context {D : Type} `{Sqlite D} `{Pwhash}.
Context (algos : gmap string Algo_info) (char_signed : bool).

Definition answer (response : json) : thread D := stretch local (send_json_response response) (fun _ => Finished).

Definition detection_thread (j : json) : thread D :=
  stretch local (start_ts ← data_value get_string j "start_timestamp" "";
                 end_ts ← data_value get_string j "end_timestamp" "";
                 mret (start_ts, end_ts)) (fun '(start_ts, end_ts) =>
  stretch locked (on_db (select_data_for_timestamp_range_detections start_ts end_ts)) (fun detections =>
  stretch local (send_json_response (make_obj [("request_id", JInt 10); ("data", JArray (map detection_json detections))]))
    (fun _ => answer (make_obj [("request_id", JInt 1); ("result", JString "ok")])))).

(** What the handler reads from the request: the line for the camera, the line for the table and the
    type of the camera. *)
Definition line_request (j : json) : M (world D) (CrossLine * CrossLine * string) :=
  idx ← data_value get_int j "index" (-1);
  a1 ← data_value get_int j "x1" (-1);
  b1 ← data_value get_int j "y1" (-1);
  a2 ← data_value get_int j "x2" (-1);
  b2 ← data_value get_int j "y2" (-1);
  nm ← data_value get_string j "name" "name1";
  md ← data_value get_string j "mode" "BothDirections";
  camera_type ← liftR (json_value get_string j "camera_type" "CCTV");
  mret (mk_CrossLine idx (s32 (a1 * 4)) (s32 (b1 * 4)) (s32 (a2 * 4)) (s32 (b2 * 4)) nm md,
        mk_CrossLine idx a1 b1 a2 b2 nm md, camera_type).

Definition line_insert_thread (j : json) : thread D :=
  stretch local (line_request j) (fun '(curlCrossLine, insertCrossLine, camera_type) =>
  stretch locked (on_db (insert_data_lines insertCrossLine)) (fun mappingSuccess =>
  if String.eqb camera_type "CCTV" then
    stretch local (camera (cam_put curlCrossLine)) (fun _ =>
    answer (make_obj [("request_id", JInt 11); ("mapping_success", flag mappingSuccess)]))
  else
    stretch locked (on_db select_all_data_lines) (fun dbLines =>
    answer (make_obj [("request_id", JInt 18); ("data", JArray (map line_json dbLines))])))).

(** The loop takes and releases the lock for every line. *)
Fixpoint insert_all_thread (ls : list CrossLine) (k : thread D) : thread D :=
  match ls with
  | [] => k
  | l :: ls => stretch locked (on_db (insert_data_lines l)) (fun _ => insert_all_thread ls k)
  end.

Definition line_select_all_thread (e : env) : thread D :=
  stretch local (items ← liftR (camera_items e); liftR (read_all read_http_line items)) (fun httpLines =>
  stretch locked (on_db select_all_data_lines) (fun dbLines =>
  let realLines := real_lines httpLines dbLines in
  stretch locked (on_db delete_all_data_lines) (fun _ =>
  insert_all_thread realLines
    (answer (make_obj [("request_id", JInt 12); ("data", JArray (map line_json realLines))]))))).

Fixpoint camera_delete_thread (indexs : list Z) (k : thread D) : thread D :=
  match indexs with
  | [] => k
  | i :: indexs => stretch local (camera (cam_delete i)) (fun _ => camera_delete_thread indexs k)
  end.

(** The three tables are emptied under one lock. *)
Definition line_delete_all_thread (e : env) : thread D :=
  stretch local (items ← liftR (camera_items e); liftR (read_all (fun item => field get_int item "index") items)) (fun indexs =>
  camera_delete_thread indexs
    (stretch locked (s1 ← on_db delete_all_data_lines;
                     s2 ← on_db delete_all_data_baseLines;
                     s3 ← on_db delete_all_data_verticalLineEquations;
                     mret (true && s1 && s2 && s3)) (fun deleteSuccess =>
     answer (make_obj [("request_id", JInt 13); ("delete_success", flag deleteSuccess)])))).

Definition baseline_insert_thread (j : json) : thread D :=
  stretch local (idx ← data_value get_int j "index" (-1);
                 m1 ← data_value get_int j "matrixNum1" (-1);
                 a1 ← data_value get_int j "x1" (-1);
                 b1 ← data_value get_int j "y1" (-1);
                 m2 ← data_value get_int j "matrixNum2" (-1);
                 a2 ← data_value get_int j "x2" (-1);
                 b2 ← data_value get_int j "y2" (-1);
                 mret (mk_BaseLine idx m1 a1 b1 m2 a2 b2)) (fun baseLine =>
  stretch locked (insertSuccess ← on_db (insert_data_baseLines baseLine);
                  updateSuccess ← on_db (update_data_baseLines baseLine);
                  mret (insertSuccess, updateSuccess)) (fun '(insertSuccess, updateSuccess) =>
  answer (make_obj [("request_id", JInt 14); ("insert_success", flag insertSuccess); ("update_success", flag updateSuccess)]))).

Definition vertical_line_insert_thread (j : json) : thread D :=
  stretch local (idx ← data_value get_int j "index" (-1);
                 a ← data_value get_double j "a" (double_of_int (-1));
                 b ← data_value get_double j "b" (double_of_int (-1));
                 mret (mk_Vertical idx a b)) (fun v =>
  stretch locked (on_db (insert_data_verticalLineEquations v)) (fun insertSuccess =>
  answer (make_obj [("request_id", JInt 14); ("insert_success", flag insertSuccess)]))).

Definition baseline_select_all_thread : thread D :=
  stretch locked (on_db select_all_data_baseLines) (fun baseLines =>
  answer (make_obj [("request_id", JInt 16); ("data", JArray (map baseline_json baseLines))])).

(** [register_otp] writes the table of one-time passwords, behind the block that held the lock. *)
Definition login_step1_thread (j : json) : thread D :=
  stretch local (i ← data_value get_string j "id" ""; pw ← data_value get_string j "passwd" ""; mret (i, pw)) (fun '(i, pw) =>
  if str_empty i || str_empty pw then Finished
  else
    stretch locked (on_db (get_account_by_id i)) (fun account =>
    match account with
    | None => answer (step1_response false None)
    | Some acc =>
        if verify_password (passwd acc) pw then
          if negb (str_empty (otp_secret acc)) then
            stretch otp_write (on_otp (register_otp algos i (otp_secret acc))) (fun _ => answer (step1_response true (Some acc)))
          else answer (step1_response true (Some acc))
        else answer (step1_response false (Some acc))
    end)).

(** The [try] block is one stretch in either branch: the recovery code is checked and invalidated
    under one lock. *)
Definition login_step2_thread (e : env) (j : json) : thread D :=
  stretch local (i ← data_value get_string j "id" ""; input ← data_value get_string j "input" ""; mret (i, input)) (fun '(i, input) =>
  stretch (if six_digits input then otp_read else locked)
    (try_catch (step2_check e i input) is_std_exception (fun _ => mret (false, false))) (fun r =>
  answer (step2_response (fst r) (snd r)))).

(** A stretch inside of [try { ... } catch (const std::runtime_error&)]: [None] when it was caught. *)
Definition caught {A} (m : M (world D) A) : M (world D) (option A) :=
  try_catch (Some <$> m) is_runtime_error (fun _ => mret None).

Definition sign_up_stretch {A} (a : access) (otp : bool) (m : M (world D) A) (k : A -> thread D) : thread D :=
  stretch a (caught m) (fun r => match r with Some x => k x | None => answer (signup_response false otp "" "" []) end).

Definition signup_thread (e : env) (j : json) : thread D :=
  stretch local (i ← data_value get_string j "id" ""; pw ← data_value get_string j "passwd" "";
                 otp ← data_value get_bool j "use_otp" true; mret (i, pw, otp)) (fun '(i, pw, otp) =>
  let store hashed_passwd svg uri secret recovery_codes :=
    sign_up_stretch locked otp
      (signUpSuccess ← on_db (insert_data_accounts (mk_Account i hashed_passwd secret otp));
       (if signUpSuccess && otp then
          on_db (store_otp_secret i secret) ;;
          hashed_codes ← liftR (hash_recovery_codes (fun k => env_salts e (S k)) recovery_codes);
          on_db (store_recovery_codes i hashed_codes) ;;
          mret tt
        else mret tt) ;;
       mret signUpSuccess) (fun signUpSuccess =>
    answer (signup_response signUpSuccess otp svg uri recovery_codes)) in
  sign_up_stretch local otp (liftR (hash_password (env_salts e 0%nat) pw)) (fun hashed_passwd =>
  if (otp : bool) then
    sign_up_stretch otp_write otp (on_otp (generate_otp_uri algos char_signed (env_rands e) i)) (fun uri =>
    sign_up_stretch otp_read otp (w ← getS; mret (get_secret (w_otp w) i)) (fun secret =>
    sign_up_stretch local otp (liftR (generate_qr_code_svg uri)) (fun svg =>
    store hashed_passwd svg uri secret (generate_recovery_codes (env_picks e)))))
  else store hashed_passwd "" "" "" [])).

(** The dispatch.  The requests 31 and 32 work on the variables of the connection. *)
Definition request_thread (e : env) (j : json) : thread D :=
  stretch local (liftR (json_value get_int j "request_id" (-1))) (fun request_id =>
  match request_id with
  | 1 => detection_thread j
  | 2 => line_insert_thread j
  | 3 => line_select_all_thread e
  | 4 => line_delete_all_thread e
  | 5 => baseline_insert_thread j
  | 6 => vertical_line_insert_thread j
  | 7 => baseline_select_all_thread
  | 8 => login_step1_thread j
  | 9 => signup_thread e j
  | 22 => login_step2_thread e j
  | _ => Finished
  end).
End handlers.

(** ** Many connections *)

(** The shared parts, and the connections with what their threads have yet to do. *)
Record pool (D : Type) := mk_pool {
  p_db : D;
  p_otp : OTPManager;
  p_camera : list camera_call;
  p_clients : list (ssl * thread D) }.
Arguments mk_pool {D} p_db p_otp p_camera p_clients.
Arguments p_db {D} p.
Arguments p_otp {D} p.
Arguments p_camera {D} p.
Arguments p_clients {D} p.

(** What a thread sees of the pool, and the pool behind its stretch. *)
Definition client_view {D} (p : pool D) (s : ssl) : world D := mk_world (p_db p) (p_otp p) s (p_camera p).
Definition client_done {D} (i : nat) (w : world D) (t : thread D) (p : pool D) : pool D :=
  mk_pool (w_db w) (w_otp w) (w_camera w) (<[i := (w_ssl w, t)]> (p_clients p)).

(** The next stretch of a thread. *)
Definition next {D} (t : thread D) (w : world D) : option (res (thread D) * world D) :=
  match t with Finished => None | Stretch _ m => Some (m w) end.

(** The next stretch of connection [i]; [None] if it has none.  A parse error ends the request, as the
    loop of the connection catches it; any other exception ends the server. *)
Definition run_client {D} (i : nat) (p : pool D) : option (res (pool D)) :=
  '(s, t) ← p_clients p !! i;
  '(r, w) ← next t (client_view p s);
  Some match r with
       | Ok t => Ok (client_done i w t p)
       | Throw e => if is_json_parse_error e then Ok (client_done i w Finished p) else Throw e
       end.

Inductive pool_step {D} (p p' : pool D) : Prop :=
| client_step (i : nat) : run_client i p = Some (Ok p') -> pool_step p p'.

(** A schedule: the connections in the order in which they get to run. *)
Fixpoint run_schedule {D} (sched : list nat) (p : pool D) : option (res (pool D)) :=
  match sched with
  | [] => Some (Ok p)
  | i :: sched =>
      match run_client i p with
      | Some (Ok p) => run_schedule sched p
      | r => r
      end
  end.

Lemma run_schedule_reaches {D} sched : forall p p' : pool D, run_schedule sched p = Some (Ok p') -> rtc pool_step p p'.
Proof.
  induction sched as [|i sched IH]; intros p p'; cbn [run_schedule]; [by intros [= ->]; constructor|].
  destruct (run_client i p) as [[p1|e]|] eqn:E; [|done..]. intros H. eapply rtc_l; [by econstructor|]. by apply IH.
Qed.

(** ** A handler without interruption *)

Section alone.
Context {D : Type} `{Sqlite D} `{Pwhash}.
Context (algos : gmap string Algo_info) (char_signed : bool).

Lemma alone_stretch {A} a (m : M (world D) A) k w : alone (stretch a m k) w = (m ≫= fun x => alone (k x)) w.
Proof. unfold stretch. cbn [alone]. unfold fmap, M_fmap, mbind, M_bind. by destruct (m w) as [[x|e] w']. Qed.

Lemma alone_answer r w : alone (answer r) w = send_json_response (D := D) r w.
Proof.
  unfold answer. rewrite alone_stretch. unfold mbind, M_bind. cbn [alone].
  by destruct (send_json_response r w) as [[[]|e] w'].
Qed.

Lemma alone_insert_all ls k : forall w, alone (insert_all_thread ls k) w = ((on_db (insert_all ls) : M (world D) unit) ≫= fun _ => alone k) w.
Proof.
  induction ls as [|l ls IH]; intros w; cbn [insert_all_thread insert_all].
  - by destruct w.
  - rewrite alone_stretch. unfold mbind, M_bind, on_db. destruct (insert_data_lines l (w_db w)) as [[b|e] d]; [|done].
    rewrite IH. unfold mbind, M_bind, on_db. cbn [w_db]. by destruct (insert_all ls d).
Qed.

Lemma alone_camera_delete idxs k : forall w, alone (camera_delete_thread idxs k) w = ((camera_delete_all idxs : M (world D) unit) ≫= fun _ => alone k) w.
Proof.
  induction idxs as [|i idxs IH]; intros w; cbn [camera_delete_thread camera_delete_all]; [done|].
  rewrite alone_stretch. unfold mbind, M_bind. cbn [camera]. rewrite IH. done.
Qed.

(** The laws of the monad, on states. *)
Lemma bind_assoc {A B C} (m : M (world D) A) (f : A -> M (world D) B) (g : B -> M (world D) C) w :
  ((m ≫= f) ≫= g) w = (m ≫= fun x => f x ≫= g) w.
Proof. unfold mbind, M_bind. by destruct (m w) as [[x|e] w']. Qed.

Lemma ret_bind {A B} (a : A) (f : A -> M (world D) B) w : (mret a ≫= f) w = f a w.
Proof. done. Qed.

Lemma bind_ext {A B} (m : M (world D) A) (f g : A -> M (world D) B) w :
  (forall x w, f x w = g x w) -> (m ≫= f) w = (m ≫= g) w.
Proof. intros E. unfold mbind, M_bind. by destruct (m w) as [[x|e] w']. Qed.

Ltac in_step :=
  repeat first
    [ rewrite alone_stretch | rewrite alone_answer | rewrite alone_insert_all | rewrite alone_camera_delete
    | rewrite bind_assoc | rewrite ret_bind | progress cbv beta iota zeta | apply bind_ext; intros ].

Lemma alone_detection j w : alone (detection_thread j) w = handle_detection_request (D := D) j w.
Proof. unfold detection_thread, handle_detection_request. in_step; try reflexivity. Qed.

Lemma alone_line_insert j w : alone (line_insert_thread j) w = handle_line_insert_request (D := D) j w.
Proof. unfold line_insert_thread, line_request, handle_line_insert_request. in_step. destruct (String.eqb _ _); in_step; reflexivity. Qed.

Lemma alone_line_select_all e j w : alone (line_select_all_thread e) w = handle_line_select_all_request (D := D) e j w.
Proof. unfold line_select_all_thread, handle_line_select_all_request. in_step. reflexivity. Qed.

Lemma alone_line_delete_all e j w : alone (line_delete_all_thread e) w = handle_line_delete_all_request (D := D) e j w.
Proof. unfold line_delete_all_thread, handle_line_delete_all_request. in_step. reflexivity. Qed.

Lemma alone_baseline_insert j w : alone (baseline_insert_thread j) w = handle_baseline_insert_request (D := D) j w.
Proof. unfold baseline_insert_thread, handle_baseline_insert_request. in_step. reflexivity. Qed.

Lemma alone_vertical_insert j w : alone (vertical_line_insert_thread j) w = handle_vertical_line_insert_request (D := D) j w.
Proof. unfold vertical_line_insert_thread, handle_vertical_line_insert_request. in_step. reflexivity. Qed.

Lemma alone_baseline_select_all j w : alone baseline_select_all_thread w = handle_baseline_select_all_request (D := D) j w.
Proof. unfold baseline_select_all_thread, handle_baseline_select_all_request. in_step. reflexivity. Qed.

Lemma alone_login_step1 j w : alone (login_step1_thread algos j) w = handle_login_step1_request (D := D) algos j w.
Proof.
  unfold login_step1_thread, handle_login_step1_request. in_step. destruct (str_empty _ || str_empty _); [done|]. in_step.
  unfold check_password. destruct x1 as [acc|]; in_step; [|done]. destruct (verify_password _ _); in_step; [|done].
  destruct (negb _); in_step; done.
Qed.

Lemma alone_login_step2 e j w : alone (login_step2_thread e j) w = handle_login_step2_request (D := D) e j w.
Proof. unfold login_step2_thread, handle_login_step2_request. in_step. reflexivity. Qed.

(** What the handler does with the outcome of its [try] block. *)
Definition sign_up_answer (otp : bool) (m : M (world D) (bool * string * string * list string)) : M (world D) unit :=
  r ← try_catch m is_runtime_error (fun _ => mret (false, "", "", []));
  let '(success, svg, uri, codes) := r in
  send_json_response (signup_response success otp svg uri codes).

Lemma alone_sign_up_stretch {A} a otp (m : M (world D) A) k f m' w :
  (forall x w, alone (k x) w = sign_up_answer otp (f x) w) -> (forall w, m' w = (m ≫= f) w) ->
  alone (sign_up_stretch a otp m k) w = sign_up_answer otp m' w.
Proof.
  intros Hk Hm. unfold sign_up_stretch. rewrite alone_stretch. unfold caught, sign_up_answer, try_catch, fmap, M_fmap, mbind, M_bind.
  rewrite Hm. unfold mbind, M_bind. destruct (m w) as [[x|e] w'].
  - rewrite Hk. unfold sign_up_answer, try_catch, mbind, M_bind. reflexivity.
  - destruct (is_runtime_error e); [|done]. cbn [mret M_ret]. by rewrite alone_answer.
Qed.

Lemma alone_signup e j w : alone (signup_thread algos char_signed e j) w = handle_signup_request (D := D) algos char_signed e j w.
Proof.
  unfold signup_thread, handle_signup_request. in_step. rename x into i, x0 into pw, x1 into otp.
  transitivity (sign_up_answer otp (sign_up algos char_signed e i pw otp) w2); [|reflexivity]. unfold sign_up.
  set (store hp secret codes (A : Type) (f : bool -> A) := (
       signUpSuccess ← on_db (insert_data_accounts (mk_Account i hp secret otp));
       (if (signUpSuccess && otp)%bool then
          on_db (store_otp_secret i secret) ;;
          hashed_codes ← liftR (hash_recovery_codes (fun k => env_salts e (S k)) codes);
          on_db (store_recovery_codes i hashed_codes) ;;
          mret tt
        else mret tt) ;;
       mret (f signUpSuccess)) : M (world D) A).
  assert (Hs : forall hp svg uri secret codes (w : world D), alone (sign_up_stretch locked otp (store hp secret codes bool (fun b => b))
      (fun signUpSuccess => answer (signup_response signUpSuccess otp svg uri codes))) w
    = sign_up_answer otp (store hp secret codes _ (fun b => (b, svg, uri, codes))) w).
  { intros hp svg uri secret codes w3. apply alone_sign_up_stretch with (f := fun x => mret (x, svg, uri, codes)).
    - intros x w4. by rewrite alone_answer.
    - intros w4. unfold store. in_step. reflexivity. }
  eapply alone_sign_up_stretch; [intros hp w3|intros w3; apply bind_ext; intros hp w4; reflexivity].
  destruct otp; [|exact (Hs hp EmptyString EmptyString EmptyString [] w3)].
  eapply alone_sign_up_stretch; [intros uri w4|intros w4; in_step; reflexivity].
  eapply alone_sign_up_stretch with (f := fun secret => svg ← liftR (generate_qr_code_svg uri);
    store hp secret (generate_recovery_codes (env_picks e)) _ (fun b => (b, svg, uri, generate_recovery_codes (env_picks e))));
    [intros secret w5|intros w5; in_step; reflexivity].
  eapply alone_sign_up_stretch; [intros svg w6; apply Hs|intros w6; in_step; reflexivity].
Qed.
End alone.

(** A check of the cuts: a handler that no other thread interrupts is the handler of the sequential
    model, for every request but the two on the connection's own variables. *)
Lemma alone_request {D} `{SQ : Sqlite D} {PW : Pwhash} (algos : gmap string Algo_info) (char_signed : bool)
    (e : env) (j : json) (w : world D) (c : conn) (n : Z) :
  json_value get_int j "request_id" (-1) = Ok n -> n <> 31 -> n <> 32 ->
  route_request algos char_signed e j (w, c)
  = (let '(r, w') := alone (request_thread algos char_signed e j) w in (r, (w', c))).
Proof.
  intros Hn H1 H2. unfold request_thread. rewrite alone_stretch. unfold route_request, mbind, M_bind, liftR. rewrite Hn.
  destruct n as [|p|p]; try done.
  do 6 try (destruct p as [p|p|]; try done); unfold on_world; cbn [fst snd];
    rewrite ?alone_detection, ?alone_line_insert, ?(alone_line_select_all e j), ?(alone_line_delete_all e j), ?alone_baseline_insert,
      ?alone_vertical_insert, ?(alone_baseline_select_all j), ?alone_login_step1, ?alone_login_step2, ?alone_signup; done.
Qed.

(** ** Recovery codes *)

(** The connection behind an answer. *)
Definition after_send (r : json) (s : ssl) : ssl := w_ssl (snd (send_json_response r (mk_world tt empty_manager s []))).

Lemma send_json_after {D} r (w : world D) : (exists text, dump_string r = Ok text) ->
  send_json_response r w = (Ok tt, mk_world (w_db w) (w_otp w) (after_send r (w_ssl w)) (w_camera w)).
Proof.
  intros [text E]. unfold after_send, send_json_response, mbind, M_bind, liftR, send_all. by rewrite E.
Qed.

Lemma step2_response_text b b' : exists text, dump_string (step2_response b b') = Ok text.
Proof. destruct b, b'; eexists; vm_compute; reflexivity. Qed.

Create HintDb keeps discriminated.

Section keeping.
Context {D : Type} `{SL : SqliteLaws D} {PW : Pwhash}.
Context (i : string).

(** On a working database, the stretch leaves the unused codes of the account as they are. *)
Definition Keeps {A} (m : M (world D) A) : Prop :=
  forall w, healthy (w_db w) ->
    healthy (w_db (snd (m w))) /\ unused (view (w_db (snd (m w)))) i = unused (view (w_db w)) i.

Lemma keeps_ret {A} (a : A) : Keeps (mret a).
Proof. by intros w Hh. Qed.

Lemma keeps_lift {A} (r : res A) : Keeps (liftR r).
Proof. by intros w Hh. Qed.

Lemma keeps_bind {A B} (m : M (world D) A) (f : A -> M (world D) B) :
  Keeps m -> (forall x, Keeps (f x)) -> Keeps (m ≫= f).
Proof.
  intros Hm Hf w Hh. destruct (Hm w Hh) as [Hh' E]. unfold mbind, M_bind. destruct (m w) as [[x|e] w']; [|done]. cbn [snd] in *.
  rewrite <- E. by apply Hf.
Qed.

Lemma keeps_data {A} (get : json -> res A) j k def : Keeps (data_value get j k def).
Proof. apply keeps_lift. Qed.

Lemma keeps_camera c : Keeps (camera c).
Proof. by intros w Hh. Qed.

Lemma keeps_send r : Keeps (send_json_response r).
Proof. unfold send_json_response. apply keeps_bind; [apply keeps_lift|]. intros text. apply keeps_bind; [|intros _]; by intros w Hh. Qed.

Lemma keeps_otp {A} (m : M OTPManager A) : Keeps (on_otp m).
Proof. intros w Hh. unfold on_otp. by destruct (m (w_otp w)). Qed.

Lemma keeps_rows {A} sql args (f : row -> res A) : Keeps (on_db (select_rows sql args f)).
Proof. by intros w Hh. Qed.

Lemma keeps_account a : Keeps (on_db (get_account_by_id a)).
Proof. intros w Hh. unfold on_db, get_account_by_id, mbind, M_bind, getS. destruct (sql_query _ _ _) as [[|r rows] x]; [done|]. by destruct (read_account r). Qed.

Lemma keeps_detections a b : Keeps (on_db (select_data_for_timestamp_range_detections a b)).
Proof. apply keeps_rows. Qed.
Lemma keeps_lines : Keeps (on_db select_all_data_lines).
Proof. apply keeps_rows. Qed.
Lemma keeps_baseLines : Keeps (on_db select_all_data_baseLines).
Proof. apply keeps_rows. Qed.

(** The statements that leave the codes alone. *)
Definition no_code (s : stmt) : bool := match s with InsCode _ _ | UseCode _ _ => false | _ => true end.

Lemma no_code_effect s t n t' : no_code s = true -> stmt_effect s t = Some (n, t') -> unused t' i = unused t i.
Proof. intros Hs E. destruct s; cbn in Hs, E; try done; repeat case_match; simplify_eq; reflexivity. Qed.

Lemma keeps_exec_flag s : stmt_ok s = true -> no_code s = true -> Keeps (on_db (exec_flag (stmt_text s) (stmt_args s))).
Proof.
  intros Hs Hc w Hh. unfold on_db. destruct (exec_flag_spec s (w_db w) Hs Hh) as (b & d' & -> & Hh' & Hv). cbn [snd w_db].
  split; [done|]. destruct b; [destruct Hv as [n Hv]; by eapply no_code_effect|by rewrite (proj2 Hv)].
Qed.

Lemma keeps_exec_changes s : stmt_ok s = true -> no_code s = true -> Keeps (on_db (exec_changes (stmt_text s) (stmt_args s))).
Proof.
  intros Hs Hc w Hh. unfold on_db. destruct (exec_changes_spec s (w_db w) Hs Hh) as (b & d' & -> & Hh' & Hv). cbn [snd w_db].
  split; [done|]. destruct Hv as [(n & Hv & _)|(_ & Hv & _)]; [by eapply no_code_effect|by rewrite Hv].
Qed.

Lemma keeps_insert_line l : Keeps (on_db (insert_data_lines l)).
Proof. by apply (keeps_exec_flag (InsLine l)). Qed.
Lemma keeps_insert_base b : Keeps (on_db (insert_data_baseLines b)).
Proof. by apply (keeps_exec_flag (InsBase b)). Qed.
Lemma keeps_update_base b : Keeps (on_db (update_data_baseLines b)).
Proof. by apply (keeps_exec_flag (UpdBase (matrixNum1 b) (matrixNum2 b) (base_index b))). Qed.
Lemma keeps_insert_vertical v : Keeps (on_db (insert_data_verticalLineEquations v)).
Proof. by apply (keeps_exec_flag (InsVertical v)). Qed.
Lemma keeps_delete_lines : Keeps (on_db delete_all_data_lines).
Proof. by apply (keeps_exec_changes DelLines). Qed.
Lemma keeps_delete_bases : Keeps (on_db delete_all_data_baseLines).
Proof. by apply (keeps_exec_changes DelBases). Qed.
Lemma keeps_delete_verticals : Keeps (on_db delete_all_data_verticalLineEquations).
Proof. by apply (keeps_exec_changes DelVerticals). Qed.

(** Threads all of whose stretches do. *)
Inductive keeper : thread D -> Prop :=
| keeper_finished : keeper Finished
| keeper_stretch a (m : M (world D) (thread D)) :
    Keeps m -> (forall w t w', m w = (Ok t, w') -> keeper t) -> keeper (Stretch a m).

Lemma stretch_keeper {A} a (m : M (world D) A) k : Keeps m -> (forall x, keeper (k x)) -> keeper (stretch a m k).
Proof.
  intros Hm Hk. constructor.
  - intros w Hh. specialize (Hm w Hh). unfold fmap, M_fmap. by destruct (m w) as [[x|e] w'].
  - intros w t w'. unfold fmap, M_fmap. destruct (m w) as [[x|e] w1]; [|done]. by intros [= <- <-].
Qed.

Lemma insert_all_keeper ls k : keeper k -> keeper (insert_all_thread ls k).
Proof. intros Hk. induction ls as [|l ls IH]; [done|]. apply stretch_keeper; [apply keeps_insert_line|]. intros _. done. Qed.

Lemma camera_delete_keeper idxs k : keeper k -> keeper (camera_delete_thread idxs k).
Proof. intros Hk. induction idxs as [|l ls IH]; [done|]. apply stretch_keeper; [apply keeps_camera|]. intros _. done. Qed.

#[local] Hint Constants Opaque : keeps.
#[local] Hint Resolve keeps_ret keeps_lift keeps_bind keeps_data keeps_camera keeps_send keeps_otp keeps_detections keeps_lines keeps_baseLines keeps_account keeps_insert_line
  keeps_insert_base keeps_update_base keeps_insert_vertical keeps_delete_lines keeps_delete_bases keeps_delete_verticals : keeps.

Ltac keep_codes :=
  repeat match goal with
    | |- keeper Finished => apply keeper_finished
    | |- keeper (insert_all_thread _ _) => apply insert_all_keeper
    | |- keeper (camera_delete_thread _ _) => apply camera_delete_keeper
    | |- keeper (stretch _ _ _) => apply stretch_keeper; [by auto 20 with keeps|intros ?]
    | |- keeper (answer _) => apply stretch_keeper; [by auto 20 with keeps|intros ?]
    | |- keeper (match ?x with _ => _ end) => destruct x
    end.

Lemma detection_keeper j : keeper (detection_thread j).
Proof. unfold detection_thread. keep_codes. Qed.
Lemma line_insert_keeper j : keeper (line_insert_thread j).
Proof. unfold line_insert_thread, line_request. keep_codes. Qed.
Lemma line_select_all_keeper e : keeper (line_select_all_thread e).
Proof. unfold line_select_all_thread. keep_codes. Qed.
Lemma line_delete_all_keeper e : keeper (line_delete_all_thread e).
Proof. unfold line_delete_all_thread. keep_codes. Qed.
Lemma baseline_insert_keeper j : keeper (baseline_insert_thread j).
Proof. unfold baseline_insert_thread. keep_codes. Qed.
Lemma vertical_insert_keeper j : keeper (vertical_line_insert_thread j).
Proof. unfold vertical_line_insert_thread. keep_codes. Qed.
Lemma baseline_select_all_keeper : keeper baseline_select_all_thread.
Proof. unfold baseline_select_all_thread. keep_codes. Qed.
Lemma login_step1_keeper algos j : keeper (login_step1_thread algos j).
Proof. unfold login_step1_thread. keep_codes. Qed.

#[local] Hint Resolve detection_keeper line_insert_keeper line_select_all_keeper line_delete_all_keeper baseline_insert_keeper
  vertical_insert_keeper baseline_select_all_keeper login_step1_keeper keeper_finished : keeps.

(** Every request but a registration and the second step of a login. *)
Lemma request_keeper algos char_signed e j n : json_value get_int j "request_id" (-1) = Ok n -> n <> 9 -> n <> 22 ->
  keeper (request_thread algos char_signed e j).
Proof.
  intros En H9 H22. unfold request_thread. constructor.
  - intros w Hh. unfold fmap, M_fmap, liftR. by rewrite En.
  - intros w t w'. unfold fmap, M_fmap, liftR. rewrite En. intros [= <- <-].
    destruct n as [|p|p]; auto with keeps. do 5 try (destruct p as [p|p|]; auto with keeps nocore; try done).
Qed.
End keeping.

(** *** Clients that present the same code *)

Section one_code.
Context {D : Type} `{SL : SqliteLaws D} {PW : Pwhash}.
Context (algos : gmap string Algo_info) (char_signed : bool).
Context (i c h : string).
Hypothesis code_text : six_digits c = false.

(** Before and after the code was used. *)
Definition usable (d : D) : Prop :=
  healthy d /\ In h (unused (view d) i) /\ (forall h', In h' (unused (view d) i) -> verify_password h' c = true -> h' = h).
Definition spent (d : D) : Prop := healthy d /\ existsb (fun h' => verify_password h' c) (unused (view d) i) = false.

(** A request that presents the code. *)
Definition presents (j : json) : Prop :=
  json_value get_int j "request_id" (-1) = Ok 22 /\
  exists data, request_data j data /\ json_value get_string data "id" "" = Ok i /\ json_value get_string data "input" "" = Ok c.

(** How far such a request has come. *)
Inductive phase := ph_start | ph_routed | ph_read | ph_checked (b : bool) | ph_done (b : bool).

Definition verdict (ph : phase) : option bool :=
  match ph with ph_checked b | ph_done b => Some b | _ => None end.

Definition check_thread (e : env) : thread D :=
  stretch (if six_digits c then otp_read else locked)
    (try_catch (step2_check e i c) is_std_exception (fun _ => mret (false, false))) (fun r =>
  answer (step2_response (fst r) (snd r))).

Definition at_phase (client : ssl * env * json) (ph : phase) : ssl * thread D :=
  let '(s, e, j) := client in
  match ph with
  | ph_start => (s, request_thread algos char_signed e j)
  | ph_routed => (s, login_step2_thread e j)
  | ph_read => (s, check_thread e)
  | ph_checked b => (s, answer (step2_response b b))
  | ph_done b => (after_send (step2_response b b) s, Finished)
  end.

Hypothesis hash_ok : h <> "" /\ verify_password h c = true.

(** One stretch of such a request. *)
Lemma phase_next s e j ph o cam d : presents j -> (forall b, ph <> ph_done b) -> usable d \/ spent d ->
  exists ph' d', let '(s', t') := at_phase (s, e, j) ph' in
  next (snd (at_phase (s, e, j) ph)) (mk_world d o s cam) = Some (Ok t', mk_world d' o s' cam) /\
  match ph with
  | ph_read => (usable d -> verdict ph' = Some true /\ spent d') /\ (spent d -> verdict ph' = Some false /\ d' = d)
  | _ => d' = d /\ verdict ph' = verdict ph
  end.
Proof.
  intros (Hn & data & Hd & Hi & Hc) Hph Hu. destruct ph as [| | |b|b]; cbn [at_phase snd].
  - exists ph_routed, d. cbn [at_phase]. split; [|done]. unfold request_thread, stretch, next, fmap, M_fmap, liftR. by rewrite Hn.
  - exists ph_read, d. cbn [at_phase]. split; [|done]. unfold login_step2_thread, stretch, next, fmap, M_fmap, mbind, M_bind.
    by rewrite (data_value_eq _ _ _ _ _ _ _ Hd Hi), (data_value_eq _ _ _ _ _ _ _ Hd Hc).
  - unfold check_thread, stretch, next, fmap, M_fmap. set (w := mk_world d o s cam). destruct hash_ok as [Hne Hv]. destruct Hu as [Hu|Hu].
    + destruct Hu as (Hh & Hin & Hone).
      destruct (code_consumed d i c h Hh Hne Hin Hv Hone) as (d' & E1 & E2 & Hh' & Hx & _). exists (ph_checked true), d'. cbn [at_phase].
      rewrite (catch_ok _ _ _ _ _ _ (step2_code e i c w true d' code_text E1 E2)). split; [done|]. split; [done|]. intros [_ Hs]. exfalso.
      apply not_true_iff_false in Hs. apply Hs. apply existsb_exists. by exists h.
    + destruct Hu as [Hh Hx]. exists (ph_checked false), d. cbn [at_phase].
      rewrite (catch_ok _ _ _ _ _ _ (step2_no_code e i c w Hh code_text Hx)). split; [done|]. split; [|done]. intros (_ & Hin & _). exfalso.
      apply not_true_iff_false in Hx. apply Hx. apply existsb_exists. by exists h.
  - exists (ph_done b), d. cbn [at_phase]. split; [|done]. unfold answer, stretch, next, fmap, M_fmap.
    by rewrite send_json_after by apply step2_response_text.
  - by destruct (Hph b).
Qed.

(** The clients that present the code, each in its phase, then the others; and at most one of the
    former has the verdict [true], exactly one as soon as the code is spent. *)
Definition winner (phs : list phase) (k : nat) : Prop :=
  phs !! k ≫= verdict = Some true /\ forall k', k' <> k -> phs !! k' ≫= verdict <> Some true.

Definition code_state (d : D) (phs : list phase) : Prop :=
  (usable d /\ Forall (fun ph => verdict ph = None) phs) \/ (spent d /\ exists k, winner phs k).

Definition code_inv (recs : list (ssl * env * json)) (p : pool D) : Prop :=
  exists phs others, length phs = length recs /\ p_clients p = (zip_with at_phase recs phs ++ others)%list
  /\ Forall (fun o => keeper i (snd o)) others /\ code_state (p_db p) phs.

Lemma verdict_insert (phs : list phase) (k k' : nat) ph ph' : phs !! k = Some ph -> verdict ph' = verdict ph ->
  <[k := ph']> phs !! k' ≫= verdict = phs !! k' ≫= verdict.
Proof.
  intros Hk E. destruct (decide (k' = k)) as [->|]; [|by rewrite list_lookup_insert_ne].
  rewrite list_lookup_insert_eq by (by eapply lookup_lt_Some). by rewrite Hk.
Qed.

Lemma code_state_step d d' (phs : list phase) (k : nat) ph ph' : phs !! k = Some ph -> code_state d phs ->
  match ph with
  | ph_read => (usable d -> verdict ph' = Some true /\ spent d') /\ (spent d -> verdict ph' = Some false /\ d' = d)
  | _ => d' = d /\ verdict ph' = verdict ph
  end -> code_state d' (<[k := ph']> phs).
Proof.
  intros Hk Hs Hph. pose proof (lookup_lt_Some _ _ _ Hk) as Hl.
  assert ((ph = ph_read /\ (usable d -> verdict ph' = Some true /\ spent d') /\ (spent d -> verdict ph' = Some false /\ d' = d))
    \/ (d' = d /\ verdict ph' = verdict ph)) as [(-> & HU & HS)|[-> E]] by (destruct ph; tauto); clear Hph.
  - right. destruct Hs as [[Hu Hn]|[Hs (k0 & Hw & Ho)]].
    + destruct (HU Hu) as [Hv Hd]. split; [done|]. exists k. split; [by rewrite list_lookup_insert_eq|].
      intros k' Hk'. rewrite list_lookup_insert_ne by done. destruct (phs !! k') as [ph0|] eqn:E0; [|done].
      cbn. by rewrite (Forall_lookup_1 _ _ _ _ Hn E0).
    + destruct (HS Hs) as [Hv ->]. split; [done|]. exists k0. assert (k <> k0) by (intros ->; by rewrite Hk in Hw).
      split; [by rewrite list_lookup_insert_ne|]. intros k' Hk'. destruct (decide (k' = k)) as [->|].
      * rewrite list_lookup_insert_eq by done. cbn. by rewrite Hv.
      * rewrite list_lookup_insert_ne by done. by apply Ho.
  - destruct Hs as [[Hu Hn]|[Hs (k0 & Hw & Ho)]].
    + left. split; [done|]. apply Forall_insert; [done|]. rewrite E. by apply (Forall_lookup_1 _ _ _ _ Hn Hk).
    + right. split; [done|]. exists k0. split; [by rewrite (verdict_insert _ _ _ _ _ Hk E)|].
      intros k' Hk'. rewrite (verdict_insert _ _ _ _ _ Hk E). by apply Ho.
Qed.

Lemma code_state_keeps d d' phs : healthy d' -> unused (view d') i = unused (view d) i -> code_state d phs -> code_state d' phs.
Proof. intros Hh E [[(_ & H1 & H2) Hn]|[[_ Hs] Hw]]; [left|right]; (split; [|done]); unfold usable, spent; by rewrite E. Qed.

Lemma code_inv_step recs p p' : Forall (fun '(_, _, j) => presents j) recs -> code_inv recs p -> pool_step p p' -> code_inv recs p'.
Proof.
  intros Hp (phs & others & Hl & Hc & Ho & Hs) [k Hr]. unfold run_client in Hr.
  destruct (p_clients p !! k) as [[s t]|] eqn:Ek; [|done]. cbn [mbind option_bind] in Hr. rewrite Hc in Ek.
  destruct (Nat.lt_ge_cases k (length (zip_with at_phase recs phs))) as [Hk|Hk].
  - rewrite lookup_app_l in Ek by done. apply lookup_zip_with_Some in Ek as ([[s0 e] j] & ph & Eat & Er & Eph).
    pose proof (Forall_lookup_1 _ _ _ _ Hp Er) as Hj. cbv beta iota in Hj.
    pose proof (f_equal fst Eat) as Es. pose proof (f_equal snd Eat) as Et. cbn [fst snd] in Es, Et. clear Eat.
    assert (Hnd : forall b, ph <> ph_done b) by (intros b ->; cbn [at_phase snd] in Et; rewrite Et in Hr; discriminate Hr).
    assert (s = s0) as -> by (destruct ph; [exact Es..|by destruct (Hnd b)]).
    destruct (phase_next s0 e j ph (p_otp p) (p_camera p) (p_db p) Hj) as (ph' & d' & Hx).
    { exact Hnd. }
    { destruct Hs as [[Hu _]|[Hu _]]; [by left|by right]. }
    destruct (at_phase (s0, e, j) ph') as [s' t'] eqn:Eat'. destruct Hx as [Hnx Hst]. rewrite <- Et in Hnx.
    clear Et. unfold client_view in Hr. rewrite Hnx in Hr. injection Hr as <-.
    exists (<[k := ph']> phs), others. cbn [client_done p_clients p_db w_db w_ssl]. split_and!; [by rewrite length_insert| |exact Ho|by eapply code_state_step].
    rewrite Hc, insert_app_l by done. f_equal. rewrite <- Eat', insert_zip_with. by rewrite list_insert_id.
  - rewrite lookup_app_r in Ek by done. pose proof (Forall_lookup_1 _ _ _ _ Ho Ek) as Hkp. cbn [snd] in Hkp.
    inversion Hkp as [|a m Hm Hnext]; subst t; [done|]. cbn [next mbind option_bind] in Hr. specialize (Hm (client_view p s)).
    assert (Hh : healthy (p_db p)) by (destruct Hs as [[(Hh & _) _]|[[Hh _] _]]; done). destruct (Hm Hh) as [Hh' Hu].
    destruct (m (client_view p s)) as [r w'] eqn:Em. cbn [snd] in *.
    assert (exists t, p' = client_done k w' t p /\ keeper i t) as (t & -> & Ht).
    { destruct r as [t|e]; [injection Hr as <-; by eauto|]. destruct (is_json_parse_error e); [|discriminate Hr]. injection Hr as <-. eexists. split; [done|constructor]. }
    exists phs, (<[(k - length (zip_with at_phase recs phs))%nat := (w_ssl w', t)]> others). cbn [client_done p_clients p_db].
    split_and!; [done|by rewrite Hc, insert_app_r_alt|by apply Forall_insert|by eapply code_state_keeps].
Qed.

Lemma code_inv_reach recs p p' : Forall (fun '(_, _, j) => presents j) recs -> code_inv recs p -> rtc pool_step p p' -> code_inv recs p'.
Proof. intros Hp Hi Hr. induction Hr as [|p p1 p2 Hs _ IH]; [done|]. apply IH. by eapply code_inv_step. Qed.
End one_code.

Lemma code_inv_finished {D} `{SL : SqliteLaws D} {PW : Pwhash} algos char_signed i c h recs (p : pool D) :
  six_digits c = false -> h <> "" /\ verify_password h c = true -> recs <> [] -> Forall (fun '(_, _, j) => presents i c j) recs ->
  code_inv algos char_signed i c h recs p -> Forall (fun cl => snd cl = Finished) (take (length recs) (p_clients p)) ->
  exists k, (k < length recs)%nat /\ forall k' s e j, recs !! k' = Some (s, e, j) ->
    p_clients p !! k' = Some (after_send (step2_response (k' =? k)%nat (k' =? k)%nat) s, Finished).
Proof.
  intros H6 Hh Hr Hp (phs & others & Hl & Hc & _ & Hs) Hf.
  assert (Hlen : length (zip_with (at_phase algos char_signed i c) recs phs) = length recs) by (rewrite length_zip_with; lia).
  rewrite Hc, take_app_le, take_ge in Hf by lia.
  assert (Hd : forall k cl ph, recs !! k = Some cl -> phs !! k = Some ph -> exists b, ph = ph_done b).
  { intros k [[s e] j] ph Hk Hph. assert (Hz : zip_with (at_phase algos char_signed i c) recs phs !! k = Some (at_phase algos char_signed i c (s, e, j) ph))
      by (apply lookup_zip_with_Some; by eexists _, _).
    pose proof (Forall_lookup_1 _ _ _ _ Hf Hz) as Hfin. pose proof (Forall_lookup_1 _ _ _ _ Hp Hk) as Hj. cbv beta iota in Hj.
    assert ((exists b, ph = ph_done b) \/ forall b, ph <> ph_done b) as [Hb|Hb] by (destruct ph; eauto; by right); [done|exfalso].
    destruct (phase_next algos char_signed i c h H6 Hh s e j ph (p_otp p) (p_camera p) (p_db p) Hj Hb) as (ph' & d' & Hx).
    { destruct Hs as [[Hu _]|[Hu _]]; [by left|by right]. }
    destruct (at_phase algos char_signed i c (s, e, j) ph'). rewrite Hfin in Hx. by destruct Hx. }
  assert (Hat : forall k s e j, recs !! k = Some (s, e, j) -> exists b, phs !! k = Some (ph_done b)
    /\ p_clients p !! k = Some (after_send (step2_response b b) s, Finished)).
  { intros k s e j Hk. destruct (lookup_lt_is_Some_2 phs k) as [ph Hph]; [rewrite Hl; by eapply lookup_lt_Some|].
    destruct (Hd _ _ _ Hk Hph) as [b ->]. exists b. split; [done|]. rewrite Hc. apply lookup_app_l_Some, lookup_zip_with_Some.
    by exists (s, e, j), (ph_done b). }
  destruct Hs as [[_ Hn]|[_ (k & Hw & Ho)]].
  - exfalso. destruct recs as [|[[s e] j] recs]; [done|]. destruct (Hat 0%nat s e j eq_refl) as (b & Hb & _).
    by pose proof (Forall_lookup_1 _ _ _ _ Hn Hb).
  - exists k. assert (Hk : (k < length recs)%nat).
    { rewrite <- Hl. destruct (phs !! k) as [ph|] eqn:E; [by eapply lookup_lt_Some|done]. }
    split; [done|]. intros k' s e j Hk'. destruct (Hat k' s e j Hk') as (b & Hb & Ec). rewrite Ec. destruct (Nat.eqb_spec k' k) as [->|Hne].
    + rewrite Hb in Hw. cbn in Hw. by injection Hw as ->.
    + specialize (Ho k' Hne). rewrite Hb in Ho. cbn in Ho. by destruct b.
Qed.

(** C6: A recovery code logs in once, whatever the threads do: when several connections present the same
    unused code, while others send any requests but registrations and second steps of a login, then in
    whatever order their threads run, as soon as those have been answered exactly one of them was
    answered with success. *)
Theorem recovery_code_one_winner {D} `{SL : SqliteLaws D} {PW : Pwhash} (algos : gmap string Algo_info) (char_signed : bool)
    (i c h : string) (recs others : list (ssl * env * json)) (p p' : pool D) :
  let start '(s, e, j) := (s, request_thread algos char_signed e j) in
  six_digits c = false -> h <> "" -> verify_password h c = true ->
  healthy (p_db p) -> In h (unused (view (p_db p)) i) ->
  (forall h', In h' (unused (view (p_db p)) i) -> verify_password h' c = true -> h' = h) ->
  p_clients p = (map start recs ++ map start others)%list ->
  recs <> [] -> Forall (fun '(_, _, j) => presents i c j) recs ->
  Forall (fun '(_, _, j) => exists n, json_value get_int j "request_id" (-1) = Ok n /\ n <> 9 /\ n <> 22) others ->
  rtc pool_step p p' -> Forall (fun cl => snd cl = Finished) (take (length recs) (p_clients p')) ->
  exists k, (k < length recs)%nat /\ forall k' s e j, recs !! k' = Some (s, e, j) ->
    p_clients p' !! k' = Some (after_send (step2_response (k' =? k)%nat (k' =? k)%nat) s, Finished).
Proof.
  intros start H6 Hne Hv Hh Hin Hone Hc Hr Hp Ho Hs Hf. apply (code_inv_finished algos char_signed i c h); try done.
  refine (code_inv_reach _ _ _ _ _ H6 (conj Hne Hv) _ _ _ Hp _ Hs).
  exists (replicate (length recs) ph_start), (map start others). split_and!.
  - by rewrite length_replicate.
  - rewrite Hc. f_equal. clear. induction recs as [|[[s e] j] recs IH]; [done|]. cbn [map length replicate zip_with]. by rewrite IH.
  - apply Forall_map. eapply Forall_impl; [exact Ho|]. intros [[s e] j] (n & Hn & H9 & H22). by apply (request_keeper i algos char_signed e j n).
  - left. split; [by split_and!|]. by apply Forall_replicate.
Qed.

(** Two clients present kim's first code at the same time, a third asks for the base lines. *)
Definition code_client : ssl * env * json :=
  (mk_ssl [] [] [], mk_env 0 (fun _ => 0) (fun _ => 0) (fun _ => 0) "",
   make_obj [("request_id", JInt 22); ("data", login_data "input" "kim" "abcdefghij")]).
Definition other_client : ssl * env * json :=
  (mk_ssl [] [] [], mk_env 0 (fun _ => 0) (fun _ => 0) (fun _ => 0) "", make_obj [("request_id", JInt 7)]).

#[local] Instance toy_pwhash : Pwhash := {
  crypto_pwhash_str _ p := Some (String "#" p);
  crypto_pwhash_str_verify h p := if String.eqb h (String "#" p) then 0 else -1 }.

Definition kim_pool : pool Memory.store :=
  mk_pool kim_db empty_manager [] (map (fun '(s, e, j) => (s, request_thread ∅ false e j)) [code_client; code_client; other_client]).

Definition kim_later : pool Memory.store :=
  match run_schedule [1; 0; 0; 1; 2; 1; 0; 2; 0; 1; 2]%nat kim_pool with Some (Ok p) => p | _ => kim_pool end.

Lemma recovery_code_one_winner_witness :
  exists k, (k < 2)%nat /\ forall k', (k' < 2)%nat ->
    p_clients kim_later !! k' = Some (after_send (step2_response (k' =? k)%nat (k' =? k)%nat) (mk_ssl [] [] []), Finished).
Proof.
  destruct (recovery_code_one_winner (SL := Memory.laws) ∅ false "kim" "abcdefghij" "#abcdefghij" [code_client; code_client] [other_client]
    kim_pool kim_later) as (k & Hk & H).
  - reflexivity.
  - discriminate.
  - reflexivity.
  - exact kim_healthy.
  - by left.
  - intros h' [<-|[<-|[]]] E; [done|]. by vm_compute in E.
  - reflexivity.
  - discriminate.
  - assert (Hp : presents "kim" "abcdefghij" (snd code_client)) by (split; [reflexivity|]; by eexists).
    apply Forall_cons; split; [exact Hp|]. apply Forall_cons; split; [exact Hp|]. apply Forall_nil. exact I.
  - apply Forall_cons; split; [|by apply Forall_nil]. by exists 7.
  - apply (run_schedule_reaches [1; 0; 0; 1; 2; 1; 0; 2; 0; 1; 2]%nat). vm_compute. reflexivity.
  - vm_compute. repeat constructor.
  - exists k. split; [exact Hk|]. intros [|[|k']] Hk'; [by apply (H 0%nat _ _ _ eq_refl)|by apply (H 1%nat _ _ _ eq_refl)|lia].
Defined.

(** ** Lines that are lost *)

Section lost.
Context {D : Type} `{SL : SqliteLaws D} {PW : Pwhash}.

(** The pool in which connection [k] has come to a thread. *)
Definition with_client (k : nat) (d : D) (o : OTPManager) (cam : list camera_call) (s : ssl) (t : thread D) (p : pool D) : pool D :=
  mk_pool d o cam (<[k := (s, t)]> (p_clients p)).

Lemma with_client_id k s t p : p_clients p !! k = Some (s, t) -> with_client k (p_db p) (p_otp p) (p_camera p) s t p = p.
Proof. intros Hk. unfold with_client. rewrite list_insert_id by done. by destruct p. Qed.

Lemma run_stretch {A} k (p : pool D) sched s a (m : M (world D) A) kf x d o cam d' o' s' cam' :
  (k < length (p_clients p))%nat -> m (mk_world d o s cam) = (Ok x, mk_world d' o' s' cam') ->
  run_schedule (k :: sched) (with_client k d o cam s (stretch a m kf) p) = run_schedule sched (with_client k d' o' cam' s' (kf x) p).
Proof.
  intros Hk Hm. cbn [run_schedule]. unfold run_client, with_client. cbn [p_clients]. rewrite list_lookup_insert_eq by done.
  cbn [mbind option_bind]. unfold stretch, next, fmap, M_fmap, client_view. cbn [p_db p_otp p_camera]. rewrite Hm.
  cbn [mbind option_bind]. unfold client_done. cbn [p_clients w_db w_otp w_ssl w_camera]. by rewrite list_insert_insert_eq.
Qed.

Lemma on_db_world {A} (m : M D A) d o s cam r d' : m d = (r, d') -> on_db m (mk_world d o s cam) = (r, mk_world d' o s cam).
Proof. intros E. unfold on_db. cbn [w_db]. by rewrite E. Qed.

Lemma run_schedule_app s1 : forall s2 (p p' : pool D), run_schedule s1 p = Some (Ok p') -> run_schedule (s1 ++ s2) p = run_schedule s2 p'.
Proof.
  induction s1 as [|k s1 IH]; intros s2 p p'; cbn [run_schedule app]; [by intros [= ->]|].
  destruct (run_client k p) as [[p1|e]|]; [|done..]. apply IH.
Qed.

Lemma run_insert_all k s t ls (p : pool D) o cam : (k < length (p_clients p))%nat -> forall d, healthy d ->
  NoDup (map index (t_lines (view d) ++ ls)) -> NoDup (map Db.name (t_lines (view d) ++ ls)) ->
  exists d', run_schedule (replicate (length ls) k) (with_client k d o cam s (insert_all_thread ls t) p) = Some (Ok (with_client k d' o cam s t p))
  /\ healthy d' /\ view d' = with_lines (t_lines (view d) ++ ls)%list (view d).
Proof.
  intros Hk. induction ls as [|l ls IH]; intros d Hh Hi Hn; cbn [length replicate insert_all_thread].
  - exists d. rewrite app_nil_r. split; [done|]. split; [done|]. by destruct (view d).
  - destruct (insert_line_new l d Hh) as (d1 & E1 & Hh1 & V1); [by eapply insert_fresh|].
    destruct (IH d1 Hh1) as (d' & E & Hd & V); [rewrite V1; cbn [with_lines t_lines]; by rewrite <- app_assoc..|].
    exists d'. erewrite run_stretch; [|done|by apply on_db_world]. rewrite E. split; [done|]. split; [done|].
    rewrite V, V1. cbn. by rewrite <- app_assoc.
Qed.
End lost.

(** The stretches of a request for all lines up to its reading of the table, and of an insertion. *)
Section lost_line.
Context {D : Type} `{SL : SqliteLaws D} {PW : Pwhash}.
Context (algos : gmap string Algo_info) (char_signed : bool).

Definition reading_thread (httpLines : list CrossLine) : thread D :=
  stretch locked (on_db select_all_data_lines) (fun dbLines =>
  let realLines := real_lines httpLines dbLines in
  stretch locked (on_db delete_all_data_lines) (fun _ =>
  insert_all_thread realLines (answer (make_obj [("request_id", JInt 12); ("data", JArray (map line_json realLines))])))).

Lemma mapping_text b : exists text, dump_string (make_obj [("request_id", JInt 11); ("mapping_success", flag b)]) = Ok text.
Proof. destruct b; eexists; vm_compute; reflexivity. Qed.

Lemma run_to_reading k (p : pool D) sched d o cam s e j items httpLines : (k < length (p_clients p))%nat ->
  json_value get_int j "request_id" (-1) = Ok 3 -> camera_items e = Ok items -> read_all read_http_line items = Ok httpLines ->
  run_schedule (k :: k :: sched) (with_client k d o cam s (request_thread algos char_signed e j) p)
  = run_schedule sched (with_client k d o cam s (reading_thread httpLines) p).
Proof.
  intros Hk Hj Hc Hr. unfold request_thread. erewrite run_stretch; [|done|by apply liftR_eq]. cbv iota. unfold line_select_all_thread.
  erewrite run_stretch; [|done|]. 2: { rewrite (bind_eq _ _ _ _ _ (liftR_eq _ _ _ Hc)). by apply liftR_eq. } reflexivity.
Qed.

Lemma run_insertion k (p : pool D) sched d d' o cam s e j curl l : (k < length (p_clients p))%nat ->
  json_value get_int j "request_id" (-1) = Ok 2 -> (forall w : world D, line_request j w = (Ok (curl, l, "CCTV"), w)) ->
  insert_data_lines l d = (Ok true, d') ->
  run_schedule (k :: k :: k :: k :: k :: sched) (with_client k d o cam s (request_thread algos char_signed e j) p)
  = run_schedule sched (with_client k d' o (cam ++ [cam_put curl])%list
      (after_send (make_obj [("request_id", JInt 11); ("mapping_success", flag true)]) s) Finished p).
Proof.
  intros Hk Hj Hq Hi. unfold request_thread. erewrite run_stretch; [|done|by apply liftR_eq]. cbv iota. unfold line_insert_thread.
  erewrite run_stretch; [|done|apply Hq]. cbv beta iota.
  erewrite run_stretch; [|done|by apply on_db_world]. rewrite String.eqb_refl.
  erewrite run_stretch; [|done|reflexivity]. unfold answer.
  erewrite run_stretch; [|done|rewrite send_json_after by apply mapping_text; reflexivity]. reflexivity.
Qed.
End lost_line.

(** Between the reading of the table and its refilling, a request for all lines loses a line
    another client adds: there is an order of the stretches in which the insertion is answered with
    success and the camera has the new line, and yet behind the last insertion of the other request,
    which has only its answer left, the table holds exactly the old lines on the camera and not the new
    one, although nobody asked for its deletion. *)
Theorem select_all_loses_line {D} `{SL : SqliteLaws D} {PW : Pwhash} (algos : gmap string Algo_info) (char_signed : bool)
    (p : pool D) (sa sb : ssl) (ea eb : env) (ja jb : json) (items : list json) (httpLines : list CrossLine) (curl l : CrossLine) :
  p_clients p = [(sa, request_thread algos char_signed ea ja); (sb, request_thread algos char_signed eb jb)] ->
  healthy (p_db p) -> tables_wf (view (p_db p)) ->
  json_value get_int ja "request_id" (-1) = Ok 3 -> camera_items ea = Ok items ->
  read_all read_http_line items = Ok httpLines -> NoDup (map index httpLines) ->
  json_value get_int jb "request_id" (-1) = Ok 2 -> (forall w : world D, line_request jb w = (Ok (curl, l, "CCTV"), w)) ->
  existsb (fun l' => (index l' =? index l) || String.eqb (Db.name l') (Db.name l)) (t_lines (view (p_db p))) = false ->
  exists sched p' ls, run_schedule sched p = Some (Ok p')
  /\ p_clients p' = [(sa, answer (make_obj [("request_id", JInt 12); ("data", JArray (map line_json ls))]));
                     (after_send (make_obj [("request_id", JInt 11); ("mapping_success", JInt 1)]) sb, Finished)]
  /\ p_camera p' = (p_camera p ++ [cam_put curl])%list
  /\ view (p_db p') = with_lines ls (view (p_db p))
  /\ Permutation ls (on_camera (map index httpLines) (t_lines (view (p_db p)))) /\ ~ In l ls.
Proof.
  intros Hc Hh Hw Hja Hi Hr Hn Hjb Hq Hx. destruct (select_lines_spec (p_db p) Hh Hw) as (db & E0 & Hp & _). set (ls := real_lines httpLines db).
  assert (Hl : Permutation ls (on_camera (map index httpLines) (t_lines (view (p_db p))))).
  { unfold ls. rewrite real_lines_perm by done. unfold on_camera. by apply filter_perm. }
  destruct (insert_line_new l (p_db p) Hh Hx) as (d1 & E1 & Hh1 & V1).
  destruct (delete_all_spec DelLines d1 eq_refl ltac:(done) Hh1) as (n2 & d2 & E2 & Hh2 & V2). cbn [stmt_effect] in V2. injection V2 as _ V2.
  rewrite <- (with_client_id 0 sa (request_thread algos char_signed ea ja) p) by (by rewrite Hc).
  set (tr := insert_all_thread ls (answer (make_obj [("request_id", JInt 12); ("data", JArray (map line_json ls))])) : thread D).
  set (td := stretch locked (on_db delete_all_data_lines) (fun _ => tr)).
  set (p1 := with_client 0 (p_db p) (p_otp p) (p_camera p) sa td p).
  set (p2 := with_client 1 d1 (p_otp p) (p_camera p ++ [cam_put curl])%list
    (after_send (make_obj [("request_id", JInt 11); ("mapping_success", flag true)]) sb) Finished p1).
  destruct (run_insert_all 0 sa (answer (make_obj [("request_id", JInt 12); ("data", JArray (map line_json ls))])) ls p2
    (p_otp p) (p_camera p ++ [cam_put curl])%list ltac:(unfold p2, p1, with_client; cbn; rewrite Hc; cbn; lia) d2 Hh2) as (d3 & E3 & Hh3 & V3).
  1,2: rewrite <- V2; cbn [with_lines t_lines app]; rewrite Hl; apply NoDup_map_filter; apply Hw.
  exists ([0; 0; 0; 1; 1; 1; 1; 1; 0] ++ replicate (length ls) 0)%nat%list. cbn [app].
  eexists _, ls. split; [|split; [|split; [|split; [|split; [exact Hl|]]]]].
  - rewrite (run_to_reading algos char_signed 0 p _ _ _ _ _ _ _ _ _ ltac:(rewrite Hc; cbn; lia) Hja Hi Hr). unfold reading_thread.
    erewrite run_stretch; [|rewrite Hc; cbn; lia|by apply on_db_world]. cbv beta zeta. fold ls. fold tr. fold td. fold p1.
    rewrite <- (with_client_id 1 sb (request_thread algos char_signed eb jb) p1) by (unfold p1, with_client; cbn; by rewrite Hc).
    cbn [p_db p_otp p_camera p1 with_client].
    rewrite (run_insertion algos char_signed 1 p1 _ _ d1 _ _ _ _ _ curl l); [|unfold p1, with_client; cbn; rewrite Hc; cbn; lia|done..].
    fold p2. rewrite <- (with_client_id 0 sa td p2) by (unfold p2, p1, with_client; cbn; by rewrite Hc).
    unfold td at 1. erewrite run_stretch; [|unfold p2, p1, with_client; cbn; rewrite Hc; cbn; lia|by apply on_db_world]. exact E3.
  - unfold p2, p1, with_client. cbn. by rewrite Hc.
  - done.
  - cbn [with_client p_db]. rewrite V3, <- V2, V1. done.
  - intros Hin. rewrite Hl in Hin. apply filter_In in Hin as [Hin _]. apply not_true_iff_false in Hx. apply Hx. apply existsb_exists.
    exists l. by rewrite Z.eqb_refl.
Qed.

(** A second line while the camera has only the first. *)
Definition fence_request : json :=
  make_obj [("request_id", JInt 2); ("data", make_obj [("index", JInt 3); ("x1", JInt 1); ("y1", JInt 2); ("x2", JInt 3); ("y2", JInt 4);
    ("name", JString "fence"); ("mode", JString "Left")])].
Definition gate_pool : pool Memory.store :=
  mk_pool gate_db empty_manager []
    [(mk_ssl [] [] [], request_thread ∅ false gate_env (make_obj [("request_id", JInt 3)]));
     (mk_ssl [] [] [], request_thread ∅ false gate_env fence_request)].

Lemma select_all_loses_line_witness :
  exists sched p', run_schedule sched gate_pool = Some (Ok p') /\ p_camera p' = [cam_put (mk_CrossLine 3 4 8 12 16 "fence" "Left")]
  /\ t_lines (view (SqliteLaws := Memory.laws) (p_db p')) = [mk_CrossLine 1 0 0 9 9 "gate" "Right"].
Proof.
  destruct (select_all_loses_line (SL := Memory.laws) ∅ false gate_pool (mk_ssl [] [] []) (mk_ssl [] [] []) gate_env gate_env
    (make_obj [("request_id", JInt 3)]) fence_request [gate_item] [mk_CrossLine 1 0 0 9 9 "gate" "Right"]
    (mk_CrossLine 3 4 8 12 16 "fence" "Left") (mk_CrossLine 3 1 2 3 4 "fence" "Left")) as (sched & p' & ls & E & _ & Ec & Ev & Hp & _).
  - reflexivity.
  - exact gate_healthy.
  - constructor; cbn; repeat constructor; unfold line_ok, int_range; cbn; try lia; set_solver.
  - reflexivity.
  - vm_compute. reflexivity.
  - reflexivity.
  - repeat constructor; set_solver.
  - reflexivity.
  - intros w. vm_compute. reflexivity.
  - reflexivity.
  - exists sched, p'. split; [exact E|]. split; [exact Ec|]. rewrite Ev. cbn [with_lines t_lines].
    by apply Permutation_sym, Permutation_length_1_inv in Hp.
Defined.

(** ** The table of one-time passwords *)

(** Two connections are about to work on the table of one-time passwords, at least one of them writing,
    and no lock keeps them apart: a data race. *)
Definition racing {D} (p : pool D) : Prop :=
  exists i j si sj mi mj a, i <> j /\ p_clients p !! i = Some (si, Stretch otp_write mi) /\ p_clients p !! j = Some (sj, Stretch a mj)
  /\ (a = otp_write \/ a = otp_read).

Section race.
Context {D : Type} `{SL : SqliteLaws D} {PW : Pwhash}.
Context (algos : gmap string Algo_info) (char_signed : bool).

(** A first step of a login that will succeed and load a secret. *)
Record good_login (d : D) (j : json) (acc : Account) : Prop := {
  gl_id : json_value get_int j "request_id" (-1) = Ok 8;
  gl_data : exists data pw, request_data j data /\ json_value get_string data "id" "" = Ok (id acc)
    /\ json_value get_string data "passwd" "" = Ok pw /\ pw <> "" /\ verify_password (passwd acc) pw = true;
  gl_name : id acc <> "";
  gl_secret : otp_secret acc <> "";
  gl_stored : fst (get_account_by_id (id acc) d) = Ok (Some acc) }.

Lemma run_to_register k (p : pool D) sched d o cam s e j acc : (k < length (p_clients p))%nat -> healthy d -> tables_wf (view d) -> good_login d j acc ->
  run_schedule (k :: k :: k :: sched) (with_client k d o cam s (request_thread algos char_signed e j) p)
  = run_schedule sched (with_client k d o cam s
      (stretch otp_write (on_otp (register_otp algos (id acc) (otp_secret acc))) (fun _ => answer (step1_response true (Some acc)))) p).
Proof.
  intros Hk Hh Hw [Hj (data & pw & Hd & Hi & Hp & Hne & Hv) Hni Hs Ha]. unfold request_thread.
  erewrite run_stretch; [|done|by apply liftR_eq]. cbv iota. unfold login_step1_thread.
  erewrite run_stretch; [|done|]. 2: { rewrite (bind_eq _ _ _ _ _ (data_value_eq _ _ _ _ _ _ _ Hd Hi)).
    rewrite (bind_eq _ _ _ _ _ (data_value_eq _ _ _ _ _ _ _ Hd Hp)). reflexivity. }
  cbv beta iota. rewrite !str_empty_false by done. cbn [orb]. rewrite (get_account_spec d (id acc) Hh Hw) in Ha. cbn [fst] in Ha.
  erewrite run_stretch; [|done|apply on_db_world; by apply get_account_spec]. injection Ha as ->. rewrite Hv, str_empty_false by done. reflexivity.
Qed.
End race.

(** Nothing keeps two logins from writing the table of one-time passwords at the same time: whatever
    two accounts with a secret log in correctly from two connections, their threads reach a point where
    both are about to write the table, without a lock, which the language leaves undefined. *)
Theorem logins_race {D} `{SL : SqliteLaws D} {PW : Pwhash} (algos : gmap string Algo_info) (char_signed : bool)
    (p : pool D) (s1 s2 : ssl) (e1 e2 : env) (j1 j2 : json) (acc1 acc2 : Account) :
  p_clients p = [(s1, request_thread algos char_signed e1 j1); (s2, request_thread algos char_signed e2 j2)] ->
  healthy (p_db p) -> tables_wf (view (p_db p)) -> good_login (p_db p) j1 acc1 -> good_login (p_db p) j2 acc2 ->
  exists p', rtc pool_step p p' /\ racing p'.
Proof.
  intros Hc Hh Hw H1 H2.
  assert (Hk : forall k, (k < 2)%nat -> (k < length (p_clients p))%nat) by (rewrite Hc; done).
  rewrite <- (with_client_id 0 s1 (request_thread algos char_signed e1 j1) p) by (by rewrite Hc).
  eexists. split.
  - apply (run_schedule_reaches [0; 0; 0; 1; 1; 1]%nat). rewrite (run_to_register _ _ 0 p _ _ _ _ _ _ _ acc1) by auto with lia.
    match goal with |- run_schedule _ ?q = _ => set (p1 := q) end.
    rewrite <- (with_client_id 1 s2 (request_thread algos char_signed e2 j2) p1) by (unfold p1, with_client; cbn; by rewrite Hc).
    rewrite (run_to_register _ _ 1 p1 _ _ _ _ _ _ _ acc2); [|by unfold p1, with_client; cbn; rewrite Hc; cbn; lia|done..]. reflexivity.
  - eexists 1%nat, 0%nat, _, _, _, _, _. split; [done|]. unfold with_client. cbn [p_clients]. rewrite Hc. cbn. split_and!; [reflexivity..|by left].
Qed.

Lemma logins_race_witness :
  let j := make_obj [("request_id", JInt 8); ("data", login_data "passwd" "kim" "pw")] in
  let cl := (mk_ssl [] [] [], request_thread (otp_algorithm_map hmac1) false gate_env j) in
  exists p', rtc pool_step (mk_pool kim_db empty_manager [] [cl; cl]) p' /\ racing p'.
Proof.
  intros j cl. assert (Hg : good_login kim_db j (mk_Account "kim" "#pw" "JBSWY3DPEHPK3PXP" true)).
  { constructor; try done. by exists (login_data "passwd" "kim" "pw"), "pw". }
  by apply (logins_race (SL := Memory.laws) (otp_algorithm_map hmac1) false (mk_pool kim_db empty_manager [] [cl; cl])
    (mk_ssl [] [] []) (mk_ssl [] [] []) gate_env gate_env j j _ _ eq_refl kim_healthy kim_wf Hg Hg).
Defined.
