(* ===== verification/Writers.v ===== *)
(** * Two threads writing to one connection

    While bounding boxes are pushed, the thread of the connection answers requests and the push thread
    sends boxes, both through the same TLS connection.  ssl.cpp declares [ssl_write_mutex] for this, and
    nothing ever takes it.  Each message is two calls of [sendAll]; here the calls of the two threads
    mix in any order (OpenSSL gives no meaning to calls that overlap, so each call is one step). *)

From S2P Require Import Prelude Str Json JsonText JsonSpec JsonWf Otp Hash Ssl Db OtpManager Handlers Bbox TcpServer.
From Stdlib Require Import Ascii.
From Stdlib Require String.

Local Open Scope string_scope.
Local Open Scope Z_scope.
#[local] Opaque dump_string.

(** The two buffers a message with this text is sent as. *)
Definition message_writes (json_string : string) : list (list Z) :=
  let res_len := u32 (Z.of_nat (String.length json_string)) in
  [net32 res_len; take (Z.to_nat res_len) (bytes_of json_string)].

(** The connection after these calls of [sendAll]. *)
Definition write_all (ws : list (list Z)) (s : ssl) : ssl := foldl (fun s b => snd (sendAll s b)) s ws.

(** The calls of two threads in an order that keeps each thread's own. *)
Inductive interleaving {A} : list A -> list A -> list A -> Prop :=
| il_nil : interleaving [] [] []
| il_left x l l' m : interleaving l l' m -> interleaving (x :: l) l' (x :: m)
| il_right x l l' m : interleaving l l' m -> interleaving l (x :: l') (x :: m).

(** Both threads send their messages this way. *)
Lemma answer_writes {D} (w : world D) j text : dump_string j = Ok text ->
  send_json_response j w = (Ok tt, mk_world (w_db w) (w_otp w) (write_all (message_writes text) (w_ssl w)) (w_camera w)).
Proof. intros E. unfold send_json_response, mbind, M_bind, liftR, send_all. by rewrite E. Qed.

Lemma push_writes now b s boxes processed b' text : take_due now b = (boxes, processed, b') -> boxes <> [] ->
  dump_string (bbox_response boxes (Z.of_nat (length b)) processed) = Ok text ->
  Z.of_nat (String.length text) < 2 ^ 31 -> Forall (fun ev => ev <> wr_fail) (outcomes s) ->
  send_bboxes_to_client now (b, s) = (Ok true, (b', write_all (message_writes text) s)).
Proof.
  intros Hd Hb Ht Hl Hf. unfold send_bboxes_to_client. rewrite Hd. destruct boxes as [|box boxes]; [by destruct (Hb eq_refl)|]. rewrite Ht.
  unfold write_all, message_writes. cbn [foldl].
  destruct (sendAll_no_fail s (net32 (u32 (Z.of_nat (String.length text)))) ltac:(done) Hf) as (s1 & -> & _ & _ & F1). cbn [snd].
  rewrite net32_length. cbn [Z.eqb Z.of_nat]. change (Z.of_nat 4 =? -1) with false. cbv iota.
  destruct (sendAll_no_fail s1 (take (Z.to_nat (u32 (Z.of_nat (String.length text)))) (bytes_of text)) ltac:(rewrite length_take, bytes_of_length; lia) F1) as (s2 & -> & _). cbn [snd].
  destruct (Z.eqb_spec (Z.of_nat (length (take (Z.to_nat (u32 (Z.of_nat (String.length text)))) (bytes_of text)))) (-1)); [lia|done].
Qed.

(** What arrives at the other side. *)
Lemma write_all_sent ws : Forall (fun b => Z.of_nat (length b) < 2 ^ 31) ws -> forall s, Forall (fun ev => ev <> wr_fail) (outcomes s) -> sent (write_all ws s) = (sent s ++ concat ws)%list.
Proof.
  induction 1 as [|w ws Hw _ IH]; intros s Hf; unfold write_all; cbn [foldl concat]; [by rewrite app_nil_r|].
  destruct (sendAll_no_fail s w Hw Hf) as (s1 & -> & E & _ & F1). cbn [snd]. fold (write_all ws s1). rewrite (IH s1 F1), E. by rewrite <- app_assoc.
Qed.

(** Two messages of two buffers each: one after the other, or both lengths first. *)
Lemma interleaving_pairs {A} (a b c d : A) m : interleaving [a; b] [c; d] m ->
  m = [a; b; c; d] \/ m = [c; d; a; b] \/ ((m = [a; c; b; d] \/ m = [a; c; d; b]) \/ (m = [c; a; b; d] \/ m = [c; a; d; b])).
Proof. intros H. repeat match goal with H : interleaving _ _ _ |- _ => inversion H; clear H; subst end; tauto. Qed.

Lemma parse_zero l : parse (0 :: l) = Throw json_parse_error.
Proof. reflexivity. Qed.

(** A text whose length fits into 24 bits. *)
Definition short_text (text : string) : Prop := 0 < Z.of_nat (String.length text) < 2 ^ 24.

Lemma message_writes_short text : short_text text ->
  message_writes text = [net32 (Z.of_nat (String.length text)); bytes_of text].
Proof.
  intros Ht. unfold message_writes, short_text in *. cbv zeta. replace (u32 (Z.of_nat (String.length text))) with (Z.of_nat (String.length text))
    by (symmetry; apply Z.mod_small; lia). by rewrite Nat2Z.id, <- bytes_of_length, firstn_all.
Qed.

Lemma interleaving_Forall {A} (P : A -> Prop) l l' m : interleaving l l' m -> Forall P l -> Forall P l' -> Forall P m.
Proof. induction 1; [done|rewrite !Forall_cons; naive_solver..]. Qed.

Lemma writes_short ta tb ws : short_text ta -> short_text tb -> interleaving (message_writes ta) (message_writes tb) ws ->
  Forall (fun b => Z.of_nat (length b) < 2 ^ 31) ws.
Proof.
  intros Ha Hb Hi. apply (interleaving_Forall _ _ _ _ Hi); rewrite message_writes_short by done; unfold short_text in *;
    repeat constructor; rewrite bytes_of_length; lia.
Qed.

Lemma receive_text peer text rest : short_text text -> arriving (incoming peer) = (concat (message_writes text) ++ rest)%list ->
  exists peer', receive_json_message peer = (Some <$> parse_string text, peer') /\ arriving (incoming peer') = rest.
Proof.
  intros Ht. rewrite message_writes_short by done. cbn [concat]. rewrite app_nil_r, <- app_assoc. rewrite <- (bytes_of_length text).
  intros Ha. unfold short_text in Ht. rewrite <- (bytes_of_length text) in Ht.
  destruct (receive_frame peer (bytes_of text) rest ltac:(lia) ltac:(lia) Ha) as (p' & -> & Hr). rewrite string_of_bytes_of. by exists p'.
Qed.

(** A length behind a length: the reader takes it for the beginning of the text. *)
Lemma receive_two_lengths peer ta tb rest : short_text ta -> short_text tb ->
  arriving (incoming peer) = (net32 (Z.of_nat (String.length ta)) ++ net32 (Z.of_nat (String.length tb)) ++ rest)%list ->
  (String.length ta <= 4 + length rest)%nat -> fst (receive_json_message peer) = Throw json_parse_error.
Proof.
  unfold short_text. intros Ha Hb E Hl. set (n := String.length ta) in *.
  set (body := take n (net32 (Z.of_nat (String.length tb)) ++ rest)%list).
  assert (Hn : length body = n) by (unfold body; rewrite length_take_le; [done|rewrite length_app, net32_length; lia]).
  destruct (receive_frame peer body (drop n (net32 (Z.of_nat (String.length tb)) ++ rest)%list)) as (p' & -> & _); [lia|lia|rewrite Hn; unfold body; by rewrite take_drop|].
  cbn [fst]. assert (exists l, body = 0 :: l) as [l ->].
  { unfold body. destruct n as [|m]; [lia|]. unfold net32 at 1. cbn [map app take]. eexists. f_equal. unfold u32.
    rewrite (Z.mod_small (Z.of_nat _)) by lia. rewrite Z.div_small by lia. done. }
  unfold parse_string. cbn [string_of bytes_of]. change (code (chr 0)) with 0. by rewrite parse_zero.
Qed.

(** C21: Without the lock the messages of the two threads destroy each other: of all orders in which the
    calls of [sendAll] of an answer and of a push can mix, the reader gets both messages exactly when one
    message is sent whole before the other; in every other order the two lengths come first, the reader
    takes the second for the beginning of a text, and parsing throws. *)
Theorem unlocked_writes (ta tb : string) (ws : list (list Z)) (s peer : ssl) :
  short_text ta -> short_text tb -> interleaving (message_writes ta) (message_writes tb) ws ->
  Forall (fun ev => ev <> wr_fail) (outcomes s) -> sent (write_all ws s) = (sent s ++ arriving (incoming peer))%list ->
  let whole t1 t2 := exists p1 p2, receive_json_message peer = (Some <$> parse_string t1, p1)
    /\ receive_json_message p1 = (Some <$> parse_string t2, p2) /\ arriving (incoming p2) = [] in
  (ws = message_writes ta ++ message_writes tb /\ whole ta tb)%list \/ (ws = message_writes tb ++ message_writes ta /\ whole tb ta)%list
  \/ (fst (receive_json_message peer) = Throw json_parse_error /\ exists rest, ws = net32 (Z.of_nat (String.length ta)) :: net32 (Z.of_nat (String.length tb)) :: rest
       \/ ws = net32 (Z.of_nat (String.length tb)) :: net32 (Z.of_nat (String.length ta)) :: rest).
Proof.
  intros Ha Hb Hi Hf Hs whole. rewrite write_all_sent in Hs by (done || exact (writes_short _ _ _ Ha Hb Hi)). apply app_inv_head in Hs. symmetry in Hs.
  assert (Hwhole : forall t1 t2, short_text t1 -> short_text t2 ->
    arriving (incoming peer) = (concat (message_writes t1) ++ concat (message_writes t2))%list -> whole t1 t2).
  { intros t1 t2 H1 H2 E. destruct (receive_text peer t1 _ H1 E) as (p1 & E1 & A1). rewrite <- (app_nil_r (concat (message_writes t2))) in A1.
    destruct (receive_text p1 t2 _ H2 A1) as (p2 & E2 & A2). by exists p1, p2. }
  rewrite (message_writes_short ta), (message_writes_short tb) in * by done. cbn [app].
  apply interleaving_pairs in Hi as [->|[->|Hi]].
  - left. split; [done|]. apply Hwhole; [done..|]. rewrite !message_writes_short by done. by rewrite Hs, <- concat_app.
  - right; left. split; [done|]. apply Hwhole; [done..|]. rewrite !message_writes_short by done. by rewrite Hs, <- concat_app.
  - right; right. rewrite <- (bytes_of_length ta), <- (bytes_of_length tb).
    destruct Hi as [Hi|Hi]; (split; [|destruct Hi as [-> | ->]; rewrite !bytes_of_length; by eauto]).
    + apply (receive_two_lengths peer ta tb (concat (drop 2 ws)) Ha Hb); destruct Hi as [-> | ->]; cbn [drop concat] in *;
        rewrite ?Hs, ?length_app, ?bytes_of_length; cbn [length]; try lia; done.
    + apply (receive_two_lengths peer tb ta (concat (drop 2 ws)) Hb Ha); destruct Hi as [-> | ->]; cbn [drop concat] in *;
        rewrite ?Hs, ?length_app, ?bytes_of_length; cbn [length]; try lia; done.
Qed.

(** The shortest answer and the shortest push, with both lengths first. *)
Lemma unlocked_writes_witness :
  let peer := mk_ssl [rd_data [0; 0; 0; 2; 0; 0; 0; 3; 123; 125]; rd_data [91; 49; 93]] [] [] in
  fst (receive_json_message peer) = Throw json_parse_error.
Proof.
  intros peer. set (ws := [net32 2; net32 3; [123; 125]; [91; 49; 93]]).
  assert (Hi : interleaving (message_writes "{}") (message_writes "[1]") ws) by (repeat constructor).
  destruct (unlocked_writes "{}" "[1]" ws (mk_ssl [] [] []) peer) as [[E _]|[[E _]|[E _]]];
    [by split|by split|exact Hi|by constructor|reflexivity|discriminate E|discriminate E|exact E].
Defined.
