(* ===== verification/Client.v ===== *)
(** * test_client.cpp: the test client

    The dialogue of the client and its messages, and what it reports when it talks to the server: the
    client and the server of this repository together. *)

From S2P Require Import QrImage.
From S2P Require Import Prelude Str Stream Utils Json JsonText JsonSpec OtpUri Sha1 Otp Hash Ssl Db DbSpec OtpManager Handlers Bbox TcpServer HandlersSpec ServerSpec.
From Stdlib Require Import Ascii.
From Stdlib Require String.

Local Open Scope string_scope.
Local Open Scope Z_scope.

(** ** The connection *)

Definition client_sendAll (buffer : list Z) (s : ssl) : bool * ssl :=
  let '(ok, evs, out) := send_loop (outcomes s) buffer (sent s) in (ok, mk_ssl (incoming s) evs out).

Definition client_recvAll (len : nat) (s : ssl) : option (list Z) * ssl :=
  let '(r, evs) := recv_loop (incoming s) len [] in (r, mk_ssl evs (outcomes s) (sent s)).

(** ** The dialogue *)

Record client := mk_client { k_in : cin; k_ssl : ssl }.

Definition on_cin {A} (f : cin -> A * cin) : M client A := fun k =>
  let '(a, i) := f (k_in k) in (Ok a, mk_client i (k_ssl k)).
Definition on_ssl {A} (f : ssl -> A * ssl) : M client A := fun k =>
  let '(a, s) := f (k_ssl k) in (Ok a, mk_client (k_in k) s).

(** A request and its answer: [None] is [break]. *)
Definition exchange (request : json) : M client (option json) :=
  out ← liftR (dump_string request);
  ok ← on_ssl (client_sendAll (net32 (u32 (Z.of_nat (String.length out)))));
  if negb (ok : bool) then mret None
  else
    ok ← on_ssl (client_sendAll (bytes_of out));
    if negb (ok : bool) then mret None
    else
      net_len ← on_ssl (client_recvAll 4);
      match net_len with
      | None => mret None
      | Some net_len =>
          buf ← on_ssl (client_recvAll (Z.to_nat (of_net32 net_len)));
          match buf with
          | None => mret None
          | Some buf => j ← liftR (parse_string (string_of buf)); mret (Some j)
          end
      end.

(** What a turn reports; [k_break] leaves the loop. *)
Inductive client_report :=
| k_break
| login_complete (message : string)
| login_refused (message : string)
| login_without_otp
| step1_refused
| signup_with_otp (uri : string) (codes : list string) (svg : string)
| signup_without_otp
| signup_refused
| k_again.

Definition step1_request (i passwd : string) : json :=
  make_obj [("request_id", JInt 8); ("data", make_obj [("id", JString i); ("passwd", JString passwd)])].
Definition step2_request (i otp_input : string) : json :=
  make_obj [("request_id", JInt 22); ("data", make_obj [("id", JString i); ("input", JString otp_input)])].
Definition signup_request (i passwd : string) (use_otp : bool) : json :=
  make_obj [("request_id", JInt 9);
    ("data", make_obj [("id", JString i); ("passwd", JString passwd); ("use_otp", JBool use_otp)])].

Definition login_step2 (i : string) : M client client_report :=
  otp_input ← on_cin (read_word "");
  step2_res ← exchange (step2_request i otp_input);
  match step2_res with
  | None => mret k_break
  | Some step2_res =>
      final ← liftR (json_value get_int step2_res "final_login_success" 0);
      message ← liftR (json_value get_string step2_res "message" "");
      mret (if final =? 1 then login_complete message else login_refused message)
  end.

Definition login : M client client_report :=
  i ← on_cin (read_word "");
  passwd ← on_cin (read_word "");
  step1_res ← exchange (step1_request i passwd);
  match step1_res with
  | None => mret k_break
  | Some step1_res =>
      success ← liftR (json_value get_int step1_res "step1_success" 0);
      if success =? 1 then
        _ ← liftR (json_value get_string step1_res "message" "");
        requires_otp ← liftR (json_value get_int step1_res "requires_otp" 0);
        if requires_otp =? 1 then login_step2 i else mret login_without_otp
      else mret step1_refused
  end.

(** [signup_res.contains("recovery_codes")] and the loop over the codes. *)
Definition shown_codes (signup_res : json) : res (list string) :=
  match signup_res with
  | JObject fields => match obj_find fields "recovery_codes" with Some v => read_all get_string (json_items v) | None => Ok [] end
  | _ => Ok []
  end.

Definition signup : M client client_report :=
  i ← on_cin (read_word "");
  passwd ← on_cin (read_word "");
  otp_choice ← on_cin read_int;
  let use_otp := default 1 otp_choice =? 1 in
  signup_res ← exchange (signup_request i passwd use_otp);
  match signup_res with
  | None => mret k_break
  | Some signup_res =>
      success ← liftR (json_value get_int signup_res "sign_up_success" 0);
      if success =? 1 then
        if use_otp then
          uri ← liftR (json_value get_string signup_res "otp_uri" "");
          codes ← liftR (shown_codes signup_res);
          svg ← liftR (json_value get_string signup_res "qr_code_svg" "");
          mret (signup_with_otp uri codes svg)
        else mret signup_without_otp
      else mret signup_refused
  end.

(** [action] is not initialized. *)
Definition client_turn : M client client_report :=
  action ← on_cin read_int;
  match action with
  | None => throwM undefined_behavior
  | Some 3 => mret k_break
  | Some 1 => login
  | Some 2 => signup
  | Some _ => mret k_again
  end.

(** The loop; behind it the client shuts the connection down and returns 0. *)
Fixpoint client_main (fuel : nat) (k : client) : list client_report * option (res unit) * client :=
  match fuel with
  | O => ([], None, k)
  | S fuel =>
      match client_turn k with
      | (Throw e, k) => ([], Some (Throw e), k)
      | (Ok k_break, k) => ([k_break], Some (Ok tt), k)
      | (Ok r, k) => let '(rs, o, k) := client_main fuel k in (r :: rs, o, k)
      end
  end.

(** ** The end of the client *)

(** A computation that reads the input, and never puts anything back. *)
Class Types {A} (m : M client A) : Prop := types k : (turns_left (k_in (snd (m k))) <= turns_left (k_in k))%nat.

Section types.
#[local] Opaque dump_string parse_string make_obj.
#[local] Typeclasses Opaque dump_string parse_string make_obj.

#[local] Instance types_ret {A} (a : A) : Types (mret a).
Proof. by intros k. Qed.
#[local] Instance types_lift {A} (r : res A) : Types (liftR r).
Proof. by intros k. Qed.
#[local] Instance types_ssl {A} (f : ssl -> A * ssl) : Types (on_ssl f).
Proof. intros k. unfold on_ssl. by destruct (f (k_ssl k)). Qed.
#[local] Instance types_word w : Types (on_cin (read_word w)).
Proof. intros k. unfold on_cin. pose proof (read_word_left w (k_in k)) as H. by destruct (read_word w (k_in k)). Qed.
#[local] Instance types_int : Types (on_cin read_int).
Proof. intros k. unfold on_cin. pose proof (read_int_left_le (k_in k)) as H. by destruct (read_int (k_in k)). Qed.
#[local] Instance types_bind {A B} (m : M client A) (f : A -> M client B) : Types m -> (forall a, Types (f a)) -> Types (m ≫= f).
Proof.
  intros Hm Hf k. unfold mbind, M_bind. pose proof (Hm k) as H1. destruct (m k) as [[a|e] k1]; [|done]. pose proof (Hf a k1). cbn in H1. lia.
Qed.
#[local] Instance types_if {A} (b : bool) (m1 m2 : M client A) : Types m1 -> Types m2 -> Types (if b then m1 else m2).
Proof. by destruct b. Qed.
#[local] Instance types_option {A B} (o : option B) (f : B -> M client A) (m : M client A) : (forall b, Types (f b)) -> Types m ->
  Types (match o with Some b => f b | None => m end).
Proof. by destruct o. Qed.

#[local] Instance types_exchange j : Types (exchange j).
Proof.
  unfold exchange. repeat (apply types_bind; [apply _|intros ?]); apply types_if; [apply _|]. apply types_bind; [apply _|intros ok]. apply types_if; [apply _|].
  apply types_bind; [apply _|intros [l|]]; [|apply _]. apply types_bind; [apply _|intros [b|]]; apply _.
Qed.
#[local] Instance types_step2 i : Types (login_step2 i).
Proof. unfold login_step2. do 2 (apply types_bind; [apply _|intros ?]). case_match; apply _. Qed.
#[local] Instance types_login : Types login.
Proof. unfold login. do 3 (apply types_bind; [apply _|intros ?]). case_match; apply _. Qed.
#[local] Instance types_signup : Types signup.
Proof. unfold signup. do 4 (apply types_bind; [apply _|intros ?]). case_match; apply _. Qed.

Lemma client_turn_left k r k' : client_turn k = (Ok r, k') -> (turns_left (k_in k') < turns_left (k_in k))%nat.
Proof.
  unfold client_turn. unfold mbind at 1, M_bind at 1, on_cin at 1. destruct (read_int (k_in k)) as [[z|] i'] eqn:E; [|done].
  apply read_int_left in E. set (k1 := mk_client i' _).
  assert (HR : forall A (m : M client A) r, Types m -> m k1 = (r, k') -> (turns_left (k_in k') < turns_left (k_in k))%nat).
  { intros A m r' Hm Em. pose proof (Hm k1) as Hl. rewrite Em in Hl. cbn in Hl. lia. }
  repeat match goal with |- context [match ?x with _ => _ end] => is_var x; destruct x end; apply HR; apply _.
Qed.

(** The client ends, too, whatever is typed and whatever the server sends. *)
Lemma client_main_ends fuel : forall k, (turns_left (k_in k) <= fuel)%nat -> exists rs r k', client_main fuel k = (rs, Some r, k').
Proof.
  induction fuel as [|fuel IH]; intros k Hf; [unfold turns_left in Hf; destruct (failed (k_in k)); lia|]. cbn [client_main].
  destruct (client_turn k) as [[rep|e] k1] eqn:E; [|by eexists _, _, _].
  pose proof (client_turn_left _ _ _ E) as Hl. destruct (IH k1 ltac:(lia)) as (rs & r & k' & E1).
  destruct rep; rewrite ?E1; by eexists _, _, _.
Qed.
End types.

(** ** Exchanges *)

Definition no_failure (s : ssl) : Prop := Forall (fun ev => ev <> wr_fail) (outcomes s).

Lemma client_send buffer s : Z.of_nat (length buffer) < 2 ^ 31 -> no_failure s -> exists s', client_sendAll buffer s = (true, s')
  /\ sent s' = (sent s ++ buffer)%list /\ incoming s' = incoming s /\ no_failure s'.
Proof.
  intros Hb Hf. unfold client_sendAll. destruct (send_loop_no_fail (outcomes s) buffer (sent s) Hb Hf) as (evs & -> & Hf'). by eexists.
Qed.

Lemma client_recv s pre rest : Z.of_nat (length pre) < 2 ^ 31 -> arriving (incoming s) = (pre ++ rest)%list ->
  exists s', client_recvAll (length pre) s = (Some pre, s') /\ arriving (incoming s') = rest /\ outcomes s' = outcomes s /\ sent s' = sent s.
Proof. intros Hp E. apply (recvAll_prefix s pre rest Hp E). Qed.

(** The bytes of a message. *)
Definition message (text : string) : list Z := framed (bytes_of text).

Lemma exchange_eq request text answer atext i s rest :
  dump_string request = Ok text -> Z.of_nat (String.length text) < 2 ^ 31 ->
  parse_string atext = Ok answer -> Z.of_nat (String.length atext) < 2 ^ 31 ->
  no_failure s -> arriving (incoming s) = (message atext ++ rest)%list ->
  exists s', exchange request (mk_client i s) = (Ok (Some answer), mk_client i s')
  /\ sent s' = (sent s ++ message text)%list /\ arriving (incoming s') = rest /\ no_failure s'.
Proof.
  intros Hd Hl Hp Ha Hf Hi. unfold exchange, mbind, M_bind, liftR, on_ssl. rewrite Hd. cbn [k_ssl k_in].
  unfold u32. rewrite Z.mod_small by lia.
  destruct (client_send (net32 (Z.of_nat (String.length text))) s ltac:(done) Hf) as (s1 & -> & S1 & I1 & F1). cbn [negb k_ssl k_in].
  destruct (client_send (bytes_of text) s1 ltac:(by rewrite bytes_of_length) F1) as (s2 & -> & S2 & I2 & F2). cbn [negb k_ssl k_in].
  rewrite <- I1, <- I2 in Hi. unfold message, framed in Hi. rewrite <- app_assoc in Hi.
  destruct (client_recv s2 (net32 _) _ eq_refl Hi) as (s3 & E3 & A3 & O3 & S3). rewrite net32_length in E3. rewrite E3. cbn [k_ssl k_in].
  rewrite bytes_of_length, of_net32_net32 by lia. rewrite <- bytes_of_length, Nat2Z.id.
  destruct (client_recv s3 (bytes_of _) _ ltac:(by rewrite bytes_of_length) A3) as (s4 & E4 & A4 & O4 & S4). rewrite E4. cbn [k_ssl k_in].
  rewrite string_of_bytes_of, Hp. exists s4. split; [done|]. split; [|split; [done|unfold no_failure; by rewrite O4, O3]].
  rewrite S4, S3, S2, S1, <- app_assoc. unfold message, framed. by rewrite bytes_of_length.
Qed.

(** ** The server's answers *)

Section server.
Context {D : Type} `{SL : SqliteLaws D} {PW : Pwhash}.
Context (HMAC : string -> list Z -> list Z -> option (list Z)) (char_signed : bool).
Notation algos := (otp_algorithm_map HMAC).

(** A request that is answered with one message. *)
Lemma session_answer envs j js (w w1 : world D) c answer text :
  route_request algos char_signed (envs 0%nat) j (w, c) = (let '(r, w2) := send_json_response answer w1 in (r, (w2, c))) ->
  dump_string answer = Ok text -> Z.of_nat (String.length text) < 2 ^ 31 -> no_failure (w_ssl w1) ->
  exists s, session algos char_signed envs (j :: js) (w, c)
    = session algos char_signed (fun k => envs (S k)) js (mk_world (w_db w1) (w_otp w1) s (w_camera w1), c)
  /\ sent s = (sent (w_ssl w1) ++ message text)%list /\ no_failure s.
Proof.
  intros Hr Hd Hl Hf. destruct (send_json_response_world w1 answer text Hd Hl Hf) as (s & E & Hs & _ & Hf').
  exists s. split; [|split; [|done]].
  - cbn [session]. unfold try_catch. by rewrite Hr, E.
  - unfold message, framed. by rewrite bytes_of_length.
Qed.

Lemma step1_request_data i pw : request_data (step1_request i pw) (make_obj [("id", JString i); ("passwd", JString pw)]).
Proof. reflexivity. Qed.
Lemma step2_request_data i input : request_data (step2_request i input) (make_obj [("id", JString i); ("input", JString input)]).
Proof. reflexivity. Qed.

(** The answers can be written and read. *)
Lemma step1_answer ok acc : exists text, dump_string (step1_response ok acc) = Ok text
  /\ parse_string text = Ok (step1_response ok acc) /\ Z.of_nat (String.length text) < 2 ^ 31.
Proof.
  destruct ok; [destruct acc as [[? ? ? []]|]|]; unfold step1_response; cbn [use_otp app];
    (eexists; split; [vm_compute; reflexivity|]; split; [vm_compute; reflexivity|vm_compute; reflexivity]).
Qed.

Lemma step2_answer b : exists text, dump_string (step2_response b false) = Ok text
  /\ parse_string text = Ok (step2_response b false) /\ Z.of_nat (String.length text) < 2 ^ 31.
Proof. destruct b; (eexists; split; [vm_compute; reflexivity|]; split; [vm_compute; reflexivity|vm_compute; reflexivity]). Qed.

(** The two steps of a login on the server. *)
Lemma server_step1 e (w : world D) c i pw : healthy (w_db w) -> tables_wf (DbSpec.view (w_db w)) -> i <> "" -> pw <> "" ->
  let acc := List.find (fun a => String.eqb (id a) i) (t_accounts (DbSpec.view (w_db w))) in
  let ok := match acc with Some a => verify_password (passwd a) pw | None => false end in
  exists m', route_request algos char_signed e (step1_request i pw) (w, c)
    = (let '(r, w2) := send_json_response (step1_response ok acc) (put_otp m' w) in (r, (w2, c)))
  /\ (forall a, acc = Some a -> ok = true -> otp_secret a <> "" -> exists t,
        TOTP_named algos (otp_secret a) "SHA1" 6 30 = Ok t /\ m' = put_user i (label_totp i t) (otp_secret a) (w_otp w)).
Proof.
  intros Hh Hw Hi Hp acc ok. destruct (login_step1_spec HMAC w _ _ i pw Hh Hw (step1_request_data i pw) eq_refl eq_refl Hi Hp) as (m' & E & _ & Ht).
  exists m'. split; [|done]. assert (Er : json_value get_int (step1_request i pw) "request_id" (-1) = Ok 8) by reflexivity.
  unfold route_request, mbind, M_bind, liftR. rewrite Er. unfold on_world. cbn [fst snd]. by rewrite E.
Qed.

Lemma server_step2 e (w : world D) c i input b : six_digits input = true ->
  verify_otp (w_otp w) i (dec_value 0 input) (env_time e) = Ok b ->
  route_request algos char_signed e (step2_request i input) (w, c)
  = (let '(r, w2) := send_json_response (step2_response b false) w in (r, (w2, c))).
Proof.
  intros H6 Hv. assert (Er : json_value get_int (step2_request i input) "request_id" (-1) = Ok 22) by reflexivity.
  unfold route_request, mbind at 1, M_bind at 1, liftR at 1. rewrite Er. unfold on_world. cbn [fst snd].
  rewrite (step2_open _ _ _ _ _ _ (step2_request_data i input) eq_refl eq_refl).
  pose proof (step2_otp e i input w H6) as E2. rewrite Hv in E2. by rewrite (bind_eq _ _ _ _ _ (catch_ok _ _ _ _ _ _ E2)).
Qed.
End server.

(** ** The client's side *)

(** The answers as the client reads them. *)
Lemma step1_read ok acc : (acc = None -> ok = false) ->
  json_value get_int (step1_response ok acc) "step1_success" 0 = Ok (if ok then 1 else 0)
  /\ (exists m, json_value get_string (step1_response ok acc) "message" "" = Ok m)
  /\ forall a, acc = Some a -> ok = true -> json_value get_int (step1_response ok acc) "requires_otp" 0 = Ok (if use_otp a then 1 else 0).
Proof.
  intros Ha. destruct ok; [destruct acc as [[? ? ? u]|]; [|by discriminate (Ha eq_refl)]|].
  - split; [reflexivity|]. split; [eexists; reflexivity|]. intros a [= <-] _. destruct u; reflexivity.
  - split; [reflexivity|]. split; [eexists; reflexivity|done].
Qed.

Definition step2_message (b : bool) : string :=
  match json_value get_string (step2_response b false) "message" "" with Ok m => m | Throw _ => "" end.

Lemma step2_read b : json_value get_int (step2_response b false) "final_login_success" 0 = Ok (if b then 1 else 0)
  /\ json_value get_string (step2_response b false) "message" "" = Ok (step2_message b).
Proof. by destruct b. Qed.

(** A word a user can type: printed as it is, and accepted by the JSON writer. *)
Definition word (s : string) : Prop := s <> "" /\ all_chars (fun c => negb (is_space c)) s = true /\ valid_utf8 s = true.

Lemma read_word_next w old rest : word w -> ended rest = true ->
  read_word old (mk_cin (" " +:+ w +:+ rest) false) = (w, mk_cin rest false).
Proof.
  intros (Hne & Hw & _) Hr. rewrite <- (read_word_spec w old rest Hne Hw Hr). unfold read_word, sentry. cbn [failed unread String.append].
  cbn [skip_spaces]. reflexivity.
Qed.

Lemma read_word_first w old rest : word w -> ended rest = true ->
  read_word old (mk_cin (w +:+ rest) false) = (w, mk_cin rest false).
Proof. intros (Hne & Hw & _) Hr. by apply read_word_spec. Qed.

(** The first step as the client makes it. *)
Lemma login_step1_eq i pw rest s s1 ok acc : word i -> word pw -> ended rest = true ->
  (acc = None -> ok = false) ->
  exchange (step1_request i pw) (mk_client (mk_cin rest false) s) = (Ok (Some (step1_response ok acc)), mk_client (mk_cin rest false) s1) ->
  login (mk_client (mk_cin (i +:+ " " +:+ pw +:+ rest) false) s)
  = match acc with
    | Some a => if ok then if use_otp a then login_step2 i (mk_client (mk_cin rest false) s1) else (Ok login_without_otp, mk_client (mk_cin rest false) s1)
                else (Ok step1_refused, mk_client (mk_cin rest false) s1)
    | None => (Ok step1_refused, mk_client (mk_cin rest false) s1)
    end.
Proof.
  intros Hi Hp Hr Ha E. destruct (step1_read ok acc Ha) as (R1 & (m & R2) & R3).
  unfold login, mbind, M_bind, on_cin, liftR. cbn [k_in k_ssl]. rewrite (read_word_first i) by done. cbn [k_in k_ssl].
  rewrite (read_word_next pw) by done. rewrite E, R1. destruct ok; [|by destruct acc]. cbn [Z.eqb]. rewrite R2.
  destruct acc as [a|]; [|by discriminate (Ha eq_refl)]. rewrite (R3 a eq_refl eq_refl). by destruct (use_otp a).
Qed.

Lemma login_step2_eq i input tail s s1 b : word input -> ended tail = true ->
  exchange (step2_request i input) (mk_client (mk_cin tail false) s) = (Ok (Some (step2_response b false)), mk_client (mk_cin tail false) s1) ->
  login_step2 i (mk_client (mk_cin (" " +:+ input +:+ tail) false) s)
  = (Ok ((if b then login_complete else login_refused) (step2_message b)), mk_client (mk_cin tail false) s1).
Proof.
  intros Hn Ht E. destruct (step2_read b) as [R1 R2]. unfold login_step2, mbind, M_bind, on_cin, liftR. cbn [k_in k_ssl].
  rewrite (read_word_next input) by done. rewrite E, R1, R2. by destruct b.
Qed.

Lemma step1_request_wf i pw : word i -> word pw -> wf_json (step1_request i pw) = true.
Proof.
  intros (_ & _ & Hi) (_ & _ & Hp).
  change (step1_request i pw) with (JObject [("data", JObject [("id", JString i); ("passwd", JString pw)]); ("request_id", JInt 8)]).
  cbn [wf_json]. rewrite Hi, Hp. reflexivity.
Qed.
Lemma step2_request_wf i input : word i -> word input -> wf_json (step2_request i input) = true.
Proof.
  intros (_ & _ & Hi) (_ & _ & Hp).
  change (step2_request i input) with (JObject [("data", JObject [("id", JString i); ("input", JString input)]); ("request_id", JInt 22)]).
  cbn [wf_json]. rewrite Hi, Hp. reflexivity.
Qed.

(** ** Client and server together *)

Definition small (j : json) : Prop := forall text, dump_string j = Ok text -> Z.of_nat (String.length text) < 2 ^ 31.

Lemma request_text j : wf_json j = true -> small j -> exists text, dump_string j = Ok text /\ Z.of_nat (String.length text) < 2 ^ 31
  /\ carries (bytes_of text) j.
Proof.
  intros Hw Hs. destruct (dump_parse j Hw) as (text & Hd & Hp). exists text. split; [done|]. specialize (Hs text Hd). split; [done|].
  unfold carries. rewrite bytes_of_length, string_of_bytes_of. split_and!; [|done|done]. destruct text; [discriminate Hp|cbn; lia].
Qed.

(** What the client should report: the account's password decides about the first step, and the
    account's setting whether there is a second. *)
Definition login_outcome `{Pwhash} (acc : option Account) (pw : string) (b : bool) : client_report :=
  match acc with
  | Some a =>
      if verify_password (passwd a) pw then
        if use_otp a then (if b then login_complete else login_refused) (step2_message b) else login_without_otp
      else step1_refused
  | None => step1_refused
  end.

#[local] Opaque dump_string parse_string send_json_response route_request.

Section together.
Context {D : Type} `{SL : SqliteLaws D} {PW : Pwhash}.
Context (HMAC : string -> list Z -> list Z -> option (list Z)) (char_signed : bool).
Notation algos := (otp_algorithm_map HMAC).

(** The connection on the requests of a whole session. *)
Lemma serve_texts envs (w : world D) c js texts s answers :
  Forall2 (fun j text => carries (bytes_of text) j) js texts -> arriving (incoming s) = concat (map message texts) ->
  (exists st, session algos char_signed envs js (seen (mk_world (w_db w) (w_otp w) s (w_camera w), c)) = (Closed, st)
     /\ sent (w_ssl (fst st)) = (sent s ++ answers)%list) ->
  exists st, client_loop algos char_signed (S (length (arriving (incoming s)))) envs (mk_world (w_db w) (w_otp w) s (w_camera w), c) = (Closed, st)
  /\ sent (w_ssl (fst st)) = (sent s ++ answers)%list.
Proof.
  intros HF Ha (st & Es & Hs).
  assert (HF' : Forall2 carries (map bytes_of texts) js) by (clear -HF; induction HF; constructor; done).
  assert (Ha' : arriving (incoming s) = (concat (map framed (map bytes_of texts)) ++ [])%list) by (rewrite app_nil_r, map_map; exact Ha).
  pose proof (frames_length _ _ HF') as Hn. assert (Hl : (length (map bytes_of texts) < S (length (arriving (incoming s))))%nat)
    by (rewrite Ha', app_nil_r; lia).
  pose proof (loop_session algos char_signed _ _ [] HF' ltac:(left; cbn; lia) _ envs (mk_world (w_db w) (w_otp w) s (w_camera w)) c Hl Ha') as HL.
  destruct (client_loop _ _ _ _ _) as [o st0]. rewrite Es in HL. injection HL as -> <-. by exists st0.
Qed.

(** The server side of a login that needs one request, and of one that needs two. *)
Lemma server_one envs (w : world D) c i pw (s : ssl) : healthy (w_db w) -> tables_wf (DbSpec.view (w_db w)) -> i <> "" -> pw <> "" -> no_failure s ->
  let acc := List.find (fun a => String.eqb (id a) i) (t_accounts (DbSpec.view (w_db w))) in
  let ok := match acc with Some a => verify_password (passwd a) pw | None => false end in
  forall atext, dump_string (step1_response ok acc) = Ok atext -> Z.of_nat (String.length atext) < 2 ^ 31 ->
  exists st, session algos char_signed envs [step1_request i pw] (seen (mk_world (w_db w) (w_otp w) s (w_camera w), c)) = (Closed, st)
  /\ sent (w_ssl (fst st)) = (sent s ++ message atext)%list.
Proof.
  intros Hh Hw Hi Hp Hf acc ok atext Hd Hl.
  destruct (server_step1 HMAC char_signed (envs 0%nat) (set_incoming [] (mk_world (w_db w) (w_otp w) s (w_camera w))) c i pw Hh Hw Hi Hp) as (m' & Er & _).
  destruct (session_answer HMAC char_signed envs _ [] _ _ c _ atext Er Hd Hl Hf) as (s' & Es & Hs & _).
  eexists. split; [exact Es|]. exact Hs.
Qed.

Lemma server_two envs (w : world D) c i pw input a t b (s : ssl) : healthy (w_db w) -> tables_wf (DbSpec.view (w_db w)) -> i <> "" -> pw <> "" ->
  no_failure s -> six_digits input = true ->
  let acc := List.find (fun a => String.eqb (id a) i) (t_accounts (DbSpec.view (w_db w))) in
  acc = Some a -> verify_password (passwd a) pw = true -> otp_secret a <> "" ->
  TOTP_named algos (otp_secret a) "SHA1" 6 30 = Ok t ->
  verify_int (label_totp i t) (u64 (dec_value 0 input)) (env_time (envs 1%nat)) 0 = Ok b ->
  forall atext1 atext2, dump_string (step1_response true acc) = Ok atext1 -> Z.of_nat (String.length atext1) < 2 ^ 31 ->
  dump_string (step2_response b false) = Ok atext2 -> Z.of_nat (String.length atext2) < 2 ^ 31 ->
  exists st, session algos char_signed envs [step1_request i pw; step2_request i input] (seen (mk_world (w_db w) (w_otp w) s (w_camera w), c)) = (Closed, st)
  /\ sent (w_ssl (fst st)) = (sent s ++ message atext1 ++ message atext2)%list.
Proof.
  intros Hh Hw Hi Hp Hf H6 acc Hacc Hok Hsec Ht Hv atext1 atext2 Hd1 Hl1 Hd2 Hl2.
  destruct (server_step1 HMAC char_signed (envs 0%nat) (set_incoming [] (mk_world (w_db w) (w_otp w) s (w_camera w))) c i pw Hh Hw Hi Hp) as (m' & Er & Hm).
  cbn [w_db set_incoming] in Er, Hm. fold acc in Er, Hm. rewrite Hacc, Hok in Er, Hm. rewrite Hacc in Hd1.
  destruct (Hm a eq_refl eq_refl Hsec) as (t' & Ht' & Em). rewrite Ht in Ht'. injection Ht' as <-.
  destruct (session_answer HMAC char_signed envs _ [step2_request i input] _ _ c _ atext1 Er Hd1 Hl1 Hf) as (s1 & Es1 & Hs1 & Hf1).
  assert (Hv' : verify_otp m' i (dec_value 0 input) (env_time (envs 1%nat)) = Ok b).
  { rewrite Em. unfold verify_otp, put_user. cbn [user_otps]. rewrite lookup_insert_eq. exact Hv. }
  set (w1 := mk_world (w_db w) m' s1 (w_camera w)).
  destruct (session_answer HMAC char_signed (fun k => envs (S k)) (step2_request i input) [] w1 w1 c (step2_response b false) atext2
    (server_step2 HMAC char_signed (envs 1%nat) w1 c i input b H6 Hv') Hd2 Hl2 Hf1) as (s2 & Es2 & Hs2 & _).
  eexists. split; [etransitivity; [exact Es1|exact Es2]|]. cbn [fst w_ssl]. rewrite Hs2. unfold w1. cbn [w_ssl]. rewrite Hs1. cbn [w_ssl put_otp set_incoming sent]. by rewrite <- app_assoc.
Qed.
End together.

(** Both sides of a login that needs two requests, and of one that needs one. *)
Section sides.
Context {D : Type} `{SL : SqliteLaws D} {PW : Pwhash}.
Context (HMAC : string -> list Z -> list Z -> option (list Z)) (char_signed : bool).
Context (envs : nat -> env) (w : world D) (c : conn) (i pw input tail : string) (b : bool).
Notation algos := (otp_algorithm_map HMAC).
Let acc := List.find (fun a => String.eqb (id a) i) (t_accounts (DbSpec.view (w_db w))).
Let ok := match acc with Some a => verify_password (passwd a) pw | None => false end.
Context (Hh : healthy (w_db w)) (Hw : tables_wf (DbSpec.view (w_db w))).
Context (Hi : word i) (Hp : word pw) (Hn : word input) (H6 : six_digits input = true) (Ht : ended tail = true).
Context (Hs1 : small (step1_request i pw)) (Hs2 : small (step2_request i input)).

(** The streams of a conversation with that outcome. *)
Definition agree (outcome : client_report) : Prop := exists requests answers,
  (forall s, arriving (incoming s) = requests -> no_failure s ->
     exists st, client_loop algos char_signed (S (length (arriving (incoming s)))) envs (mk_world (w_db w) (w_otp w) s (w_camera w), c) = (Closed, st)
     /\ sent (w_ssl (fst st)) = (sent s ++ answers)%list)
  /\ (forall s, arriving (incoming s) = answers -> no_failure s ->
     exists k, login (mk_client (mk_cin (i +:+ " " +:+ pw +:+ " " +:+ input +:+ tail) false) s) = (Ok outcome, k)
     /\ sent (k_ssl k) = (sent s ++ requests)%list).

Lemma agree_one : match acc with Some a => ok && use_otp a | None => false end = false -> agree (login_outcome acc pw b).
Proof.
  intros Eone. destruct (request_text _ (step1_request_wf i pw Hi Hp) Hs1) as (t1 & D1 & L1 & C1).
  destruct (step1_answer ok acc) as (a1 & DA1 & PA1 & LA1). exists (message t1), (message a1). split.
  - intros s Ha Hf. apply (serve_texts HMAC char_signed envs w c [step1_request i pw] [t1] s (message a1));
      [constructor; [exact C1|constructor]|cbn [map concat]; by rewrite app_nil_r|].
    destruct Hi as [Hi0 _], Hp as [Hp0 _]. by apply (server_one HMAC char_signed envs w c i pw s Hh Hw Hi0 Hp0 Hf a1 DA1 LA1).
  - intros s Ha Hf. rewrite <- (app_nil_r (message a1)) in Ha.
    destruct (exchange_eq _ t1 _ a1 (mk_cin (" " +:+ input +:+ tail) false) s [] D1 L1 PA1 LA1 Hf Ha) as (s1 & E1 & S1 & _).
    exists (mk_client (mk_cin (" " +:+ input +:+ tail) false) s1). split; [|done].
    rewrite (login_step1_eq i pw (" " +:+ input +:+ tail) s s1 ok acc Hi Hp eq_refl ltac:(unfold ok; by intros ->) E1).
    unfold login_outcome, ok in *. destruct acc as [a|]; [|done]. destruct (verify_password (passwd a) pw); [|done]. cbn in Eone. by rewrite Eone.
Qed.

Lemma agree_two a t : acc = Some a -> verify_password (passwd a) pw = true -> use_otp a = true -> otp_secret a <> "" ->
  TOTP_named algos (otp_secret a) "SHA1" 6 30 = Ok t ->
  verify_int (label_totp i t) (u64 (dec_value 0 input)) (env_time (envs 1%nat)) 0 = Ok b -> agree (login_outcome acc pw b).
Proof.
  intros Eacc Hok Huse Hsec Et Hv. destruct (request_text _ (step1_request_wf i pw Hi Hp) Hs1) as (t1 & D1 & L1 & C1).
  destruct (request_text _ (step2_request_wf i input Hi Hn) Hs2) as (t2 & D2 & L2 & C2).
  destruct (step1_answer true acc) as (a1 & DA1 & PA1 & LA1). destruct (step2_answer b) as (a2 & DA2 & PA2 & LA2).
  exists (message t1 ++ message t2)%list, (message a1 ++ message a2)%list. split.
  - intros s Ha Hf.
    apply (serve_texts HMAC char_signed envs w c [step1_request i pw; step2_request i input] [t1; t2] s (message a1 ++ message a2)%list);
      [constructor; [exact C1|constructor; [exact C2|constructor]]|cbn [map concat]; by rewrite app_nil_r|].
    destruct Hi as [Hi0 _], Hp as [Hp0 _]. by apply (server_two HMAC char_signed envs w c i pw input a t b s Hh Hw Hi0 Hp0 Hf H6 Eacc Hok Hsec Et Hv).
  - intros s Ha Hf. destruct (exchange_eq _ t1 _ a1 (mk_cin (" " +:+ input +:+ tail) false) s _ D1 L1 PA1 LA1 Hf Ha) as (s1 & E1 & S1 & A1 & F1).
    rewrite <- (app_nil_r (message a2)) in A1.
    destruct (exchange_eq _ t2 _ a2 (mk_cin tail false) s1 [] D2 L2 PA2 LA2 F1 A1) as (s2 & E2 & S2 & _).
    exists (mk_client (mk_cin tail false) s2). split; [|cbn [k_ssl]; by rewrite S2, S1, <- app_assoc].
    rewrite (login_step1_eq i pw (" " +:+ input +:+ tail) s s1 true acc Hi Hp eq_refl ltac:(by rewrite Eacc) E1).
    unfold login_outcome. rewrite Eacc, Hok, Huse. by apply login_step2_eq.
Qed.
End sides.

(** C5: a login with the test client works: for a working database with any accounts, and whatever words
    the user types, in requests of less than 2^31 bytes, there are bytes [requests] and [answers] such that
    the server, reading the requests in any pieces, sends the answers, and the client, reading the answers
    in any pieces, sends the requests, and reports what the account says: the first step is refused exactly
    when there is no such account or the password is wrong, an account without a second step is logged in,
    and otherwise the one-time password decides. *)
Theorem login_end_to_end {D} `{SL : SqliteLaws D} {PW : Pwhash} (HMAC : string -> list Z -> list Z -> option (list Z)) (char_signed : bool)
    (envs : nat -> env) (w : world D) (c : conn) (i pw input tail : string) (b : bool) :
  let algos := otp_algorithm_map HMAC in
  let acc := List.find (fun a => String.eqb (id a) i) (t_accounts (DbSpec.view (w_db w))) in
  healthy (w_db w) -> tables_wf (DbSpec.view (w_db w)) ->
  word i -> word pw -> word input -> six_digits input = true ->
  ended tail = true ->
  small (step1_request i pw) -> small (step2_request i input) ->
  (forall a, acc = Some a -> use_otp a = true -> otp_secret a <> "" /\ exists t, TOTP_named algos (otp_secret a) "SHA1" 6 30 = Ok t
     /\ verify_int (label_totp i t) (u64 (dec_value 0 input)) (env_time (envs 1%nat)) 0 = Ok b) ->
  exists requests answers,
    (forall s, arriving (incoming s) = requests -> no_failure s ->
       exists st, client_loop algos char_signed (S (length (arriving (incoming s)))) envs (mk_world (w_db w) (w_otp w) s (w_camera w), c) = (Closed, st)
       /\ sent (w_ssl (fst st)) = (sent s ++ answers)%list)
    /\ (forall s, arriving (incoming s) = answers -> no_failure s ->
       exists k, login (mk_client (mk_cin (i +:+ " " +:+ pw +:+ " " +:+ input +:+ tail) false) s) = (Ok (login_outcome acc pw b), k)
       /\ sent (k_ssl k) = (sent s ++ requests)%list).
Proof.
  intros algos acc Hh Hw Hi Hp Hn H6 Ht Hs1 Hs2 Hotp.
  destruct (match acc with Some a => verify_password (passwd a) pw && use_otp a | None => false end) eqn:Etwo.
  - destruct acc as [a|] eqn:Eacc; [|done]. apply andb_true_iff in Etwo as [Hok Huse]. destruct (Hotp a eq_refl Huse) as (Hsec & t & Et & Hv).
    rewrite <- Eacc. by apply (agree_two HMAC char_signed envs w c i pw input tail b Hh Hw Hi Hp Hn H6 Ht Hs1 Hs2 a t).
  - apply (agree_one HMAC char_signed envs w c i pw input tail b Hh Hw Hi Hp Hs1). fold acc. by destruct acc.
Qed.

Lemma small_check j n : (String.length <$> dump_string j) = Ok n -> Z.of_nat n < 2 ^ 31 -> small j.
Proof. intros E Hn text Ht. rewrite Ht in E. cbn in E. injection E as ->. done. Qed.

#[local] Instance toy_pwhash : Pwhash := {
  crypto_pwhash_str _ p := Some (String "#" p);
  crypto_pwhash_str_verify h p := if String.eqb h (String "#" p) then 0 else -1 }.

(** A keyed hash for which every code is 000000. *)
Definition zero_hmac : string -> list Z -> list Z -> option (list Z) := fun _ _ _ => Some (replicate 20 0).

Definition quiet_env : env := mk_env 0 (fun _ => 0) (fun _ => 0) (fun _ => 0) "".

Lemma login_end_to_end_witness :
  exists requests answers,
    (forall s, arriving (incoming s) = requests -> no_failure s ->
       exists st, client_loop (otp_algorithm_map zero_hmac) false (S (length (arriving (incoming s)))) (fun _ => quiet_env)
         (mk_world kim_db empty_manager s [], new_conn false []) = (Closed, st)
       /\ sent (w_ssl (fst st)) = (sent s ++ answers)%list)
    /\ (forall s, arriving (incoming s) = answers -> no_failure s ->
       exists k, login (mk_client (mk_cin "kim pw 000000" false) s) = (Ok (login_complete (step2_message true)), k)
       /\ sent (k_ssl k) = (sent s ++ requests)%list).
Proof.
  assert (E : login_outcome (List.find (fun a => String.eqb (id a) "kim") (t_accounts (DbSpec.view (SqliteLaws := Memory.laws) (w_db kim_world)))) "pw" true
    = login_complete (step2_message true)) by (vm_compute; reflexivity).
  rewrite <- E. change "kim pw 000000" with ("kim" +:+ " " +:+ "pw" +:+ " " +:+ "000000" +:+ "").
  apply (login_end_to_end (SL := Memory.laws) zero_hmac false (fun _ => quiet_env) kim_world (new_conn false []) "kim" "pw" "000000" "" true).
  - exact kim_healthy.
  - apply kim_wf.
  - repeat split; discriminate.
  - repeat split; discriminate.
  - repeat split; discriminate.
  - reflexivity.
  - reflexivity.
  - apply (small_check _ 50); [vm_compute; reflexivity|done].
  - apply (small_check _ 54); [vm_compute; reflexivity|done].
  - intros a [= <-] _. split; [discriminate|]. eexists. split; [reflexivity|]. vm_compute. reflexivity.
Defined.
