(* ===== verification/ControlSpec.v ===== *)
(** * The monitor: alerts, tracking and captures

    Which alerts an event raises, what the monitor remembers of the vehicles, what is stored of a
    captured picture, and how the monitor ends. *)

From S2P Require Import Prelude Str Regex BoardControl Decimal Json Numbers Config Calendar Hash Db Sql DbSpec Control.
From Stdlib Require Import Ascii SpecFloat.
From Stdlib Require String.

Local Open Scope string_scope.
Local Open Scope Z_scope.

(** ** The order of floats *)

Lemma SFcompare_le_lt a b c : SFleb a b = true -> SFltb b c = true -> SFltb a c = true.
Proof.
  unfold SFleb, SFltb, SFcompare. change (Pos.compare_cont Eq) with Pos.compare.
  destruct a as [sa|sa| |sa ma ea], b as [sb|sb| |sb mb eb], c as [sc|sc| |sc mc ec];
    try destruct sa; try destruct sb; try destruct sc; try done;
    destruct (Z.compare_spec ea eb), (Z.compare_spec eb ec), (Z.compare_spec ea ec); subst; try done; try lia;
    destruct (Pos.compare_spec ma mb), (Pos.compare_spec mb mc), (Pos.compare_spec ma mc); subst; cbn; try done; intros; lia.
Qed.

Lemma SFltb_le a b : SFltb a b = true -> SFleb a b = true.
Proof. unfold SFltb, SFleb. by destruct (SFcompare a b) as [[]|]. Qed.

Lemma SFltb_irrefl a : SFltb a a = false.
Proof.
  unfold SFltb, SFcompare. destruct a as [[]|[]| |s m e]; try done. rewrite Z.compare_refl, Pos.compare_cont_refl. by destruct s.
Qed.

(** Two numbers below a third are comparable. *)
Lemma SFleb_total a b c d : SFltb a c = true -> SFltb b d = true -> SFleb a b = false -> SFltb b a = true.
Proof.
  unfold SFltb, SFleb, SFcompare. change (Pos.compare_cont Eq) with Pos.compare.
  destruct a as [[]|[]| |[] ma ea], b as [[]|[]| |[] mb eb]; try done; intros Ha Hb;
    rewrite (Z.compare_antisym ea eb), (Pos.compare_antisym ma mb); destruct (ea ?= eb); try done; by destruct (ma ?= mb)%positive.
Qed.

(** ** The closest display *)

(** Both ends of every pair, each with the board at the other end. *)
Definition ends (pairs : list (Z * Point * Z * Point)) : list (Point * Z) :=
  concat (map (fun '(id1, p1, id2, p2) => [(p1, id2); (p2, id1)]) pairs).

(** [p] is the end closest to a position, the first one of several, and [b] the board opposite to it. *)
Definition nearest (pos : Point) (es : list (Point * Z)) (p : Point) (b : Z) : Prop :=
  exists before after, es = (before ++ (p, b) :: after)%list
  /\ Forall (fun e => SFleb (dist_sq pos e.1) (dist_sq pos p) = false) before
  /\ Forall (fun e => SFltb (dist_sq pos e.1) (dist_sq pos p) = false) after
  /\ SFltb (dist_sq pos p) FLT_MAX = true.

Definition step_end (pos : Point) (best : option Point * Z * spec_float) (e : Point * Z) : option Point * Z * spec_float :=
  if SFltb (dist_sq pos e.1) best.2 then (Some e.1, e.2, dist_sq pos e.1) else best.

Lemma closest_dot_fold pos pairs best : closest_dot pos pairs best = foldl (step_end pos) best (ends pairs).
Proof.
  revert best. induction pairs as [|[[[id1 p1] id2] p2] pairs IH]; intros best; [done|].
  unfold ends. cbn [map concat closest_dot]. cbn [app foldl]. by rewrite IH.
Qed.

Lemma closest_fold pos es :
  match foldl (step_end pos) (None, -1, FLT_MAX) es with
  | (Some p, b, d) => d = dist_sq pos p /\ nearest pos es p b
  | (None, b, d) => b = -1 /\ d = FLT_MAX /\ Forall (fun e => SFltb (dist_sq pos e.1) FLT_MAX = false) es
  end.
Proof.
  induction es as [|[q c] es IH] using rev_ind; [done|]. rewrite foldl_app. cbn [foldl].
  destruct (foldl (step_end pos) (None, -1, FLT_MAX) es) as [[[p|] b] d]; unfold step_end; cbn [fst snd].
  - destruct IH as [-> (before & after & -> & Hb & Ha & Hp)]. destruct (SFltb (dist_sq pos q) (dist_sq pos p)) eqn:E.
    + assert (Hn : forall x, SFltb x (dist_sq pos p) = false -> SFleb x (dist_sq pos q) = false).
      { intros x Hx. destruct (SFleb x (dist_sq pos q)) eqn:El; [|done]. by rewrite (SFcompare_le_lt _ _ _ El E) in Hx. }
      split; [done|]. exists (before ++ (p, b) :: after)%list, []. split_and!; [done| |done|].
      * apply Forall_app. split; [|constructor; [apply Hn, SFltb_irrefl|]].
        -- eapply Forall_impl; [exact Hb|]. intros e He. cbv beta in He. apply Hn. destruct (SFltb (dist_sq pos e.1) (dist_sq pos p)) eqn:El; [|done]. by rewrite (SFltb_le _ _ El) in He.
        -- eapply Forall_impl; [exact Ha|]. intros e He. by apply Hn.
      * eapply SFcompare_le_lt, Hp. by apply SFltb_le.
    + split; [done|]. exists before, (after ++ [(q, c)])%list. rewrite <- app_assoc. split_and!; [done..| |done].
      apply Forall_app. by split; [|constructor].
  - destruct IH as (-> & -> & Hn). destruct (SFltb (dist_sq pos q) FLT_MAX) eqn:E.
    + split; [done|]. exists es, []. split_and!; [done| |done|done]. eapply Forall_impl; [exact Hn|]. intros e He. cbv beta in He.
      destruct (SFleb (dist_sq pos e.1) (dist_sq pos q)) eqn:El; [|done]. by rewrite (SFcompare_le_lt _ _ _ El E) in He.
    + split_and!; [done..|]. apply Forall_app. by split; [|constructor].
Qed.

(** ** Alerts *)

(** The vehicle came closer to the center by at least the threshold. *)
Definition approached (cfg : AppConfig) (g : globals) (oldest newest : Point) : bool :=
  negb (SFltb (fsub (distance oldest (dot_center g)) (dist_threshold cfg)) (distance newest (dot_center g))).

(** The way from a display to the center is parallel enough to a line. *)
Definition vector (a b : Point) : Point := mk_Point (fsub (px b) (px a)) (fsub (py b) (py a)).
Definition parallel (cfg : AppConfig) (g : globals) (l : Line) (display : Point) : bool :=
  SFleb (parallelism_threshold cfg)
    (SFabs (compute_cosine_similarity (vector display (dot_center g)) (vector (line_start l) (line_end l)))).

(** A vehicle for which board [b] is to be switched on. *)
Definition endangers (cfg : AppConfig) (g : globals) (l : Line) (history : list Point) (b : Z) : Prop :=
  exists oldest others newest p, history = oldest :: others /\ last others = Some newest
  /\ nearest oldest (ends (base_line_pairs g)) p b
  /\ approached cfg g oldest newest = true /\ parallel cfg g l p = true.

(** Some display is within range of the oldest position of every vehicle that is looked at. *)
Definition displays_in_range (g : globals) : Prop :=
  forall v oldest q others, vehicle_trajectory_history g !! v = Some (oldest :: q :: others) ->
  exists e, e ∈ ends (base_line_pairs g) /\ SFltb (dist_sq oldest e.1) FLT_MAX = true.

Lemma nearest_unique pos es p b p' b' : nearest pos es p b -> nearest pos es p' b' -> p = p' /\ b = b'.
Proof.
  intros (l1 & l2 & -> & H1 & H2 & Hp) (l1' & l2' & E & H1' & H2' & Hp').
  assert (Hx : forall x y, SFleb (dist_sq pos x) (dist_sq pos y) = false -> SFltb (dist_sq pos y) (dist_sq pos x) = false ->
    SFltb (dist_sq pos x) FLT_MAX = true -> SFltb (dist_sq pos y) FLT_MAX = true -> False).
  { intros x y Hle Hlt Hx Hy. by rewrite (SFleb_total _ _ _ _ Hx Hy Hle) in Hlt. }
  apply app_eq_app in E as [l [[E1 E2]|[E1 E2]]]; destruct l as [|e l]; cbn in E2.
  - by injection E2 as -> -> _.
  - injection E2 as <- E2. subst. rewrite Forall_app, Forall_cons in H1. rewrite Forall_app, Forall_cons in H2'. destruct H1 as (_ & H1 & _), H2' as (_ & H2' & _).
    exfalso. by apply (Hx p' p).
  - by injection E2 as -> -> _.
  - injection E2 as <- E2. subst. rewrite Forall_app, Forall_cons in H1'. rewrite Forall_app, Forall_cons in H2. destruct H1' as (_ & H1' & _), H2 as (_ & H2 & _).
    exfalso. by apply (Hx p p').
Qed.

Lemma assess_vehicle_spec cfg g l history :
  match assess_vehicle cfg g (vector (line_start l) (line_end l)) history with
  | Ok r => forall b, r = Some b <-> endangers cfg g l history b
  | Throw _ => exists oldest q others, history = oldest :: q :: others
      /\ Forall (fun e => SFltb (dist_sq oldest e.1) FLT_MAX = false) (ends (base_line_pairs g))
  end.
Proof.
  destruct history as [|oldest [|q others]]; cbn [assess_vehicle last].
  - split; [done|]. intros (? & ? & ? & ? & ? & _). done.
  - split; [done|]. by intros (? & ? & ? & ? & [= <- <-] & ? & _).
  - destruct (last (q :: others)) as [newest|] eqn:El; [|by apply last_None in El].
    rewrite closest_dot_fold. pose proof (closest_fold oldest (ends (base_line_pairs g))) as Hc.
    destruct (foldl _ _ _) as [[[p|] c] d]; [|destruct Hc as (-> & -> & Hc); eauto 6].
    destruct Hc as [_ Hc]. fold (vector p (dot_center g)).
    assert (Hb : forall b, endangers cfg g l (oldest :: q :: others) b
      <-> b = c /\ approached cfg g oldest newest = true /\ parallel cfg g l p = true).
    { intros b. split.
      - intros (o & os & n & p' & [= <- <-] & Ho & Hn & Ha & Hp). rewrite El in Ho. injection Ho as <-.
        by destruct (nearest_unique _ _ _ _ _ _ Hc Hn) as [-> ->].
      - intros (-> & Ha & Hp). by exists oldest, (q :: others), newest, p. }
    unfold approached, parallel in Hb. destruct (SFltb _ (distance newest _)); cbn [negb] in Hb.
    + intros b. rewrite Hb. split; [done|]. by intros (_ & ? & _).
    + destruct (SFleb _ _); intros b; rewrite Hb; [|split; [done|]; by intros (_ & _ & ?)]. split; [intros [= <-]|intros [-> _]]; done.
Qed.

Lemma assess_all_spec cfg g l vs :
  (forall v h, (v, h) ∈ vs -> exists r, assess_vehicle cfg g (vector (line_start l) (line_end l)) h = Ok r) ->
  exists started, assess_all cfg g (vector (line_start l) (line_end l)) vs = Ok started
  /\ (forall v b, (v, b) ∈ started <-> exists h, (v, h) ∈ vs /\ endangers cfg g l h b)
  /\ sublist (map fst started) (map fst vs).
Proof.
  induction vs as [|[v h] vs IH]; intros Hr.
  - exists []. split_and!; [done| |done]. split; [by intros []%not_elem_of_nil|]. by intros (? & []%not_elem_of_nil & _).
  - destruct (Hr v h) as [r Er]; [by left|]. destruct IH as (started & Es & Hs & Hl).
    { intros v' h' Hin. apply (Hr v' h'), elem_of_cons. by right. }
    cbn [assess_all]. rewrite Er, Es. cbn [mbind res_bind]. pose proof (assess_vehicle_spec cfg g l h) as Hv. rewrite Er in Hv.
    eexists. split; [done|]. destruct r as [b|]; cbn [map fst].
    + split; [|by apply sublist_skip]. intros v' b'. rewrite elem_of_cons, Hs. setoid_rewrite elem_of_cons. split.
      * intros [[= -> ->]|(h' & Hin & He)]; [exists h; split; [by left|by apply Hv]|exists h'; auto].
      * intros (h' & [[= -> ->]|Hin] & He); [left; apply Hv in He; by injection He as <-|right; eauto].
    + split; [|by apply sublist_cons]. intros v' b'. rewrite Hs. setoid_rewrite elem_of_cons. split.
      * intros (h' & Hin & He). eauto.
      * intros (h' & [[= -> ->]|Hin] & He); [by apply Hv in He|eauto].
Qed.

Lemma in_range_assessed cfg g l v h : displays_in_range g -> vehicle_trajectory_history g !! v = Some h ->
  exists r, assess_vehicle cfg g (vector (line_start l) (line_end l)) h = Ok r.
Proof.
  intros Hd Hv. pose proof (assess_vehicle_spec cfg g l h) as Ha. destruct (assess_vehicle _ _ _ h) as [r|e]; [eauto|].
  destruct Ha as (oldest & q & others & -> & Hf). destruct (Hd v oldest q others Hv) as (e' & He & Hlt).
  rewrite Forall_forall in Hf. by rewrite (Hf e' He) in Hlt.
Qed.

Lemma analyze_spec cfg g rule l : rule_lines g !! rule = Some l -> displays_in_range g ->
  exists started, analyze_risk_and_alert cfg g rule = Ok started
  /\ NoDup (map fst started)
  /\ forall v b, (v, b) ∈ started <-> exists h, vehicle_trajectory_history g !! v = Some h /\ endangers cfg g l h b.
Proof.
  intros Hl Hd. unfold analyze_risk_and_alert. rewrite Hl. fold (vector (line_start l) (line_end l)).
  destruct (assess_all_spec cfg g l (map_to_list (vehicle_trajectory_history g))) as (started & Es & Hs & Hsub).
  { intros v h Hin. apply elem_of_map_to_list in Hin. by eapply in_range_assessed. }
  exists started. split_and!; [done|eapply sublist_NoDup, Hsub; apply NoDup_fst_map_to_list|].
  intros v b. rewrite Hs. by setoid_rewrite elem_of_map_to_list.
Qed.

(** C1: a crossing of a known line starts exactly one alert for every vehicle with at least two
    positions that came closer to the center by the threshold and whose display is in line with the
    crossed line, and no other; the board is the one opposite to the display closest to the vehicle's
    oldest position.  A line that is not known starts none. *)
Theorem alerts_exact (cfg : AppConfig) (g : globals) (rule : string) : displays_in_range g ->
  exists started, analyze_risk_and_alert cfg g rule = Ok started /\ NoDup (map fst started)
  /\ forall v b, (v, b) ∈ started <->
       exists l h, rule_lines g !! rule = Some l /\ vehicle_trajectory_history g !! v = Some h /\ endangers cfg g l h b.
Proof.
  intros Hd. destruct (rule_lines g !! rule) as [l|] eqn:Hl.
  - destruct (analyze_spec cfg g rule l Hl Hd) as (started & Es & Hn & Hs). exists started. split_and!; [done..|].
    intros v b. rewrite Hs. naive_solver.
  - exists []. unfold analyze_risk_and_alert. rewrite Hl. split_and!; [done|constructor|].
    intros v b. split; [by intros []%not_elem_of_nil|naive_solver].
Qed.

(** A crossing with two pairs of displays, a line along the first pair and an approaching vehicle. *)
Definition point (x y : Z) : Point := mk_Point (float_of_int x) (float_of_int y).
Definition street_config : AppConfig :=
  put_cache 15 10 (put_detection (float_of_int 10) (S754_finite false 12582912 (-24)) empty_config).
Definition gate : Line := mk_Line (point 100 100) (point 900 100) "Both" "gate".
Definition street (l : Line) : globals :=
  mk_globals [(1, point 0 0, 2, point 1000 0); (3, point 500 (-500), 4, point 500 500)] (point 500 0)
    {["gate" := l]} {[7 := [point 10 0; point 200 3; point 300 0]]}.

Lemma street_in_range l : displays_in_range (street l).
Proof.
  intros v oldest q others Hv. cbn [street vehicle_trajectory_history] in Hv. apply lookup_singleton_Some in Hv as [<- [= <- <- <-]].
  exists (point 0 0, 2). split; [|by vm_compute]. cbn. by left.
Qed.

Lemma alerts_exact_witness :
  analyze_risk_and_alert street_config (street gate) "gate" = Ok [(7, 2)]
  /\ exists l h, rule_lines (street gate) !! "gate" = Some l /\ vehicle_trajectory_history (street gate) !! 7 = Some h
     /\ endangers street_config (street gate) l h 2.
Proof.
  destruct (alerts_exact street_config (street gate) "gate" (street_in_range gate)) as (started & Es & _ & Hs).
  assert (E : analyze_risk_and_alert street_config (street gate) "gate" = Ok [(7, 2)]) by (vm_compute; reflexivity).
  split; [exact E|]. rewrite E in Es. injection Es as <-. apply (Hs 7 2). by left.
Defined.

(** *** A line without length *)

Definition is_finite (f : spec_float) : bool :=
  match f with S754_zero _ | S754_finite _ _ _ => true | _ => false end.

Lemma fsub_self f : is_finite f = true -> fsub f f = S754_zero false.
Proof.
  destruct f as [[]|[]| |s m e]; try done. intros _. unfold fsub, SFsub. by rewrite Z.sub_diag.
Qed.

Lemma cosine_zero a p : is_finite (px p) = true -> is_finite (py p) = true ->
  compute_cosine_similarity a (vector p p) = minus_two.
Proof.
  intros Hx Hy. unfold compute_cosine_similarity, vector. cbn [px py]. rewrite !fsub_self by done.
  change (SFeqb (fsqrt _) zero_float) with true at 2. by rewrite orb_true_r.
Qed.

(** A line whose ends coincide has no direction, the similarity is then the impossible value -2,
    and its absolute value passes the threshold: every vehicle that came closer raises an alert,
    wherever it comes from. *)
Theorem degenerate_line_alerts (cfg : AppConfig) (g : globals) (rule : string) (l : Line) :
  rule_lines g !! rule = Some l -> line_start l = line_end l ->
  is_finite (px (line_start l)) = true -> is_finite (py (line_start l)) = true ->
  SFleb (parallelism_threshold cfg) (float_of_int 2) = true -> displays_in_range g ->
  exists started, analyze_risk_and_alert cfg g rule = Ok started
  /\ forall v oldest others newest, vehicle_trajectory_history g !! v = Some (oldest :: others) -> last others = Some newest ->
       (approached cfg g oldest newest = true <-> exists b, (v, b) ∈ started).
Proof.
  intros Hl He Hx Hy Ht Hd. destruct (analyze_spec cfg g rule l Hl Hd) as (started & Es & _ & Hs). exists started. split; [done|].
  assert (Hp : forall p, parallel cfg g l p = true).
  { intros p. unfold parallel. rewrite <- He, cosine_zero by done. exact Ht. }
  intros v oldest others newest Hv Hn. split.
  - intros Ha. destruct others as [|q others]; [done|]. destruct (Hd v oldest q others Hv) as (e & Hin & Hlt).
    pose proof (closest_fold oldest (ends (base_line_pairs g))) as Hc.
    destruct (foldl _ _ _) as [[[p|] b] d]; [|destruct Hc as (_ & _ & Hf); rewrite Forall_forall in Hf; by rewrite (Hf e Hin) in Hlt].
    exists b. apply Hs. exists (oldest :: q :: others). split; [done|]. destruct Hc as [_ Hc]. by exists oldest, (q :: others), newest, p.
  - intros [b Hb]. apply Hs in Hb as (h & Eh & o & os & n & p & -> & Ho & _ & Ha & _). rewrite Hv in Eh. injection Eh as <- <-. by simplify_eq.
Qed.

Definition spot : Line := mk_Line (point 100 100) (point 100 100) "Both" "gate".

Lemma degenerate_line_alerts_witness :
  exists started, analyze_risk_and_alert street_config (street spot) "gate" = Ok started /\ exists b, (7, b) ∈ started.
Proof.
  destruct (degenerate_line_alerts street_config (street spot) "gate" spot) as (started & Es & Hs);
    [by vm_compute|done|by vm_compute|by vm_compute|by vm_compute|apply street_in_range|].
  exists started. split; [exact Es|]. apply (Hs 7 (point 10 0) [point 200 3; point 300 0] (point 300 0)); by vm_compute.
Defined.

(** ** Tracking *)

(** The vehicles of a frame with their positions, in the order of the text. *)
Fixpoint objects_of (ms : list caps) : res (list (Z * Point)) :=
  match ms with
  | [] => Ok []
  | m :: ms =>
      id ← stoi (group m 1);
      cog ← vehicle_at (group m 2);
      rest ← objects_of ms;
      Ok (match cog with Some p => (id, p) :: rest | None => rest end)
  end.
Definition frame_vehicles (block : string) : res (list (Z * Point)) := objects_of (regex_iterator object_block_regex block).

Definition positions (vs : list (Z * Point)) (v : Z) : list Point := map snd (List.filter (fun o => o.1 =? v) vs).

Definition lastn {A} (n : nat) (l : list A) : list A := drop (length l - n) l.

Definition push_vehicle (n : Z) (m : gmap Z (list Point)) (o : Z * Point) : gmap Z (list Point) :=
  <[o.1 := push_position n (default [] (m !! o.1)) o.2]> m.

Lemma track_objects_spec cfg ms : forall seen g,
  match objects_of ms with
  | Ok vs => track_objects cfg ms seen g
      = (Ok (list_to_set (map fst vs) ∪ seen), set_vehicles (foldl (push_vehicle (history_size cfg)) (vehicle_trajectory_history g) vs) g)
  | Throw e => fst (track_objects cfg ms seen g) = Throw e
  end.
Proof.
  induction ms as [|m ms IH]; intros seen g; cbn [objects_of track_objects].
  - unfold mret, M_ret. f_equal; [f_equal; set_solver|by destruct g].
  - unfold mbind, M_bind, res_bind, liftR. destruct (stoi (group m 1)) as [id|]; [|done].
    destruct (vehicle_at (group m 2)) as [[cog|]|]; [| |done].
    + unfold modS. specialize (IH ({[id]} ∪ seen) (set_vehicles (push_vehicle (history_size cfg) (vehicle_trajectory_history g) (id, cog)) g)).
      destruct (objects_of ms) as [vs|e]; [|exact IH]. etransitivity; [exact IH|]. cbn [map fst foldl]. f_equal.
      f_equal. cbn [list_to_set]. set_solver.
    + specialize (IH seen g). by destruct (objects_of ms).
Qed.

Lemma push_position_lastn (n : nat) h p : (1 <= n)%nat -> Z.of_nat n < 2 ^ 31 -> (length h <= n)%nat ->
  push_position (Z.of_nat n) h p = lastn n (h ++ [p]).
Proof.
  intros Hn Hb Hl. unfold push_position, lastn. rewrite length_app. cbn [length]. rewrite u64_id by lia.
  destruct (Z.ltb_spec (Z.of_nat n) (Z.of_nat (length h + 1))).
  - replace (length h + 1 - n)%nat with 1%nat by lia. by destruct h.
  - by replace (length h + 1 - n)%nat with 0%nat by lia.
Qed.

Lemma lastn_app_lastn {A} n (l k : list A) : lastn n (lastn n l ++ k) = lastn n (l ++ k).
Proof.
  unfold lastn. rewrite !length_app, length_drop. destruct (Nat.le_gt_cases (length l) n).
  - replace (length l - n)%nat with 0%nat by lia. cbn [drop]. do 2 f_equal. lia.
  - rewrite <- (drop_app_le l k (length l - n)) by lia. rewrite drop_drop. f_equal. lia.
Qed.

Lemma lastn_length {A} n (l : list A) : (length (lastn n l) = Nat.min n (length l))%nat.
Proof. unfold lastn. rewrite length_drop. lia. Qed.

Lemma push_vehicles_lookup (n : nat) vs : (1 <= n)%nat -> Z.of_nat n < 2 ^ 31 -> forall m v,
  (forall v h, m !! v = Some h -> (length h <= n)%nat) ->
  foldl (push_vehicle (Z.of_nat n)) m vs !! v
  = match positions vs v with [] => m !! v | ps => Some (lastn n (default [] (m !! v) ++ ps)) end.
Proof.
  intros Hn Hb. induction vs as [|[id p] vs IH]; intros m v Hm; [done|]. cbn [foldl]. rewrite IH.
  2:{ intros v' h. unfold push_vehicle. cbn [fst snd]. destruct (decide (id = v')) as [<-|Hne].
      - rewrite lookup_insert_eq. intros [= <-]. rewrite push_position_lastn by (done || (destruct (m !! id) eqn:E; cbn; [by eapply Hm|lia])).
        rewrite lastn_length. lia.
      - rewrite lookup_insert_ne by done. apply Hm. }
  unfold push_vehicle, positions. cbn [fst snd List.filter]. destruct (Z.eqb_spec id v) as [<-|Hne]; cbn [map snd].
  - rewrite lookup_insert_eq, push_position_lastn by (done || (destruct (m !! id) eqn:E; cbn; [by eapply Hm|lia])).
    cbn [default from_option Datatypes.id]. destruct (map snd _) as [|q ps]; [done|]. by rewrite lastn_app_lastn, <- app_assoc.
  - by rewrite lookup_insert_ne by done.
Qed.

Lemma positions_nil vs v : positions vs v = [] <-> v ∉ map fst vs.
Proof.
  unfold positions. induction vs as [|[i p] vs IH]; cbn [List.filter map fst]; [split; [intros _ []%not_elem_of_nil|done]|].
  rewrite not_elem_of_cons. destruct (Z.eqb_spec i v) as [->|Hne]; cbn [map]; [naive_solver|]. rewrite IH. naive_solver.
Qed.

(** What becomes of the history of a vehicle with a frame. *)
Definition next_history (n : nat) (vs : list (Z * Point)) (cache : list string) (v : Z) (old : option (list Point)) : option (list Point) :=
  match positions vs v with
  | [] => if found_in_cache cache v then old else None
  | ps => Some (lastn n (default [] old ++ ps))
  end.

Definition short_histories (n : nat) (m : gmap Z (list Point)) : Prop := forall v h, m !! v = Some h -> (length h <= n)%nat.

Lemma update_vehicles_spec cfg (n : nat) block cache g : history_size cfg = Z.of_nat n -> (1 <= n)%nat -> Z.of_nat n < 2 ^ 31 ->
  short_histories n (vehicle_trajectory_history g) ->
  match frame_vehicles block with
  | Ok vs => exists m, update_vehicle_positions cfg block cache g = (Ok tt, set_vehicles m g)
      /\ forall v, m !! v = next_history n vs cache v (vehicle_trajectory_history g !! v)
  | Throw e => fst (update_vehicle_positions cfg block cache g) = Throw e
  end.
Proof.
  intros Hc Hn Hb Hs. unfold update_vehicle_positions, frame_vehicles, mbind, M_bind.
  pose proof (track_objects_spec cfg (regex_iterator object_block_regex block) ∅ g) as Ht.
  destruct (objects_of _) as [vs|e]; [|by destruct (track_objects _ _ _ _) as [r g1]; cbn in Ht; subst].
  rewrite Ht. unfold modS. eexists. split; [reflexivity|]. intros v. cbn [set_vehicles vehicle_trajectory_history].
  rewrite map_lookup_filter, Hc, push_vehicles_lookup by done. unfold next_history.
  destruct (positions vs v) as [|p ps] eqn:Ep.
  - apply positions_nil in Ep. destruct (vehicle_trajectory_history g !! v) as [h|] eqn:Eh; cbn; [|by destruct (found_in_cache cache v)].
    destruct (found_in_cache cache v) eqn:Ef.
    + rewrite option_guard_True by (by right). done.
    + rewrite option_guard_False; [done|]. intros [Hin|?]; [|done]. rewrite elem_of_union, elem_of_list_to_set in Hin. set_solver.
  - cbn. rewrite option_guard_True; [done|]. left. rewrite elem_of_union, elem_of_list_to_set. left.
    destruct (decide (v ∈ map fst vs)) as [|Hni]; [done|]. apply positions_nil in Hni. by rewrite Hni in Ep.
Qed.

(** C17: a frame updates exactly the vehicles: one that is in the frame gets its new positions behind
    the old ones, at most [history_size] of them; one that is not keeps its history while a cached
    frame still names it, and is forgotten otherwise.  Nothing else of the state changes; a frame
    with a number out of range throws. *)
Theorem vehicle_update_exact (cfg : AppConfig) (n : nat) (block : string) (cache : list string) (g : globals) :
  history_size cfg = Z.of_nat n -> (1 <= n)%nat -> Z.of_nat n < 2 ^ 31 -> short_histories n (vehicle_trajectory_history g) ->
  match frame_vehicles block with
  | Ok vs => exists m, update_vehicle_positions cfg block cache g = (Ok tt, set_vehicles m g)
      /\ forall v, m !! v = next_history n vs cache v (vehicle_trajectory_history g !! v)
  | Throw e => fst (update_vehicle_positions cfg block cache g) = Throw e
  end.
Proof. apply update_vehicles_spec. Qed.

(** A frame with one object. *)
Definition object_text (id type x y : string) : string :=
  attr_open "<tt:Object ObjectId" +:+ id +:+ quote +:+ "><tt:Appearance><tt:Shape>" +:+ attr_open "<tt:CenterOfGravity x" +:+ x
  +:+ quote +:+ attr_open " y" +:+ y +:+ quote +:+ "/></tt:Shape><tt:Class><tt:Type>" +:+ type +:+ "</tt:Type></tt:Class></tt:Appearance></tt:Object>".
Definition frame_text (utc objects : string) : string :=
  "<tt:MetadataStream><tt:VideoAnalytics>" +:+ attr_open "<tt:Frame UtcTime" +:+ utc +:+ quote +:+ ">" +:+ objects
  +:+ "</tt:Frame></tt:VideoAnalytics></tt:MetadataStream>".
Definition car_frame : string := frame_text "2025-07-20T05:33:44.123Z" (object_text "9" "Vehicle" "200.0" "3.5").

Lemma vehicle_update_exact_witness :
  exists m, update_vehicle_positions street_config car_frame [car_frame] (street gate) = (Ok tt, set_vehicles m (street gate))
  /\ m !! 7 = None /\ m !! 9 = Some [mk_Point (float_of_int 200) (S754_finite false 14680064 (-22))].
Proof.
  pose proof (vehicle_update_exact street_config 10 car_frame [car_frame] (street gate)) as H.
  assert (E : frame_vehicles car_frame = Ok [(9, mk_Point (float_of_int 200) (S754_finite false 14680064 (-22)))]) by (vm_compute; reflexivity).
  rewrite E in H. destruct H as (m & Em & Hm); [done|lia|lia| |].
  - intros v h Hv. cbn [street vehicle_trajectory_history] in Hv. apply lookup_singleton_Some in Hv as [<- <-]. cbn. lia.
  - exists m. split; [exact Em|]. rewrite !Hm. split; vm_compute; reflexivity.
Defined.

(** *** What the monitor remembers *)

Definition keeps_vehicles {A} (f : M globals A) : Prop :=
  forall g, vehicle_trajectory_history (snd (f g)) = vehicle_trajectory_history g.

Lemma vehicles_bind {A B} (f : M globals A) (k : A -> M globals B) : keeps_vehicles f -> (forall a, keeps_vehicles (k a)) -> keeps_vehicles (mbind k f).
Proof.
  intros Hf Hk g. unfold mbind, M_bind. specialize (Hf g). destruct (f g) as [[a|e] g1]; cbn in *; [|done]. by rewrite Hk.
Qed.

Lemma vehicles_try {A} (f : M globals A) p h : keeps_vehicles f -> (forall e, keeps_vehicles (h e)) -> keeps_vehicles (try_catch f p h).
Proof.
  intros Hf Hh g. unfold try_catch. specialize (Hf g). destruct (f g) as [[a|e] g1]; cbn in *; [done|]. destruct (p e); [|done]. by rewrite Hh.
Qed.

Lemma vehicles_rows rows err f : (forall r, keeps_vehicles (f r)) -> keeps_vehicles (for_rows rows err f).
Proof.
  intros Hf. induction rows as [|r rows IH]; cbn [for_rows]; [by destruct err|]. by apply vehicles_bind.
Qed.

Lemma load_keeps {D} `{Sqlite D} cfg (d : D) : keeps_vehicles (load_dots_and_center cfg d) /\ keeps_vehicles (load_rule_lines cfg d).
Proof.
  split.
  - apply vehicles_bind; [done|]. intros _. apply vehicles_try; [|done]. destruct (sql_query _ _ d) as [rows err].
    apply vehicles_bind; [|done]. apply vehicles_rows. intros r. by apply vehicles_bind.
  - apply vehicles_try; [|done]. destruct (sql_query _ _ d) as [rows err]. apply vehicles_rows. intros r. by apply vehicles_bind.
Qed.

(** A vehicle is there because the newest frame shows it, or because a cached frame still names it. *)
Definition present (cache : list string) (v : Z) : Prop :=
  found_in_cache cache v = true
  \/ exists f vs, last cache = Some f /\ frame_vehicles f = Ok vs /\ v ∈ map fst vs.

Definition tracking_ok (cfg : AppConfig) (n : nat) (m : monitor) : Prop :=
  Z.of_nat (length (frame_cache m)) <= frame_cache_size cfg
  /\ forall v h, vehicle_trajectory_history (m_globals m) !! v = Some h ->
       (1 <= length h <= n)%nat /\ present (frame_cache m) v.

(** One line of the stream, read without an exception. *)
Inductive line_read {D} `{Sqlite D} (cfg : AppConfig) : monitor -> monitor -> Prop :=
| read_line buffer now d m m' : monitor_step cfg buffer now d m = (Ok tt, m') -> line_read cfg m m'.

Definition same_tracking (m m' : monitor) : Prop :=
  frame_cache m' = frame_cache m /\ vehicle_trajectory_history (m_globals m') = vehicle_trajectory_history (m_globals m).

Lemma same_tracking_ok cfg n m m' : same_tracking m m' -> tracking_ok cfg n m -> tracking_ok cfg n m'.
Proof. intros [Hc Hv]. unfold tracking_ok. by rewrite Hc, Hv. Qed.

Lemma on_globals_same {A} (f : M globals A) m : keeps_vehicles f -> same_tracking m (snd (on_globals f m)).
Proof. intros Hf. unfold on_globals. specialize (Hf (m_globals m)). by destruct (f (m_globals m)). Qed.

(** The new cache of [handle_frame]. *)
Definition push_frame (size : Z) (cache : list string) (block : string) : list string :=
  let cache := (cache ++ [block])%list in if size <? Z.of_nat (length cache) then tail cache else cache.

Lemma push_frame_spec size cache block : 1 <= size -> Z.of_nat (length cache) <= size ->
  Z.of_nat (length (push_frame size cache block)) <= size /\ last (push_frame size cache block) = Some block.
Proof.
  intros Hs Hl. unfold push_frame. rewrite length_app. cbn [length]. destruct (Z.ltb_spec size (Z.of_nat (length cache + 1))).
  - destruct cache as [|f cache]; [cbn in *; lia|]. cbn [tail app]. rewrite length_app, last_snoc. cbn [length] in *. split; [lia|done].
  - rewrite length_app, last_snoc. cbn [length]. split; [lia|done].
Qed.

Lemma handle_frame_ok cfg (n : nat) block m m' : history_size cfg = Z.of_nat n -> (1 <= n)%nat -> Z.of_nat n < 2 ^ 31 ->
  1 <= frame_cache_size cfg -> tracking_ok cfg n m -> handle_frame cfg block m = (Ok tt, m') -> tracking_ok cfg n m'.
Proof.
  intros Hh Hn Hb Hs [Hl Hv]. unfold handle_frame. destruct (contains_frame_block block); [|by intros [= <-]].
  unfold mbind, M_bind, getS, modS. fold (push_frame (frame_cache_size cfg) (frame_cache m) block).
  destruct (push_frame_spec _ _ block Hs Hl) as [Hl' Hlast]. set (cache := push_frame _ _ _) in *.
  unfold on_globals. cbn [set_cache m_globals].
  assert (Hsh : short_histories n (vehicle_trajectory_history (m_globals m))) by (intros v h E; by apply Hv in E as [[_ ?] _]).
  pose proof (update_vehicles_spec cfg n block cache (m_globals m) Hh Hn Hb Hsh) as Hu.
  destruct (frame_vehicles block) as [vs|e] eqn:Ef; [|by destruct (update_vehicle_positions _ _ _ _) as [r g1]; cbn in Hu; subst].
  destruct Hu as (m1 & -> & Hm). intros [= <-]. split; [exact Hl'|]. cbn. intros v h. rewrite Hm. unfold next_history.
  destruct (positions vs v) as [|p ps] eqn:Ep.
  - destruct (found_in_cache cache v) eqn:Ec; [|done]. intros E. apply Hv in E as [? _]. split; [done|by left].
  - intros [= <-]. rewrite lastn_length, length_app. cbn [length]. split; [lia|]. right. exists block, vs. split_and!; [done..|].
    destruct (decide (v ∈ map fst vs)) as [|Hni]; [done|]. apply positions_nil in Hni. by rewrite Hni in Ep.
Qed.

Lemma handle_event_same cfg block m m' : handle_event cfg block m = (Ok tt, m') -> same_tracking m m'.
Proof.
  unfold handle_event, mbind, M_bind, getS, liftR, modS. destruct (is_linecrossing_event block) as [[i r]|]; [|by intros [= <-]].
  destruct (find_human _ i); [|by intros [= <-]]. destruct (stoi i); [|done]. destruct (analyze_risk_and_alert _ _ _); [|done]. by intros [= <-].
Qed.

Lemma monitor_step_ok {D} `{Sqlite D} cfg (n : nat) buffer now (d : D) m m' : history_size cfg = Z.of_nat n -> (1 <= n)%nat ->
  Z.of_nat n < 2 ^ 31 -> 1 <= frame_cache_size cfg -> tracking_ok cfg n m ->
  monitor_step cfg buffer now d m = (Ok tt, m') -> tracking_ok cfg n m'.
Proof.
  intros Hh Hn Hb Hs Hm. unfold monitor_step. unfold mbind at 1, M_bind at 1. unfold modS at 1.
  set (m1 := set_xml _ m). assert (H1 : tracking_ok cfg n m1) by (eapply same_tracking_ok, Hm; done).
  unfold mbind at 1, M_bind at 1, getS at 1. unfold mbind at 1, M_bind at 1.
  set (r := if reload_interval <? _ then _ else _). assert (Hr : same_tracking m1 (snd (r m1))).
  { unfold r. destruct (reload_interval <? now - last_reload m1); [|done]. destruct (load_keeps cfg d) as [K1 K2].
    unfold mbind, M_bind. pose proof (on_globals_same _ m1 K1) as [E1 E2]. destruct (on_globals (load_dots_and_center cfg d) m1) as [[[]|e] m2]; [|done].
    cbn [snd] in *. pose proof (on_globals_same _ m2 K2) as [E3 E4]. destruct (on_globals (load_rule_lines cfg d) m2) as [[[]|e] m3]; cbn in *;
    split; cbn; congruence. }
  destruct (r m1) as [[[]|e] m2]; [|done]. cbn [snd] in Hr. apply (same_tracking_ok _ _ _ _ Hr) in H1. clear Hr r.
  unfold mbind at 1, M_bind at 1, getS at 1. destruct (contains _ (xml_buffer m2)); [|by intros [= <-]].
  unfold mbind at 1, M_bind at 1. unfold modS at 1. set (m3 := set_xml "" m2).
  assert (H3 : tracking_ok cfg n m3) by (eapply same_tracking_ok, H1; done).
  unfold mbind, M_bind. destruct (handle_frame cfg (xml_buffer m2) m3) as [[[]|e] m4] eqn:E4; [|done].
  intros E5. eapply same_tracking_ok; [by eapply handle_event_same|]. by eapply handle_frame_ok.
Qed.

(** C8: whatever arrives, and whatever is in the database when the settings are loaded again, the
    monitor never remembers more frames or positions than configured, never a vehicle without a
    position, and only vehicles that the newest frame shows or a cached frame still names. *)
Theorem tracking_invariant {D} `{Sqlite D} (cfg : AppConfig) (n : nat) (g : globals) (t : Z) (m : monitor) :
  history_size cfg = Z.of_nat n -> (1 <= n)%nat -> Z.of_nat n < 2 ^ 31 -> 1 <= frame_cache_size cfg ->
  vehicle_trajectory_history g = ∅ -> rtc (line_read (D := D) cfg) (mk_monitor g "" [] t []) m -> tracking_ok cfg n m.
Proof.
  intros Hh Hn Hb Hs Hg. apply (rtc_ind_r (fun m => tracking_ok cfg n m)).
  - split; [cbn; lia|]. cbn. rewrite Hg. intros v h E. by rewrite lookup_empty in E.
  - intros m1 m2 _ Hstep Hm. destruct Hstep. by eapply monitor_step_ok.
Qed.

Lemma tracking_invariant_witness :
  let m := snd (monitor_step street_config car_frame 5 Memory.empty (mk_monitor initial_globals "" [] 0 [])) in
  length (frame_cache m) = 1%nat /\ tracking_ok street_config 10 m.
Proof.
  intros m. split; [by vm_compute|].
  apply (tracking_invariant (D := Memory.store) street_config 10 initial_globals 0 m); [done|lia|lia|cbn; lia|done|].
  apply rtc_once. apply (read_line _ car_frame 5 Memory.empty).
  assert (E : fst (monitor_step street_config car_frame 5 Memory.empty (mk_monitor initial_globals "" [] 0 [])) = Ok tt) by (by vm_compute).
  unfold m. rewrite <- E. apply surjective_pairing.
Defined.

(** ** Captured pictures *)

Lemma days_nonneg y m d : valid_date y m d -> 1970 <= y -> 0 <= days y m d.
Proof.
  intros [Hm Hd] Hy. unfold days. revert m Hm Hd. refine (month_cases _ _ _ _ _ _ _ _ _ _ _ _ _); intros Hd; months; Z.div_mod_to_equations; lia.
Qed.

Lemma timegm_nonneg t : valid_time t -> 1970 <= year t -> 0 <= timegm t.
Proof. intros (Hd & Hh & Hm & Hs) Hy. pose proof (days_nonneg _ _ _ Hd Hy). unfold timegm. lia. Qed.

Lemma print_time_not_numeric t suffix : numeric_text (print_time t suffix) = false.
Proof.
  unfold numeric_text, print_time. rewrite !all_chars_app. cbn [all_chars]. rewrite !andb_false_l, !andb_false_r. done.
Qed.

(** The picture taken for an event is stored with the time of the event nine hours later: for
    every valid date and time since 1970, leap years, ends of months and years included, and whatever
    follows the seconds in the stream, the new row holds exactly the bytes ffmpeg wrote and the Korean
    time. *)
Theorem capture_korean_time {D} `{SL : SqliteLaws D} (cfg : AppConfig) (popen : string -> option (list Z)) (t : tm)
    (suffix : string) (b : Z) (image : list Z) (d : D) :
  healthy d -> valid_time t -> 1970 <= year t < 10000 -> popen (c_str (capture_command cfg)) = Some (b :: image) ->
  exists d', capture_screen_and_save cfg popen (print_time t suffix) d = (Ok tt, d')
  /\ view d' = with_detections (t_detections (view d) ++ [mk_Detection (b :: image) (print_time (nine_hours_later t) "KST")]) (view d).
Proof.
  intros Hh Ht Hy Hp. unfold capture_screen_and_save. rewrite get_time_print by (done || lia).
  assert (str_empty (print_time t suffix) = false) as ->.
  { unfold print_time. destruct (to_string_spec (year t) ltac:(lia)) as (_ & _ & Hne). by destruct (to_string (year t)). }
  pose proof (timegm_nonneg t Ht ltac:(lia)). destruct (Z.eqb_spec (timegm t) (-1)); [lia|]. rewrite gmtime_nine_hours, Hp by done.
  set (det := mk_Detection (b :: image) (print_time (nine_hours_later t) "KST")).
  assert (Hok : stmt_ok (InsDetection det) = true) by (cbn; by rewrite print_time_not_numeric).
  destruct (exec_spec (InsDetection det) d Hok Hh) as ([k|e] & d' & E & _ & Hv); [|by destruct Hv].
  unfold insert_data, try_catch, mbind, M_bind. cbn [stmt_text stmt_args det imageBlob timestamp] in E. rewrite E.
  injection Hv as _ Hv. exists d'. by rewrite <- Hv.
Qed.

Lemma capture_korean_time_witness :
  exists d', capture_screen_and_save street_config (fun _ => Some [255; 216]) "2024-02-28T20:15:09.500Z" Memory.empty = (Ok tt, d')
  /\ t_detections (view d') = [mk_Detection [255; 216] "2024-02-29T05:15:09KST"].
Proof.
  destruct (capture_korean_time (SL := Memory.laws) street_config (fun _ => Some [255; 216]) (mk_tm 2024 2 28 20 15 9) ".500Z" 255 [216] Memory.empty)
    as (d' & E & Hv); [apply empty_healthy|by vm_compute|cbn; lia|done|].
  exists d'. split; [exact E|]. by rewrite Hv.
Defined.

(** ** The boards *)

Definition writes (events : list port_event) : list (list Z) :=
  omap (fun ev => match ev with ev_write f => Some f | _ => None end) events.

Lemma writes_failed frame k : writes (failed_attempts frame k) = replicate k frame.
Proof. unfold failed_attempts, writes. induction k as [|k IH]; cbn; [done|]. by rewrite IH. Qed.

(** A command to a board: the attempts and their frames. *)
Lemma command_attempts id command line : exists n, (1 <= n <= 3)%nat
  /\ writes (snd (send_frame_with_ack id command 3 500 line)) = replicate n (encode_frame id command [])
  /\ (fst (send_frame_with_ack id command 3 500 line) = true <-> exists k, (k < 3)%nat /\ attempt_acked 500 line k = true).
Proof.
  pose proof (send_frame_with_ack_true id command 3 500 line) as Ht. unfold send_frame_with_ack in *.
  destruct (send_attempts_spec (encode_frame id command []) (Z.to_nat 3) 500 line) as [(k & Hk & _ & _ & E)|[_ E]]; rewrite E in *.
  - exists (S k). split; [lia|]. split; [|done]. cbn [snd]. unfold writes. rewrite omap_app. fold (writes (failed_attempts (encode_frame id command []) k)).
    rewrite writes_failed, replicate_S_end. done.
  - exists 3%nat. split; [lia|]. split; [|done]. apply writes_failed.
Qed.

(** The frames sent reach the board: its mask and the command are read back from each of them. *)
Definition commands_board (board command : Z) (r : board_result) (port : string) (line : list (list (option Z))) : Prop :=
  exists ok events, r = board_done port ok events
  /\ (1 <= length (writes events) <= 3)%nat
  /\ Forall (fun f => decode_frame f = Some (2 ^ (board - 1), command, [], [])) (writes events)
  /\ (ok = true <-> exists k, (k < 3)%nat /\ attempt_acked 500 line k = true).

Lemma known_board board port : (board, port) ∈ board_info ->
  get_uart_port_for_board board = port /\ str_empty port = false /\ 1 <= board <= 4.
Proof. unfold board_info. rewrite !elem_of_cons, elem_of_nil. intros H. destruct_or!; try done; simplify_eq; (split; [done|]); (split; [done|lia]). Qed.

Lemma control_board_command board port command p : (board, port) ∈ board_info -> can_open p port = true ->
  command = CMD_LCD_ON \/ command = CMD_LCD_OFF -> commands_board board command (control_board board command p) port (hears p).
Proof.
  intros (Ep & Hne & Hb)%known_board Hc Hcmd. destruct (command_attempts board command (hears p)) as (n & Hn & Ew & Hok).
  assert (E : control_board board command p = let '(ok, events) := send_frame_with_ack board command 3 500 (hears p) in board_done port ok events).
  { unfold control_board. rewrite Ep, Hne, Hc. cbn [negb]. by destruct Hcmd as [-> | ->]. }
  rewrite E. unfold commands_board. destruct (send_frame_with_ack board command 3 500 (hears p)) as [ok events]. cbn [fst snd] in *. exists ok, events.
  rewrite Ew, length_replicate. split; [done|]. split; [done|]. split; [|done].
  apply Forall_replicate. pose proof (encode_frame_decodes board command [] []) as Hd. rewrite app_nil_r in Hd. rewrite Hd.
  assert (board = 1 \/ board = 2 \/ board = 3 \/ board = 4) as Hb4 by lia. destruct Hcmd as [-> | ->], Hb4 as [-> |[-> |[-> | ->]]]; reflexivity.
Qed.

(** C37: an alert for one of the four boards switches its display on, captures the scene and switches
    the display off again: each command goes to the port of that board and of no other, in one to
    three frames from which a receiver reads the mask of the board and the command, and it counts as
    acknowledged exactly when one of the three attempts hears the acknowledgement. *)
Theorem alert_switches_display (board : Z) (port utc : string) (on off : ports) :
  (board, port) ∈ board_info -> can_open on port = true -> can_open off port = true ->
  exists r1 r2, control_board_async board utc on off = [async_board r1; async_capture utc; async_board r2]
  /\ commands_board board CMD_LCD_ON r1 port (hears on) /\ commands_board board CMD_LCD_OFF r2 port (hears off)
  /\ forall board', (board', port) ∈ board_info -> board' = board.
Proof.
  intros Hb Hon Hoff. exists (control_board board CMD_LCD_ON on), (control_board board CMD_LCD_OFF off).
  pose proof (control_board_command board port CMD_LCD_ON on Hb Hon ltac:(by left)) as H1.
  pose proof (control_board_command board port CMD_LCD_OFF off Hb Hoff ltac:(by right)) as H2.
  split; [|split; [done|split; [done|]]].
  - unfold control_board_async. change 0x01 with CMD_LCD_ON. change 0x02 with CMD_LCD_OFF. by destruct H1 as (ok & evs & -> & _).
  - intros board' Hb'. clear -Hb Hb'. unfold board_info in *. rewrite !elem_of_cons, elem_of_nil in *. destruct_or!; by simplify_eq.
Qed.

Lemma alert_switches_display_witness :
  exists r1 r2, control_board_async 3 "" (mk_ports (fun _ => true) [[]; map Some (reply_frame ACK)]) (mk_ports (fun _ => true) [])
    = [async_board r1; async_capture ""; async_board r2]
  /\ commands_board 3 CMD_LCD_ON r1 "/dev/ttyAMA1" [[]; map Some (reply_frame ACK)].
Proof.
  destruct (alert_switches_display 3 "/dev/ttyAMA1" "" (mk_ports (fun _ => true) [[]; map Some (reply_frame ACK)]) (mk_ports (fun _ => true) []))
    as (r1 & r2 & E & H & _).
  - unfold board_info. do 2 apply list_elem_of_further. apply list_elem_of_here.
  - reflexivity.
  - reflexivity.
  - exists r1, r2. split; [exact E|exact H].
Defined.
