(* ===== verification/ControlText.v ===== *)
(** * The monitor on the texts of the camera

    The events and frames as the camera writes them: what the expressions find in them, and what the
    monitor then does. *)

From S2P Require Import Prelude Str Regex BoardControl Decimal Json Numbers Config Calendar Hash Db DbSpec Control ControlSpec.
From Stdlib Require Import Ascii SpecFloat.
From Stdlib Require String.

Local Open Scope string_scope.
Local Open Scope Z_scope.

(** ** Events *)

(** The notification of a crossing: the topic, the object, the rule and the state, with any text
    between. *)
Record event := mk_event {
  e_start : string; e_dialect : string; e_topic : string; e_gap1 : string; e_object : string; e_gap2 : string;
  e_rule : string; e_gap3 : string; e_end : string }.

Definition topic_open : string := "<wsnt:Topic".
Definition state_item : string := simple_item "State" +:+ "true" +:+ quote.

(** The text before the object, before the rule and before the state. *)
Definition event_head (e : event) : string :=
  e_start e +:+ topic_open +:+ e_dialect e +:+ ">" +:+ e_topic e +:+ "</wsnt:Topic>" +:+ e_gap1 e.
Definition event_mid (e : event) : string :=
  event_head e +:+ simple_item "ObjectId" +:+ e_object e +:+ item_close +:+ e_gap2 e.
Definition event_tail (e : event) : string :=
  event_mid e +:+ simple_item "RuleName" +:+ e_rule e +:+ item_close +:+ e_gap3 e.
Definition event_text (e : event) : string := event_tail e +:+ state_item +:+ e_end e.

(** None of the parts begins earlier than it is meant to. *)
Definition event_ok (e : event) : bool :=
  clean topic_open (e_start e) && all_chars not_gt (e_dialect e) && all_chars not_lt (e_topic e)
  && contains "LineCrossing" (e_topic e)
  && clean (simple_item "ObjectId") (event_head e) && all_chars is_digit (e_object e) && negb (str_empty (e_object e))
  && clean (simple_item "RuleName") (event_mid e) && all_chars not_quote (e_rule e) && negb (str_empty (e_rule e))
  && clean state_item (event_tail e).

Lemma str_nonempty s : negb (str_empty s) = true -> s <> "".
Proof. by destruct s. Qed.

(** A literal, a group and a closing literal. *)
Lemma search_item l p d close g s : clean l g = true -> all_chars p d = true -> d <> "" -> stops p (close +:+ s) = true ->
  regex_search (rseq [lit l; RGroup 1 (rplus p); lit close]) (g +:+ l +:+ d +:+ close +:+ s) = Some ([(1%nat, d)], s).
Proof.
  intros Hc Hd Hne Hs. cbn [rseq]. rewrite regex_search_gap by (by apply clean_absent). apply regex_search_here.
  unfold match_here. rewrite rmatch_seq, rmatch_lit, rmatch_seq. apply rmatch_group_plus; [done..|].
  by rewrite rmatch_seq, rmatch_lit.
Qed.

Lemma search_lit l g s : clean l g = true -> regex_search (lit l) (g +:+ l +:+ s) = Some ([], s).
Proof.
  intros Hc. rewrite (regex_search_skip l); [|by intros s' Hs; apply rmatch_lit_none|by apply clean_absent].
  apply regex_search_here. unfold match_here. by rewrite rmatch_lit.
Qed.

(** An event as it is written is recognised, with its object and its rule. *)
Lemma event_recognised e : event_ok e = true -> is_linecrossing_event (event_text e) = Some (e_object e, e_rule e).
Proof.
  unfold event_ok. intros H. breflect. unfold is_linecrossing_event.
  assert (Et : exists cs s, regex_search topic_regex (event_text e) = Some (cs, s) /\ group cs 1 = e_topic e).
  { unfold event_text, event_tail, event_mid, event_head, topic_regex. cbn [rseq]. rewrite !append_assoc.
    rewrite regex_search_gap by (by apply clean_absent). eexists _, _. split; [apply regex_search_here; unfold match_here|].
    - rewrite rmatch_seq, rmatch_lit, rmatch_seq. apply rmatch_star; [done|done|]. rewrite rmatch_seq, rmatch_lit, rmatch_seq.
      apply rmatch_group_star; [done|done|]. rewrite rmatch_seq, rmatch_lit. reflexivity.
    - done. }
  destruct Et as (cs & s & -> & ->). rewrite H7.
  assert (Ei : regex_search id_regex (event_text e) = Some ([(1%nat, e_object e)], e_gap2 e +:+ simple_item "RuleName" +:+ e_rule e +:+ item_close +:+ e_gap3 e +:+ state_item +:+ e_end e)).
  { unfold event_text, event_tail, event_mid. rewrite !append_assoc. apply search_item; [done|done|by apply str_nonempty|done]. }
  assert (Er : regex_search rule_regex (event_text e) = Some ([(1%nat, e_rule e)], e_gap3 e +:+ state_item +:+ e_end e)).
  { unfold event_text, event_tail. rewrite !append_assoc. apply search_item; [done|done|by apply str_nonempty|done]. }
  rewrite Ei, Er. unfold state_regex, event_text. fold state_item. by rewrite search_lit.
Qed.

(** ** Frames with a person *)

Record sighting := mk_sighting {
  s_start : string; s_attrs : string; s_utc : string; s_more : string; s_gap1 : string; s_object : string;
  s_gap2 : string; s_type_attrs : string; s_end : string }.

Definition frame_open : string := "<tt:Frame".
Definition utc_open : string := attr_open "UtcTime".
Definition object_named (id : string) : string := attr_open "<tt:Object ObjectId" +:+ id +:+ quote.

Definition sighting_head (s : sighting) : string :=
  s_start s +:+ frame_open +:+ s_attrs s +:+ utc_open +:+ s_utc s +:+ quote +:+ s_more s +:+ ">" +:+ s_gap1 s.
Definition sighting_text (s : sighting) : string :=
  sighting_head s +:+ object_named (s_object s) +:+ s_gap2 s +:+ "<tt:Type" +:+ s_type_attrs s +:+ ">Human</tt:Type>" +:+ s_end s.

Definition sighting_ok (s : sighting) : bool :=
  clean frame_open (s_start s) && all_chars not_gt (s_attrs s) && all_chars not_gt (s_more s)
  && all_chars not_quote (s_utc s) && negb (str_empty (s_utc s))
  && absent utc_open (str_drop 1 utc_open +:+ s_utc s +:+ quote +:+ s_more s) ">"
  && clean (object_named (s_object s)) (sighting_head s)
  && clean "<tt:Type" (s_gap2 s) && all_chars not_gt (s_type_attrs s).

Lemma prefixb_stop c l z t : has_char c l = false -> prefixb l (z +:+ String c t) = prefixb l (z +:+ String c "").
Proof.
  revert z. induction l as [|d l IH]; intros z Hl; [by destruct z|]. rewrite has_char_cons in Hl. breflect.
  destruct z as [|e z]; cbn [String.append prefixb].
  - rewrite Ascii.eqb_sym in H. by rewrite H.
  - by rewrite IH.
Qed.

Lemma absent_stop c l z t : has_char c l = false -> absent l z (String c t) = absent l z (String c "").
Proof.
  intros Hl. induction z as [|d z IH]; [done|]. cbn [absent]. rewrite IH. f_equal. f_equal. rewrite !append_cons.
  by apply (prefixb_stop c l (String d z)).
Qed.

Lemma sighting_is_human s : sighting_ok s = true -> is_human (sighting_text s) (s_object s) = true.
Proof.
  unfold sighting_ok. intros H. breflect. unfold is_human, human_regex, type_regex_from. cbn [app rseq]. fold (object_named (s_object s)).
  unfold sighting_text. rewrite regex_search_gap by (by apply clean_absent).
  rewrite (regex_search_here _ _ ([(1%nat, "Human")], s_end s)); [done|]. unfold match_here. rewrite rmatch_seq, rmatch_lit, rmatch_seq.
  apply (star_lazy_gap _ "<tt:Type"); [|by apply clean_absent|by intros s' Hs'; apply rmatch_lit_none|].
  - clear. by induction (s_gap2 s).
  - rewrite rmatch_seq, rmatch_lit, rmatch_seq. apply rmatch_star; [done|done|].
    change (">Human</tt:Type>" +:+ s_end s) with (">" +:+ "Human" +:+ "</tt:Type>" +:+ s_end s). rewrite rmatch_seq, rmatch_lit, rmatch_seq.
    apply rmatch_group_star; [done|done|]. rewrite rmatch_seq, rmatch_lit. reflexivity.
Qed.

Lemma sighting_utc s : sighting_ok s = true ->
  exists cs rest, regex_search utc_regex (sighting_text s) = Some (cs, rest) /\ group cs 1 = s_utc s.
Proof.
  unfold sighting_ok. intros H. breflect. unfold sighting_text, sighting_head, utc_regex. cbn [rseq]. rewrite !append_assoc.
  fold frame_open utc_open. rewrite regex_search_gap by (by apply clean_absent).
  eexists _, _. split; [apply regex_search_here; unfold match_here|].
  - rewrite rmatch_seq, rmatch_lit, rmatch_seq.
    set (rest := s_gap1 s +:+ _).
    assert (E : utc_open +:+ s_utc s +:+ quote +:+ s_more s +:+ ">" +:+ rest
                = String "U" (str_drop 1 utc_open +:+ s_utc s +:+ quote +:+ s_more s) +:+ ">" +:+ rest).
    { rewrite (append_cons "U" (str_drop 1 utc_open +:+ _)), !append_assoc. reflexivity. }
    rewrite E. apply (rmatch_star_last not_gt utc_open); [by intros s' cs' Hs'; rewrite rmatch_seq; apply rmatch_lit_none|done| |done|done|].
    + cbn [String.append]. by rewrite absent_stop.
    + rewrite <- E,  rmatch_seq, rmatch_lit, rmatch_seq.
      apply rmatch_group_plus; [done|by apply str_nonempty|done|]. rewrite rmatch_seq, rmatch_lit, rmatch_seq.
      apply rmatch_star; [done|done|]. rewrite rmatch_seq, rmatch_lit. reflexivity.
  - done.
Qed.

(** ** A crossing *)

Lemma find_human_newest frames s object : sighting_ok s = true -> s_object s = object ->
  Forall (fun f => is_human f object = false) frames -> forall older,
  find_human (frames ++ sighting_text s :: older) object = Some (s_utc s).
Proof.
  intros Hs <- Hf older. induction Hf as [|f frames Hf _ IH]; cbn [app find_human].
  - rewrite sighting_is_human by done. destruct (sighting_utc s Hs) as (cs & rest & -> & ->). done.
  - by rewrite Hf.
Qed.

Lemma find_human_none frames object : Forall (fun f => is_human f object = false) frames -> find_human frames object = None.
Proof. induction 1 as [|f frames Hf _ IH]; cbn [find_human]; [done|]. by rewrite Hf. Qed.

Lemma stoi_digits s : all_chars is_digit s = true -> s <> "" -> dec_value 0 s <= INT_MAX -> stoi s = Ok (dec_value 0 s).
Proof.
  intros Hd Hne Hm. unfold stoi. rewrite take_digits_all by done. destruct s; [done|]. cbn [str_empty].
  destruct (Z.leb_spec (dec_value 0 (String a s)) INT_MAX); [done|lia].
Qed.

(** C16: when the camera reports that an object crossed a known line and a cached frame shows the
    object as a person, the newest such frame's time is attached to an alert for every endangering
    vehicle, and only for those; when no cached frame shows a person with that number, nothing
    happens. *)
Theorem crossing_raises_alerts (cfg : AppConfig) (e : event) (l : Line) (m : monitor) :
  event_ok e = true -> dec_value 0 (e_object e) <= INT_MAX ->
  rule_lines (m_globals m) !! e_rule e = Some l -> displays_in_range (m_globals m) ->
  (forall older s newer, frame_cache m = (older ++ sighting_text s :: newer)%list -> sighting_ok s = true ->
     s_object s = e_object e -> Forall (fun f => is_human f (e_object e) = false) newer ->
     exists started, handle_event cfg (event_text e) m = (Ok tt, add_alerts (map (fun a => (a, s_utc s)) started) m)
     /\ forall v b, (v, b) ∈ started <-> exists h, vehicle_trajectory_history (m_globals m) !! v = Some h /\ endangers cfg (m_globals m) l h b)
  /\ (Forall (fun f => is_human f (e_object e) = false) (frame_cache m) -> handle_event cfg (event_text e) m = (Ok tt, m)).
Proof.
  intros He Hi Hl Hd. unfold handle_event. rewrite event_recognised by done. unfold mbind, M_bind, getS. split.
  - intros older s newer -> Hs Ho Hn. rewrite rev_app_distr. cbn [rev]. rewrite <- app_assoc. cbn [app].
    rewrite find_human_newest by (done || by apply Forall_rev). unfold liftR.
    rewrite stoi_digits by (unfold event_ok in He; breflect; (done || by apply str_nonempty)).
    destruct (analyze_spec cfg (m_globals m) (e_rule e) l Hl Hd) as (started & -> & _ & Hs'). by exists started.
  - intros Hf. rewrite find_human_none by (by apply Forall_rev). done.
Qed.

Definition gate_event : event :=
  mk_event "<tt:MetadataStream><tt:Event>" "" "tns1:RuleEngine/LineCrossing" "" "12" "" "gate" "" "/></tt:Event></tt:MetadataStream>".
Definition walker : sighting :=
  mk_sighting "<tt:MetadataStream><tt:VideoAnalytics>" " " "2025-07-20T05:33:44.123Z" "" "" "12" "><tt:Class>" "" "</tt:Class></tt:Object></tt:Frame></tt:VideoAnalytics></tt:MetadataStream>".

Lemma crossing_raises_alerts_witness :
  exists started, handle_event street_config (event_text gate_event) (mk_monitor (street gate) "" [sighting_text walker] 0 [])
    = (Ok tt, mk_monitor (street gate) "" [sighting_text walker] 0 (map (fun a => (a, "2025-07-20T05:33:44.123Z")) started)).
Proof.
  destruct (crossing_raises_alerts street_config gate_event gate (mk_monitor (street gate) "" [sighting_text walker] 0 [])) as [H _];
    [by vm_compute|by vm_compute|by vm_compute|apply street_in_range|].
  destruct (H [] walker [] eq_refl) as (started & E & _); [by vm_compute|done|constructor|]. exists started. exact E.
Defined.

(** ** A number that is too large *)

Definition object_start : string := attr_open "<tt:Object ObjectId".
Definition id_close : string := quote +:+ ">".

(** A line of the stream with an object whose number does not fit an [int]. *)
Record bad_line := mk_bad { b_start : string; b_id : string; b_inner : string; b_rest : string }.

Definition bad_text (b : bad_line) : string :=
  b_start b +:+ object_start +:+ b_id b +:+ id_close +:+ b_inner b +:+ "</tt:Object>" +:+ b_rest b.

Definition bad_ok (b : bad_line) : bool :=
  clean object_start (b_start b) && all_chars is_digit (b_id b) && negb (str_empty (b_id b)) && (INT_MAX <? dec_value 0 (b_id b))
  && clean "</tt:Object>" (b_inner b) && contains_frame_block (bad_text b) && contains "</tt:MetadataStream>" (bad_text b)
  && all_chars line_char (bad_text b) && (Z.of_nat (String.length (bad_text b)) <? 8191).

Lemma bad_object b rest : bad_ok b = true ->
  exists cs s, regex_search object_block_regex (bad_text b +:+ rest) = Some (cs, s) /\ group cs 1 = b_id b.
Proof.
  unfold bad_ok. intros H. breflect. unfold bad_text, object_block_regex. cbn [rseq]. rewrite !append_assoc. fold object_start id_close.
  rewrite regex_search_gap by (by apply clean_absent). eexists _, _. split; [apply regex_search_here; unfold match_here|].
  - rewrite rmatch_seq, rmatch_lit, rmatch_seq. apply rmatch_group_plus; [done|by apply str_nonempty|done|].
    rewrite rmatch_seq, rmatch_lit, rmatch_seq. apply (rmatch_group_lazy _ _ "</tt:Object>"); [|by apply clean_absent| |].
    + clear. by induction (b_inner b).
    + intros s' cs' Hs'. rewrite rmatch_seq. by apply rmatch_lit_none.
    + rewrite rmatch_seq, rmatch_lit. reflexivity.
  - done.
Qed.

Lemma bad_vehicles b rest : bad_ok b = true -> frame_vehicles (bad_text b +:+ rest) = Throw (out_of_range "stoi").
Proof.
  intros Hb. destruct (bad_object b rest Hb) as (cs & s & E & Eg). unfold frame_vehicles, regex_iterator. cbn [matches]. rewrite E.
  cbn [objects_of]. rewrite Eg. unfold bad_ok in Hb. breflect. unfold stoi. rewrite take_digits_all by done.
  destruct (b_id b); [done|]. cbn [str_empty]. destruct (Z.leb_spec (dec_value 0 (String a s0)) INT_MAX); [lia|done].
Qed.

Lemma update_throws cfg block cache g e : frame_vehicles block = Throw e -> fst (update_vehicle_positions cfg block cache g) = Throw e.
Proof.
  unfold frame_vehicles, update_vehicle_positions, mbind, M_bind. intros E.
  pose proof (track_objects_spec cfg (regex_iterator object_block_regex block) ∅ g) as Ht. rewrite E in Ht.
  destruct (track_objects _ _ _ _) as [r g1]. cbn in Ht. by subst.
Qed.

Lemma fgets_line l s n : all_chars line_char l = true -> (String.length l < n)%nat ->
  fgets n (l +:+ String newline s) = (l +:+ String newline "", s).
Proof.
  revert n. induction l as [|c l IH]; intros [|n] Hl Hn; cbn [String.length] in Hn; try lia; cbn [String.append fgets].
  - by rewrite Ascii.eqb_refl.
  - cbn [all_chars] in Hl. breflect. rewrite IH by (done || lia). unfold line_char in H. breflect. by destruct (Ascii.eqb c newline).
Qed.

Lemma contains_app l s t : contains l s = true -> contains l (s +:+ t) = true.
Proof. unfold contains. destruct (find_sub l s) as [e|] eqn:E; [|done]. intros _. by rewrite (find_sub_app _ _ t _ E). Qed.

Lemma frame_block_app s t : contains_frame_block s = true -> contains_frame_block (s +:+ t) = true.
Proof. unfold contains_frame_block. intros. breflect. by rewrite !contains_app. Qed.

Lemma c_str_line l : all_chars line_char l = true -> c_str (l +:+ String newline "") = l +:+ String newline "".
Proof.
  intros Hl. apply c_str_id. rewrite all_chars_app, andb_true_r. revert Hl. apply all_chars_impl. intros c. unfold line_char.
  by destruct (Ascii.eqb c newline), (code c =? 0).
Qed.

Lemma bad_first_line b more : bad_ok b = true -> exists ls,
  fgets_all (String.length (bad_text b +:+ String newline more)) (bad_text b +:+ String newline more)
  = (bad_text b +:+ String newline "") :: ls.
Proof.
  unfold bad_ok. intros Hb. breflect. destruct (bad_text b) as [|c s] eqn:E.
  - done.
  - rewrite append_cons. cbn [String.length fgets_all]. rewrite <- append_cons, fgets_line; [by eexists|done|].
    unfold BUFFER_SIZE. lia.
Qed.

Lemma bad_step {D} `{Sqlite D} cfg b now (d : D) m : bad_ok b = true -> xml_buffer m = "" -> now - last_reload m <= reload_interval ->
  fst (monitor_step cfg (bad_text b +:+ String newline "") now d m) = Throw (out_of_range "stoi").
Proof.
  intros Hb Hx Hr. pose proof (bad_vehicles b (String newline "") Hb) as Hv. pose proof Hb as Hb'. unfold bad_ok in Hb'. breflect.
  unfold monitor_step, mbind, M_bind, modS, getS. cbn [xml_buffer set_xml last_reload]. rewrite Hx.
  rewrite c_str_line by done. destruct (Z.ltb_spec reload_interval (now - last_reload m)) as [?|_]; [lia|].
  unfold mret, M_ret. cbn [xml_buffer set_xml String.append]. rewrite contains_app by done.
  unfold handle_frame, mbind, M_bind, modS, getS. rewrite frame_block_app by done. unfold on_globals. cbn [m_globals set_cache set_xml frame_cache].
  match goal with |- context [update_vehicle_positions ?c ?bl ?ca ?g] =>
    pose proof (update_throws c bl ca g _ Hv) as E; destruct (update_vehicle_positions c bl ca g) as [r g'] end.
  cbn in E. by subst.
Qed.

(** One object number above INT_MAX in the first frame ends the whole monitor: [stoi] throws in
    [update_vehicle_positions], which is outside the only handlers below [main], so that [main] catches
    the exception, and returns 1, whatever the camera sends afterwards. *)
Theorem monitor_stops {D} `{Sqlite D} (env_file config_file : option string) (e : environment) (open_db : string -> res D)
    (popen : string -> option string) (clock : nat -> Z) (db_at : D -> nat -> D)
    (vars : environment) (cfg : AppConfig) (d d1 : D) (u : unit) (g : globals) (b : bad_line) (more : string) :
  load_all_config env_file config_file e empty_config = (Ok (true, vars), cfg) ->
  open_db (db_file cfg) = Ok d -> create_detections_table d = (Ok u, d1) ->
  (load_dots_and_center cfg d1 ;; load_rule_lines cfg d1) initial_globals = (Ok tt, g) ->
  bad_ok b = true -> popen (c_str (stream_command cfg)) = Some (bad_text b +:+ String newline more) ->
  clock 1%nat - clock 0%nat <= reload_interval ->
  main env_file config_file e open_db popen clock db_at = Ok 1.
Proof.
  intros E1 E2 E3 E4 Hb E5 Hc. unfold main. rewrite E1, E2, E3, E4. unfold metadata_thread. rewrite E5.
  destruct (bad_first_line b more Hb) as [ls ->]. cbn [monitor_loop]. unfold mbind at 1, M_bind at 1.
  pose proof (bad_step cfg b (clock 1%nat) (db_at d1 1%nat) (mk_monitor g "" [] (clock 0%nat) []) Hb eq_refl Hc) as E.
  destruct (monitor_step _ _ _ _ _) as [r m']. cbn [fst] in E. by subst.
Qed.

#[local] Instance toy_sqlite : Sqlite unit := {
  sql_exec _ _ d := (Ok 0, d);
  sql_query _ _ _ := ([], None);
  sql_begin d := (Ok tt, d);
  sql_commit d := (Ok tt, d);
  sql_rollback d := d;
  sql_real_text _ := "" }.

Definition settings_text : string :=
  let q s := quote +:+ s +:+ quote in
  let sets k v := q k +:+ ":" +:+ v in
  "{" +:+ sets "detection" ("{" +:+ sets "dist_threshold" "10.5," +:+ sets "parallelism_threshold" "0.75}") +:+ ","
  +:+ sets "cache" ("{" +:+ sets "frame_cache_size" "15," +:+ sets "history_size" "10}") +:+ ","
  +:+ sets "scale" ("{" +:+ sets "x" "3840," +:+ sets "y" "2160," +:+ sets "base_x" "960," +:+ sets "base_y" "540}") +:+ ","
  +:+ sets "board" ("{" +:+ sets "retry_count" "3," +:+ sets "timeout_ms" "500,"
      +:+ sets "ports" ("{" +:+ sets "1" (q "a") +:+ "," +:+ sets "2" (q "b") +:+ "," +:+ sets "3" (q "c") +:+ "," +:+ sets "4" (q "d") +:+ "}}"))
  +:+ "}".

Definition loaded := load_all_config (Some (file_text some_items)) (Some settings_text) ∅ empty_config.
Definition loaded_vars : environment := match fst loaded with Ok (_, vars) => vars | Throw _ => ∅ end.

Definition big_object : bad_line :=
  mk_bad "<tt:MetadataStream><tt:VideoAnalytics><tt:Frame>" "2147483648" "" "</tt:Frame></tt:VideoAnalytics></tt:MetadataStream>".

Lemma monitor_stops_witness :
  main (Some (file_text some_items)) (Some settings_text) ∅ (fun _ => Ok tt)
    (fun _ => Some (bad_text big_object +:+ String newline "")) (fun _ => 0) (fun d _ => d) = Ok 1.
Proof.
  apply (monitor_stops (Some (file_text some_items)) (Some settings_text) ∅ (fun _ => Ok tt)
    (fun _ => Some (bad_text big_object +:+ String newline "")) (fun _ => 0) (fun d _ => d)
    loaded_vars (snd loaded) tt tt tt initial_globals big_object "").
  - vm_compute. reflexivity.
  - reflexivity.
  - reflexivity.
  - vm_compute. reflexivity.
  - vm_compute. reflexivity.
  - reflexivity.
  - vm_compute. discriminate.
Defined.
